(* ===== verification/_CoqProject ===== *)
-Q . S2P
Prelude.v
Outcome.v
Kernel.v
Spinlock.v
Kalloc.v
Proc.v
Sched.v
Cprintf.v
Hist.v
Info.v
Sem.v
Sleeplock.v
Bio.v
Log.v
Txn.v
Edit.v
Pipe.v
Inode.v
Alloc.v
Icache.v
Fs.v
Path.v
Console.v
Line.v
File.v
Life.v
Grep.v
Sh.v
Kbd.v
Machine.v
Apic.v
Ata.v
Ide.v
Elf.v
Boot.v
Mp.v
Exec.v
Content.v
ReadWrite.v
Fileio.v
Dir.v
Resize.v
Mkfs.v
Image.v
Namei.v
Printf.v
Runcmd.v
Primes.v
Mmu.v
Philosophers.v
Tools.v
Start.v
