(* ===== verification/Prelude.v ===== *)
(** * A verification development for xv6-phase4

    xv6-phase4 is the teaching kernel xv6 for x86 with additions: a scheduler with three
    queues, a history of system calls per process, counting semaphores in the kernel, a
    line editor and command history in the console, and a system call that changes the
    size of a file.  The development models the C sources under src/ as executable
    definitions and proves what they promise.

    ** The parts and their files

    _Foundations._  Prelude.v: 32-bit and 8-bit arithmetic with its wrap-around, byte
    strings, lists, the tactics and hints the other files share.  Outcome.v: the monad
    [M S A] of kernel code.  A function returns ([Ok]), panics ([Panic]), makes an access
    that C leaves undefined ([Fault]), waits for another processor ([Spin]), or gives up
    the processor in [swtch] ([Switch], with the rest of the function to run when it is
    resumed).  Kernel.v: the structures of the headers (proc.h, file.h, buf.h, fs.h,
    spinlock.h, sleeplock.h, semaphore.h, ...) as records, and [kstate], the global
    variables of the kernel.  A pointer into a global array is an index; pages, pipes and
    the free list are addresses in the byte memory [k_mem].

    _Locks and memory._  Spinlock.v (spinlock.c), with the module [Contention]: the
    individual stores of [acquire] and [release] of several processors, interleaved.
    Sleeplock.v (sleeplock.c).  Kalloc.v (kalloc.c): the free list threaded through the
    free pages.

    _Processes._  Proc.v (proc.c: the table, [allocproc], [growproc], [wait], [sched],
    [yield], [sleep], [wakeup], [kill]); Life.v ([userinit], [fork], [exit], [forkret],
    which also use files); Sched.v (the three queues, aging and [scheduler]); Hist.v and
    Info.v (the call history, [procdump] and [print_process_info]); Sem.v (the semaphores
    of proc.c); Exec.v and Elf.v (exec.c, elf.h).

    _The disk and the file system._  Bio.v (bio.c, memide.c), Log.v (log.c), Inode.v and
    Fs.v (fs.c), File.v (file.c and [pipealloc]), Pipe.v (pipe.c) hold the operations.
    Txn.v, Edit.v, Alloc.v, Icache.v, Content.v, ReadWrite.v, Fileio.v, Dir.v, Resize.v,
    Path.v hold what is proved of them, one layer each: the buffer cache gives a [view] of
    the disk; a transaction changes that view and reaches the disk as a whole; a file is a
    sequence of bytes in the view; a directory is a file of entries.  Mkfs.v is mkfs.c, and
    Image.v joins it to the kernel.  Namei.v puts the layers together: path names in a
    tree of directories, and the files of an image by their path.

    _Devices._  Cprintf.v (output of console.c), Console.v and Line.v (its input), Kbd.v
    (kbd.c, kbd.h), Machine.v (the kernel state with the devices), Apic.v (ioapic.c,
    picirq.c, lapic.c), Ata.v and Ide.v (ide.c over a controller with the documented
    behaviour), Boot.v (bootmain.c), Mp.v (mp.c, mp.h), Mmu.v (mmu.h, memlayout.h and the
    page directory of main.c), Start.v (main.c, and [consoleinit] and [panic] of console.c):
    the boot processor and the processors that it starts, interleaved.

    _User programs._  Sh.v (the parser of sh.c) and Runcmd.v ([runcmd] and the main loop);
    Grep.v (grep.c); Printf.v (printf.c); Primes.v (prime_numbers.c); Philosophers.v
    (priority_lock.c, deeeeeeee.c); Tools.v (cat.c, echo.c, ls.c, ln.c, mkdir.c, rm.c,
    kill.c, pid.c, schedule.c, init.c, forktest.c, foo.c, mor.c, change_file_size.c,
    find_largest_prime_factor.c, get_callers_test.c, get_parent_pid_test.c and the main
    function of grep.c): programs as interaction trees over the system calls.

    ** What is proved

    - Exclusion and waiting: at most one processor is between [acquire] and [release]; a
      sleeper loses no wakeup; the semaphores queue by priority; the programs that use
      them keep their critical sections apart and do not deadlock.
    - Resources: the pages of the allocator, the inode cache's counts and the file table's
      counts are those of the references that are out; [fork], [exit] and [wait] move a
      process through its states and lose nothing.
    - Scheduling: which process a turn of [scheduler] runs, and that a process of the first
      queue is picked within [NPROC] choices.
    - Crash safety: whatever prefix of the writes of [commit] reaches the disk, recovery
      gives the contents before or after the transaction; recovery crashed and repeated
      gives the same.
    - Files: what [filewrite] wrote, cut into transactions that fit the log, is on the disk
      and is what [fileread] returns, and no other file changes; [changesize] cuts or pads
      with zeroes; [dirlink] and [dirlookup] implement a map from names to inodes;
      [balloc] takes the least free block; [namei] and [nameiparent] follow a path to the
      inode that the tree of directories gives it and keep no other reference; what mkfs
      wrote is what the kernel reads, by path.
    - Data in motion: pipes and the disk queue are first-in first-out; the console's ring
      buffer refines a line editor on two sequences; the keyboard types the text of the
      keys pressed.
    - Parsing and printing: the shell's parser builds the tree of the line's grammar and
      never reads outside the line, and the shell runs the commands of that tree with the
      right descriptors; the pattern matcher decides the language of the pattern;
      [cprintf] and [printf] write the rendered format.
    - User programs: [cat], [grep], [echo], [ls] and [rm] end and have written what they
      promise, whatever pieces the reads deliver; [init] restarts the shell and reaps the
      orphans; [forktest] passes.
    - Start-up: the boot loader puts the segments in memory; [mpinit] finds the
      processors; [startothers] starts each of them on a stack of its own; descriptors
      read back as the processor reads them.  [panic] gets its message out and stops the
      other processors.

    ** Interfaces

    Code that is not among the sources is a parameter, with the behaviour that is relied
    on as named hypotheses or as the fields of a class: the address spaces of vm.c ([VM]),
    the routines of string.c, the trap return, the serial port of uart.c, the small
    helpers of the process listing ([Utils]), the interrupt numbers of traps.h, the disk
    controller ([Ata]), the set-up of a processor ([Setup] and its laws [SetupLaws]), the
    system calls under the shell and under the other user programs ([Os], with the laws
    [OsLaws] in terms of what a process can see).  The classes have instances, and the
    main theorems with hypotheses a witness, a lemma that applies the theorem to a
    concrete state; these states are evaluated.

    ** Bounds and fuel

    Loops over arrays run over the array.  Three kinds of loops take fuel.  Loops whose
    number of turns is bounded by their arguments ([freerange], [roundrobin],
    [get_callers], the digits of [printint]) get that bound, and the theorems say that it
    is enough.  Loops that wait for a device or read a clock get any fuel: the theorems
    state that the loop ends with the result as soon as the fuel exceeds what the device
    needs.  [wait] and [scheduler] go round once for each time the process is resumed;
    the theorems describe one turn from an arbitrary state.  [startothers] looks a bounded
    number of times at a processor that does not come up, for any bound; its theorem says
    that until then all of them can come up.  The loops of the user programs have no
    fuel: they are iterations of interaction trees, and the theorems show that they end.
    The constants ([NPROC],
    [LOGSIZE], [BSIZE], ...) are those of param.h and fs.h.

    ** Not modelled

    - The assembly files (bootasm.S, entry.S, entryother.S, initcode.S): the model has no
      processor.  The C side of their interfaces is there ([bootmain], [entrypgdir],
      [startothers], [userinit]), and of entryother.S the three loads from the words that
      [startothers] writes.
    - What a processor does in [scheduler] while others are still being started.
    - The task state segment of mmu.h, which no C code here uses.
    - semaphore.c is commented out as a whole, and the second half of deeeeeeee.c is an
      older copy of the kernel's semaphores that is not compiled.
    - defs.h has only prototypes.
    - The names and call stacks that locks carry for debugging.
    - vm.c, trap.c, syscall.c, sysfile.c, sysproc.c, string.c, uart.c, swtch.S, x86.h,
      traps.h, types.h, ulib.c, umalloc.c and user.h are not among the sources; see
      Interfaces. *)

From stdpp Require Export base list numbers strings.
From Stdlib Require Export ZArith Lia.

#[export] Set Warnings "-clear-no-such-hyp".

Declare Scope xv6_scope.
Delimit Scope xv6_scope with xv6.
Open Scope Z_scope.
Open Scope xv6_scope.

(** ** Machine integers *)

(** The value of a C [uint] expression: arithmetic wraps modulo 2^32. *)
Definition u32 (z : Z) : Z := z mod 4294967296.

(** The value of a C [int] stored from a wider computation (two's complement). *)
Definition i32 (z : Z) : Z := (z + 2147483648) mod 4294967296 - 2147483648.

(** [uchar] and [char] conversions. *)
Definition u8 (z : Z) : Z := z mod 256.

Lemma u32_range z : 0 <= u32 z < 4294967296.
Proof. apply Z.mod_pos_bound. lia. Qed.

Lemma u32_id z : 0 <= z < 4294967296 -> u32 z = z.
Proof. apply Z.mod_small. Qed.

Lemma u32_add_l a b : u32 (u32 a + b) = u32 (a + b).
Proof. apply Zplus_mod_idemp_l. Qed.

Lemma u32_add_r a b : u32 (a + u32 b) = u32 (a + b).
Proof. apply Zplus_mod_idemp_r. Qed.

Lemma u32_sub a b : u32 (u32 a - u32 b) = u32 (a - b).
Proof. symmetry. apply Zminus_mod. Qed.

Lemma u32_sub_l a b : u32 (u32 a - b) = u32 (a - b).
Proof. apply Zminus_mod_idemp_l. Qed.

Lemma i32_range z : -2147483648 <= i32 z < 2147483648.
Proof. unfold i32. pose proof (Z.mod_pos_bound (z + 2147483648) 4294967296). lia. Qed.

Lemma i32_id z : -2147483648 <= z < 2147483648 -> i32 z = z.
Proof. intros. unfold i32. rewrite Z.mod_small; lia. Qed.

(** ** Strings: the bytes of a literal, without the terminator *)
Definition bytes (s : string) : list Z :=
  map (fun c => Z.of_N (Ascii.N_of_ascii c)) (String.list_ascii_of_string s).

(** ** C strings

    A [char] array is the list of its bytes; the end of the list reads as the
    terminator. *)
Fixpoint cstr (l : list Z) : list Z :=
  match l with
  | [] => []
  | c :: l => if c =? 0 then [] else c :: cstr l
  end.

Fixpoint strncmp (n : nat) (p q : list Z) : Z :=
  match n with
  | O => 0
  | S n =>
    let a := hd 0 p in
    let b := hd 0 q in
    if (a =? 0) || negb (a =? b) then a - b else strncmp n (tl p) (tl q)
  end.

Definition strncpy (n : nat) (s : list Z) : list Z := take n (cstr s ++ replicate n 0).

(** ** Loops over indices

    The indices [a], [a+1], ..., [b-1]. *)
Definition zrange (a b : Z) : list Z := map (fun k => a + Z.of_nat k) (seq 0 (Z.to_nat (b - a))).

Lemma zrange_nil a b : b <= a -> zrange a b = [].
Proof. intros H. unfold zrange. by replace (Z.to_nat (b - a)) with 0%nat by lia. Qed.

Lemma zrange_cons a b : a < b -> zrange a b = a :: zrange (a + 1) b.
Proof.
  intros H. unfold zrange. replace (Z.to_nat (b - a)) with (S (Z.to_nat (b - (a + 1)))) by lia.
  cbn [seq map]. f_equal; [lia|]. rewrite <- seq_shift, map_map. apply map_ext. intros k. lia.
Qed.

Lemma zrange_snoc a b : a <= b -> zrange a (b + 1) = zrange a b ++ [b].
Proof.
  intros H. unfold zrange. replace (Z.to_nat (b + 1 - a)) with (Z.to_nat (b - a) + 1)%nat by lia.
  rewrite seq_app, map_app. simpl. do 2 f_equal. lia.
Qed.

Lemma elem_of_zrange a b x : x ∈ zrange a b <-> a <= x < b.
Proof.
  unfold zrange. rewrite list_elem_of_fmap. split.
  - intros (k & -> & Hk%elem_of_seq). lia.
  - intros H. exists (Z.to_nat (x - a)). rewrite elem_of_seq. lia.
Qed.

Lemma length_zrange a b : length (zrange a b) = Z.to_nat (b - a).
Proof. unfold zrange. by rewrite length_map, length_seq. Qed.

Lemma lookup_zrange a b k : (k < Z.to_nat (b - a))%nat -> zrange a b !! k = Some (a + Z.of_nat k).
Proof. intros H. unfold zrange. rewrite list_lookup_fmap, lookup_seq_lt by done. done. Qed.

Lemma zrange_split a b m : a <= m <= b -> zrange a b = zrange a m ++ zrange m b.
Proof.
  intros [H1 H2]. remember (Z.to_nat (m - a)) as n eqn:Hn. revert a H1 Hn. induction n as [|n IH]; intros a H1 Hn.
  - assert (a = m) as -> by lia. by rewrite (zrange_nil m m) by lia.
  - rewrite (zrange_cons a b), (zrange_cons a m) by lia. simpl. f_equal. apply IH; lia.
Qed.

(** ** Array scans

    [for (i = 0; i < n; i++) if (f(a[i])) ...]: the index of the first element that
    satisfies a test. *)
Fixpoint scan_from {A : Type} (f : A -> bool) (i : nat) (l : list A) : option nat :=
  match l with
  | [] => None
  | x :: l => if f x then Some i else scan_from f (S i) l
  end.
Definition scan {A : Type} (f : A -> bool) (l : list A) : option nat := scan_from f 0 l.

Lemma scan_from_Some {A : Type} (f : A -> bool) k l i :
  scan_from f k l = Some i <->
  (k <= i)%nat /\ (exists x, l !! (i - k)%nat = Some x /\ f x = true) /\
  (forall j y, (k <= j < i)%nat -> l !! (j - k)%nat = Some y -> f y = false).
Proof.
  revert k. induction l as [|x l IH]; intros k; simpl.
  { split; [done|]. intros (_ & (x & Hx & _) & _). by rewrite lookup_nil in Hx. }
  destruct (f x) eqn:Hf.
  - split.
    + intros [= <-]. rewrite Nat.sub_diag. split_and!; [lia|by exists x|lia].
    + intros (Hk & _ & Hlt). destruct (decide (k = i)) as [->|Hne]; [done|].
      specialize (Hlt k x). rewrite Nat.sub_diag in Hlt. rewrite Hlt in Hf; [done|lia|done].
  - rewrite IH. split.
    + intros (Hk & (y & Hy & Hfy) & Hlt). split_and!; [lia|exists y|].
      * replace (i - k)%nat with (S (i - S k)) by lia. done.
      * intros j z Hj. destruct (decide (j = k)) as [->|Hne].
        -- rewrite Nat.sub_diag. by intros [= <-].
        -- replace (j - k)%nat with (S (j - S k)) by lia. simpl. apply Hlt. lia.
    + intros (Hk & (y & Hy & Hfy) & Hlt).
      destruct (decide (k = i)) as [->|Hne].
      { rewrite Nat.sub_diag in Hy. simpl in Hy. congruence. }
      split_and!; [lia|exists y|].
      * replace (i - k)%nat with (S (i - S k)) in Hy by lia. done.
      * intros j z Hj Hz. apply (Hlt j z); [lia|].
        replace (j - k)%nat with (S (j - S k)) by lia. done.
Qed.

(** [scan] returns the first index that satisfies the test ... *)
Lemma scan_Some {A : Type} (f : A -> bool) l i :
  scan f l = Some i <->
  (exists x, l !! i = Some x /\ f x = true) /\
  (forall j y, (j < i)%nat -> l !! j = Some y -> f y = false).
Proof.
  unfold scan. rewrite scan_from_Some. rewrite Nat.sub_0_r. split.
  - intros (_ & Hx & Hlt). split; [done|]. intros j y Hj Hy. apply (Hlt j); [lia|].
    by rewrite Nat.sub_0_r.
  - intros (Hx & Hlt). split_and!; [lia|done|]. intros j y Hj. rewrite Nat.sub_0_r.
    apply Hlt. lia.
Qed.

(** ... and [None] when no element does. *)
Lemma scan_None {A : Type} (f : A -> bool) l :
  scan f l = None <-> forall i x, l !! i = Some x -> f x = false.
Proof.
  unfold scan. generalize 0%nat as k. induction l as [|x l IH]; intros k; simpl.
  { split; [intros _ i x Hx; by rewrite lookup_nil in Hx|done]. }
  destruct (f x) eqn:Hf.
  - split; [done|]. intros H. specialize (H O x eq_refl). congruence.
  - rewrite IH. split.
    + intros H [|i] y Hy; [simpl in Hy; congruence|by apply (H i)].
    + intros H i y Hy. by apply (H (S i)).
Qed.

(** ** Record update

    [r <| f := v |>] is the record [r] with field [f] set to [v], and
    [r <| f ::= g |>] applies [g] to the field.  A record declares its eta
    expansion once ([Settable]); the setter of a field is computed from it. *)
Class Settable (R : Type) : Type := eta_expand : R -> R.
Class Setter {R E : Type} (getter : R -> E) : Type := set : (E -> E) -> R -> R.
Arguments set {R E} getter {Setter} f r : simpl never.

Ltac derive_setter R E getter :=
  tryif is_evar getter then fail else
  let inst := constr:(_ : Settable R) in
  let e := eval hnf in inst in
  lazymatch eval pattern getter in e with
  | ?upd _ =>
      let t := eval cbv beta in (fun (f : E -> E) => upd (fun r : R => f (getter r))) in
      exact t
  end.

#[export] Hint Extern 1 (@Setter ?R ?E ?getter) => derive_setter R E getter : typeclass_instances.

Notation "r <| f ::= g |>" := (set f g r)
  (at level 1, f at level 9, g at level 99, left associativity,
   format "r <| f  ::=  g |>") : xv6_scope.
Notation "r <| f := v |>" := (set f (fun _ => v) r)
  (at level 1, f at level 9, v at level 99, left associativity,
   format "r <| f  :=  v |>") : xv6_scope.

(** ** Automation *)

(** Reading a field of an updated record, without unfolding the update. *)
Ltac rsimpl_once :=
  match goal with
  | |- context [?g (@set ?R ?E ?g' ?S ?f ?r)] =>
      tryif constr_eq g g'
      then (let t := eval cbv beta in (f (g r)) in
            change (g (@set R E g' S f r)) with t)
      else change (g (@set R E g' S f r)) with (g r)
  end.
Ltac rsimpl_once_in H :=
  match type of H with
  | context [?g (@set ?R ?E ?g' ?S ?f ?r)] =>
      tryif constr_eq g g'
      then (let t := eval cbv beta in (f (g r)) in
            change (g (@set R E g' S f r)) with t in H)
      else change (g (@set R E g' S f r)) with (g r) in H
  end.
Ltac rsimpl := repeat (progress (cbv beta; try rsimpl_once)).
Tactic Notation "rsimpl" "in" hyp(H) := repeat (rsimpl_once_in H).

(** The hint database of the development. *)
Create HintDb xv6.
