(* ===== verification/Outcome.v ===== *)
(** * The outcome monad: kernel code as state transformers

    Kernel functions run on a machine state and either return, call [panic],
    execute an access the C semantics leaves undefined, busy-wait for another
    processor, or give up the processor in [swtch].  The last case carries the
    continuation to run when the thread is resumed, so a function that sleeps is
    modelled up to and beyond the sleep.  The file defines the monad, its loops,
    and a weakest-precondition reading in which the states before and after a
    context switch are related by a guarantee and a rely. *)

From S2P Require Import Prelude.

Inductive outcome (S A : Type) : Type :=
| Ok (a : A) (s : S)
| Panic (msg : string)
| Fault
| Spin
| Switch (s : S) (k : S -> outcome S A).
Arguments Ok {S A} a s.
Arguments Panic {S A} msg.
Arguments Fault {S A}.
Arguments Spin {S A}.
Arguments Switch {S A} s k.

Section Monad.
Context {S : Type}.
Implicit Types A B : Type.

Fixpoint obind {A B} (o : outcome S A) (f : A -> S -> outcome S B) : outcome S B :=
  match o with
  | Ok a s => f a s
  | Panic msg => Panic msg
  | Fault => Fault
  | Spin => Spin
  | Switch s k => Switch s (fun s' => obind (k s') f)
  end.

Definition M (A : Type) : Type := S -> outcome S A.

Definition ret {A} (a : A) : M A := fun s => Ok a s.
Definition bind {A B} (m : M A) (f : A -> M B) : M B := fun s => obind (m s) f.
Definition gets {A} (f : S -> A) : M A := fun s => Ok (f s) s.
Definition modify (f : S -> S) : M unit := fun s => Ok tt (f s).
Definition panic {A} (msg : string) : M A := fun _ => Panic msg.
Definition fault {A} : M A := fun _ => Fault.
Definition spin {A} : M A := fun _ => Spin.

(** [swtch]: the thread stops here and is resumed in some later state. *)
Definition swtch : M unit := fun s => Switch s (fun s' => Ok tt s').

Definition when (b : bool) (m : M unit) : M unit := if b then m else ret tt.

(** A pointer that the code dereferences: [None] is the null pointer. *)
Definition deref {A} (o : option A) : M A :=
  match o with Some a => ret a | None => fault end.

(** [for (x in l) body(x)] *)
Fixpoint foreach {A} (l : list A) (body : A -> M unit) : M unit :=
  match l with
  | [] => ret tt
  | x :: l => bind (body x) (fun _ => foreach l body)
  end.
End Monad.
Arguments M : clear implicits.

Notation "x ← m ; k" := (bind m (fun x => k))
  (at level 20, m at level 100, k at level 200, only parsing) : xv6_scope.
Notation "' x ← m ; k" := (bind m (fun p => match p with x => k end))
  (at level 20, x pattern, m at level 100, k at level 200, only parsing) : xv6_scope.
Notation "m ;; k" := (bind m (fun _ => k))
  (at level 100, k at level 200, only parsing, right associativity) : xv6_scope.

(** ** Equational reasoning on code that does not switch *)

Section Laws.
Context {S : Type}.

Lemma bind_ok {A B} (m : M S A) (f : A -> M S B) s a s' :
  m s = Ok a s' -> bind m f s = f a s'.
Proof. intros H. unfold bind. by rewrite H. Qed.

Lemma bind_panic {A B} (m : M S A) (f : A -> M S B) s msg :
  m s = Panic msg -> bind m f s = Panic msg.
Proof. intros H. unfold bind. by rewrite H. Qed.

Lemma bind_fault {A B} (m : M S A) (f : A -> M S B) s :
  m s = Fault -> bind m f s = Fault.
Proof. intros H. unfold bind. by rewrite H. Qed.

Lemma bind_spin {A B} (m : M S A) (f : A -> M S B) s :
  m s = Spin -> bind m f s = Spin.
Proof. intros H. unfold bind. by rewrite H. Qed.

Lemma bind_ret {A B} (a : A) (f : A -> M S B) s : bind (ret a) f s = f a s.
Proof. done. Qed.

Lemma bind_gets {A B} (g : S -> A) (f : A -> M S B) s : bind (gets g) f s = f (g s) s.
Proof. done. Qed.

Lemma bind_modify {B} (g : S -> S) (f : unit -> M S B) s :
  bind (modify g) f s = f tt (g s).
Proof. done. Qed.

Lemma bind_swtch {B} (f : unit -> M S B) s :
  bind swtch f s = Switch s (fun s' => f tt s').
Proof. done. Qed.

(** A loop whose body never fails from the states an invariant describes folds
    the bodies' effect over the list. *)
Lemma foreach_ok {A} (f : A -> S -> S) (I : S -> Prop) (body : A -> M S unit) (l : list A) s :
  (forall a s, a ∈ l -> I s -> body a s = Ok tt (f a s) /\ I (f a s)) ->
  I s ->
  foreach l body s = Ok tt (fold_left (fun s a => f a s) l s) /\
  I (fold_left (fun s a => f a s) l s).
Proof.
  revert s. induction l as [|a l IH]; intros s Hbody HI; simpl; [done|].
  destruct (Hbody a s) as [Hok HI']; [by left|done|]. rewrite (bind_ok _ _ _ _ _ Hok).
  apply IH; [|done]. intros b s' Hb. apply Hbody. by right.
Qed.
End Laws.

(** Commands that return together, followed by another. *)
Lemma bind_seq_ok {S A B C} (m : M S A) (f : A -> M S B) (g : B -> M S C) s b s' :
  bind m f s = Ok b s' -> bind m (fun a => bind (f a) g) s = g b s'.
Proof. unfold bind. destruct (m s); try done. simpl. by intros ->. Qed.

(** Code that returns without a switch did so in both parts. *)
Lemma bind_inv {S A B} (m : M S A) (f : A -> M S B) s b s' :
  bind m f s = Ok b s' -> exists a s1, m s = Ok a s1 /\ f a s1 = Ok b s'.
Proof. unfold bind. destruct (m s) as [a s1| | | |]; try done. intros H. by exists a, s1. Qed.

(** One step of symbolic execution: the leading command is [ret], [gets] or
    [modify], or a hypothesis or the given equation says how it returns. *)
Ltac mstep :=
  first
    [ rewrite bind_ret | rewrite bind_gets | rewrite bind_modify
    | match goal with H : ?m ?s = Ok _ _ |- context [bind ?m _ ?s] =>
        rewrite (bind_ok m _ s _ _ H) end ].
Tactic Notation "mstep" "with" uconstr(H) :=
  rewrite (bind_ok _ _ _ _ _ H).
(** The leading command returns as the tactic shows. *)
Tactic Notation "mstep" "by" tactic3(tac) :=
  erewrite bind_ok by tac; cbv beta.
Ltac msteps := repeat (mstep; cbv beta).

(** ** Code that leaves a part of the state alone *)

(** Whenever [m] returns without a switch, [f] of the state is what it was. *)
Definition keeps {S A X} (f : S -> X) (m : M S A) : Prop := forall s a s', m s = Ok a s' -> f s' = f s.

Section Keeps.
Context {S X : Type} (f : S -> X).

Lemma keeps_bind {A B} (m : M S A) (k : A -> M S B) :
  keeps f m -> (forall a, keeps f (k a)) -> keeps f (bind m k).
Proof.
  intros Hm Hk s b s' H. unfold bind in H. destruct (m s) as [a s1| | | |] eqn:E; try discriminate.
  rewrite (Hk a s1 b s' H). by apply (Hm s a).
Qed.

Lemma keeps_ret {A} (a : A) : keeps f (ret a).
Proof. intros s b s' H. by injection H as <- <-. Qed.

Lemma keeps_gets {A} (g : S -> A) : keeps f (gets g).
Proof. intros s b s' H. by injection H as <- <-. Qed.

Lemma keeps_modify g : (forall s, f (g s) = f s) -> keeps f (modify g).
Proof. intros Hg s b s' H. injection H as <- <-. apply Hg. Qed.

Lemma keeps_stuck {A} (m : M S A) : (forall s a s', m s <> Ok a s') -> keeps f m.
Proof. intros Hm s a s' H. by destruct (Hm s a s'). Qed.

Lemma keeps_deref {A} (o : option A) : keeps f (deref o).
Proof. destruct o; [apply keeps_ret|by apply keeps_stuck]. Qed.

Lemma keeps_when b m : keeps f m -> keeps f (when b m).
Proof. destruct b; [done|]. intros _. apply keeps_ret. Qed.

Lemma keeps_foreach {A} (l : list A) body : (forall a, keeps f (body a)) -> keeps f (foreach l body).
Proof. intros Hb. induction l as [|a l IH]; [apply keeps_ret|]. by apply keeps_bind. Qed.
End Keeps.

Create HintDb keeps discriminated.
#[export] Hint Constants Opaque : keeps.
#[export] Hint Resolve keeps_ret keeps_gets keeps_deref : keeps.
Ltac keeps_step :=
  lazymatch goal with
  | |- keeps _ (bind _ _) => apply keeps_bind; [|intros ?]
  | |- keeps _ (when _ _) => apply keeps_when
  | |- keeps _ (foreach _ _) => apply keeps_foreach; intros ?
  | |- keeps _ (panic _) => by apply keeps_stuck
  | |- keeps _ fault => by apply keeps_stuck
  | |- keeps _ spin => by apply keeps_stuck
  | |- keeps _ swtch => by apply keeps_stuck
  | |- keeps _ (modify _) => apply keeps_modify; intros; reflexivity
  | |- keeps _ (match ?x with _ => _ end) => destruct x
  | |- _ => solve [auto with keeps]
  end.
(** Follow the structure of the code down to what the hints know. *)
Ltac keeps := cbv zeta; repeat (keeps_step; cbv beta zeta).

(** ** Weakest preconditions across context switches *)

Section WP.
Context {S : Type} (guar : S -> Prop) (rely : S -> S -> Prop).

Fixpoint owp {A} (o : outcome S A) (Q : A -> S -> Prop) : Prop :=
  match o with
  | Ok a s => Q a s
  | Panic _ | Fault => False
  | Spin => True
  | Switch s k => guar s /\ forall s', rely s s' -> owp (k s') Q
  end.

Definition wp {A} (m : M S A) (Q : A -> S -> Prop) (s : S) : Prop := owp (m s) Q.

Lemma owp_mono {A} (o : outcome S A) (Q Q' : A -> S -> Prop) :
  (forall a s, Q a s -> Q' a s) -> owp o Q -> owp o Q'.
Proof. intros HQ. induction o as [| | | |s k IH]; simpl; auto. intros [? Hk]; split; auto. Qed.

Lemma owp_bind {A B} (o : outcome S A) (f : A -> S -> outcome S B) Q :
  owp o (fun a s => owp (f a s) Q) -> owp (obind o f) Q.
Proof. induction o as [| | | |s k IH]; simpl; auto. intros [? Hk]; split; auto. Qed.

Lemma wp_bind {A B} (m : M S A) (f : A -> M S B) Q s :
  wp m (fun a s => wp (f a) Q s) s -> wp (bind m f) Q s.
Proof. apply owp_bind. Qed.

Lemma wp_ok {A} (m : M S A) (Q : A -> S -> Prop) s a s' :
  m s = Ok a s' -> Q a s' -> wp m Q s.
Proof. intros H. unfold wp. by rewrite H. Qed.
End WP.
