(* ===== verification/Kernel.v ===== *)
(** * The kernel's data: the structures of the header files

    One record per [struct] of the kernel headers, the reference types that stand
    for pointers to them, and [kstate], the global variables of the kernel together
    with the processor registers they are used with.  A pointer into a global array
    is the index of the element ([option nat], [None] being the null pointer); a
    pointer to a page obtained from [kalloc] is its address. *)

From stdpp Require Import gmap countable.
From Stdlib Require Import SpecFloat.
From S2P Require Import Prelude Outcome.

(** ** param.h *)
Definition NPROC : nat := 10.
Definition KSTACKSIZE : Z := 4096.
Definition NCPU : nat := 8.
Definition NOFILE : nat := 16.
Definition NFILE : nat := 100.
Definition NINODE : nat := 50.
Definition NSEMS : nat := 6.
Definition MAXOPBLOCKS : Z := 10.
Definition FSSIZE : Z := 1000.
Definition LOGSIZE : nat := 30.
Definition NBUF : nat := 30.
Definition ROOTDEV : Z := 1.

(** ** References *)

(** Sleep-locks are embedded in buffers and in cached inodes. *)
Inductive slref : Type := SLBuf (i : nat) | SLInode (i : nat).
#[export] Instance slref_eq_dec : EqDecision slref.
Proof. solve_decision. Defined.
#[export] Instance slref_countable : Countable slref.
Proof.
  refine (inj_countable'
    (fun r => match r with SLBuf i => inl i | SLInode i => inr i end)
    (fun x => match x with inl i => SLBuf i | inr i => SLInode i end) _).
  by intros [].
Defined.

(** [struct spinlock *]: the locks of the kernel, named by the object they sit in. *)
Inductive lockref : Type :=
| LPtable | LTicks | LKmem | LFtable | LIcache | LBcache | LLog | LIde | LCons
| LPipe (page : Z) | LSem (i : nat) | LSleep (r : slref).
#[export] Instance lockref_eq_dec : EqDecision lockref.
Proof. solve_decision. Defined.
#[export] Instance lockref_countable : Countable lockref.
Proof.
  refine (inj_countable'
    (fun r => match r with
      | LPtable => inl 0%nat | LTicks => inl 1%nat | LKmem => inl 2%nat
      | LFtable => inl 3%nat | LIcache => inl 4%nat | LBcache => inl 5%nat
      | LLog => inl 6%nat | LIde => inl 7%nat | LCons => inl 8%nat
      | LPipe p => inr (inl p) | LSem i => inr (inr (inl i))
      | LSleep r => inr (inr (inr r)) end)
    (fun x => match x with
      | inl 0%nat => LPtable | inl 1%nat => LTicks | inl 2%nat => LKmem
      | inl 3%nat => LFtable | inl 4%nat => LIcache | inl 5%nat => LBcache
      | inl 6%nat => LLog | inl 7%nat => LIde | inl _ => LCons
      | inr (inl p) => LPipe p | inr (inr (inl i)) => LSem i
      | inr (inr (inr r)) => LSleep r end) _).
  by intros [].
Defined.

(** The channels processes sleep on are addresses of kernel objects. *)
Inductive chan : Type :=
| CProc (p : nat) | CTicks | CLog | CSleeplock (r : slref) | CBuf (i : nat)
| CPipeRead (page : Z) | CPipeWrite (page : Z) | CInput | CSem (i : nat).
#[export] Instance chan_eq_dec : EqDecision chan.
Proof. solve_decision. Defined.

(** ** spinlock.h and sleeplock.h *)

(** The debugging fields [name] and [pcs] are not kept. *)
Record spinlock : Type := mkSpinlock { lk_locked : Z; lk_cpu : option nat }.
#[export] Instance eta_spinlock : Settable spinlock :=
  fun r => mkSpinlock (lk_locked r) (lk_cpu r).
Definition unlocked : spinlock := mkSpinlock 0 None.

Record sleeplock : Type := mkSleeplock { sl_locked : Z; sl_pid : Z }.
#[export] Instance eta_sleeplock : Settable sleeplock :=
  fun r => mkSleeplock (sl_locked r) (sl_pid r).

(** ** proc.h *)

Record cpu : Type := mkCpu {
  c_apicid : Z;
  c_ncli : Z;
  c_intena : bool;
  c_proc : option nat }.
#[export] Instance eta_cpu : Settable cpu :=
  fun r => mkCpu (c_apicid r) (c_ncli r) (c_intena r) (c_proc r).

(** The code addresses [allocproc] plants in a new kernel stack. *)
Inductive kcode : Type := KNull | KForkret | KTrapret.

Record context : Type := mkContext {
  cx_edi : Z; cx_esi : Z; cx_ebx : Z; cx_ebp : Z; cx_eip : kcode }.

Definition BJF_PRIORITY_DEF : Z := 3.
Definition UNSET : Z := 0.
Definition ROUND_ROBIN : Z := 1.
Definition LCFS : Z := 2.
Definition BJF : Z := 3.

(** [float] fields hold IEEE binary32 values. *)
Record schedStat : Type := mkSchedStat {
  queue_id : Z;
  place : Z;
  last_run : Z;
  priority : Z;
  priority_ratio : spec_float;
  arrival_time : Z;
  arrival_time_ratio : spec_float;
  executed_cycle : spec_float;
  executed_cycle_ratio : spec_float }.
#[export] Instance eta_schedStat : Settable schedStat :=
  fun r => mkSchedStat (queue_id r) (place r) (last_run r) (priority r)
    (priority_ratio r) (arrival_time r) (arrival_time_ratio r)
    (executed_cycle r) (executed_cycle_ratio r).

Inductive procstate : Type := UNUSED | EMBRYO | SLEEPING | RUNNABLE | RUNNING | ZOMBIE.
#[export] Instance procstate_eq_dec : EqDecision procstate.
Proof. solve_decision. Defined.

(** The registers of [struct trapframe] (x86.h) that the kernel code names. *)
Record trapframe : Type := mkTrapframe {
  tf_eax : Z; tf_eip : Z; tf_esp : Z; tf_eflags : Z;
  tf_cs : Z; tf_ds : Z; tf_es : Z; tf_ss : Z }.
#[export] Instance eta_trapframe : Settable trapframe :=
  fun r => mkTrapframe (tf_eax r) (tf_eip r) (tf_esp r) (tf_eflags r)
    (tf_cs r) (tf_ds r) (tf_es r) (tf_ss r).

(** [p_tf] and [p_context] are the pointers into the kernel stack, [p_trapframe],
    [p_ctx] and [p_retaddr] what the stack holds there. *)
Record proc : Type := mkProc {
  p_sz : Z;
  p_pgdir : Z;
  p_kstack : Z;
  p_state : procstate;
  p_pid : Z;
  p_parent : option nat;
  p_tf : Z;
  p_trapframe : trapframe;
  p_context : Z;
  p_ctx : context;
  p_retaddr : kcode;
  p_chan : option chan;
  p_killed : Z;
  p_ofile : list (option nat);
  p_cwd : option nat;
  p_name : list Z;
  p_sched : schedStat }.
#[export] Instance eta_proc : Settable proc :=
  fun r => mkProc (p_sz r) (p_pgdir r) (p_kstack r) (p_state r) (p_pid r) (p_parent r)
    (p_tf r) (p_trapframe r) (p_context r) (p_ctx r) (p_retaddr r) (p_chan r)
    (p_killed r) (p_ofile r) (p_cwd r) (p_name r) (p_sched r).

Definition PROC_HIST_SIZE : Z := 1000.
Definition SYS_CALL_NUM : nat := 35.
Definition AGING_THRESHOLD : Z := 8000.

Record syscall_hist : Type := mkHist { h_pids : list Z; h_size : Z }.
#[export] Instance eta_hist : Settable syscall_hist :=
  fun r => mkHist (h_pids r) (h_size r).

(** ** semaphore.h *)
Record semaphore : Type := mkSemaphore {
  sem_value : Z;
  sem_waiting : list (option nat);
  sem_wfirst : Z;
  sem_wlast : Z }.
#[export] Instance eta_semaphore : Settable semaphore :=
  fun r => mkSemaphore (sem_value r) (sem_waiting r) (sem_wfirst r) (sem_wlast r).

(** ** pipe.c and file.h *)
Record pipe : Type := mkPipe {
  pi_data : list Z;
  pi_nread : Z;
  pi_nwrite : Z;
  pi_readopen : Z;
  pi_writeopen : Z }.
#[export] Instance eta_pipe : Settable pipe :=
  fun r => mkPipe (pi_data r) (pi_nread r) (pi_nwrite r) (pi_readopen r) (pi_writeopen r).

Inductive filetype : Type := FD_NONE | FD_PIPE | FD_INODE.
#[export] Instance filetype_eq_dec : EqDecision filetype.
Proof. solve_decision. Defined.

Record file : Type := mkFile {
  f_type : filetype;
  f_ref : Z;
  f_readable : Z;
  f_writable : Z;
  f_pipe : Z;
  f_ip : option nat;
  f_off : Z }.
#[export] Instance eta_file : Settable file :=
  fun r => mkFile (f_type r) (f_ref r) (f_readable r) (f_writable r) (f_pipe r) (f_ip r) (f_off r).

(** ** kalloc.c: [kmem] *)
Record kmem_t : Type := mkKmem { km_use_lock : bool; km_freelist : Z }.
#[export] Instance eta_kmem : Settable kmem_t :=
  fun r => mkKmem (km_use_lock r) (km_freelist r).

(** ** console.c: [cons], [input], [hist] and the display

    [cn_uart] records the calls of [uartputc]; [cn_crt] and [cn_pos] are the display
    memory and the cursor of the CGA controller. *)
Definition INPUT_BUF : Z := 128.
Definition HIST_SIZE : Z := 15.

Record cmdhist : Type := mkCmdhist {
  ch_queue_idx : Z;
  ch_cmd_buf : list (list Z);
  ch_last_used_idx : Z;
  ch_last_arrow_idx : Z;
  ch_is_suggestion_used : Z;
  ch_original_cmd : list Z;
  ch_original_cmd_size : Z;
  ch_total_count : Z;
  ch_last_arrow_total : Z }.
#[export] Instance eta_cmdhist : Settable cmdhist :=
  fun r => mkCmdhist (ch_queue_idx r) (ch_cmd_buf r) (ch_last_used_idx r) (ch_last_arrow_idx r)
    (ch_is_suggestion_used r) (ch_original_cmd r) (ch_original_cmd_size r) (ch_total_count r)
    (ch_last_arrow_total r).

Record console : Type := mkConsole {
  cn_locking : bool;
  cn_panicked : bool;
  cn_uart : list Z;
  cn_crt : Z -> Z;
  cn_pos : Z;
  in_buf : list Z;
  in_r : Z;
  in_w : Z;
  in_e : Z;
  cn_hist : cmdhist }.
#[export] Instance eta_console : Settable console :=
  fun r => mkConsole (cn_locking r) (cn_panicked r) (cn_uart r) (cn_crt r) (cn_pos r) (in_buf r)
    (in_r r) (in_w r) (in_e r) (cn_hist r).

(** ** buf.h, the disk, log.c and the on-disk structures of fs.h *)
Definition BSIZE : Z := 512.

Record buf : Type := mkBuf {
  b_flags : Z;
  b_dev : Z;
  b_blockno : Z;
  b_refcnt : Z;
  b_prev : nat;
  b_next : nat;
  b_data : list Z }.
#[export] Instance eta_buf : Settable buf :=
  fun r => mkBuf (b_flags r) (b_dev r) (b_blockno r) (b_refcnt r) (b_prev r) (b_next r) (b_data r).

(** A disk is what it held at power-on and the block writes it has done since, the
    latest first: a crash at any moment leaves a disk with fewer writes. *)
Record disk : Type := mkDisk { d_size : Z; d_init : Z -> list Z; d_writes : list (Z * list Z) }.
#[export] Instance eta_disk : Settable disk :=
  fun r => mkDisk (d_size r) (d_init r) (d_writes r).

Record log_t : Type := mkLog {
  l_start : Z;
  l_size : Z;
  l_outstanding : Z;
  l_committing : Z;
  l_dev : Z;
  lh_n : Z;
  lh_block : list Z }.
#[export] Instance eta_log : Settable log_t :=
  fun r => mkLog (l_start r) (l_size r) (l_outstanding r) (l_committing r) (l_dev r) (lh_n r)
    (lh_block r).

Record superblock : Type := mkSuperblock {
  sb_size : Z; sb_nblocks : Z; sb_ninodes : Z; sb_nlog : Z;
  sb_logstart : Z; sb_inodestart : Z; sb_bmapstart : Z }.

Record inode : Type := mkInode {
  i_dev : Z;
  i_inum : Z;
  i_ref : Z;
  i_valid : Z;
  i_type : Z;
  i_major : Z;
  i_minor : Z;
  i_nlink : Z;
  i_size : Z;
  i_addrs : list Z }.
#[export] Instance eta_inode : Settable inode :=
  fun r => mkInode (i_dev r) (i_inum r) (i_ref r) (i_valid r) (i_type r) (i_major r) (i_minor r)
    (i_nlink r) (i_size r) (i_addrs r).

(** ** The kernel state

    [hw] is what [spinlock.c] works on: the interrupt flag of the executing
    processor and its local APIC id, the [cpus] array, and the spin-locks.
    [k_mem] is the byte-addressed memory the page allocator hands out;
    [k_bufs] is [bcache.buf] followed by [bcache.head]. *)
Record hw : Type := mkHw {
  hw_if : bool;
  hw_lapicid : Z;
  hw_ncpu : nat;
  hw_cpus : list cpu;
  hw_locks : gmap lockref spinlock }.
#[export] Instance eta_hw : Settable hw :=
  fun r => mkHw (hw_if r) (hw_lapicid r) (hw_ncpu r) (hw_cpus r) (hw_locks r).

Record kstate : Type := mkKstate {
  k_hw : hw;
  k_slocks : gmap slref sleeplock;
  k_ticks : Z;
  k_mem : Z -> Z;
  k_kmem : kmem_t;
  k_procs : list proc;
  k_initproc : option nat;
  k_nextpid : Z;
  k_hist : list syscall_hist;
  k_sems : list semaphore;
  k_pipes : gmap Z pipe;
  k_files : list file;
  k_cons : console;
  k_bufs : list buf;
  k_disk : disk;
  k_log : log_t;
  k_sb : superblock;
  k_inodes : list inode }.
#[export] Instance eta_kstate : Settable kstate :=
  fun r => mkKstate (k_hw r) (k_slocks r) (k_ticks r) (k_mem r) (k_kmem r) (k_procs r)
    (k_initproc r) (k_nextpid r) (k_hist r) (k_sems r) (k_pipes r) (k_files r)
    (k_cons r) (k_bufs r) (k_disk r) (k_log r) (k_sb r) (k_inodes r).

Abbreviation K := (M kstate).

(** States with equal fields are equal; [kstate_eq] leaves the fields that differ. *)
Lemma kstate_ext s s' :
  k_hw s = k_hw s' -> k_slocks s = k_slocks s' -> k_ticks s = k_ticks s' ->
  k_mem s = k_mem s' -> k_kmem s = k_kmem s' -> k_procs s = k_procs s' ->
  k_initproc s = k_initproc s' -> k_nextpid s = k_nextpid s' -> k_hist s = k_hist s' ->
  k_sems s = k_sems s' -> k_pipes s = k_pipes s' -> k_files s = k_files s' ->
  k_cons s = k_cons s' -> k_bufs s = k_bufs s' -> k_disk s = k_disk s' ->
  k_log s = k_log s' -> k_sb s = k_sb s' -> k_inodes s = k_inodes s' -> s = s'.
Proof. destruct s, s'; simpl. intros. subst. reflexivity. Qed.
Ltac kcbv :=
  cbv beta iota zeta delta [set
    lk_locked lk_cpu sl_locked sl_pid c_apicid c_ncli c_intena c_proc queue_id place last_run
    priority priority_ratio arrival_time arrival_time_ratio executed_cycle
    executed_cycle_ratio tf_eax tf_eip tf_esp tf_eflags tf_cs tf_ds tf_es tf_ss p_sz p_pgdir
    p_kstack p_state p_pid p_parent p_tf p_trapframe p_context p_ctx p_retaddr p_chan p_killed
    p_ofile p_cwd p_name p_sched h_pids h_size sem_value sem_waiting sem_wfirst sem_wlast
    pi_data pi_nread pi_nwrite pi_readopen pi_writeopen f_type f_ref f_readable f_writable
    f_pipe f_ip f_off km_use_lock km_freelist ch_queue_idx ch_cmd_buf ch_last_used_idx
    ch_last_arrow_idx ch_is_suggestion_used ch_original_cmd ch_original_cmd_size
    ch_total_count ch_last_arrow_total cn_locking cn_panicked cn_uart cn_crt cn_pos in_buf
    in_r in_w in_e cn_hist b_flags b_dev b_blockno b_refcnt b_prev b_next b_data d_size d_init
    d_writes l_start l_size l_outstanding l_committing l_dev lh_n lh_block i_dev i_inum i_ref
    i_valid i_type i_major i_minor i_nlink i_size i_addrs hw_if hw_lapicid hw_ncpu hw_cpus
    hw_locks k_hw k_slocks k_ticks k_mem k_kmem k_procs k_initproc k_nextpid k_hist k_sems
    k_pipes k_files k_cons k_bufs k_disk k_log k_sb k_inodes].
Ltac kstate_eq := apply kstate_ext; kcbv; try reflexivity.

(** An operation of the [hw] layer, run on the kernel state. *)
Fixpoint olift {A} (o : outcome hw A) (s : kstate) : outcome kstate A :=
  match o with
  | Ok a h => Ok a (s <| k_hw := h |>)
  | Panic msg => Panic msg
  | Fault => Fault
  | Spin => Spin
  | Switch h k => Switch (s <| k_hw := h |>) (fun s' => olift (k (k_hw s')) s')
  end.
Definition hwop {A} (m : M hw A) : K A := fun s => olift (m (k_hw s)) s.

Lemma hwop_ok {A} (m : M hw A) s a h :
  m (k_hw s) = Ok a h -> hwop m s = Ok a (s <| k_hw := h |>).
Proof. intros H. unfold hwop. by rewrite H. Qed.

(** ** The data segment at boot: everything zero, one processor with APIC id 0 *)

Definition zero_sched : schedStat :=
  mkSchedStat 0 0 0 0 (S754_zero false) 0 (S754_zero false) (S754_zero false) (S754_zero false).
Definition zero_proc : proc :=
  mkProc 0 0 0 UNUSED 0 None 0 (mkTrapframe 0 0 0 0 0 0 0 0) 0 (mkContext 0 0 0 0 KNull) KNull
    None 0 (replicate NOFILE None) None (replicate 16 0) zero_sched.
Definition zero_file : file := mkFile FD_NONE 0 0 0 0 None 0.
Definition zero_sem : semaphore := mkSemaphore 0 (replicate NPROC None) 0 0.
Definition zero_hist : syscall_hist := mkHist (replicate 1000 0) 0.

Definition bss : kstate := {|
  k_hw := mkHw false 0 1 (replicate NCPU (mkCpu 0 0 false None)) ∅;
  k_slocks := ∅;
  k_ticks := 0;
  k_mem := fun _ => 0;
  k_kmem := mkKmem false 0;
  k_procs := replicate NPROC zero_proc;
  k_initproc := None;
  k_nextpid := 1;
  k_hist := replicate SYS_CALL_NUM zero_hist;
  k_sems := replicate NSEMS zero_sem;
  k_pipes := ∅;
  k_files := replicate NFILE zero_file;
  k_cons := mkConsole false false [] (fun _ => 0) 0 (replicate 128 0) 0 0 0
    (mkCmdhist 0 (replicate 15 (replicate 128 0)) 0 0 0 (replicate 128 0) 0 0 0);
  k_bufs := replicate (S NBUF) (mkBuf 0 0 0 0 0 0 (replicate 512 0));
  k_disk := mkDisk 0 (fun _ => replicate 512 0) [];
  k_log := mkLog 0 0 0 0 0 0 (replicate LOGSIZE 0);
  k_sb := mkSuperblock 0 0 0 0 0 0 0;
  k_inodes := replicate NINODE (mkInode 0 0 0 0 0 0 0 0 0 (replicate 13 0)) |}.
