(* ===== verification/Spinlock.v ===== *)
(** * Spin-locks and interrupt nesting (spinlock.c, and mycpu/myproc of proc.c)

    The functions below run on [hw].  [CpuOk] is the invariant under which a
    processor executes kernel code: its APIC id is in the [cpus] table, the
    [pushcli] depth is not negative, and interrupts are off whenever the depth is
    positive.  Under it, [pushcli]/[popcli] and [acquire]/[release] are shown to be
    exact inverses, and to panic exactly where the code says.  The last part is a
    small-step model of several processors contending for one lock, at the
    granularity of the stores of [acquire] and [release]. *)

From stdpp Require Import gmap.
From S2P Require Import Prelude Outcome Kernel.

Module HW.

(** ** proc.c: which processor, which process *)

(** The loop of [mycpu] over [cpus[0 .. ncpu)]. *)
Fixpoint cpu_index (i : nat) (cs : list cpu) (apicid : Z) : option nat :=
  match cs with
  | [] => None
  | c :: cs => if c_apicid c =? apicid then Some i else cpu_index (S i) cs apicid
  end.

Definition mycpu : M hw nat :=
  fl ← gets hw_if;
  if (fl : bool) then panic "mycpu called with interrupts enabled"
  else
    apicid ← gets hw_lapicid;
    n ← gets hw_ncpu;
    cs ← gets hw_cpus;
    match cpu_index 0 (take n cs) apicid with
    | Some i => ret i
    | None => panic "unknown apicid"
    end.

(** [*mycpu()], and stores into it. *)
Definition mycpu_get : M hw cpu :=
  i ← mycpu; cs ← gets hw_cpus; deref (cs !! i).
Definition mycpu_upd (f : cpu -> cpu) : M hw unit :=
  i ← mycpu; modify (fun h => h <| hw_cpus ::= alter f i |>).

(** ** spinlock.c *)

Definition cli : M hw unit := modify (fun h => h <| hw_if := false |>).
Definition sti : M hw unit := modify (fun h => h <| hw_if := true |>).

Definition pushcli : M hw unit :=
  eflags ← gets hw_if;
  cli;;
  c ← mycpu_get;
  when (c_ncli c =? 0) (mycpu_upd (fun c => c <| c_intena := eflags |>));;
  mycpu_upd (fun c => c <| c_ncli ::= Z.add 1 |>).

Definition popcli : M hw unit :=
  fl ← gets hw_if;
  if (fl : bool) then panic "popcli - interruptible" else
  mycpu_upd (fun c => c <| c_ncli ::= Z.pred |>);;
  c ← mycpu_get;
  if c_ncli c <? 0 then panic "popcli" else
  c ← mycpu_get;
  if c_ncli c =? 0 then
    c ← mycpu_get;
    when (c_intena c) sti
  else ret tt.

Definition cpuid : M hw nat := mycpu.

Definition myproc : M hw (option nat) :=
  pushcli;;
  c ← mycpu_get;
  popcli;;
  ret (c_proc c).

(** A lock that was never initialised is zeroed memory. *)
Definition lock_get (lk : lockref) : M hw spinlock :=
  gets (fun h => default unlocked (hw_locks h !! lk)).
Definition lock_set (lk : lockref) (l : spinlock) : M hw unit :=
  modify (fun h => h <| hw_locks ::= <[lk := l]> |>).

Definition initlock (lk : lockref) : M hw unit := lock_set lk (mkSpinlock 0 None).

Definition holding (lk : lockref) : M hw bool :=
  pushcli;;
  l ← lock_get lk;
  r ← (if lk_locked l =? 0 then ret false
       else i ← mycpu; ret (bool_decide (lk_cpu l = Some i)));
  popcli;;
  ret r.

(** [xchg(&lk->locked, 1)]: the loop on it ends at once when the lock is free; when
    it is not, this processor busy-waits for another one to release it. *)
Definition acquire (lk : lockref) : M hw unit :=
  pushcli;;
  h ← holding lk;
  if (h : bool) then panic "acquire" else
  l ← lock_get lk;
  if negb (lk_locked l =? 0) then spin else
  lock_set lk (l <| lk_locked := 1 |>);;
  i ← mycpu;
  l ← lock_get lk;
  lock_set lk (l <| lk_cpu := Some i |>).

Definition release (lk : lockref) : M hw unit :=
  h ← holding lk;
  if negb h then panic "release" else
  l ← lock_get lk;
  lock_set lk (l <| lk_cpu := None |>);;
  l ← lock_get lk;
  lock_set lk (l <| lk_locked := 0 |>);;
  popcli.

End HW.

(** The same operations on the kernel state. *)
Definition mycpu : K nat := hwop HW.mycpu.
Definition myproc : K (option nat) := hwop HW.myproc.
Definition initlock (lk : lockref) : K unit := hwop (HW.initlock lk).
Definition holding (lk : lockref) : K bool := hwop (HW.holding lk).
Definition acquire (lk : lockref) : K unit := hwop (HW.acquire lk).
Definition release (lk : lockref) : K unit := hwop (HW.release lk).

(** [getcallerpcs]: walk the saved frame pointers in memory [mem] (32-bit words),
    at most ten frames, and clear the entries that were not filled. *)
Definition KERNBASE : Z := 2147483648.

Fixpoint getcallerpcs_loop (n : nat) (mem : Z -> Z) (ebp : Z) : list Z :=
  match n with
  | O => []
  | S n =>
    if (ebp =? 0) || (ebp <? KERNBASE) || (ebp =? 4294967295) then replicate (S n) 0
    else mem (u32 (ebp + 4)) :: getcallerpcs_loop n mem (mem ebp)
  end.

Definition getcallerpcs (mem : Z -> Z) (v : Z) : list Z :=
  getcallerpcs_loop 10 mem (u32 (v - 8)).

(** ** What the operations do, as functions of the hardware state *)

(** Processor [i], whose entry of [cpus] is [c], is executing. *)
Definition CpuOk (i : nat) (c : cpu) (h : hw) : Prop :=
  HW.cpu_index 0 (take (hw_ncpu h) (hw_cpus h)) (hw_lapicid h) = Some i /\
  hw_cpus h !! i = Some c /\
  0 <= c_ncli c /\
  (0 < c_ncli c -> hw_if h = false).

Definition pushed_cpu (fl : bool) (c : cpu) : cpu :=
  (if c_ncli c =? 0 then c <| c_intena := fl |> else c) <| c_ncli ::= Z.add 1 |>.

(** After [pushcli]. *)
Definition pushed (i : nat) (c : cpu) (h : hw) : hw :=
  h <| hw_if := false |> <| hw_cpus ::= <[i := pushed_cpu (hw_if h) c]> |>.

(** After [popcli] on an entry [c] with a positive depth. *)
Definition popped (i : nat) (c : cpu) (h : hw) : hw :=
  h <| hw_if := (c_ncli c =? 1) && c_intena c |>
    <| hw_cpus ::= <[i := c <| c_ncli ::= Z.pred |>]> |>.

(** A balanced [pushcli]/[popcli] pair leaves everything as it was, except that at
    depth 0 it records the interrupt flag in [intena]. *)
Definition touched_cpu (fl : bool) (c : cpu) : cpu :=
  if c_ncli c =? 0 then c <| c_intena := fl |> else c.
Definition touched (i : nat) (c : cpu) (h : hw) : hw :=
  h <| hw_cpus ::= <[i := touched_cpu (hw_if h) c]> |>.

Definition held_by (i : nat) : spinlock := mkSpinlock 1 (Some i).

Definition acquired (i : nat) (c : cpu) (lk : lockref) (h : hw) : hw :=
  (pushed i c h) <| hw_locks ::= <[lk := held_by i]> |>.

Definition released (i : nat) (c : cpu) (lk : lockref) (h : hw) : hw :=
  (popped i c h) <| hw_locks ::= <[lk := unlocked]> |>.

(** ** Exactness *)

#[local] Arguments set {R E} getter {Setter} f r /.


Lemma cpu_index_insert k i n cs c c' a :
  cs !! i = Some c -> c_apicid c' = c_apicid c ->
  HW.cpu_index k (take n (<[i := c']> cs)) a = HW.cpu_index k (take n cs) a.
Proof.
  revert k i n. induction cs as [|d cs IH]; intros k [|i] [|n] Hi Ha; simpl in *; try done.
  - simplify_eq. by rewrite Ha.
  - by rewrite IH.
Qed.

Section CpuOk.
Context (i : nat) (c : cpu) (h : hw) (HC : CpuOk i c h).

Lemma mycpu_ok : hw_if h = false -> HW.mycpu h = Ok i h.
Proof.
  destruct HC as (Hidx & _ & _ & _). intros Hif. unfold HW.mycpu.
  mstep. rewrite Hif. msteps. by rewrite Hidx.
Qed.

Lemma mycpu_get_ok : hw_if h = false -> HW.mycpu_get h = Ok c h.
Proof.
  intros Hif. unfold HW.mycpu_get. mstep with (mycpu_ok Hif). mstep.
  destruct HC as (_ & Hc & _). by rewrite Hc.
Qed.

Lemma mycpu_upd_ok f :
  hw_if h = false -> HW.mycpu_upd f h = Ok tt (h <| hw_cpus ::= <[i := f c]> |>).
Proof.
  intros Hif. unfold HW.mycpu_upd. mstep with (mycpu_ok Hif).
  destruct HC as (_ & Hc & _). unfold modify. simpl. do 2 f_equal.
  apply list_eq. intros j. destruct (decide (i = j)) as [->|Hne].
  - rewrite list_lookup_alter_eq, Hc, list_lookup_insert_eq; [done|].
    by eapply lookup_lt_Some.
  - by rewrite list_lookup_alter_ne, list_lookup_insert_ne.
Qed.

Lemma CpuOk_upd c' fl :
  c_apicid c' = c_apicid c -> 0 <= c_ncli c' -> (0 < c_ncli c' -> fl = false) ->
  CpuOk i c' (h <| hw_if := fl |> <| hw_cpus ::= <[i := c']> |>).
Proof.
  destruct HC as (Hidx & Hc & Hn & Hf). intros Ha Hn' Hf'.
  repeat split; simpl; auto.
  - by erewrite cpu_index_insert.
  - apply list_lookup_insert_eq. by eapply lookup_lt_Some.
Qed.
End CpuOk.

Lemma CpuOk_if i c h fl : CpuOk i c h -> (0 < c_ncli c -> fl = false) ->
  CpuOk i c (h <| hw_if := fl |>).
Proof. intros (? & ? & ? & ?) ?. by repeat split. Qed.

Lemma CpuOk_pushed i c h : CpuOk i c h -> CpuOk i (pushed_cpu (hw_if h) c) (pushed i c h).
Proof.
  intros HC. apply (CpuOk_upd i c h HC); unfold pushed_cpu; case_match; simpl;
    destruct HC as (_ & _ & ? & _); auto with lia.
Qed.

(** [pushcli] never fails on a processor of the table. *)
Lemma pushcli_ok i c h : CpuOk i c h -> HW.pushcli h = Ok tt (pushed i c h).
Proof.
  intros HC. pose proof (CpuOk_if i c h false HC (fun _ => eq_refl)) as H0.
  unfold HW.pushcli, HW.cli. msteps.
  mstep with (mycpu_get_ok _ _ _ H0 eq_refl).
  assert (Hg : c_ncli (touched_cpu (hw_if h) c) = c_ncli c) by
    (unfold touched_cpu; by case_match).
  assert (H1 : CpuOk i (touched_cpu (hw_if h) c)
                 (h <| hw_if := false |> <| hw_cpus ::= <[i := touched_cpu (hw_if h) c]> |>)).
  { destruct HC as (? & ? & ? & ?) eqn:E. apply (CpuOk_upd i c h HC); auto; [|lia].
    unfold touched_cpu; by case_match. }
  rewrite (bind_ok _ _ _ tt (h <| hw_if := false |>
             <| hw_cpus ::= <[i := touched_cpu (hw_if h) c]> |>)).
  - rewrite (mycpu_upd_ok _ _ _ H1 _ eq_refl). do 2 f_equal.
    unfold pushed, pushed_cpu. simpl. by rewrite list_insert_insert_eq.
  - unfold touched_cpu. destruct (c_ncli c =? 0); simpl.
    + by rewrite (mycpu_upd_ok _ _ _ H0 _ eq_refl).
    + unfold ret. do 2 f_equal. destruct HC as (_ & Hc & _). by rewrite list_insert_id.
Qed.

(** [popcli] undoes one level; it switches interrupts on exactly when the depth
    returns to 0 and they were on before the outermost [pushcli]. *)
Lemma popcli_ok i c h :
  CpuOk i c h -> 0 < c_ncli c -> HW.popcli h = Ok tt (popped i c h).
Proof.
  intros HC Hpos. assert (Hif : hw_if h = false) by (destruct HC as (_&_&_&?); auto).
  unfold HW.popcli. mstep. rewrite Hif.
  mstep with (mycpu_upd_ok _ _ _ HC _ Hif).
  assert (H1 : CpuOk i (c <| c_ncli ::= Z.pred |>)
    (h <| hw_cpus ::= <[i := c <| c_ncli ::= Z.pred |>]> |>)).
  { pose proof (CpuOk_upd i c h HC (c <| c_ncli ::= Z.pred |>) false) as HU.
    destruct h; simpl in *; subst. apply HU; simpl; auto with lia. }
  mstep with (mycpu_get_ok _ _ _ H1 Hif). simpl.
  destruct (Z.ltb_spec (Z.pred (c_ncli c)) 0); [lia|].
  mstep with (mycpu_get_ok _ _ _ H1 Hif). simpl.
  unfold popped. destruct (Z.eqb_spec (Z.pred (c_ncli c)) 0) as [E|E].
  - mstep with (mycpu_get_ok _ _ _ H1 Hif). simpl.
    rewrite (proj2 (Z.eqb_eq (c_ncli c) 1)) by lia.
    destruct (c_intena c); simpl; [done|]. destruct h; simpl in *; subst. done.
  - rewrite (proj2 (Z.eqb_neq (c_ncli c) 1)) by lia. destruct h; simpl in *; subst. done.
Qed.

Lemma popped_pushed i c h :
  CpuOk i c h -> popped i (pushed_cpu (hw_if h) c) (pushed i c h) = touched i c h.
Proof.
  intros (Hidx & Hc & Hn & Hf). unfold popped, pushed, touched. simpl.
  rewrite list_insert_insert_eq. unfold pushed_cpu, touched_cpu.
  destruct (Z.eqb_spec (c_ncli c) 0) as [E|E]; simpl.
  - rewrite E. simpl. by destruct h, c; simpl in *; subst.
  - rewrite (proj2 (Z.eqb_neq (1 + c_ncli c) 1)) by lia. simpl.
    destruct h, c; simpl in *. rewrite Hf by lia. repeat f_equal. lia.
Qed.

Lemma CpuOk_touched i c h : CpuOk i c h -> CpuOk i (touched_cpu (hw_if h) c) (touched i c h).
Proof.
  intros HC. pose proof (CpuOk_upd i c h HC (touched_cpu (hw_if h) c) (hw_if h)) as HU.
  destruct HC as (_ & _ & ? & ?). unfold touched.
  destruct h; simpl in *. apply HU; unfold touched_cpu; case_match; simpl; auto.
Qed.

(** At a positive depth a balanced pair changes nothing at all. *)
Lemma touched_nested i c h : CpuOk i c h -> 0 < c_ncli c -> touched i c h = h.
Proof.
  intros (_ & Hc & _ & _) Hpos. unfold touched, touched_cpu.
  rewrite (proj2 (Z.eqb_neq (c_ncli c) 0)) by lia.
  destruct h; simpl in *. by rewrite list_insert_id.
Qed.

Lemma myproc_ok i c h : CpuOk i c h -> HW.myproc h = Ok (c_proc c) (touched i c h).
Proof.
  intros HC. pose proof (CpuOk_pushed _ _ _ HC) as HP. unfold HW.myproc.
  mstep with (pushcli_ok _ _ _ HC). mstep with (mycpu_get_ok _ _ _ HP eq_refl).
  assert (0 < c_ncli (pushed_cpu (hw_if h) c)).
  { destruct HC as (_ & _ & ? & _). unfold pushed_cpu; case_match; simpl; lia. }
  mstep with (popcli_ok _ _ _ HP H). rewrite popped_pushed by done.
  unfold ret. f_equal. unfold pushed_cpu; by case_match.
Qed.

(** ** Locks *)

Definition lock_of (lk : lockref) (h : hw) : spinlock := default unlocked (hw_locks h !! lk).

(** What [holding] computes. *)
Definition holds (i : nat) (lk : lockref) (h : hw) : bool :=
  negb (lk_locked (lock_of lk h) =? 0) && bool_decide (lk_cpu (lock_of lk h) = Some i).

Lemma holding_ok i c lk h :
  CpuOk i c h -> HW.holding lk h = Ok (holds i lk h) (touched i c h).
Proof.
  intros HC. pose proof (CpuOk_pushed _ _ _ HC) as HP. unfold HW.holding, HW.lock_get.
  mstep with (pushcli_ok _ _ _ HC). mstep.
  assert (Hpos : 0 < c_ncli (pushed_cpu (hw_if h) c)).
  { destruct HC as (_ & _ & ? & _). unfold pushed_cpu; case_match; simpl; lia. }
  assert (Hr : forall b : bool,
    bind HW.popcli (fun _ => ret b) (pushed i c h) = Ok b (touched i c h)).
  { intros b. mstep with (popcli_ok _ _ _ HP Hpos). by rewrite popped_pushed. }
  unfold holds, lock_of. simpl. destruct (_ =? 0); simpl.
  - apply (Hr false).
  - unfold bind at 1. rewrite (bind_ok _ _ _ _ _ (mycpu_ok _ _ _ HP eq_refl)). apply Hr.
Qed.

Lemma lock_of_touched i c lk h : lock_of lk (touched i c h) = lock_of lk h.
Proof. done. Qed.

(** The three ways [acquire] can go: it already holds the lock (panic), another
    processor holds it (busy-wait), or the lock is free and is taken. *)
Lemma acquire_cases i c lk h :
  CpuOk i c h ->
  HW.acquire lk h =
    if holds i lk h then Panic "acquire"
    else if lk_locked (lock_of lk h) =? 0 then Ok tt (acquired i c lk h)
    else Spin.
Proof.
  intros HC. pose proof (CpuOk_pushed _ _ _ HC) as HP.
  assert (Hpos : 0 < c_ncli (pushed_cpu (hw_if h) c)).
  { destruct HC as (_ & _ & ? & _). unfold pushed_cpu; case_match; simpl; lia. }
  unfold HW.acquire. mstep with (pushcli_ok _ _ _ HC).
  mstep with (holding_ok _ _ lk _ HP). rewrite (touched_nested _ _ _ HP Hpos).
  change (holds i lk (pushed i c h)) with (holds i lk h).
  destruct (holds i lk h); [done|]. unfold HW.lock_get, HW.lock_set. mstep.
  change (default unlocked (hw_locks (pushed i c h) !! lk)) with (lock_of lk h).
  destruct (lk_locked (lock_of lk h) =? 0) eqn:E; simpl; [|done].
  mstep. rewrite (bind_ok _ _ _ i ((pushed i c h) <| hw_locks ::= <[lk := (lock_of lk h) <| lk_locked := 1 |>]> |>)).
  2: { apply (mycpu_ok i (pushed_cpu (hw_if h) c)); [|done].
       destruct HP as (? & ? & ? & ?). by repeat split. }
  mstep. unfold modify. do 2 f_equal. unfold acquired. simpl.
  rewrite lookup_insert_eq. simpl. by rewrite insert_insert_eq.
Qed.

(** [release] gives the lock back, or panics when this processor does not hold it. *)
Lemma release_cases i c lk h :
  CpuOk i c h -> (holds i lk h = true -> 0 < c_ncli c) ->
  HW.release lk h =
    if holds i lk h then Ok tt (released i c lk h) else Panic "release".
Proof.
  intros HC Hpos. unfold HW.release. mstep with (holding_ok _ _ lk _ HC).
  destruct (holds i lk h) eqn:Hh; simpl; [|done]. specialize (Hpos eq_refl).
  rewrite (touched_nested _ _ _ HC Hpos). unfold HW.lock_get, HW.lock_set. msteps.
  rewrite (popcli_ok i c); [|destruct HC as (?&?&?&?); by repeat split|done].
  do 2 f_equal. unfold released, popped. simpl. rewrite lookup_insert_eq. simpl.
  by rewrite insert_insert_eq.
Qed.

(** A lock known to be free: initialised, and released since. *)
Definition free (lk : lockref) (h : hw) : Prop := hw_locks h !! lk = Some unlocked.

Lemma acquire_ok i c lk h :
  CpuOk i c h -> free lk h -> HW.acquire lk h = Ok tt (acquired i c lk h).
Proof.
  intros HC Hf. rewrite (acquire_cases i c) by done.
  unfold holds, lock_of. rewrite Hf. done.
Qed.

Lemma CpuOk_acquired i c lk h :
  CpuOk i c h -> CpuOk i (pushed_cpu (hw_if h) c) (acquired i c lk h).
Proof. intros HC. destruct (CpuOk_pushed _ _ _ HC) as (?&?&?&?). by repeat split. Qed.

Lemma holds_acquired i c lk h : holds i lk (acquired i c lk h) = true.
Proof.
  unfold holds, lock_of, acquired. simpl. rewrite lookup_insert_eq. simpl.
  by rewrite bool_decide_eq_true_2.
Qed.

Lemma pushed_ncli_pos i c h : CpuOk i c h -> 0 < c_ncli (pushed_cpu (hw_if h) c).
Proof. intros (_ & _ & ? & _). unfold pushed_cpu; case_match; simpl; lia. Qed.

Lemma released_acquired i c lk h :
  CpuOk i c h -> free lk h ->
  released i (pushed_cpu (hw_if h) c) lk (acquired i c lk h) = touched i c h.
Proof.
  intros HC Hf. rewrite <- (popped_pushed i c h HC).
  unfold released, acquired, popped. simpl. rewrite insert_insert_eq.
  rewrite (insert_id (hw_locks h)) by done. done.
Qed.

Lemma release_ok i c lk h :
  CpuOk i c h -> free lk h ->
  HW.release lk (acquired i c lk h) = Ok tt (touched i c h).
Proof.
  intros HC Hf. rewrite (release_cases i (pushed_cpu (hw_if h) c)).
  - by rewrite holds_acquired, released_acquired.
  - by apply CpuOk_acquired.
  - intros _. by eapply pushed_ncli_pos.
Qed.

Lemma touched_twice i c h :
  touched i (touched_cpu (hw_if h) c) (touched i c h) = touched i c h.
Proof.
  assert (E : touched_cpu (hw_if h) (touched_cpu (hw_if h) c) = touched_cpu (hw_if h) c).
  { unfold touched_cpu. destruct (c_ncli c =? 0) eqn:E; simpl; by rewrite E. }
  unfold touched. simpl. by rewrite list_insert_insert_eq, E.
Qed.

(** Taking a second lock while one is held. *)
Lemma free_acquired i c lk lk' h : lk <> lk' -> free lk' h -> free lk' (acquired i c lk h).
Proof. intros Hne Hf. unfold free, acquired. simpl. by rewrite lookup_insert_ne. Qed.

Lemma free_touched i c lk h : free lk h -> free lk (touched i c h).
Proof. done. Qed.

Lemma pushed_cpu_nested fl c : 0 < c_ncli c -> pushed_cpu fl c = c <| c_ncli ::= Z.add 1 |>.
Proof. intros H. unfold pushed_cpu. by rewrite (proj2 (Z.eqb_neq (c_ncli c) 0)) by lia. Qed.

(** Handing over from one lock to another: take [lk'], then give [lk] back. *)
Lemma release_handover i c lk lk' h :
  CpuOk i c h -> free lk h -> lk <> lk' ->
  HW.release lk (acquired i (pushed_cpu (hw_if h) c) lk' (acquired i c lk h)) =
    Ok tt (acquired i c lk' h).
Proof.
  intros HC Hf Hne. pose proof (CpuOk_acquired i c lk h HC) as H1.
  pose proof (CpuOk_acquired i _ lk' _ H1) as H2. simpl in H2.
  rewrite (release_cases i _ lk _ H2) by (intros _; by apply (pushed_ncli_pos i _ _ H1)).
  assert (holds i lk (acquired i (pushed_cpu (hw_if h) c) lk' (acquired i c lk h)) = true) as ->.
  { unfold holds, lock_of, acquired. simpl. rewrite lookup_insert_ne by done.
    rewrite lookup_insert_eq. simpl. by rewrite bool_decide_eq_true_2. }
  do 2 f_equal. pose proof (pushed_ncli_pos i c h HC) as Hpos.
  rewrite (pushed_cpu_nested _ (pushed_cpu (hw_if h) c)) by done.
  unfold released, popped, acquired at 1 2, pushed at 1 2.
  rewrite (pushed_cpu_nested _ (pushed_cpu (hw_if h) c)) by done.
  unfold acquired, pushed. revert Hpos. generalize (pushed_cpu (hw_if h) c) as c1.
  intros c1 Hpos. destruct h as [fl ap n cs lks]. unfold free in Hf.
  cbv beta iota zeta delta [set hw_if hw_cpus hw_locks hw_lapicid hw_ncpu c_ncli c_apicid c_intena c_proc] in *.
  rewrite !list_insert_insert_eq. destruct c1 as [a1 n1 i1 p1].
  rewrite (proj2 (Z.eqb_neq (1 + n1) 1)) by lia. simpl. f_equal.
  - f_equal. f_equal. lia.
  - rewrite (insert_insert_ne _ lk lk') by done. by rewrite insert_insert_eq, (insert_id lks lk).
Qed.

#[export] Hint Resolve CpuOk_touched CpuOk_acquired free_acquired free_touched : xv6.

(** ** The same on the kernel state *)

Lemma kmyproc_ok i c s :
  CpuOk i c (k_hw s) -> myproc s = Ok (c_proc c) (s <| k_hw ::= touched i c |>).
Proof. intros HC. by apply hwop_ok, myproc_ok. Qed.

Lemma kacquire_ok i c lk s :
  CpuOk i c (k_hw s) -> free lk (k_hw s) ->
  acquire lk s = Ok tt (s <| k_hw ::= acquired i c lk |>).
Proof. intros HC Hf. by apply hwop_ok, acquire_ok. Qed.

(** The critical section may have changed anything but the hardware state. *)
Lemma krelease_ok i c lk h s :
  CpuOk i c h -> free lk h -> k_hw s = acquired i c lk h ->
  release lk s = Ok tt (s <| k_hw := touched i c h |>).
Proof. intros HC Hf Hs. apply hwop_ok. rewrite Hs. by apply release_ok. Qed.

(** Iterated [pushcli] and [popcli]. *)
Fixpoint pushcli_n (n : nat) : M hw unit :=
  match n with O => ret tt | S n => HW.pushcli;; pushcli_n n end.
Fixpoint popcli_n (n : nat) : M hw unit :=
  match n with O => ret tt | S n => popcli_n n;; HW.popcli end.

Lemma cli_nesting n i c h :
  CpuOk i c h ->
  exists h', pushcli_n (S n) h = Ok tt h' /\ hw_if h' = false /\
             popcli_n (S n) h' = Ok tt (touched i c h).
Proof.
  revert c h. induction n as [|n IH]; intros c h HC; simpl pushcli_n.
  - exists (pushed i c h). mstep with (pushcli_ok _ _ _ HC). repeat split.
    simpl. mstep. rewrite (popcli_ok _ _ _ (CpuOk_pushed _ _ _ HC)) by by eapply pushed_ncli_pos.
    by rewrite popped_pushed.
  - pose proof (CpuOk_pushed _ _ _ HC) as HP.
    destruct (IH _ _ HP) as (h' & Hpush & Hif & Hpop). exists h'.
    mstep with (pushcli_ok _ _ _ HC). repeat split; [exact Hpush|done|].
    change (popcli_n (S (S n))) with (popcli_n (S n);; HW.popcli).
    mstep with Hpop. rewrite touched_nested by eauto using pushed_ncli_pos.
    rewrite (popcli_ok _ _ _ HP) by by eapply pushed_ncli_pos. by rewrite popped_pushed.
Qed.

(** ** Several processors on one lock

    [HW.acquire] and [HW.release] above run without interference.  Here every
    access to the shared lock is a step of its own, and the steps of the processors
    interleave freely.  [pc] is where a processor is in the code:

    - [Idle]: outside [acquire]/[release];
    - [Spinning]: in the [xchg] loop, past the [holding] test;
    - [Taken]: [xchg] returned 0, [lk->cpu] not yet stored;
    - [Critical]: [acquire] has returned;
    - [Clearing]: in [release], [lk->cpu = 0] done, [lk->locked] not yet cleared. *)
Module Contention.

Inductive pc : Type := Idle | Spinning | Taken | Critical | Clearing.

Record mstate : Type := mkMstate { m_lock : spinlock; m_pcs : list pc }.

(** [lock->locked && lock->cpu == mycpu()] as processor [i] evaluates it. *)
Definition sees_held (i : nat) (l : spinlock) : bool :=
  negb (lk_locked l =? 0) && bool_decide (lk_cpu l = Some i).

Inductive step : mstate -> mstate -> Prop :=
| step_enter l ps i :
    ps !! i = Some Idle -> sees_held i l = false ->
    step (mkMstate l ps) (mkMstate l (<[i := Spinning]> ps))
| step_xchg_busy l ps i :
    ps !! i = Some Spinning -> lk_locked l <> 0 ->
    step (mkMstate l ps) (mkMstate (mkSpinlock 1 (lk_cpu l)) ps)
| step_xchg_free l ps i :
    ps !! i = Some Spinning -> lk_locked l = 0 ->
    step (mkMstate l ps) (mkMstate (mkSpinlock 1 (lk_cpu l)) (<[i := Taken]> ps))
| step_record l ps i :
    ps !! i = Some Taken ->
    step (mkMstate l ps) (mkMstate (mkSpinlock (lk_locked l) (Some i)) (<[i := Critical]> ps))
| step_release l ps i :
    ps !! i = Some Critical -> sees_held i l = true ->
    step (mkMstate l ps) (mkMstate (mkSpinlock (lk_locked l) None) (<[i := Clearing]> ps))
| step_unlock l ps i :
    ps !! i = Some Clearing ->
    step (mkMstate l ps) (mkMstate (mkSpinlock 0 (lk_cpu l)) (<[i := Idle]> ps)).

Definition init (n : nat) : mstate := mkMstate unlocked (replicate n Idle).

(** The processor is between its successful [xchg] and the store that unlocks. *)
Definition owns (p : pc) : bool :=
  match p with Taken | Critical | Clearing => true | _ => false end.

(** Either nobody owns the lock and it is clear, or exactly one processor does, and
    [lk->cpu] names it exactly while it is in its critical section. *)
Definition inv (m : mstate) : Prop :=
  (m_lock m = unlocked /\ forall i p, m_pcs m !! i = Some p -> owns p = false) \/
  (exists i p, m_pcs m !! i = Some p /\ owns p = true /\
     m_lock m = mkSpinlock 1 (match p with Critical => Some i | _ => None end) /\
     forall j q, m_pcs m !! j = Some q -> owns q = true -> j = i).

Lemma lookup_upd (ps : list pc) i j p q :
  <[i := p]> ps !! j = Some q -> (i = j /\ p = q) \/ (i <> j /\ ps !! j = Some q).
Proof. rewrite list_lookup_insert_Some. naive_solver. Qed.

Lemma lookup_upd_eq (ps : list pc) i p q : ps !! i = Some q -> <[i := p]> ps !! i = Some p.
Proof. intros H. apply list_lookup_insert_eq. by eapply lookup_lt_Some. Qed.

Lemma inv_init n : inv (init n).
Proof.
  left. split; [done|]. simpl. intros i p Hi. by apply lookup_replicate in Hi as [-> _].
Qed.

(** A step that moves processor [i] from one non-owning place to another. *)
Lemma inv_idle_move l ps i p q :
  inv (mkMstate l ps) -> ps !! i = Some p -> owns p = false -> owns q = false ->
  inv (mkMstate l (<[i := q]> ps)).
Proof.
  intros [[Hl Hno]|(j & r & Hj & Hr & Hl & Huniq)] Hi Hp Hq; simpl in *.
  - left. split; [done|]. intros k t [[-> <-]|[_ Hk]]%lookup_upd; eauto.
  - right. exists j, r. assert (i <> j) by (intros ->; congruence).
    simpl. rewrite list_lookup_insert_ne by done. repeat split; try done.
    intros k t [[-> <-]|[_ Hk]]%lookup_upd Ht; [congruence|eauto].
Qed.

(** A step of the owner that keeps the lock. *)
Lemma inv_owner_move l ps i p q :
  inv (mkMstate l ps) -> ps !! i = Some p -> owns p = true -> owns q = true ->
  inv (mkMstate (mkSpinlock (lk_locked l) (match q with Critical => Some i | _ => None end))
         (<[i := q]> ps)).
Proof.
  intros [[Hl Hno]|(j & r & Hj & Hr & Hl & Huniq)] Hi Hp Hq; simpl in *.
  - specialize (Hno _ _ Hi). congruence.
  - assert (i = j) as <- by eauto. right. exists i, q. subst l. simpl.
    rewrite (lookup_upd_eq _ _ _ _ Hi). repeat split; try done.
    intros k t [[-> <-]|[_ Hk]]%lookup_upd Ht; eauto.
Qed.

Lemma inv_step m m' : step m m' -> inv m -> inv m'.
Proof.
  intros [l ps i Hi Hh|l ps i Hi Hl|l ps i Hi Hl|l ps i Hi|l ps i Hi Hh|l ps i Hi] HI.
  - by eapply inv_idle_move.
  - destruct HI as [[Hu _]|(j & r & ? & ? & Hu & ?)]; simpl in *; subst; simpl in *; [done|].
    right. by exists j, r.
  - destruct HI as [[Hu Hno]|(j & r & ? & ? & Hu & ?)]; simpl in *; subst; simpl in *; [|done].
    right. exists i, Taken. simpl. rewrite (lookup_upd_eq _ _ _ _ Hi). repeat split; try done.
    intros k t [[-> <-]|[_ Hk]]%lookup_upd Ht; [done|]. simpl in Ht. by rewrite (Hno _ _ Hk) in Ht.
  - by apply (inv_owner_move l ps i Taken Critical).
  - by apply (inv_owner_move l ps i Critical Clearing).
  - destruct HI as [[Hu Hno]|(j & r & Hj & ? & Hu & Huniq)]; simpl in *.
    + specialize (Hno _ _ Hi). done.
    + assert (i = j) as <- by eauto. simplify_eq. left. split; [done|]. simpl.
      intros k t [[-> <-]|[? Hk]]%lookup_upd; [done|].
      destruct (owns t) eqn:Ht; [|done]. specialize (Huniq _ _ Hk Ht). congruence.
Qed.

Lemma inv_reachable n m : rtc step (init n) m -> inv m.
Proof.
  intros Hr. assert (HI := inv_init n). revert HI. generalize (init n) Hr.
  clear. intros m0 Hr. induction Hr; eauto using inv_step.
Qed.

(** C3. Mutual exclusion: two processors are never both past their [acquire]. *)
Theorem mutual_exclusion n m i j :
  rtc step (init n) m ->
  m_pcs m !! i = Some Critical -> m_pcs m !! j = Some Critical -> i = j.
Proof.
  intros [[_ Hno]|(k & r & _ & _ & _ & Huniq)]%inv_reachable Hi Hj.
  - by specialize (Hno _ _ Hi).
  - rewrite (Huniq _ _ Hi), (Huniq _ _ Hj); done.
Qed.

(** The [holding] tests are right under contention: a processor that is outside
    never believes it holds the lock, and one inside always does, so neither
    [panic] can be reached. *)
Theorem holding_exact n m i p :
  rtc step (init n) m -> m_pcs m !! i = Some p ->
  sees_held i (m_lock m) = match p with Critical => true | _ => false end.
Proof.
  intros [[Hl Hno]|(k & r & Hk & Hr & Hl & Huniq)]%inv_reachable Hi; rewrite Hl.
  - specialize (Hno _ _ Hi). by destruct p.
  - unfold sees_held. simpl. destruct (decide (i = k)) as [->|Hne].
    + rewrite Hk in Hi. injection Hi as <-. destruct r; try done; by rewrite bool_decide_eq_true_2.
    + assert (owns p = false) as Hp.
      { destruct (owns p) eqn:Hp; [|done]. by specialize (Huniq _ _ Hi Hp). }
      rewrite bool_decide_eq_false_2 by (destruct r; naive_solver). by destruct p.
Qed.

Lemma mutual_exclusion_witness :
  rtc step (init 2) (mkMstate (held_by 1) [Spinning; Critical]) /\
  forall i, [Spinning; Critical] !! i = Some Critical -> i = 1%nat.
Proof.
  assert (Hr : rtc step (init 2) (mkMstate (held_by 1) [Spinning; Critical])).
  { eapply rtc_l; [apply (step_enter unlocked [Idle; Idle] 0); done|].
    eapply rtc_l; [apply (step_enter unlocked [Spinning; Idle] 1); done|].
    eapply rtc_l; [apply (step_xchg_free unlocked [Spinning; Spinning] 1); done|].
    eapply rtc_l; [apply (step_xchg_busy (mkSpinlock 1 None) [Spinning; Taken] 0); done|].
    eapply rtc_l; [apply (step_record (mkSpinlock 1 None) [Spinning; Taken] 1); done|].
    apply rtc_refl. }
  split; [exact Hr|]. intros i Hi. exact (mutual_exclusion 2 _ i 1 Hr Hi eq_refl).
Defined.
End Contention.
