(* ===== verification/Kalloc.v ===== *)
(** * The physical page allocator (kalloc.c)

    The free list is threaded through the free pages themselves: the first word of
    a free page is the address of the next one.  The model keeps that
    representation, in the byte-addressed memory [k_mem], and the theorems show that
    it implements a stack of distinct, aligned pages in the allocator's range. *)

From stdpp Require Import gmap.
From S2P Require Import Prelude Outcome Kernel Spinlock.

Definition PGSIZE : Z := 4096.
Definition PHYSTOP : Z := 234881024.

Definition V2P (a : Z) : Z := u32 (a - KERNBASE).
Definition P2V (a : Z) : Z := u32 (a + KERNBASE).
Definition PGROUNDUP (sz : Z) : Z := Z.land (u32 (sz + PGSIZE - 1)) (Z.lnot (PGSIZE - 1)).

(** 32-bit loads and stores, little endian, and [memset]. *)
Definition load32 (mem : Z -> Z) (a : Z) : Z :=
  mem a + 256 * mem (a + 1) + 65536 * mem (a + 2) + 16777216 * mem (a + 3).
Definition store32 (a v : Z) (mem : Z -> Z) : Z -> Z :=
  fun b => if b =? a then v mod 256
           else if b =? a + 1 then v / 256 mod 256
           else if b =? a + 2 then v / 65536 mod 256
           else if b =? a + 3 then v / 16777216 mod 256
           else mem b.
Definition memset (a v n : Z) (mem : Z -> Z) : Z -> Z :=
  fun b => if (a <=? b) && (b <? a + n) then u8 v else mem b.

Section Kalloc.

(** The linker's symbol [end]: the first address after the kernel. *)
Context (kernel_end : Z).

Definition kfree (v : Z) : K unit :=
  if negb (v mod PGSIZE =? 0) || (v <? kernel_end) || (PHYSTOP <=? V2P v)
  then panic "kfree" else
  modify (fun s => s <| k_mem ::= memset v 1 PGSIZE |>);;
  use_lock ← gets (fun s => km_use_lock (k_kmem s));
  when use_lock (acquire LKmem);;
  head ← gets (fun s => km_freelist (k_kmem s));
  modify (fun s => s <| k_mem ::= store32 v head |>);;
  modify (fun s => s <| k_kmem ::= set km_freelist (fun _ => v) |>);;
  use_lock ← gets (fun s => km_use_lock (k_kmem s));
  when use_lock (release LKmem).

Definition kalloc : K Z :=
  use_lock ← gets (fun s => km_use_lock (k_kmem s));
  when use_lock (acquire LKmem);;
  r ← gets (fun s => km_freelist (k_kmem s));
  when (negb (r =? 0))
    (modify (fun s => s <| k_kmem ::= set km_freelist (fun _ => load32 (k_mem s) r) |>));;
  use_lock ← gets (fun s => km_use_lock (k_kmem s));
  when use_lock (release LKmem);;
  ret r.

(** The loop of [freerange]; [fuel] bounds the iterations. *)
Fixpoint freerange_loop (fuel : nat) (p vend : Z) : K unit :=
  match fuel with
  | O => spin
  | S fuel =>
    if u32 (p + PGSIZE) <=? vend then kfree p;; freerange_loop fuel (u32 (p + PGSIZE)) vend
    else ret tt
  end.
Definition freerange (vstart vend : Z) : K unit :=
  let p := PGROUNDUP vstart in
  freerange_loop (S (Z.to_nat ((vend - p) / PGSIZE))) p vend.

Definition kinit1 (vstart vend : Z) : K unit :=
  initlock LKmem;;
  modify (fun s => s <| k_kmem ::= set km_use_lock (fun _ => false) |>);;
  freerange vstart vend.

Definition kinit2 (vstart vend : Z) : K unit :=
  freerange vstart vend;;
  modify (fun s => s <| k_kmem ::= set km_use_lock (fun _ => true) |>).

(** ** The abstract allocator: a stack of pages *)

(** The pages [kfree] accepts. *)
Definition page_ok (v : Z) : bool :=
  (v mod PGSIZE =? 0) && (kernel_end <=? v) && (V2P v <? PHYSTOP) &&
  (0 <=? v) && (v <? 4294967296).

(** Following [next] pointers from [p] visits exactly the pages of [l]. *)
Fixpoint chain (mem : Z -> Z) (p : Z) (l : list Z) : Prop :=
  match l with
  | [] => p = 0
  | v :: l => p = v /\ chain mem (load32 mem v) l
  end.

Record KmemInv (s : kstate) (l : list Z) : Prop := {
  ki_chain : chain (k_mem s) (km_freelist (k_kmem s)) l;
  ki_nodup : NoDup l;
  ki_pages : Forall (fun v => page_ok v = true) l }.

(** The allocator may run on processor [i]: if it locks, the lock is free. *)
Definition kmem_ready (i : nat) (c : cpu) (s : kstate) : Prop :=
  km_use_lock (k_kmem s) = true -> CpuOk i c (k_hw s) /\ free LKmem (k_hw s).

(** The trace a lock section leaves, if there is one. *)
Definition kmem_section (i : nat) (c : cpu) (s : kstate) : kstate :=
  if km_use_lock (k_kmem s) then s <| k_hw ::= touched i c |> else s.

(** Clients of the allocator: they allocate, free pages they own, and write into
    pages they own.  The second component is the list of pages out on loan. *)
Inductive client_step : kstate * list Z -> kstate * list Z -> Prop :=
| cl_alloc s s' A v :
    kalloc s = Ok v s' -> v <> 0 -> client_step (s, A) (s', v :: A)
| cl_nomem s s' A :
    kalloc s = Ok 0 s' -> client_step (s, A) (s', A)
| cl_free s s' A1 v A2 :
    kfree v s = Ok tt s' -> client_step (s, A1 ++ v :: A2) (s', A1 ++ A2)
| cl_write s A v a b :
    v ∈ A -> v <= a < v + PGSIZE ->
    client_step (s, A) (s <| k_mem ::= fun m x => if x =? a then b else m x |>, A).

(** The pages of a range, in the order [freerange] visits them. *)
Fixpoint pages (n : nat) (p : Z) : list Z :=
  match n with O => [] | S n => p :: pages n (p + PGSIZE) end.

(** ** Exact effect of the operations *)

Lemma kfree_cases i c v s :
  kmem_ready i c s ->
  kfree v s =
    if negb (v mod PGSIZE =? 0) || (v <? kernel_end) || (PHYSTOP <=? V2P v) then Panic "kfree"
    else Ok tt ((kmem_section i c s)
      <| k_mem := store32 v (km_freelist (k_kmem s)) (memset v 1 PGSIZE (k_mem s)) |>
      <| k_kmem := mkKmem (km_use_lock (k_kmem s)) v |>).
Proof.
  intros Hr. unfold kfree. destruct (_ || _); [done|]. msteps.
  unfold kmem_section, kmem_ready in *. rsimpl.
  destruct (km_use_lock (k_kmem s)) eqn:Hu; cbn [when].
  - destruct (Hr eq_refl) as [HC Hf].
    mstep by (apply (kacquire_ok i c); assumption). msteps.
    rsimpl. rewrite Hu. cbn [when]. rewrite (krelease_ok i c LKmem (k_hw s)) by done. 
    unfold set. cbn. by rewrite Hu.
  - msteps. rsimpl. rewrite Hu. cbn [when]. unfold ret, set. cbn. by rewrite Hu.
Qed.

Lemma kalloc_cases i c s :
  kmem_ready i c s ->
  let r := km_freelist (k_kmem s) in
  kalloc s = Ok r (if r =? 0 then kmem_section i c s
                   else (kmem_section i c s)
                     <| k_kmem := mkKmem (km_use_lock (k_kmem s)) (load32 (k_mem s) r) |>).
Proof.
  intros Hr r. unfold kalloc. msteps.
  unfold kmem_section, kmem_ready in *.
  destruct (km_use_lock (k_kmem s)) eqn:Hu; cbn [when].
  - destruct (Hr eq_refl) as [HC Hf]. mstep by (apply (kacquire_ok i c); assumption). msteps.
    rsimpl. fold r. destruct (r =? 0); cbn [negb when]; msteps; rsimpl; rewrite Hu; cbn [when].
    all: mstep by (apply (krelease_ok i c LKmem (k_hw s)); [assumption..|reflexivity]).
    all: unfold ret, set; cbn; by rewrite ?Hu.
  - msteps. fold r. destruct (r =? 0); cbn [negb when]; msteps; rsimpl; rewrite Hu; cbn [when];
      msteps; unfold ret, set; cbn; by rewrite ?Hu.
Qed.

(** ** Memory *)

Lemma load32_store32 a v mem : 0 <= v < 4294967296 -> load32 (store32 a v mem) a = v.
Proof.
  intros Hv. unfold load32, store32.
  rewrite Z.eqb_refl.
  rewrite (proj2 (Z.eqb_neq (a + 1) a)), Z.eqb_refl by lia.
  rewrite (proj2 (Z.eqb_neq (a + 2) a)), (proj2 (Z.eqb_neq (a + 2) (a + 1))), Z.eqb_refl by lia.
  rewrite (proj2 (Z.eqb_neq (a + 3) a)), (proj2 (Z.eqb_neq (a + 3) (a + 1))),
    (proj2 (Z.eqb_neq (a + 3) (a + 2))), Z.eqb_refl by lia.
  Z.div_mod_to_equations. lia.
Qed.

Lemma store32_other a v mem b : ~ (a <= b < a + 4) -> store32 a v mem b = mem b.
Proof.
  intros Hb. unfold store32.
  rewrite (proj2 (Z.eqb_neq b a)), (proj2 (Z.eqb_neq b (a + 1))),
    (proj2 (Z.eqb_neq b (a + 2))), (proj2 (Z.eqb_neq b (a + 3))) by lia. done.
Qed.

Lemma memset_other a v n mem b : ~ (a <= b < a + n) -> memset a v n mem b = mem b.
Proof.
  intros Hb. unfold memset. destruct (Z.leb_spec a b), (Z.ltb_spec b (a + n)); simpl; done || lia.
Qed.

Lemma load32_frame mem mem' a :
  (forall k, 0 <= k < 4 -> mem' (a + k) = mem (a + k)) -> load32 mem' a = load32 mem a.
Proof.
  intros H. unfold load32.
  rewrite <- (H 1), <- (H 2), <- (H 3) by lia. rewrite <- (Z.add_0_r a) at 1.
  rewrite (H 0), Z.add_0_r by lia. done.
Qed.

Lemma chain_frame mem mem' p l :
  (forall v k, v ∈ l -> 0 <= k < 4 -> mem' (v + k) = mem (v + k)) ->
  chain mem p l -> chain mem' p l.
Proof.
  revert p. induction l as [|v l IH]; intros p Hf; simpl; [done|].
  intros [-> Hc]. split; [done|].
  rewrite (load32_frame mem mem') by (intros; apply Hf; set_solver).
  apply IH; [|done]. intros; apply Hf; set_solver.
Qed.

Lemma page_ok_spec v :
  page_ok v = true <->
  v mod PGSIZE = 0 /\ kernel_end <= v /\ V2P v < PHYSTOP /\ 0 <= v < 4294967296.
Proof.
  unfold page_ok. rewrite !andb_true_iff, Z.eqb_eq, !Z.leb_le, !Z.ltb_lt. tauto.
Qed.

Lemma page_ok_nonzero v : page_ok v = true -> v <> 0.
Proof. rewrite page_ok_spec. intros (_ & _ & H & _) ->. vm_compute in H. discriminate. Qed.

(** Distinct pages do not overlap. *)
Lemma page_disjoint v w k :
  page_ok v = true -> page_ok w = true -> v <> w -> 0 <= k < PGSIZE ->
  ~ (w <= v + k < w + PGSIZE).
Proof.
  rewrite !page_ok_spec. unfold PGSIZE. intros (Hv & _) (Hw & _) Hne Hk.
  Z.div_mod_to_equations. lia.
Qed.

Lemma page_ok_guard v :
  page_ok v = true ->
  negb (v mod PGSIZE =? 0) || (v <? kernel_end) || (PHYSTOP <=? V2P v) = false.
Proof.
  rewrite page_ok_spec. intros (-> & ? & ? & _).
  rewrite (proj2 (Z.ltb_ge v kernel_end)), (proj2 (Z.leb_gt PHYSTOP (V2P v))) by lia. done.
Qed.

Lemma kmem_section_mem i c s : k_mem (kmem_section i c s) = k_mem s.
Proof. unfold kmem_section. by case_match. Qed.
Lemma kmem_section_kmem i c s : k_kmem (kmem_section i c s) = k_kmem s.
Proof. unfold kmem_section. by case_match. Qed.

(** ** The free list is a stack of pages *)

Lemma chain_head mem p l :
  Forall (fun v => page_ok v = true) l -> chain mem p l -> 0 <= p < 4294967296.
Proof.
  destruct l as [|v l]; simpl; [lia|]. intros [Hv _]%Forall_cons [-> _].
  apply page_ok_spec in Hv. lia.
Qed.

(** [kfree] pushes the page, and writes nothing outside it. *)
Lemma kfree_pushes i c v s l :
  kmem_ready i c s -> KmemInv s l -> page_ok v = true -> v ∉ l ->
  exists s', kfree v s = Ok tt s' /\ KmemInv s' (v :: l) /\
    (forall a, ~ (v <= a < v + PGSIZE) -> k_mem s' a = k_mem s a) /\
    s' = (kmem_section i c s) <| k_mem := k_mem s' |> <| k_kmem ::= set km_freelist (fun _ => v) |>.
Proof.
  intros Hr [Hc Hnd Hp] Hv Hnin.
  rewrite (kfree_cases i c), page_ok_guard by done. eexists. split; [done|]. split; [split|split].
  - rsimpl. simpl. split; [done|]. rewrite load32_store32 by (by eapply chain_head).
    eapply chain_frame, Hc. intros w k Hw Hk.
    assert (page_ok w = true) by (rewrite Forall_forall in Hp; auto).
    assert (~ (v <= w + k < v + PGSIZE)).
    { apply page_disjoint; auto; [set_solver|unfold PGSIZE; lia]. }
    rewrite store32_other, memset_other; unfold PGSIZE in *; lia || done.
  - by constructor.
  - by constructor.
  - intros a Ha. rsimpl. rewrite store32_other, memset_other; unfold PGSIZE in *; lia || done.
  - unfold kmem_section. destruct (km_use_lock (k_kmem s)) eqn:E; unfold set; cbn; by rewrite E.
Qed.

(** [kalloc] pops, and returns 0 exactly when there is no free page. *)
(** The list depends on the memory and on the allocator's own state only. *)
Lemma KmemInv_same s s' l : k_mem s' = k_mem s -> k_kmem s' = k_kmem s -> KmemInv s l -> KmemInv s' l.
Proof. intros Em Ek [H1 H2 H3]. split; [by rewrite Em, Ek|done|done]. Qed.

Lemma kalloc_pops i c s l :
  kmem_ready i c s -> KmemInv s l ->
  match l with
  | [] => kalloc s = Ok 0 (kmem_section i c s)
  | v :: l' => exists s', kalloc s = Ok v s' /\ KmemInv s' l' /\ v <> 0 /\
      s' = (kmem_section i c s) <| k_kmem := k_kmem s' |> /\
      km_use_lock (k_kmem s') = km_use_lock (k_kmem s)
  end.
Proof.
  intros Hr [Hc Hnd Hp]. rewrite (kalloc_cases i c) by done. cbv zeta.
  destruct l as [|v l]; simpl in Hc.
  - by rewrite Hc.
  - destruct Hc as [Hfl Hc]. rewrite Hfl. apply Forall_cons in Hp as [Hv Hp].
    apply NoDup_cons in Hnd as [_ Hnd]. apply page_ok_nonzero in Hv as Hv0.
    rewrite (proj2 (Z.eqb_neq v 0)) by done.
    eexists. split; [done|]. split; [|by rsimpl]. split; rsimpl; simpl; auto.
    by rewrite kmem_section_mem.
Qed.

(** ** Clients *)

Lemma kmem_ready_section i c s s' :
  kmem_ready i c s -> km_use_lock (k_kmem s') = km_use_lock (k_kmem s) ->
  k_hw s' = k_hw (kmem_section i c s) -> exists c', kmem_ready i c' s'.
Proof.
  unfold kmem_ready, kmem_section. intros Hr Hu Hh. rewrite Hu, Hh.
  destruct (km_use_lock (k_kmem s)).
  - destruct (Hr eq_refl) as [HC Hf]. rsimpl. eauto with xv6.
  - by exists c.
Qed.

Definition client_inv (i : nat) (l0 : list Z) (x : kstate * list Z) : Prop :=
  exists l c, KmemInv (fst x) l /\ kmem_ready i c (fst x) /\ l ++ snd x ≡ₚ l0.

Lemma client_inv_alloc i l0 s s' A v :
  kalloc s = Ok v s' -> client_inv i l0 (s, A) ->
  client_inv i l0 (s', if v =? 0 then A else v :: A).
Proof.
  intros Ha (l & c & HI & Hr & Hperm). simpl in *.
  pose proof (kalloc_pops i c s l Hr HI) as Hk. destruct l as [|w l].
  - rewrite Ha in Hk. injection Hk as -> ->. simpl.
    destruct (kmem_ready_section i c s (kmem_section i c s) Hr) as [c' Hr'];
      [by rewrite kmem_section_kmem|done|]. exists [], c'. split; [|done].
    destruct HI as [H1 H2 H3]. split; auto. simpl. by rewrite kmem_section_kmem.
  - destruct Hk as (s1 & Hk & HI' & Hv0 & Hs1 & Hu). rewrite Ha in Hk. injection Hk as -> ->.
    destruct (kmem_ready_section i c s s1 Hr) as [c' Hr']; [done|by rewrite Hs1|].
    rewrite (proj2 (Z.eqb_neq w 0)) by done. exists l, c'. simpl.
    split_and!; [done..|]. rewrite <- Hperm. simpl. by rewrite Permutation_middle.
Qed.

Lemma client_inv_free i l0 s s' A1 v A2 :
  Forall (fun v => page_ok v = true) l0 -> NoDup l0 ->
  kfree v s = Ok tt s' -> client_inv i l0 (s, A1 ++ v :: A2) -> client_inv i l0 (s', A1 ++ A2).
Proof.
  intros Hok Hnd Hfr (l & c & HI & Hr & Hperm). simpl in *.
  assert (Hp : v :: l ++ A1 ++ A2 ≡ₚ l0).
  { rewrite <- Hperm. rewrite (app_assoc l A1), (app_assoc l A1). by rewrite Permutation_middle. }
  rewrite <- Hp in Hnd, Hok. apply NoDup_cons in Hnd as [Hnin _].
  apply Forall_cons in Hok as [Hv _].
  destruct (kfree_pushes i c v s l Hr HI Hv) as (s1 & Hk & HI' & _ & Hs1); [set_solver|].
  rewrite Hfr in Hk. injection Hk as ->.
  destruct (kmem_ready_section i c s s1 Hr) as [c' Hr']; [rewrite Hs1; rsimpl..|].
  - by rewrite kmem_section_kmem.
  - done.
  - by exists (v :: l), c'.
Qed.

Lemma client_inv_write i l0 s A v a b :
  Forall (fun v => page_ok v = true) l0 -> NoDup l0 ->
  v ∈ A -> v <= a < v + PGSIZE -> client_inv i l0 (s, A) ->
  client_inv i l0 (s <| k_mem ::= fun m x => if x =? a then b else m x |>, A).
Proof.
  intros Hok Hnd Hv Ha (l & c & [H1 H2 H3] & Hr & Hperm). simpl in *.
  exists l, c. split_and!; [|done..]. split; auto. simpl. rsimpl.
  eapply chain_frame, H1. intros w k Hw Hk. rewrite <- Hperm in Hnd, Hok.
  assert (v <> w) as Hne. { apply NoDup_app in Hnd as (_ & Hd & _). intros ->. by eapply Hd. }
  rewrite Forall_forall in Hok.
  assert (~ (v <= w + k < v + PGSIZE)).
  { apply page_disjoint; [apply Hok; set_solver..|done|unfold PGSIZE; lia]. }
  rewrite (proj2 (Z.eqb_neq _ _)) by lia. done.
Qed.

Lemma client_inv_steps i l0 x y :
  Forall (fun v => page_ok v = true) l0 -> NoDup l0 ->
  rtc client_step x y -> client_inv i l0 x -> client_inv i l0 y.
Proof.
  intros Hok Hnd Hr. induction Hr as [|x y z [] _ IH]; [done|..]; intros HI; apply IH.
  - apply (client_inv_alloc i l0 _ _ _ _ H) in HI.
    by rewrite (proj2 (Z.eqb_neq v 0)) in HI by done.
  - by apply (client_inv_alloc i l0 _ _ _ _ H) in HI.
  - by eapply client_inv_free.
  - by eapply client_inv_write.
Qed.

(** ** Initialisation *)

Lemma PGROUNDUP_spec sz :
  0 <= sz -> sz + PGSIZE - 1 < 4294967296 ->
  PGROUNDUP sz mod PGSIZE = 0 /\ sz <= PGROUNDUP sz < sz + PGSIZE.
Proof.
  intros H0 H1. unfold PGROUNDUP. rewrite u32_id by (unfold PGSIZE in *; lia).
  change (PGSIZE - 1) with (Z.ones 12). fold (Z.ldiff (sz + PGSIZE - 1) (Z.ones 12)).
  rewrite <- Z.ldiff_land, Z.ldiff_ones_r, Z.shiftl_mul_pow2, Z.shiftr_div_pow2 by lia.
  change (2 ^ 12) with PGSIZE. unfold PGSIZE. split.
  - apply Z.mod_mul. lia.
  - Z.div_mod_to_equations. lia.
Qed.

Lemma elem_of_pages n p v :
  v ∈ pages n p <-> exists k, (k < n)%nat /\ v = p + Z.of_nat k * PGSIZE.
Proof.
  revert p. induction n as [|n IH]; intros p; simpl.
  - split; [intros []%not_elem_of_nil|intros (k & ? & _); lia].
  - rewrite elem_of_cons, IH. split.
    + intros [->|(k & ? & ->)]; [exists O|exists (S k)]; unfold PGSIZE; lia.
    + intros ([|k] & ? & ->); [left|right; exists k]; unfold PGSIZE; lia.
Qed.

Lemma freerange_loop_ok i n p vend s l c :
  kmem_ready i c s -> KmemInv s l ->
  Forall (fun v => page_ok v = true) (pages n p) ->
  (forall v, v ∈ pages n p -> v ∉ l) ->
  0 <= p -> p + Z.of_nat n * PGSIZE <= vend < p + Z.of_nat (S n) * PGSIZE ->
  vend < 4294967296 - PGSIZE ->
  exists s', freerange_loop (S n) p vend s = Ok tt s' /\ KmemInv s' (rev (pages n p) ++ l).
Proof.
  revert p s l c. induction n as [|n IH]; intros p s l c Hr HI Hok Hnin Hp Hv Hv';
    unfold PGSIZE in Hv, Hv'.
  - exists s. simpl. split; [|done]. rewrite u32_id by (unfold PGSIZE; lia).
    rewrite (proj2 (Z.leb_gt _ _)) by (unfold PGSIZE; lia). done.
  - change (freerange_loop (S (S n)) p vend) with
      (if u32 (p + PGSIZE) <=? vend then kfree p;; freerange_loop (S n) (u32 (p + PGSIZE)) vend
       else ret tt).
    rewrite u32_id by (unfold PGSIZE; lia). rewrite (proj2 (Z.leb_le _ _)) by (unfold PGSIZE; lia).
    simpl in Hok. apply Forall_cons in Hok as [Hpok Hok].
    destruct (kfree_pushes i c p s l Hr HI Hpok) as (s1 & Hk & HI1 & _ & Hs1);
      [apply Hnin; set_solver|]. mstep.
    destruct (kmem_ready_section i c s s1 Hr) as [c' Hr'];
      [rewrite Hs1; rsimpl; by rewrite ?kmem_section_kmem..|].
    destruct (IH (p + PGSIZE) s1 (p :: l) c') as (s2 & Hk2 & HI2); unfold PGSIZE in *; try lia; auto.
    { intros v Hv1. rewrite not_elem_of_cons. split; [|apply Hnin; simpl; set_solver].
      apply elem_of_pages in Hv1 as (k & ? & ->). unfold PGSIZE. lia. }
    exists s2. split; [done|]. simpl. by rewrite <- app_assoc.
Qed.

Lemma page_in_range v vstart vend :
  KERNBASE <= vstart -> kernel_end <= vstart -> vend <= KERNBASE + PHYSTOP ->
  v mod PGSIZE = 0 -> vstart <= v -> v + PGSIZE <= vend -> page_ok v = true.
Proof.
  unfold KERNBASE, PHYSTOP, PGSIZE. intros. apply page_ok_spec.
  unfold V2P, KERNBASE, PHYSTOP, PGSIZE. rewrite u32_id; lia.
Qed.

End Kalloc.

(** ** Properties *)

Definition kernel_end_example : Z := 2148597760.  (* 0x80110000 *)
Definition page_example : Z := 2151677952.        (* 0x80400000 *)

(** A boot state with one free page. *)
Definition one_page : kstate :=
  bss <| k_kmem := mkKmem false page_example |>.

Lemma one_page_inv : KmemInv kernel_end_example one_page [page_example].
Proof.
  split; [by split|repeat constructor; set_solver|by repeat constructor].
Qed.

(** C18. The allocator never hands a page out twice and never loses one: whatever clients
    allocate, free and write into the pages they own, the free list together with the
    pages on loan is a permutation of the pages it started with, and freeing any page
    on loan succeeds. *)
Theorem pages_conserved kernel_end i c s0 l0 s A :
  kmem_ready i c s0 -> KmemInv kernel_end s0 l0 ->
  rtc (client_step kernel_end) (s0, []) (s, A) ->
  NoDup A /\
  (exists l, KmemInv kernel_end s l /\ l ++ A ≡ₚ l0) /\
  (forall v, v ∈ A -> exists s', kfree kernel_end v s = Ok tt s').
Proof.
  intros Hr HI Hsteps. destruct HI as [Hc Hnd Hp] eqn:E. clear E.
  destruct (client_inv_steps kernel_end i l0 (s0, []) (s, A) Hp Hnd Hsteps) as (l & c' & HI' & Hr' & Hperm).
  { exists l0, c. rewrite app_nil_r. done. }
  simpl in *. assert (Hnd' := Hnd). rewrite <- Hperm in Hnd'. apply NoDup_app in Hnd' as (_ & Hd & HA).
  split_and!; [done|by exists l|]. intros v Hv.
  destruct (kfree_pushes kernel_end i c' v s l) as (s' & ? & _); eauto.
  - rewrite <- Hperm in Hp. rewrite Forall_forall in Hp. apply Hp. set_solver.
  - intros Hvl. by apply (Hd v Hvl).
Qed.

Lemma pages_conserved_witness :
  kalloc one_page = Ok page_example (one_page <| k_kmem := mkKmem false 0 |>) /\
  NoDup [page_example] /\
  exists s', kfree kernel_end_example page_example (one_page <| k_kmem := mkKmem false 0 |>) = Ok tt s'.
Proof.
  split; [reflexivity|].
  destruct (pages_conserved kernel_end_example 0 (mkCpu 0 0 false None) one_page [page_example]
              (one_page <| k_kmem := mkKmem false 0 |>) [page_example]) as (H1 & _ & H2).
  - intros H. discriminate H.
  - exact one_page_inv.
  - apply rtc_once, cl_alloc; [reflexivity|discriminate].
  - split; [exact H1|]. apply H2, list_elem_of_singleton. reflexivity.
Defined.

(** [kfree] accepts exactly the page-aligned addresses between the end of the kernel
    and the top of physical memory; anything else panics. *)
Theorem kfree_panics_iff kernel_end i c v s :
  kmem_ready i c s -> 0 <= v < 4294967296 ->
  (kfree kernel_end v s = Panic "kfree" <-> page_ok kernel_end v = false) /\
  (page_ok kernel_end v = true -> exists s', kfree kernel_end v s = Ok tt s').
Proof.
  intros Hr Hv. rewrite (kfree_cases kernel_end i c v s Hr).
  assert (page_ok kernel_end v =
    negb (negb (v mod PGSIZE =? 0) || (v <? kernel_end) || (PHYSTOP <=? V2P v))) as ->.
  { unfold page_ok. rewrite (proj2 (Z.leb_le 0 v)), (proj2 (Z.ltb_lt v 4294967296)) by lia.
    rewrite !negb_orb, !andb_true_r, negb_involutive.
    rewrite <- (Z.leb_antisym v kernel_end), <- (Z.ltb_antisym PHYSTOP (V2P v)). done. }
  destruct (_ || _); simpl; naive_solver.
Qed.

Lemma kfree_panics_iff_witness :
  kfree kernel_end_example 5 bss = Panic "kfree" /\
  exists s', kfree kernel_end_example page_example bss = Ok tt s'.
Proof.
  assert (Hr : kmem_ready 0 (mkCpu 0 0 false None) bss) by (intros H; discriminate H).
  assert (H5 : 0 <= 5 < 4294967296) by lia.
  assert (Hp : 0 <= page_example < 4294967296) by (split; vm_compute; congruence).
  split.
  - destruct (kfree_panics_iff kernel_end_example 0 (mkCpu 0 0 false None) 5 bss Hr H5) as [[_ H] _].
    apply H. vm_compute. reflexivity.
  - destruct (kfree_panics_iff kernel_end_example 0 (mkCpu 0 0 false None) page_example bss Hr Hp)
      as [_ H].
    apply H. vm_compute. reflexivity.
Defined.

(** [freerange] puts every whole page of the range on the free list, once, and
    terminates: its loop runs once per page. *)
Theorem freerange_frees kernel_end i c s l vstart vend :
  kmem_ready i c s -> KmemInv kernel_end s l ->
  KERNBASE <= vstart -> kernel_end <= vstart -> vstart <= vend -> PGROUNDUP vstart <= vend ->
  vend <= KERNBASE + PHYSTOP ->
  (forall v, v ∈ l -> v < vstart \/ vend <= v) ->
  let n := Z.to_nat ((vend - PGROUNDUP vstart) / PGSIZE) in
  exists s', freerange kernel_end vstart vend s = Ok tt s' /\
    KmemInv kernel_end s' (rev (pages n (PGROUNDUP vstart)) ++ l).
Proof.
  intros Hr HI Hk He Hse Hp Hv Hl n. unfold KERNBASE, PHYSTOP in *.
  destruct (PGROUNDUP_spec vstart) as [Hal Hup]; [unfold PGSIZE; lia..|].
  assert (Hn : PGROUNDUP vstart + Z.of_nat n * PGSIZE <= vend <
               PGROUNDUP vstart + Z.of_nat (S n) * PGSIZE).
  { unfold n, PGSIZE in *. rewrite Nat2Z.inj_succ, Z2Nat.id by (Z.div_mod_to_equations; lia).
    Z.div_mod_to_equations. lia. }
  unfold freerange. fold n. eapply (freerange_loop_ok kernel_end i n); eauto; unfold PGSIZE in *; try lia.
  - rewrite Forall_forall. intros v (k & ? & ->)%elem_of_pages. unfold PGSIZE.
    apply (page_in_range kernel_end _ vstart vend); unfold KERNBASE, PHYSTOP, PGSIZE; try lia.
    rewrite Z.mod_add by lia. done.
  - intros v (k & ? & ->)%elem_of_pages Hin. unfold PGSIZE in Hin. apply Hl in Hin. lia.
Qed.

Lemma freerange_frees_witness :
  exists s', freerange kernel_end_example (page_example + 1) (page_example + 3 * PGSIZE) bss = Ok tt s' /\
    KmemInv kernel_end_example s' [page_example + 2 * PGSIZE; page_example + PGSIZE].
Proof.
  assert (E : rev (pages (Z.to_nat ((page_example + 3 * PGSIZE - PGROUNDUP (page_example + 1)) / PGSIZE))
                 (PGROUNDUP (page_example + 1))) ++ [] =
              [page_example + 2 * PGSIZE; page_example + PGSIZE]) by (vm_compute; reflexivity).
  destruct (freerange_frees kernel_end_example 0 (mkCpu 0 0 false None) bss []
           (page_example + 1) (page_example + 3 * PGSIZE)) as (s' & H1 & H2).
  - intros H; discriminate H.
  - split; [reflexivity|constructor|constructor].
  - vm_compute; discriminate.
  - vm_compute; discriminate.
  - vm_compute; discriminate.
  - vm_compute; discriminate.
  - vm_compute; discriminate.
  - intros v H. inversion H.
  - exists s'. split; [exact H1|]. rewrite E in H2. exact H2.
Defined.
