(* ===== verification/Proc.v ===== *)
(** * Processes: the process table, sleep and wakeup (proc.c)

    This file models the part of proc.c that manages the process table and the
    switch between processes: [allocproc], [growproc], [wait], [sched], [yield],
    [sleep], [wakeup], [kill]; what also uses files is in Life.v.  A [struct proc *] is
    the index of the process in [ptable.proc].  The functions of vm.c are a parameter
    ([VM]): that file is not among the sources. *)

From stdpp Require Import gmap.
From Stdlib Require Import SpecFloat.
From S2P Require Import Prelude Outcome Kernel Spinlock Kalloc.

(** The address-space operations of vm.c that proc.c calls. *)
Class VM : Type := {
  allocuvm : Z -> Z -> Z -> K Z;
  deallocuvm : Z -> Z -> Z -> K Z;
  copyuvm : Z -> Z -> K Z;
  freevm : Z -> K unit;
  switchuvm : nat -> K unit;
  switchkvm : K unit }.

(** ** Access to the table *)

Definition proc_get (i : nat) : K proc := ps ← gets k_procs; deref (ps !! i).
Definition proc_upd (i : nat) (f : proc -> proc) : K unit :=
  modify (fun s => s <| k_procs ::= alter f i |>).

(** [1.0f] *)
Definition float_one : spec_float := S754_finite false 8388608 (-23).

(** sizeof(struct trapframe) and sizeof(struct context) on the 32-bit target. *)
Definition sizeof_trapframe : Z := 76.
Definition sizeof_context : Z := 20.

Section Proc.
Context (kernel_end : Z) {vm : VM}.

Definition is_unused (p : proc) : bool := bool_decide (p_state p = UNUSED).

Definition init_sched : schedStat :=
  zero_sched <| queue_id := UNSET |> <| priority := BJF_PRIORITY_DEF |>
    <| priority_ratio := float_one |> <| arrival_time_ratio := float_one |>
    <| executed_cycle_ratio := float_one |>.

Definition allocproc : K (option nat) :=
  acquire LPtable;;
  ps ← gets k_procs;
  match scan is_unused ps with
  | None => release LPtable;; ret None
  | Some i =>
    proc_upd i (fun p => p <| p_state := EMBRYO |>);;
    pid ← gets k_nextpid;
    proc_upd i (fun p => p <| p_pid := pid |>);;
    modify (fun s => s <| k_nextpid := i32 (pid + 1) |>);;
    release LPtable;;
    (* Allocate kernel stack. *)
    kstack ← kalloc;
    proc_upd i (fun p => p <| p_kstack := kstack |>);;
    if kstack =? 0 then proc_upd i (fun p => p <| p_state := UNUSED |>);; ret None
    else
      let sp := kstack + KSTACKSIZE in
      (* Leave room for trap frame. *)
      let sp := sp - sizeof_trapframe in
      proc_upd i (fun p => p <| p_tf := sp |>);;
      (* Set up new context to start executing at forkret, which returns to trapret. *)
      let sp := sp - 4 in
      proc_upd i (fun p => p <| p_retaddr := KTrapret |>);;
      let sp := sp - sizeof_context in
      proc_upd i (fun p => p <| p_context := sp |> <| p_ctx := mkContext 0 0 0 0 KForkret |>);;
      proc_upd i (fun p => p <| p_sched := init_sched |>);;
      ret (Some i)
  end.

(** [curproc->sz] is a [uint]; [n] an [int]. *)
Definition growproc (n : Z) : K Z :=
  cur ← myproc;
  cur ← deref cur;
  p ← proc_get cur;
  let sz := p_sz p in
  r ← (if 0 <? n then
         sz ← allocuvm (p_pgdir p) sz (u32 (sz + n));
         ret (if sz =? 0 then None else Some sz)
       else if n <? 0 then
         sz ← deallocuvm (p_pgdir p) sz (u32 (sz + n));
         ret (if sz =? 0 then None else Some sz)
       else ret (Some sz));
  match r with
  | None => ret (-1)
  | Some sz =>
    proc_upd cur (fun p => p <| p_sz := sz |>);;
    switchuvm cur;;
    ret 0
  end.

(** ** Switching *)

Definition sched : K unit :=
  p ← myproc;
  h ← holding LPtable;
  if negb h then panic "sched ptable.lock" else
  c ← hwop HW.mycpu_get;
  if negb (c_ncli c =? 1) then panic "sched locks" else
  p ← deref p;
  pr ← proc_get p;
  if bool_decide (p_state pr = RUNNING) then panic "sched running" else
  fl ← gets (fun s => hw_if (k_hw s));
  if (fl : bool) then panic "sched interruptible" else
  c ← hwop HW.mycpu_get;
  let intena := c_intena c in
  swtch;;
  hwop (HW.mycpu_upd (fun c => c <| c_intena := intena |>)).

Definition yield : K unit :=
  acquire LPtable;;
  p ← myproc;
  p ← deref p;
  proc_upd p (fun p => p <| p_state := RUNNABLE |>);;
  sched;;
  release LPtable.

Definition sleep (ch : chan) (lk : lockref) : K unit :=
  p ← myproc;
  match p with
  | None => panic "sleep"
  | Some p =>
    (if bool_decide (lk = LPtable) then ret tt
     else acquire LPtable;; release lk);;
    proc_upd p (fun p => p <| p_chan := Some ch |>);;
    proc_upd p (fun p => p <| p_state := SLEEPING |>);;
    sched;;
    proc_upd p (fun p => p <| p_chan := None |>);;
    (if bool_decide (lk = LPtable) then ret tt
     else release LPtable;; acquire lk)
  end.

(** ** Waking *)

Definition wake_one (ch : option chan) (p : proc) : proc :=
  if bool_decide (p_state p = SLEEPING) && bool_decide (p_chan p = ch)
  then p <| p_state := RUNNABLE |> else p.

Definition wakeup1 (ch : option chan) : K unit :=
  modify (fun s => s <| k_procs ::= map (wake_one ch) |>).

Definition wakeup (ch : chan) : K unit :=
  acquire LPtable;;
  wakeup1 (Some ch);;
  release LPtable.

Definition wakeupproc (p : option nat) : K unit :=
  acquire LPtable;;
  p ← deref p;
  proc_upd p (fun p => p <| p_state := RUNNABLE |>);;
  release LPtable.

Definition has_pid (pid : Z) (p : proc) : bool := p_pid p =? pid.

Definition kill (pid : Z) : K Z :=
  acquire LPtable;;
  ps ← gets k_procs;
  match scan (has_pid pid) ps with
  | Some i =>
    proc_upd i (fun p => p <| p_killed := 1 |>);;
    p ← proc_get i;
    when (bool_decide (p_state p = SLEEPING))
      (proc_upd i (fun p => p <| p_state := RUNNABLE |>));;
    release LPtable;;
    ret 0
  | None => release LPtable;; ret (-1)
  end.

(** ** Waiting for a child *)

Definition is_child (cur : nat) (p : proc) : bool := bool_decide (p_parent p = Some cur).
Definition is_zombie_child (cur : nat) (p : proc) : bool :=
  is_child cur p && bool_decide (p_state p = ZOMBIE).

(** Free the resources of the zombie child [i] and return its pid. *)
Definition reap (i : nat) : K Z :=
  p ← proc_get i;
  let pid := p_pid p in
  kfree kernel_end (p_kstack p);;
  proc_upd i (fun p => p <| p_kstack := 0 |>);;
  freevm (p_pgdir p);;
  proc_upd i (fun p => p <| p_pid := 0 |> <| p_parent := None |>
    <| p_name ::= <[0%nat := 0]> |> <| p_killed := 0 |> <| p_state := UNUSED |>);;
  release LPtable;;
  ret pid.

(** One turn of the loop; [fuel] bounds the number of times the process sleeps. *)
Fixpoint wait_loop (fuel : nat) (cur : nat) : K Z :=
  ps ← gets k_procs;
  match scan (is_zombie_child cur) ps with
  | Some i => reap i
  | None =>
    p ← proc_get cur;
    if negb (existsb (is_child cur) ps) || negb (p_killed p =? 0)
    then release LPtable;; ret (-1)
    else
      match fuel with
      | O => spin
      | S fuel => sleep (CProc cur) LPtable;; wait_loop fuel cur
      end
  end.

Definition wait (fuel : nat) : K Z :=
  cur ← myproc;
  acquire LPtable;;
  cur ← deref cur;
  wait_loop fuel cur.

(** ** What the operations do to the table *)

(** The entry [allocproc] leaves in the slot it finds. *)
Definition embryo (pid kstack : Z) (p : proc) : proc :=
  p <| p_state := EMBRYO |> <| p_pid := pid |> <| p_kstack := kstack |>
    <| p_tf := kstack + KSTACKSIZE - sizeof_trapframe |>
    <| p_retaddr := KTrapret |>
    <| p_context := kstack + KSTACKSIZE - sizeof_trapframe - 4 - sizeof_context |>
    <| p_ctx := mkContext 0 0 0 0 KForkret |>
    <| p_sched := init_sched |>.

(** ... and the one it leaves when there is no memory for the stack. *)
Definition stillborn (pid : Z) (p : proc) : proc :=
  p <| p_state := UNUSED |> <| p_pid := pid |> <| p_kstack := 0 |>.

Lemma alter_insert (ps : list proc) i p f :
  ps !! i = Some p -> alter f i ps = <[i := f p]> ps.
Proof.
  intros Hi. apply list_eq. intros j. destruct (decide (i = j)) as [->|Hne].
  - rewrite list_lookup_alter_eq, Hi, list_lookup_insert_eq; [done|by eapply lookup_lt_Some].
  - by rewrite list_lookup_alter_ne, list_lookup_insert_ne.
Qed.

Lemma alter_twice (ps : list proc) i f g :
  alter g i (alter f i ps) = alter (fun p => g (f p)) i ps.
Proof.
  apply list_eq. intros j. destruct (decide (i = j)) as [->|Hne].
  - rewrite !list_lookup_alter_eq. by destruct (ps !! j).
  - by rewrite !list_lookup_alter_ne.
Qed.

Lemma proc_get_ok i p s : k_procs s !! i = Some p -> proc_get i s = Ok p s.
Proof. intros H. unfold proc_get. mstep. by rewrite H. Qed.

Lemma kmem_section_touched i c h s :
  k_hw s = touched i c h -> kmem_section i (touched_cpu (hw_if h) c) s = s.
Proof.
  intros H. unfold kmem_section. case_match; [|done].
  destruct s; unfold set; simpl in *. by rewrite H, touched_twice.
Qed.

(** No slot: nothing changes. *)
Lemma allocproc_full i c s :
  CpuOk i c (k_hw s) -> free LPtable (k_hw s) ->
  scan is_unused (k_procs s) = None ->
  allocproc s = Ok None (s <| k_hw ::= touched i c |>).
Proof.
  intros HC Hf Hs. unfold allocproc. mstep by (apply (kacquire_ok i c); assumption). mstep.
  rsimpl. rewrite Hs. by mstep by (apply (krelease_ok i c LPtable (k_hw s)); [assumption..|done]).
Qed.

(** A slot and a page: the slot becomes an embryo with the next pid. *)
Lemma allocproc_alloc i c s j p v l :
  CpuOk i c (k_hw s) -> free LPtable (k_hw s) -> free LKmem (k_hw s) ->
  scan is_unused (k_procs s) = Some j -> k_procs s !! j = Some p ->
  KmemInv kernel_end s (v :: l) ->
  exists km, KmemInv kernel_end (s <| k_kmem := km |>) l /\
  allocproc s = Ok (Some j) (s <| k_hw ::= touched i c |>
      <| k_procs := <[j := embryo (k_nextpid s) v p]> (k_procs s) |>
      <| k_nextpid := i32 (k_nextpid s + 1) |> <| k_kmem := km |>).
Proof.
  intros HC Hf Hfk Hs Hp HI.
  set (s1 := s <| k_hw := touched i c (k_hw s) |>
     <| k_procs := alter (fun p => p <| p_state := EMBRYO |> <| p_pid := k_nextpid s |>) j (k_procs s) |>
     <| k_nextpid := i32 (k_nextpid s + 1) |>).
  assert (Hr : kmem_ready i (touched_cpu (hw_if (k_hw s)) c) s1).
  { intros _. split; [by apply CpuOk_touched|done]. }
  pose proof (kalloc_pops kernel_end i _ s1 (v :: l) Hr) as Hk.
  destruct Hk as (s2 & Hk & HI2 & Hv0 & Hs2 & Hu).
  { destruct HI as [H1 H2 H3]. by split. }
  rewrite (kmem_section_touched i c (k_hw s)) in Hs2 by done.
  exists (k_kmem s2). split.
  { destruct HI2 as [H1 H2 H3]. split; auto. rewrite Hs2 in H1. exact H1. }
  unfold allocproc. mstep by (apply (kacquire_ok i c); assumption). mstep.
  rsimpl. rewrite Hs. unfold proc_upd. msteps.
  mstep by (apply (krelease_ok i c LPtable (k_hw s)); [assumption..|done]).
  erewrite bind_ok. 2: {
    rewrite <- Hk. f_equal. unfold s1. kstate_eq. by rewrite alter_twice. }
  cbv beta. msteps. rewrite (proj2 (Z.eqb_neq v 0)) by done. msteps.
  unfold ret. do 2 f_equal. rewrite Hs2. unfold s1. kstate_eq.
  rewrite !alter_twice. by rewrite (alter_insert _ _ _ _ Hp).
Qed.

(** No page for the stack: the slot is unused again, with a pid already spent. *)
Lemma allocproc_nomem i c s j p :
  CpuOk i c (k_hw s) -> free LPtable (k_hw s) -> free LKmem (k_hw s) ->
  scan is_unused (k_procs s) = Some j -> k_procs s !! j = Some p ->
  KmemInv kernel_end s [] ->
  allocproc s = Ok None (s <| k_hw ::= touched i c |>
      <| k_procs := <[j := stillborn (k_nextpid s) p]> (k_procs s) |>
      <| k_nextpid := i32 (k_nextpid s + 1) |>).
Proof.
  intros HC Hf Hfk Hs Hp HI.
  set (s1 := s <| k_hw := touched i c (k_hw s) |>
     <| k_procs := alter (fun p => p <| p_state := EMBRYO |> <| p_pid := k_nextpid s |>) j (k_procs s) |>
     <| k_nextpid := i32 (k_nextpid s + 1) |>).
  assert (Hr : kmem_ready i (touched_cpu (hw_if (k_hw s)) c) s1).
  { intros _. split; [by apply CpuOk_touched|done]. }
  assert (Hk : kalloc s1 = Ok 0 s1).
  { pose proof (kalloc_pops kernel_end i _ s1 [] Hr) as Hk.
    rewrite (kmem_section_touched i c (k_hw s)) in Hk by done. apply Hk.
    destruct HI as [H1 H2 H3]. by split. }
  unfold allocproc. mstep by (apply (kacquire_ok i c); assumption). mstep.
  rsimpl. rewrite Hs. unfold proc_upd. msteps.
  mstep by (apply (krelease_ok i c LPtable (k_hw s)); [assumption..|done]).
  erewrite bind_ok. 2: { rewrite <- Hk. f_equal. unfold s1. kstate_eq. by rewrite alter_twice. }
  cbv beta. msteps. simpl. msteps. unfold ret. do 2 f_equal. unfold s1. kstate_eq.
  rewrite !alter_twice. by rewrite (alter_insert _ _ _ _ Hp).
Qed.

(** ** Wakeup and kill *)

Lemma wake_one_idem ch p : wake_one ch (wake_one ch p) = wake_one ch p.
Proof.
  unfold wake_one at 2 3. destruct (bool_decide (p_state p = SLEEPING) && _) eqn:E; [done|].
  unfold wake_one. by rewrite E.
Qed.

(** Nobody sleeps on the channel. *)
Definition nobody_asleep (ch : option chan) (ps : list proc) : Prop :=
  Forall (fun x => ~ (p_state x = SLEEPING /\ p_chan x = ch)) ps.

Lemma wake_all ch ps : nobody_asleep ch (map (wake_one ch) ps).
Proof.
  apply Forall_fmap, Forall_true. intros q [H1 H2]. unfold compose, wake_one in *.
  destruct (_ && _) eqn:E; [done|]. by rewrite !bool_decide_eq_true_2 in E by done.
Qed.

Lemma wakeup_ok i c ch s :
  CpuOk i c (k_hw s) -> free LPtable (k_hw s) ->
  wakeup ch s = Ok tt (s <| k_hw ::= touched i c |>
                         <| k_procs ::= map (wake_one (Some ch)) |>).
Proof.
  intros HC Hf. unfold wakeup, wakeup1. mstep by (apply (kacquire_ok i c); assumption). mstep.
  by rewrite (krelease_ok i c LPtable (k_hw s)).
Qed.

(** What [kill] does to the process it finds. *)
Definition kill_one (p : proc) : proc :=
  let p := p <| p_killed := 1 |> in
  if bool_decide (p_state p = SLEEPING) then p <| p_state := RUNNABLE |> else p.

Lemma kill_cases i c pid s :
  CpuOk i c (k_hw s) -> free LPtable (k_hw s) ->
  kill pid s =
    match scan (has_pid pid) (k_procs s) with
    | Some j => Ok 0 (s <| k_hw ::= touched i c |> <| k_procs ::= alter kill_one j |>)
    | None => Ok (-1) (s <| k_hw ::= touched i c |>)
    end.
Proof.
  intros HC Hf. unfold kill. mstep by (apply (kacquire_ok i c); assumption). mstep. rsimpl.
  destruct (scan _ _) as [j|] eqn:E.
  - apply scan_Some in E as [(p & Hj & _) _]. unfold proc_upd. mstep.
    mstep by (apply (proc_get_ok j (p <| p_killed := 1 |>)); rsimpl;
              by rewrite list_lookup_alter_eq, Hj).
    destruct (bool_decide (p_state (p <| p_killed := 1 |>) = SLEEPING)) eqn:Es; cbn [when]; msteps;
      mstep by (apply (krelease_ok i c LPtable (k_hw s)); [assumption..|done]);
      unfold ret; do 2 f_equal; kstate_eq; fold (k_procs s);
      rewrite ?alter_twice, !(alter_insert _ _ _ _ Hj); unfold kill_one; cbv zeta;
      by rewrite Es.
  - by mstep by (apply (krelease_ok i c LPtable (k_hw s)); [assumption..|done]).
Qed.

(** ** Switching *)

Lemma set_hw_id s h : k_hw s = h -> s <| k_hw := h |> = s.
Proof. intros <-. by destruct s. Qed.

Lemma touch_id i c s : touched i c (k_hw s) = k_hw s -> s <| k_hw ::= touched i c |> = s.
Proof. intros H. destruct s. unfold set. simpl in *. by rewrite H. Qed.

Lemma pushed_cpu_0 fl c : c_ncli c = 0 -> c_ncli (pushed_cpu fl c) = 1 /\ c_intena (pushed_cpu fl c) = fl.
Proof. intros H. unfold pushed_cpu. rewrite H. simpl. rsimpl. by rewrite H. Qed.

Lemma pushed_cpu_proc fl c : c_proc (pushed_cpu fl c) = c_proc c.
Proof. unfold pushed_cpu. by case_match. Qed.

(** With only [ptable.lock] held and the state changed, [sched] passes its checks and
    switches; the code after the switch restores [intena]. *)
Lemma sched_switches i c h p pr s :
  CpuOk i c h -> c_ncli c = 0 -> k_hw s = acquired i c LPtable h ->
  c_proc c = Some p -> k_procs s !! p = Some pr -> p_state pr <> RUNNING ->
  sched s = Switch s (hwop (HW.mycpu_upd (fun c => c <| c_intena := hw_if h |>))).
Proof.
  intros HC H0 Hs Hp Hpr Hst. pose proof (CpuOk_acquired i c LPtable h HC) as H1.
  destruct (pushed_cpu_0 (hw_if h) c H0) as [Hn Hi].
  assert (Ht : touched i (pushed_cpu (hw_if h) c) (k_hw s) = k_hw s).
  { rewrite Hs. apply touched_nested; [done|lia]. }
  assert (Hget : hwop HW.mycpu_get s = Ok (pushed_cpu (hw_if h) c) s).
  { rewrite <- (set_hw_id s (k_hw s)) at 2 by done. apply hwop_ok. rewrite Hs.
    by apply (mycpu_get_ok _ _ _ H1). }
  unfold sched.
  mstep by (apply (kmyproc_ok i (pushed_cpu (hw_if h) c)); by rewrite Hs).
  rewrite pushed_cpu_proc, Hp, (touch_id i _ s Ht).
  assert (Hhold : holding LPtable s = Ok true s).
  { rewrite <- (set_hw_id s (k_hw s)) at 2 by done. apply hwop_ok.
    rewrite (holding_ok i (pushed_cpu (hw_if h) c)) by (by rewrite Hs). rewrite Ht.
    by rewrite Hs, holds_acquired. }
  mstep. cbn [negb]. mstep. rewrite Hn. simpl. cbn [deref]. mstep.
  mstep by (by apply (proc_get_ok p pr)).
  rewrite bool_decide_eq_false_2 by done. mstep. rewrite Hs. simpl. mstep. rewrite bind_swtch.
  by rewrite Hi.
Qed.

(** The state in which a sleeper leaves the processor. *)
Definition asleep (ch : chan) (p : proc) : proc :=
  p <| p_chan := Some ch |> <| p_state := SLEEPING |>.

(** The hardware state when the scheduler resumes a thread that switched away: only
    [ptable.lock] is held, by the processor the thread now runs on. *)
Definition resumed (i : nat) (c : cpu) (h : hw) (s : kstate) : Prop :=
  CpuOk i c h /\ c_ncli c = 0 /\ free LPtable h /\ k_hw s = acquired i c LPtable h.

(** Restoring [intena] amounts to having taken [ptable.lock] with the interrupt flag
    the thread had. *)
Lemma restore_intena i c h s fl :
  resumed i c h s ->
  hwop (HW.mycpu_upd (fun c => c <| c_intena := fl |>)) s =
    Ok tt (s <| k_hw := acquired i c LPtable (h <| hw_if := fl |>) |>).
Proof.
  intros (HC & H0 & Hf & Hs). apply hwop_ok. rewrite Hs.
  rewrite (mycpu_upd_ok i _ _ (CpuOk_acquired i c LPtable h HC)) by done. do 2 f_equal.
  unfold acquired, pushed, pushed_cpu. rewrite H0. simpl. destruct h, c. unfold set. simpl.
  by rewrite list_insert_insert_eq.
Qed.

Lemma resumed_if i c h s fl :
  resumed i c h s ->
  CpuOk i c (h <| hw_if := fl |>) /\ free LPtable (h <| hw_if := fl |>).
Proof.
  intros (HC & H0 & Hf & Hs). split; [|done]. apply CpuOk_if; [done|lia].
Qed.

(** The hardware state in which [sleep] returns, holding [lk] again. *)
Definition woken_hw (i : nat) (c : cpu) (lk : lockref) (h : hw) : hw :=
  acquired i (touched_cpu (hw_if h) c) lk (touched i c h).

Lemma sleep_cases i c h p pr ch lk s :
  CpuOk i c h -> c_ncli c = 0 -> free LPtable h -> free lk h -> lk <> LPtable ->
  k_hw s = acquired i c lk h -> c_proc c = Some p -> k_procs s !! p = Some pr ->
  exists k,
    sleep ch lk s = Switch (s <| k_hw := acquired i c LPtable h |>
                              <| k_procs ::= alter (asleep ch) p |>) k /\
    forall i' c' h' s', resumed i' c' h' s' -> free lk h' ->
      k s' = Ok tt (s' <| k_procs ::= alter (fun p => p <| p_chan := None |>) p |>
                       <| k_hw := woken_hw i' c' lk (h' <| hw_if := hw_if h |>) |>).
Proof.
  intros HC H0 HfP Hfl Hne Hs Hp Hpr.
  pose proof (CpuOk_acquired i c lk h HC) as H1.
  destruct (pushed_cpu_0 (hw_if h) c H0) as [Hn Hi].
  eexists. split.
  - unfold sleep.
    mstep by (apply (kmyproc_ok i (pushed_cpu (hw_if h) c)); by rewrite Hs).
    rewrite touch_id by (rewrite Hs; apply touched_nested; [done|lia]).
    rewrite pushed_cpu_proc, Hp, bool_decide_eq_false_2 by done.
    erewrite bind_ok.
    2: { mstep by (apply (kacquire_ok i (pushed_cpu (hw_if h) c)); rewrite Hs; auto with xv6).
         apply hwop_ok. rsimpl. rewrite Hs. by apply release_handover. }
    cbv beta. unfold proc_upd. msteps. unfold bind at 1.
    erewrite (sched_switches i c h p (asleep ch pr)); [|done..| |done].
    + cbn [obind]. refine (f_equal2 Switch _ eq_refl). kstate_eq. by rewrite alter_twice.
    + rsimpl. by rewrite alter_twice, list_lookup_alter_eq, Hpr.
  - intros i' c' h' s' Hres Hfl'. destruct (resumed_if _ _ _ _ (hw_if h) Hres) as [HC' HfP'].
    cbv beta. simpl. rewrite (restore_intena _ _ _ _ _ Hres). simpl. unfold proc_upd. msteps.
    mstep by (apply (krelease_ok i' c' LPtable (h' <| hw_if := hw_if h |>)); done).
    rewrite (kacquire_ok i' (touched_cpu (hw_if h) c') lk);
      [|exact (CpuOk_touched _ _ _ HC')|exact Hfl'].
    done.
Qed.

(** [wait] sleeps with [ptable.lock] itself, which it keeps. *)
Lemma sleep_ptable i c h p pr ch s :
  CpuOk i c h -> c_ncli c = 0 -> k_hw s = acquired i c LPtable h ->
  c_proc c = Some p -> k_procs s !! p = Some pr ->
  exists k,
    sleep ch LPtable s = Switch (s <| k_procs ::= alter (asleep ch) p |>) k /\
    forall i' c' h' s', resumed i' c' h' s' ->
      k s' = Ok tt (s' <| k_procs ::= alter (fun p => p <| p_chan := None |>) p |>
                       <| k_hw := acquired i' c' LPtable (h' <| hw_if := hw_if h |>) |>).
Proof.
  intros HC H0 Hs Hp Hpr.
  pose proof (CpuOk_acquired i c LPtable h HC) as H1.
  destruct (pushed_cpu_0 (hw_if h) c H0) as [Hn Hi].
  eexists. split.
  - unfold sleep.
    mstep by (apply (kmyproc_ok i (pushed_cpu (hw_if h) c)); by rewrite Hs).
    rewrite touch_id by (rewrite Hs; apply touched_nested; [done|lia]).
    rewrite pushed_cpu_proc, Hp, bool_decide_eq_true_2 by done.
    unfold proc_upd. msteps. unfold bind at 1.
    erewrite (sched_switches i c h p (asleep ch pr)); [|done..| |done].
    + cbn [obind]. refine (f_equal2 Switch _ eq_refl). kstate_eq. by rewrite alter_twice.
    + rsimpl. by rewrite alter_twice, list_lookup_alter_eq, Hpr.
  - intros i' c' h' s' Hres. cbv beta. simpl. rewrite (restore_intena _ _ _ _ _ Hres).
    simpl. unfold proc_upd. by msteps.
Qed.

(** ** Yield *)

Lemma yield_cases i c p pr s :
  CpuOk i c (k_hw s) -> c_ncli c = 0 -> free LPtable (k_hw s) ->
  c_proc c = Some p -> k_procs s !! p = Some pr ->
  exists k,
    yield s = Switch (s <| k_hw ::= acquired i c LPtable |>
                        <| k_procs ::= alter (fun p => p <| p_state := RUNNABLE |>) p |>) k /\
    forall i' c' h' s', resumed i' c' h' s' ->
      k s' = Ok tt (s' <| k_hw := touched i' c' (h' <| hw_if := hw_if (k_hw s) |>) |>).
Proof.
  intros HC H0 Hf Hp Hpr.
  pose proof (CpuOk_acquired i c LPtable _ HC) as H1.
  destruct (pushed_cpu_0 (hw_if (k_hw s)) c H0) as [Hn Hi].
  eexists. split.
  - unfold yield. mstep by (apply (kacquire_ok i c); assumption).
    mstep by (apply (kmyproc_ok i (pushed_cpu (hw_if (k_hw s)) c)); done).
    rewrite touch_id by (rsimpl; apply touched_nested; [done|lia]).
    rewrite pushed_cpu_proc, Hp. cbn [deref]. unfold proc_upd. msteps. unfold bind at 1.
    erewrite (sched_switches i c (k_hw s) p (pr <| p_state := RUNNABLE |>)); [|done..| |done].
    + reflexivity.
    + rsimpl. by rewrite list_lookup_alter_eq, Hpr.
  - intros i' c' h' s' Hres. destruct (resumed_if _ _ _ _ (hw_if (k_hw s)) Hres) as [HC' HfP'].
    cbv beta. simpl. rewrite (restore_intena _ _ _ _ _ Hres). simpl.
    rewrite (krelease_ok i' c' LPtable (h' <| hw_if := hw_if (k_hw s) |>)); done.
Qed.

(** ** Waiting *)

(** The entry of a child that has been waited for. *)
Definition reaped (p : proc) : proc :=
  p <| p_kstack := 0 |> <| p_pid := 0 |> <| p_parent := None |>
    <| p_name ::= <[0%nat := 0]> |> <| p_killed := 0 |> <| p_state := UNUSED |>.

(** [freevm] gives memory back and touches nothing else. *)
Definition frees_only (pgdir : Z) (s : kstate) : Prop :=
  exists m km, freevm pgdir s = Ok tt (s <| k_mem := m |> <| k_kmem := km |>).

Lemma kmem_section_nested i c s :
  CpuOk i c (k_hw s) -> 0 < c_ncli c -> kmem_section i c s = s.
Proof.
  intros HC Hn. unfold kmem_section. case_match; [|done]. by apply touch_id, touched_nested.
Qed.

Lemma wait_start fuel i c s cur :
  CpuOk i c (k_hw s) -> free LPtable (k_hw s) -> c_proc c = Some cur ->
  wait fuel s = wait_loop fuel cur
    (s <| k_hw := acquired i (touched_cpu (hw_if (k_hw s)) c) LPtable (touched i c (k_hw s)) |>).
Proof.
  intros HC Hf Hp. unfold wait. mstep by (by apply (kmyproc_ok i c)).
  mstep by (apply (kacquire_ok i (touched_cpu (hw_if (k_hw s)) c)); rsimpl; auto with xv6).
  by rewrite Hp.
Qed.

Lemma reap_ok i c h s j pr l :
  CpuOk i c h -> free LPtable h -> free LKmem h -> k_hw s = acquired i c LPtable h ->
  k_procs s !! j = Some pr -> KmemInv kernel_end s l ->
  page_ok kernel_end (p_kstack pr) = true -> p_kstack pr ∉ l ->
  (forall s', k_hw s' = k_hw s -> frees_only (p_pgdir pr) s') ->
  exists m km, reap j s = Ok (p_pid pr)
    (s <| k_hw := touched i c h |> <| k_procs ::= alter reaped j |>
       <| k_mem := m |> <| k_kmem := km |>).
Proof.
  intros HC Hf Hfk Hs Hpr HI Hpg Hnin Hvm.
  assert (HC1 : CpuOk i (pushed_cpu (hw_if h) c) (k_hw s)) by (rewrite Hs; by apply CpuOk_acquired).
  assert (Hn : 0 < c_ncli (pushed_cpu (hw_if h) c)) by (by eapply pushed_ncli_pos).
  destruct (kfree_pushes kernel_end i (pushed_cpu (hw_if h) c) (p_kstack pr) s l)
    as (s1 & Hk & _ & _ & Hs1); [|done..|].
  { intros _. split; [done|]. rewrite Hs. by apply free_acquired. }
  rewrite kmem_section_nested in Hs1 by done.
  destruct (Hvm (s1 <| k_procs ::= alter (fun p => p <| p_kstack := 0 |>) j |>)) as (m & km & Hv).
  { rsimpl. by rewrite Hs1. }
  exists m, km. unfold reap. mstep by (by apply proc_get_ok). mstep with (Hk).
  unfold proc_upd. mstep. mstep with (Hv). mstep.
  mstep by (apply (krelease_ok i c LPtable h); rsimpl; [assumption..|by rewrite Hs1]).
  unfold ret. do 2 f_equal. rewrite Hs1. kstate_eq. by rewrite alter_twice.
Qed.

Lemma wakeup_lookup ch p j ps :
  ps !! j = Some p -> map (wake_one ch) ps !! j = Some (wake_one ch p).
Proof. intros H. by rewrite list_lookup_fmap, H. Qed.

(** ** Properties *)


(** [wakeup] wakes exactly the processes that sleep on the channel and changes no
    other entry of the table, and it returns with the locks as it found them. *)
Theorem wakeup_exact i c ch s :
  CpuOk i c (k_hw s) -> free LPtable (k_hw s) ->
  exists s', wakeup ch s = Ok tt s' /\ hw_locks (k_hw s') = hw_locks (k_hw s) /\
    length (k_procs s') = length (k_procs s) /\
    forall j p, k_procs s !! j = Some p ->
      if decide (p_state p = SLEEPING /\ p_chan p = Some ch)
      then k_procs s' !! j = Some (p <| p_state := RUNNABLE |>)
      else k_procs s' !! j = Some p.
Proof.
  intros HC Hf. rewrite (wakeup_ok i c) by done. eexists. split; [done|]. rsimpl.
  split_and!; [done|by rewrite length_map|]. intros j p Hj. rewrite (wakeup_lookup _ _ _ _ Hj).
  unfold wake_one. case_decide as Hd.
  - by rewrite !bool_decide_eq_true_2 by apply Hd.
  - case_match eqn:E; [|done]. apply andb_prop in E as [?%bool_decide_eq_true ?%bool_decide_eq_true].
    tauto.
Qed.

(** [kill] finds the first process with the pid, marks it and, only if it sleeps,
    makes it RUNNABLE; with no such process it returns -1 and changes nothing. *)
Theorem kill_marks i c pid s :
  CpuOk i c (k_hw s) -> free LPtable (k_hw s) ->
  exists r s', kill pid s = Ok r s' /\ hw_locks (k_hw s') = hw_locks (k_hw s) /\
    ((r = -1 /\ k_procs s' = k_procs s /\ forall j p, k_procs s !! j = Some p -> p_pid p <> pid) \/
     (r = 0 /\ exists j p p', k_procs s !! j = Some p /\ p_pid p = pid /\
       (forall j' q, (j' < j)%nat -> k_procs s !! j' = Some q -> p_pid q <> pid) /\
       k_procs s' = <[j := p']> (k_procs s) /\ p_killed p' = 1 /\
       p_state p' = (if decide (p_state p = SLEEPING) then RUNNABLE else p_state p))).
Proof.
  intros HC Hf. rewrite (kill_cases i c) by done. destruct (scan _ _) as [j|] eqn:E.
  - apply scan_Some in E as [(p & Hj & Hp) Hlt]. eexists _, _. split; [done|]. split; [done|].
    right. split; [done|]. exists j, p, (kill_one p). unfold has_pid in *. split_and!; [done|lia|..].
    + intros j' q Hj' Hq. specialize (Hlt j' q Hj' Hq). lia.
    + rsimpl. by apply alter_insert.
    + unfold kill_one. by case_match.
    + unfold kill_one. rsimpl. case_decide as Hd; [by rewrite bool_decide_eq_true_2|].
      by rewrite bool_decide_eq_false_2.
  - eexists _, _. split; [done|]. split; [done|]. left. split_and!; [done..|].
    intros j p Hj Heq. rewrite scan_None in E. specialize (E j p Hj). unfold has_pid in E. lia.
Qed.

(** [allocproc] always returns.  It takes the first UNUSED slot, gives it the next
    pid and a kernel stack page, and lays out trap frame, return address and context
    at the top of that page, in that order and inside it; the new process starts in
    [forkret] and returns to [trapret].  It fails only when every slot is in use or
    no page is free, and then no page is lost. *)
Theorem allocproc_spec i c s l :
  CpuOk i c (k_hw s) -> free LPtable (k_hw s) -> free LKmem (k_hw s) -> KmemInv kernel_end s l ->
  exists r s', allocproc s = Ok r s' /\ hw_locks (k_hw s') = hw_locks (k_hw s) /\
    match r with
    | None =>
      KmemInv kernel_end s' l /\
      (l = [] \/ forall j p, k_procs s !! j = Some p -> p_state p <> UNUSED)
    | Some j =>
      exists v l' p p',
        l = v :: l' /\ KmemInv kernel_end s' l' /\
        k_procs s !! j = Some p /\ p_state p = UNUSED /\
        (forall j' q, (j' < j)%nat -> k_procs s !! j' = Some q -> p_state q <> UNUSED) /\
        k_procs s' = <[j := p']> (k_procs s) /\
        p_state p' = EMBRYO /\ p_pid p' = k_nextpid s /\ k_nextpid s' = i32 (k_nextpid s + 1) /\
        p_kstack p' = v /\ p_tf p' + sizeof_trapframe = v + PGSIZE /\
        p_context p' + sizeof_context + 4 = p_tf p' /\ v <= p_context p' /\
        cx_eip (p_ctx p') = KForkret /\ p_retaddr p' = KTrapret /\ p_sched p' = init_sched
    end.
Proof.
  intros HC Hf Hfk HI.
  destruct (scan is_unused (k_procs s)) as [j|] eqn:E.
  - pose proof E as [(p & Hj & Hu%bool_decide_eq_true) Hlt]%scan_Some. destruct l as [|v l].
    + rewrite (allocproc_nomem i c s j p) by done. do 2 eexists. split; [done|]. split; [done|].
      split; [|by left]. destruct HI as [H1 H2 H3]. by split.
    + destruct (allocproc_alloc i c s j p v l) as (km & HI' & ->); [done..|].
      do 2 eexists. split; [done|]. split; [done|]. exists v, l, p, (embryo (k_nextpid s) v p).
      split_and!; try done.
      * destruct HI' as [H1 H2 H3]. by split.
      * intros j' q Hj' Hq. by apply (bool_decide_eq_false _), (Hlt j').
      * unfold embryo, KSTACKSIZE, PGSIZE. rsimpl. lia.
      * unfold embryo, sizeof_context. rsimpl. lia.
      * unfold embryo, KSTACKSIZE, sizeof_context, sizeof_trapframe. rsimpl. lia.
  - rewrite (allocproc_full i c) by done. do 2 eexists. split; [done|]. split; [done|]. split.
    + destruct HI as [H1 H2 H3]. by split.
    + right. intros j p Hj. rewrite scan_None in E. by apply (bool_decide_eq_false _), (E j).
Qed.

(** A pid spent on a process whose allocation failed stays in the unused slot.  A
    [kill] of that pid reports success, and the next process that gets the slot is
    born killed. *)
Theorem stale_pid_kills_newborn i c s j p :
  CpuOk i c (k_hw s) -> free LPtable (k_hw s) -> free LKmem (k_hw s) ->
  scan is_unused (k_procs s) = Some j -> k_procs s !! j = Some p -> KmemInv kernel_end s [] ->
  (forall j' q, k_procs s !! j' = Some q -> p_pid q <> k_nextpid s) ->
  exists s1 s2, allocproc s = Ok None s1 /\ kill (k_nextpid s) s1 = Ok 0 s2 /\
    forall c' s3 v l, k_procs s3 = k_procs s2 -> CpuOk i c' (k_hw s3) -> free LPtable (k_hw s3) ->
      free LKmem (k_hw s3) -> KmemInv kernel_end s3 (v :: l) ->
      exists s4 q, allocproc s3 = Ok (Some j) s4 /\ k_procs s4 !! j = Some q /\
        p_state q = EMBRYO /\ p_killed q = 1.
Proof.
  intros HC Hf Hfk Hs Hj HI Hfresh.
  eexists _, _. split; [by apply (allocproc_nomem i c s j p)|].
  pose proof (lookup_lt_Some _ _ _ Hj) as Hlen.
  pose proof Hs as [(p0 & Hj' & Hu) Hlt]%scan_Some. simplify_eq.
  assert (E : scan (has_pid (k_nextpid s)) (<[j:=stillborn (k_nextpid s) p]> (k_procs s)) = Some j).
  { apply scan_Some. split.
    - exists (stillborn (k_nextpid s) p). rewrite list_lookup_insert_eq by done. split; [done|].
      apply Z.eqb_refl.
    - intros j' q Hne Hq. rewrite list_lookup_insert_ne in Hq by lia. apply Z.eqb_neq. eauto. }
  split.
  - rewrite (kill_cases i (touched_cpu (hw_if (k_hw s)) c)); [|rsimpl; auto with xv6..].
    rsimpl. rewrite E. reflexivity.
  - intros c' s3 v l Hp3 HC3 Hf3 Hfk3 HI3. revert Hp3. rsimpl.
    rewrite (alter_insert _ j (stillborn (k_nextpid s) p)) by (by rewrite list_lookup_insert_eq).
    rewrite list_insert_insert_eq. intros Hp3.
    destruct (allocproc_alloc i c' s3 j (kill_one (stillborn (k_nextpid s) p)) v l)
      as (km & _ & H4); try done.
    + rewrite Hp3. apply scan_Some. rewrite list_lookup_insert_eq by done. split; [by eexists|].
      intros j' q Hne Hq. rewrite list_lookup_insert_ne in Hq by lia. eauto.
    + rewrite Hp3. by rewrite list_lookup_insert_eq.
    + eexists _, _. split; [exact H4|]. rsimpl. rewrite list_lookup_insert_eq; [done|].
      by rewrite Hp3, length_insert.
Qed.


End Proc.

(** ** Witnesses *)

(** Address spaces that take no memory. *)
Definition flat_vm : VM := {|
  allocuvm := fun _ _ new => ret new; deallocuvm := fun _ _ new => ret new;
  copyuvm := fun pgdir _ => ret pgdir; freevm := fun _ => ret tt;
  switchuvm := fun _ => ret tt; switchkvm := ret tt |}.

(** One processor that runs process 0 (pid 1) with interrupts on; process 1 (pid 2)
    is a zombie child of it, process 2 (pid 3) a child that sleeps on the ticks. *)
Definition demo_cpu : cpu := mkCpu 0 0 false (Some 0%nat).
Definition demo_procs : list proc :=
  (zero_proc <| p_state := RUNNING |> <| p_pid := 1 |>)
  :: (zero_proc <| p_state := ZOMBIE |> <| p_pid := 2 |> <| p_parent := Some 0%nat |>
        <| p_kstack := page_example |>)
  :: (zero_proc <| p_state := SLEEPING |> <| p_pid := 3 |> <| p_parent := Some 0%nat |>
        <| p_chan := Some CTicks |>)
  :: replicate 7 zero_proc.
Definition demo_hw : hw :=
  mkHw true 0 1 (demo_cpu :: replicate 7 (mkCpu 0 0 false None))
    (<[LPtable := unlocked]> (<[LKmem := unlocked]> (<[LTicks := unlocked]> ∅))).
Definition demo : kstate :=
  bss <| k_hw := demo_hw |> <| k_procs := demo_procs |> <| k_nextpid := 4 |>.

Lemma demo_cpu_ok : CpuOk 0 demo_cpu demo_hw.
Proof. split_and!; done. Qed.

Lemma demo_no_memory : KmemInv kernel_end_example demo [].
Proof. split; [reflexivity|constructor|constructor]. Qed.


Lemma wakeup_exact_witness :
  exists s', wakeup CTicks demo = Ok tt s' /\
    (forall p, demo_procs !! 2%nat = Some p -> k_procs s' !! 2%nat = Some (p <| p_state := RUNNABLE |>)).
Proof.
  destruct (wakeup_exact 0 demo_cpu CTicks demo demo_cpu_ok eq_refl) as (s' & H & _ & _ & Hp).
  exists s'. split; [exact H|]. intros p E. specialize (Hp 2%nat p E).
  injection E as <-. exact Hp.
Defined.

Lemma kill_marks_witness :
  exists s', kill 3 demo = Ok 0 s' /\ exists p', k_procs s' !! 2%nat = Some p' /\ p_state p' = RUNNABLE.
Proof.
  destruct (kill_marks 0 demo_cpu 3 demo demo_cpu_ok eq_refl) as (r & s' & H & _ & [(_ & _ & Hno)|Hyes]).
  - exfalso. apply (Hno 2%nat _ eq_refl). reflexivity.
  - destruct Hyes as (-> & j & p & p' & Hj & Hpid & Hlt & Hs' & _ & Hst). exists s'.
    split; [exact H|]. assert (j = 2%nat) as ->.
    { destruct (lt_eq_lt_dec j 2) as [[Hl| ->]|Hg]; [|reflexivity|].
      - destruct j as [|[|?]]; [| |lia]; injection Hj as <-; discriminate Hpid.
      - exfalso. exact (Hlt 2%nat _ Hg eq_refl eq_refl). }
    exists p'. rewrite Hs'. injection Hj as <-. split; [reflexivity|exact Hst].
Defined.

Lemma allocproc_spec_witness :
  exists r s', allocproc demo = Ok r s' /\ KmemInv kernel_end_example s' [] /\ r = None.
Proof.
  destruct (allocproc_spec kernel_end_example 0 demo_cpu demo [] demo_cpu_ok eq_refl eq_refl
              demo_no_memory) as (r & s' & H & _ & Hr).
  exists r, s'. split; [exact H|]. destruct r as [j|].
  - exfalso. destruct Hr as (v & l' & p & p' & Hl & _). discriminate Hl.
  - split; [exact (proj1 Hr)|reflexivity].
Defined.

Lemma stale_pid_kills_newborn_witness :
  exists s1 s2, allocproc demo = Ok None s1 /\ kill 4 s1 = Ok 0 s2.
Proof.
  destruct (stale_pid_kills_newborn kernel_end_example 0 demo_cpu demo 3 zero_proc
              demo_cpu_ok eq_refl eq_refl eq_refl eq_refl demo_no_memory) as (s1 & s2 & H1 & H2 & _).
  - intros j q Hq E. assert (Hall : forallb (fun q => negb (p_pid q =? 4)) demo_procs = true)
      by reflexivity.
    rewrite forallb_forall in Hall. apply list_elem_of_lookup_2, list_elem_of_In, Hall in Hq.
    rewrite E in Hq. discriminate Hq.
  - exists s1, s2. split; [exact H1|exact H2].
Defined.

