(* ===== verification/Sched.v ===== *)
(** * The multi-level scheduler (proc.c)

    [ageprocs], the three queues ([roundrobin], [lcfs], [bestjobfirst]), the
    per-processor [scheduler] loop and the calls that set the scheduling parameters
    ([change_queue], [set_bjf_params_process], [set_bjf_params_system],
    [set_bjf_priority]).

    C leaves the format in which [float] expressions are evaluated to the
    implementation: it is a pair [prec], [emax] here, so that the theorems hold both
    for single precision (24, 128) and for the x87 extended format (64, 16384) that
    kernel.asm uses.  A value stored in a field of [struct schedStat] is rounded to
    single precision. *)

From stdpp Require Import gmap.
From Stdlib Require Import SpecFloat.
From S2P Require Import Prelude Outcome Kernel Spinlock Kalloc Proc.

(** ** Setting parameters *)

Definition sched_upd (f : schedStat -> schedStat) (p : proc) : proc := p <| p_sched ::= f |>.

(** The queue a process gets when none is asked for. *)
Definition default_queue (pid new_queue : Z) : option Z :=
  if new_queue =? UNSET then
    if pid =? 1 then Some ROUND_ROBIN
    else if 1 <? pid then Some LCFS else None
  else Some new_queue.

Definition change_queue (pid new_queue : Z) : K Z :=
  match default_queue pid new_queue with
  | None => ret (-1)
  | Some new_queue =>
    acquire LPtable;;
    ps ← gets k_procs;
    old_queue ← match scan (has_pid pid) ps with
      | Some i =>
        p ← proc_get i;
        proc_upd i (sched_upd (fun st => st <| queue_id := new_queue |>));;
        ret (queue_id (p_sched p))
      | None => ret (-1)
      end;
    release LPtable;;
    ret old_queue
  end.

Definition set_ratios (pr ar er : spec_float) (st : schedStat) : schedStat :=
  st <| priority_ratio := pr |> <| arrival_time_ratio := ar |> <| executed_cycle_ratio := er |>.

Definition set_bjf_params_process (pid : Z) (pr ar er : spec_float) : K Z :=
  acquire LPtable;;
  ps ← gets k_procs;
  match scan (has_pid pid) ps with
  | Some i => proc_upd i (sched_upd (set_ratios pr ar er));; release LPtable;; ret 0
  | None => release LPtable;; ret (-1)
  end.

Definition set_bjf_params_system (pr ar er : spec_float) : K unit :=
  acquire LPtable;;
  modify (fun s => s <| k_procs ::= map (sched_upd (set_ratios pr ar er)) |>);;
  release LPtable.

Definition set_bjf_priority (pid prio : Z) : K Z :=
  acquire LPtable;;
  ps ← gets k_procs;
  match scan (has_pid pid) ps with
  | Some i => proc_upd i (sched_upd (fun st => st <| priority := prio |>));; release LPtable;; ret 0
  | None => release LPtable;; ret (-1)
  end.

(** ** Aging *)

Definition ready_in (q : Z) (p : proc) : bool :=
  bool_decide (p_state p = RUNNABLE) && (queue_id (p_sched p) =? q).

Definition starving (osTicks : Z) (p : proc) : bool :=
  bool_decide (p_state p = RUNNABLE) && negb (queue_id (p_sched p) =? ROUND_ROBIN)
  && (AGING_THRESHOLD <? i32 (osTicks - last_run (p_sched p))).

Definition ageprocs (osTicks : Z) : K unit :=
  acquire LPtable;;
  foreach (seq 0 NPROC) (fun i =>
    p ← proc_get i;
    if starving osTicks p then
      release LPtable;;
      p ← proc_get i;
      change_queue (p_pid p) ROUND_ROBIN;;
      acquire LPtable
    else ret tt);;
  release LPtable.

(** ** The queues *)

(** [&ptable.proc[i]] *)
Definition proc_at (i : Z) : K proc := if 0 <=? i then proc_get (Z.to_nat i) else fault.

Fixpoint roundrobin_loop (fuel : nat) (lastScheduledIdx i : Z) : K Z :=
  match fuel with
  | O => spin
  | S fuel =>
    let i := i + 1 in
    let i := if Z.of_nat NPROC <=? i then 0 else i in
    p ← proc_at i;
    if ready_in ROUND_ROBIN p then ret i
    else if i =? lastScheduledIdx then ret (-1)
    else roundrobin_loop fuel lastScheduledIdx i
  end.

(** [NPROC] turns are enough when [lastScheduledIdx] is a slot of the table
    ([roundrobin_total]). *)
Definition roundrobin (lastScheduledIdx : Z) : K Z :=
  roundrobin_loop NPROC lastScheduledIdx lastScheduledIdx.

(** The loop shared by [lcfs] and [bestjobfirst]: keep the first eligible process
    whose key no later one beats.  The key kept so far is meaningless, and not read,
    until a process has been found. *)
Definition select_step (elig : proc -> bool) (key : proc -> spec_float)
    (beats : spec_float -> spec_float -> bool)
    (acc : option (nat * spec_float)) (ip : nat * proc) : option (nat * spec_float) :=
  let '(i, p) := ip in
  if elig p then
    match acc with
    | None => Some (i, key p)
    | Some (_, best) => if beats (key p) best then Some (i, key p) else acc
    end
  else acc.

Definition select (elig : proc -> bool) (key : proc -> spec_float)
    (beats : spec_float -> spec_float -> bool) (ps : list proc) : option nat :=
  fst <$> fold_left (select_step elig key beats) (imap pair ps) None.

(** 0.1f *)
Definition float_tenth : spec_float := S754_finite false 13421773 (-27).

(** A store to a [float] object rounds to single precision. *)
Definition to_float (f : spec_float) : spec_float :=
  match f with
  | S754_finite sx m e => binary_normalize 24 128 (cond_Zopp sx (Zpos m)) e sx
  | _ => f
  end.

Section Sched.
Context (prec emax : Z) {vm : VM} (srand : Z -> K unit).

Definition of_int (z : Z) : spec_float := binary_normalize prec emax z 0 false.

Definition bjfrank (p : proc) : spec_float :=
  let st := p_sched p in
  SFadd prec emax
    (SFadd prec emax
       (SFmul prec emax (of_int (priority st)) (priority_ratio st))
       (SFmul prec emax (of_int (arrival_time st)) (arrival_time_ratio st)))
    (SFmul prec emax (executed_cycle st) (executed_cycle_ratio st)).

Definition bestjobfirst : K (option nat) :=
  gets (fun s => select (ready_in BJF) bjfrank (fun rank minrank => SFltb rank minrank) (k_procs s)).

Definition arrival (p : proc) : spec_float := of_int (arrival_time (p_sched p)).

Definition lcfs : K (option nat) :=
  gets (fun s => select (ready_in LCFS) arrival (fun a max_a => SFltb max_a a) (k_procs s)).

(** ** The loop of each processor *)

(** The process chosen and the new [lastScheduledIdx]. *)
Definition choose (lastScheduledIdx : Z) : K (option nat * Z) :=
  idx ← roundrobin lastScheduledIdx;
  if idx =? -1 then
    p ← lcfs;
    match p with
    | Some _ => ret (p, lastScheduledIdx)
    | None => p ← bestjobfirst; ret (p, lastScheduledIdx)
    end
  else ret (Some (Z.to_nat idx), idx).

(** Stores through the saved pointer [c]. *)
Definition cpu_upd (c : nat) (f : cpu -> cpu) : K unit :=
  modify (fun s => s <| k_hw ::= set hw_cpus (alter f c) |>).

Definition dispatch (ticks : Z) (p : proc) : proc :=
  p <| p_state := RUNNING |>
    <| p_sched ::= fun st => st <| last_run := i32 ticks |>
         <| executed_cycle := to_float (SFadd prec emax (executed_cycle st) float_tenth) |> |>.

(** One turn of the loop; the result is the new [lastScheduledIdx]. *)
Definition scheduler_turn (c : nat) (lastScheduledIdx : Z) : K Z :=
  hwop HW.sti;;
  acquire LPtable;;
  ' (p, lastScheduledIdx) ← choose lastScheduledIdx;
  match p with
  | None => release LPtable;; ret lastScheduledIdx
  | Some p =>
    cpu_upd c (fun c => c <| c_proc := Some p |>);;
    switchuvm p;;
    ticks ← gets k_ticks;
    proc_upd p (dispatch ticks);;
    swtch;;
    switchkvm;;
    cpu_upd c (fun c => c <| c_proc := None |>);;
    release LPtable;;
    ret lastScheduledIdx
  end.

(** The loop never ends; [fuel] bounds the turns looked at. *)
Fixpoint scheduler_loop (fuel : nat) (c : nat) (lastScheduledIdx : Z) : K unit :=
  match fuel with
  | O => spin
  | S fuel =>
    lastScheduledIdx ← scheduler_turn c lastScheduledIdx;
    scheduler_loop fuel c lastScheduledIdx
  end.

Definition scheduler (fuel : nat) : K unit :=
  c ← mycpu;
  cpu_upd c (fun c => c <| c_proc := None |>);;
  ticks ← gets k_ticks;
  srand ticks;;
  scheduler_loop fuel c (Z.of_nat NPROC - 1).
End Sched.

(** ** The order of floats *)

Definition is_nan (f : spec_float) : bool := match f with S754_nan => true | _ => false end.

(** The position of a float in the order: sign class, then exponent, then mantissa. *)
Definition float_pos (f : spec_float) : Z * Z * Z :=
  match f with
  | S754_infinity true => (-2, 0, 0)
  | S754_finite true m e => (-1, - e, - Zpos m)
  | S754_zero _ | S754_nan => (0, 0, 0)
  | S754_finite false m e => (1, e, Zpos m)
  | S754_infinity false => (2, 0, 0)
  end.

Definition lex_lt (x y : Z * Z * Z) : Prop :=
  let '(a, b, c) := x in let '(a', b', c') := y in
  a < a' \/ a = a' /\ (b < b' \/ b = b' /\ c < c').

Lemma SFltb_lex f g :
  is_nan f = false -> is_nan g = false ->
  SFltb f g = true <-> lex_lt (float_pos f) (float_pos g).
Proof.
  intros Hf Hg. unfold SFltb.
  destruct f as [[]|[]| |[] m e], g as [[]|[]| |[] m' e']; try discriminate; simpl;
    try (split; intros; (discriminate || lia || reflexivity)).
  - fold (Pos.compare m m'). destruct (Z.compare_spec e e'); [destruct (Pos.compare_spec m m')|..];
      simpl; split; intros; (discriminate || lia || reflexivity).
  - fold (Pos.compare m m'). destruct (Z.compare_spec e e'); [destruct (Pos.compare_spec m m')|..];
      simpl; split; intros; (discriminate || lia || reflexivity).
Qed.

(** What a selection needs of the order on keys: a strict weak order. *)
Record weak_order {A : Type} (P : A -> Prop) (beats : A -> A -> bool) : Prop := {
  wo_trans : forall a b c, P a -> P b -> P c ->
    beats a b = true -> beats b c = true -> beats a c = true;
  wo_cotrans : forall a b c, P a -> P b -> P c ->
    beats a c = true -> beats a b = true \/ beats b c = true;
  wo_irrefl : forall a, P a -> beats a a = false }.

Lemma SFltb_weak_order : weak_order (fun f => is_nan f = false) SFltb.
Proof.
  split.
  - intros a b c Ha Hb Hc. rewrite !SFltb_lex by done.
    destruct (float_pos a) as [[? ?] ?], (float_pos b) as [[? ?] ?], (float_pos c) as [[? ?] ?].
    simpl. lia.
  - intros a b c Ha Hb Hc. rewrite !SFltb_lex by done.
    destruct (float_pos a) as [[? ?] ?], (float_pos b) as [[? ?] ?], (float_pos c) as [[? ?] ?].
    simpl. lia.
  - intros a Ha. apply not_true_iff_false. rewrite SFltb_lex by done.
    destruct (float_pos a) as [[? ?] ?]. simpl. lia.
Qed.

Lemma weak_order_flip {A : Type} (P : A -> Prop) beats :
  weak_order P beats -> weak_order P (fun a b => beats b a).
Proof.
  intros [Ht Hc Hi]. split; [intros a b c ? ? ? ? ?; by apply (Ht c b a)| |done].
  intros a b c ? ? ? H. destruct (Hc c b a) as [?|?]; auto.
Qed.

(** ** Selection *)

Section Select.
Context (elig : proc -> bool) (key : proc -> spec_float) (P : spec_float -> Prop)
  (beats : spec_float -> spec_float -> bool) (Hwo : weak_order P beats).

(** [i] is the first of the eligible processes that no other beats. *)
Definition first_best (ps : list proc) (i : nat) : Prop :=
  exists p, ps !! i = Some p /\ elig p = true /\
    forall j q, ps !! j = Some q -> elig q = true ->
      beats (key q) (key p) = false /\ ((j < i)%nat -> beats (key p) (key q) = true).

Definition select_inv (ps : list proc) (acc : option (nat * spec_float)) : Prop :=
  match acc with
  | None => forall j q, ps !! j = Some q -> elig q = false
  | Some (i, k) => first_best ps i /\ exists p, ps !! i = Some p /\ k = key p
  end.

Lemma select_inv_step ps p acc :
  (forall q, q ∈ ps ++ [p] -> elig q = true -> P (key q)) ->
  select_inv ps acc -> select_inv (ps ++ [p]) (select_step elig key beats acc (length ps, p)).
Proof.
  intros HP Hinv. destruct Hwo as [Ht Hct Hi].
  assert (Hin : forall j q, (ps ++ [p]) !! j = Some q ->
    ps !! j = Some q \/ j = length ps /\ q = p).
  { intros j q [Hj|[Hj Hq]]%lookup_app_Some; [by left|]. right.
    apply list_lookup_singleton_Some in Hq as [? ->]. split; [lia|done]. }
  assert (HPs : forall j q, ps !! j = Some q -> elig q = true -> P (key q)).
  { intros j q Hj. apply HP. rewrite elem_of_app. left. by eapply list_elem_of_lookup_2. }
  unfold select_step. destruct (elig p) eqn:Hp.
  - assert (HPp : P (key p)) by (apply HP; [set_solver|done]).
    assert (Hnew : (forall j q, ps !! j = Some q -> elig q = true -> beats (key p) (key q) = true) ->
      select_inv (ps ++ [p]) (Some (length ps, key p))).
    { intros Hb. split; [|exists p; split; [by rewrite list_lookup_middle|done]].
      exists p. split_and!; [by rewrite list_lookup_middle|done|].
      intros j q Hj Hq. destruct (Hin j q Hj) as [Hj'|[-> ->]]; [|split; [by apply Hi|lia]].
      assert (HPq : P (key q)) by eauto. specialize (Hb j q Hj' Hq). split; [|by intros _].
      destruct (beats (key q) (key p)) eqn:E; [|done].
      rewrite <- (Hi _ HPp). symmetry. eapply (Ht (key p) (key q) (key p)); done. }
    destruct acc as [[b kb]|].
    + destruct Hinv as [(pb & Hb & Hpb & Hfb) (pb' & Hb' & ->)]. simplify_eq.
      assert (HPb : P (key pb)) by eauto. destruct (beats (key p) (key pb)) eqn:Ebt.
      * apply Hnew. intros j q Hj Hq. destruct (Hct (key p) (key q) (key pb)) as [?|E]; eauto.
        destruct (Hfb j q Hj Hq) as [E' _]. congruence.
      * split; [|exists pb; split; [by apply lookup_app_l_Some|done]].
        exists pb. split_and!; [by apply lookup_app_l_Some|done|]. intros j q Hj Hq.
        destruct (Hin j q Hj) as [Hj'|[-> ->]]; [by apply (Hfb j)|]. split; [done|].
        intros Hlt. apply lookup_lt_Some in Hb. lia.
    + apply Hnew. intros j q Hj Hq. specialize (Hinv j q Hj). congruence.
  - destruct acc as [[b kb]|].
    + destruct Hinv as [(pb & Hb & Hpb & Hfb) (pb' & Hb' & ->)]. simplify_eq.
      split; [|exists pb; split; [by apply lookup_app_l_Some|done]].
      exists pb. split_and!; [by apply lookup_app_l_Some|done|]. intros j q Hj Hq.
      destruct (Hin j q Hj) as [Hj'|[-> ->]]; [by apply (Hfb j)|congruence].
    + intros j q Hj. destruct (Hin j q Hj) as [Hj'|[-> ->]]; [by eapply Hinv|done].
Qed.

Lemma select_spec ps :
  (forall q, q ∈ ps -> elig q = true -> P (key q)) ->
  match select elig key beats ps with
  | Some i => first_best ps i
  | None => forall j q, ps !! j = Some q -> elig q = false
  end.
Proof.
  intros HP.
  assert (H : select_inv ps (fold_left (select_step elig key beats) (imap pair ps) None)).
  { induction ps as [|p ps IH] using rev_ind; [done|].
    rewrite imap_app, fold_left_app. simpl. rewrite Nat.add_0_r. apply select_inv_step; [done|].
    apply IH. intros q Hq. apply HP. set_solver. }
  unfold select. destruct (fold_left _ _ _) as [[i k]|]; simpl; [apply H|exact H].
Qed.
End Select.

(** ** Integers as floats *)

Lemma digits2_log2 m : Zpos (digits2_pos m) = Z.log2 (Zpos m) + 1.
Proof.
  induction m as [m IH|m IH|]; [..|done]; simpl digits2_pos.
  - rewrite Pos2Z.inj_succ, IH. change (Zpos m~1) with (2 * Zpos m + 1).
    rewrite Z.log2_succ_double by done. lia.
  - rewrite Pos2Z.inj_succ, IH. change (Zpos m~0) with (2 * Zpos m).
    rewrite Z.log2_double by done. lia.
Qed.

Lemma iter_xO m d : Zpos (Pos.iter xO m d) = Zpos m * 2 ^ Zpos d.
Proof.
  induction d as [|d IH] using Pos.peano_ind; [simpl; lia|].
  rewrite Pos.iter_succ. change (Zpos (Pos.iter xO m d)~0) with (2 * Zpos (Pos.iter xO m d)).
  rewrite IH, Pos2Z.inj_succ, Z.pow_succ_r by lia. ring.
Qed.

Section OfInt.
Context (prec emax : Z) (Hprec : 0 < prec) (Hemax : 2 <= emax) (Hfmt : prec <= emax).

(** An integer below [2^prec] is represented exactly, with a full mantissa. *)
Lemma of_int_pos m :
  Zpos m < 2 ^ prec ->
  exists m', Zpos m' = Zpos m * 2 ^ (prec - 1 - Z.log2 (Zpos m)) /\
    of_int prec emax (Zpos m) = S754_finite false m' (Z.log2 (Zpos m) + 1 - prec).
Proof.
  intros Hm. set (d := Z.log2 (Zpos m) + 1).
  assert (Hd : 1 <= d <= prec).
  { pose proof (Z.log2_nonneg (Zpos m)). pose proof (Z.log2_lt_pow2 (Zpos m) prec). lia. }
  assert (Hfe : forall x, x = d -> fexp prec emax x = d - prec).
  { intros x ->. unfold fexp, emin. lia. }
  unfold of_int, binary_normalize, binary_round. rewrite digits2_log2. fold d.
  rewrite (Hfe (d + 0)) by lia.
  assert (Hal : exists m', Zpos m' = Zpos m * 2 ^ (prec - d) /\ shl_align m 0 (d - prec) = (m', d - prec)).
  { clearbody d. unfold shl_align. destruct (d - prec - 0) as [|k|k] eqn:E; [|lia|].
    - exists m. replace (prec - d) with 0 by lia. split; [lia|]. f_equal. lia.
    - exists (Pos.iter xO m k). rewrite iter_xO. by replace (prec - d) with (Zpos k) by lia. }
  destruct Hal as (m' & Hm' & ->). exists m'. split; [rewrite Hm'; do 2 f_equal; unfold d; lia|].
  assert (Hlog : Z.log2 (Zpos m') + 1 + (d - prec) = d).
  { rewrite Hm', Z.log2_mul_pow2 by lia. unfold d. lia. }
  assert (Hshr : shr_fexp prec emax (Zpos m') (d - prec) loc_Exact =
                 ({| shr_m := Zpos m'; shr_r := false; shr_s := false |}, d - prec)).
  { unfold shr_fexp. simpl Zdigits2. rewrite digits2_log2, Hlog, (Hfe d) by done.
    by rewrite Z.sub_diag. }
  unfold binary_round_aux. rewrite Hshr. simpl. rewrite Hshr. simpl.
  by rewrite (proj2 (Z.leb_le _ _)) by lia.
Qed.

Lemma of_int_not_nan z : 0 <= z < 2 ^ prec -> is_nan (of_int prec emax z) = false.
Proof.
  destruct z as [|m|]; [done| |lia]. intros [_ H]. by destruct (of_int_pos m H) as (? & _ & ->).
Qed.

Lemma of_int_lt a b :
  0 <= a < 2 ^ prec -> 0 <= b < 2 ^ prec ->
  SFltb (of_int prec emax a) (of_int prec emax b) = true <-> a < b.
Proof.
  intros Ha Hb. rewrite SFltb_lex by (by apply of_int_not_nan).
  destruct a as [|a|]; [| |lia]; (destruct b as [|b|]; [| |lia]).
  - simpl. lia.
  - destruct (of_int_pos b) as (b' & _ & ->); [lia|]. simpl. lia.
  - destruct (of_int_pos a) as (a' & _ & ->); [lia|]. simpl. lia.
  - destruct (of_int_pos a) as (a' & Ha' & ->); [lia|].
    destruct (of_int_pos b) as (b' & Hb' & ->); [lia|]. cbn [lex_lt float_pos].
    destruct (Z.lt_trichotomy (Z.log2 (Zpos a)) (Z.log2 (Zpos b))) as [Hl|[Hl|Hl]].
    + pose proof (Z.log2_lt_cancel _ _ Hl). lia.
    + rewrite Ha', Hb', Hl. rewrite <- Z.mul_lt_mono_pos_r; [lia|].
      apply Z.pow_pos_nonneg; [lia|]. pose proof (Z.log2_lt_pow2 (Zpos b) prec). lia.
    + pose proof (Z.log2_lt_cancel _ _ Hl). lia.
Qed.
End OfInt.

(** ** Round robin *)

Definition slots : Z := Z.of_nat NPROC.
Definition ready_at (ps : list proc) (i : Z) : bool :=
  match ps !! Z.to_nat i with Some p => ready_in ROUND_ROBIN p | None => false end.
(** The slot looked at after [t] others, and how many are looked at before slot [i]. *)
Definition rr_slot (last t : Z) : Z := (last + 1 + t) mod slots.
Definition rr_dist (last i : Z) : Z := (i - last - 1) mod slots.

Lemma next_slot i :
  0 <= i < slots -> (if slots <=? i + 1 then 0 else i + 1) = (i + 1) mod slots.
Proof.
  intros Hi. destruct (Z.leb_spec slots (i + 1)).
  - replace (i + 1) with slots by lia. done.
  - rewrite Z.mod_small; lia.
Qed.

Lemma rr_slot_range last t : 0 <= rr_slot last t < slots.
Proof. apply Z.mod_pos_bound. done. Qed.

Lemma rr_dist_range last i : 0 <= rr_dist last i < slots.
Proof. apply Z.mod_pos_bound. done. Qed.

Lemma rr_slot_dist last i : 0 <= i < slots -> rr_slot last (rr_dist last i) = i.
Proof.
  intros Hi. unfold rr_slot, rr_dist. rewrite Zplus_mod_idemp_r.
  replace (last + 1 + (i - last - 1)) with i by lia. by apply Z.mod_small.
Qed.

Lemma rr_dist_slot last t : 0 <= t < slots -> rr_dist last (rr_slot last t) = t.
Proof.
  intros Ht. unfold rr_slot, rr_dist. rewrite <- Z.sub_add_distr, Zminus_mod_idemp_l.
  replace (last + 1 + t - (last + 1)) with t by lia. by apply Z.mod_small.
Qed.

(** The outcome of looking at the slots from the [t]-th on. *)
Definition rr_result (ps : list proc) (last t r : Z) : Prop :=
  (exists u, t <= u < slots /\ r = rr_slot last u /\ ready_at ps r = true /\
     forall v, t <= v < u -> ready_at ps (rr_slot last v) = false) \/
  (r = -1 /\ forall v, t <= v < slots -> ready_at ps (rr_slot last v) = false).

Lemma rr_result_step ps last t r :
  0 <= t -> ready_at ps (rr_slot last t) = false -> rr_result ps last (t + 1) r -> rr_result ps last t r.
Proof.
  intros Ht Hno [(u & Hu & -> & Hr & Hlt)|[-> Hall]].
  - left. exists u. split_and!; [lia..|done|]. intros v Hv. destruct (decide (v = t)) as [->|]; [done|].
    apply Hlt. lia.
  - right. split; [done|]. intros v Hv. destruct (decide (v = t)) as [->|]; [done|]. apply Hall. lia.
Qed.

Lemma proc_at_ok i s :
  0 <= i < Z.of_nat (length (k_procs s)) ->
  exists p, k_procs s !! Z.to_nat i = Some p /\ proc_at i s = Ok p s.
Proof.
  intros Hi. destruct (lookup_lt_is_Some_2 (k_procs s) (Z.to_nat i)) as [p Hp]; [lia|].
  exists p. split; [done|]. unfold proc_at. rewrite (proj2 (Z.leb_le 0 i)) by lia.
  by apply proc_get_ok.
Qed.

Lemma roundrobin_loop_ok n t last s :
  length (k_procs s) = NPROC -> 0 <= last < slots -> 0 <= t -> Z.of_nat n + t = slots -> (0 < n)%nat ->
  exists r, roundrobin_loop n last ((last + t) mod slots) s = Ok r s /\ rr_result (k_procs s) last t r.
Proof.
  intros Hlen Hlast. revert t. induction n as [|n IH]; intros t Ht Hn Hpos; [lia|].
  cbn [roundrobin_loop]. fold slots. cbv zeta.
  rewrite next_slot by (apply Z.mod_pos_bound; done). rewrite Zplus_mod_idemp_l.
  replace (last + t + 1) with (last + 1 + t) by lia. fold (rr_slot last t).
  pose proof (rr_slot_range last t).
  destruct (proc_at_ok (rr_slot last t) s) as (p & Hp & Hok); [by rewrite Hlen|]. mstep with (Hok).
  destruct (ready_in ROUND_ROBIN p) eqn:Hr.
  { eexists. split; [done|]. left. exists t. split_and!; [lia|lia|done| |lia].
    unfold ready_at. by rewrite Hp. }
  assert (Hno : ready_at (k_procs s) (rr_slot last t) = false) by (unfold ready_at; by rewrite Hp).
  destruct (Z.eqb_spec (rr_slot last t) last) as [Heq|Hne].
  - assert (t = slots - 1).
    { rewrite <- (rr_dist_slot last t) by lia. rewrite Heq. unfold rr_dist.
      by replace (last - last - 1) with (-1) by lia. }
    eexists. split; [done|]. right. split; [done|]. intros v Hv. by replace v with t by lia.
  - assert (t <> slots - 1).
    { intros ->. apply Hne. unfold rr_slot. replace (last + 1 + (slots - 1)) with (last + 1 * slots) by lia.
      rewrite Z.mod_add by done. by apply Z.mod_small. }
    destruct (IH (t + 1)) as (r & Hrun & Hres); [lia..|]. exists r. split.
    + rewrite <- Hrun. f_equal. unfold rr_slot. f_equal. lia.
    + by apply rr_result_step.
Qed.

Lemma roundrobin_ok last s :
  length (k_procs s) = NPROC -> 0 <= last < slots ->
  exists r, roundrobin last s = Ok r s /\ rr_result (k_procs s) last 0 r.
Proof.
  intros Hlen Hlast. destruct (roundrobin_loop_ok NPROC 0 last s) as (r & H & Hr); [done..| |].
  { unfold NPROC. lia. }
  exists r. split; [|done]. unfold roundrobin. rewrite <- H. f_equal. rewrite Z.add_0_r.
  by rewrite Z.mod_small.
Qed.

(** ** The choice among the queues *)

Definition none_ready (q : Z) (ps : list proc) : Prop :=
  forall j p, ps !! j = Some p -> ready_in q p = false.

Lemma rr_none_ready ps last :
  length ps = NPROC ->
  (forall v, 0 <= v < slots -> ready_at ps (rr_slot last v) = false) -> none_ready ROUND_ROBIN ps.
Proof.
  intros Hlen Hall j p Hj. pose proof (lookup_lt_Some _ _ _ Hj).
  specialize (Hall _ (rr_dist_range last (Z.of_nat j))).
  rewrite rr_slot_dist in Hall by (unfold slots; lia). unfold ready_at in Hall.
  by rewrite Nat2Z.id, Hj in Hall.
Qed.

Section Choice.
Context (prec emax : Z) (Hprec : 0 < prec) (Hemax : 2 <= emax) (Hfmt : prec <= emax).

(** Arrival times are clock ticks small enough to be exact in the float format. *)
Definition exact_times (ps : list proc) : Prop :=
  forall j p, ps !! j = Some p -> 0 <= arrival_time (p_sched p) < 2 ^ prec.
(** Every rank is a number. *)
Definition ranked (ps : list proc) : Prop :=
  forall j p, ps !! j = Some p -> ready_in BJF p = true -> is_nan (bjfrank prec emax p) = false.

(** [i] is the first of the LCFS processes with the latest arrival. *)
Definition latest (ps : list proc) (i : nat) : Prop :=
  exists p, ps !! i = Some p /\ ready_in LCFS p = true /\
    forall j q, ps !! j = Some q -> ready_in LCFS q = true ->
      arrival_time (p_sched q) <= arrival_time (p_sched p) /\
      ((j < i)%nat -> arrival_time (p_sched q) < arrival_time (p_sched p)).

(** [i] is the first of the BJF processes with the least rank. *)
Definition least_rank (ps : list proc) (i : nat) : Prop :=
  exists p, ps !! i = Some p /\ ready_in BJF p = true /\
    forall j q, ps !! j = Some q -> ready_in BJF q = true ->
      SFltb (bjfrank prec emax q) (bjfrank prec emax p) = false /\
      ((j < i)%nat -> SFltb (bjfrank prec emax p) (bjfrank prec emax q) = true).

Lemma lcfs_ok s :
  exact_times (k_procs s) ->
  exists r, lcfs prec emax s = Ok r s /\
    match r with Some i => latest (k_procs s) i | None => none_ready LCFS (k_procs s) end.
Proof.
  intros Hex. eexists. split; [reflexivity|].
  pose proof (select_spec (ready_in LCFS) (arrival prec emax) (fun f => is_nan f = false)
    (fun a max_a => SFltb max_a a) (weak_order_flip _ _ SFltb_weak_order) (k_procs s)) as H.
  destruct (select _ _ _ _) as [i|].
  - destruct H as (p & Hp & Hr & Hb).
    { intros q [j Hj]%list_elem_of_lookup _. by apply of_int_not_nan; eauto. }
    exists p. split_and!; [done..|]. intros j q Hj Hq. destruct (Hb j q Hj Hq) as [H1 H2].
    unfold arrival in *. rewrite of_int_lt in H2 by eauto.
    apply not_true_iff_false in H1. rewrite of_int_lt in H1 by eauto. split; [lia|done].
  - refine (H _). intros q [j Hj]%list_elem_of_lookup _. by apply of_int_not_nan; eauto.
Qed.

Lemma bestjobfirst_ok s :
  ranked (k_procs s) ->
  exists r, bestjobfirst prec emax s = Ok r s /\
    match r with Some i => least_rank (k_procs s) i | None => none_ready BJF (k_procs s) end.
Proof.
  intros Hrk. eexists. split; [reflexivity|].
  apply (select_spec (ready_in BJF) (bjfrank prec emax) (fun f => is_nan f = false) SFltb
    SFltb_weak_order (k_procs s)).
  intros q [j Hj]%list_elem_of_lookup Hq. eauto.
Qed.

(** The process the scheduler runs next, and the new round-robin position. *)
Inductive chosen (ps : list proc) (last : Z) : option nat -> Z -> Prop :=
| chosen_rr idx p : 0 <= idx < slots -> rr_result ps last 0 idx -> ps !! Z.to_nat idx = Some p ->
    ready_in ROUND_ROBIN p = true -> chosen ps last (Some (Z.to_nat idx)) idx
| chosen_lcfs i : none_ready ROUND_ROBIN ps -> latest ps i -> chosen ps last (Some i) last
| chosen_bjf i : none_ready ROUND_ROBIN ps -> none_ready LCFS ps -> least_rank ps i ->
    chosen ps last (Some i) last
| chosen_none : none_ready ROUND_ROBIN ps -> none_ready LCFS ps -> none_ready BJF ps ->
    chosen ps last None last.

Lemma choose_ok last s :
  length (k_procs s) = NPROC -> 0 <= last < slots -> exact_times (k_procs s) -> ranked (k_procs s) ->
  exists r last', choose prec emax last s = Ok (r, last') s /\ 0 <= last' < slots /\
    chosen (k_procs s) last r last'.
Proof.
  intros Hlen Hlast Hex Hrk. destruct (roundrobin_ok last s) as (idx & Hok & Hres); [done..|].
  unfold choose. mstep with (Hok).
  pose proof Hres as [(u & Hu & -> & Hr & _)|[-> Hall]].
  - pose proof (rr_slot_range last u). rewrite (proj2 (Z.eqb_neq _ _)) by lia.
    do 2 eexists. split; [done|]. split; [done|]. unfold ready_at in Hr.
    destruct (k_procs s !! _) as [p|] eqn:Hp; [|done]. by apply (chosen_rr _ _ _ p).
  - pose proof (rr_none_ready _ _ Hlen Hall) as Hno. simpl.
    destruct (lcfs_ok s Hex) as (r & Hl & Hsp). mstep with (Hl). destruct r as [i|].
    + do 2 eexists. split; [done|]. split; [done|]. by constructor.
    + destruct (bestjobfirst_ok s Hrk) as (r & Hb & Hsp'). mstep with (Hb).
      do 2 eexists. split; [done|]. split; [done|]. destruct r; by constructor.
Qed.

Lemma chosen_runnable ps last i last' :
  chosen ps last (Some i) last' -> exists p, ps !! i = Some p /\ p_state p = RUNNABLE.
Proof.
  assert (Hr : forall q p, ready_in q p = true -> p_state p = RUNNABLE).
  { intros q p [H%bool_decide_eq_true _]%andb_prop. done. }
  intros H. inversion H as [idx p ? ? ? ?|? ? (p & ? & ? & _)|? ? ? (p & ? & ? & _)|]; subst;
    exists p; eauto.
Qed.
End Choice.

(** ** One turn of the scheduler *)

(** Hand processor [i] to process [x]. *)
Definition given (i : nat) (c : cpu) (x : option nat) (h : hw) : hw :=
  h <| hw_cpus := <[i := c <| c_proc := x |>]> (hw_cpus h) |>.

Lemma CpuOk_given i c x h : CpuOk i c h -> CpuOk i (c <| c_proc := x |>) (given i c x h).
Proof.
  intros HC. pose proof HC as (_ & _ & Hn & Hf).
  pose proof (CpuOk_upd i c h HC (c <| c_proc := x |>) (hw_if h)) as H.
  destruct h. exact (H eq_refl Hn Hf).
Qed.

Lemma given_acquired i c x lk h :
  CpuOk i c h ->
  set hw_cpus (alter (fun c => c <| c_proc := x |>) i) (acquired i c lk h) =
  acquired i (c <| c_proc := x |>) lk (given i c x h).
Proof.
  intros (_ & Hc & _). unfold acquired, pushed, given. destruct h. unfold set. simpl in *. f_equal.
  rewrite list_insert_insert_eq. apply list_eq. intros j.
  pose proof (lookup_lt_Some _ _ _ Hc). destruct (decide (i = j)) as [<-|Hne].
  - rewrite list_lookup_alter_eq, !list_lookup_insert_eq by done. simpl. f_equal.
    unfold pushed_cpu. destruct c. simpl. by case_match.
  - by rewrite list_lookup_alter_ne, !list_lookup_insert_ne.
Qed.

Section Turn.
Context (prec emax : Z) (Hprec : 0 < prec) (Hemax : 2 <= emax) (Hfmt : prec <= emax) {vm : VM}.

(** What [switchuvm] and [switchkvm] of vm.c do when they are called with interrupts
    off: they load the task state and the page directory, which are not part of the
    state here.  [switchuvm] panics without a kernel stack or a page directory. *)
Definition switches_space (vm : VM) : Prop :=
  (forall i c p pr s, CpuOk i c (k_hw s) -> 0 < c_ncli c -> k_procs s !! p = Some pr ->
     p_kstack pr <> 0 -> p_pgdir pr <> 0 -> switchuvm p s = Ok tt s) /\
  (forall i c s, CpuOk i c (k_hw s) -> 0 < c_ncli c -> switchkvm s = Ok tt s).

Lemma scheduler_turn_ok i c last s :
  switches_space vm -> CpuOk i c (k_hw s) -> c_ncli c = 0 -> free LPtable (k_hw s) ->
  length (k_procs s) = NPROC -> 0 <= last < slots ->
  exact_times prec (k_procs s) -> ranked prec emax (k_procs s) ->
  (forall j p, k_procs s !! j = Some p -> p_state p = RUNNABLE -> p_kstack p <> 0 /\ p_pgdir p <> 0) ->
  exists r last', chosen prec emax (k_procs s) last r last' /\ 0 <= last' < slots /\
    match r with
    | None => scheduler_turn prec emax i last s =
                Ok last' (s <| k_hw := touched i c ((k_hw s) <| hw_if := true |>) |>)
    | Some p => exists k,
        scheduler_turn prec emax i last s =
          Switch (s <| k_hw := acquired i (c <| c_proc := Some p |>) LPtable
                                 (given i c (Some p) ((k_hw s) <| hw_if := true |>)) |>
                    <| k_procs ::= alter (dispatch prec emax (k_ticks s)) p |>) k /\
        forall c' h' s', resumed i c' h' s' ->
          k s' = Ok last' (s' <| k_hw := touched i (c' <| c_proc := None |>) (given i c' None h') |>)
    end.
Proof.
  intros [Huvm Hkvm] HC H0 Hf Hlen Hlast Hex Hrk Hmem.
  set (h1 := (k_hw s) <| hw_if := true |>).
  assert (HC1 : CpuOk i c h1) by (apply CpuOk_if; [done|lia]).
  assert (Hf1 : free LPtable h1) by done.
  set (s1 := s <| k_hw := acquired i c LPtable h1 |>).
  destruct (choose_ok prec emax Hprec Hemax Hfmt last s1) as (r & last' & Hch & Hl' & Hsp); [done..|].
  exists r, last'. split; [done|]. split; [done|].
  assert (Hstart : forall k' : unit -> K Z, bind (hwop HW.sti) (fun _ => bind (acquire LPtable) k') s = k' tt s1).
  { intros k'. mstep by (by apply hwop_ok).
    mstep by (apply (kacquire_ok i c); done). done. }
  unfold scheduler_turn. rewrite Hstart. mstep with (Hch). destruct r as [p|].
  - destruct (chosen_runnable _ _ _ _ _ _ Hsp) as (pr & Hpr & Hst).
    destruct (Hmem p pr Hpr Hst) as [Hks Hpd].
    pose proof (CpuOk_given i c (Some p) h1 HC1) as HC2.
    pose proof (CpuOk_acquired i _ LPtable _ HC2) as HC3. eexists. split.
    + unfold cpu_upd. mstep.
      mstep by (apply (Huvm i (pushed_cpu (hw_if (given i c (Some p) h1)) (c <| c_proc := Some p |>)) p pr);
                [unfold s1; rsimpl; by rewrite given_acquired|by eapply pushed_ncli_pos|done..]).
      unfold proc_upd. msteps. rewrite bind_swtch. refine (f_equal2 Switch _ eq_refl).
      unfold s1. kstate_eq. exact (given_acquired i c (Some p) LPtable h1 HC1).
    + intros c' h' s' (HC' & H0' & Hf' & Hs'). cbv beta.
      mstep by (apply (Hkvm i (pushed_cpu (hw_if h') c')); [rewrite Hs'; by apply CpuOk_acquired|
                by eapply pushed_ncli_pos]).
      mstep. mstep by (apply (krelease_ok i (c' <| c_proc := None |>) LPtable (given i c' None h'));
        [by apply CpuOk_given|done|rsimpl; rewrite Hs'; by apply given_acquired]).
      done.
  - mstep by (apply (krelease_ok i c LPtable h1); done). done.
Qed.
End Turn.

(** ** Queues and aging *)

Definition in_queue (q : Z) : proc -> proc := sched_upd (fun st => st <| queue_id := q |>).

Lemma change_queue_cases i c pid q s :
  CpuOk i c (k_hw s) -> free LPtable (k_hw s) ->
  change_queue pid q s =
    match default_queue pid q with
    | None => Ok (-1) s
    | Some q =>
      match scan (has_pid pid) (k_procs s) with
      | Some j => Ok (default (-1) ((fun p => queue_id (p_sched p)) <$> k_procs s !! j))
                    (s <| k_hw ::= touched i c |> <| k_procs ::= alter (in_queue q) j |>)
      | None => Ok (-1) (s <| k_hw ::= touched i c |>)
      end
    end.
Proof.
  intros HC Hf. unfold change_queue. destruct (default_queue pid q) as [q'|]; [|done].
  mstep by (apply (kacquire_ok i c); assumption). mstep. rsimpl.
  destruct (scan _ _) as [j|] eqn:E.
  - apply scan_Some in E as [(p & Hj & _) _]. rewrite Hj. simpl.
    mstep by (mstep by (by apply proc_get_ok); unfold proc_upd; by mstep).
    by mstep by (apply (krelease_ok i c LPtable (k_hw s)); [assumption..|done]).
  - mstep. by mstep by (apply (krelease_ok i c LPtable (k_hw s)); [assumption..|done]).
Qed.

Lemma acquired_touched i c lk h :
  acquired i (touched_cpu (hw_if h) c) lk (touched i c h) = acquired i c lk h.
Proof.
  unfold acquired, pushed, touched. destruct h. unfold set. simpl. f_equal.
  rewrite list_insert_insert_eq. f_equal. unfold pushed_cpu, touched_cpu.
  destruct (c_ncli c =? 0) eqn:E; destruct c; unfold set; simpl in *; by rewrite E.
Qed.

(** The effect of [ageprocs] on one process. *)
Definition age (osTicks : Z) (p : proc) : proc :=
  if starving osTicks p then in_queue ROUND_ROBIN p else p.

(** The pid of a RUNNABLE process names no other slot. *)
Definition pids_distinct (ps : list proc) : Prop :=
  forall j p j' q, ps !! j = Some p -> p_state p = RUNNABLE ->
    ps !! j' = Some q -> p_pid q = p_pid p -> j' = j.

Lemma pids_distinct_alter ps f j :
  (forall p, p_pid (f p) = p_pid p /\ p_state (f p) = p_state p) ->
  pids_distinct ps -> pids_distinct (alter f j ps).
Proof.
  intros Hf Hd.
  assert (Hl : forall a p, alter f j ps !! a = Some p ->
    exists p', ps !! a = Some p' /\ p_pid p = p_pid p' /\ p_state p = p_state p').
  { intros a p Ha. destruct (decide (j = a)) as [->|Hne].
    - rewrite list_lookup_alter_eq in Ha. destruct (ps !! a) as [p'|]; [|done]. simplify_eq/=.
      exists p'. split; [done|apply Hf].
    - rewrite list_lookup_alter_ne in Ha by done. by exists p. }
  intros a p b q Ha Hs Hb Hpid. destruct (Hl a p Ha) as (p' & Ha' & E1 & E2).
  destruct (Hl b q Hb) as (q' & Hb' & E3 & _). eapply (Hd a p' b q'); congruence.
Qed.

Lemma fold_alter (f : proc -> proc) k n (ps : list proc) j :
  fold_left (fun ps a => alter f a ps) (seq k n) ps !! j =
  if decide (k <= j < k + n)%nat then f <$> ps !! j else ps !! j.
Proof.
  revert k ps. induction n as [|n IH]; intros k ps; simpl; [by rewrite decide_False by lia|].
  rewrite IH. destruct (decide (k = j)) as [->|Hne].
  - rewrite decide_False, decide_True by lia. by rewrite list_lookup_alter_eq.
  - rewrite list_lookup_alter_ne by done. repeat case_decide; lia || done.
Qed.

Lemma fold_procs {A} (f : A -> list proc -> list proc) l s :
  fold_left (fun s a => s <| k_procs ::= f a |>) l s =
  s <| k_procs ::= fold_left (fun ps a => f a ps) l |>.
Proof.
  revert s. induction l as [|a l IH]; intros s; simpl; [by destruct s|]. by rewrite IH.
Qed.

Lemma ageprocs_ok i c osTicks s :
  CpuOk i c (k_hw s) -> free LPtable (k_hw s) -> length (k_procs s) = NPROC ->
  pids_distinct (k_procs s) ->
  ageprocs osTicks s = Ok tt (s <| k_hw ::= touched i c |> <| k_procs ::= map (age osTicks) |>).
Proof.
  intros HC Hf Hlen Hd. unfold ageprocs. mstep by (apply (kacquire_ok i c); assumption).
  set (I := fun s' => k_hw s' = acquired i c LPtable (k_hw s) /\
                     length (k_procs s') = NPROC /\ pids_distinct (k_procs s')).
  set (f := fun a s' => s' <| k_procs ::= alter (age osTicks) a |>).
  match goal with |- bind (foreach ?l ?b) _ ?s1 = _ =>
    destruct (foreach_ok f I b l s1) as [Hok HI] end.
  { intros a s' Ha (Hh & Hl & Hd'). apply elem_of_seq in Ha.
    destruct (lookup_lt_is_Some_2 (k_procs s') a) as [p Hp]; [lia|].
    assert (HI : I (f a s')).
    { split_and!; [done|by unfold f; rsimpl; rewrite length_alter|]. apply pids_distinct_alter; [|done].
      intros q. unfold age. by case_match. }
    split; [|done]. mstep by (by apply proc_get_ok). unfold f, age. destruct (starving osTicks p) eqn:E.
    - mstep by (apply (krelease_ok i c LPtable (k_hw s)); done).
      mstep by (by apply proc_get_ok).
      assert (Hsc : scan (has_pid (p_pid p)) (k_procs s') = Some a).
      { apply scan_Some. split; [exists p; split; [done|apply Z.eqb_refl]|].
        intros j q Hj Hq. apply Z.eqb_neq. intros Epid.
        assert (Hr : p_state p = RUNNABLE).
        { unfold starving in E. by apply andb_prop in E as [[?%bool_decide_eq_true _]%andb_prop _]. }
        pose proof (Hd' a p j q Hp Hr Hq Epid). lia. }
      mstep by (rewrite (change_queue_cases i (touched_cpu (hw_if (k_hw s)) c));
        [rsimpl; rewrite Hsc; reflexivity|by apply CpuOk_touched|done]).
      rewrite (kacquire_ok i (touched_cpu (hw_if (k_hw s)) c));
        [|rsimpl; rewrite touched_twice; by apply CpuOk_touched|done].
      do 2 f_equal. apply kstate_ext; rsimpl; try reflexivity.
      + by rewrite touched_twice, acquired_touched.
      + rewrite !(alter_insert _ _ _ _ Hp). by rewrite E.
    - unfold ret. do 2 f_equal. destruct s'. unfold set. simpl in *. f_equal.
      rewrite (alter_insert _ _ _ _ Hp), E. by rewrite list_insert_id. }
  { split_and!; done. }
  mstep with (Hok). destruct HI as (Hh & _ & _).
  rewrite (krelease_ok i c LPtable (k_hw s)) by done. do 2 f_equal. unfold f. rewrite fold_procs.
  kstate_eq. fold (k_procs s). apply list_eq. intros j. rewrite fold_alter.
  rewrite list_lookup_fmap. case_decide; [done|].
  by rewrite (lookup_ge_None_2 (k_procs s) j) by lia.
Qed.

(** ** Fairness *)

(** The slots [roundrobin] picks when the scheduler calls it in the given states, one
    after the other, keeping the last position when it picks none. *)
Fixpoint rr_picks (states : list kstate) (last : Z) : list Z :=
  match states with
  | [] => []
  | s :: states =>
    match roundrobin last s with
    | Ok idx _ => idx :: rr_picks states (if idx =? -1 then last else idx)
    | _ => []
    end
  end.

Lemma rr_dist_next last t k :
  0 <= t < rr_dist last k -> rr_dist (rr_slot last t) k = rr_dist last k - t - 1.
Proof.
  intros Ht. pose proof (rr_dist_range last k) as Hr. unfold rr_dist, rr_slot in *.
  rewrite <- Z.sub_add_distr, <- Zminus_mod_idemp_r, Zplus_mod_idemp_l, Zminus_mod_idemp_r.
  replace (k - (last + 1 + t + 1)) with ((k - last - 1) - (t + 1)) by lia.
  rewrite <- Zminus_mod_idemp_l. rewrite Z.mod_small by lia. lia.
Qed.

Lemma rr_picks_within (n : nat) states last k :
  0 <= last < slots -> 0 <= k < slots -> rr_dist last k < Z.of_nat n -> (n <= length states)%nat ->
  Forall (fun s => length (k_procs s) = NPROC /\ ready_at (k_procs s) k = true) states ->
  k ∈ rr_picks states last.
Proof.
  intros Hlast Hk. revert states last Hlast. induction n as [|n IH]; intros states last Hlast Hd Hn Hall.
  { pose proof (rr_dist_range last k). lia. }
  destruct states as [|s states]; [simpl in Hn; lia|]. inversion Hall as [|? ? [Hlen Hr] Hall']; subst.
  simpl. destruct (roundrobin_ok last s) as (r & -> & Hres); [done..|].
  pose proof (rr_dist_range last k) as Hrange.
  destruct Hres as [(u & Hu & -> & Hru & Hlt)|[-> Hno]].
  - pose proof (rr_slot_range last u). rewrite (proj2 (Z.eqb_neq _ _)) by lia.
    destruct (Z.lt_trichotomy u (rr_dist last k)) as [Hl|[Heq|Hg]].
    + right. apply IH; [done| |simpl in Hn; lia|done]. rewrite rr_dist_next; lia.
    + rewrite Heq, rr_slot_dist by done. by left.
    + specialize (Hlt (rr_dist last k)). rewrite rr_slot_dist in Hlt by done.
      rewrite Hlt in Hr by lia. done.
  - specialize (Hno (rr_dist last k)). rewrite rr_slot_dist in Hno by done.
    rewrite Hno in Hr by lia. done.
Qed.

(** ** Properties *)

(** [roundrobin] always returns within its [NPROC] turns: it gives the first RUNNABLE
    process of the round-robin queue after the last scheduled slot, in cyclic order,
    the last slot itself coming last, and -1 exactly when there is none. *)
Theorem roundrobin_total last s :
  length (k_procs s) = NPROC -> 0 <= last < slots ->
  exists r, roundrobin last s = Ok r s /\
    ((0 <= r < slots /\ ready_at (k_procs s) r = true /\
      forall j, 0 <= j < slots -> ready_at (k_procs s) j = true -> rr_dist last r <= rr_dist last j) \/
     (r = -1 /\ none_ready ROUND_ROBIN (k_procs s))).
Proof.
  intros Hlen Hlast. destruct (roundrobin_ok last s) as (r & Hok & Hres); [done..|].
  exists r. split; [done|]. destruct Hres as [(u & Hu & -> & Hr & Hlt)|[-> Hno]].
  - left. split_and!; [apply rr_slot_range..|done|]. intros j Hj Hjr.
    rewrite rr_dist_slot by lia. destruct (Z.le_gt_cases u (rr_dist last j)) as [|Hg]; [done|].
    pose proof (rr_dist_range last j). specialize (Hlt (rr_dist last j)).
    rewrite rr_slot_dist in Hlt by done. rewrite Hlt in Hjr by lia. done.
  - right. split; [done|]. by eapply rr_none_ready.
Qed.

Definition rr_demo : kstate :=
  demo <| k_procs := alter (fun p => p <| p_state := RUNNABLE |>
                                     <| p_sched ::= fun st => st <| queue_id := ROUND_ROBIN |> |>) 5%nat
                       demo_procs |>.

Lemma roundrobin_total_witness :
  exists r, roundrobin 9 rr_demo = Ok r rr_demo /\ ready_at (k_procs rr_demo) r = true.
Proof.
  destruct (roundrobin_total 9 rr_demo) as (r & H & [(_ & Hr & _)|[_ Hno]]).
  - reflexivity.
  - split; [discriminate|reflexivity].
  - exists r. split; [exact H|exact Hr].
  - exfalso. specialize (Hno 5%nat _ eq_refl). discriminate Hno.
Defined.

(** Round robin is fair: a process that stays RUNNABLE in the round-robin queue is
    picked at least once in any [NPROC] consecutive choices, whatever the other
    processes do in between. *)
Theorem roundrobin_fair states last k :
  0 <= last < slots -> 0 <= k < slots -> (NPROC <= length states)%nat ->
  Forall (fun s => length (k_procs s) = NPROC /\ ready_at (k_procs s) k = true) states ->
  k ∈ rr_picks states last.
Proof.
  intros Hlast Hk Hn Hall. apply (rr_picks_within NPROC); try done. apply rr_dist_range.
Qed.

Lemma roundrobin_fair_witness : 5 ∈ rr_picks (replicate NPROC rr_demo) 9.
Proof.
  apply (roundrobin_fair (replicate NPROC rr_demo) 9 5).
  - split; [discriminate|reflexivity].
  - split; [discriminate|reflexivity].
  - rewrite length_replicate. lia.
  - apply Forall_replicate. split; reflexivity.
Defined.

(** C7. One turn of the scheduler enables interrupts, takes [ptable.lock] and runs, of the
    RUNNABLE processes, the next one of the round-robin queue; only when that queue is
    empty, the one of the LCFS queue that arrived last; only when both are empty, the
    one of the BJF queue with the least rank.  It switches to it with only
    [ptable.lock] held, which is the state in which [sleep] and [yield] resume, and
    with the process RUNNING on this processor; when the process switches back, the
    lock is released and the processor has no process. *)
Theorem scheduler_turn_spec (prec emax : Z) (vm : VM) i c last s :
  0 < prec <= emax -> 2 <= emax ->
  switches_space vm -> CpuOk i c (k_hw s) -> c_ncli c = 0 -> free LPtable (k_hw s) ->
  length (k_procs s) = NPROC -> 0 <= last < slots ->
  exact_times prec (k_procs s) -> ranked prec emax (k_procs s) ->
  (forall j p, k_procs s !! j = Some p -> p_state p = RUNNABLE -> p_kstack p <> 0 /\ p_pgdir p <> 0) ->
  exists r last', chosen prec emax (k_procs s) last r last' /\
    match r with
    | None => exists s', scheduler_turn prec emax i last s = Ok last' s' /\ free LPtable (k_hw s') /\
        k_procs s' = k_procs s /\ hw_if (k_hw s') = true
    | Some p => exists c2 h2 s2 k q,
        scheduler_turn prec emax i last s = Switch s2 k /\
        resumed i c2 h2 s2 /\ c_proc c2 = Some p /\
        k_procs s2 = <[p := q]> (k_procs s) /\ p_state q = RUNNING /\
        last_run (p_sched q) = i32 (k_ticks s) /\
        forall c' h' s', resumed i c' h' s' -> exists c3 s3, k s' = Ok last' s3 /\
          free LPtable (k_hw s3) /\ CpuOk i c3 (k_hw s3) /\ c_proc c3 = None /\
          k_procs s3 = k_procs s'
    end.
Proof.
  intros [Hp Hpe] He Hvm HC H0 Hf Hlen Hlast Hex Hrk Hmem.
  destruct (scheduler_turn_ok prec emax Hp He Hpe i c last s) as (r & last' & Hch & Hl & Hr); [done..|].
  exists r, last'. split; [done|]. destruct r as [p|].
  - destruct Hr as (k & Hk & Hres). destruct (chosen_runnable _ _ _ _ _ _ Hch) as (pr & Hpr & _).
    assert (HC1 : CpuOk i c ((k_hw s) <| hw_if := true |>)) by (apply CpuOk_if; [done|lia]).
    do 4 eexists. exists (dispatch prec emax (k_ticks s) pr). split; [exact Hk|]. split_and!.
    + split_and!; [by apply CpuOk_given|done|done|reflexivity].
    + done.
    + rsimpl. by apply alter_insert.
    + done.
    + done.
    + intros c' h' s' Hr. rewrite (Hres _ _ _ Hr). destruct Hr as (HC' & H0' & Hf' & _).
      do 2 eexists. split; [reflexivity|]. rsimpl. split_and!; [done| |  |done].
      * apply CpuOk_touched, CpuOk_given, HC'.
      * unfold touched_cpu. by case_match.
  - eexists. split; [exact Hr|]. by split_and!.
Qed.

Definition sched_demo : kstate :=
  demo <| k_procs := alter (fun p => p <| p_state := RUNNABLE |> <| p_pid := 7 |>
                                     <| p_kstack := page_example |>
                                     <| p_pgdir := page_example |>
                                     <| p_sched := init_sched <| queue_id := LCFS |> |>) 5%nat
                       demo_procs |>.

Lemma scheduler_turn_spec_witness :
  exists s2 k, @scheduler_turn 24 128 flat_vm 0 9 sched_demo = Switch s2 k /\
    exists q, k_procs s2 !! 5%nat = Some q /\ p_state q = RUNNING.
Proof.
  assert (Hall : forall j p, k_procs sched_demo !! j = Some p ->
    p_sched p = zero_sched /\ p_state p <> RUNNABLE \/
    j = 5%nat /\ p_kstack p = page_example /\ p_pgdir p = page_example /\
      p_sched p = init_sched <| queue_id := LCFS |>).
  { intros j p Hj. apply list_elem_of_lookup_2 in Hj as Hin. revert j Hj.
    do 5 (intros [|j] Hj; [injection Hj as <-; left; split; [reflexivity|discriminate]|revert j Hj]).
    intros [|j] Hj; [injection Hj as <-; right; repeat split|].
    change (replicate 4 zero_proc !! j = Some p) in Hj. apply lookup_replicate in Hj as [-> _].
    left; split; [reflexivity|discriminate]. }
  destruct (scheduler_turn_spec 24 128 flat_vm 0 demo_cpu 9 sched_demo) as (r & last' & Hch & Hr).
  - split; [reflexivity|discriminate].
  - discriminate.
  - split; reflexivity.
  - exact demo_cpu_ok.
  - reflexivity.
  - reflexivity.
  - reflexivity.
  - split; [discriminate|reflexivity].
  - intros j p Hj. destruct (Hall j p Hj) as [(-> & _)|(_ & _ & _ & ->)]; (split; [discriminate|reflexivity]).
  - intros j p Hj Hb. destruct (Hall j p Hj) as [(E & Hs)|(_ & _ & _ & E)].
    + unfold ready_in in Hb. rewrite E in Hb. rewrite andb_false_r in Hb. discriminate Hb.
    + unfold ready_in in Hb. rewrite E in Hb. rewrite andb_false_r in Hb. discriminate Hb.
  - intros j p Hj Hs. destruct (Hall j p Hj) as [(E & Hs')|(_ & -> & -> & _)]; [contradiction|].
    split; discriminate.
  - destruct r as [p|]; [|exfalso; inversion Hch as [| | |? Hno]; specialize (Hno 5%nat _ eq_refl);
      discriminate Hno].
    destruct Hr as (c2 & h2 & s2 & k & q & H & _ & _ & Hp & Hst & _). exists s2, k.
    assert (p = 5%nat) as ->.
    { destruct (chosen_runnable _ _ _ _ _ _ Hch) as (pr & Hpr & Hrun).
      destruct (Hall p pr Hpr) as [(_ & Hs')|(-> & _)]; [contradiction|reflexivity]. }
    split; [exact H|]. exists q. rewrite Hp. split; [reflexivity|exact Hst].
Defined.

(** [ageprocs] returns with the locks as it found them, and moves to the round-robin
    queue exactly the RUNNABLE processes of the other queues that have not run for more
    than the threshold; no other field and no other process changes.  After it no
    process starves. *)
Theorem ageprocs_promotes i c osTicks s :
  CpuOk i c (k_hw s) -> free LPtable (k_hw s) -> length (k_procs s) = NPROC ->
  pids_distinct (k_procs s) ->
  exists s', ageprocs osTicks s = Ok tt s' /\ hw_locks (k_hw s') = hw_locks (k_hw s) /\
    length (k_procs s') = NPROC /\
    (forall j p, k_procs s !! j = Some p ->
       k_procs s' !! j = Some (if starving osTicks p
                               then p <| p_sched ::= fun st => st <| queue_id := ROUND_ROBIN |> |>
                               else p)) /\
    (forall j p, k_procs s' !! j = Some p -> starving osTicks p = false).
Proof.
  intros HC Hf Hlen Hd. rewrite (ageprocs_ok i c) by done. eexists. split; [done|]. rsimpl.
  split_and!; [done|by rewrite length_map|..].
  - intros j p Hj. by rewrite list_lookup_fmap, Hj.
  - intros j p Hj. rewrite list_lookup_fmap in Hj. destruct (k_procs s !! j) as [q|]; [|done].
    simplify_eq/=. unfold age. destruct (starving osTicks q) eqn:E; [|done].
    unfold starving. rsimpl. simpl. by rewrite andb_false_r.
Qed.

Lemma ageprocs_promotes_witness :
  exists s', ageprocs 8001 sched_demo = Ok tt s' /\
    exists q, k_procs s' !! 5%nat = Some q /\ queue_id (p_sched q) = ROUND_ROBIN.
Proof.
  destruct (ageprocs_promotes 0 demo_cpu 8001 sched_demo) as (s' & H & _ & _ & Hp & _).
  - exact demo_cpu_ok.
  - reflexivity.
  - reflexivity.
  - intros j p j' q Hj Hs Hj' Hpid.
    assert (Hr : forall j p, k_procs sched_demo !! j = Some p -> p_state p = RUNNABLE -> j = 5%nat).
    { intros k r Hk Hrun. do 10 (destruct k as [|k]; [injection Hk as <-; first [reflexivity|discriminate Hrun]|]).
      discriminate Hk. }
    assert (j = 5%nat) as -> by (exact (Hr j p Hj Hs)). injection Hj as <-.
    do 10 (destruct j' as [|j']; [injection Hj' as <-; first [reflexivity|discriminate Hpid]|]).
    discriminate Hj'.
  - exists s'. split; [exact H|]. eexists. split; [exact (Hp 5%nat _ eq_refl)|]. vm_compute. reflexivity.
Defined.
