(* ===== verification/Cprintf.v ===== *)
(** * Console output (console.c)

    [cgaputc], [consputc], [printint] and [cprintf].  The display is the memory of the
    CGA controller and its cursor; [uartputc] belongs to uart.c, which is not among the
    sources, so the calls of it are recorded in order.  A C string is the list of its
    bytes, without the terminator; a 32-bit variadic argument is an integer or a
    pointer to a string. *)

From stdpp Require Import gmap.
From S2P Require Import Prelude Outcome Kernel Spinlock.

(** ** Characters *)

Definition BACKSPACE : Z := 256.
(** A [char] promoted to [int]. *)
Definition i8 (c : Z) : Z := if c <? 128 then c else c - 256.

Definition con_upd (f : console -> console) : K unit := modify (fun s => s <| k_cons ::= f |>).

(** ** The display *)

Definition CRT_COLS : Z := 80.

(** The cursor after a character, before scrolling, and the display. *)
Definition cga_advance (c pos : Z) (crt : Z -> Z) : Z * (Z -> Z) :=
  if c =? 10 then (pos + (80 - pos mod 80), crt)
  else if c =? BACKSPACE then (if 0 <? pos then pos - 1 else pos, crt)
  else (pos + 1, fun i => if i =? pos then Z.lor (Z.land c 255) 1792 else crt i).

(** [memmove(crt, crt+80, sizeof(crt[0])*23*80)], and [memset] of the rest. *)
Definition cga_scroll (pos : Z) (crt : Z -> Z) : Z * (Z -> Z) :=
  let crt := fun i => if (0 <=? i) && (i <? 23 * 80) then crt (i + 80) else crt i in
  let pos := pos - 80 in
  (pos, fun i => if (pos <=? i) && (i <? 24 * 80) then 0 else crt i).

Definition cgaputc (c : Z) : K unit :=
  cn ← gets k_cons;
  let '(pos, crt) := cga_advance c (cn_pos cn) (cn_crt cn) in
  if (pos <? 0) || (25 * 80 <? pos) then panic "pos under/overflow" else
  let '(pos, crt) := if 24 <=? pos / 80 then cga_scroll pos crt else (pos, crt) in
  con_upd (fun cn => cn <| cn_pos := pos |>
                        <| cn_crt := fun i => if i =? pos then Z.lor 32 1792 else crt i |>).

Definition uartputc (c : Z) : K unit := con_upd (fun cn => cn <| cn_uart ::= fun l => l ++ [c] |>).

Definition consputc (c : Z) : K unit :=
  cn ← gets k_cons;
  if cn_panicked cn then hwop HW.cli;; spin else
  (if c =? BACKSPACE then uartputc 8;; uartputc 32;; uartputc 8 else uartputc c);;
  cgaputc c.

(** ** Numbers *)

(** "0123456789abcdef" *)
Definition digit (d : Z) : Z := if d <? 10 then 48 + d else 87 + d.

(** The digits of [x], the least significant first. *)
Fixpoint printint_loop (fuel : nat) (base x : Z) : list Z :=
  match fuel with
  | O => []
  | S fuel => digit (x mod base) ::
      (let x := x / base in if x =? 0 then [] else printint_loop fuel base x)
  end.

(** The characters [printint] puts in its buffer, in the order it prints them. *)
Definition printint_chars (xx base : Z) (sign : bool) : list Z :=
  let neg := sign && (xx <? 0) in
  let x := if neg then u32 (- xx) else u32 xx in
  rev (printint_loop 32 base x ++ (if neg then [45] else [])).

Definition printint (xx base : Z) (sign : bool) : K unit :=
  foreach (printint_chars xx base sign) consputc.

(** ** Formats *)

Inductive arg : Type := AInt (z : Z) | AStr (s : option (list Z)).

(** "(null)" *)
Definition null_string : list Z := [40; 110; 117; 108; 108; 41].

(** A missing argument, or one of the wrong kind, is a fault. *)
Fixpoint format (fmt : list Z) (args : list arg) : K unit :=
  match fmt with
  | [] => ret tt
  | c :: fmt =>
    if negb (c =? 37) then consputc c;; format fmt args else
    match fmt with
    | [] => ret tt
    | c :: fmt =>
      if c =? 100 then (* %d *)
        match args with
        | AInt z :: args => printint (i32 z) 10 true;; format fmt args
        | _ => fault
        end
      else if (c =? 120) || (c =? 112) then (* %x, %p *)
        match args with
        | AInt z :: args => printint (i32 z) 16 false;; format fmt args
        | _ => fault
        end
      else if c =? 115 then (* %s *)
        match args with
        | AStr s :: args =>
          foreach (map i8 (default null_string s)) consputc;; format fmt args
        | _ => fault
        end
      else if c =? 37 then consputc 37;; format fmt args
      else consputc 37;; consputc c;; format fmt args
    end
  end.

Definition cprintf (fmt : list Z) (args : list arg) : K unit :=
  cn ← gets k_cons;
  when (cn_locking cn) (acquire LCons);;
  format fmt args;;
  when (cn_locking cn) (release LCons).

(** ** What is put on the console *)

(** The effect of [consputc] on a working console. *)
Definition emit (c : Z) (cn : console) : console :=
  let '(pos, crt) := cga_advance c (cn_pos cn) (cn_crt cn) in
  let '(pos, crt) := if 24 <=? pos / 80 then cga_scroll pos crt else (pos, crt) in
  cn <| cn_uart ::= fun l => l ++ (if c =? BACKSPACE then [8; 32; 8] else [c]) |>
     <| cn_pos := pos |>
     <| cn_crt := fun i => if i =? pos then Z.lor 32 1792 else crt i |>.

Definition emits (l : list Z) (cn : console) : console := fold_left (fun cn c => emit c cn) l cn.

(** The console works: no processor has panicked, and the cursor is above the last
    line. *)
Definition con_ok (cn : console) : Prop := cn_panicked cn = false /\ 0 <= cn_pos cn < 24 * 80.

Lemma cga_advance_range c pos crt :
  0 <= pos < 24 * 80 -> 0 <= fst (cga_advance c pos crt) <= 24 * 80.
Proof.
  intros Hp. unfold cga_advance. destruct (c =? 10); simpl.
  - Z.div_mod_to_equations. lia.
  - destruct (c =? BACKSPACE); simpl; [|lia]. destruct (Z.ltb_spec 0 pos); lia.
Qed.

Lemma con_ok_emit c cn : con_ok cn -> con_ok (emit c cn).
Proof.
  intros [Hp Hpos]. pose proof (cga_advance_range c _ (cn_crt cn) Hpos) as Hr. unfold emit.
  destruct (cga_advance _ _ _) as [pos crt]. simpl in Hr. destruct (Z.leb_spec 24 (pos / 80)) as [Hs|Hs];
    split; unfold set; simpl; [done| |done|]; Z.div_mod_to_equations; lia.
Qed.

Lemma con_ok_emits l cn : con_ok cn -> con_ok (emits l cn).
Proof.
  revert cn. induction l as [|c l IH]; intros cn H; [done|]. apply IH. by apply con_ok_emit.
Qed.

Lemma emits_app l1 l2 cn : emits (l1 ++ l2) cn = emits l2 (emits l1 cn).
Proof. apply fold_left_app. Qed.

Lemma cgaputc_ok c s :
  con_ok (k_cons s) ->
  exists pos crt, cga_advance c (cn_pos (k_cons s)) (cn_crt (k_cons s)) = (pos, crt) /\
    cgaputc c s = Ok tt (s <| k_cons ::= fun cn =>
      let '(pos, crt) := if 24 <=? pos / 80 then cga_scroll pos crt else (pos, crt) in
      cn <| cn_pos := pos |> <| cn_crt := fun i => if i =? pos then Z.lor 32 1792 else crt i |> |>).
Proof.
  intros [_ Hpos]. pose proof (cga_advance_range c _ (cn_crt (k_cons s)) Hpos) as Hr.
  unfold cgaputc. mstep. destruct (cga_advance _ _ _) as [pos crt]. simpl in Hr. exists pos, crt.
  split; [done|]. rewrite (proj2 (Z.ltb_ge pos 0)), (proj2 (Z.ltb_ge (25 * 80) pos)) by lia. simpl.
  by destruct (24 <=? pos / 80).
Qed.

Lemma consputc_ok c s : con_ok (k_cons s) -> consputc c s = Ok tt (s <| k_cons ::= emit c |>).
Proof.
  intros [Hp Hpos]. unfold consputc. mstep. rewrite Hp.
  set (u := if c =? BACKSPACE then [8; 32; 8] else [c]).
  erewrite bind_ok.
  2: { instantiate (1 := s <| k_cons ::= set cn_uart (fun l => l ++ u) |>). instantiate (1 := tt).
       unfold u. destruct (c =? BACKSPACE); unfold uartputc, con_upd; [|done].
       msteps. unfold modify. f_equal. kstate_eq. by rewrite <- !app_assoc. }
  cbv beta. destruct (cgaputc_ok c (s <| k_cons ::= set cn_uart (fun l => l ++ u) |>)) as (pos & crt & Ha & ->).
  { done. }
  f_equal. unfold emit. destruct s as [? ? ? ? ? ? ? ? ? ? ? ? [] ? ? ? ? ?]. unfold set in *. simpl in *.
  rewrite Ha. by destruct (24 <=? pos / 80).
Qed.

Lemma foreach_consputc l s :
  con_ok (k_cons s) -> foreach l consputc s = Ok tt (s <| k_cons ::= emits l |>).
Proof.
  revert s. induction l as [|c l IH]; intros s H; simpl; [by destruct s|].
  mstep by (by apply consputc_ok). rewrite IH by (by apply con_ok_emit). done.
Qed.

(** What a format and its arguments print; [None] when they do not match. *)
Fixpoint render (fmt : list Z) (args : list arg) : option (list Z) :=
  match fmt with
  | [] => Some []
  | c :: fmt =>
    if negb (c =? 37) then cons c <$> render fmt args else
    match fmt with
    | [] => Some []
    | c :: fmt =>
      if c =? 100 then
        match args with
        | AInt z :: args => app (printint_chars (i32 z) 10 true) <$> render fmt args
        | _ => None
        end
      else if (c =? 120) || (c =? 112) then
        match args with
        | AInt z :: args => app (printint_chars (i32 z) 16 false) <$> render fmt args
        | _ => None
        end
      else if c =? 115 then
        match args with
        | AStr s :: args => app (map i8 (default null_string s)) <$> render fmt args
        | _ => None
        end
      else if c =? 37 then cons 37 <$> render fmt args
      else app [37; c] <$> render fmt args
    end
  end.

Lemma kcons_emits_app l1 l2 s :
  (s <| k_cons ::= emits l1 |>) <| k_cons ::= emits l2 |> = s <| k_cons ::= emits (l1 ++ l2) |>.
Proof. destruct s. unfold set. simpl. by rewrite emits_app. Qed.

Lemma format_ok fmt args l s :
  con_ok (k_cons s) -> render fmt args = Some l ->
  format fmt args s = Ok tt (s <| k_cons ::= emits l |>).
Proof.
  remember (length fmt) as n eqn:Hn. revert fmt args l s Hn.
  induction (lt_wf n) as [n _ IH]. intros fmt args l s -> Hc Hr.
  assert (Hstep : forall (m : K unit) l1 fmt' args',
    (length fmt' < length fmt)%nat -> m s = Ok tt (s <| k_cons ::= emits l1 |>) ->
    app l1 <$> render fmt' args' = Some l ->
    (m ;; format fmt' args') s = Ok tt (s <| k_cons ::= emits l |>)).
  { intros m l1 fmt' args' Hlt Hm (l' & Hl' & ->)%fmap_Some. mstep with (Hm).
    rewrite (IH _ Hlt _ _ l' _ eq_refl); [by rewrite kcons_emits_app|by apply con_ok_emits|done]. }
  assert (Hput : forall c, consputc c s = Ok tt (s <| k_cons ::= emits [c] |>))
    by (intros c; by apply consputc_ok).
  destruct fmt as [|c fmt]; simpl in *; [simplify_eq; by destruct s|].
  destruct (negb (c =? 37)). { by eapply Hstep; [lia|apply Hput|]. }
  destruct fmt as [|d fmt]; simpl in *; [simplify_eq; by destruct s|].
  destruct (d =? 100).
  { destruct args as [|[z|?] args]; try done. by eapply Hstep; [lia|apply foreach_consputc|]. }
  destruct ((d =? 120) || (d =? 112)).
  { destruct args as [|[z|?] args]; try done. by eapply Hstep; [lia|apply foreach_consputc|]. }
  destruct (d =? 115).
  { destruct args as [|[?|o] args]; try done. by eapply Hstep; [lia|apply foreach_consputc|]. }
  destruct (d =? 37). { by eapply Hstep; [lia|apply Hput|]. }
  mstep by (by apply consputc_ok). destruct (render fmt args) as [l'|] eqn:El; simplify_eq/=.
  mstep by (by apply consputc_ok, con_ok_emit).
  rewrite (IH (length fmt) ltac:(lia) fmt args l' _ eq_refl); [|by do 2 apply con_ok_emit|done].
  done.
Qed.

(** The hardware state after a section that takes the console lock if [locking]. *)
Definition cons_section (i : nat) (c : cpu) (s : kstate) : kstate :=
  if cn_locking (k_cons s) then s <| k_hw ::= touched i c |> else s.

Lemma emit_locking c cn : cn_locking (emit c cn) = cn_locking cn.
Proof. unfold emit. destruct (cga_advance _ _ _) as [pos crt]. by destruct (24 <=? pos / 80). Qed.

Lemma cprintf_ok i c fmt args l s :
  CpuOk i c (k_hw s) -> free LCons (k_hw s) -> con_ok (k_cons s) -> render fmt args = Some l ->
  cprintf fmt args s = Ok tt ((cons_section i c s) <| k_cons ::= emits l |>).
Proof.
  intros HC Hf Hc Hr. unfold cprintf, cons_section. mstep. destruct (cn_locking (k_cons s)); cbn [when].
  - mstep by (apply (kacquire_ok i c); done). mstep by (by apply format_ok).
    by rewrite (krelease_ok i c LCons (k_hw s)).
  - mstep. mstep by (by apply format_ok). done.
Qed.

Lemma emits_uart l cn :
  cn_uart (emits l cn) =
  cn_uart cn ++ concat (map (fun c => if c =? BACKSPACE then [8; 32; 8] else [c]) l).
Proof.
  revert cn. induction l as [|c l IH]; intros cn; simpl; [by rewrite app_nil_r|].
  rewrite IH, app_assoc. f_equal. unfold emit. destruct (cga_advance _ _ _) as [pos crt].
  by destruct (24 <=? pos / 80).
Qed.

(** From [s] to [s'] the text [l] was printed and nothing else happened. *)
Definition printed (i : nat) (l : list Z) (s s' : kstate) : Prop :=
  (exists c, CpuOk i c (k_hw s')) /\ hw_locks (k_hw s') = hw_locks (k_hw s) /\
  con_ok (k_cons s') /\ k_cons s' = emits l (k_cons s) /\
  s' = s <| k_hw := k_hw s' |> <| k_cons := k_cons s' |>.

Lemma printed_trans i l1 l2 s1 s2 s3 :
  printed i l1 s1 s2 -> printed i l2 s2 s3 -> printed i (l1 ++ l2) s1 s3.
Proof.
  intros (_ & Hl1 & _ & Hc1 & Hs1) (HC & Hl2 & Hok & Hc2 & Hs2). split_and!; [done|congruence|done|..].
  - by rewrite emits_app, Hc2, Hc1.
  - rewrite Hs2. rewrite Hs1 at 1. destruct s1, s2, s3. reflexivity.
Qed.

Lemma cprintf_printed i c fmt args l s :
  CpuOk i c (k_hw s) -> free LCons (k_hw s) -> con_ok (k_cons s) -> render fmt args = Some l ->
  exists s', cprintf fmt args s = Ok tt s' /\ printed i l s s'.
Proof.
  intros HC Hf Hc Hr. rewrite (cprintf_ok i c fmt args l s) by done. eexists. split; [done|].
  unfold cons_section. destruct (cn_locking (k_cons s)).
  - split_and!; [eexists; by apply CpuOk_touched|done|by apply con_ok_emits|done|by destruct s].
  - split_and!; [eauto|done|by apply con_ok_emits|done|by destruct s].
Qed.

(** ** Reading numbers back *)

Definition digit_value (c : Z) : Z := if c <? 58 then c - 48 else c - 87.
(** The value of a numeral, the most significant digit first. *)
Definition numeral (base : Z) (l : list Z) : Z := fold_left (fun v c => v * base + digit_value c) l 0.
Definition signed_numeral (l : list Z) : Z :=
  match l with 45 :: l => - numeral 10 l | _ => numeral 10 l end.

Lemma digit_value_digit d : 0 <= d < 16 -> digit_value (digit d) = d.
Proof.
  intros Hd. unfold digit, digit_value. destruct (Z.ltb_spec d 10).
  - rewrite (proj2 (Z.ltb_lt _ _)); lia.
  - rewrite (proj2 (Z.ltb_ge _ _)); lia.
Qed.

Lemma numeral_printint_loop fuel base x :
  2 <= base <= 16 -> 0 <= x < base ^ Z.of_nat fuel -> numeral base (rev (printint_loop fuel base x)) = x.
Proof.
  intros Hb. revert x. induction fuel as [|fuel IH]; intros x Hx.
  { simpl in *. unfold numeral. simpl. lia. }
  cbn [printint_loop]. pose proof (Z.mod_pos_bound x base ltac:(lia)).
  pose proof (Z.div_mod x base ltac:(lia)). simpl rev. unfold numeral. rewrite fold_left_app. simpl.
  rewrite digit_value_digit by lia. fold (numeral base (rev (if x / base =? 0 then []
    else printint_loop fuel base (x / base)))).
  destruct (Z.eqb_spec (x / base) 0) as [E|E]; [unfold numeral; simpl; lia|].
  rewrite IH; [lia|]. rewrite Nat2Z.inj_succ, Z.pow_succ_r in Hx by lia.
  split; [apply Z.div_pos; lia|]. apply Z.div_lt_upper_bound; lia.
Qed.

Lemma printint_loop_digits fuel base x :
  2 <= base <= 16 -> 0 <= x ->
  Forall (fun c => 48 <= c <= 57 \/ 97 <= c <= 102) (printint_loop fuel base x).
Proof.
  intros Hb. revert x. induction fuel as [|fuel IH]; intros x Hx; [constructor|]. cbn [printint_loop].
  pose proof (Z.mod_pos_bound x base ltac:(lia)). constructor.
  - unfold digit. destruct (Z.ltb_spec (x mod base) 10); lia.
  - cbv zeta. destruct (x / base =? 0); [constructor|]. apply IH, Z.div_pos; lia.
Qed.

Lemma printint_loop_length fuel base x n :
  2 <= base -> 0 <= x < base ^ Z.of_nat n -> (0 < n)%nat -> (length (printint_loop fuel base x) <= n)%nat.
Proof.
  intros Hb. revert x n. induction fuel as [|fuel IH]; intros x n Hx Hn; [simpl; lia|].
  cbn [printint_loop]. cbv zeta. destruct n as [|n]; [lia|]. simpl. destruct (Z.eqb_spec (x / base) 0) as [E|E].
  { simpl. lia. }
  rewrite Nat2Z.inj_succ, Z.pow_succ_r in Hx by lia. destruct n as [|n].
  { exfalso. apply E, Z.div_small. simpl in Hx. lia. }
  assert (length (printint_loop fuel base (x / base)) <= S n)%nat; [|lia].
  apply IH; [|lia]. split; [apply Z.div_pos; lia|]. apply Z.div_lt_upper_bound; lia.
Qed.

(** ** Properties *)

(** [printint] is exact: the signed decimal numeral it prints reads back as the number,
    the smallest one included, the hexadecimal one as the number taken as unsigned, and
    neither outgrows the buffer of 16 characters. *)
Theorem printint_exact xx :
  - 2147483648 <= xx < 2147483648 ->
  signed_numeral (printint_chars xx 10 true) = xx /\
  (length (printint_chars xx 10 true) <= 11)%nat /\
  numeral 16 (printint_chars xx 16 false) = u32 xx /\
  (length (printint_chars xx 16 false) <= 8)%nat.
Proof.
  intros Hx. unfold printint_chars. simpl andb. cbv zeta iota.
  pose proof (u32_range xx) as Hu.
  assert (Hlt : forall x, 0 <= x < 4294967296 ->
    x < 10 ^ Z.of_nat 32 /\ x < 16 ^ Z.of_nat 32 /\ x < 10 ^ Z.of_nat 10 /\ x < 16 ^ Z.of_nat 8).
  { intros x Hx'. simpl. lia. }
  rewrite app_nil_r, !length_rev, numeral_printint_loop by first [split; [lia|apply Hlt; lia]|lia].
  split_and!; [| |done|apply printint_loop_length; [lia|split; [lia|apply Hlt; lia]|lia]].
  - destruct (Z.ltb_spec xx 0) as [Hn|Hn].
    + rewrite (u32_id (- xx)) by lia. rewrite rev_app_distr. cbn [rev app signed_numeral].
      rewrite numeral_printint_loop; [lia|lia|]. split; [lia|apply Hlt; lia].
    + rewrite (u32_id xx), app_nil_r by lia.
      pose proof (numeral_printint_loop 32 10 xx ltac:(lia) ltac:(split; [lia|apply Hlt; lia])) as Hv.
      assert (Hd : Forall (fun c => c <> 45) (rev (printint_loop 32 10 xx))).
      { apply Forall_rev. eapply Forall_impl; [apply printint_loop_digits; lia|]. simpl. lia. }
      unfold signed_numeral. destruct (rev _) as [|c l] eqn:E; [done|].
      apply Forall_inv in Hd. destruct c as [|c|c]; try done. by do 6 (destruct c as [c|c|]; try done).
  - rewrite length_app.
    assert (length (printint_loop 32 10 (if (xx <? 0)%Z then u32 (- xx)%Z else u32 xx)) <= 10)%nat.
    { apply printint_loop_length; [lia| |lia]. pose proof (u32_range (- xx)). split.
      - destruct (xx <? 0); lia.
      - destruct (xx <? 0); apply Hlt; lia. }
    destruct (xx <? 0); cbn [length]; lia.
Qed.

Lemma printint_exact_witness :
  signed_numeral (printint_chars (-2147483648) 10 true) = -2147483648 /\
  printint_chars (-2147483648) 10 true = [45; 50; 49; 52; 55; 52; 56; 51; 54; 52; 56].
Proof.
  split; [|vm_compute; reflexivity].
  destruct (printint_exact (-2147483648)) as [H _]; [lia|exact H].
Defined.

(** [cprintf] with arguments that match its format prints exactly what the format
    renders to, on the serial line and on the display: it never panics, keeps the
    cursor on the screen and gives the console lock back. *)
Theorem cprintf_prints i c fmt args l s :
  CpuOk i c (k_hw s) -> free LCons (k_hw s) -> con_ok (k_cons s) -> render fmt args = Some l ->
  exists s', cprintf fmt args s = Ok tt s' /\ con_ok (k_cons s') /\
    k_cons s' = emits l (k_cons s) /\
    cn_uart (k_cons s') =
      cn_uart (k_cons s) ++ concat (map (fun c => if c =? BACKSPACE then [8; 32; 8] else [c]) l) /\
    hw_locks (k_hw s') = hw_locks (k_hw s).
Proof.
  intros HC Hf Hc Hr. rewrite (cprintf_ok i c fmt args l s) by done. eexists. split; [done|].
  assert (E : k_cons ((cons_section i c s) <| k_cons ::= emits l |>) = emits l (k_cons s)).
  { unfold cons_section. by destruct (cn_locking (k_cons s)). }
  rewrite E. split_and!; [by apply con_ok_emits|done|apply emits_uart|].
  unfold cons_section. by destruct (cn_locking (k_cons s)).
Qed.

(** The console of a running system. *)
Definition con_demo : kstate :=
  bss <| k_cons ::= set cn_locking (fun _ => true) |>
      <| k_hw := mkHw true 0 1 (replicate 8 (mkCpu 0 0 false None)) (<[LCons := unlocked]> ∅) |>.

(** "pid %d%%" with the argument -7 *)
Lemma cprintf_prints_witness :
  exists s', cprintf [112; 105; 100; 32; 37; 100; 37; 37] [AInt 4294967289] con_demo = Ok tt s' /\
    cn_uart (k_cons s') = [112; 105; 100; 32; 45; 55; 37].
Proof.
  destruct (cprintf_prints 0 (mkCpu 0 0 false None) [112; 105; 100; 32; 37; 100; 37; 37]
    [AInt 4294967289] [112; 105; 100; 32; 45; 55; 37] con_demo) as (s' & H & _ & _ & Hu & _).
  - split_and!; [reflexivity|reflexivity|discriminate|discriminate].
  - reflexivity.
  - split; [reflexivity|split; [discriminate|reflexivity]].
  - vm_compute. reflexivity.
  - exists s'. split; [exact H|exact Hu].
Defined.
