(* ===== verification/Hist.v ===== *)
(** * The system-call history (proc.c)

    [push_p_hist] records, per system call, the pids of the last [PROC_HIST_SIZE]
    callers in a ring; [get_callers] prints them. *)

From stdpp Require Import gmap.
From S2P Require Import Prelude Outcome Kernel Spinlock Cprintf.

Definition PROC_HIST_SIZE : Z := 1000.

(** [p_hist[n]] *)
Definition p_hist_get (n : Z) : K syscall_hist :=
  if n <? 0 then fault else hs ← gets k_hist; deref (hs !! Z.to_nat n).

(** The index [size % PROC_HIST_SIZE] is negative after an overflow of [size]. *)
Definition push_p_hist (pid syscall_number : Z) : K unit :=
  h ← p_hist_get syscall_number;
  let cur_size := Z.rem (h_size h) PROC_HIST_SIZE in
  if (cur_size <? 0) then fault else
  modify (fun s => s <| k_hist ::=
    <[Z.to_nat syscall_number := h <| h_pids ::= <[Z.to_nat cur_size := pid]> |>
                                   <| h_size := i32 (h_size h + 1) |>]> |>).

(** The loop prints at most [PROC_HIST_SIZE] pids. *)
Fixpoint get_callers_loop (fuel : nat) (syscall_number i limit : Z) : K unit :=
  match fuel with
  | O => spin
  | S fuel =>
    h ← p_hist_get syscall_number;
    pid ← (if i <? 0 then fault else deref (h_pids h !! Z.to_nat i));
    cprintf (bytes "%d") [AInt pid];;
    let i := Z.rem (i + 1) PROC_HIST_SIZE in
    if i =? limit then ret tt
    else cprintf (bytes ", ") [];; get_callers_loop fuel syscall_number i limit
  end.

Definition get_callers (syscall_number : Z) : K unit :=
  h ← p_hist_get syscall_number;
  let limit := h_size h in
  if limit =? 0 then
    cprintf (bytes "No process has called system call number %d." ++ [10]) [AInt syscall_number]
  else
    let i := if PROC_HIST_SIZE <? limit then Z.rem limit PROC_HIST_SIZE else 0 in
    let limit := Z.rem limit PROC_HIST_SIZE in
    get_callers_loop (Z.to_nat PROC_HIST_SIZE) syscall_number i limit;;
    cprintf [10] [].

(** ** The history as a list of calls *)

(** The ring [h] holds the last calls of [l], the most recent last. *)
Definition hist_rep (h : syscall_hist) (l : list Z) : Prop :=
  h_size h = Z.of_nat (length l) /\ length (h_pids h) = 1000%nat /\
  forall j, (length l <= j + 1000)%nat -> (j < length l)%nat -> h_pids h !! (j mod 1000)%nat = l !! j.

(** The numerals of the pids, separated by commas. *)
Fixpoint callers_text (l : list Z) : list Z :=
  match l with
  | [] => []
  | [pid] => printint_chars (i32 pid) 10 true
  | pid :: l => printint_chars (i32 pid) 10 true ++ bytes ", " ++ callers_text l
  end.

Definition last_calls (l : list Z) : list Z := drop (length l - 1000) l.

Lemma hist_rep_push h l pid :
  hist_rep h l ->
  hist_rep (h <| h_pids ::= <[(length l mod 1000)%nat := pid]> |> <| h_size := Z.of_nat (S (length l)) |>)
    (l ++ [pid]).
Proof.
  intros (Hs & Hlen & Hr). assert (Hm : (length l mod 1000 < 1000)%nat) by (apply Nat.mod_upper_bound; lia).
  split_and!; [rewrite length_app; simpl; lia|rsimpl; by rewrite length_insert|].
  intros j Hj Hj'. rewrite length_app in Hj, Hj'. simpl in Hj, Hj'. rsimpl.
  destruct (decide (j = length l)) as [->|Hne].
  - rewrite list_lookup_insert_eq by lia. by rewrite lookup_app_r, Nat.sub_diag by lia.
  - rewrite list_lookup_insert_ne, lookup_app_l by lia || (intros E;
      pose proof (Nat.div_mod_eq j 1000); pose proof (Nat.div_mod_eq (length l) 1000); nia).
    apply Hr; lia.
Qed.

Lemma p_hist_get_ok n h s :
  0 <= n -> k_hist s !! Z.to_nat n = Some h -> p_hist_get n s = Ok h s.
Proof.
  intros Hn Hh. unfold p_hist_get. rewrite (proj2 (Z.ltb_ge n 0)) by lia. mstep. by rewrite Hh.
Qed.

Lemma push_p_hist_ok n h l pid s :
  0 <= n -> k_hist s !! Z.to_nat n = Some h -> hist_rep h l -> Z.of_nat (length l) < 2147483647 ->
  exists h', push_p_hist pid n s = Ok tt (s <| k_hist ::= <[Z.to_nat n := h']> |>) /\
    hist_rep h' (l ++ [pid]).
Proof.
  intros Hn Hh Hr Hb. eexists. split; [|exact (hist_rep_push h l pid Hr)].
  unfold push_p_hist. mstep by (by apply p_hist_get_ok). destruct Hr as (Hs & _).
  assert (E : Z.rem (h_size h) PROC_HIST_SIZE = Z.of_nat (length l mod 1000)).
  { rewrite Hs, Z.rem_mod_nonneg by (unfold PROC_HIST_SIZE; lia). by rewrite Nat2Z.inj_mod. }
  cbv zeta. rewrite E, (proj2 (Z.ltb_ge _ 0)), Nat2Z.id by lia. unfold modify. do 4 f_equal.
  rewrite Hs, i32_id by lia. f_equal. rewrite Nat2Z.inj_succ. by rewrite Z.add_1_r.
Qed.

Lemma callers_text_cons pid l :
  callers_text (pid :: l) =
  printint_chars (i32 pid) 10 true ++ (if l is [] then [] else bytes ", " ++ callers_text l).
Proof. destruct l; simpl; [by rewrite app_nil_r|done]. Qed.

Lemma next_index j : Z.rem (Z.of_nat (j mod 1000) + 1) PROC_HIST_SIZE = Z.of_nat (S j mod 1000).
Proof.
  rewrite Z.rem_mod_nonneg by (unfold PROC_HIST_SIZE; lia). rewrite !Nat2Z.inj_mod. unfold PROC_HIST_SIZE.
  rewrite Zplus_mod_idemp_l. f_equal. lia.
Qed.

Lemma get_callers_loop_ok fuel num h l j i c s :
  0 <= num -> k_hist s !! Z.to_nat num = Some h -> hist_rep h l ->
  (j < length l)%nat -> (length l <= j + 1000)%nat -> (length l - j <= fuel)%nat ->
  CpuOk i c (k_hw s) -> free LCons (k_hw s) -> con_ok (k_cons s) ->
  exists s', get_callers_loop fuel num (Z.of_nat (j mod 1000)) (Z.of_nat (length l mod 1000)) s = Ok tt s' /\
    printed i (callers_text (drop j l)) s s'.
Proof.
  intros Hnum Hh Hr. revert j c s Hh. induction fuel as [|fuel IH]; intros j c s Hh Hj Hj' Hf HC Hfree Hc; [lia|].
  destruct (lookup_lt_is_Some_2 l j) as [pid Hp]; [done|]. cbn [get_callers_loop].
  mstep by (by apply p_hist_get_ok). rewrite (proj2 (Z.ltb_ge _ 0)), Nat2Z.id by lia.
  destruct Hr as (Hs & Hlen & Hring). rewrite (Hring j), Hp by lia. cbn [deref]. mstep.
  destruct (cprintf_printed i c (bytes "%d") [AInt pid] (printint_chars (i32 pid) 10 true) s)
    as (s1 & H1 & P1); [done..| |].
  { change (render (bytes "%d") [AInt pid]) with (Some (printint_chars (i32 pid) 10 true ++ [])).
    by rewrite app_nil_r. }
  mstep with (H1). cbv zeta. rewrite next_index, (drop_S _ _ _ Hp), callers_text_cons.
  destruct (Z.eqb_spec (Z.of_nat (S j mod 1000)) (Z.of_nat (length l mod 1000))) as [E|E].
  - assert (S j = length l).
    { apply Nat2Z.inj in E. pose proof (Nat.div_mod_eq (S j) 1000).
      pose proof (Nat.div_mod_eq (length l) 1000). nia. }
    rewrite drop_ge by lia. rewrite app_nil_r. by exists s1.
  - assert (S j < length l)%nat.
    { destruct (decide (S j = length l)) as [E'|]; [by rewrite E' in E|lia]. }
    destruct P1 as ((c1 & HC1) & Hl1 & Hc1 & He1 & Hs1).
    assert (Hf1 : free LCons (k_hw s1)) by (unfold free; by rewrite Hl1).
    destruct (cprintf_printed i c1 (bytes ", ") [] (bytes ", ") s1) as (s2 & H2 & P2); [done..|].
    mstep with (H2). destruct P2 as ((c2 & HC2) & Hl2 & Hc2 & He2 & Hs2).
    destruct (IH (S j) c2 s2) as (s3 & H3 & P3); [|lia..|done| |done|].
    { rewrite Hs2, Hs1. done. }
    { unfold free. by rewrite Hl2, Hl1. }
    exists s3. split; [exact H3|]. destruct (drop (S j) l) as [|x r] eqn:Ed.
    { apply (f_equal length) in Ed. rewrite length_drop in Ed. simpl in Ed. lia. }
    eapply printed_trans; [by split_and!; [exists c1| | | |]|].
    eapply printed_trans; [|exact P3]. by split_and!; [exists c2| | | |].
Qed.

Lemma hist_rep_zero : hist_rep zero_hist [].
Proof. split_and!; [done|done|]. simpl. lia. Qed.

Lemma push_all_ok n h l pids s :
  0 <= n -> k_hist s !! Z.to_nat n = Some h -> hist_rep h l ->
  Z.of_nat (length l + length pids) < 2147483648 ->
  exists h' s', foreach pids (fun pid => push_p_hist pid n) s = Ok tt s' /\
    s' = s <| k_hist := k_hist s' |> /\ k_hist s' !! Z.to_nat n = Some h' /\ hist_rep h' (l ++ pids).
Proof.
  intros Hn. revert h l s. induction pids as [|pid pids IH]; intros h l s Hh Hr Hb; cbn [foreach].
  { exists h, s. rewrite app_nil_r. split_and!; [done|by destruct s|done|done]. }
  simpl length in Hb. destruct (push_p_hist_ok n h l pid s) as (h1 & H1 & Hr1); [done..|lia|].
  mstep with (H1). destruct (IH h1 (l ++ [pid]) (s <| k_hist ::= <[Z.to_nat n := h1]> |>))
    as (h2 & s2 & H2 & Hs2 & Hh2 & Hr2).
  - rsimpl. apply list_lookup_insert_eq. by eapply lookup_lt_Some.
  - done.
  - rewrite length_app. simpl. lia.
  - exists h2, s2. rewrite <- app_assoc in Hr2. split_and!; [done| |done|done].
    rewrite Hs2. by destruct s, s2.
Qed.

(** The message printed for the calls [l]. *)
Definition report (n : Z) (l : list Z) : list Z :=
  if l is [] then bytes "No process has called system call number " ++ printint_chars (i32 n) 10 true ++ [46; 10]
  else callers_text (last_calls l) ++ [10].

(** ** Properties *)

(** The history is faithful for every number of calls that fits an [int]: after the
    calls of the processes [pids], in that order, [get_callers] prints exactly the
    last [PROC_HIST_SIZE] of them, the oldest first, or says that there was none; it
    always returns. *)
Theorem get_callers_prints_last n pids i c s :
  0 <= n -> k_hist s !! Z.to_nat n = Some zero_hist -> Z.of_nat (length pids) < 2147483648 ->
  CpuOk i c (k_hw s) -> free LCons (k_hw s) -> con_ok (k_cons s) ->
  exists s1 s2, foreach pids (fun pid => push_p_hist pid n) s = Ok tt s1 /\
    get_callers n s1 = Ok tt s2 /\ printed i (report n pids) s1 s2.
Proof.
  intros Hn Hh Hb HC Hf Hc.
  destruct (push_all_ok n zero_hist [] pids s) as (h & s1 & H1 & Hs1 & Hh1 & Hr);
    [done..|apply hist_rep_zero|simpl; lia|].
  assert (Hhw : k_hw s1 = k_hw s) by (rewrite Hs1; done).
  assert (Hcon : k_cons s1 = k_cons s) by (rewrite Hs1; done).
  exists s1. simpl in Hr. unfold get_callers. rewrite <- Hhw in HC, Hf. rewrite <- Hcon in Hc.
  destruct pids as [|p pids]; simpl in Hr.
  - destruct (cprintf_printed i c (bytes "No process has called system call number %d." ++ [10])
      [AInt n] (report n []) s1) as (s2 & H2 & P2); [done..|].
    exists s2. split_and!; [done| |done]. mstep by (by apply p_hist_get_ok).
    destruct Hr as (Hs & _). rewrite Hs. exact H2.
  - assert (Hl : exists m, length (p :: pids) = S m) by (by eexists).
    unfold report, last_calls. remember (p :: pids) as l eqn:El. clear El. destruct Hl as [m Hm].
    set (start := (length l - 1000)%nat).
    destruct (get_callers_loop_ok 1000 n h l start i c s1) as (s2 & H2 & P2); try done; [lia..|].
    pose proof P2 as ((c2 & HC2) & Hl2 & Hc2 & _).
    destruct (cprintf_printed i c2 [10] [] [10] s2) as (s3 & H3 & P3);
      [done|by unfold free; rewrite Hl2|done|done|].
    exists s3. split_and!; [done| |by eapply printed_trans].
    mstep by (by apply p_hist_get_ok). destruct Hr as (Hs & _). rewrite Hs. cbv zeta.
    rewrite (proj2 (Z.eqb_neq _ 0)) by lia.
    assert (E1 : (if PROC_HIST_SIZE <? Z.of_nat (length l) then Z.rem (Z.of_nat (length l)) PROC_HIST_SIZE
             else 0) = Z.of_nat (start mod 1000)).
    { unfold start, PROC_HIST_SIZE. destruct (Z.ltb_spec 1000 (Z.of_nat (length l))).
      - rewrite Z.rem_mod_nonneg by lia. rewrite Nat2Z.inj_mod, Nat2Z.inj_sub by lia.
        replace (Z.of_nat (length l) - Z.of_nat 1000) with (Z.of_nat (length l) + (-1) * 1000) by lia.
        by rewrite Z.mod_add.
      - by replace (length l - 1000)%nat with 0%nat by lia. }
    assert (E2 : Z.rem (Z.of_nat (length l)) PROC_HIST_SIZE = Z.of_nat (length l mod 1000)).
    { rewrite Z.rem_mod_nonneg by (unfold PROC_HIST_SIZE; lia). by rewrite Nat2Z.inj_mod. }
    rewrite E1, E2. mstep with (H2). exact H3.
Qed.

Lemma get_callers_prints_last_witness :
  exists s1 s2, foreach [12; 7] (fun pid => push_p_hist pid 3) con_demo = Ok tt s1 /\
    get_callers 3 s1 = Ok tt s2 /\ k_cons s2 = emits (bytes "12, 7" ++ [10]) (k_cons s1).
Proof.
  destruct (get_callers_prints_last 3 [12; 7] 0 (mkCpu 0 0 false None) con_demo) as (s1 & s2 & H1 & H2 & H3).
  - lia.
  - reflexivity.
  - reflexivity.
  - split_and!; [reflexivity|reflexivity|discriminate|discriminate].
  - reflexivity.
  - split; [reflexivity|split; [discriminate|reflexivity]].
  - exists s1, s2. split; [exact H1|]. split; [exact H2|]. destruct H3 as (_ & _ & _ & H3 & _).
    rewrite H3. f_equal.
Defined.
