(* ===== verification/Info.v ===== *)
(** * Process listings (proc.c)

    [procdump], which the console runs on ^P, and [print_process_info], which
    [semaphore_acquire] runs each time a process is about to wait.  [printspaces],
    [digitcount] and [strlen] are not among the sources and are parameters
    ([Utils]). *)

From stdpp Require Import gmap.
From S2P Require Import Prelude Outcome Kernel Spinlock Kalloc Proc Cprintf.

Class Utils : Type := {
  printspaces : Z -> K unit;
  digitcount : Z -> Z;
  strlen : list Z -> Z }.


(** Entries of the table that are in use. *)
Definition in_use (p : proc) : bool := negb (bool_decide (p_state p = UNUSED)).

Definition dump_state (st : procstate) : list Z :=
  bytes match st with
        | UNUSED => "unused" | EMBRYO => "embryo" | SLEEPING => "sleep "
        | RUNNABLE => "runble" | RUNNING => "run   " | ZOMBIE => "zombie"
        end.

(** [for(i=0; i<10 && pc[i] != 0; i++)] *)
Fixpoint nonzero_prefix (l : list Z) : list Z :=
  match l with
  | [] => []
  | x :: l => if x =? 0 then [] else x :: nonzero_prefix l
  end.

Definition procdump : K unit :=
  foreach (seq 0 NPROC) (fun i =>
    p ← proc_get i;
    if negb (in_use p) then ret tt else
    cprintf (bytes "%d %s %s") [AInt (p_pid p); AStr (Some (dump_state (p_state p)));
                                AStr (Some (cstr (p_name p)))];;
    when (bool_decide (p_state p = SLEEPING))
      (mem ← gets k_mem;
       foreach (nonzero_prefix (getcallerpcs (load32 mem) (u32 (cx_ebp (p_ctx p) + 8))))
         (fun pc => cprintf (bytes " %p") [AInt pc]));;
    cprintf [10] []).

Definition info_state (st : procstate) : list Z :=
  bytes match st with
        | UNUSED => "unused" | EMBRYO => "embryo" | SLEEPING => "sleeping"
        | RUNNABLE => "runnable" | RUNNING => "running" | ZOMBIE => "zombie"
        end.

Section Info.
Context {utils : Utils}.

(** One line of the listing. *)
Definition info_line (p : proc) : K unit :=
  cprintf (bytes "%s") [AStr (Some (cstr (p_name p)))];;
  printspaces (16 - strlen (p_name p));;
  cprintf (bytes "%d") [AInt (p_pid p)];;
  printspaces (8 - digitcount (p_pid p));;
  cprintf (bytes "%s") [AStr (Some (info_state (p_state p)))];;
  printspaces (9 - strlen (info_state (p_state p)));;
  cprintf (bytes "%d") [AInt (priority (p_sched p))];;
  printspaces (8 - digitcount (priority (p_sched p)));;
  cprintf (bytes "%d") [AInt (place (p_sched p))];;
  printspaces (8 - digitcount (place (p_sched p)));;
  cprintf [10] [].

Definition print_process_info : K unit :=
  cprintf (bytes "Process_Name    PID     State    Prio   Place" ++ [10] ++
           bytes "------------------------------------------------------" ++ [10]) [];;
  foreach (seq 0 NPROC) (fun i =>
    p ← proc_get i;
    if negb (in_use p) then ret tt else info_line p).

(** ** Listings only print *)

(** [m], run inside a section with interrupts off, prints and does nothing else. *)
Definition only_prints (m : K unit) : Prop :=
  forall i c s, CpuOk i c (k_hw s) -> 0 < c_ncli c -> free LCons (k_hw s) -> con_ok (k_cons s) ->
    length (k_procs s) = NPROC -> exists l, m s = Ok tt (s <| k_cons ::= emits l |>).

Lemma only_prints_cprintf fmt args l : render fmt args = Some l -> only_prints (cprintf fmt args).
Proof.
  intros Hr i c s HC Hn Hf Hc _. exists l. rewrite (cprintf_ok i c fmt args l) by done.
  unfold cons_section. destruct (cn_locking (k_cons s)); [|done].
  by rewrite touch_id by (by apply touched_nested).
Qed.

Lemma only_prints_bind (m k : K unit) : only_prints m -> only_prints k -> only_prints (m ;; k).
Proof.
  intros Hm Hk i c s HC Hn Hf Hc Hlen. destruct (Hm i c s HC Hn Hf Hc Hlen) as (l1 & H1). mstep with (H1).
  destruct (Hk i c (s <| k_cons ::= emits l1 |>)) as (l2 & H2); [done..|by apply con_ok_emits|done|].
  exists (l1 ++ l2). by rewrite H2, kcons_emits_app.
Qed.

Lemma only_prints_foreach {A} (body : A -> K unit) l :
  (forall a, a ∈ l -> only_prints (body a)) -> only_prints (foreach l body).
Proof.
  induction l as [|a l IH]; intros Hb; simpl.
  - intros i c s _ _ _ _ _. exists []. by destruct s.
  - apply only_prints_bind; [apply Hb; by left|]. apply IH. intros b Hb'. apply Hb. by right.
Qed.

Lemma only_prints_info_line p :
  (forall n, only_prints (printspaces n)) -> only_prints (info_line p).
Proof.
  intros Hsp. unfold info_line.
  repeat (apply only_prints_bind; [first [apply Hsp|eapply only_prints_cprintf; reflexivity]|]).
  eapply only_prints_cprintf. reflexivity.
Qed.

Lemma only_prints_info :
  (forall n, only_prints (printspaces n)) -> only_prints print_process_info.
Proof.
  intros Hsp. apply only_prints_bind; [eapply only_prints_cprintf; vm_compute; reflexivity|].
  apply only_prints_foreach. intros a Ha%elem_of_seq i c s HC Hn Hf Hc Hlen.
  destruct (lookup_lt_is_Some_2 (k_procs s) a) as [p Hp]; [lia|]. mstep by (by apply proc_get_ok).
  destruct (negb (in_use p)); [exists []; by destruct s|].
  by apply (only_prints_info_line p Hsp i c).
Qed.
End Info.
