(* ===== verification/Sem.v ===== *)
(** * Semaphores (proc.c, semaphore.h)

    The counting semaphores [sems], whose waiting processes are kept in an array that
    [semaphore_acquire] sorts by priority.  A [struct semaphore *] is the index of the
    semaphore. *)

From stdpp Require Import gmap sorting.
From S2P Require Import Prelude Outcome Kernel Spinlock Kalloc Proc Cprintf Info.

Definition sem_get (i : nat) : K semaphore := l ← gets k_sems; deref (l !! i).
Definition sem_upd (i : nat) (f : semaphore -> semaphore) : K unit :=
  modify (fun s => s <| k_sems ::= alter f i |>).

(** [sem->waiting[j]] and a store to it; outside the array is a fault. *)
Definition waiting_get (i : nat) (j : Z) : K (option nat) :=
  sem ← sem_get i;
  if j <? 0 then fault else deref (sem_waiting sem !! Z.to_nat j).
Definition waiting_set (i : nat) (j : Z) (p : option nat) : K unit :=
  sem ← sem_get i;
  if (j <? 0) || (Z.of_nat NPROC <=? j) then fault
  else sem_upd i (fun sem => sem <| sem_waiting ::= <[Z.to_nat j := p]> |>).

Definition semaphore_init (i : nat) (value : Z) : K unit :=
  sem_upd i (fun sem => sem <| sem_value := value |>);;
  initlock (LSem i);;
  sem_upd i (fun sem => sem <| sem_waiting := replicate NPROC None |>
                            <| sem_wfirst := 0 |> <| sem_wlast := 0 |>).

(** [sem->waiting[i]->schedule_status.priority < sem->waiting[j]->schedule_status.priority] *)
Definition waits_behind (i : nat) (a b : Z) : K bool :=
  p ← waiting_get i a;
  p ← deref p;
  p ← proc_get p;
  q ← waiting_get i b;
  q ← deref q;
  q ← proc_get q;
  ret (priority (p_sched p) <? priority (p_sched q)).

Definition waiting_swap (i : nat) (a b : Z) : K unit :=
  temp ← waiting_get i a;
  q ← waiting_get i b;
  waiting_set i a q;;
  waiting_set i b temp.

Definition sort_waiting (i : nat) : K unit :=
  sem ← sem_get i;
  foreach (zrange (sem_wfirst sem) (sem_wlast sem - 1)) (fun a =>
    foreach (zrange (a + 1) (sem_wlast sem)) (fun b =>
      lt ← waits_behind i a b;
      when lt (waiting_swap i a b))).

Definition set_places (i : nat) : K unit :=
  sem ← sem_get i;
  foreach (zrange 0 (sem_wlast sem)) (fun a =>
    acquire LPtable;;
    p ← waiting_get i a;
    p ← deref p;
    proc_upd p (fun p => p <| p_sched ::= fun st => st <| place := a |> |>);;
    release LPtable).

Section Sem.
Context {utils : Utils}.

(** The body of the conditional in [semaphore_acquire]: queue up and sleep. *)
Definition semaphore_wait (i : nat) (wlast : Z) : K unit :=
  p ← myproc;
  waiting_set i wlast p;;
  sem_upd i (fun sem => sem <| sem_wlast := (wlast + 1) mod Z.of_nat NPROC |>);;
  sort_waiting i;;
  set_places i;;
  acquire LPtable;;
  print_process_info;;
  release LPtable;;
  sleep (CSem i) (LSem i).

Definition semaphore_acquire (i : nat) (prio : Z) : K unit :=
  acquire (LSem i);;
  sem_upd i (fun sem => sem <| sem_value ::= fun v => i32 (v - 1) |>);;
  sem ← sem_get i;
  when (sem_value sem <? 0) (semaphore_wait i (sem_wlast sem));;
  release (LSem i).
End Sem.

Definition semaphore_release (i : nat) : K unit :=
  acquire (LSem i);;
  sem_upd i (fun sem => sem <| sem_value ::= fun v => i32 (v + 1) |>);;
  sem ← sem_get i;
  when (sem_value sem <=? 0)
    (p ← waiting_get i (sem_wfirst sem);
     wakeupproc p;;
     waiting_set i (sem_wfirst sem) None;;
     sem_upd i (fun sem => sem <| sem_wfirst := (sem_wfirst sem + 1) mod Z.of_nat NPROC |>));;
  release (LSem i).

(** The system calls index [sems] without a check. *)
Definition sems_at (id : Z) : K nat :=
  if (id <? 0) || (Z.of_nat NSEMS <=? id) then fault else ret (Z.to_nat id).
Definition sem_init (id value : Z) : K unit := i ← sems_at id; semaphore_init i value.
Definition sem_acquire {utils : Utils} (id prio : Z) : K unit :=
  i ← sems_at id; semaphore_acquire i prio.
Definition sem_release (id : Z) : K unit := i ← sems_at id; semaphore_release i.

(** ** The sort *)

Section Sort.
Context (prio : nat -> Z).

(** The inner loop: [x] against the elements after it. *)
Fixpoint exchange (x : nat) (r : list nat) : nat * list nat :=
  match r with
  | [] => (x, [])
  | y :: r =>
    if prio x <? prio y then let '(m, r) := exchange y r in (m, x :: r)
    else let '(m, r) := exchange x r in (m, y :: r)
  end.

Fixpoint exchange_sort (n : nat) (l : list nat) : list nat :=
  match n, l with
  | S n, x :: r => let '(m, r) := exchange x r in m :: exchange_sort n r
  | _, _ => l
  end.

Lemma exchange_spec x r m r' :
  exchange x r = (m, r') ->
  m :: r' ≡ₚ x :: r /\ length r' = length r /\ prio x <= prio m /\ Forall (fun y => prio y <= prio m) r'.
Proof.
  revert x m r'. induction r as [|y r IH]; intros x m r' H; simpl in H; [by simplify_eq|].
  destruct (Z.ltb_spec (prio x) (prio y)) as [Hlt|Hge].
  - destruct (exchange y r) as [m1 r1] eqn:E. simplify_eq. destruct (IH _ _ _ E) as (Hp & Hl & Hm & Hf).
    split_and!; [|simpl; lia|lia|constructor; [lia|done]].
    by rewrite Permutation_swap, Hp.
  - destruct (exchange x r) as [m1 r1] eqn:E. simplify_eq. destruct (IH _ _ _ E) as (Hp & Hl & Hm & Hf).
    split_and!; [|simpl; lia|lia|constructor; [lia|done]].
    rewrite Permutation_swap, Hp. apply Permutation_swap.
Qed.

(** Highest priority first. *)
Definition by_priority (x y : nat) : Prop := prio y <= prio x.

Lemma exchange_sort_spec n l :
  (length l <= n)%nat -> exchange_sort n l ≡ₚ l /\ StronglySorted by_priority (exchange_sort n l).
Proof.
  revert l. induction n as [|n IH]; intros l Hl; destruct l as [|x r]; simpl in *;
    [split; [done|constructor]|lia|split; [done|constructor]|].
  destruct (exchange x r) as [m r'] eqn:E. destruct (exchange_spec _ _ _ _ E) as (Hp & Hlen & _ & Hf).
  destruct (IH r') as [Hp' Hs]; [lia|]. split; [by rewrite Hp'|]. constructor; [done|].
  by rewrite Hp'.
Qed.
End Sort.

(** ** The sort in place *)

(** The state with [w] in the waiting array of semaphore [i]. *)
Definition with_waiting (i : nat) (w : list (option nat)) (s : kstate) : kstate :=
  s <| k_sems ::= alter (fun sem => sem <| sem_waiting := w |>) i |>.

(** The priority of the process in slot [p]. *)
Definition prio_of (ps : list proc) (p : nat) : Z := default 0 (priority ∘ p_sched <$> ps !! p).

Lemma sem_get_ok i sem s : k_sems s !! i = Some sem -> sem_get i s = Ok sem s.
Proof. intros H. unfold sem_get. mstep. by rewrite H. Qed.

Lemma waiting_at_ok i sem j v s :
  k_sems s !! i = Some sem -> sem_waiting sem !! Z.to_nat j = Some v -> 0 <= j ->
  waiting_get i j s = Ok v s.
Proof.
  intros Hs Hv Hj. unfold waiting_get. mstep by (by apply sem_get_ok).
  rewrite (proj2 (Z.ltb_ge j 0)) by lia. by rewrite Hv.
Qed.

Section InPlace.
Context (i : nat) (sem : semaphore) (s : kstate) (Hsem : k_sems s !! i = Some sem).

Lemma sem_lookup_with w : k_sems (with_waiting i w s) !! i = Some (sem <| sem_waiting := w |>).
Proof. unfold with_waiting. rsimpl. by rewrite list_lookup_alter_eq, Hsem. Qed.

Lemma sem_get_with w : sem_get i (with_waiting i w s) = Ok (sem <| sem_waiting := w |>) (with_waiting i w s).
Proof. apply sem_get_ok, sem_lookup_with. Qed.

Lemma waiting_get_ok w j v :
  w !! Z.to_nat j = Some v -> 0 <= j -> waiting_get i j (with_waiting i w s) = Ok v (with_waiting i w s).
Proof. intros Hv Hj. eapply waiting_at_ok; [apply sem_lookup_with|done|done]. Qed.

Lemma waiting_set_ok w j v :
  0 <= j < Z.of_nat NPROC ->
  waiting_set i j v (with_waiting i w s) = Ok tt (with_waiting i (<[Z.to_nat j := v]> w) s).
Proof.
  intros Hj. unfold waiting_set. mstep by (apply sem_get_with).
  rewrite (proj2 (Z.ltb_ge j 0)), (proj2 (Z.leb_gt _ j)) by lia. simpl. unfold sem_upd, modify, with_waiting.
  f_equal. apply kstate_ext; rsimpl; try reflexivity. apply list_eq. intros k.
  destruct (decide (i = k)) as [<-|Hne].
  - by rewrite !list_lookup_alter_eq, Hsem.
  - by rewrite !list_lookup_alter_ne.
Qed.
(** Positions of the array that hold processes of the table. *)
Definition waiters (w : list (option nat)) (a : Z) (q : list nat) : Prop :=
  forall k p, q !! k = Some p -> w !! Z.to_nat (a + Z.of_nat k) = Some (Some p) /\ is_Some (k_procs s !! p).

Lemma waits_behind_ok w a b x y :
  0 <= a -> 0 <= b -> w !! Z.to_nat a = Some (Some x) -> w !! Z.to_nat b = Some (Some y) ->
  is_Some (k_procs s !! x) -> is_Some (k_procs s !! y) ->
  waits_behind i a b (with_waiting i w s) =
    Ok (prio_of (k_procs s) x <? prio_of (k_procs s) y) (with_waiting i w s).
Proof.
  intros Ha Hb Hx Hy [p Hp] [q Hq]. unfold waits_behind.
  mstep by (by apply waiting_get_ok). cbn [deref]. mstep. mstep by (by apply proc_get_ok).
  mstep by (by apply waiting_get_ok). cbn [deref]. mstep. mstep by (by apply proc_get_ok).
  unfold prio_of. by rewrite Hp, Hq.
Qed.

Lemma waiting_swap_ok w a b x y :
  0 <= a < Z.of_nat NPROC -> 0 <= b < Z.of_nat NPROC ->
  w !! Z.to_nat a = Some x -> w !! Z.to_nat b = Some y ->
  waiting_swap i a b (with_waiting i w s) =
    Ok tt (with_waiting i (<[Z.to_nat b := x]> (<[Z.to_nat a := y]> w)) s).
Proof.
  intros Ha Hb Hx Hy. unfold waiting_swap.
  mstep by (apply waiting_get_ok; [done|lia]). mstep by (apply waiting_get_ok; [done|lia]).
  mstep by (by apply waiting_set_ok). by rewrite waiting_set_ok.
Qed.

Lemma insert_mid {A} (l1 l2 : list A) x y n :
  n = length l1 -> <[n := y]> (l1 ++ x :: l2) = l1 ++ y :: l2.
Proof. intros ->. rewrite insert_app_r_alt, Nat.sub_diag by lia. done. Qed.

Lemma lookup_mid {A} (l1 l2 : list A) x n : n = length l1 -> (l1 ++ x :: l2) !! n = Some x.
Proof. intros ->. by apply list_lookup_middle. Qed.

(** The inner loop, started after the elements [r1] have been compared. *)
Lemma inner_loop_ok pre x r1 r2 post a :
  a = Z.of_nat (length pre) -> (length pre + 1 + length r1 + length r2 + length post = NPROC)%nat ->
  Forall (fun p => is_Some (k_procs s !! p)) (x :: r1 ++ r2) ->
  let '(m, r2') := exchange (prio_of (k_procs s)) x r2 in
  foreach (zrange (a + 1 + Z.of_nat (length r1)) (a + 1 + Z.of_nat (length r1 + length r2)))
    (fun b => lt ← waits_behind i a b; when lt (waiting_swap i a b))
    (with_waiting i (pre ++ Some x :: map Some r1 ++ map Some r2 ++ post) s) =
  Ok tt (with_waiting i (pre ++ Some m :: map Some r1 ++ map Some r2' ++ post) s).
Proof.
  intros Ha. revert x r1. induction r2 as [|y r2 IH]; intros x r1 Hlen Hall; cbn [exchange].
  { rewrite zrange_nil by (simpl; lia). done. }
  rewrite zrange_cons by (simpl length; lia). cbn [foreach].
  set (w := pre ++ Some x :: map Some r1 ++ map Some (y :: r2) ++ post).
  assert (Hwa : w !! Z.to_nat a = Some (Some x)) by (apply lookup_mid; lia).
  assert (Hwe : w = (pre ++ Some x :: map Some r1) ++ Some y :: map Some r2 ++ post)
    by (unfold w; simpl; by rewrite <- app_assoc).
  set (b := a + 1 + Z.of_nat (length r1)).
  assert (Hb : Z.to_nat b = length (pre ++ Some x :: map Some r1)).
  { rewrite length_app. simpl. rewrite length_map. lia. }
  assert (Hwb : w !! Z.to_nat b = Some (Some y)) by (rewrite Hwe; by apply lookup_mid).
  apply Forall_cons in Hall as [Hx [Hr1 [Hy Hr2]%Forall_cons]%Forall_app].
  assert (Hbn : 0 <= a < Z.of_nat NPROC /\ 0 <= b < Z.of_nat NPROC) by (simpl in Hlen; lia).
  assert (Hnext : forall x' z, Forall (fun p => is_Some (k_procs s !! p)) (x' :: (r1 ++ [z]) ++ r2) ->
    let '(m, r2') := exchange (prio_of (k_procs s)) x' r2 in
    foreach (zrange (b + 1) (a + 1 + Z.of_nat (length r1 + length (y :: r2))))
      (fun b => lt ← waits_behind i a b; when lt (waiting_swap i a b))
      (with_waiting i (pre ++ Some x' :: map Some r1 ++ Some z :: map Some r2 ++ post) s) =
    Ok tt (with_waiting i (pre ++ Some m :: map Some r1 ++ map Some (z :: r2') ++ post) s)).
  { intros x' z Hall'. specialize (IH x' (r1 ++ [z])). rewrite length_app, map_app, <- !app_assoc in IH.
    simpl in IH. rewrite <- app_assoc in Hall'. simpl in Hall', Hlen.
    destruct (exchange _ x' r2) as [m r2']. rewrite <- app_assoc in IH. simpl in *.
    rewrite <- IH by (done || lia).
    do 2 f_equal; unfold b; lia. }
  erewrite bind_ok.
  2: { mstep by (apply (waits_behind_ok w a b x y); lia || done). instantiate (1 := with_waiting i
         (if prio_of (k_procs s) x <? prio_of (k_procs s) y
          then pre ++ Some y :: map Some r1 ++ Some x :: map Some r2 ++ post else w) s).
       instantiate (1 := tt). destruct (_ <? _); cbn [when]; [|done].
       rewrite (waiting_swap_ok w a b (Some x) (Some y)) by (done || lia). do 2 f_equal.
       rewrite (list_insert_insert_ne _ (Z.to_nat b)) by lia. rewrite Hwe, insert_mid by done.
       rewrite <- app_assoc. simpl. apply insert_mid. lia. }
  cbv beta. destruct (_ <? _).
  - specialize (Hnext y x). destruct (exchange _ y r2) as [m r2']. apply Hnext.
    constructor; [done|]. rewrite <- app_assoc. apply Forall_app; split; [done|by constructor].
  - specialize (Hnext x y). destruct (exchange _ x r2) as [m r2']. apply Hnext.
    constructor; [done|]. rewrite <- app_assoc. apply Forall_app; split; [done|by constructor].
Qed.

Lemma outer_loop_ok n pre q post wlast :
  n = length q -> wlast = Z.of_nat (length pre + length q) ->
  (length pre + length q + length post = NPROC)%nat ->
  Forall (fun p => is_Some (k_procs s !! p)) q ->
  foreach (zrange (Z.of_nat (length pre)) (wlast - 1)) (fun a =>
    foreach (zrange (a + 1) wlast) (fun b => lt ← waits_behind i a b; when lt (waiting_swap i a b)))
    (with_waiting i (pre ++ map Some q ++ post) s) =
  Ok tt (with_waiting i (pre ++ map Some (exchange_sort (prio_of (k_procs s)) n q) ++ post) s).
Proof.
  intros Hn Hw. revert pre q Hn Hw. induction n as [|n IH]; intros pre q Hn Hw Hlen Hall.
  { destruct q; [|done]. simpl in *. by rewrite zrange_nil by lia. }
  destruct q as [|x r]; [done|]. injection Hn as Hn. cbn [exchange_sort].
  pose proof (inner_loop_ok pre x [] r post (Z.of_nat (length pre)) eq_refl) as Hin.
  destruct (exchange _ x r) as [m r'] eqn:E. destruct (exchange_spec _ _ _ _ _ E) as (Hp & Hl' & _).
  assert (Hall' : Forall (fun p => is_Some (k_procs s !! p)) (m :: r')) by (by rewrite Hp).
  apply Forall_cons in Hall' as [_ Hall']. specialize (IH (pre ++ [Some m]) r').
  rewrite length_app, <- !app_assoc in IH. simpl in *. destruct r as [|y r].
  { destruct r'; [|done]. rewrite zrange_nil by (simpl in *; lia). subst n. simpl. simpl in E.
    simplify_eq. done. }
  rewrite zrange_cons by (simpl in *; lia). cbn [foreach].
  rewrite <- IH by (done || lia). erewrite bind_ok.
  2: { rewrite <- (Hin ltac:(lia) Hall). f_equal. f_equal; lia. }
  cbv beta. f_equal. f_equal; lia.
Qed.

End InPlace.

Lemma with_waiting_id i sem s : k_sems s !! i = Some sem -> with_waiting i (sem_waiting sem) s = s.
Proof.
  intros Hs. unfold with_waiting. apply kstate_ext; rsimpl; try reflexivity. apply list_eq. intros k.
  destruct (decide (i = k)) as [<-|Hne]; [|by rewrite list_lookup_alter_ne].
  rewrite list_lookup_alter_eq, Hs. by destruct sem.
Qed.

(** The waiting array holds the processes [q], from [wfirst] to [wlast], without
    wrapping around. *)
Definition queued (sem : semaphore) (pre : list (option nat)) (q : list nat) (post : list (option nat)) : Prop :=
  sem_waiting sem = pre ++ map Some q ++ post /\
  (length pre + length q + length post = NPROC)%nat /\
  sem_wfirst sem = Z.of_nat (length pre) /\ sem_wlast sem = Z.of_nat (length pre + length q).

Lemma sort_waiting_ok i sem pre q post s :
  k_sems s !! i = Some sem -> queued sem pre q post ->
  Forall (fun p => is_Some (k_procs s !! p)) q ->
  sort_waiting i s = Ok tt (with_waiting i
    (pre ++ map Some (exchange_sort (prio_of (k_procs s)) (length q) q) ++ post) s).
Proof.
  intros Hs (Hw & Hlen & Hf & Hl) Hall. unfold sort_waiting.
  rewrite <- (with_waiting_id i sem s Hs) at 1. mstep by (by apply sem_get_with). rsimpl.
  rewrite Hf, Hw, (outer_loop_ok i sem s Hs (length q)) by done. done.
Qed.

(** ** Waiting *)

(** The state with semaphore [i] equal to [sem]. *)
Definition put_sem (i : nat) (sem : semaphore) (s : kstate) : kstate :=
  s <| k_sems ::= <[i := sem]> |>.

Section PutSem.
Context (i : nat) (s : kstate) (Hi : is_Some (k_sems s !! i)).

Lemma sem_lookup_put sem : k_sems (put_sem i sem s) !! i = Some sem.
Proof. unfold put_sem. rsimpl. by apply list_lookup_insert_eq, lookup_lt_is_Some. Qed.

Lemma sem_get_put sem : sem_get i (put_sem i sem s) = Ok sem (put_sem i sem s).
Proof. unfold sem_get. mstep. by rewrite sem_lookup_put. Qed.

Lemma alter_put f sem : alter f i (<[i := sem]> (k_sems s)) = <[i := f sem]> (k_sems s).
Proof.
  apply list_eq. intros k. destruct (decide (i = k)) as [<-|Hne].
  - rewrite list_lookup_alter_eq, !list_lookup_insert_eq by (by apply lookup_lt_is_Some). done.
  - by rewrite list_lookup_alter_ne, !list_lookup_insert_ne.
Qed.

Lemma sem_upd_put f sem : sem_upd i f (put_sem i sem s) = Ok tt (put_sem i (f sem) s).
Proof.
  unfold sem_upd, modify, put_sem. f_equal. apply kstate_ext; rsimpl; try reflexivity. apply alter_put.
Qed.

Lemma with_waiting_put w sem :
  with_waiting i w (put_sem i sem s) = put_sem i (sem <| sem_waiting := w |>) s.
Proof.
  unfold with_waiting, put_sem. apply kstate_ext; rsimpl; try reflexivity. apply alter_put.
Qed.
End PutSem.

Lemma put_sem_id i sem s : k_sems s !! i = Some sem -> put_sem i sem s = s.
Proof.
  intros H. unfold put_sem. apply kstate_ext; rsimpl; try reflexivity. by apply list_insert_id.
Qed.

(** [ps'] is [ps] except for the places of some processes. *)
Definition same_but_place (ps ps' : list proc) : Prop :=
  Forall2 (fun p p' => exists n, p' = p <| p_sched ::= fun st => st <| place := n |> |>) ps ps'.

Lemma same_but_place_refl ps : same_but_place ps ps.
Proof.
  apply Forall_Forall2_diag, Forall_true. intros p. exists (place (p_sched p)).
  by destruct p as [? ? ? ? ? ? ? ? ? ? ? ? ? ? ? ? []].
Qed.

Lemma same_but_place_trans ps1 ps2 ps3 :
  same_but_place ps1 ps2 -> same_but_place ps2 ps3 -> same_but_place ps1 ps3.
Proof.
  apply Forall2_trans. intros p1 p2 p3 [n1 ->] [n2 ->]. by exists n2.
Qed.

Lemma same_but_place_alter ps j n :
  same_but_place ps (alter (fun p => p <| p_sched ::= fun st => st <| place := n |> |>) j ps).
Proof.
  apply Forall2_same_length_lookup_2; [by rewrite length_alter|]. intros k p p' Hp Hp'.
  destruct (decide (j = k)) as [<-|Hne].
  - rewrite list_lookup_alter_eq, Hp in Hp'. simplify_eq/=. by eexists.
  - rewrite list_lookup_alter_ne, Hp in Hp' by done. simplify_eq.
    exists (place (p_sched p')). by destruct p' as [? ? ? ? ? ? ? ? ? ? ? ? ? ? ? ? []].
Qed.

Lemma same_but_place_lookup ps ps' j p :
  same_but_place ps ps' -> ps !! j = Some p ->
  exists n, ps' !! j = Some (p <| p_sched ::= fun st => st <| place := n |> |>).
Proof.
  intros H Hp. destruct (Forall2_lookup_l _ _ _ _ _ H Hp) as (p' & Hp' & n & ->). by exists n.
Qed.

(** Inside a section with interrupts off and the table lock free, the places of the
    queue are set and nothing else happens. *)
Lemma set_places_loop_ok cp c i sem q l s :
  CpuOk cp c (k_hw s) -> 0 < c_ncli c -> free LPtable (k_hw s) -> k_sems s !! i = Some sem ->
  (forall a, a ∈ l -> 0 <= a /\ exists p, sem_waiting sem !! Z.to_nat a = Some (Some p) /\ p ∈ q) ->
  Forall (fun p => is_Some (k_procs s !! p)) q ->
  exists ps, foreach l (fun a =>
      acquire LPtable;; p ← waiting_get i a; p ← deref p;
      proc_upd p (fun p => p <| p_sched ::= fun st => st <| place := a |> |>);; release LPtable) s =
    Ok tt (s <| k_procs := ps |>) /\ same_but_place (k_procs s) ps.
Proof.
  intros HC Hn Hf Hs. revert s HC Hf Hs. induction l as [|a l IH]; intros s HC Hf Hs Hl Hq; cbn [foreach].
  { exists (k_procs s). split; [by destruct s|apply same_but_place_refl]. }
  destruct (Hl a) as (Ha & p & Hw & Hp); [by left|].
  set (f := fun p : proc => p <| p_sched ::= fun st => st <| place := a |> |>).
  erewrite bind_ok.
  2: { mstep by (apply (kacquire_ok cp c); done).
       mstep by (by apply (waiting_at_ok i sem)).
       cbn [deref]. unfold proc_upd. msteps. apply (krelease_ok cp c LPtable (k_hw s)); done. }
  cbv beta. rewrite touched_nested by done.
  match goal with |- context [foreach l _ ?s1] =>
    replace s1 with (s <| k_procs ::= alter f p |>) by (by destruct s) end.
  destruct (IH (s <| k_procs ::= alter f p |>)) as (ps & Hok & Hsp); [done..| | |].
  - intros b Hb. apply Hl. by right.
  - eapply Forall_impl; [exact Hq|]. intros r [pr Hr]. rsimpl. apply lookup_lt_is_Some.
    rewrite length_alter. apply lookup_lt_is_Some. by exists pr.
  - exists ps. split; [rewrite Hok; by destruct s|].
    eapply same_but_place_trans; [|exact Hsp]. apply same_but_place_alter.
Qed.

(** The semaphore after process [p] has queued up behind [q]. *)
Definition enqueued (ps : list proc) (p : nat) (pre : list (option nat)) (q : list nat)
    (post : list (option nat)) (sem : semaphore) : semaphore :=
  sem <| sem_waiting := pre ++ map Some (exchange_sort (prio_of ps) (S (length q)) (q ++ [p])) ++ post |>
      <| sem_wlast := sem_wlast sem + 1 |>.

Section Wait.
Context {utils : Utils} (cp : nat) (c : cpu) (p : nat) (i : nat).

Lemma semaphore_wait_enqueue sem pre q x post s :
  CpuOk cp c (k_hw s) -> 0 < c_ncli c -> c_proc c = Some p -> is_Some (k_procs s !! p) ->
  k_sems s !! i = Some sem -> queued sem pre q (x :: post) -> (0 < length post)%nat ->
  Forall (fun p => is_Some (k_procs s !! p)) q ->
  semaphore_wait i (sem_wlast sem) s =
    (set_places i;; acquire LPtable;; print_process_info;; release LPtable;; sleep (CSem i) (LSem i))
      (put_sem i (enqueued (k_procs s) p pre q post sem) s).
Proof.
  intros HC Hn Hp Hps Hs (Hw & Hlen & Hwf & Hwl) Hpost Hall. simpl in Hlen.
  assert (Hi : is_Some (k_sems s !! i)) by (by eexists).
  unfold semaphore_wait. mstep by (by apply (kmyproc_ok cp c)).
  rewrite touch_id, Hp by (by apply touched_nested).
  rewrite <- (with_waiting_id i sem s Hs) at 1. mstep by (apply (waiting_set_ok i sem s Hs); lia).
  rewrite Hw. rewrite (app_assoc pre), (insert_mid (pre ++ map Some q) post)
    by (rewrite length_app, length_map; lia).
  rewrite <- (put_sem_id i sem s Hs) at 1. rewrite with_waiting_put by done.
  mstep by (by apply sem_upd_put). erewrite bind_ok.
  2: { eapply (sort_waiting_ok i _ pre (q ++ [p]) post); [by apply sem_lookup_put| |].
       - split_and!; rsimpl; [by rewrite map_app, <- !app_assoc|rewrite length_app; simpl; lia|done|].
         rewrite Z.mod_small by lia. rewrite length_app. simpl. lia.
       - apply Forall_app. split; [done|]. by constructor. }
  cbv beta. rewrite with_waiting_put by done. f_equal. f_equal. unfold enqueued.
  destruct sem. unfold set. simpl. rewrite length_app, Nat.add_comm, Z.mod_small by (simpl in *; lia). done.
Qed.

(** The place of the array's first entry is set through a null pointer once a process
    has left the queue. *)
Lemma set_places_null sem s :
  CpuOk cp c (k_hw s) -> free LPtable (k_hw s) -> k_sems s !! i = Some sem ->
  sem_waiting sem !! 0%nat = Some None -> 0 < sem_wlast sem ->
  set_places i s = Fault.
Proof.
  intros HC Hf Hs Hw Hl. unfold set_places. mstep by (by apply sem_get_ok).
  rewrite zrange_cons by done. cbn [foreach]. apply bind_fault.
  mstep by (apply (kacquire_ok cp c); done). by mstep by (by apply (waiting_at_ok i sem)).
Qed.
End Wait.

Lemma semaphore_acquire_start {utils : Utils} cp c i prio sem s :
  CpuOk cp c (k_hw s) -> free (LSem i) (k_hw s) -> k_sems s !! i = Some sem ->
  semaphore_acquire i prio s =
    (when (i32 (sem_value sem - 1) <? 0) (semaphore_wait i (sem_wlast sem));; release (LSem i))
    (put_sem i (sem <| sem_value := i32 (sem_value sem - 1) |>)
       (s <| k_hw := acquired cp c (LSem i) (k_hw s) |>)).
Proof.
  intros HC Hf Hs. unfold semaphore_acquire. mstep by (apply (kacquire_ok cp c); done).
  set (s1 := s <| k_hw ::= acquired cp c (LSem i) |>).
  assert (Hi : is_Some (k_sems s1 !! i)) by (by exists sem).
  rewrite <- (put_sem_id i sem s1) at 1 by done. mstep by (by apply sem_upd_put).
  mstep by (by apply sem_get_put). done.
Qed.

(** The listing printed under [ptable.lock], in a section with interrupts off. *)
Lemma list_processes {utils : Utils} cp c (k : K unit) s :
  (forall n, only_prints (printspaces n)) ->
  CpuOk cp c (k_hw s) -> 0 < c_ncli c -> free LPtable (k_hw s) -> free LCons (k_hw s) ->
  con_ok (k_cons s) -> length (k_procs s) = NPROC ->
  exists l, (acquire LPtable;; print_process_info;; release LPtable;; k) s = k (s <| k_cons ::= emits l |>).
Proof.
  intros Hsp HC Hn HfP HfC Hcon Hlen. mstep by (apply (kacquire_ok cp c); done).
  destruct (only_prints_info Hsp cp (pushed_cpu (hw_if (k_hw s)) c) (s <| k_hw ::= acquired cp c LPtable |>))
    as (l & Hpi); [by apply CpuOk_acquired|by eapply pushed_ncli_pos|by apply free_acquired|done..|].
  exists l. mstep with (Hpi). mstep by (apply (krelease_ok cp c LPtable (k_hw s)); done).
  by rewrite touched_nested.
Qed.

(** With the queue at the start of the array, every place can be set. *)
Lemma set_places_ok cp c i sem q post s :
  CpuOk cp c (k_hw s) -> 0 < c_ncli c -> free LPtable (k_hw s) -> k_sems s !! i = Some sem ->
  sem_waiting sem = map Some q ++ post -> sem_wlast sem = Z.of_nat (length q) ->
  Forall (fun p => is_Some (k_procs s !! p)) q ->
  exists ps, set_places i s = Ok tt (s <| k_procs := ps |>) /\ same_but_place (k_procs s) ps.
Proof.
  intros HC Hn Hf Hs Hw Hl Hall.
  destruct (set_places_loop_ok cp c i sem q (zrange 0 (sem_wlast sem)) s) as (ps & Hpl & Hsame); try done.
  { intros a Ha. unfold zrange in Ha. apply list_elem_of_fmap in Ha as (k & -> & Hk%elem_of_seq).
    split; [lia|]. destruct (lookup_lt_is_Some_2 q k) as [r Hr]; [lia|].
    exists r. split; [|by eapply list_elem_of_lookup_2].
    rewrite Z.add_0_l, Nat2Z.id, Hw. apply lookup_app_l_Some. by rewrite list_lookup_fmap, Hr. }
  exists ps. split; [|done]. unfold set_places. by mstep by (by apply sem_get_ok).
Qed.

(** The state in which process [p] waits for semaphore [i]. *)
Lemma semaphore_wait_blocks {utils : Utils} cp c h p pr i sem q x post s :
  (forall n, only_prints (printspaces n)) ->
  CpuOk cp c h -> c_ncli c = 0 -> c_proc c = Some p -> k_hw s = acquired cp c (LSem i) h ->
  free LPtable h -> free LCons h -> free (LSem i) h -> con_ok (k_cons s) ->
  length (k_procs s) = NPROC -> k_procs s !! p = Some pr ->
  k_sems s !! i = Some sem -> queued sem [] q (x :: post) -> (0 < length post)%nat ->
  Forall (fun p => is_Some (k_procs s !! p)) q ->
  exists s1 k ps, semaphore_wait i (sem_wlast sem) s = Switch s1 k /\
    k_hw s1 = acquired cp c LPtable h /\
    k_sems s1 = <[i := enqueued (k_procs s) p [] q post sem]> (k_sems s) /\
    same_but_place (k_procs s) ps /\ k_procs s1 = alter (asleep (CSem i)) p ps /\
    forall i' c' h' s', resumed i' c' h' s' -> free (LSem i) h' ->
      k s' = Ok tt (s' <| k_procs ::= alter (fun p => p <| p_chan := None |>) p |>
                       <| k_hw := woken_hw i' c' (LSem i) (h' <| hw_if := hw_if h |>) |>).
Proof.
  intros Hsp HC H0 Hp Hhw HfP HfC HfS Hcon Hlen Hpr Hs Hq Hpost Hall.
  set (c1 := pushed_cpu (hw_if h) c).
  assert (HC1 : CpuOk cp c1 (k_hw s)) by (rewrite Hhw; by apply CpuOk_acquired).
  assert (Hn : 0 < c_ncli c1) by (by eapply pushed_ncli_pos).
  assert (Hp1 : c_proc c1 = Some p) by (unfold c1; by rewrite pushed_cpu_proc).
  rewrite (semaphore_wait_enqueue cp c1 p i sem [] q x post) by (by eauto).
  set (sem' := enqueued (k_procs s) p [] q post sem). set (s1 := put_sem i sem' s).
  set (q' := exchange_sort (prio_of (k_procs s)) (S (length q)) (q ++ [p])).
  assert (Hperm : q' ≡ₚ q ++ [p]) by (apply exchange_sort_spec; rewrite length_app; simpl; lia).
  destruct Hq as (Hw & Hln & Hwf & Hwl). simpl in Hln, Hwl.
  destruct (set_places_ok cp c1 i sem' q' post s1) as (ps & Hpl & Hsame); [done|done|..].
  { unfold s1, put_sem. rsimpl. rewrite Hhw. by apply free_acquired. }
  { apply sem_lookup_put. by eexists. } { done. }
  { unfold sem', enqueued. rsimpl. rewrite Hperm, length_app. simpl. lia. }
  { rewrite Hperm. apply Forall_app. split; [done|]. by repeat constructor; eexists. }
  mstep with (Hpl). set (s2 := s1 <| k_procs := ps |>).
  assert (Hhw2 : k_hw s2 = acquired cp c (LSem i) h) by done.
  destruct (same_but_place_lookup _ _ _ _ Hsame Hpr) as (n & Hpr2).
  destruct (list_processes cp c1 (sleep (CSem i) (LSem i)) s2) as (l & ->); try done.
  { rewrite Hhw2. by apply free_acquired. } { rewrite Hhw2. by apply free_acquired. }
  { rewrite <- Hlen. symmetry. by apply (Forall2_length _ _ _ Hsame). }
  destruct (sleep_cases cp c h p (pr <| p_sched ::= fun st => st <| place := n |> |>) (CSem i) (LSem i)
    (s2 <| k_cons ::= emits l |>)) as (k & Hk & Hres); [done..|].
  rewrite Hk. exists (s2 <| k_cons ::= emits l |> <| k_hw := acquired cp c LPtable h |>
                        <| k_procs ::= alter (asleep (CSem i)) p |>), k, ps.
  split_and!; done.
Qed.

(** ** Release *)

(** The semaphore after [semaphore_release] has woken the head of the queue. *)
Definition dequeued (sem : semaphore) : semaphore :=
  sem <| sem_waiting ::= <[Z.to_nat (sem_wfirst sem) := None]> |>
      <| sem_wfirst := (sem_wfirst sem + 1) mod Z.of_nat NPROC |>.

Lemma wakeupproc_ok cp c p s :
  CpuOk cp c (k_hw s) -> free LPtable (k_hw s) ->
  wakeupproc (Some p) s = Ok tt (s <| k_hw ::= touched cp c |>
                                  <| k_procs ::= alter (fun p => p <| p_state := RUNNABLE |>) p |>).
Proof.
  intros HC Hf. unfold wakeupproc. mstep by (apply (kacquire_ok cp c); done). cbn [deref]. mstep.
  unfold proc_upd. mstep. by rewrite (krelease_ok cp c LPtable (k_hw s)).
Qed.

Lemma put_sem_procs i sem s f :
  (put_sem i sem s) <| k_procs ::= f |> = put_sem i sem (s <| k_procs ::= f |>).
Proof. done. Qed.

Lemma waiting_set_put i sem j v s :
  is_Some (k_sems s !! i) -> 0 <= j < Z.of_nat NPROC ->
  waiting_set i j v (put_sem i sem s) =
    Ok tt (put_sem i (sem <| sem_waiting ::= <[Z.to_nat j := v]> |>) s).
Proof.
  intros Hi Hj. unfold waiting_set. mstep by (by apply sem_get_put).
  rewrite (proj2 (Z.ltb_ge j 0)), (proj2 (Z.leb_gt _ j)) by lia. by apply sem_upd_put.
Qed.

Lemma semaphore_release_ok cp c i sem p s :
  CpuOk cp c (k_hw s) -> free (LSem i) (k_hw s) -> free LPtable (k_hw s) -> k_sems s !! i = Some sem ->
  i32 (sem_value sem + 1) <= 0 -> 0 <= sem_wfirst sem < Z.of_nat NPROC ->
  sem_waiting sem !! Z.to_nat (sem_wfirst sem) = Some (Some p) ->
  semaphore_release i s =
    Ok tt (put_sem i (dequeued (sem <| sem_value := i32 (sem_value sem + 1) |>))
      (s <| k_hw ::= touched cp c |> <| k_procs ::= alter (fun p => p <| p_state := RUNNABLE |>) p |>)).
Proof.
  intros HC Hf HfP Hs Hv Hwf Hw. unfold semaphore_release. mstep by (apply (kacquire_ok cp c); done).
  set (s1 := s <| k_hw ::= acquired cp c (LSem i) |>).
  set (c1 := pushed_cpu (hw_if (k_hw s)) c).
  assert (Hi : is_Some (k_sems s1 !! i)) by (by exists sem).
  rewrite <- (put_sem_id i sem s1) at 1 by done. mstep by (by apply sem_upd_put).
  mstep by (by apply sem_get_put). rsimpl. rewrite (proj2 (Z.leb_le _ 0)) by done. cbn [when].
  set (sem1 := sem <| sem_value := i32 (sem_value sem + 1) |>).
  assert (HC1 : CpuOk cp c1 (k_hw s1)) by (by apply CpuOk_acquired).
  assert (Hn : 0 < c_ncli c1) by (by eapply pushed_ncli_pos).
  erewrite bind_ok.
  2: { mstep by (apply (waiting_at_ok i sem1); [by apply sem_lookup_put|done|lia]).
       mstep by (apply (wakeupproc_ok cp c1); [done|by apply free_acquired]).
       rewrite touch_id by (by apply touched_nested).
       rewrite put_sem_procs. mstep by (by apply waiting_set_put). by apply sem_upd_put. }
  cbv beta. rewrite (krelease_ok cp c (LSem i) (k_hw s)) by done. done.
Qed.

Section Blocking.
Context {utils : Utils} (Hsp : forall n, only_prints (printspaces n))
  (cp : nat) (c : cpu) (p : nat) (pr : proc) (i : nat) (prio : Z)
  (sem : semaphore) (q : list nat) (x : option nat) (post : list (option nat)) (s : kstate).

(** Process [p] calls [semaphore_acquire] on a semaphore that is taken and whose queue
    [q] still starts at entry 0. *)
Record blocking : Prop := {
  bl_cpu : CpuOk cp c (k_hw s);
  bl_depth : c_ncli c = 0;
  bl_proc : c_proc c = Some p;
  bl_ptable : free LPtable (k_hw s);
  bl_cons : free LCons (k_hw s);
  bl_lock : free (LSem i) (k_hw s);
  bl_con : con_ok (k_cons s);
  bl_len : length (k_procs s) = NPROC;
  bl_lookup : k_procs s !! p = Some pr;
  bl_sem : k_sems s !! i = Some sem;
  bl_taken : - 2147483648 < sem_value sem <= 0;
  bl_queue : queued sem [] q (x :: post);
  bl_room : (0 < length post)%nat;
  bl_waiters : Forall (fun p => is_Some (k_procs s !! p)) q }.

Lemma semaphore_acquire_blocks :
  blocking ->
  exists s1 k n sem1 q1 ps, semaphore_acquire i prio s = Switch s1 k /\
    k_sems s1 !! i = Some sem1 /\ sem_value sem1 = sem_value sem - 1 /\
    queued sem1 [] q1 post /\ q1 ≡ₚ q ++ [p] /\
    StronglySorted (by_priority (prio_of (k_procs s))) q1 /\
    same_but_place (k_procs s) ps /\ k_procs s1 = alter (asleep (CSem i)) p ps /\
    ps !! p = Some (pr <| p_sched ::= fun st => st <| place := n |> |>) /\
    k_hw s1 = acquired cp c LPtable (k_hw s) /\
    forall i' c' h' s', resumed i' c' h' s' -> free (LSem i) h' ->
      exists s2, k s' = Ok tt s2 /\ free (LSem i) (k_hw s2) /\ free LPtable (k_hw s2) /\
        k_sems s2 = k_sems s'.
Proof.
  intros [HC H0 Hp HfP HfC HfS Hcon Hlen Hpr Hs [Hv Hv0] Hq Hpost Hall].
  assert (Hval : i32 (sem_value sem - 1) = sem_value sem - 1) by (apply i32_id; lia).
  rewrite (semaphore_acquire_start cp c i prio sem) by done.
  rewrite (proj2 (Z.ltb_lt _ 0)) by lia. cbn [when].
  set (sem0 := sem <| sem_value := i32 (sem_value sem - 1) |>).
  set (s0 := put_sem i sem0 (s <| k_hw := acquired cp c (LSem i) (k_hw s) |>)).
  destruct (semaphore_wait_blocks cp c (k_hw s) p pr i sem0 q x post s0)
    as (s1 & k & ps & Hw & Hhw & Hsems & Hsame & Hps & Hres); try done.
  { apply sem_lookup_put. by exists sem. }
  set (q1 := exchange_sort (prio_of (k_procs s)) (S (length q)) (q ++ [p])).
  destruct (exchange_sort_spec (prio_of (k_procs s)) (S (length q)) (q ++ [p])) as [Hperm Hsort].
  { rewrite length_app. simpl. lia. }
  destruct Hq as (Hqw & Hqn & Hqf & Hql). simpl in Hqn, Hql.
  destruct (same_but_place_lookup _ _ _ _ Hsame Hpr) as (n & Hn).
  unfold bind at 1. change (sem_wlast sem) with (sem_wlast sem0). rewrite Hw.
  exists s1. do 3 eexists. exists q1, ps. split; [reflexivity|].
  rewrite Hsems, Hhw. split_and!; try done.
  - apply list_lookup_insert_eq. unfold s0, put_sem. rsimpl. rewrite length_insert. by eapply lookup_lt_Some.
  - done.
  - split_and!; [done| |done|]; unfold enqueued, q1; rsimpl; cbn [length Nat.add];
      rewrite Hperm, length_app; simpl; lia.
  - intros i' c' h' s' Hr Hf'. cbv beta. rewrite (Hres _ _ _ _ Hr Hf'). cbn [obind].
    destruct (resumed_if _ _ _ _ (hw_if (k_hw s)) Hr) as [HC' HfP'].
    rewrite (krelease_ok i' (touched_cpu (hw_if (k_hw s)) c') (LSem i)
      (touched i' c' (h' <| hw_if := hw_if (k_hw s) |>))); [|exact (CpuOk_touched _ _ _ HC')|done|done].
    eexists. split; [done|]. by split_and!.
Qed.
End Blocking.

(** ** Properties *)


(** A semaphore release with a process in the queue wakes exactly the head of the
    queue: that process becomes RUNNABLE, it leaves the queue, and no other process
    changes; it always returns. *)
Theorem semaphore_release_wakes cp c i sem p pr s :
  CpuOk cp c (k_hw s) -> free (LSem i) (k_hw s) -> free LPtable (k_hw s) -> k_sems s !! i = Some sem ->
  - 2147483648 <= sem_value sem < 0 -> 0 <= sem_wfirst sem < Z.of_nat NPROC ->
  sem_waiting sem !! Z.to_nat (sem_wfirst sem) = Some (Some p) -> k_procs s !! p = Some pr ->
  length (sem_waiting sem) = NPROC ->
  exists s' sem', semaphore_release i s = Ok tt s' /\ hw_locks (k_hw s') = hw_locks (k_hw s) /\
    k_procs s' = <[p := pr <| p_state := RUNNABLE |>]> (k_procs s) /\
    k_sems s' = <[i := sem']> (k_sems s) /\ sem_value sem' = sem_value sem + 1 /\
    sem_waiting sem' !! Z.to_nat (sem_wfirst sem) = Some None /\
    sem_wfirst sem' = (sem_wfirst sem + 1) mod Z.of_nat NPROC /\ sem_wlast sem' = sem_wlast sem.
Proof.
  intros HC Hf HfP Hs Hv Hwf Hw Hpr Hlen.
  assert (Hval : i32 (sem_value sem + 1) = sem_value sem + 1) by (apply i32_id; lia).
  rewrite (semaphore_release_ok cp c i sem p) by (done || lia). do 2 eexists. split; [reflexivity|].
  unfold put_sem. rsimpl. split_and!; [done|by apply alter_insert|reflexivity|done| |done|done].
  unfold dequeued. rsimpl. apply list_lookup_insert_eq. lia.
Qed.

(** C40. Once a waiting process has been woken, the next process that has to wait makes
    [semaphore_acquire] write through a null pointer: the loop that sets the places
    starts at entry 0 of the array, which [semaphore_release] has cleared, and not at
    [wfirst]. *)
Theorem semaphore_wait_after_wake_faults {utils : Utils} cp c h p pr i prio sem p0 q x post s :
  CpuOk cp c h -> c_proc c = Some p -> k_hw s = h -> free LPtable h -> free (LSem i) h ->
  k_procs s !! p = Some pr -> k_sems s !! i = Some sem -> - 2147483648 < sem_value sem < 0 ->
  queued sem [] (p0 :: q) (x :: post) -> (0 < length post)%nat ->
  Forall (fun p => is_Some (k_procs s !! p)) (p0 :: q) ->
  exists s1, semaphore_release i s = Ok tt s1 /\ semaphore_acquire i prio s1 = Fault.
Proof.
  intros HC Hp Hh HfP HfS Hpr Hs Hv Hq Hpost [_ Hall]%Forall_cons.
  destruct Hq as (Hw & Hn & Hwf & Hwl). simpl in Hw, Hn, Hwf, Hwl. subst h.
  assert (Hv1 : i32 (sem_value sem + 1) = sem_value sem + 1) by (apply i32_id; lia).
  rewrite (semaphore_release_ok cp c i sem p0) by (rewrite ?Hwf, ?Hw; done || lia).
  set (sem1 := dequeued _). set (s0 := set k_procs _ _). eexists. split; [reflexivity|].
  assert (Hi : is_Some (k_sems s0 !! i)) by (by exists sem).
  set (c1 := touched_cpu (hw_if (k_hw s)) c).
  assert (HC1 : CpuOk cp c1 (k_hw (put_sem i sem1 s0))) by (by apply CpuOk_touched).
  assert (Hf1 : free (LSem i) (k_hw (put_sem i sem1 s0))) by done.
  assert (Hlk : forall r, is_Some (k_procs s !! r) -> is_Some (k_procs s0 !! r)).
  { intros r Hr. apply lookup_lt_is_Some. unfold s0. rsimpl. rewrite length_alter. by apply lookup_lt_is_Some. }
  rewrite (semaphore_acquire_start cp c1 i prio sem1) by (done || by apply sem_lookup_put).
  assert (Hv2 : sem_value sem1 = sem_value sem + 1) by done.
  rewrite Hv2, (proj2 (Z.ltb_lt _ 0)) by (rewrite i32_id; lia). cbn [when]. apply bind_fault.
  change (sem_wlast sem1) with (sem_wlast (sem1 <| sem_value := i32 (sem_value sem + 1 - 1) |>)).
  set (c2 := pushed_cpu (hw_if (touched cp c (k_hw s))) c1).
  match goal with |- semaphore_wait _ _ ?st = _ => set (s2 := st) end.
  assert (HC2 : CpuOk cp c2 (k_hw s2)) by (by apply CpuOk_acquired).
  assert (Hs2 : k_sems s2 !! i = Some (sem1 <| sem_value := i32 (sem_value sem + 1 - 1) |>))
    by (apply sem_lookup_put; eexists; by apply sem_lookup_put).
  rewrite (semaphore_wait_enqueue cp c2 p i _ [None] q x post).
  - apply bind_fault. eapply (set_places_null cp c2); [done|by apply free_acquired|apply sem_lookup_put; by eexists| |].
    + done.
    + unfold enqueued. rsimpl. simpl. lia.
  - done.
  - by eapply pushed_ncli_pos.
  - unfold c2, c1. rewrite pushed_cpu_proc. unfold touched_cpu. by case_match.
  - apply Hlk. by exists pr.
  - exact Hs2.
  - split_and!; unfold sem1, dequeued; rsimpl; rewrite ?Hwf, ?Hw; [done|simpl; lia|done|].
    rewrite Hwl. simpl. lia.
  - done.
  - eapply Forall_impl; [exact Hall|]. intros r Hr. by apply Hlk.
Qed.

(** A process that is killed while it waits returns from [semaphore_acquire] as if it
    had got the semaphore: nothing has been released, and the process is still in the
    queue, from which a later release will wake it again. *)
Theorem semaphore_killed_waiter_enters {utils : Utils} cp c p pr i prio sem q x post s :
  (forall n, only_prints (printspaces n)) -> blocking cp c p pr i sem q x post s ->
  (forall j q, k_procs s !! j = Some q -> p_pid q = p_pid pr -> j = p) ->
  exists s1 k, semaphore_acquire i prio s = Switch s1 k /\
    forall i2 c2 s2, CpuOk i2 c2 (k_hw s2) -> free LPtable (k_hw s2) ->
      k_procs s2 = k_procs s1 -> k_sems s2 = k_sems s1 ->
      exists s3, kill (p_pid pr) s2 = Ok 0 s3 /\
        (exists r, k_procs s3 !! p = Some r /\ p_state r = RUNNABLE) /\
        forall i' c' h' s', resumed i' c' h' s' -> free (LSem i) h' -> k_sems s' = k_sems s3 ->
          exists s4 sem4, k s' = Ok tt s4 /\ k_sems s4 !! i = Some sem4 /\
            sem_value sem4 = sem_value sem - 1 /\ Some p ∈ sem_waiting sem4.
Proof.
  intros Hsp Hb Huniq. destruct (semaphore_acquire_blocks Hsp cp c p pr i prio sem q x post s Hb)
    as (s1 & k & n & sem1 & q1 & ps & H & H1 & H2 & H3 & H4 & _ & Hsame & H6 & Hn & _ & H7).
  exists s1, k. split; [done|]. intros i2 c2 s2 HC2 Hf2 Hp2 Hs2.
  assert (Hsc : scan (has_pid (p_pid pr)) (k_procs s2) = Some p).
  { rewrite Hp2, H6. apply scan_Some. rewrite list_lookup_alter_eq, Hn. split.
    - eexists. split; [reflexivity|]. apply Z.eqb_refl.
    - intros j r Hj Hr. rewrite list_lookup_alter_ne in Hr by lia. apply Z.eqb_neq. intros E.
      destruct (Forall2_lookup_r _ _ _ _ _ Hsame Hr) as (r0 & Hr0 & m & ->).
      pose proof (Huniq j r0 Hr0 E). lia. }
  rewrite (kill_cases i2 c2) by done. rewrite Hsc. eexists. split; [reflexivity|]. split.
  - rsimpl. rewrite list_lookup_alter_eq, Hp2, H6, list_lookup_alter_eq, Hn. by eexists.
  - intros i' c' h' s' Hr Hf' Hs'. destruct (H7 _ _ _ _ Hr Hf') as (s4 & H8 & _ & _ & H9).
    exists s4, sem1. rewrite H9, Hs'. rsimpl. rewrite Hs2. split_and!; try done.
    destruct H3 as (-> & _). apply elem_of_app. right. apply elem_of_app. left.
    apply list_elem_of_fmap. exists p. split; [done|]. rewrite H4. set_solver.
Qed.

(** ** Witnesses *)

Definition plain_utils : Utils := {|
  printspaces := fun n => foreach (replicate (Z.to_nat n) (bytes " ")) (fun sp => cprintf sp []);
  digitcount := fun n => Z.of_nat (length (printint_chars n 10 false));
  strlen := fun l => Z.of_nat (length (cstr l)) |}.

Lemma plain_utils_print n : only_prints (@printspaces plain_utils n).
Proof.
  apply only_prints_foreach. intros sp Hsp.
  assert (sp = bytes " ") as -> by (apply elem_of_replicate in Hsp; tauto).
  eapply only_prints_cprintf. reflexivity.
Qed.

(** Process 0 runs, process 1 waits for semaphore 2. *)
Definition sem_hw : hw :=
  mkHw true 0 1 (demo_cpu :: replicate 7 (mkCpu 0 0 false None))
    (<[LPtable := unlocked]> (<[LCons := unlocked]> (<[LSem 2 := unlocked]> ∅))).
Definition sem_one_waiter : semaphore := mkSemaphore (-1) (Some 1%nat :: replicate 9 None) 0 1.
Definition sem_demo : kstate :=
  demo <| k_hw := sem_hw |> <| k_sems := <[2%nat := sem_one_waiter]> (replicate NSEMS zero_sem) |>.
Definition runner : proc := zero_proc <| p_state := RUNNING |> <| p_pid := 1 |>.

Lemma sem_demo_blocking :
  blocking 0 demo_cpu 0 runner 2 sem_one_waiter [1%nat] None (replicate 8 None) sem_demo.
Proof.
  split.
  - split_and!; done.
  - done.
  - done.
  - done.
  - done.
  - done.
  - split; [done|]. split; [done|]. reflexivity.
  - done.
  - done.
  - done.
  - simpl. lia.
  - split_and!; done.
  - simpl. lia.
  - repeat constructor. by eexists.
Qed.


Lemma semaphore_killed_waiter_enters_witness :
  exists s1 k, @semaphore_acquire plain_utils 2 0 sem_demo = Switch s1 k.
Proof.
  destruct (@semaphore_killed_waiter_enters plain_utils 0 demo_cpu 0 runner 2 0 sem_one_waiter [1%nat]
    None (replicate 8 None) sem_demo plain_utils_print sem_demo_blocking) as (s1 & k & H & _).
  - intros j q Hj E. do 10 (destruct j as [|j]; [injection Hj as <-; first [reflexivity|discriminate E]|]).
    discriminate Hj.
  - exists s1, k. exact H.
Defined.

Lemma semaphore_release_wakes_witness :
  exists s', semaphore_release 2 sem_demo = Ok tt s' /\
    exists r, k_procs s' !! 1%nat = Some r /\ p_state r = RUNNABLE.
Proof.
  destruct (semaphore_release_wakes 0 demo_cpu 2 sem_one_waiter 1
    (zero_proc <| p_state := ZOMBIE |> <| p_pid := 2 |> <| p_parent := Some 0%nat |>
       <| p_kstack := page_example |>) sem_demo) as (s' & sem' & H & _ & Hp & _).
  - split_and!; [reflexivity|reflexivity|discriminate|discriminate].
  - reflexivity.
  - reflexivity.
  - reflexivity.
  - split; [discriminate|reflexivity].
  - split; [discriminate|reflexivity].
  - reflexivity.
  - reflexivity.
  - reflexivity.
  - exists s'. split; [exact H|]. rewrite Hp. eexists. split; reflexivity.
Defined.

Lemma semaphore_wait_after_wake_faults_witness :
  exists s1, semaphore_release 2 sem_demo = Ok tt s1 /\ @semaphore_acquire plain_utils 2 0 s1 = Fault.
Proof.
  apply (@semaphore_wait_after_wake_faults plain_utils 0 demo_cpu sem_hw 0 runner 2 0 sem_one_waiter 1 []
    None (replicate 8 None) sem_demo).
  - split_and!; [reflexivity|reflexivity|discriminate|discriminate].
  - reflexivity.
  - reflexivity.
  - reflexivity.
  - reflexivity.
  - reflexivity.
  - reflexivity.
  - split; reflexivity.
  - split; [reflexivity|split; [reflexivity|split; reflexivity]].
  - simpl. lia.
  - constructor; [eexists; reflexivity|constructor].
Defined.
