(* ===== verification/Sleeplock.v ===== *)
(** * Sleep-locks (sleeplock.c)

    Long-term locks for buffers and inodes, on which a process sleeps instead of
    spinning.  The second half describes the situation in which the file system runs:
    a process in kernel mode that holds no spin-lock. *)

From stdpp Require Import gmap.
From S2P Require Import Prelude Outcome Kernel Spinlock Kalloc Proc.

(** How many times a process may be woken from a wait and find that it has to wait
    again; every theorem holds for any value. *)
Class Fuel : Type := fuel : nat.

(** A lock that was never initialised is zeroed memory. *)
Definition sl_get (r : slref) : K sleeplock :=
  gets (fun s => default (mkSleeplock 0 0) (k_slocks s !! r)).
Definition sl_set (r : slref) (l : sleeplock) : K unit :=
  modify (fun s => s <| k_slocks ::= <[r := l]> |>).

(** [myproc()->pid] *)
Definition mypid : K Z :=
  p ← myproc;
  p ← deref p;
  pr ← proc_get p;
  ret (p_pid pr).

Definition initsleeplock (r : slref) : K unit :=
  initlock (LSleep r);;
  sl_set r (mkSleeplock 0 0).

Fixpoint acquiresleep_loop (n : nat) (r : slref) : K unit :=
  l ← sl_get r;
  if sl_locked l =? 0 then ret tt
  else match n with
       | O => spin
       | S n => sleep (CSleeplock r) (LSleep r);; acquiresleep_loop n r
       end.

Definition acquiresleep {fl : Fuel} (r : slref) : K unit :=
  acquire (LSleep r);;
  acquiresleep_loop fuel r;;
  l ← sl_get r;
  sl_set r (l <| sl_locked := 1 |>);;
  pid ← mypid;
  l ← sl_get r;
  sl_set r (l <| sl_pid := pid |>);;
  release (LSleep r).

Definition releasesleep (r : slref) : K unit :=
  acquire (LSleep r);;
  l ← sl_get r;
  pid ← mypid;
  if negb (sl_pid l =? pid) then release (LSleep r)
  else
    sl_set r (mkSleeplock 0 0);;
    wakeup (CSleeplock r);;
    release (LSleep r).

Definition holdingsleep (r : slref) : K bool :=
  acquire (LSleep r);;
  l ← sl_get r;
  b ← (if sl_locked l =? 0 then ret false else pid ← mypid; ret (sl_pid l =? pid));
  release (LSleep r);;
  ret b.

(** ** Kernel mode *)

(** The locks the file system takes. *)
Definition fs_lock (lk : lockref) : bool :=
  match lk with
  | LPtable | LBcache | LLog | LIcache | LFtable => true
  | LSleep (SLBuf i) => (i <? NBUF)%nat
  | LSleep (SLInode i) => (i <? NINODE)%nat
  | _ => false
  end.

(** Process [p] executes on processor [i] with no spin-lock held, and the locks of the
    file system are initialised and free.  [intena] is what the last balanced section
    left there. *)
Record kmode (i : nat) (c : cpu) (p : nat) (pr : proc) (s : kstate) : Prop := {
  km_cpu : CpuOk i c (k_hw s);
  km_depth : c_ncli c = 0;
  km_intena : c_intena c = hw_if (k_hw s);
  km_proc : c_proc c = Some p;
  km_lookup : k_procs s !! p = Some pr;
  km_running : p_state pr = RUNNING;
  km_locks : forall lk, fs_lock lk = true -> free lk (k_hw s) }.

(** The frame of an operation in kernel mode: the hardware is as before and the table
    of processes has changed at most by wakeups. *)
Definition woken (ps ps' : list proc) : Prop :=
  Forall2 (fun p p' => p' = p \/ p_state p = SLEEPING /\ p' = p <| p_state := RUNNABLE |>) ps ps'.

Lemma woken_refl ps : woken ps ps.
Proof. apply Forall_Forall2_diag, Forall_true. auto. Qed.

Lemma woken_trans ps1 ps2 ps3 : woken ps1 ps2 -> woken ps2 ps3 -> woken ps1 ps3.
Proof.
  apply Forall2_trans. intros p1 p2 p3 [->|[H1 ->]] [->|[H2 ->]]; auto; done.
Qed.

Lemma woken_wakeup ch ps : woken ps (map (wake_one ch) ps).
Proof.
  apply Forall2_fmap_r, Forall_Forall2_diag, Forall_true. intros p. simpl. unfold wake_one.
  destruct (_ && _) eqn:E; [|by left]. right. apply andb_prop in E as [?%bool_decide_eq_true _]. done.
Qed.

Lemma woken_running ps ps' p pr :
  woken ps ps' -> ps !! p = Some pr -> p_state pr = RUNNING -> ps' !! p = Some pr.
Proof.
  intros Hw Hp Hr. destruct (Forall2_lookup_l _ _ _ _ _ Hw Hp) as (pr' & Hp' & [->|[Hs _]]); congruence.
Qed.

#[global] Instance woken_preorder : PreOrder woken.
Proof. split; [intros ps; apply woken_refl|intros ps1 ps2 ps3; apply woken_trans]. Qed.

(** Kernel mode survives anything that respects the frame. *)
Lemma kmode_frame i c p pr s s' :
  kmode i c p pr s -> k_hw s' = k_hw s -> woken (k_procs s) (k_procs s') -> kmode i c p pr s'.
Proof.
  intros [H1 H2 H3 H4 H5 H6 H7] Hh Hw. split; rewrite ?Hh; try done. by eapply woken_running.
Qed.

Section KernelMode.
Context {i : nat} {c : cpu} {p : nat} {pr : proc}.

Lemma kmode_touched s : kmode i c p pr s -> touched i c (k_hw s) = k_hw s.
Proof.
  intros [(Hi & Hc & _) H0 Hin _ _ _ _]. unfold touched, touched_cpu. rewrite H0. simpl.
  destruct (k_hw s). unfold set. simpl in *. f_equal. apply list_insert_id. rewrite Hc.
  destruct c. simpl in *. by subst.
Qed.

(** In a section that holds [lk]. *)
Definition inside (lk : lockref) (s0 s : kstate) : Prop :=
  k_hw s = acquired i c lk (k_hw s0) /\ woken (k_procs s0) (k_procs s).

Lemma free_acquire lk s :
  kmode i c p pr s -> free lk (k_hw s) -> acquire lk s = Ok tt (s <| k_hw ::= acquired i c lk |>).
Proof. intros Hk Hl. apply (kacquire_ok i c); [apply Hk|done]. Qed.

Lemma free_release lk s0 s :
  kmode i c p pr s0 -> free lk (k_hw s0) -> k_hw s = acquired i c lk (k_hw s0) ->
  release lk s = Ok tt (s <| k_hw := k_hw s0 |>).
Proof.
  intros Hk Hl Hh. rewrite (krelease_ok i c lk (k_hw s0)); [|apply Hk|done|done].
  by rewrite (kmode_touched s0 Hk).
Qed.

Lemma kmode_acquire lk s :
  kmode i c p pr s -> fs_lock lk = true ->
  acquire lk s = Ok tt (s <| k_hw ::= acquired i c lk |>).
Proof. intros Hk Hl. by apply free_acquire, (km_locks _ _ _ _ _ Hk). Qed.

Lemma kmode_release lk s0 s :
  kmode i c p pr s0 -> fs_lock lk = true -> k_hw s = acquired i c lk (k_hw s0) ->
  release lk s = Ok tt (s <| k_hw := k_hw s0 |>).
Proof. intros Hk Hl Hh. by apply free_release, Hh; [|apply (km_locks _ _ _ _ _ Hk)]. Qed.

(** Inside a section, [myproc] and nested sections on other locks change nothing. *)
Lemma inside_cpu lk s0 s :
  kmode i c p pr s0 -> inside lk s0 s ->
  CpuOk i (pushed_cpu (hw_if (k_hw s0)) c) (k_hw s) /\ 0 < c_ncli (pushed_cpu (hw_if (k_hw s0)) c).
Proof.
  intros Hk [Hh _]. rewrite Hh. split; [apply CpuOk_acquired, Hk|eapply pushed_ncli_pos, Hk].
Qed.

Lemma inside_myproc lk s0 s :
  kmode i c p pr s0 -> inside lk s0 s -> myproc s = Ok (Some p) s /\ k_procs s !! p = Some pr.
Proof.
  intros Hk Hi. destruct (inside_cpu lk s0 s Hk Hi) as [HC Hn].
  split; [|eapply woken_running; [apply Hi|apply Hk|apply Hk]].
  rewrite (kmyproc_ok i (pushed_cpu (hw_if (k_hw s0)) c)) by done.
  rewrite touch_id by (by apply touched_nested). by rewrite pushed_cpu_proc, (km_proc _ _ _ _ _ Hk).
Qed.

Lemma inside_mypid lk s0 s :
  kmode i c p pr s0 -> inside lk s0 s -> mypid s = Ok (p_pid pr) s.
Proof.
  intros Hk Hi. destruct (inside_myproc lk s0 s Hk Hi) as [H1 H2]. unfold mypid. mstep with (H1).
  cbn [deref]. mstep. by mstep by (by apply (proc_get_ok p pr)).
Qed.

Lemma inside_wakeup lk ch s0 s :
  kmode i c p pr s0 -> inside lk s0 s -> lk <> LPtable ->
  wakeup ch s = Ok tt (s <| k_procs ::= map (wake_one (Some ch)) |>).
Proof.
  intros Hk Hi Hne. destruct (inside_cpu lk s0 s Hk Hi) as [HC Hn].
  rewrite (wakeup_ok i (pushed_cpu (hw_if (k_hw s0)) c)); [|done|].
  - by rewrite touch_id by (by apply touched_nested).
  - destruct Hi as [-> _]. apply free_acquired; [done|]. by apply (km_locks _ _ _ _ _ Hk).
Qed.
End KernelMode.

(** ** What the operations do *)

(** [r] is held by the process with this pid. *)
Definition sl_held (r : slref) (pid : Z) (s : kstate) : Prop :=
  exists l, k_slocks s !! r = Some l /\ sl_locked l <> 0 /\ sl_pid l = pid.
Definition sl_free (r : slref) (s : kstate) : Prop :=
  sl_locked (default (mkSleeplock 0 0) (k_slocks s !! r)) = 0.

Lemma inside_start {i c p pr} lk s :
  kmode i c p pr s -> @inside i c lk s (s <| k_hw ::= acquired i c lk |>).
Proof. intros _. split; [done|apply woken_refl]. Qed.

Section Ops.
Context {fl : Fuel} {i : nat} {c : cpu} {p : nat} {pr : proc} (r : slref).
Context (Hr : fs_lock (LSleep r) = true).

Lemma holdingsleep_ok s :
  kmode i c p pr s ->
  holdingsleep r s = Ok (let l := default (mkSleeplock 0 0) (k_slocks s !! r) in
                         negb (sl_locked l =? 0) && (sl_pid l =? p_pid pr)) s.
Proof.
  intros Hk. unfold holdingsleep. mstep by (by eapply kmode_acquire). unfold sl_get. mstep. rsimpl.
  set (l := default _ _). erewrite bind_ok.
  2: { instantiate (1 := s <| k_hw ::= acquired i c (LSleep r) |>).
       instantiate (1 := negb (sl_locked l =? 0) && (sl_pid l =? p_pid pr)).
       destruct (sl_locked l =? 0); [done|].
       by mstep by (eapply (inside_mypid (LSleep r) s); [done|by apply (inside_start _ s Hk)]). }
  cbv beta. mstep by (by apply (kmode_release (LSleep r) s _ Hk)). unfold ret. f_equal. by destruct s.
Qed.

Lemma holdingsleep_held s :
  kmode i c p pr s -> sl_held r (p_pid pr) s -> holdingsleep r s = Ok true s.
Proof.
  intros Hk (l & Hl & H1 & H2). rewrite (holdingsleep_ok s Hk), Hl. simpl. do 2 f_equal.
  by rewrite (proj2 (Z.eqb_neq _ _) H1), H2, Z.eqb_refl.
Qed.

(** A free lock is taken at once. *)
Lemma acquiresleep_free s :
  kmode i c p pr s -> sl_free r s ->
  acquiresleep r s = Ok tt (s <| k_slocks ::= <[r := mkSleeplock 1 (p_pid pr)]> |>).
Proof.
  intros Hk Hf. unfold acquiresleep. mstep by (by eapply kmode_acquire). erewrite bind_ok.
  2: { destruct fuel; simpl; unfold sl_get; mstep; rsimpl; unfold sl_free in Hf; rewrite Hf; done. }
  cbv beta. unfold sl_get, sl_set. mstep. mstep.
  mstep by (eapply (inside_mypid (LSleep r) s); [done|split; [done|apply woken_refl]]). mstep. mstep.
  rsimpl. rewrite (kmode_release (LSleep r) s _ Hk) by done. f_equal.
  apply kstate_ext; rsimpl; try reflexivity. rewrite lookup_insert_eq, insert_insert_eq. done.
Qed.

(** A lock that is held is waited for: the process sleeps with the spin-lock free, and
    when it is resumed it looks at the lock again. *)
Lemma acquiresleep_held s n :
  fuel = S n -> kmode i c p pr s -> ~ sl_free r s ->
  exists k, acquiresleep r s =
      Switch (s <| k_hw ::= acquired i c LPtable |>
                <| k_procs ::= alter (asleep (CSleeplock r)) p |>) k /\
    forall i' c' h' s', resumed i' c' h' s' -> free (LSleep r) h' ->
      k s' = (acquiresleep_loop n r;; l ← sl_get r; sl_set r (l <| sl_locked := 1 |>);;
              pid ← mypid; l ← sl_get r; sl_set r (l <| sl_pid := pid |>);; release (LSleep r))
        (s' <| k_procs ::= alter (fun p => p <| p_chan := None |>) p |>
            <| k_hw := woken_hw i' c' (LSleep r) (h' <| hw_if := hw_if (k_hw s) |>) |>).
Proof.
  intros Hn Hk Hf.
  destruct (sleep_cases i c (k_hw s) p pr (CSleeplock r) (LSleep r) (s <| k_hw ::= acquired i c (LSleep r) |>))
    as (k & Hs & Hres); try done; [apply Hk|apply Hk|by apply (km_locks _ _ _ _ _ Hk)..|apply Hk|apply Hk|].
  eexists. split.
  - unfold acquiresleep. mstep by (by eapply kmode_acquire). rewrite Hn. cbn [acquiresleep_loop].
    unfold bind at 1. unfold sl_get at 1. rewrite bind_gets. rsimpl.
    unfold sl_free in Hf. rewrite (proj2 (Z.eqb_neq _ 0)) by done. unfold bind at 1. rewrite Hs.
    reflexivity.
  - intros i' c' h' s' H1 H2. cbv beta. rewrite (Hres i' c' h' s' H1 H2). cbn [obind]. reflexivity.
Qed.

Lemma releasesleep_owner s :
  kmode i c p pr s -> sl_held r (p_pid pr) s ->
  releasesleep r s = Ok tt (s <| k_slocks ::= <[r := mkSleeplock 0 0]> |>
                              <| k_procs ::= map (wake_one (Some (CSleeplock r))) |>).
Proof.
  intros Hk (l & Hl & H1 & H2). unfold releasesleep. mstep by (by eapply kmode_acquire).
  unfold sl_get, sl_set. mstep. rsimpl. rewrite Hl. simpl.
  mstep by (eapply (inside_mypid (LSleep r) s); [done|by apply (inside_start _ s Hk)]).
  rewrite H2, Z.eqb_refl. simpl. mstep.
  mstep by (eapply (inside_wakeup (LSleep r) (CSleeplock r) s); [done|split; [done|apply woken_refl]|done]).
  rewrite (kmode_release (LSleep r) s _ Hk) by done. done.
Qed.

(** A process that does not own the lock leaves it alone. *)
Lemma releasesleep_other s :
  kmode i c p pr s -> sl_pid (default (mkSleeplock 0 0) (k_slocks s !! r)) <> p_pid pr ->
  releasesleep r s = Ok tt s.
Proof.
  intros Hk Hne. unfold releasesleep. mstep by (by eapply kmode_acquire). unfold sl_get. mstep. rsimpl.
  mstep by (eapply (inside_mypid (LSleep r) s); [done|by apply (inside_start _ s Hk)]).
  rewrite (proj2 (Z.eqb_neq _ _) Hne). simpl. rewrite (kmode_release (LSleep r) s _ Hk) by done.
  f_equal. by destruct s.
Qed.
End Ops.

(** ** Every return from [acquiresleep] *)

(** The outcome [o] ends with [a] in state [s], when each switch away from the process
    is followed by some state related to it by [env]. *)
Inductive ends_in {S A : Type} (env : S -> S -> Prop) : outcome S A -> A -> S -> Prop :=
| ends_ok a s : ends_in env (Ok a s) a s
| ends_switch s k s1 a s2 : env s s1 -> ends_in env (k s1) a s2 -> ends_in env (Switch s k) a s2.

(** Process [p] is resumed, on any processor, with only [ptable.lock] held. *)
Definition resumes (p : nat) (pid : Z) (lk : lockref) (s s' : kstate) : Prop :=
  exists i c h pr, resumed i c h s' /\ free lk h /\ c_proc c = Some p /\
    k_procs s' !! p = Some pr /\ p_pid pr = pid.

(** Process [p] is in a section that holds only [lk]. *)
Definition in_section (p : nat) (pid : Z) (lk : lockref) (s : kstate) : Prop :=
  exists i c h pr, CpuOk i c h /\ c_ncli c = 0 /\ free LPtable h /\ free lk h /\
    k_hw s = acquired i c lk h /\ c_proc c = Some p /\ k_procs s !! p = Some pr /\ p_pid pr = pid.

Definition take_lock (r : slref) : K unit :=
  l ← sl_get r; sl_set r (l <| sl_locked := 1 |>);;
  pid ← mypid; l ← sl_get r; sl_set r (l <| sl_pid := pid |>);; release (LSleep r).

Lemma take_lock_ok r p pid s :
  in_section p pid (LSleep r) s ->
  exists s', take_lock r s = Ok tt s' /\ k_slocks s' = <[r := mkSleeplock 1 pid]> (k_slocks s).
Proof.
  intros (i & c & h & pr & HC & H0 & _ & Hf & Hh & Hp & Hpr & Hpid). unfold take_lock, sl_get, sl_set.
  mstep. mstep. set (s1 := set k_slocks _ s).
  assert (HC1 : CpuOk i (pushed_cpu (hw_if h) c) (k_hw s1)).
  { unfold s1. rsimpl. rewrite Hh. by apply CpuOk_acquired. }
  assert (Hm : mypid s1 = Ok pid s1).
  { unfold mypid. mstep by (by apply (kmyproc_ok i (pushed_cpu (hw_if h) c))).
    rewrite touch_id by (apply touched_nested; [done|by eapply pushed_ncli_pos]).
    rewrite pushed_cpu_proc, Hp. cbn [deref]. mstep. mstep by (by apply (proc_get_ok p pr)).
    by rewrite Hpid. }
  mstep with (Hm). mstep. mstep. rewrite (krelease_ok i c (LSleep r) h) by done. eexists. split; [done|].
  unfold s1. rsimpl. by rewrite lookup_insert_eq, insert_insert_eq.
Qed.

Lemma loop_step n r p pid s :
  in_section p pid (LSleep r) s -> ~ sl_free r s ->
  exists s1 k, (acquiresleep_loop (S n) r;; take_lock r) s = Switch s1 k /\
    forall s', resumes p pid (LSleep r) s1 s' ->
      exists s2, k s' = (acquiresleep_loop n r;; take_lock r) s2 /\ in_section p pid (LSleep r) s2.
Proof.
  intros (i & c & h & pr & HC & H0 & HfP & Hf & Hh & Hp & Hpr & Hpid) Hfree.
  destruct (sleep_cases i c h p pr (CSleeplock r) (LSleep r) s) as (k & Hs & Hres); [done..|].
  do 2 eexists. split.
  - unfold bind at 1. cbn [acquiresleep_loop]. unfold sl_get at 1. rewrite bind_gets.
    rewrite (proj2 (Z.eqb_neq _ 0)) by exact Hfree. unfold bind at 1. rewrite Hs. reflexivity.
  - intros s' (i' & c' & h' & pr' & Hr & Hf' & Hp' & Hpr' & Hpid'). cbv beta.
    rewrite (Hres _ _ _ _ Hr Hf'). cbn [obind]. eexists. split; [reflexivity|].
    destruct (resumed_if _ _ _ _ (hw_if h) Hr) as [HC' HfP']. destruct Hr as (_ & Hn' & _ & _).
    exists i', (touched_cpu (hw_if h) c'), (touched i' c' (h' <| hw_if := hw_if h |>)),
      (pr' <| p_chan := None |>).
    split_and!; [exact (CpuOk_touched _ _ _ HC')| |done|done|done| | |done].
    + unfold touched_cpu. by case_match.
    + unfold touched_cpu. by case_match.
    + rsimpl. by rewrite list_lookup_alter_eq, Hpr'.
Qed.

#[global] Instance sl_free_dec r s : Decision (sl_free r s).
Proof. apply Z.eq_dec. Defined.

Lemma loop_free n r (k : K unit) s : sl_free r s -> (acquiresleep_loop n r;; k) s = k s.
Proof.
  intros Hf. unfold bind at 1. destruct n; simpl; unfold sl_get; rewrite bind_gets;
    by rewrite (proj2 (Z.eqb_eq _ 0) Hf).
Qed.

Lemma loop_out_of_fuel r (k : K unit) s : ~ sl_free r s -> (acquiresleep_loop 0 r;; k) s = Spin.
Proof.
  intros Hf. apply bind_spin. simpl. unfold sl_get. rewrite bind_gets.
  by rewrite (proj2 (Z.eqb_neq _ 0) Hf).
Qed.

Lemma loop_returns n r p pid s s' :
  in_section p pid (LSleep r) s ->
  ends_in (resumes p pid (LSleep r)) ((acquiresleep_loop n r;; take_lock r) s) tt s' ->
  exists s0, sl_free r s0 /\ k_slocks s' = <[r := mkSleeplock 1 pid]> (k_slocks s0).
Proof.
  revert s. induction n as [|n IH]; intros s Hin He; destruct (decide (sl_free r s)) as [Hf|Hf].
  1, 3: exists s; split; [done|]; destruct (take_lock_ok r p pid s Hin) as (s1 & H1 & H2);
    rewrite loop_free, H1 in He by done; by inversion He; subst.
  - rewrite loop_out_of_fuel in He by done. inversion He.
  - destruct (loop_step n r p pid s Hin Hf) as (s1 & k & Hs & Hk). rewrite Hs in He.
    inversion He as [|? ? s2 ? ? Henv Hrest]; subst. destruct (Hk s2 Henv) as (s3 & Hk3 & Hin3).
    rewrite Hk3 in Hrest. by apply (IH s3).
Qed.

(** ** Properties *)

(** [acquiresleep] takes a free lock at once; on a lock that is held it goes to sleep;
    and whenever it returns, after any number of wakeups and whatever the rest of the
    system did in between, it took the lock from a state in which it was free.  So a
    sleep-lock is never stolen from its holder. *)
Theorem acquiresleep_never_steals {fl : Fuel} i c p pr r s :
  kmode i c p pr s -> fs_lock (LSleep r) = true ->
  (sl_free r s -> exists s', acquiresleep r s = Ok tt s' /\ sl_held r (p_pid pr) s') /\
  (~ sl_free r s -> (0 < fuel)%nat -> exists s1 k, acquiresleep r s = Switch s1 k /\
     k_procs s1 !! p = Some (asleep (CSleeplock r) pr) /\ free (LSleep r) (k_hw s1)) /\
  (forall s', ends_in (resumes p (p_pid pr) (LSleep r)) (acquiresleep r s) tt s' ->
     exists s0, sl_free r s0 /\ k_slocks s' = <[r := mkSleeplock 1 (p_pid pr)]> (k_slocks s0)).
Proof.
  intros Hk Hr. split_and!.
  - intros Hf. rewrite (acquiresleep_free r Hr s Hk Hf). eexists. split; [done|].
    eexists. rsimpl. rewrite lookup_insert_eq. by split_and!.
  - intros Hf Hfu. destruct fuel as [|n] eqn:En; [lia|].
    destruct (acquiresleep_held r Hr s n En Hk Hf) as (k & Hs & _). eexists _, k. split; [exact Hs|].
    rsimpl. rewrite list_lookup_alter_eq, (km_lookup _ _ _ _ _ Hk). split; [done|].
    apply free_acquired; [done|by apply (km_locks _ _ _ _ _ Hk)].
  - intros s' He. unfold acquiresleep in He.
    rewrite (bind_ok _ _ _ _ _ (kmode_acquire (LSleep r) s Hk Hr)) in He.
    eapply loop_returns; [|exact He]. exists i, c, (k_hw s), pr.
    split_and!; try done; [apply Hk|apply Hk|by apply (km_locks _ _ _ _ _ Hk)..|apply Hk|apply Hk].
Qed.

(** ** Witnesses *)

(** Process 0 in kernel mode, with every lock of the file system initialised. *)
Definition fs_lock_list : list lockref :=
  [LPtable; LBcache; LLog; LIcache; LFtable]
  ++ map (fun i => LSleep (SLBuf i)) (seq 0 NBUF) ++ map (fun i => LSleep (SLInode i)) (seq 0 NINODE).

Definition all_unlocked (l : list lockref) : gmap lockref spinlock :=
  foldr (fun lk m => <[lk := unlocked]> m) ∅ l.

Lemma all_unlocked_lookup lk l : lk ∈ l -> all_unlocked l !! lk = Some unlocked.
Proof.
  induction l as [|lk' l IH]; intros H; [by apply not_elem_of_nil in H|]. simpl.
  destruct (decide (lk' = lk)) as [->|Hne]; [by rewrite lookup_insert_eq|].
  rewrite lookup_insert_ne by done. apply IH. by apply elem_of_cons in H as [?|?].
Qed.

Lemma fs_lock_listed lk : fs_lock lk = true -> lk ∈ fs_lock_list.
Proof.
  unfold fs_lock_list. rewrite !elem_of_app, !elem_of_cons.
  intros H. destruct lk as [| | | | | | | | |?|?|[i|i]]; try discriminate; try tauto.
  - apply Nat.ltb_lt in H. right. left. apply list_elem_of_fmap.
    exists i. split; [done|]. apply elem_of_seq. lia.
  - apply Nat.ltb_lt in H. right. right. apply list_elem_of_fmap.
    exists i. split; [done|]. apply elem_of_seq. lia.
Qed.

Definition fs_cpu : cpu := mkCpu 0 0 true (Some 0%nat).
Definition fs_proc : proc := zero_proc <| p_state := RUNNING |> <| p_pid := 1 |>.
Definition fs_hw : hw :=
  mkHw true 0 1 (fs_cpu :: replicate 7 (mkCpu 0 0 false None)) (all_unlocked fs_lock_list).
Definition fs_demo : kstate :=
  bss <| k_hw := fs_hw |> <| k_procs := fs_proc :: replicate 9 zero_proc |> <| k_nextpid := 2 |>.

Lemma kmode_fs_demo s :
  k_hw s = fs_hw -> k_procs s !! 0%nat = Some fs_proc -> kmode 0 fs_cpu 0 fs_proc s.
Proof.
  intros Hh Hp. split; rewrite ?Hh; [|reflexivity|reflexivity|reflexivity|exact Hp|reflexivity|].
  - split_and!; [reflexivity|reflexivity|discriminate|discriminate].
  - intros lk Hlk. by apply all_unlocked_lookup, fs_lock_listed.
Qed.

(** Kernel mode does not mind another free lock. *)
Lemma kmode_more_locks {i c p pr} lk s s' :
  kmode i c p pr s -> k_hw s' = (k_hw s) <| hw_locks ::= <[lk := unlocked]> |> -> k_procs s' = k_procs s ->
  kmode i c p pr s' /\ free lk (k_hw s').
Proof.
  intros [[H1 H1'] H2 H3 H4 H5 H6 H7] Eh Ep. unfold free. rewrite Eh. split; [|apply lookup_insert_eq].
  split; rewrite ?Eh, ?Ep; try assumption; [split; assumption|].
  intros lk' Hlk. unfold free. rsimpl. destruct (decide (lk = lk')) as [->|Hne]; [apply lookup_insert_eq|].
  rewrite lookup_insert_ne by exact Hne. apply (H7 lk' Hlk).
Qed.

Lemma acquiresleep_never_steals_witness :
  exists s', @acquiresleep 5%nat (SLBuf 3) fs_demo = Ok tt s' /\ sl_held (SLBuf 3) 1 s'.
Proof.
  destruct (@acquiresleep_never_steals 5%nat 0 fs_cpu 0 fs_proc (SLBuf 3) fs_demo) as (H & _ & _).
  - apply kmode_fs_demo; reflexivity.
  - reflexivity.
  - apply H. reflexivity.
Defined.
