(* ===== verification/Bio.v ===== *)
(** * The buffer cache and the disk (bio.c, memide.c)

    The cache of disk blocks, its list in order of use, and the driver it reads and
    writes blocks with.  A [struct buf *] is the index of the buffer in [k_bufs], whose
    last element is [bcache.head].

    The cache is written against an interface, [Disk], that says what it needs of a
    driver; the driver of memide.c implements it. *)

From stdpp Require Import gmap.
From S2P Require Import Prelude Outcome Kernel Spinlock Kalloc Proc Sleeplock.

Definition B_VALID : Z := 2.
Definition B_DIRTY : Z := 4.

Definition head : nat := NBUF.

Definition buf_get (i : nat) : K buf := l ← gets k_bufs; deref (l !! i).
Definition buf_upd (i : nat) (f : buf -> buf) : K unit :=
  modify (fun s => s <| k_bufs ::= alter f i |>).

(** ** The disk *)

(** What block [b] holds. *)
Fixpoint written (b : Z) (l : list (Z * list Z)) : option (list Z) :=
  match l with
  | [] => None
  | (b', data) :: l => if b' =? b then Some data else written b l
  end.
Definition d_read (d : disk) (b : Z) : list Z := default (d_init d b) (written b (d_writes d)).

(** ** memide.c *)

Definition memide_ideinit (img : Z -> list Z) (img_size : Z) : K unit :=
  modify (fun s => s <| k_disk := mkDisk (img_size / BSIZE) img [] |>).

Definition memide_iderw (i : nat) : K unit :=
  h ← holdingsleep (SLBuf i);
  if negb h then panic "iderw: buf not locked" else
  b ← buf_get i;
  if Z.land (b_flags b) (Z.lor B_VALID B_DIRTY) =? B_VALID then panic "iderw: nothing to do" else
  if negb (b_dev b =? 1) then panic "iderw: request not for disk 1" else
  d ← gets k_disk;
  if d_size d <=? b_blockno b then panic "iderw: block out of range" else
  (if negb (Z.land (b_flags b) B_DIRTY =? 0) then
     buf_upd i (fun b => b <| b_flags ::= fun f => Z.land f (Z.lnot B_DIRTY) |>);;
     modify (fun s => s <| k_disk ::= set d_writes (cons (b_blockno b, b_data b)) |>)
   else buf_upd i (fun b' => b' <| b_data := d_read d (b_blockno b) |>));;
  buf_upd i (fun b => b <| b_flags ::= fun f => Z.lor f B_VALID |>).

(** ** bio.c *)

(** The driver: [iderw]. *)
Class Disk : Type := iderw : nat -> K unit.

(** The body of the loop of [binit]. *)
Definition binit_body (b : nat) : K unit :=
  h ← buf_get head;
  buf_upd b (fun x => x <| b_next := b_next h |>);;
  buf_upd b (fun x => x <| b_prev := head |>);;
  initsleeplock (SLBuf b);;
  h ← buf_get head;
  buf_upd (b_next h) (fun x => x <| b_prev := b |>);;
  buf_upd head (fun x => x <| b_next := b |>).

Definition binit : K unit :=
  initlock LBcache;;
  buf_upd head (fun b => b <| b_prev := head |>);;
  buf_upd head (fun b => b <| b_next := head |>);;
  foreach (seq 0 NBUF) binit_body.

(** Follow [next] (or [prev]) from [b] to the head, at most [n] links, to the first
    buffer that satisfies a test. *)
Fixpoint bscan (n : nat) (link : buf -> nat) (test : buf -> bool) (b : nat) : K (option nat) :=
  match n with
  | O => spin
  | S n =>
    if bool_decide (b = head) then ret None else
    x ← buf_get b;
    if test x then ret (Some b) else bscan n link test (link x)
  end.

Definition cached (dev blockno : Z) (b : buf) : bool :=
  (b_dev b =? dev) && (b_blockno b =? blockno).
Definition recyclable (b : buf) : bool :=
  (b_refcnt b =? 0) && (Z.land (b_flags b) B_DIRTY =? 0).

(** The stores of [brelse] that move buffer [b] to the front. *)
Definition relink (b : nat) : K unit :=
  x ← buf_get b;
  buf_upd (b_next x) (fun y => y <| b_prev := b_prev x |>);;
  x ← buf_get b;
  buf_upd (b_prev x) (fun y => y <| b_next := b_next x |>);;
  h ← buf_get head;
  buf_upd b (fun y => y <| b_next := b_next h |>);;
  buf_upd b (fun y => y <| b_prev := head |>);;
  h ← buf_get head;
  buf_upd (b_next h) (fun y => y <| b_prev := b |>);;
  buf_upd head (fun y => y <| b_next := b |>).

Section Bio.
Context {fl : Fuel} {dsk : Disk}.

Definition bget (dev blockno : Z) : K nat :=
  acquire LBcache;;
  (* Is the block already cached? *)
  h ← buf_get head;
  r ← bscan (S NBUF) b_next (cached dev blockno) (b_next h);
  match r with
  | Some b =>
    buf_upd b (fun x => x <| b_refcnt ::= fun n => u32 (n + 1) |>);;
    release LBcache;;
    acquiresleep (SLBuf b);;
    ret b
  | None =>
    (* Not cached; recycle an unused buffer. *)
    h ← buf_get head;
    r ← bscan (S NBUF) b_prev recyclable (b_prev h);
    match r with
    | Some b =>
      buf_upd b (fun x => x <| b_dev := dev |> <| b_blockno := blockno |> <| b_flags := 0 |>
                            <| b_refcnt := 1 |>);;
      release LBcache;;
      acquiresleep (SLBuf b);;
      ret b
    | None => panic "bget: no buffers"
    end
  end.

Definition bread (dev blockno : Z) : K nat :=
  b ← bget dev blockno;
  x ← buf_get b;
  when (Z.land (b_flags x) B_VALID =? 0) (iderw b);;
  ret b.

Definition bwrite (b : nat) : K unit :=
  h ← holdingsleep (SLBuf b);
  if negb h then panic "bwrite" else
  buf_upd b (fun x => x <| b_flags ::= fun f => Z.lor f B_DIRTY |>);;
  iderw b.

Definition brelse (b : nat) : K unit :=
  h ← holdingsleep (SLBuf b);
  if negb h then panic "brelse" else
  releasesleep (SLBuf b);;
  acquire LBcache;;
  buf_upd b (fun x => x <| b_refcnt ::= fun n => u32 (n - 1) |>);;
  x ← buf_get b;
  when (b_refcnt x =? 0) (relink b);;  (* no one is waiting for it. *)
  release LBcache.
End Bio.

(** ** The list of buffers *)

(** Following [link] from each element of the path leads to the next one. *)
Fixpoint chain_of (link : buf -> nat) (bs : list buf) (path : list nat) : Prop :=
  match path with
  | a :: (b :: _) as r => link <$> bs !! a = Some b /\ chain_of link bs r
  | _ => True
  end.

(** The elements a path leaves from. *)
Definition sources (path : list nat) : list nat := removelast path.

Lemma chain_split link bs p a q :
  chain_of link bs (p ++ a :: q) <-> chain_of link bs (p ++ [a]) /\ chain_of link bs (a :: q).
Proof.
  induction p as [|x p IH]; [simpl; tauto|]. destruct p as [|y p]; simpl in *; [|rewrite IH]; tauto.
Qed.

Lemma chain_ext link bs bs' path :
  (forall a, a ∈ sources path -> link <$> bs' !! a = link <$> bs !! a) ->
  chain_of link bs path -> chain_of link bs' path.
Proof.
  induction path as [|a [|b r] IH]; intros He; [done..|]. intros [H1 H2]. split.
  - rewrite He; [done|by left].
  - apply IH; [|done]. intros x Hx. apply He. by right.
Qed.

Lemma sources_snoc p a : sources (p ++ [a]) = p.
Proof. unfold sources. apply removelast_last. Qed.

Lemma sources_app p a q : sources (p ++ a :: q) = p ++ sources (a :: q).
Proof. unfold sources. by rewrite removelast_app. Qed.

Lemma link_alter_ne {A} (link : buf -> A) (bs : list buf) f a b :
  a <> b -> link <$> alter f a bs !! b = link <$> bs !! b.
Proof. intros H. by rewrite list_lookup_alter_ne. Qed.

(** [f] leaves [link] alone. *)
Lemma link_alter_same {A} (link : buf -> A) (bs : list buf) f a b :
  (forall x, link (f x) = link x) -> link <$> alter f a bs !! b = link <$> bs !! b.
Proof.
  intros Hf. destruct (decide (a = b)) as [->|Hne]; [|by apply link_alter_ne].
  rewrite list_lookup_alter_eq. destruct (bs !! b); simpl; [by rewrite Hf|done].
Qed.

Lemma chain_alter_same link bs f a path :
  (forall x, link (f x) = link x) -> chain_of link bs path -> chain_of link (alter f a bs) path.
Proof. intros Hf. apply chain_ext. intros b _. by apply link_alter_same. Qed.

Lemma chain_alter_out link bs f a path :
  a ∉ sources path -> chain_of link bs path -> chain_of link (alter f a bs) path.
Proof.
  intros Ha. apply chain_ext. intros b Hb. apply link_alter_ne. intros ->. done.
Qed.

(** [a] now leads past [b], straight to [c]. *)
Lemma chain_bypass link bs f p a b c q :
  chain_of link bs (p ++ a :: b :: c :: q) -> (forall x, link (f x) = c) ->
  a ∉ p -> a ∉ sources (c :: q) ->
  chain_of link (alter f a bs) (p ++ a :: c :: q).
Proof.
  intros Hc Hf Hp Hq. rewrite chain_split in Hc. destruct Hc as [Hc1 Hc2].
  destruct Hc2 as [Hab [_ Hc3]]. apply chain_split. split.
  - apply chain_alter_out; [|done]. by rewrite sources_snoc.
  - split; [|by apply chain_alter_out]. rewrite list_lookup_alter_eq.
    destruct (bs !! a); [simpl; by rewrite Hf|done].
Qed.

(** [b] is put between [a] and [c]. *)
Lemma chain_insert link bs f g p a b c q :
  chain_of link bs (p ++ a :: c :: q) -> (forall x, link (f x) = c) -> (forall x, link (g x) = b) ->
  is_Some (bs !! b) -> a <> b -> b ∉ p -> b ∉ sources (c :: q) -> a ∉ p -> a ∉ sources (c :: q) ->
  chain_of link (alter g a (alter f b bs)) (p ++ a :: b :: c :: q).
Proof.
  intros Hc Hf Hg [x Hx] Hab Hbp Hbq Hap Haq. rewrite chain_split in Hc. destruct Hc as [Hc1 [Hac Hc2]].
  apply chain_split. split; [|split; [|split]].
  - apply chain_alter_out; [by rewrite sources_snoc|]. apply chain_alter_out; [by rewrite sources_snoc|done].
  - rewrite list_lookup_alter_eq, list_lookup_alter_ne by done.
    destruct (bs !! a); [simpl; by rewrite Hg|done].
  - rewrite list_lookup_alter_ne by done. rewrite list_lookup_alter_eq, Hx. simpl. by rewrite Hf.
  - apply chain_alter_out; [done|]. by apply chain_alter_out.
Qed.

(** The buffers, the most recently used first, form a ring through the head. *)
Definition ring (bs : list buf) (l : list nat) : Prop :=
  chain_of b_next bs (head :: l ++ [head]) /\ chain_of b_prev bs (head :: rev l ++ [head]) /\
  NoDup (head :: l) /\ Forall (fun i => is_Some (bs !! i)) (head :: l).

Lemma ring_same bs bs' l :
  (forall i, b_next <$> bs' !! i = b_next <$> bs !! i) ->
  (forall i, b_prev <$> bs' !! i = b_prev <$> bs !! i) -> ring bs l -> ring bs' l.
Proof.
  intros Hn Hp (H1 & H2 & H3 & H4). split_and!;
    [by apply (chain_ext b_next bs); [intros; apply Hn|]|by apply (chain_ext b_prev bs); [intros; apply Hp|]|done|].
  eapply Forall_impl; [exact H4|]. intros i [x Hx]. specialize (Hn i). rewrite Hx in Hn. simpl in Hn.
  destruct (bs' !! i); [by eexists|done].
Qed.

(** The element before [b] and the one after it on the way round the ring. *)
Lemma last_of_cons (x : nat) l : exists p a, x :: l = p ++ [a] /\ a ∈ x :: l.
Proof.
  destruct (exists_last (l := x :: l)) as (p & a & E); [done|]. exists p, a. split; [done|].
  rewrite E. set_solver.
Qed.

Lemma first_of_snoc l (x : nat) : exists c q, l ++ [x] = c :: q.
Proof. destruct l as [|y l]; simpl; by do 2 eexists. Qed.

(** The first four stores of [brelse]: take [b] out of the ring. *)
Definition unlink (b : nat) (bs : list buf) : list buf :=
  match bs !! b with
  | Some x => alter (fun y => y <| b_next := b_next x |>) (b_prev x)
                (alter (fun y => y <| b_prev := b_prev x |>) (b_next x) bs)
  | None => bs
  end.

(** One of the two chains, when [b] is taken out between [a] and [c]. *)
Lemma chain_unlink link bs f l1 b l2 a c p q :
  head :: l1 = p ++ [a] -> l2 ++ [head] = c :: q -> NoDup (head :: l1 ++ b :: l2) ->
  chain_of link bs (head :: l1 ++ b :: l2 ++ [head]) -> (forall x, link (f x) = c) ->
  chain_of link (alter f a bs) (head :: (l1 ++ l2) ++ [head]).
Proof.
  intros Ea Ec Hnd Hc Hf. rewrite <- app_assoc, Ec. rewrite Ec in Hc.
  change (head :: l1 ++ c :: q) with ((head :: l1) ++ c :: q).
  change (head :: l1 ++ b :: c :: q) with ((head :: l1) ++ b :: c :: q) in Hc.
  change (head :: l1 ++ b :: l2) with ((head :: l1) ++ b :: l2) in Hnd.
  rewrite Ea, <- app_assoc in *. simpl in *. apply (chain_bypass link bs f p a b c q); [done..| |].
  - intros Hin. apply NoDup_app in Hnd as (_ & Hd & _). apply (Hd a Hin). by left.
  - intros Hin. apply NoDup_app in Hnd as (_ & _ & Hnd). apply NoDup_cons in Hnd as [Hna _].
    apply Hna. right. assert (E : sources (c :: q) = l2) by (rewrite <- Ec; apply sources_snoc).
    by rewrite E in Hin.
Qed.

Lemma chain_lookup link bs p a b q x :
  chain_of link bs (p ++ a :: b :: q) -> bs !! a = Some x -> link x = b.
Proof. intros [_ [H _]]%chain_split Hx. rewrite Hx in H. by simplify_eq/=. Qed.

Lemma ring_unlink bs l1 b l2 : ring bs (l1 ++ b :: l2) -> ring (unlink b bs) (l1 ++ l2).
Proof.
  intros (Hn & Hp & Hnd & Hall).
  assert (Hb : is_Some (bs !! b)) by (rewrite Forall_forall in Hall; apply Hall; set_solver).
  destruct Hb as [x Hx]. unfold unlink. rewrite Hx.
  destruct (last_of_cons head l1) as (p & a & Ea & _). destruct (first_of_snoc l2 head) as (c & q & Ec).
  destruct (last_of_cons head (rev l2)) as (p' & a' & Ea' & _).
  destruct (first_of_snoc (rev l1) head) as (c' & q' & Ec').
  rewrite <- app_assoc in Hn. simpl in Hn. rewrite rev_app_distr in Hp. simpl in Hp.
  rewrite <- !app_assoc in Hp. simpl in Hp.
  assert (Hnx : b_next x = c).
  { eapply (chain_lookup _ _ (head :: l1) b c q); [|done]. simpl. by rewrite <- Ec. }
  assert (Hpx : b_prev x = c').
  { eapply (chain_lookup _ _ (head :: rev l2) b c' q'); [|done]. simpl. by rewrite <- Ec'. }
  assert (Hca : c = a').
  { assert (E : rev (l2 ++ [head]) = p' ++ [a']) by (rewrite rev_app_distr; exact Ea').
    rewrite Ec in E. simpl in E. by apply app_inj_tail in E as [_ ?]. }
  assert (Hca' : c' = a).
  { assert (E : rev (rev l1 ++ [head]) = p ++ [a]) by (rewrite rev_app_distr, rev_involutive; exact Ea).
    rewrite Ec' in E. simpl in E. by apply app_inj_tail in E as [_ ?]. }
  rewrite Hnx, Hpx. split_and!.
  - rewrite Hca'. eapply (chain_unlink b_next _ _ l1 b l2 a c p q); [done..| |done].
    by apply chain_alter_same.
  - rewrite rev_app_distr. apply chain_alter_same; [done|]. rewrite Hca.
    eapply (chain_unlink b_prev _ _ (rev l2) b (rev l1) a' c' p' q'); [done..| |done|done].
    rewrite <- (Permutation_rev l2), <- (Permutation_rev l1). rewrite <- Permutation_middle, (Permutation_app_comm l2).
    by rewrite Permutation_middle.
  - change (head :: l1 ++ b :: l2) with ((head :: l1) ++ b :: l2) in Hnd.
    rewrite <- Permutation_middle in Hnd. by apply NoDup_cons in Hnd as [_ ?].
  - change (head :: l1 ++ b :: l2) with ((head :: l1) ++ b :: l2) in Hall.
    rewrite <- Permutation_middle in Hall. apply Forall_cons in Hall as [_ Hall].
    eapply Forall_impl; [exact Hall|]. intros i Hi. apply lookup_lt_is_Some.
    rewrite !length_alter. by apply lookup_lt_is_Some.
Qed.

Lemma link_alter_congr (link : buf -> nat) (bs bs' : list buf) f a v i :
  (forall x, link (f x) = v) -> link <$> bs !! i = link <$> bs' !! i ->
  link <$> alter f a bs !! i = link <$> alter f a bs' !! i.
Proof.
  intros Hf Hi. destruct (decide (a = i)) as [->|Hne]; [|by rewrite !link_alter_ne].
  rewrite !list_lookup_alter_eq. destruct (bs !! i), (bs' !! i); simpl in *; try done. by rewrite !Hf.
Qed.

(** The last four stores of [brelse], and the body of the loop of [binit]: put [b] at
    the front of the ring. *)
Definition push_front (b : nat) (bs : list buf) : list buf :=
  match bs !! head with
  | Some h =>
    alter (fun y => y <| b_next := b |>) head
      (alter (fun y => y <| b_prev := b |>) (b_next h)
        (alter (fun y => y <| b_prev := head |>) b (alter (fun y => y <| b_next := b_next h |>) b bs)))
  | None => bs
  end.

Lemma ring_push bs m b :
  ring bs m -> b ∉ head :: m -> is_Some (bs !! b) -> ring (push_front b bs) (b :: m).
Proof.
  intros (Hn & Hp & Hnd & Hall) Hb Hbs.
  assert (Hh : is_Some (bs !! head)) by (by apply Forall_cons in Hall as [? _]).
  destruct Hh as [h Hh]. unfold push_front. rewrite Hh.
  destruct (first_of_snoc m head) as (f & r & Ef). destruct (last_of_cons head (rev m)) as (p & a & Ea & _).
  assert (Hf : b_next h = f).
  { eapply (chain_lookup _ _ [] head f r); [|done]. cbn [app]. rewrite <- Ef. exact Hn. }
  assert (Hfa : f = a).
  { assert (E : rev (m ++ [head]) = p ++ [a]) by (rewrite rev_app_distr; exact Ea).
    rewrite Ef in E. simpl in E. by apply app_inj_tail in E as [_ ?]. }
  assert (Hhb : head <> b) by set_solver.
  assert (Hsrc : sources (f :: r) = m) by (rewrite <- Ef; apply sources_snoc).
  apply NoDup_cons in Hnd as [Hhm Hnd]. rewrite Hf. split_and!.
  - cbn [app]. rewrite Ef. rewrite Ef in Hn.
    apply (chain_ext b_next (alter (fun y => y <| b_next := b |>) head
      (alter (fun y => y <| b_next := f |>) b bs))).
    { intros i _. apply (link_alter_congr _ _ _ _ _ b); [done|].
      do 2 rewrite link_alter_same by done. reflexivity. }
    apply (chain_insert b_next bs _ _ [] head b f r); try done.
    + apply not_elem_of_nil.
    + rewrite Hsrc. set_solver.
    + apply not_elem_of_nil.
    + by rewrite Hsrc.
  - apply chain_alter_same; [done|]. simpl rev. rewrite <- app_assoc. cbn [app].
    assert (Hnd' : NoDup (p ++ [a])).
    { rewrite <- Ea. apply NoDup_cons. split; [by rewrite <- Permutation_rev|].
      by rewrite <- Permutation_rev. }
    assert (Hin : forall z, z ∈ p ++ [a] -> z ∈ head :: m).
    { intros z. rewrite <- Ea. by rewrite <- Permutation_rev. }
    change (head :: rev m ++ [b; head]) with ((head :: rev m) ++ [b; head]).
    change (head :: rev m ++ [head]) with ((head :: rev m) ++ [head]) in Hp. rewrite Ea, <- app_assoc in *.
    cbn [app] in *. rewrite Hfa.
    apply (chain_ext b_prev (alter (fun y => y <| b_prev := b |>) a
      (alter (fun y => y <| b_prev := head |>) b bs))).
    { intros i _. apply (link_alter_congr _ _ _ _ _ b); [done|].
      apply (link_alter_congr _ _ _ _ _ head); [done|]. by apply link_alter_same. }
    apply NoDup_app in Hnd' as (_ & Hd & _).
    apply (chain_insert b_prev bs _ _ p a b head []); try done; [|set_solver|set_solver|set_solver|set_solver].
    intros ->. apply Hb, Hin. set_solver.
  - apply NoDup_cons. split; [set_solver|]. apply NoDup_cons. split; [set_solver|done].
  - assert (Hall' : Forall (fun i => is_Some (bs !! i)) (head :: b :: m)).
    { apply Forall_cons in Hall as [H1 H2]. by repeat constructor. }
    eapply Forall_impl; [exact Hall'|]. intros i Hi. apply lookup_lt_is_Some.
    rewrite !length_alter. by apply lookup_lt_is_Some.
Qed.

(** ** Scanning the ring *)

(** The first of the buffers [l] that satisfies a test. *)
Fixpoint first_such (bs : list buf) (test : buf -> bool) (l : list nat) : option nat :=
  match l with
  | [] => None
  | i :: l => if from_option test false (bs !! i) then Some i else first_such bs test l
  end.

Lemma first_such_Some bs test l i :
  first_such bs test l = Some i -> exists x, i ∈ l /\ bs !! i = Some x /\ test x = true.
Proof.
  induction l as [|j l IH]; simpl; [done|]. destruct (bs !! j) as [x|] eqn:E; simpl.
  - destruct (test x) eqn:Et.
    + intros [= <-]. exists x. split_and!; [by left|done|done].
    + intros (y & ? & ?)%IH. exists y. split; [by right|done].
  - intros (y & ? & ?)%IH. exists y. split; [by right|done].
Qed.

Lemma first_such_None bs test l :
  first_such bs test l = None -> forall i x, i ∈ l -> bs !! i = Some x -> test x = false.
Proof.
  induction l as [|j l IH]; simpl; intros H i x Hi Hx; [by apply not_elem_of_nil in Hi|].
  destruct (from_option test false (bs !! j)) eqn:Et; [done|].
  apply elem_of_cons in Hi as [->|Hi]; [by rewrite Hx in Et|by eapply IH].
Qed.

Lemma buf_get_ok i x s : k_bufs s !! i = Some x -> buf_get i s = Ok x s.
Proof. intros H. unfold buf_get. mstep. by rewrite H. Qed.

Lemma bscan_ok link test n l b q s :
  l ++ [head] = b :: q -> chain_of link (k_bufs s) (l ++ [head]) -> head ∉ l ->
  Forall (fun i => is_Some (k_bufs s !! i)) l -> (length l < n)%nat ->
  bscan n link test b s = Ok (first_such (k_bufs s) test l) s.
Proof.
  revert l b q. induction n as [|n IH]; intros l b q E Hc Hh Hall Hn; [lia|]. cbn [bscan].
  destruct l as [|i l]; simpl in E; injection E as <- Eq.
  - by rewrite bool_decide_eq_true_2.
  - rewrite bool_decide_eq_false_2 by set_solver. apply Forall_cons in Hall as [[x Hx] Hall].
    mstep by (by apply buf_get_ok). simpl. rewrite Hx. simpl. destruct (test x); [done|].
    destruct (first_of_snoc l head) as (c & r & Ec).
    assert (Hl : link x = c).
    { eapply (chain_lookup _ _ [] i c r); [|done]. cbn [app]. rewrite <- Ec. exact Hc. }
    rewrite Hl. eapply IH; [exact Ec| |set_solver|done|simpl in Hn; lia].
    rewrite Ec. rewrite <- app_comm_cons, Ec in Hc. apply Hc.
Qed.

Lemma ring_scan_next bs l test s h :
  k_bufs s = bs -> ring bs l -> bs !! head = Some h -> (length l <= NBUF)%nat ->
  bscan (S NBUF) b_next test (b_next h) s = Ok (first_such bs test l) s.
Proof.
  intros <- (Hn & _ & Hnd & Hall) Hh Hlen. destruct (first_of_snoc l head) as (c & q & Ec).
  assert (b_next h = c) as ->.
  { eapply (chain_lookup _ _ [] head c q); [|done]. cbn [app]. rewrite <- Ec. exact Hn. }
  eapply bscan_ok; [exact Ec| |by apply NoDup_cons in Hnd as [? _]|by apply Forall_cons in Hall as [_ ?]|lia].
  rewrite Ec. rewrite Ec in Hn. apply Hn.
Qed.

Lemma ring_scan_prev bs l test s h :
  k_bufs s = bs -> ring bs l -> bs !! head = Some h -> (length l <= NBUF)%nat ->
  bscan (S NBUF) b_prev test (b_prev h) s = Ok (first_such bs test (rev l)) s.
Proof.
  intros <- (_ & Hp & Hnd & Hall) Hh Hlen. destruct (first_of_snoc (rev l) head) as (c & q & Ec).
  assert (b_prev h = c) as ->.
  { eapply (chain_lookup _ _ [] head c q); [|done]. cbn [app]. rewrite <- Ec. exact Hp. }
  apply NoDup_cons in Hnd as [Hnh _]. apply Forall_cons in Hall as [_ Hall].
  eapply bscan_ok; [exact Ec| |by rewrite <- Permutation_rev|by rewrite <- Permutation_rev|rewrite length_rev; lia].
  rewrite Ec. rewrite Ec in Hp. apply Hp.
Qed.

(** ** The contract of a driver *)

(** What bio.c relies on: in kernel mode, for a buffer of disk 1 that the caller has
    locked and whose block exists, [iderw] reads an invalid buffer from the disk, and
    writes a dirty one to it. *)
Class DiskLaws (dsk : Disk) : Prop := {
  iderw_reads : forall i c p pr j x s,
    kmode i c p pr s -> (j < NBUF)%nat -> sl_held (SLBuf j) (p_pid pr) s ->
    k_bufs s !! j = Some x -> b_flags x = 0 -> b_dev x = 1 ->
    0 <= b_blockno x < d_size (k_disk s) ->
    iderw j s = Ok tt (s <| k_bufs := <[j := x <| b_data := d_read (k_disk s) (b_blockno x) |>
                                               <| b_flags := B_VALID |>]> (k_bufs s) |>);
  iderw_writes : forall i c p pr j x s,
    kmode i c p pr s -> (j < NBUF)%nat -> sl_held (SLBuf j) (p_pid pr) s ->
    k_bufs s !! j = Some x -> b_flags x = Z.lor B_VALID B_DIRTY -> b_dev x = 1 ->
    0 <= b_blockno x < d_size (k_disk s) ->
    iderw j s = Ok tt (s <| k_bufs := <[j := x <| b_flags := B_VALID |>]> (k_bufs s) |>
                         <| k_disk ::= set d_writes (cons (b_blockno x, b_data x)) |>) }.

Lemma alter_buf (bs : list buf) i x f : bs !! i = Some x -> alter f i bs = <[i := f x]> bs.
Proof.
  intros Hi. apply list_eq. intros j. destruct (decide (i = j)) as [->|Hne].
  - rewrite list_lookup_alter_eq, Hi, list_lookup_insert_eq; [done|by eapply lookup_lt_Some].
  - by rewrite list_lookup_alter_ne, list_lookup_insert_ne.
Qed.

Lemma buf_upd_ok i x f s :
  k_bufs s !! i = Some x -> buf_upd i f s = Ok tt (s <| k_bufs := <[i := f x]> (k_bufs s) |>).
Proof. intros H. unfold buf_upd, modify. f_equal. kstate_eq. by apply alter_buf. Qed.

Lemma fs_lock_buf j : (j < NBUF)%nat -> fs_lock (LSleep (SLBuf j)) = true.
Proof. intros H. by apply Nat.ltb_lt. Qed.

(** The driver of memide.c keeps the contract. *)
#[export] Instance memide : Disk := memide_iderw.

#[export] Instance memide_laws : DiskLaws memide.
Proof.
  split.
  - intros i c p pr j x s Hk Hj Hh Hx Hf Hd Hb. unfold iderw, memide, memide_iderw.
    mstep by (apply (holdingsleep_held _ (fs_lock_buf j Hj) s Hk Hh)). cbn [negb].
    mstep by (by apply buf_get_ok). rewrite Hf, Hd.
    change (Z.land 0 (Z.lor B_VALID B_DIRTY) =? B_VALID) with false. change (1 =? 1) with true.
    cbn [negb]. mstep. rewrite (proj2 (Z.leb_gt _ _)) by lia. change (Z.land 0 B_DIRTY =? 0) with true.
    cbn [negb]. mstep by (by apply buf_upd_ok). rewrite (buf_upd_ok j (x <| b_data := d_read (k_disk s) (b_blockno x) |>)).
    + f_equal. kstate_eq. rewrite list_insert_insert_eq. destruct x; simpl in *. by subst.
    + rsimpl. apply list_lookup_insert_eq. by eapply lookup_lt_Some.
  - intros i c p pr j x s Hk Hj Hh Hx Hf Hd Hb. unfold iderw, memide, memide_iderw.
    mstep by (apply (holdingsleep_held _ (fs_lock_buf j Hj) s Hk Hh)). cbn [negb].
    mstep by (by apply buf_get_ok). rewrite Hf, Hd.
    change (Z.land (Z.lor B_VALID B_DIRTY) (Z.lor B_VALID B_DIRTY) =? B_VALID) with false.
    change (1 =? 1) with true. cbn [negb]. mstep. rewrite (proj2 (Z.leb_gt _ _)) by lia.
    change (Z.land (Z.lor B_VALID B_DIRTY) B_DIRTY =? 0) with false. cbn [negb].
    mstep by (mstep by (by apply buf_upd_ok); reflexivity).
    rewrite (buf_upd_ok j (x <| b_flags ::= fun f => Z.land f (Z.lnot B_DIRTY) |>)).
    + f_equal. kstate_eq. rewrite list_insert_insert_eq. destruct x; simpl in *. by subst.
    + rsimpl. apply list_lookup_insert_eq. by eapply lookup_lt_Some.
Qed.

(** ** The invariant of the cache *)

(** A buffer is empty, or holds a block of disk 1, valid and possibly dirty. *)
Definition buf_empty (x : buf) : Prop := b_dev x = 0 /\ b_flags x = 0.
Definition buf_full (sz : Z) (x : buf) : Prop :=
  b_dev x = 1 /\ 0 <= b_blockno x < sz /\ (b_flags x = B_VALID \/ b_flags x = Z.lor B_VALID B_DIRTY).

(** The process with pid [pid] has locked the buffers [H], and no other process uses
    the cache; [l] is the order of use. *)
Record bcache_inv (pid : Z) (H l : list nat) (s : kstate) : Prop := {
  bi_len : length (k_bufs s) = S NBUF;
  bi_ring : ring (k_bufs s) l;
  bi_perm : l ≡ₚ seq 0 NBUF;
  bi_shape : forall i x, (i < NBUF)%nat -> k_bufs s !! i = Some x ->
    buf_empty x \/ buf_full (d_size (k_disk s)) x;
  bi_uniq : forall i j x y, (i < NBUF)%nat -> (j < NBUF)%nat -> k_bufs s !! i = Some x ->
    k_bufs s !! j = Some y -> b_dev x = 1 -> b_dev y = 1 -> b_blockno x = b_blockno y -> i = j;
  bi_free : forall i x, (i < NBUF)%nat -> k_bufs s !! i = Some x -> i ∉ H ->
    b_refcnt x = 0 /\ sl_free (SLBuf i) s;
  bi_held : forall i, i ∈ H -> (i < NBUF)%nat /\ sl_held (SLBuf i) pid s /\
    exists x, k_bufs s !! i = Some x /\ b_refcnt x = 1 /\ b_dev x = 1;
  bi_coherent : forall i x, (i < NBUF)%nat -> k_bufs s !! i = Some x -> i ∉ H ->
    b_dev x = 1 -> b_flags x = B_VALID -> b_data x = d_read (k_disk s) (b_blockno x) }.

(** The buffer that holds block [b]. *)
Definition slot (s : kstate) (b : Z) : option nat := first_such (k_bufs s) (cached 1 b) (seq 0 NBUF).

(** What a reader of block [b] sees, and whether the block is dirty. *)
Definition view (s : kstate) (b : Z) : list Z :=
  match slot s b with
  | Some i => from_option b_data [] (k_bufs s !! i)
  | None => d_read (k_disk s) b
  end.
Definition is_dirty (s : kstate) (b : Z) : bool :=
  match slot s b with
  | Some i => from_option (fun x => negb (Z.land (b_flags x) B_DIRTY =? 0)) false (k_bufs s !! i)
  | None => false
  end.

Lemma slot_Some s b i :
  slot s b = Some i -> exists x, (i < NBUF)%nat /\ k_bufs s !! i = Some x /\ b_dev x = 1 /\ b_blockno x = b.
Proof.
  intros (x & Hi%elem_of_seq & Hx & Hc)%first_such_Some. exists x.
  apply andb_prop in Hc as [?%Z.eqb_eq ?%Z.eqb_eq]. split_and!; [lia|done..].
Qed.

Lemma slot_None s b i x :
  slot s b = None -> (i < NBUF)%nat -> k_bufs s !! i = Some x -> b_dev x = 1 -> b_blockno x <> b.
Proof.
  intros Hs Hi Hx Hd Hb. pose proof (first_such_None _ _ _ Hs i x) as Hc.
  rewrite elem_of_seq in Hc. unfold cached in Hc. rewrite Hd, Hb, !Z.eqb_refl in Hc.
  discriminate Hc; [lia|done].
Qed.

Lemma slot_is pid H l s i x :
  bcache_inv pid H l s -> (i < NBUF)%nat -> k_bufs s !! i = Some x -> b_dev x = 1 ->
  slot s (b_blockno x) = Some i.
Proof.
  intros HI Hi Hx Hd. destruct (slot s (b_blockno x)) as [j|] eqn:E.
  - destruct (slot_Some _ _ _ E) as (y & Hj & Hy & Hdy & Hby). f_equal.
    by eapply (bi_uniq _ _ _ _ HI j i y x).
  - by destruct (slot_None _ _ _ _ E Hi Hx Hd).
Qed.

(** The slot of a block depends only on which buffer holds which block. *)
Lemma slot_ext s s' b :
  (forall i, (i < NBUF)%nat -> (fun x => (b_dev x, b_blockno x)) <$> k_bufs s' !! i =
                        (fun x => (b_dev x, b_blockno x)) <$> k_bufs s !! i) ->
  slot s' b = slot s b.
Proof.
  unfold slot. intros He. assert (Hl : forall i, i ∈ seq 0 NBUF -> (i < NBUF)%nat) by (intros i Hi%elem_of_seq; lia).
  revert Hl. generalize (seq 0 NBUF) as l. induction l as [|i l IH]; intros Hl; [done|]. simpl.
  rewrite IH by (intros; apply Hl; by right). specialize (He i (Hl i ltac:(by left))).
  destruct (k_bufs s' !! i) as [x|], (k_bufs s !! i) as [y|]; simpl in *; try done.
  injection He as E1 E2. unfold cached. by rewrite E1, E2.
Qed.

(** The frame of the cache operations. *)
Definition inode_locks (s s' : kstate) : Prop := forall k, k_slocks s' !! SLInode k = k_slocks s !! SLInode k.
Definition bio_frame (s s' : kstate) : Prop :=
  k_hw s' = k_hw s /\ woken (k_procs s) (k_procs s') /\ d_size (k_disk s') = d_size (k_disk s) /\
  (d_init (k_disk s') = d_init (k_disk s) /\ inode_locks s s') /\
  s' = s <| k_bufs := k_bufs s' |> <| k_slocks := k_slocks s' |> <| k_procs := k_procs s' |>
         <| k_disk := k_disk s' |>.

#[global] Instance bio_frame_preorder : PreOrder bio_frame.
Proof.
  split.
  - intros s. split_and!; try done. by destruct s.
  - intros s1 s2 s3 (H1 & H2 & H3 & [H4 H4'] & H5) (H6 & H7 & H8 & [H9 H9'] & H10). split_and!; try congruence.
    + by etrans.
    + rewrite H10, H5. by destruct s1, s3.
Qed.

(** What the operations of bio.c and log.c leave alone, wakeups apart. *)
Definition rest (s s' : kstate) : Prop :=
  woken (k_procs s) (k_procs s') /\ k_files s' = k_files s /\ k_inodes s' = k_inodes s /\ k_sb s' = k_sb s /\ inode_locks s s'.

#[global] Instance rest_preorder : PreOrder rest.
Proof.
  split.
  - intros s. split_and!; try done.
  - intros s1 s2 s3 (H1 & H2 & H3 & H4 & H5) (G1 & G2 & G3 & G4 & G5). split_and!; try congruence. by etrans.
Qed.

Lemma bio_rest s s' : bio_frame s s' -> rest s s'.
Proof. intros (_ & H2 & _ & [_ H4] & H5). split_and!; try done; by rewrite H5. Qed.

Lemma buf_lock_frame i l s s' : k_slocks s' = <[SLBuf i := l]> (k_slocks s) -> inode_locks s s'.
Proof. intros E k. by rewrite E, lookup_insert_ne. Qed.

Lemma kmode_bio i c p pr s s' : kmode i c p pr s -> bio_frame s s' -> kmode i c p pr s'.
Proof. intros Hk (H1 & H2 & _). by eapply kmode_frame. Qed.

(** ** Taking a buffer *)

(** The buffer [x] becomes [y], locked, with block [b]: it already held the block, or
    the block was not cached and [x] could be recycled. *)
Definition takes (s : kstate) (b : Z) (x y : buf) : Prop :=
  b_next y = b_next x /\ b_prev y = b_prev x /\ b_refcnt y = 1 /\ b_dev y = 1 /\ b_blockno y = b /\
  ((b_dev x = 1 /\ b_blockno x = b /\ b_data y = b_data x /\ b_flags y = b_flags x) \/
   (slot s b = None /\ Z.land (b_flags x) B_DIRTY = 0 /\ b_data y = d_read (k_disk s) b /\
    b_flags y = B_VALID)).

(** The state after [bread] has returned buffer [i]. *)
Definition taken (i : nat) (y : buf) (pid : Z) (s : kstate) : kstate :=
  s <| k_bufs := <[i := y]> (k_bufs s) |> <| k_slocks ::= <[SLBuf i := mkSleeplock 1 pid]> |>.

Lemma insert_same_link (link : buf -> nat) (bs : list buf) i x y j :
  bs !! i = Some x -> link y = link x -> link <$> <[i := y]> bs !! j = link <$> bs !! j.
Proof.
  intros Hx Hl. destruct (decide (i = j)) as [<-|Hne]; [|by rewrite list_lookup_insert_ne].
  rewrite list_lookup_insert_eq, Hx by (by eapply lookup_lt_Some). simpl. by rewrite Hl.
Qed.

Lemma ring_insert bs l i x y :
  bs !! i = Some x -> b_next y = b_next x -> b_prev y = b_prev x -> ring bs l -> ring (<[i := y]> bs) l.
Proof.
  intros Hx Hn Hp. apply ring_same; intros j; by eapply insert_same_link.
Qed.

Section Take.
Context {pid : Z} {H l : list nat} {s : kstate} {i : nat} {x y : buf} {b : Z}.
Context (HI : bcache_inv pid H l s) (Hi : (i < NBUF)%nat) (Hx : k_bufs s !! i = Some x) (HiH : i ∉ H).
Context (Hb : 0 <= b < d_size (k_disk s)) (Ht : takes s b x y).

Lemma taken_lookup_eq : k_bufs (taken i y pid s) !! i = Some y.
Proof. apply list_lookup_insert_eq. by eapply lookup_lt_Some. Qed.

Lemma taken_lookup_ne j : j <> i -> k_bufs (taken i y pid s) !! j = k_bufs s !! j.
Proof. intros Hne. by apply list_lookup_insert_ne. Qed.

Lemma taken_flags : b_flags y = B_VALID \/ b_flags y = Z.lor B_VALID B_DIRTY.
Proof.
  destruct Ht as (_ & _ & _ & _ & _ & [(Hd & _ & _ & ->)|(_ & _ & _ & ->)]); [|by left].
  destruct (bi_shape _ _ _ _ HI i x Hi Hx) as [[Hd' _]|(_ & _ & ?)]; [congruence|done].
Qed.

(** No other buffer has the block. *)
Lemma taken_fresh j z : j <> i -> (j < NBUF)%nat -> k_bufs s !! j = Some z -> b_dev z = 1 -> b_blockno z <> b.
Proof.
  intros Hne Hj Hz Hdz Hbz. destruct Ht as (_ & _ & _ & _ & _ & [(Hd & Hbx & _ & _)|(Hs & _)]).
  - apply Hne. eapply (bi_uniq _ _ _ _ HI j i z x); congruence.
  - by destruct (slot_None _ _ _ _ Hs Hj Hz Hdz).
Qed.

Lemma taken_inv : bcache_inv pid (i :: H) l (taken i y pid s).
Proof.
  pose proof Ht as (Hn & Hp & Hrc & Hdy & Hby & Hcase).
  assert (Hlk : forall j z, k_bufs (taken i y pid s) !! j = Some z ->
    (j = i /\ z = y) \/ (j <> i /\ k_bufs s !! j = Some z)).
  { intros j z Hz. destruct (decide (j = i)) as [->|Hne].
    - left. rewrite taken_lookup_eq in Hz. by simplify_eq.
    - right. by rewrite taken_lookup_ne in Hz by done. }
  split.
  - unfold taken. rsimpl. rewrite length_insert. apply HI.
  - eapply ring_insert; [done|done|done|apply HI].
  - apply HI.
  - intros j z Hj [[-> ->]|[Hne Hz]]%Hlk; [|by apply (bi_shape _ _ _ _ HI j)].
    right. split_and!; [done|rewrite Hby; apply Hb..|apply taken_flags].
  - intros j k z w Hj Hk' [[-> ->]|[Hne Hz]]%Hlk [[-> ->]|[Hne' Hw]]%Hlk Hdz Hdw E; [done|..].
    + exfalso. eapply (taken_fresh k w); congruence.
    + exfalso. eapply (taken_fresh j z); congruence.
    + by eapply (bi_uniq _ _ _ _ HI j k z w).
  - intros j z Hj Hz HjH. apply Hlk in Hz as [[-> ->]|[Hne Hz]]; [set_solver|].
    destruct (bi_free _ _ _ _ HI j z Hj Hz) as [H1 H2]; [set_solver|]. split; [done|].
    unfold sl_free, taken in *. rsimpl. rewrite lookup_insert_ne; [done|congruence].
  - intros j Hj. destruct (decide (j = i)) as [->|Hne].
    + split_and!; [done| |exists y; by rewrite taken_lookup_eq].
      exists (mkSleeplock 1 pid). unfold taken. rsimpl. by rewrite lookup_insert_eq.
    + assert (j ∈ H) by set_solver. destruct (bi_held _ _ _ _ HI j) as (H1 & (lk & H2 & H3) & H4); [done|].
      split_and!; [done| |by rewrite taken_lookup_ne]. exists lk. unfold taken. rsimpl.
      rewrite lookup_insert_ne; [done|congruence].
  - intros j z Hj Hz HjH. apply Hlk in Hz as [[-> ->]|[Hne Hz]]; [set_solver|].
    apply (bi_coherent _ _ _ _ HI j); [done..|set_solver].
Qed.

(** Blocks look the same after the buffer has been taken. *)
Lemma taken_blocks b' :
  view (taken i y pid s) b' = view s b' /\ is_dirty (taken i y pid s) b' = is_dirty s b'.
Proof.
  pose proof Ht as (Hn & Hp & Hrc & Hdy & Hby & Hcase). unfold view, is_dirty.
  assert (Hclean : Z.land B_VALID B_DIRTY = 0) by done.
  destruct (slot (taken i y pid s) b') as [j|] eqn:Es'.
  - destruct (slot_Some _ _ _ Es') as (z & Hj & Hz & Hdz & Hbz). destruct (decide (j = i)) as [->|Hne].
    + rewrite taken_lookup_eq in *. simplify_eq. simpl.
      destruct Hcase as [(Hdx & Hbx & -> & ->)|(Hs & _ & -> & ->)].
      * rewrite <- Hbx, (slot_is _ _ _ _ _ _ HI Hi Hx Hdx), Hx. done.
      * rewrite Hs. done.
    + rewrite taken_lookup_ne in * by done. rewrite Hz. simpl. subst b'.
      by rewrite (slot_is _ _ _ _ _ _ HI Hj Hz Hdz), Hz.
  - destruct (slot s b') as [j|] eqn:Es; [|done].
    destruct (slot_Some _ _ _ Es) as (z & Hj & Hz & Hdz & Hbz). destruct (decide (j = i)) as [->|Hne].
    + assert (z = x) as -> by congruence. rewrite Hx. simpl. destruct Hcase as [(_ & E & _)|(_ & Hdirty & _)].
      * destruct (slot_None _ _ _ _ Es' Hi taken_lookup_eq Hdy). congruence.
      * rewrite Hdirty. split; [|done]. symmetry. rewrite <- Hbz. eapply (bi_coherent _ _ _ _ HI i); [done..|].
        destruct (bi_shape _ _ _ _ HI i x Hi Hx) as [[? _]|(_ & _ & [?|E])]; [congruence|done|].
        rewrite E in Hdirty. done.
    + by destruct (slot_None _ _ _ z Es' Hj ltac:(by rewrite taken_lookup_ne) Hdz).
Qed.
End Take.

Lemma bio_frame_taken i y pid s : bio_frame s (taken i y pid s).
Proof. split_and!; try done. by apply buf_lock_frame with i (mkSleeplock 1 pid). Qed.

Lemma sl_held_taken i y pid s : sl_held (SLBuf i) pid (taken i y pid s).
Proof. exists (mkSleeplock 1 pid). unfold taken. rsimpl. by rewrite lookup_insert_eq. Qed.

(** ** Moving a buffer to the front *)

(** Everything in a buffer but its links. *)
Definition payload (x : buf) : Z * Z * Z * Z * list Z :=
  (b_flags x, b_dev x, b_blockno x, b_refcnt x, b_data x).

Lemma payload_relink b bs j : payload <$> push_front b (unlink b bs) !! j = payload <$> bs !! j.
Proof.
  unfold push_front. destruct (unlink b bs !! head) as [h|].
  - rewrite !link_alter_same by done. unfold unlink. destruct (bs !! b); [|done].
    by rewrite !link_alter_same.
  - unfold unlink. destruct (bs !! b); [|done]. by rewrite !link_alter_same.
Qed.

Lemma relink_ok b l1 l2 s :
  ring (k_bufs s) (l1 ++ b :: l2) ->
  relink b s = Ok tt (s <| k_bufs := push_front b (unlink b (k_bufs s)) |>) /\
  ring (push_front b (unlink b (k_bufs s))) (b :: l1 ++ l2).
Proof.
  intros Hr. pose proof Hr as (Hn & _ & Hnd & Hall).
  change (head :: l1 ++ b :: l2) with ((head :: l1) ++ b :: l2) in Hnd, Hall.
  rewrite <- Permutation_middle in Hnd, Hall. apply NoDup_cons in Hnd as [Hb _].
  apply Forall_cons in Hall as [[x Hx] _].
  pose proof (ring_unlink _ _ _ _ Hr) as Hu. pose proof Hu as (_ & _ & _ & Hallu).
  apply Forall_cons in Hallu as [[h Hh] _].
  assert (Hnb : b_next x <> b).
  { destruct (first_of_snoc l2 head) as (c & q & Ec).
    assert (b_next x = c) as ->.
    { eapply (chain_lookup _ _ (head :: l1) b c q); [|done]. cbn [app]. rewrite <- Ec.
      rewrite <- app_assoc in Hn. exact Hn. }
    intros E. destruct l2 as [|d l2]; simpl in Ec; injection Ec as Ec _; set_solver. }
  assert (Hhb : head <> b) by set_solver.
  split.
  - unfold relink, push_front. mstep by (by apply buf_get_ok). unfold buf_upd. mstep.
    mstep by (apply (buf_get_ok b x); rsimpl; by rewrite list_lookup_alter_ne). mstep.
    assert (Eu : unlink b (k_bufs s) = alter (fun y => y <| b_next := b_next x |>) (b_prev x)
      (alter (fun y => y <| b_prev := b_prev x |>) (b_next x) (k_bufs s))) by (unfold unlink; by rewrite Hx).
    rewrite Eu in Hh. rewrite Eu, Hh. mstep by (by apply buf_get_ok). mstep. mstep.
    mstep by (apply (buf_get_ok head h); rsimpl; by rewrite !list_lookup_alter_ne by done). mstep. done.
  - apply ring_push; [done|set_solver|]. unfold unlink. rewrite Hx. apply lookup_lt_is_Some.
    rewrite !length_alter. by eapply lookup_lt_Some.
Qed.

(** ** Changing a locked buffer *)

Section Change.
Context {pid : Z} {H l : list nat} {s s' : kstate} {i : nat} {x y : buf}.
Context (HI : bcache_inv pid H l s) (HiH : i ∈ H) (Hx : k_bufs s !! i = Some x).
Context (Hbufs : k_bufs s' = <[i := y]> (k_bufs s)) (Hsl : k_slocks s' = k_slocks s).
Context (Hsz : d_size (k_disk s') = d_size (k_disk s)).
Context (Hrd : forall b, b <> b_blockno x -> d_read (k_disk s') b = d_read (k_disk s) b).
Context (Hy : b_next y = b_next x /\ b_prev y = b_prev x /\ b_dev y = b_dev x /\
              b_blockno y = b_blockno x /\ b_refcnt y = b_refcnt x).
Context (Hfl : b_flags y = B_VALID \/ b_flags y = Z.lor B_VALID B_DIRTY).

Lemma change_lookup j z :
  k_bufs s' !! j = Some z -> (j = i /\ z = y) \/ (j <> i /\ k_bufs s !! j = Some z).
Proof.
  rewrite Hbufs. intros Hz. destruct (decide (j = i)) as [->|Hne].
  - left. rewrite list_lookup_insert_eq in Hz by (by eapply lookup_lt_Some). by simplify_eq.
  - right. by rewrite list_lookup_insert_ne in Hz by done.
Qed.

Lemma change_dev : b_dev x = 1.
Proof. destruct (bi_held _ _ _ _ HI i HiH) as (_ & _ & x' & Hx' & _ & Hd). congruence. Qed.

Lemma change_inv : bcache_inv pid H l s'.
Proof.
  pose proof Hy as (Hn & Hp & Hd & Hb & Hr). pose proof change_dev as Hdx.
  destruct (bi_held _ _ _ _ HI i HiH) as (Hi & _). split.
  - rewrite Hbufs, length_insert. apply HI.
  - rewrite Hbufs. eapply ring_insert; [done..|apply HI].
  - apply HI.
  - rewrite Hsz. intros j z Hj [[-> ->]|[Hne Hz]]%change_lookup; [|by apply (bi_shape _ _ _ _ HI j)].
    right. destruct (bi_shape _ _ _ _ HI i x Hi Hx) as [[? _]|(_ & ? & _)]; [congruence|].
    split_and!; [congruence|rewrite Hb; lia..|done].
  - intros j k z w Hj Hk' Hz Hw Hdz Hdw E.
    apply change_lookup in Hz as [[-> ->]|[Hne Hz]]; apply change_lookup in Hw as [[-> ->]|[Hne' Hw]]; [done|..].
    + eapply (bi_uniq _ _ _ _ HI i k x w); congruence.
    + eapply (bi_uniq _ _ _ _ HI j i z x); congruence.
    + by eapply (bi_uniq _ _ _ _ HI j k z w).
  - intros j z Hj Hz HjH. apply change_lookup in Hz as [[-> ->]|[Hne Hz]]; [done|].
    unfold sl_free. rewrite Hsl. by apply (bi_free _ _ _ _ HI j z).
  - intros j Hj. destruct (bi_held _ _ _ _ HI j Hj) as (H1 & H2 & z & H3 & H4 & H5).
    unfold sl_held. rewrite Hsl. split_and!; [done..|]. rewrite Hbufs.
    destruct (decide (j = i)) as [->|Hne].
    + exists y. rewrite list_lookup_insert_eq by (by eapply lookup_lt_Some). split_and!; congruence.
    + exists z. by rewrite list_lookup_insert_ne.
  - intros j z Hj Hz HjH Hdz Hfz. apply change_lookup in Hz as [[-> ->]|[Hne Hz]]; [done|].
    rewrite Hrd; [by apply (bi_coherent _ _ _ _ HI j)|]. intros E.
    apply Hne. eapply (bi_uniq _ _ _ _ HI j i z x); congruence.
Qed.

Lemma change_slot b : slot s' b = slot s b.
Proof.
  pose proof Hy as (Hn & Hp & Hd & Hb & Hr). apply slot_ext. intros j Hj. rewrite Hbufs.
  destruct (decide (j = i)) as [->|Hne]; [|by rewrite list_lookup_insert_ne].
  rewrite list_lookup_insert_eq, Hx by (by eapply lookup_lt_Some). simpl. congruence.
Qed.

Lemma change_blocks b :
  view s' b = (if decide (b = b_blockno x) then b_data y else view s b) /\
  is_dirty s' b = (if decide (b = b_blockno x) then negb (Z.land (b_flags y) B_DIRTY =? 0)
                   else is_dirty s b).
Proof.
  destruct (bi_held _ _ _ _ HI i HiH) as (Hi & _). unfold view, is_dirty. rewrite change_slot.
  assert (Hyl : k_bufs s' !! i = Some y).
  { rewrite Hbufs. apply list_lookup_insert_eq. by eapply lookup_lt_Some. }
  case_decide as Hb.
  - rewrite Hb, (slot_is _ _ _ _ _ _ HI Hi Hx change_dev), Hyl. done.
  - destruct (slot s b) as [j|] eqn:Es; [|by rewrite Hrd].
    destruct (slot_Some _ _ _ Es) as (z & Hj & Hz & Hdz & Hbz).
    assert (j <> i) by congruence. rewrite Hbufs, list_lookup_insert_ne by done. done.
Qed.
End Change.

Section Operations.
Context {fl : Fuel} {dsk : Disk} {laws : DiskLaws dsk}.
Context {ci : nat} {c : cpu} {p : nat} {pr : proc}.
Local Abbreviation pid := (p_pid pr).

(** Some buffer can be recycled. *)
Definition has_room (H : list nat) (s : kstate) : Prop :=
  exists i x, (i < NBUF)%nat /\ k_bufs s !! i = Some x /\ (i ∉ H) /\ Z.land (b_flags x) B_DIRTY = 0.

Lemma bcache_head H l s : bcache_inv pid H l s -> exists h, k_bufs s !! head = Some h.
Proof.
  intros HI. destruct (lookup_lt_is_Some_2 (k_bufs s) head) as [h Hh]; [|by exists h].
  rewrite (bi_len _ _ _ _ HI). unfold head. lia.
Qed.

Lemma bcache_order H l s i : bcache_inv pid H l s -> i ∈ l <-> (i < NBUF)%nat.
Proof. intros HI. rewrite (bi_perm _ _ _ _ HI), elem_of_seq. lia. Qed.

Lemma bcache_length H l s : bcache_inv pid H l s -> (length l <= NBUF)%nat.
Proof. intros HI. rewrite (bi_perm _ _ _ _ HI), length_seq. lia. Qed.

(** The buffer chosen by [bget] is locked; its entry has been set up for the block. *)
Definition recycled (b : Z) (x : buf) : buf :=
  x <| b_dev := 1 |> <| b_blockno := b |> <| b_flags := 0 |> <| b_refcnt := 1 |>.

Lemma bget_tail i y s :
  kmode ci c p pr s -> (i < NBUF)%nat -> sl_free (SLBuf i) s -> is_Some (k_bufs s !! i) ->
  (release LBcache;; acquiresleep (SLBuf i);; ret i)
    (s <| k_hw ::= acquired ci c LBcache |> <| k_bufs := <[i := y]> (k_bufs s) |>) =
  Ok i (taken i y pid s).
Proof.
  intros Hk Hi Hf _. mstep by (by apply (kmode_release LBcache s _ Hk)).
  set (s1 := set k_hw _ _).
  assert (Hk1 : kmode ci c p pr s1) by (by apply (kmode_frame ci c p pr s)).
  mstep by (apply (acquiresleep_free _ (fs_lock_buf i Hi) s1 Hk1 Hf)). done.
Qed.

Lemma bget_ok H l b s :
  kmode ci c p pr s -> bcache_inv pid H l s -> 0 <= b < d_size (k_disk s) ->
  (forall i x, i ∈ H -> k_bufs s !! i = Some x -> b_blockno x <> b) ->
  is_Some (slot s b) \/ has_room H s ->
  exists i x y, (i < NBUF)%nat /\ (i ∉ H) /\ k_bufs s !! i = Some x /\
    bget 1 b s = Ok i (taken i y pid s) /\
    ((takes s b x y /\ b_flags y <> 0) \/
     (y = recycled b x /\ slot s b = None /\ Z.land (b_flags x) B_DIRTY = 0)).
Proof.
  intros Hk HI Hb HH Hroom.
  destruct (bcache_head H l s HI) as [h Hh]. pose proof (bcache_length H l s HI) as Hlen.
  unfold bget. mstep by (by eapply (kmode_acquire LBcache)). mstep by (by apply buf_get_ok).
  mstep by (apply (ring_scan_next (k_bufs s) l); [done|apply HI|done|done]).
  destruct (first_such (k_bufs s) (cached 1 b) l) as [i|] eqn:E.
  - destruct (first_such_Some _ _ _ _ E) as (x & Hil & Hx & Hc). apply (bcache_order H l s i HI) in Hil.
    apply andb_prop in Hc as [Hd%Z.eqb_eq Hbx%Z.eqb_eq].
    assert (HiH : i ∉ H) by (intros HiH; by apply (HH i x HiH Hx)).
    destruct (bi_free _ _ _ _ HI i x Hil Hx HiH) as [Hrc Hsl].
    exists i, x, (x <| b_refcnt := 1 |>). split_and!; [done..| |].
    + mstep by (by apply buf_upd_ok). rewrite <- (bget_tail i _ s Hk Hil Hsl) by done. f_equal.
      unfold set. simpl. by rewrite Hrc.
    + left. destruct (bi_shape _ _ _ _ HI i x Hil Hx) as [[? _]|(_ & _ & Hfl)]; [congruence|].
      split; [by split_and!; try left|]. rsimpl. destruct Hfl as [-> | ->]; done.
  - assert (Hs : slot s b = None).
    { destruct (slot s b) as [j|] eqn:Es; [|done].
      destruct (slot_Some _ _ _ Es) as (z & Hj & Hz & Hdz & Hbz).
      pose proof (first_such_None _ _ _ E j z ltac:(by apply (bcache_order H l s j HI)) Hz) as Hc.
      unfold cached in Hc. by rewrite Hdz, Hbz, !Z.eqb_refl in Hc. }
    destruct Hroom as [[j Hj]|(r & xr & Hr & Hxr & HrH & Hrd)]; [congruence|].
    mstep by (by apply buf_get_ok).
    mstep by (apply (ring_scan_prev (k_bufs s) l); [done|apply HI|done|done]).
    destruct (first_such (k_bufs s) recyclable (rev l)) as [i|] eqn:E'.
    + destruct (first_such_Some _ _ _ _ E') as (x & Hil & Hx & Hc). rewrite <- Permutation_rev in Hil.
      apply (bcache_order H l s i HI) in Hil. apply andb_prop in Hc as [Hrc%Z.eqb_eq Hdirty%Z.eqb_eq].
      assert (HiH : i ∉ H).
      { intros HiH. destruct (bi_held _ _ _ _ HI i HiH) as (_ & _ & x' & Hx' & Hr' & _). congruence. }
      destruct (bi_free _ _ _ _ HI i x Hil Hx HiH) as [_ Hsl].
      exists i, x, (recycled b x). split_and!; [done..| |].
      * mstep by (by apply buf_upd_ok). by rewrite <- (bget_tail i _ s Hk Hil Hsl).
      * right. by split_and!.
    + exfalso. assert (Hrl : r ∈ rev l) by (rewrite <- Permutation_rev; by apply (bcache_order H l s r HI)).
      pose proof (first_such_None _ _ _ E' r xr Hrl Hxr) as Hc. unfold recyclable in Hc.
      destruct (bi_free _ _ _ _ HI r xr Hr Hxr HrH) as [Hrc _]. by rewrite Hrc, Hrd in Hc.
Qed.

(** [bread] returns a locked buffer with the contents of the block; to a reader nothing
    has changed. *)
Lemma bread_ok H l b s :
  kmode ci c p pr s -> bcache_inv pid H l s -> 0 <= b < d_size (k_disk s) ->
  (forall i x, i ∈ H -> k_bufs s !! i = Some x -> b_blockno x <> b) ->
  is_Some (slot s b) \/ has_room H s ->
  exists i y s', bread 1 b s = Ok i s' /\ (i ∉ H) /\ bcache_inv pid (i :: H) l s' /\
    k_bufs s' !! i = Some y /\ b_blockno y = b /\ b_data y = view s b /\
    (b_flags y = Z.lor B_VALID B_DIRTY \/ b_data y = d_read (k_disk s) b) /\
    (forall j, j ∈ H -> k_bufs s' !! j = k_bufs s !! j) /\
    (forall b', view s' b' = view s b' /\ is_dirty s' b' = is_dirty s b') /\
    bio_frame s s' /\ k_disk s' = k_disk s.
Proof.
  intros Hk HI Hb HH Hroom.
  destruct (bget_ok H l b s Hk HI Hb HH Hroom) as (i & x & y & Hi & HiH & Hx & Hget & Hcase).
  assert (Hly : k_bufs (taken i y pid s) !! i = Some y) by (eapply taken_lookup_eq, Hx).
  assert (Hend : forall z, takes s b x z ->
    bread 1 b s = Ok i (taken i z pid s) -> exists i y s', bread 1 b s = Ok i s' /\ (i ∉ H) /\
    bcache_inv pid (i :: H) l s' /\ k_bufs s' !! i = Some y /\ b_blockno y = b /\ b_data y = view s b /\
    (b_flags y = Z.lor B_VALID B_DIRTY \/ b_data y = d_read (k_disk s) b) /\
    (forall j, j ∈ H -> k_bufs s' !! j = k_bufs s !! j) /\
    (forall b', view s' b' = view s b' /\ is_dirty s' b' = is_dirty s b') /\
    bio_frame s s' /\ k_disk s' = k_disk s).
  { intros z Ht Hrun. exists i, z, (taken i z pid s).
    assert (Hlz : k_bufs (taken i z pid s) !! i = Some z) by (eapply taken_lookup_eq, Hx).
    split_and!; try done.
    - by apply (taken_inv HI Hi Hx HiH Hb Ht).
    - apply Ht.
    - destruct (taken_blocks HI Hi Hx HiH Hb Ht b) as [<- _]. unfold view.
      pose proof (taken_inv HI Hi Hx HiH Hb Ht) as HI'. pose proof Ht as (_ & _ & _ & Hd & <- & _).
      by rewrite (slot_is _ _ _ _ _ _ HI' Hi Hlz Hd), Hlz.
    - destruct (bi_shape _ _ _ _ HI i x Hi Hx) as [[Hd0 Hf0]|(_ & _ & Hfl)];
        destruct Ht as (_ & _ & _ & _ & _ & [(Hdx & Hbx & -> & ->)|(_ & _ & -> & _)]); [congruence|by right| |by right].
      destruct Hfl as [Hv|Hv]; [right|by left]. rewrite <- Hbx. by apply (bi_coherent _ _ _ _ HI i).
    - intros j Hj. apply taken_lookup_ne. set_solver.
    - intros b'. by apply (taken_blocks HI Hi Hx HiH Hb Ht).
    - apply bio_frame_taken. }
  destruct Hcase as [[Ht Hf]|(-> & Hs & Hd)].
  - apply (Hend y Ht). unfold bread. mstep with (Hget). mstep by (by apply buf_get_ok).
    destruct (taken_flags HI Hi Hx Ht) as [-> | ->]; done.
  - apply (Hend (x <| b_dev := 1 |> <| b_blockno := b |> <| b_refcnt := 1 |>
                   <| b_data := d_read (k_disk s) b |> <| b_flags := B_VALID |>)).
    { split_and!; try done. right. by split_and!. }
    unfold bread. mstep with (Hget). mstep by (by apply buf_get_ok). cbn [when].
    mstep by (apply (iderw_reads ci c p pr i (recycled b x)); try done;
              [by eapply kmode_bio; [|apply bio_frame_taken]|apply sl_held_taken]).
    unfold ret. f_equal. unfold taken. apply kstate_ext; rsimpl; try reflexivity.
    by rewrite list_insert_insert_eq.
Qed.

(** [bwrite] puts the contents of a locked buffer on the disk. *)
Lemma bwrite_ok H l i x s :
  kmode ci c p pr s -> bcache_inv pid H l s -> i ∈ H -> k_bufs s !! i = Some x ->
  exists s', bwrite i s = Ok tt s' /\ bcache_inv pid H l s' /\
    k_bufs s' = <[i := x <| b_flags := B_VALID |>]> (k_bufs s) /\
    k_disk s' = (k_disk s) <| d_writes ::= cons (b_blockno x, b_data x) |> /\
    (forall b, view s' b = (if decide (b = b_blockno x) then b_data x else view s b) /\
       is_dirty s' b = (if decide (b = b_blockno x) then false else is_dirty s b)) /\
    bio_frame s s'.
Proof.
  intros Hk HI HiH Hx. destruct (bi_held _ _ _ _ HI i HiH) as (Hi & Hh & x' & Hx' & _ & Hd).
  simplify_eq. destruct (bi_shape _ _ _ _ HI i x Hi Hx) as [[? _]|(_ & Hb & Hfl)]; [congruence|].
  assert (Hor : Z.lor (b_flags x) B_DIRTY = Z.lor B_VALID B_DIRTY) by (by destruct Hfl as [-> | ->]).
  set (s' := s <| k_bufs := <[i := x <| b_flags := B_VALID |>]> (k_bufs s) |>
               <| k_disk ::= set d_writes (cons (b_blockno x, b_data x)) |>).
  assert (Hrd : forall b, b <> b_blockno x -> d_read (k_disk s') b = d_read (k_disk s) b).
  { intros b Hne. unfold d_read, s'. rsimpl. simpl. by rewrite (proj2 (Z.eqb_neq _ _)) by congruence. }
  exists s'. split_and!; try done.
  - unfold bwrite. mstep by (apply (holdingsleep_held _ (fs_lock_buf i Hi) s Hk Hh)). cbn [negb].
    mstep by (by apply buf_upd_ok).
    rewrite (iderw_writes ci c p pr i (x <| b_flags ::= fun f => Z.lor f B_DIRTY |>)); try done.
    + unfold s'. f_equal. apply kstate_ext; rsimpl; try reflexivity. by rewrite list_insert_insert_eq.
    + by apply (kmode_frame ci c p pr s).
    + rsimpl. apply list_lookup_insert_eq. by eapply lookup_lt_Some.
  - eapply (change_inv (s := s) (i := i) (x := x) (y := x <| b_flags := B_VALID |>)); try done. by left.
  - intros b. destruct (change_blocks (s' := s') (y := x <| b_flags := B_VALID |>) HI HiH Hx)
      with (b := b) as [H1 H2]; done.
Qed.

(** The client fills a locked buffer. *)
Lemma fill_ok H l i x d s :
  bcache_inv pid H l s -> i ∈ H -> k_bufs s !! i = Some x ->
  let s' := s <| k_bufs := <[i := x <| b_data := d |>]> (k_bufs s) |> in
  bcache_inv pid H l s' /\ bio_frame s s' /\
  (forall b, view s' b = (if decide (b = b_blockno x) then d else view s b) /\
             is_dirty s' b = is_dirty s b).
Proof.
  intros HI HiH Hx s'. destruct (bi_held _ _ _ _ HI i HiH) as (Hi & Hh & x' & Hx' & _ & Hd). simplify_eq.
  assert (Hfl : b_flags (x <| b_data := d |>) = B_VALID \/
                b_flags (x <| b_data := d |>) = Z.lor B_VALID B_DIRTY).
  { destruct (bi_shape _ _ _ _ HI i x Hi Hx) as [[? _]|(_ & _ & ?)]; [congruence|done]. }
  split_and!.
  - eapply (change_inv (s := s) (i := i) (x := x) (y := x <| b_data := d |>)); done.
  - by split_and!.
  - intros b. destruct (change_blocks (s' := s') (y := x <| b_data := d |>) HI HiH Hx) with (b := b)
      as [H1 H2]; try done. split; [done|]. rewrite H2. case_decide as Hb; [|done]. rsimpl.
    unfold is_dirty. by rewrite Hb, (slot_is _ _ _ _ _ _ HI Hi Hx Hd), Hx.
Qed.

(** A buffer that agrees with the disk, or is dirty, is given back. *)
Lemma released_inv H l l' i x s s' :
  bcache_inv pid (i :: H) l s -> (i ∉ H) -> k_bufs s !! i = Some x ->
  (b_flags x = Z.lor B_VALID B_DIRTY \/ b_data x = d_read (k_disk s) (b_blockno x)) ->
  length (k_bufs s') = S NBUF -> ring (k_bufs s') l' -> l' ≡ₚ l ->
  (forall j, payload <$> k_bufs s' !! j = payload <$> <[i := x <| b_refcnt := 0 |>]> (k_bufs s) !! j) ->
  k_slocks s' = <[SLBuf i := mkSleeplock 0 0]> (k_slocks s) -> k_disk s' = k_disk s ->
  bcache_inv pid H l' s' /\ (forall b, view s' b = view s b /\ is_dirty s' b = is_dirty s b).
Proof.
  intros HI HiH Hx Hco Hlen Hring Hperm Hpay Hsl Hdk.
  assert (Hil : (i < length (k_bufs s))%nat) by (by eapply lookup_lt_Some).
  assert (Hlk : forall j z', k_bufs s' !! j = Some z' -> exists z, k_bufs s !! j = Some z /\
    b_flags z' = b_flags z /\ b_dev z' = b_dev z /\ b_blockno z' = b_blockno z /\ b_data z' = b_data z /\
    b_refcnt z' = if decide (j = i) then 0 else b_refcnt z).
  { intros j z' Hz'. specialize (Hpay j). rewrite Hz' in Hpay. destruct (decide (j = i)) as [->|Hne].
    - rewrite list_lookup_insert_eq in Hpay by done. simpl in Hpay. injection Hpay as ? ? ? ? ?.
      exists x. by split_and!.
    - rewrite list_lookup_insert_ne in Hpay by done. destruct (k_bufs s !! j) as [z|]; [|done].
      injection Hpay as ? ? ? ? ?. exists z. by split_and!. }
  assert (Hslot : forall b, slot s' b = slot s b).
  { intros b. apply slot_ext. intros j _. specialize (Hpay j). destruct (decide (j = i)) as [->|Hne].
    - rewrite list_lookup_insert_eq in Hpay by done. rewrite Hx. destruct (k_bufs s' !! i); [|done].
      injection Hpay as ? ? ? ? ?. simpl. congruence.
    - rewrite list_lookup_insert_ne in Hpay by done.
      unfold payload in Hpay. destruct (k_bufs s !! j), (k_bufs s' !! j); simpl in *; congruence. }
  split; [split|].
  - done.
  - done.
  - rewrite Hperm. apply HI.
  - rewrite Hdk. intros j z' Hj (z & Hz & H1 & H2 & H3 & _)%Hlk. unfold buf_empty, buf_full.
    rewrite H1, H2, H3. by apply (bi_shape _ _ _ _ HI j).
  - intros j k z w Hj Hk (z0 & Hz & _ & H2 & H3 & _)%Hlk (w0 & Hw & _ & H2' & H3' & _)%Hlk.
    rewrite H2, H3, H2', H3'. by apply (bi_uniq _ _ _ _ HI).
  - intros j z' Hj (z & Hz & _ & _ & _ & _ & H5)%Hlk HjH. unfold sl_free. rewrite Hsl, H5.
    destruct (decide (j = i)) as [->|Hne]; [by rewrite lookup_insert_eq|].
    rewrite lookup_insert_ne by congruence. apply (bi_free _ _ _ _ HI j z); [done..|set_solver].
  - intros j Hj. assert (j <> i) by set_solver.
    destruct (bi_held _ _ _ _ HI j) as (H1 & H2 & z & H3 & H4 & H5); [by right|].
    split_and!; [done| |].
    + unfold sl_held. rewrite Hsl, lookup_insert_ne by congruence. exact H2.
    + destruct (lookup_lt_is_Some_2 (k_bufs s') j) as [z' Hz'].
      { rewrite Hlen, <- (bi_len _ _ _ _ HI). by eapply lookup_lt_Some. }
      destruct (Hlk j z' Hz') as (z0 & Hz0 & _ & E2 & _ & _ & E5). rewrite decide_False in E5 by done.
      exists z'. split_and!; congruence.
  - rewrite Hdk. intros j z' Hj (z & Hz & H1 & H2 & H3 & H4 & _)%Hlk HjH. rewrite H1, H2, H3, H4.
    destruct (decide (j = i)) as [->|Hne]; [|apply (bi_coherent _ _ _ _ HI j); [done..|set_solver]].
    simplify_eq. intros _ Hfl. destruct Hco as [Hco|Hco]; [|done]. rewrite Hfl in Hco. done.
  - intros b. unfold view, is_dirty. rewrite Hslot. destruct (slot s b) as [j|] eqn:Es.
    + destruct (slot_Some _ _ _ Es) as (z & Hj & Hz & _).
      destruct (lookup_lt_is_Some_2 (k_bufs s') j) as [z' Hz'].
      { rewrite Hlen. lia. }
      destruct (Hlk j z' Hz') as (z0 & Hz0 & E1 & _ & _ & E4 & _). rewrite Hz', Hz. simpl.
      assert (z0 = z) as -> by congruence. by rewrite E1, E4.
    + by rewrite Hdk.
Qed.

Lemma brelse_ok H l i x s :
  kmode ci c p pr s -> bcache_inv pid (i :: H) l s -> (i ∉ H) -> k_bufs s !! i = Some x ->
  (b_flags x = Z.lor B_VALID B_DIRTY \/ b_data x = d_read (k_disk s) (b_blockno x)) ->
  exists l' s', brelse i s = Ok tt s' /\ bcache_inv pid H l' s' /\
    (forall j, payload <$> k_bufs s' !! j = payload <$> <[i := x <| b_refcnt := 0 |>]> (k_bufs s) !! j) /\
    (forall b, view s' b = view s b /\ is_dirty s' b = is_dirty s b) /\
    bio_frame s s' /\ k_disk s' = k_disk s.
Proof.
  intros Hk HI HiH Hx Hco.
  destruct (bi_held _ _ _ _ HI i ltac:(by left)) as (Hi & Hh & x' & Hx' & Hrc & Hd). simplify_eq.
  set (s1 := s <| k_slocks ::= <[SLBuf i := mkSleeplock 0 0]> |>
               <| k_procs ::= map (wake_one (Some (CSleeplock (SLBuf i)))) |>).
  assert (Hk1 : kmode ci c p pr s1) by (apply (kmode_frame ci c p pr s); [done|done|apply woken_wakeup]).
  set (bs := <[i := x <| b_refcnt := 0 |>]> (k_bufs s)).
  assert (Hr : ring bs l) by (eapply ring_insert; [exact Hx|done|done|apply HI]).
  assert (Hil : i ∈ l) by (by apply (bcache_order (i :: H) l s i HI)).
  apply list_elem_of_split in Hil as (l1 & l2 & ->).
  set (s2 := s1 <| k_hw ::= acquired ci c LBcache |> <| k_bufs := bs |>).
  destruct (relink_ok i l1 l2 s2 Hr) as [Hrl Hr'].
  set (s' := s1 <| k_bufs := push_front i (unlink i bs) |>).
  destruct (released_inv H (l1 ++ i :: l2) (i :: l1 ++ l2) i x s s') as [HI' Hv]; try done.
  { assert (Hpl : payload <$> k_bufs s' !! head = payload <$> bs !! head) by apply payload_relink.
    unfold s', push_front, unlink. rsimpl.
    assert (length bs = S NBUF) by (unfold bs; rewrite length_insert; apply HI).
    repeat case_match; by rewrite ?length_alter. }
  { apply Permutation_middle. }
  { intros j. apply payload_relink. }
  exists (i :: l1 ++ l2), s'. split_and!; try done.
  - unfold brelse. mstep by (apply (holdingsleep_held _ (fs_lock_buf i Hi) s Hk Hh)). cbn [negb].
    mstep by (apply (releasesleep_owner _ (fs_lock_buf i Hi) s Hk Hh)).
    mstep by (by eapply (kmode_acquire LBcache)).
    assert (Ex : x <| b_refcnt ::= fun n => u32 (n - 1) |> = x <| b_refcnt := 0 |>)
      by (destruct x; simpl in Hrc; by subst).
    mstep by (rewrite (buf_upd_ok i x) by exact Hx; rewrite Ex; reflexivity). fold bs s2.
    mstep by (apply (buf_get_ok i (x <| b_refcnt := 0 |>)); apply list_lookup_insert_eq;
              by eapply lookup_lt_Some).
    change (b_refcnt (x <| b_refcnt := 0 |>) =? 0) with true. cbn [when]. mstep with (Hrl).
    rewrite (kmode_release LBcache s1 _ Hk1) by done. f_equal.
  - intros j. apply payload_relink.
  - split_and!; try done; [apply woken_wakeup|by eapply buf_lock_frame].
Qed.
End Operations.

(** ** Counting buffers *)

(** Only which buffers are locked matters, not in which order. *)
Lemma inv_members pid H H' l s :
  (forall i, i ∈ H <-> i ∈ H') -> bcache_inv pid H l s -> bcache_inv pid H' l s.
Proof.
  intros He [H1 H2 H3 H4 H5 H6 H7 H8]. split; try done.
  - intros i x Hi Hx HiH. apply (H6 i x); [done..|by rewrite He].
  - intros i Hi. apply H7. by rewrite He.
  - intros i x Hi Hx HiH. apply (H8 i x); [done..|by rewrite He].
Qed.

(** A block that is not dirty reads as on the disk. *)
Lemma clean_view pid l s b : bcache_inv pid [] l s -> is_dirty s b = false -> view s b = d_read (k_disk s) b.
Proof.
  intros HI. unfold is_dirty, view. destruct (slot s b) as [i|] eqn:Es; [|done].
  destruct (slot_Some _ _ _ Es) as (x & Hi & Hx & Hd & Hb). rewrite Hx. simpl. intros Hc.
  rewrite <- Hb. apply (bi_coherent _ _ _ _ HI i); [done|done|by apply not_elem_of_nil|done|].
  destruct (bi_shape _ _ _ _ HI i x Hi Hx) as [[? _]|(_ & _ & [?|E])]; [congruence|done|].
  rewrite E in Hc. done.
Qed.

Lemma dirty_slot s b : is_dirty s b = true -> is_Some (slot s b).
Proof. unfold is_dirty. destruct (slot s b); [by eexists|done]. Qed.

(** When fewer blocks are dirty than there are unlocked buffers, one can be recycled. *)
Lemma room_if_few_dirty pid H l s D :
  bcache_inv pid H l s -> (forall b, is_dirty s b = true -> b ∈ D) ->
  (length D + length H < NBUF)%nat -> has_room H s.
Proof.
  intros HI HD Hlt. set (L := filter (fun i => i ∉ H) (seq 0 NBUF)).
  assert (HL : (NBUF <= length L + length H)%nat).
  { assert (Hsub : seq 0 NBUF ⊆+ L ++ H).
    { apply NoDup_submseteq; [apply NoDup_seq|]. intros i Hi. rewrite elem_of_app.
      destruct (decide (i ∈ H)); [by right|left]. by apply list_elem_of_filter. }
    apply submseteq_length in Hsub. rewrite length_seq, length_app in Hsub. lia. }
  set (blk := fun i => from_option b_blockno 0 (k_bufs s !! i)).
  destruct (decide (Forall (fun i => from_option (fun x => Z.land (b_flags x) B_DIRTY) 0 (k_bufs s !! i) <> 0) L))
    as [Hall|Hno].
  - exfalso. rewrite Forall_forall in Hall.
    assert (Hin : forall i, i ∈ L -> (i < NBUF)%nat /\ exists x, k_bufs s !! i = Some x /\ b_dev x = 1 /\ is_dirty s (b_blockno x) = true).
    { intros i Hi. pose proof (Hall i Hi) as Hd. apply list_elem_of_filter in Hi as [_ Hi%elem_of_seq].
      split; [lia|]. destruct (k_bufs s !! i) as [x|] eqn:Hx; [|done]. exists x. simpl in Hd.
      destruct (bi_shape _ _ _ _ HI i x ltac:(lia) Hx) as [[_ E]|(Hdx & _)]; [by rewrite E in Hd|].
      split_and!; [done..|]. unfold is_dirty. rewrite (slot_is _ _ _ _ i x HI ltac:(lia) Hx Hdx), Hx. simpl.
      by rewrite (proj2 (Z.eqb_neq _ 0)). }
    assert (Hnd : NoDup (map blk L)).
    { apply NoDup_fmap_2_strong; [|apply NoDup_filter, NoDup_seq].
      intros i j Hi Hj E. destruct (Hin i Hi) as (Hi' & x & Hx & Hdx & _).
      destruct (Hin j Hj) as (Hj' & y & Hy & Hdy & _). unfold blk in E. rewrite Hx, Hy in E.
      by apply (bi_uniq _ _ _ _ HI i j x y). }
    assert (Hsub : map blk L ⊆+ D).
    { apply NoDup_submseteq; [done|]. intros b (i & -> & Hi)%list_elem_of_fmap.
      destruct (Hin i Hi) as (_ & x & Hx & _ & Hd). unfold blk. rewrite Hx. by apply HD. }
    apply submseteq_length in Hsub. rewrite length_map in Hsub. lia.
  - apply not_Forall_Exists in Hno; [|intros; apply _].
    apply Exists_exists in Hno as (i & Hi & Hd). apply dec_stable in Hd.
    apply list_elem_of_filter in Hi as [HiH Hi%elem_of_seq].
    destruct (lookup_lt_is_Some_2 (k_bufs s) i) as [x Hx]; [rewrite (bi_len _ _ _ _ HI); lia|].
    exists i, x. rewrite Hx in Hd. by split_and!; [lia| | |].
Qed.

(** ** Initialisation *)

Lemma length_push_front b bs : length (push_front b bs) = length bs.
Proof. unfold push_front. case_match; by rewrite ?length_alter. Qed.

Lemma payload_push_front b bs j : payload <$> push_front b bs !! j = payload <$> bs !! j.
Proof. unfold push_front. case_match; [|done]. by rewrite !link_alter_same. Qed.

Lemma binit_body_ok b m s :
  ring (k_bufs s) m -> b ∉ head :: m -> is_Some (k_bufs s !! b) ->
  binit_body b s = Ok tt (s <| k_bufs := push_front b (k_bufs s) |>
      <| k_slocks ::= <[SLBuf b := mkSleeplock 0 0]> |>
      <| k_hw ::= set hw_locks (<[LSleep (SLBuf b) := unlocked]>) |>) /\
  ring (push_front b (k_bufs s)) (b :: m).
Proof.
  intros Hr Hb Hbs. split; [|by apply ring_push].
  pose proof Hr as (_ & _ & _ & Hall). apply Forall_cons in Hall as [[h Hh] _].
  assert (Hhb : head <> b) by set_solver.
  unfold binit_body, push_front. rewrite Hh. mstep by (by apply buf_get_ok). unfold buf_upd. mstep. mstep.
  mstep by (unfold initsleeplock, initlock, sl_set; mstep by (by apply hwop_ok); reflexivity).
  mstep by (apply (buf_get_ok head h); rsimpl; by rewrite !list_lookup_alter_ne by done). mstep. done.
Qed.

(** What [binit] has done to buffer [i]. *)
Definition ready_buf (i : nat) (s : kstate) : Prop :=
  k_slocks s !! SLBuf i = Some (mkSleeplock 0 0) /\ free (LSleep (SLBuf i)) (k_hw s).

Lemma binit_loop_ok n k s :
  (k + n = NBUF)%nat -> length (k_bufs s) = S NBUF -> ring (k_bufs s) (rev (seq 0 k)) ->
  (forall i, (i < k)%nat -> ready_buf i s) ->
  exists s', foreach (seq k n) binit_body s = Ok tt s' /\ ring (k_bufs s') (rev (seq 0 NBUF)) /\
    length (k_bufs s') = S NBUF /\ (forall j, payload <$> k_bufs s' !! j = payload <$> k_bufs s !! j) /\
    (forall i, (i < NBUF)%nat -> ready_buf i s') /\ k_disk s' = k_disk s /\
    (forall lk, free lk (k_hw s) -> free lk (k_hw s')).
Proof.
  revert k s. induction n as [|n IH]; intros k s Hkn Hlen Hr Hrd; cbn [seq foreach].
  { exists s. replace k with NBUF in * by lia. by split_and!. }
  destruct (binit_body_ok k (rev (seq 0 k)) s) as [Hok Hr']; [done| |apply lookup_lt_is_Some; lia|].
  { rewrite not_elem_of_cons, <- Permutation_rev, elem_of_seq. unfold head. lia. }
  mstep with (Hok).
  match goal with |- context [foreach _ _ ?s1] => destruct (IH (S k) s1) as (s' & H1 & H2 & H3 & H4 & H5 & H6 & H7) end.
  - lia.
  - rsimpl. by rewrite length_push_front.
  - rewrite seq_S, rev_app_distr. exact Hr'.
  - intros i Hi. unfold ready_buf, free. rsimpl. destruct (decide (i = k)) as [->|Hne].
    + by rewrite !lookup_insert_eq.
    + rewrite !lookup_insert_ne by congruence. apply Hrd. lia.
  - exists s'. split_and!; try done.
    + intros j. rewrite H4. rsimpl. apply payload_push_front.
    + intros lk Hlk. apply H7. unfold free. rsimpl. destruct (decide (lk = LSleep (SLBuf k))) as [->|Hne].
      * by rewrite lookup_insert_eq.
      * by rewrite lookup_insert_ne.
Qed.

(** [binit] makes an empty cache out of zeroed buffers. *)
Lemma binit_ok pid s :
  length (k_bufs s) = S NBUF ->
  (forall i x, (i < NBUF)%nat -> k_bufs s !! i = Some x -> buf_empty x /\ b_refcnt x = 0) ->
  exists s', binit s = Ok tt s' /\ bcache_inv pid [] (rev (seq 0 NBUF)) s' /\ free LBcache (k_hw s') /\
    (forall i, (i < NBUF)%nat -> free (LSleep (SLBuf i)) (k_hw s')) /\ (forall b, slot s' b = None) /\
    k_disk s' = k_disk s.
Proof.
  intros Hlen He. unfold binit, initlock. mstep by (by apply hwop_ok). unfold buf_upd at 1 2. mstep. mstep.
  match goal with |- context [foreach _ _ ?s1] => set (s0 := s1) end.
  destruct (lookup_lt_is_Some_2 (k_bufs s) head) as [h Hh]; [rewrite Hlen; unfold head; lia|].
  destruct (binit_loop_ok NBUF 0 s0) as (s' & H1 & H2 & H3 & H4 & H5 & H6 & H7).
  - lia.
  - unfold s0. rsimpl. by rewrite !length_alter.
  - unfold s0. split_and!; simpl.
    + by rewrite list_lookup_alter_eq, list_lookup_alter_eq, Hh.
    + by rewrite list_lookup_alter_eq, list_lookup_alter_eq, Hh.
    + apply NoDup_singleton.
    + repeat constructor. rewrite list_lookup_alter_eq, list_lookup_alter_eq, Hh. by eexists.
  - lia.
  - assert (Hlk : forall i x, (i < NBUF)%nat -> k_bufs s' !! i = Some x -> buf_empty x /\ b_refcnt x = 0).
    { intros i x Hi Hx. specialize (H4 i). rewrite Hx in H4. unfold s0 in H4. rsimpl in H4.
      rewrite !list_lookup_alter_ne in H4 by (unfold head; lia).
      destruct (k_bufs s !! i) as [y|] eqn:Hy; [|done]. injection H4 as E1 E2 E3 E4 E5.
      unfold buf_empty. rewrite E1, E2, E4. by apply (He i). }
    exists s'. split; [exact H1|]. split; [|split; [|split; [intros i Hi; by apply H5|split; [|exact H6]]]].
    2: { apply H7. unfold s0, free. rsimpl. by rewrite lookup_insert_eq. }
    2: { intros b. unfold slot. destruct (first_such _ _ _) as [i|] eqn:E; [|done]. exfalso.
         apply first_such_Some in E as (x & Hi%elem_of_seq & Hx & Hc).
         destruct (Hlk i x ltac:(lia) Hx) as [[Hd _] _]. unfold cached in Hc. by rewrite Hd in Hc. }
    split; try done.
    + by rewrite <- Permutation_rev.
    + intros i x Hi Hx. left. by apply (Hlk i).
    + intros i j x y Hi Hj Hx _ Hd _ _. destruct (Hlk i x Hi Hx) as [[? _] _]. congruence.
    + intros i x Hi Hx _. split; [by apply (Hlk i)|]. unfold sl_free. by destruct (H5 i Hi) as [-> _].
    + intros i Hi. by apply not_elem_of_nil in Hi.
    + intros i x Hi Hx _ Hd. destruct (Hlk i x Hi Hx) as [[? _] _]. congruence.
Qed.

(** ** Histories of writes, latest first *)

Lemma written_app b w1 w2 :
  written b (w1 ++ w2) = match written b w1 with Some v => Some v | None => written b w2 end.
Proof. induction w1 as [|[b' v] w1 IH]; [done|]. simpl. by destruct (b' =? b). Qed.

Lemma written_None b w : written b w = None <-> b ∉ w.*1.
Proof.
  induction w as [|[b' v] w IH]; simpl; [set_solver|]. destruct (Z.eqb_spec b' b) as [->|Hne].
  - split; [done|]. set_solver.
  - rewrite IH. set_solver.
Qed.

Definition add_writes (ws : list (Z * list Z)) (d : disk) : disk := d <| d_writes ::= app ws |>.

Lemma d_read_add ws d b : d_read (add_writes ws d) b = default (d_read d b) (written b ws).
Proof. unfold d_read, add_writes. rsimpl. rewrite written_app. by destruct (written b ws). Qed.

Lemma add_writes_app w1 w2 d : add_writes (w1 ++ w2) d = add_writes w1 (add_writes w2 d).
Proof. destruct d. unfold add_writes. cbv [set]. simpl. by rewrite <- app_assoc. Qed.

Section Store.
Context {fl : Fuel} {dsk : Disk} {laws : DiskLaws dsk}.
Context {ci : nat} {c : cpu} {p : nat} {pr : proc}.
Local Abbreviation pid := (p_pid pr).

(** A locked buffer that was given new contents is written through. *)
Lemma store_ok H l i x d s :
  kmode ci c p pr s -> bcache_inv pid H l s -> i ∈ H -> k_bufs s !! i = Some x ->
  exists s', bwrite i (s <| k_bufs := <[i := x <| b_data := d |>]> (k_bufs s) |>) = Ok tt s' /\
    bcache_inv pid H l s' /\
    k_bufs s' = <[i := x <| b_data := d |> <| b_flags := B_VALID |>]> (k_bufs s) /\
    k_disk s' = add_writes [(b_blockno x, d)] (k_disk s) /\
    (forall b, view s' b = (if decide (b = b_blockno x) then d else view s b) /\
       is_dirty s' b = (if decide (b = b_blockno x) then false else is_dirty s b)) /\
    bio_frame s s'.
Proof.
  intros Hk HI HiH Hx.
  destruct (fill_ok (pr := pr) H l i x d s HI HiH Hx) as (HI1 & Hf1 & Hv1).
  set (s1 := s <| k_bufs := <[i := x <| b_data := d |>]> (k_bufs s) |>) in *.
  assert (Hx1 : k_bufs s1 !! i = Some (x <| b_data := d |>)).
  { apply list_lookup_insert_eq. by eapply lookup_lt_Some. }
  destruct (bwrite_ok H l i _ s1 (kmode_bio _ _ _ _ _ _ Hk Hf1) HI1 HiH Hx1)
    as (s2 & H2 & HI2 & Hb2 & Hd2 & Hv2 & Hf2).
  exists s2. split_and!; try done.
  - rewrite Hb2. unfold s1. rsimpl. by rewrite list_insert_insert_eq.
  - intros b. destruct (Hv2 b) as [-> ->]. rsimpl. destruct (Hv1 b) as [-> ->]. by case_decide.
Qed.

End Store.

(** ** Properties *)

(** [binit] turns zeroed buffers into an empty cache: the list of buffers is a ring
    with every buffer in it, every buffer is free and unlocked, and no block is cached. *)
Theorem binit_empty_cache pid s :
  length (k_bufs s) = S NBUF ->
  (forall i x, (i < NBUF)%nat -> k_bufs s !! i = Some x -> buf_empty x /\ b_refcnt x = 0) ->
  exists s', binit s = Ok tt s' /\ bcache_inv pid [] (rev (seq 0 NBUF)) s' /\ free LBcache (k_hw s') /\
    forall b, slot s' b = None.
Proof.
  intros Hlen He. destruct (binit_ok pid s Hlen He) as (s' & H1 & H2 & H3 & _ & H5 & _). by exists s'.
Qed.

Lemma binit_empty_cache_witness :
  exists s', binit bss = Ok tt s' /\ bcache_inv 1 [] (rev (seq 0 NBUF)) s'.
Proof.
  destruct (binit_empty_cache 1 bss) as (s' & H1 & H2 & _).
  - reflexivity.
  - intros i x Hi Hx. apply lookup_replicate in Hx as [-> _]. split; [split; reflexivity|reflexivity].
  - exists s'. split; [exact H1|exact H2].
Defined.

(** A client that replaces a block. *)
Definition overwrite {fl : Fuel} {dsk : Disk} (b : Z) (d : list Z) : K unit :=
  i ← bread 1 b;
  buf_upd i (fun x => x <| b_data := d |>);;
  bwrite i;;
  brelse i.

(** The cache is transparent: after a block has been read, changed, written and
    released, the block reads as what was stored, on the disk and through the cache,
    and every other block reads as before; the cache invariant holds again, with no
    buffer locked.  The cache never runs dry as long as one buffer is clean. *)
Theorem overwrite_reads_back {fl : Fuel} {dsk : Disk} {laws : DiskLaws dsk} ci c p pr l b d s :
  kmode ci c p pr s -> bcache_inv (p_pid pr) [] l s -> 0 <= b < d_size (k_disk s) -> has_room [] s ->
  exists l' s', overwrite b d s = Ok tt s' /\ bcache_inv (p_pid pr) [] l' s' /\
    kmode ci c p pr s' /\ d_read (k_disk s') b = d /\
    (forall b', view s' b' = if decide (b' = b) then d else view s b') /\
    (forall b', b' <> b -> d_read (k_disk s') b' = d_read (k_disk s) b') /\
    exists i y s'', bread 1 b s' = Ok i s'' /\ k_bufs s'' !! i = Some y /\ b_data y = d.
Proof.
  intros Hk HI Hb Hroom.
  destruct (bread_ok [] l b s Hk HI Hb) as (i & y & s1 & H1 & _ & HI1 & Hy & Hby & Hdy & _ & _ & Hv1 & Hf1 & Hd1);
    [by intros ? ? ?%not_elem_of_nil|by right|].
  pose proof (kmode_bio _ _ _ _ _ _ Hk Hf1) as Hk1.
  destruct (store_ok [i] l i y d s1 Hk1 HI1 ltac:(by left) Hy) as (s3 & H3 & HI3 & Hb3 & Hd3 & Hv3 & Hf3).
  pose proof (kmode_bio _ _ _ _ _ _ Hk1 Hf3) as Hk3.
  assert (Hy3 : k_bufs s3 !! i = Some (y <| b_data := d |> <| b_flags := B_VALID |>)).
  { rewrite Hb3. apply list_lookup_insert_eq. by eapply lookup_lt_Some. }
  assert (Hrd : forall b', d_read (k_disk s3) b' = if decide (b' = b) then d else d_read (k_disk s) b').
  { intros b'. rewrite Hd3, Hd1, d_read_add, Hby. simpl.
    destruct (Z.eqb_spec b b'); case_decide; congruence || done. }
  destruct (brelse_ok [] l i _ s3 Hk3 HI3 ltac:(set_solver) Hy3)
    as (l' & s4 & H4 & HI4 & Hp4 & Hv4 & Hf4 & Hd4).
  { right. rsimpl. by rewrite Hby, Hrd, decide_True. }
  assert (Hview : forall b', view s4 b' = if decide (b' = b) then d else view s b').
  { intros b'. destruct (Hv4 b') as [-> _], (Hv3 b') as [-> _], (Hv1 b') as [-> _]. by rewrite Hby. }
  pose proof (kmode_bio _ _ _ _ _ _ Hk3 Hf4) as Hk4.
  assert (Hsz : d_size (k_disk s4) = d_size (k_disk s)).
  { assert (Hf : bio_frame s s4) by (do 2 (etrans; [eassumption|]); done). apply Hf. }
  destruct (bi_held _ _ _ _ HI1 i ltac:(by left)) as (Hi & _).
  assert (Hslot : is_Some (slot s4 b)).
  { destruct (slot s4 b) eqn:Es; [by eexists|]. exfalso. specialize (Hp4 i).
    rewrite list_lookup_insert_eq in Hp4 by (by eapply lookup_lt_Some).
    destruct (k_bufs s4 !! i) as [z|] eqn:Hz; [|done]. unfold payload in Hp4. rsimpl in Hp4.
    injection Hp4 as E1 E2 E3 E4 E5. apply (slot_None _ _ _ _ Es Hi Hz); [|congruence].
    rewrite E2. destruct (bi_held _ _ _ _ HI1 i ltac:(by left)) as (_ & _ & y' & Hy' & _ & Hd'). congruence. }
  exists l', s4. split_and!; try done.
  - unfold overwrite. mstep with (H1). mstep by (by apply buf_upd_ok). mstep with (H3). exact H4.
  - by rewrite Hd4, Hrd, decide_True.
  - intros b' Hne. by rewrite Hd4, Hrd, decide_False.
  - destruct (bread_ok [] l' b s4 Hk4 HI4) as (j & z & s5 & H5 & _ & _ & Hz & _ & Hdz & _);
      [by rewrite Hsz|by intros ? ? ?%not_elem_of_nil|by left|].
    exists j, z, s5. by rewrite Hdz, Hview, decide_True.
Qed.

(** ** An empty cache over a disk *)
Definition cache_demo (d : disk) (lg : log_t) : kstate :=
  let s0 := fs_demo <| k_disk := d |> <| k_log := lg |> in
  match binit s0 with
  | Ok _ s => s0 <| k_bufs := k_bufs s |> <| k_slocks := k_slocks s |>
  | _ => s0
  end.

Lemma cache_demo_ok d lg :
  kmode 0 fs_cpu 0 fs_proc (cache_demo d lg) /\ bcache_inv 1 [] (rev (seq 0 NBUF)) (cache_demo d lg) /\
  (forall b, slot (cache_demo d lg) b = None) /\ k_disk (cache_demo d lg) = d /\ k_log (cache_demo d lg) = lg.
Proof.
  destruct (binit_ok 1 (fs_demo <| k_disk := d |> <| k_log := lg |>)) as (s & H1 & H2 & _ & _ & H3 & Hd).
  { reflexivity. }
  { intros i x Hi Hx. apply lookup_replicate in Hx as [-> _]. split; [split; reflexivity|reflexivity]. }
  unfold cache_demo. rewrite H1. split_and!; [by apply kmode_fs_demo| |exact H3|reflexivity|reflexivity].
  change (k_disk s = d) in Hd.
  destruct H2 as [G1 G2 G3 G4 G5 G6 G7 G8]. rewrite Hd in G4, G8. by split.
Qed.

Lemma cache_demo_free d lg r : sl_free r (cache_demo d lg).
Proof.
  assert (H : map_Forall (fun _ l => sl_locked l = 0) (k_slocks (cache_demo d lg))) by (apply (bool_decide_unpack _); vm_compute; exact I).
  unfold sl_free. destruct (k_slocks (cache_demo d lg) !! r) as [l|] eqn:E; [by apply (H r)|reflexivity].
Qed.

#[global] Opaque cache_demo.

Definition disk_demo : disk := mkDisk 100 (fun b => replicate 512 0) [].

Lemma overwrite_reads_back_witness :
  exists l' s', @overwrite 5%nat memide 7 [1; 2; 3] (cache_demo disk_demo (k_log bss)) = Ok tt s' /\
    bcache_inv 1 [] l' s' /\ d_read (k_disk s') 7 = [1; 2; 3].
Proof.
  destruct (cache_demo_ok disk_demo (k_log bss)) as (Hk & HI & Hs & Hd & _).
  destruct (@overwrite_reads_back 5%nat memide memide_laws _ _ _ _ _ 7 [1; 2; 3] _ Hk HI)
    as (l' & s' & H1 & H2 & _ & H4 & _).
  - rewrite Hd. split; [discriminate|reflexivity].
  - apply (room_if_few_dirty 1 [] _ _ []) in HI; [exact HI| |apply Nat.ltb_lt; reflexivity].
    intros b Hb. apply dirty_slot in Hb as [i Hi]. rewrite Hs in Hi. discriminate.
  - exists l', s'. split; [exact H1|split; [exact H2|exact H4]].
Defined.
