(* ===== verification/Log.v ===== *)
(** * The log (log.c)

    The write-ahead log that makes a file-system call atomic with respect to crashes:
    [begin_op], [log_write], [end_op], [commit] and the recovery at boot.  A disk block
    is the list of its bytes; the header block of the log holds 32-bit little-endian
    integers. *)

From stdpp Require Import gmap.
From S2P Require Import Prelude Outcome Kernel Spinlock Kalloc Proc Sleeplock Bio.

(** ** Integers in a block *)

(** The [uint] at byte [off]. *)
Definition get32 (l : list Z) (off : nat) : Z :=
  nth off l 0 + 256 * nth (off + 1) l 0 + 65536 * nth (off + 2) l 0 + 16777216 * nth (off + 3) l 0.
Definition put32 (off : nat) (v : Z) (l : list Z) : list Z :=
  let v := u32 v in
  <[(off + 3)%nat := v / 16777216]> (<[(off + 2)%nat := v / 65536 mod 256]>
    (<[(off + 1)%nat := v / 256 mod 256]> (<[off := v mod 256]> l))).

(** ** log.c *)

Definition log_upd (f : log_t -> log_t) : K unit := modify (fun s => s <| k_log ::= f |>).

(** [log.lh.block[i]]; outside the array is a fault. *)
Definition lh_get (i : Z) : K Z :=
  lg ← gets k_log;
  if i <? 0 then fault else deref (lh_block lg !! Z.to_nat i).
Definition lh_set (i v : Z) : K unit :=
  if (i <? 0) || (Z.of_nat LOGSIZE <=? i) then fault
  else log_upd (fun lg => lg <| lh_block ::= <[Z.to_nat i := v]> |>).

(** The superblock in block 1 (fs.c). *)
Definition decode_sb (l : list Z) : superblock :=
  mkSuperblock (get32 l 0) (get32 l 4) (get32 l 8) (get32 l 12) (get32 l 16) (get32 l 20) (get32 l 24).

Section Log.
Context {fl : Fuel} {dsk : Disk}.

Definition readsb (dev : Z) : K superblock :=
  bp ← bread dev 1;
  x ← buf_get bp;
  brelse bp;;
  ret (decode_sb (b_data x)).

(** [bread(log.dev, b)]: the [int] arguments become [uint]s. *)
Definition log_bread (b : Z) : K nat :=
  lg ← gets k_log;
  bread (u32 (l_dev lg)) (u32 b).

(** [memmove(d->data, s->data, BSIZE)] *)
Definition copy_data (d s : nat) : K unit :=
  x ← buf_get s;
  buf_upd d (fun y => y <| b_data := b_data x |>).

Definition install_one (tail : Z) : K unit :=
  lg ← gets k_log;
  lbuf ← log_bread (l_start lg + tail + 1);
  dst ← lh_get tail;
  dbuf ← log_bread dst;
  copy_data dbuf lbuf;;
  bwrite dbuf;;
  brelse lbuf;;
  brelse dbuf.

Definition install_trans : K unit :=
  lg ← gets k_log;
  foreach (zrange 0 (lh_n lg)) install_one.

Definition read_head : K unit :=
  lg ← gets k_log;
  b ← log_bread (l_start lg);
  x ← buf_get b;
  let n := i32 (get32 (b_data x) 0) in
  log_upd (fun lg => lg <| lh_n := n |>);;
  foreach (zrange 0 n) (fun i => lh_set i (i32 (get32 (b_data x) (Z.to_nat (4 + 4 * i)))));;
  brelse b.

Definition write_head : K unit :=
  lg ← gets k_log;
  b ← log_bread (l_start lg);
  buf_upd b (fun x => x <| b_data ::= put32 0 (lh_n lg) |>);;
  foreach (zrange 0 (lh_n lg)) (fun i =>
    v ← lh_get i;
    buf_upd b (fun x => x <| b_data ::= put32 (Z.to_nat (4 + 4 * i)) v |>));;
  bwrite b;;
  brelse b.

Definition recover_from_log : K unit :=
  read_head;;
  install_trans;;
  log_upd (fun lg => lg <| lh_n := 0 |>);;
  write_head.

Definition initlog (dev : Z) : K unit :=
  if BSIZE <=? 4 + 4 * Z.of_nat LOGSIZE then panic "initlog: too big logheader" else
  initlock LLog;;
  sb ← readsb dev;
  log_upd (fun lg => lg <| l_start := i32 (sb_logstart sb) |> <| l_size := i32 (sb_nlog sb) |>
                        <| l_dev := dev |>);;
  recover_from_log.

Definition write_log_one (tail : Z) : K unit :=
  lg ← gets k_log;
  to ← log_bread (l_start lg + tail + 1);
  src ← lh_get tail;
  from ← log_bread src;
  copy_data to from;;
  bwrite to;;
  brelse from;;
  brelse to.

Definition write_log : K unit :=
  lg ← gets k_log;
  foreach (zrange 0 (lh_n lg)) write_log_one.

Definition commit : K unit :=
  lg ← gets k_log;
  when (0 <? lh_n lg)
    (write_log;;
     write_head;;
     install_trans;;
     log_upd (fun lg => lg <| lh_n := 0 |>);;
     write_head).

(** One turn of the loop of [begin_op]. *)
Fixpoint begin_op_loop (n : nat) : K unit :=
  lg ← gets k_log;
  if negb (l_committing lg =? 0)
     || (Z.of_nat LOGSIZE <? lh_n lg + (l_outstanding lg + 1) * MAXOPBLOCKS) then
    match n with
    | O => spin
    | S n => sleep CLog LLog;; begin_op_loop n
    end
  else
    log_upd (fun lg => lg <| l_outstanding ::= fun k => i32 (k + 1) |>);;
    release LLog.

Definition begin_op : K unit :=
  acquire LLog;;
  begin_op_loop fuel.

Definition end_op : K unit :=
  acquire LLog;;
  log_upd (fun lg => lg <| l_outstanding ::= fun k => i32 (k - 1) |>);;
  lg ← gets k_log;
  if negb (l_committing lg =? 0) then panic "log.committing" else
  do_commit ← (if l_outstanding lg =? 0 then log_upd (fun lg => lg <| l_committing := 1 |>);; ret true
               else wakeup CLog;; ret false);
  release LLog;;
  when do_commit
    (commit;;
     acquire LLog;;
     log_upd (fun lg => lg <| l_committing := 0 |>);;
     wakeup CLog;;
     release LLog).
End Log.

(** The index of block [b] among the first [n] of the header, or [n]. *)
Definition lh_index (lg : log_t) (b : Z) : Z :=
  match scan (fun k => u32 k =? b) (take (Z.to_nat (lh_n lg)) (lh_block lg)) with
  | Some i => Z.of_nat i
  | None => lh_n lg
  end.

Definition log_write (b : nat) : K unit :=
  lg ← gets k_log;
  if (Z.of_nat LOGSIZE <=? lh_n lg) || (l_size lg - 1 <=? lh_n lg) then panic "too big a transaction" else
  if l_outstanding lg <? 1 then panic "log_write outside of trans" else
  acquire LLog;;
  x ← buf_get b;
  lg ← gets k_log;
  let i := lh_index lg (b_blockno x) in
  lh_set i (i32 (b_blockno x));;
  when (i =? lh_n lg) (log_upd (fun lg => lg <| lh_n ::= Z.succ |>));;
  buf_upd b (fun x => x <| b_flags ::= fun f => Z.lor f B_DIRTY |>);;  (* prevent eviction *)
  release LLog.

(** ** The header block *)

Lemma length_put32 off v l : length (put32 off v l) = length l.
Proof. unfold put32. by rewrite !length_insert. Qed.

Lemma nth_insert (l : list Z) i j v d :
  nth j (<[i := v]> l) d = if decide (i = j /\ (i < length l)%nat) then v else nth j l d.
Proof.
  rewrite !nth_lookup. destruct (decide (i = j)) as [<-|Hne].
  - destruct (decide (i < length l)%nat).
    + by rewrite list_lookup_insert_eq, decide_True.
    + rewrite list_insert_ge by lia. rewrite decide_False by naive_solver lia. done.
  - rewrite list_lookup_insert_ne, decide_False by naive_solver. done.
Qed.

Lemma get32_put32 off v l : (off + 3 < length l)%nat -> get32 (put32 off v l) off = u32 v.
Proof.
  intros Hl. unfold get32, put32. rewrite !nth_insert, !length_insert.
  repeat (first [rewrite decide_True by lia | rewrite decide_False by lia]).
  pose proof (u32_range v). set (x := u32 v) in *.
  pose proof (Z.div_mod x 256 ltac:(lia)). pose proof (Z.div_mod (x / 256) 256 ltac:(lia)).
  pose proof (Z.div_mod (x / 65536) 256 ltac:(lia)).
  assert (x / 65536 = x / 256 / 256) by (rewrite Z.div_div by lia; done).
  assert (x / 16777216 = x / 65536 / 256) by (rewrite Z.div_div by lia; done). lia.
Qed.

Lemma get32_put32_ne off off' v l :
  (off + 4 <= off' \/ off' + 4 <= off)%nat -> get32 (put32 off v l) off' = get32 l off'.
Proof.
  intros Hne. unfold get32, put32. rewrite !nth_insert, !length_insert.
  repeat (rewrite decide_False by lia). done.
Qed.

(** Consecutive words from byte [off] on. *)
Fixpoint put_words (off : nat) (vs : list Z) (l : list Z) : list Z :=
  match vs with
  | [] => l
  | v :: vs => put_words (off + 4) vs (put32 off v l)
  end.

Lemma length_put_words off vs l : length (put_words off vs l) = length l.
Proof. revert off l. induction vs as [|v vs IH]; intros off l; [done|]. simpl. by rewrite IH, length_put32. Qed.

Lemma get_words_below off off' vs l : (off' + 4 <= off)%nat -> get32 (put_words off vs l) off' = get32 l off'.
Proof.
  revert off l. induction vs as [|v vs IH]; intros off l Ho; [done|]. simpl.
  rewrite IH, get32_put32_ne by lia. done.
Qed.

Lemma get_words off vs l k :
  (k < length vs)%nat -> (off + 4 * length vs <= length l)%nat ->
  get32 (put_words off vs l) (off + 4 * k) = u32 (nth k vs 0).
Proof.
  revert off l k. induction vs as [|v vs IH]; intros off l k Hk Hl; cbn [length put_words] in *; [lia|].
  destruct k as [|k].
  - replace (off + 4 * 0)%nat with off by lia. rewrite get_words_below by lia. apply get32_put32. lia.
  - replace (off + 4 * S k)%nat with (off + 4 + 4 * k)%nat by lia. apply IH; [lia|].
    rewrite length_put32. lia.
Qed.

(** The header block of a transaction, over the former contents of the block, and the
    block numbers that the header block records. *)
Definition header (bl : list Z) (l : list Z) : list Z :=
  put_words 4 bl (put32 0 (Z.of_nat (length bl)) l).
Definition head_n (l : list Z) : Z := i32 (get32 l 0).
Definition head_word (l : list Z) (i : Z) : Z := i32 (get32 l (Z.to_nat (4 + 4 * i))).
Definition head_blocks (l : list Z) : list Z := map (head_word l) (zrange 0 (head_n l)).

Lemma i32_u32 z : -2147483648 <= z < 2147483648 -> i32 (u32 z) = z.
Proof.
  intros Hz. unfold i32, u32. rewrite Zplus_mod_idemp_l. apply i32_id. lia.
Qed.

Lemma head_n_header bl l :
  Z.of_nat (length bl) < 2147483648 -> (4 <= length l)%nat -> head_n (header bl l) = Z.of_nat (length bl).
Proof.
  intros Hb Hl. unfold head_n, header. rewrite get_words_below by lia.
  rewrite get32_put32 by (simpl; lia). apply i32_u32. lia.
Qed.

(** The header is read back. *)
Lemma head_blocks_header bl l :
  (4 + 4 * length bl <= length l)%nat -> Z.of_nat (length bl) < 2147483648 ->
  Forall (fun b => 0 <= b < 2147483648) bl -> head_blocks (header bl l) = bl.
Proof.
  intros Hl Hb Hr. unfold head_blocks. rewrite head_n_header by lia.
  apply (list_eq_same_length _ _ (length bl)); [done| |].
  { unfold zrange. rewrite !length_map, length_seq. lia. }
  intros i x y Hi Hx Hy. apply list_lookup_fmap_Some in Hx as (j & -> & Hj).
  unfold zrange in Hj. apply list_lookup_fmap_Some in Hj as (k & -> & Hk%lookup_seq).
  destruct Hk as [-> Hk]. unfold head_word, header.
  replace (Z.to_nat (4 + 4 * (0 + Z.of_nat (0 + i)))) with (4 + 4 * i)%nat by lia.
  rewrite get_words by (rewrite ?length_put32; lia).
  rewrite (nth_lookup_Some _ _ _ _ Hy). apply i32_u32.
  pose proof (Forall_lookup_1 _ _ _ _ Hr Hy). simpl in *. lia.
Qed.

(** ** Block writes

    Between the operations of the log no buffer is locked.  A sequence of block
    writes, latest first, changes what is read, cleans the written blocks and extends
    the history of the disk. *)

(** *** The transaction in the log

    The blocks [bl] of the header lie outside the log area, are different and leave
    room in the log and in the cache. *)
Definition in_area (lg : log_t) (b : Z) : Prop := l_start lg <= b < l_start lg + l_size lg.
Definition home (bl : list Z) (j : Z) : Z := nth (Z.to_nat j) bl 0.

Record txn (lg : log_t) (bl : list Z) (sz : Z) : Prop := {
  tx_dev : l_dev lg = 1;
  tx_len : length (lh_block lg) = LOGSIZE;
  tx_area : 0 <= l_start lg /\ l_start lg + l_size lg <= sz;
  tx_sz : sz <= 2147483648;
  tx_n : lh_n lg = Z.of_nat (length bl);
  tx_pre : take (length bl) (lh_block lg) = bl;
  tx_fit : Z.of_nat (length bl) < l_size lg;
  tx_few : (length bl < NBUF)%nat;
  tx_dup : NoDup bl;
  tx_home : forall b, b ∈ bl -> 0 <= b < sz /\ ~ in_area lg b }.

Lemma home_lookup bl j : 0 <= j < Z.of_nat (length bl) -> bl !! Z.to_nat j = Some (home bl j).
Proof.
  intros Hj. unfold home. destruct (lookup_lt_is_Some_2 bl (Z.to_nat j)) as [b Hb]; [lia|].
  rewrite Hb. f_equal. symmetry. by apply nth_lookup_Some.
Qed.

Lemma home_elem bl j : 0 <= j < Z.of_nat (length bl) -> home bl j ∈ bl.
Proof. intros Hj. eapply list_elem_of_lookup_2. by apply home_lookup. Qed.

Lemma home_inj bl i j :
  NoDup bl -> 0 <= i < Z.of_nat (length bl) -> 0 <= j < Z.of_nat (length bl) -> home bl i = home bl j -> i = j.
Proof.
  intros Hd Hi Hj E. pose proof (home_lookup bl i Hi) as E1. pose proof (home_lookup bl j Hj) as E2.
  rewrite E in E1. pose proof (NoDup_lookup _ _ _ _ Hd E1 E2). lia.
Qed.

Section Writes.
Context {fl : Fuel} {dsk : Disk} {laws : DiskLaws dsk}.
Context {ci : nat} {c : cpu} {p : nat} {pr : proc}.
Local Abbreviation pid := (p_pid pr).

Definition quiet (s : kstate) : Prop := kmode ci c p pr s /\ exists l, bcache_inv pid [] l s.

Record wrote (ws : list (Z * list Z)) (s s' : kstate) : Prop := {
  wr_quiet : quiet s';
  wr_frame : bio_frame s s';
  wr_view : forall b, view s' b = default (view s b) (written b ws);
  wr_dirty : forall b, is_dirty s' b = match written b ws with None => is_dirty s b | _ => false end;
  wr_disk : k_disk s' = add_writes ws (k_disk s) }.

Lemma wrote_nil s : quiet s -> wrote [] s s.
Proof. intros Hq. split; try done. by destruct s as [? ? ? ? ? ? ? ? ? ? ? ? ? ? []]. Qed.

Lemma wrote_app w1 w2 s s1 s2 : wrote w1 s s1 -> wrote w2 s1 s2 -> wrote (w2 ++ w1) s s2.
Proof.
  intros [H1 H2 H3 H4 H5] [G1 G2 G3 G4 G5]. split; try done.
  - by etrans.
  - intros b. rewrite G3, H3, written_app. by destruct (written b w2).
  - intros b. rewrite G4, H4, written_app. by destruct (written b w2).
  - by rewrite G5, H5, add_writes_app.
Qed.

(** Writes that follow operations which only moved buffers. *)
Lemma wrote_after ws s s1 s2 :
  (forall b, view s1 b = view s b /\ is_dirty s1 b = is_dirty s b) -> bio_frame s s1 ->
  k_disk s1 = k_disk s -> wrote ws s1 s2 -> wrote ws s s2.
Proof.
  intros Hv Hf Hd [H1 H2 H3 H4 H5]. split; try done.
  - by etrans.
  - intros b. by rewrite H3, (proj1 (Hv b)).
  - intros b. by rewrite H4, (proj2 (Hv b)).
  - by rewrite H5, Hd.
Qed.

(** At most [n] blocks are dirty. *)
Definition few_dirty (n : nat) (s : kstate) : Prop :=
  exists D, length D = n /\ forall b, is_dirty s b = true -> b ∈ D.

Lemma few_dirty_room n H l s :
  bcache_inv pid H l s -> few_dirty n s -> (n + length H < NBUF)%nat -> has_room H s.
Proof. intros HI (D & <- & HD) Hn. by eapply room_if_few_dirty. Qed.

(** Two blocks read one after the other. *)
Lemma bread2_ok a b n s :
  quiet s -> a <> b -> 0 <= a < d_size (k_disk s) -> 0 <= b < d_size (k_disk s) ->
  few_dirty n s -> (n < NBUF)%nat -> is_dirty s b = true \/ (S n < NBUF)%nat ->
  exists i j x y l s1 s2, bread 1 a s = Ok i s1 /\ bread 1 b s1 = Ok j s2 /\ k_log s1 = k_log s /\
    bcache_inv pid [j; i] l s2 /\ i <> j /\ kmode ci c p pr s2 /\
    k_bufs s2 !! i = Some x /\ b_blockno x = a /\ b_data x = view s a /\
    (b_flags x = Z.lor B_VALID B_DIRTY \/ b_data x = d_read (k_disk s) a) /\
    k_bufs s2 !! j = Some y /\ b_blockno y = b /\ b_data y = view s b /\
    (b_flags y = Z.lor B_VALID B_DIRTY \/ b_data y = d_read (k_disk s) b) /\
    (forall b', view s2 b' = view s b' /\ is_dirty s2 b' = is_dirty s b') /\
    bio_frame s s2 /\ k_disk s2 = k_disk s.
Proof.
  intros [Hk [l HI]] Hab Ha Hb Hfew Hn Hroom.
  destruct (bread_ok [] l a s Hk HI Ha)
    as (i & x & s1 & H1 & _ & HI1 & Hx & Hbx & Hdx & Hcx & _ & Hv1 & Hf1 & Hd1);
    [by intros ? ? ?%not_elem_of_nil|right; eapply few_dirty_room; [done|done|simpl; lia]|].
  pose proof (kmode_bio _ _ _ _ _ _ Hk Hf1) as Hk1.
  destruct (bread_ok [i] l b s1 Hk1 HI1)
    as (j & y & s2 & H2 & Hj & HI2 & Hy & Hby & Hdy & Hcy & Hh2 & Hv2 & Hf2 & Hd2).
  { by rewrite Hd1. }
  { intros ? z ->%list_elem_of_singleton Hz. congruence. }
  { destruct Hroom as [Hd|Hlt]; [left|right].
    - apply dirty_slot. by rewrite (proj2 (Hv1 b)).
    - destruct Hfew as (D & HD & Hin). eapply (few_dirty_room n); [done| |simpl; lia].
      exists D. split; [done|]. intros b' Hb'. apply Hin. by rewrite <- (proj2 (Hv1 b')). }
  exists i, j, x, y, l, s1, s2. split_and!; try done.
  - by destruct Hf1 as (_ & _ & _ & _ & ->).
  - set_solver.
  - by eapply kmode_bio.
  - rewrite Hh2 by (by left). done.
  - by rewrite Hdy, (proj1 (Hv1 b)).
  - by rewrite <- Hd1.
  - intros b'. destruct (Hv1 b') as [<- <-]. apply Hv2.
  - by etrans.
  - congruence.
Qed.
(** The contents of buffer [i] go to the block of buffer [j]; both are released. *)
Lemma copy_ok l i j x y s :
  kmode ci c p pr s -> bcache_inv pid [i; j] l s -> i <> j ->
  k_bufs s !! i = Some x -> k_bufs s !! j = Some y -> b_blockno x <> b_blockno y ->
  (b_flags x = Z.lor B_VALID B_DIRTY \/ b_data x = d_read (k_disk s) (b_blockno x)) ->
  exists s', (copy_data j i;; bwrite j;; brelse i;; brelse j) s = Ok tt s' /\
    wrote [(b_blockno y, b_data x)] s s'.
Proof.
  intros Hk HI Hij Hx Hy Hne Hco.
  destruct (store_ok _ _ j y (b_data x) s Hk HI ltac:(set_solver) Hy) as (s1 & H1 & HI1 & Hb1 & Hd1 & Hv1 & Hf1).
  pose proof (kmode_bio _ _ _ _ _ _ Hk Hf1) as Hk1.
  assert (Hrd : forall b, d_read (k_disk s1) b = if decide (b = b_blockno y) then b_data x else d_read (k_disk s) b).
  { intros b. rewrite Hd1, d_read_add. cbn [written].
    destruct (Z.eqb_spec (b_blockno y) b), (decide (b = b_blockno y)); congruence || done. }
  destruct (brelse_ok [j] l i x s1 Hk1 HI1) as (l2 & s2 & H2 & HI2 & Hp2 & Hv2 & Hf2 & Hd2).
  { set_solver. }
  { rewrite Hb1. by rewrite list_lookup_insert_ne by done. }
  { rewrite Hrd, decide_False by done. done. }
  pose proof (kmode_bio _ _ _ _ _ _ Hk1 Hf2) as Hk2. specialize (Hp2 j).
  rewrite list_lookup_insert_ne, Hb1, list_lookup_insert_eq in Hp2 by (done || by eapply lookup_lt_Some).
  destruct (k_bufs s2 !! j) as [z|] eqn:Hz; [|done]. unfold payload in Hp2. rsimpl in Hp2.
  injection Hp2 as E1 E2 E3 E4 E5.
  destruct (brelse_ok [] l2 j z s2 Hk2 HI2 ltac:(set_solver) Hz) as (l3 & s3 & H3 & HI3 & _ & Hv3 & Hf3 & Hd3).
  { right. by rewrite E5, E3, Hd2, Hrd, decide_True. }
  assert (Hf : bio_frame s s3) by (etrans; [exact Hf1|by etrans]).
  exists s3. split.
  - mstep by (unfold copy_data; mstep by (by apply buf_get_ok); by apply buf_upd_ok).
    mstep with (H1). mstep with (H2). exact H3.
  - split; try done.
    + split; [by eapply kmode_bio|by eexists].
    + intros b. destruct (Hv3 b) as [-> _]. destruct (Hv2 b) as [-> _]. destruct (Hv1 b) as [-> _].
      cbn [written]. destruct (Z.eqb_spec (b_blockno y) b); case_decide; congruence || done.
    + intros b. destruct (Hv3 b) as [_ ->]. destruct (Hv2 b) as [_ ->]. destruct (Hv1 b) as [_ ->].
      cbn [written]. destruct (Z.eqb_spec (b_blockno y) b); case_decide; congruence || done.
    + congruence.
Qed.
(** A loop whose turn [j] writes the block [f j]. *)
Definition copies (f : Z -> Z * list Z) (j : Z) : list (Z * list Z) := rev (map f (zrange 0 j)).

Lemma elem_of_copies f j b : b ∈ (copies f j).*1 <-> exists k, 0 <= k < j /\ b = (f k).1.
Proof.
  unfold copies. rewrite <- Permutation_rev, list_elem_of_fmap. split.
  - intros ([b' v] & -> & (k & E & Hk)%list_elem_of_fmap). exists k.
    rewrite <- elem_of_zrange. by rewrite <- E.
  - intros (k & Hk & ->). exists (f k). split; [done|]. apply list_elem_of_fmap_2.
    by apply elem_of_zrange.
Qed.

Lemma foreach_copies f (body : Z -> K unit) n j s t :
  (forall j t, 0 <= j < n -> wrote (copies f j) s t -> exists t', body j t = Ok tt t' /\ wrote [f j] t t') ->
  0 <= j <= n -> wrote (copies f j) s t ->
  exists t', foreach (zrange j n) body t = Ok tt t' /\ wrote (copies f n) s t'.
Proof.
  intros Hbody Hj. remember (Z.to_nat (n - j)) as m eqn:Em. revert j t Hj Em.
  induction m as [|m IH]; intros j t Hj Em Hw.
  - exists t. replace n with j by lia. rewrite zrange_nil by lia. done.
  - rewrite zrange_cons by lia. destruct (Hbody j t ltac:(lia) Hw) as (t1 & H1 & Hw1).
    destruct (IH (j + 1) t1) as (t' & H2 & Hw2); [lia|lia| |].
    + unfold copies. rewrite zrange_snoc, map_app, rev_app_distr by lia. by eapply wrote_app.
    + exists t'. split; [|done]. cbn [foreach]. by mstep with (H1).
Qed.

(** *** One block of the transaction *)

Lemma log_bread_eq b s :
  l_dev (k_log s) = 1 -> 0 <= b < 2147483648 -> log_bread b s = bread 1 b s.
Proof. intros Hd Hb. unfold log_bread. mstep. rewrite Hd, (u32_id b) by lia. done. Qed.

Lemma bio_frame_log s s' : bio_frame s s' -> k_log s' = k_log s.
Proof. by intros (_ & _ & _ & _ & ->). Qed.

Section Block.
Context {bl : list Z} {s : kstate} {n : nat} {j : Z}.
Local Abbreviation logged := (l_start (k_log s) + j + 1).
Context (Hq : quiet s) (Htx : txn (k_log s) bl (d_size (k_disk s))) (Hj : 0 <= j < Z.of_nat (length bl)).
Context (Hfew : few_dirty n s) (Hn : (n < NBUF)%nat) (Hroom : is_dirty s (home bl j) = true \/ (S n < NBUF)%nat).

Lemma lh_get_home t : k_log t = k_log s -> lh_get j t = Ok (home bl j) t.
Proof. clear Hfew Hn Hroom.
  intros E. unfold lh_get. mstep. rewrite E, (proj2 (Z.ltb_ge _ _)) by lia.
  assert (El : lh_block (k_log s) !! Z.to_nat j = Some (home bl j)).
  { rewrite <- (lookup_take_lt _ (length bl)) by lia. rewrite (tx_pre _ _ _ Htx).
    apply home_lookup. lia. }
  by rewrite El.
Qed.

Lemma home_range : 0 <= home bl j < d_size (k_disk s) /\ ~ in_area (k_log s) (home bl j).
Proof. clear Hfew Hn Hroom. apply (tx_home _ _ _ Htx). by apply home_elem. Qed.

Lemma logged_range : 0 <= logged < d_size (k_disk s) /\ in_area (k_log s) logged.
Proof. clear Hfew Hn Hroom.
  pose proof (tx_area _ _ _ Htx). pose proof (tx_fit _ _ _ Htx). unfold in_area. lia.
Qed.

Lemma write_log_one_ok :
  exists s', write_log_one j s = Ok tt s' /\ wrote [(logged, view s (home bl j))] s s'.
Proof.
  destruct home_range as [Hh1 Hh2], logged_range as [Hl1 Hl2]. pose proof (tx_sz _ _ _ Htx) as Hsz.
  assert (Hne : logged <> home bl j) by congruence.
  destruct (bread2_ok logged (home bl j) n s Hq Hne Hl1 Hh1 Hfew Hn Hroom)
    as (a & b & x & y & l & s1 & s2 & H1 & H2 & Hlog & HI & Hab & Hk & Hx & Hbx & Hdx & Hcx & Hy & Hby & Hdy & Hcy & Hv & Hf & Hd).
  destruct (copy_ok l b a y x s2) as (s3 & H3 & Hw).
  { done. } { done. } { done. } { done. } { done. } { congruence. } { by rewrite Hby, Hd. }
  exists s3. split.
  - unfold write_log_one. mstep. mstep by (rewrite log_bread_eq by (apply Htx || lia); exact H1).
    mstep by (by apply lh_get_home).
    mstep by (rewrite log_bread_eq by (rewrite ?Hlog; (apply Htx || lia)); exact H2). exact H3.
  - rewrite Hbx, Hdy in Hw. by eapply wrote_after.
Qed.

Lemma install_one_ok :
  exists s', install_one j s = Ok tt s' /\ wrote [(home bl j, view s logged)] s s'.
Proof.
  destruct home_range as [Hh1 Hh2], logged_range as [Hl1 Hl2]. pose proof (tx_sz _ _ _ Htx) as Hsz.
  assert (Hne : logged <> home bl j) by congruence.
  destruct (bread2_ok logged (home bl j) n s Hq Hne Hl1 Hh1 Hfew Hn Hroom)
    as (a & b & x & y & l & s1 & s2 & H1 & H2 & Hlog & HI & Hab & Hk & Hx & Hbx & Hdx & Hcx & Hy & Hby & Hdy & Hcy & Hv & Hf & Hd).
  destruct (copy_ok l a b x y s2) as (s3 & H3 & Hw).
  { done. } { eapply inv_members; [|done]. set_solver. } { done. } { done. } { done. } { congruence. }
  { by rewrite Hbx, Hd. }
  exists s3. split.
  - unfold install_one. mstep. mstep by (rewrite log_bread_eq by (apply Htx || lia); exact H1).
    mstep by (by apply lh_get_home).
    mstep by (rewrite log_bread_eq by (rewrite ?Hlog; (apply Htx || lia)); exact H2). exact H3.
  - rewrite Hby, Hdx in Hw. by eapply wrote_after.
Qed.
End Block.

(** *** All of them *)

Lemma wrote_few n ws s t : wrote ws s t -> few_dirty n s -> few_dirty n t.
Proof.
  intros Hw (D & HD & Hin). exists D. split; [done|]. intros b. rewrite (wr_dirty _ _ _ Hw).
  destruct (written b ws); [done|apply Hin].
Qed.

Lemma wrote_other ws s t b :
  wrote ws s t -> b ∉ ws.*1 -> view t b = view s b /\ is_dirty t b = is_dirty s b.
Proof. intros Hw Hb%written_None. by rewrite (wr_view _ _ _ Hw), (wr_dirty _ _ _ Hw), Hb. Qed.

Lemma wrote_txn ws s t bl :
  wrote ws s t -> txn (k_log s) bl (d_size (k_disk s)) -> txn (k_log t) bl (d_size (k_disk t)).
Proof.
  intros Hw. pose proof (wr_frame _ _ _ Hw) as Hf. rewrite (bio_frame_log _ _ Hf).
  destruct Hf as (_ & _ & -> & _). done.
Qed.

Section Loops.
Context {bl : list Z} {s : kstate} {n : nat}.
Local Abbreviation start := (l_start (k_log s)).
Context (Hq : quiet s) (Htx : txn (k_log s) bl (d_size (k_disk s))).
Context (Hfew : few_dirty n s) (Hn : (n < NBUF)%nat).
Context (Hroom : (forall b, b ∈ bl -> is_dirty s b = true) \/ (S n < NBUF)%nat).

Definition to_log (j : Z) : Z * list Z := (start + j + 1, view s (home bl j)).
Definition to_home (j : Z) : Z * list Z := (home bl j, view s (start + j + 1)).

Lemma to_log_area j b : 0 <= j <= Z.of_nat (length bl) -> b ∈ (copies to_log j).*1 -> in_area (k_log s) b.
Proof. clear Hfew Hn Hroom. intros Hj (k & Hk & ->)%elem_of_copies. apply (logged_range Htx). lia. Qed.

Lemma to_home_home j b : 0 <= j <= Z.of_nat (length bl) -> b ∈ (copies to_home j).*1 -> b ∈ bl.
Proof. clear Hfew Hn Hroom. intros Hj (k & Hk & ->)%elem_of_copies. apply home_elem. lia. Qed.

Lemma room_left t j :
  0 <= j < Z.of_nat (length bl) -> is_dirty t (home bl j) = is_dirty s (home bl j) ->
  is_dirty t (home bl j) = true \/ (S n < NBUF)%nat.
Proof. intros Hj ->. destruct Hroom as [H|H]; [left; by apply H, home_elem|by right]. Qed.

Lemma write_log_ok :
  exists s', write_log s = Ok tt s' /\ wrote (copies to_log (Z.of_nat (length bl))) s s'.
Proof.
  unfold write_log. mstep. rewrite (tx_n _ _ _ Htx).
  apply foreach_copies with (j := 0); [|lia|by apply wrote_nil].
  intros j t Hj Hw. pose proof (bio_frame_log _ _ (wr_frame _ _ _ Hw)) as El.
  destruct (wrote_other _ _ _ (home bl j) Hw) as [Hv Hd].
  { intros Ha%to_log_area; [|lia]. by apply (home_range Htx Hj). }
  destruct (write_log_one_ok (bl := bl) (s := t) (n := n) (j := j)) as (t' & Ht & Hw').
  - apply Hw.
  - by eapply wrote_txn.
  - done.
  - by eapply wrote_few.
  - done.
  - by apply room_left.
  - exists t'. split; [done|]. unfold to_log. by rewrite <- El, <- Hv.
Qed.

Lemma install_trans_ok :
  exists s', install_trans s = Ok tt s' /\ wrote (copies to_home (Z.of_nat (length bl))) s s'.
Proof.
  unfold install_trans. mstep. rewrite (tx_n _ _ _ Htx).
  apply foreach_copies with (j := 0); [|lia|by apply wrote_nil].
  intros j t Hj Hw. pose proof (bio_frame_log _ _ (wr_frame _ _ _ Hw)) as El.
  destruct (wrote_other _ _ _ (start + j + 1) Hw) as [Hv _].
  { intros Hh%to_home_home; [|lia]. apply (tx_home _ _ _ Htx) in Hh as [_ []].
    by apply (logged_range Htx Hj). }
  destruct (wrote_other _ _ _ (home bl j) Hw) as [_ Hd].
  { intros (k & Hk & E)%elem_of_copies. simpl in E.
    apply (home_inj _ _ _ (tx_dup _ _ _ Htx)) in E; lia. }
  destruct (install_one_ok (bl := bl) (s := t) (n := n) (j := j)) as (t' & Ht & Hw').
  - apply Hw.
  - by eapply wrote_txn.
  - done.
  - by eapply wrote_few.
  - done.
  - by apply room_left.
  - exists t'. split; [done|]. unfold to_home. by rewrite <- Hv, <- El.
Qed.
End Loops.

(** *** The header *)

Lemma write_head_loop bl b x j s :
  txn (k_log s) bl (d_size (k_disk s)) -> k_bufs s !! b = Some x -> 0 <= j <= Z.of_nat (length bl) ->
  foreach (zrange j (Z.of_nat (length bl))) (fun i =>
    v ← lh_get i; buf_upd b (fun x => x <| b_data ::= put32 (Z.to_nat (4 + 4 * i)) v |>)) s =
  Ok tt (s <| k_bufs := <[b := x <| b_data ::= put_words (Z.to_nat (4 + 4 * j)) (drop (Z.to_nat j) bl) |>]> (k_bufs s) |>).
Proof.
  intros Htx Hx Hj. remember (length (drop (Z.to_nat j) bl)) as m eqn:Em. revert j x s Htx Hx Hj Em.
  induction m as [|m IH]; intros j x s Htx Hx Hj Em; rewrite length_drop in Em.
  - rewrite zrange_nil, drop_ge by lia. unfold foreach, ret. f_equal.
    apply kstate_ext; rsimpl; try reflexivity. rewrite list_insert_id; [done|]. rewrite Hx. by destruct x.
  - rewrite zrange_cons by lia. cbn [foreach].
    mstep by (mstep by (by eapply lh_get_home; [done|lia|]); by apply buf_upd_ok).
    rewrite IH with (x := x <| b_data ::= put32 (Z.to_nat (4 + 4 * j)) (home bl j) |>);
      [|done|rsimpl; apply list_lookup_insert_eq; by eapply lookup_lt_Some|lia|rewrite length_drop; lia].
    rewrite (drop_S _ (home bl j) (Z.to_nat j)) by (apply home_lookup; lia).
    f_equal. apply kstate_ext; rsimpl; try reflexivity. rewrite list_insert_insert_eq. f_equal.
    replace (S (Z.to_nat j)) with (Z.to_nat (j + 1)) by lia.
    replace (Z.to_nat (4 + 4 * (j + 1))) with (Z.to_nat (4 + 4 * j) + 4)%nat by lia. by destruct x.
Qed.

Lemma write_head_ok bl n s :
  quiet s -> txn (k_log s) bl (d_size (k_disk s)) -> few_dirty n s -> (n < NBUF)%nat ->
  exists s', write_head s = Ok tt s' /\
    wrote [(l_start (k_log s), header bl (view s (l_start (k_log s))))] s s'.
Proof.
  intros [Hk [l HI]] Htx Hfew Hn. set (L := l_start (k_log s)).
  assert (HL : 0 <= L < d_size (k_disk s)) by (unfold L; destruct Htx; lia).
  destruct (bread_ok [] l L s Hk HI HL)
    as (i & x & s1 & H1 & _ & HI1 & Hx & Hbx & Hdx & _ & _ & Hv1 & Hf1 & Hd1);
    [by intros ? ? ?%not_elem_of_nil|right; eapply few_dirty_room; [done|done|simpl; lia]|].
  pose proof (kmode_bio _ _ _ _ _ _ Hk Hf1) as Hk1. pose proof (bio_frame_log _ _ Hf1) as El.
  destruct (store_ok _ _ i x (header bl (b_data x)) s1 Hk1 HI1 ltac:(by left) Hx)
    as (s2 & H2 & HI2 & Hb2 & Hd2 & Hv2 & Hf2).
  pose proof (kmode_bio _ _ _ _ _ _ Hk1 Hf2) as Hk2.
  destruct (brelse_ok [] l i (x <| b_data := header bl (b_data x) |> <| b_flags := B_VALID |>) s2 Hk2 HI2)
    as (l3 & s3 & H3 & HI3 & _ & Hv3 & Hf3 & Hd3).
  { set_solver. }
  { rewrite Hb2. apply list_lookup_insert_eq. by eapply lookup_lt_Some. }
  { right. rsimpl. rewrite Hd2, d_read_add. cbn [written]. by rewrite Z.eqb_refl. }
  exists s3. split.
  - unfold write_head. mstep. fold L.
    mstep by (rewrite log_bread_eq by (apply Htx || (destruct Htx; lia)); exact H1).
    rewrite (tx_n _ _ _ Htx). mstep by (by apply buf_upd_ok).
    mstep by (apply (write_head_loop bl i (x <| b_data ::= put32 0 (Z.of_nat (length bl)) |>) 0);
              [rsimpl; rewrite El, Hd1; exact Htx|rsimpl; apply list_lookup_insert_eq; by eapply lookup_lt_Some|lia]).
    rsimpl. rewrite list_insert_insert_eq.
    change (x <| b_data ::= put32 0 _ |> <| b_data ::= _ |>) with (x <| b_data := header bl (b_data x) |>).
    match goal with |- bind _ _ ?t = _ => change t with (s1 <| k_bufs := <[i := x <| b_data := header bl (b_data x) |>]> (k_bufs s1) |>) end.
    mstep with (H2). exact H3.
  - apply (wrote_after _ s s1); try done. rewrite <- Hdx. split; try done.
    + split; [by eapply kmode_bio|by eexists].
    + by etrans.
    + intros b. destruct (Hv3 b) as [-> _]. destruct (Hv2 b) as [-> _]. cbn [written]. rewrite Hbx.
      destruct (Z.eqb_spec L b); case_decide; congruence || done.
    + intros b. destruct (Hv3 b) as [_ ->]. destruct (Hv2 b) as [_ ->]. cbn [written]. rewrite Hbx.
      destruct (Z.eqb_spec L b); case_decide; congruence || done.
    + by rewrite Hd3, Hd2, Hbx.
Qed.

(** The cache does not depend on the log's own state. *)
Lemma bcache_log H l lg s : bcache_inv pid H l s -> bcache_inv pid H l (s <| k_log := lg |>).
Proof. by intros []. Qed.

Lemma kmode_log lg s : kmode ci c p pr s -> kmode ci c p pr (s <| k_log := lg |>).
Proof. intros Hk. by apply (kmode_frame ci c p pr s). Qed.

Lemma quiet_log lg s : quiet s -> quiet (s <| k_log := lg |>).
Proof. intros [Hk [l HI]]. split; [by apply kmode_log|]. exists l. by apply bcache_log. Qed.

(** The in-memory header after [read_head]. *)
Definition loaded (l : list Z) (lg : log_t) : log_t :=
  lg <| lh_n := head_n l |> <| lh_block ::= fun old => head_blocks l ++ drop (length (head_blocks l)) old |>.

Lemma read_head_loop d old j s :
  0 <= j <= head_n d -> head_n d <= Z.of_nat LOGSIZE -> length old = LOGSIZE ->
  lh_block (k_log s) = take (Z.to_nat j) (head_blocks d) ++ drop (Z.to_nat j) old ->
  foreach (zrange j (head_n d)) (fun i => lh_set i (head_word d i)) s =
  Ok tt (s <| k_log ::= fun lg => lg <| lh_block := head_blocks d ++ drop (length (head_blocks d)) old |> |>).
Proof.
  intros Hj Hn Hold. assert (Hlen : length (head_blocks d) = Z.to_nat (head_n d)).
  { unfold head_blocks, zrange. rewrite !length_map, length_seq. lia. }
  remember (Z.to_nat (head_n d - j)) as m eqn:Em. revert j s Hj Em.
  induction m as [|m IH]; intros j s Hj Em Hb.
  - replace j with (head_n d) in Hb |- * by lia. rewrite zrange_nil by lia. unfold foreach, ret.
    rewrite <- Hlen, firstn_all in Hb. f_equal. apply kstate_ext; rsimpl; try reflexivity.
    rewrite <- Hb. by destruct (k_log s).
  - rewrite zrange_cons by lia. cbn [foreach].
    mstep by (unfold lh_set; rewrite (proj2 (Z.ltb_ge j 0)), (proj2 (Z.leb_gt _ _)) by lia; reflexivity).
    rewrite IH; [|lia|lia|].
    + reflexivity.
    + rsimpl. rewrite Hb.
      assert (Hw : head_blocks d !! Z.to_nat j = Some (head_word d j)).
      { unfold head_blocks, zrange. rewrite list_lookup_fmap, list_lookup_fmap, lookup_seq_lt by lia.
        simpl. do 2 f_equal. lia. }
      destruct (lookup_lt_is_Some_2 old (Z.to_nat j)) as [o Ho]; [lia|].
      rewrite (drop_S _ _ _ Ho). rewrite insert_app_r_alt by (rewrite length_take; lia).
      rewrite length_take, Nat.min_l, Nat.sub_diag by lia. cbn [insert list_insert].
      replace (Z.to_nat (j + 1)) with (S (Z.to_nat j)) by lia.
      rewrite (take_S_r _ _ _ Hw), <- app_assoc. done.
Qed.

Lemma read_head_ok n s :
  quiet s -> l_dev (k_log s) = 1 -> length (lh_block (k_log s)) = LOGSIZE ->
  0 <= l_start (k_log s) < d_size (k_disk s) -> l_start (k_log s) < 2147483648 ->
  few_dirty n s -> (n < NBUF)%nat ->
  let d := view s (l_start (k_log s)) in 0 <= head_n d <= Z.of_nat LOGSIZE ->
  exists s', read_head s = Ok tt s' /\ quiet s' /\ k_log s' = loaded d (k_log s) /\
    (forall b, view s' b = view s b /\ is_dirty s' b = is_dirty s b) /\ k_disk s' = k_disk s.
Proof.
  intros [Hk [l HI]] Hdev Hlen HL HL2 Hfew Hn d Hd.
  destruct (bread_ok [] l (l_start (k_log s)) s Hk HI HL)
    as (i & x & s1 & H1 & _ & HI1 & Hx & Hbx & Hdx & Hcx & _ & Hv1 & Hf1 & Hd1);
    [by intros ? ? ?%not_elem_of_nil|right; eapply few_dirty_room; [done|done|simpl; lia]|].
  fold d in Hdx. pose proof (kmode_bio _ _ _ _ _ _ Hk Hf1) as Hk1. pose proof (bio_frame_log _ _ Hf1) as El.
  set (s2 := s1 <| k_log := loaded d (k_log s) |>).
  destruct (brelse_ok [] l i x s2 (kmode_log _ _ Hk1) (bcache_log _ _ _ _ HI1) ltac:(set_solver) Hx)
    as (l3 & s3 & H3 & HI3 & _ & Hv3 & Hf3 & Hd3).
  { unfold s2. rsimpl. by rewrite Hbx, Hd1. }
  exists s3. split_and!.
  - unfold read_head. mstep. mstep by (rewrite log_bread_eq by (done || lia); exact H1).
    mstep by (by apply buf_get_ok). rewrite Hdx. fold (head_n d). unfold log_upd at 1. mstep.
    mstep by (apply (read_head_loop d (lh_block (k_log s)) 0); [lia|lia|done|rsimpl; by rewrite El]).
    match goal with |- brelse i ?t = _ => replace t with s2 end; [exact H3|].
    unfold s2, loaded. apply kstate_ext; rsimpl; try reflexivity. by rewrite El.
  - split; [|by eexists]. eapply kmode_bio; [|exact Hf3]. by apply kmode_log.
  - by rewrite (bio_frame_log _ _ Hf3).
  - intros b. destruct (Hv3 b) as [-> ->]. apply Hv1.
  - by rewrite Hd3.
Qed.
End Writes.

(** ** What a disk will hold after recovery

    [durable start d b] is block [b] of the disk [d] once the transaction recorded in
    the log that starts at [start] has been installed. *)
Definition disk_blocks (start : Z) (d : disk) : list Z := head_blocks (d_read d start).
Definition durable (start : Z) (d : disk) (b : Z) : list Z :=
  match scan (Z.eqb b) (disk_blocks start d) with
  | Some k => d_read d (start + Z.of_nat k + 1)
  | None => d_read d b
  end.

(** The blocks that a transaction in the log [lg] on a disk of [sz] blocks may have. *)
Record logged_ok (lg : log_t) (sz : Z) (bl : list Z) : Prop := {
  lk_fit : Z.of_nat (length bl) < l_size lg;
  lk_few : (length bl < NBUF)%nat;
  lk_dup : NoDup bl;
  lk_home : forall b, b ∈ bl -> 0 <= b < sz /\ ~ in_area lg b }.

Definition log_sane (lg : log_t) (sz : Z) : Prop :=
  l_dev lg = 1 /\ length (lh_block lg) = LOGSIZE /\ 0 <= l_start lg /\ 0 < l_size lg /\
  l_start lg + l_size lg <= sz /\ sz <= 2147483648.

(** The header block on the disk is valid. *)
Definition head_valid (lg : log_t) (d : disk) : Prop :=
  Z.of_nat (length (d_read d (l_start lg))) = BSIZE /\ 0 <= head_n (d_read d (l_start lg)) /\
  logged_ok lg (d_size d) (disk_blocks (l_start lg) d).

(** [P] holds of the disk before, between and after the writes [ws]. *)
Definition during (P : disk -> Prop) (ws : list (Z * list Z)) (d : disk) : Prop :=
  forall pre post, ws = pre ++ post -> P (add_writes post d).

Lemma add_writes_nil d : add_writes [] d = d.
Proof. by destruct d. Qed.

Lemma during_app P w1 w2 d : during P w1 d -> during P w2 (add_writes w1 d) -> during P (w2 ++ w1) d.
Proof.
  intros H1 H2 pre post E. apply app_eq_app in E as (k & [[-> ->]|[-> ->]]).
  - rewrite add_writes_app. by eapply H2.
  - by eapply H1.
Qed.

Lemma during_one P w d : P d -> P (add_writes [w] d) -> during P [w] d.
Proof.
  intros H1 H2 [|w' pre] post E; [simpl in E; by subst|].
  injection E as -> E. symmetry in E. apply app_eq_nil in E as [-> ->]. by rewrite add_writes_nil.
Qed.

(** A property that each write of a sequence keeps. *)
Lemma during_writes (P : disk -> Prop) (Q : Z -> Prop) ws d :
  P d -> (forall b, b ∈ ws.*1 -> Q b) -> (forall b v d, P d -> Q b -> P (add_writes [(b, v)] d)) ->
  during P ws d.
Proof.
  intros HP HQ Hstep pre post ->. rewrite fmap_app in HQ.
  assert (HQ' : forall b, b ∈ post.*1 -> Q b) by (intros b Hb; apply HQ; set_solver). clear HQ.
  induction post as [|[b v] post IH]; [by rewrite add_writes_nil|].
  change ((b, v) :: post) with ([(b, v)] ++ post). rewrite add_writes_app.
  apply Hstep; [|apply HQ'; set_solver]. apply IH. intros b' Hb'. apply HQ'. set_solver.
Qed.

Lemma during_end P ws d : during P ws d -> P (add_writes ws d).
Proof. intros H. by apply (H [] ws). Qed.

Lemma d_read_one b v d b' : d_read (add_writes [(b, v)] d) b' = if b =? b' then v else d_read d b'.
Proof. rewrite d_read_add. simpl. by destruct (b =? b'). Qed.

Lemma d_read_one_ne b v d b' : b <> b' -> d_read (add_writes [(b, v)] d) b' = d_read d b'.
Proof. intros H. by rewrite d_read_one, (proj2 (Z.eqb_neq _ _)). Qed.

Lemma durable_home start d j :
  NoDup (disk_blocks start d) -> 0 <= j < Z.of_nat (length (disk_blocks start d)) ->
  durable start d (home (disk_blocks start d) j) = d_read d (start + j + 1).
Proof.
  intros Hd Hj. unfold durable. destruct (scan _ _) as [k|] eqn:E.
  - apply scan_Some in E as [(x & Hx & Ex%Z.eqb_eq) _]. rewrite <- Ex in Hx.
    pose proof (NoDup_lookup _ _ _ _ Hd (home_lookup _ j Hj) Hx) as <-. f_equal. lia.
  - rewrite scan_None in E. specialize (E _ _ (home_lookup _ j Hj)). by rewrite Z.eqb_refl in E.
Qed.

Lemma durable_other start d b : b ∉ disk_blocks start d -> durable start d b = d_read d b.
Proof.
  intros Hb. unfold durable. destruct (scan _ _) as [k|] eqn:E; [|done].
  apply scan_Some in E as [(x & Hx & ->%Z.eqb_eq) _]. destruct Hb. by eapply list_elem_of_lookup_2.
Qed.

Lemma elem_of_home bl b : b ∈ bl -> exists j, 0 <= j < Z.of_nat (length bl) /\ b = home bl j.
Proof.
  intros (k & Hk)%list_elem_of_lookup. exists (Z.of_nat k).
  pose proof (lookup_lt_Some _ _ _ Hk). split; [lia|].
  pose proof (home_lookup bl (Z.of_nat k) ltac:(lia)) as E. rewrite Nat2Z.id in E. congruence.
Qed.

Section Disks.
Context {lg : log_t} {d0 : disk}.
Local Abbreviation start := (l_start lg).
Context (Hlg : log_sane lg (d_size d0)) (Hd0 : head_valid lg d0).

Lemma log_block_area bl j :
  logged_ok lg (d_size d0) bl -> 0 <= j < Z.of_nat (length bl) -> in_area lg (start + j + 1) /\ start <> start + j + 1.
Proof. intros Hbl Hj. pose proof (lk_fit _ _ _ Hbl). unfold in_area. destruct Hlg. lia. Qed.

(** Filling the log of a disk without a recorded transaction. *)
Lemma during_fill ws :
  head_n (d_read d0 start) = 0 -> (forall b, b ∈ ws.*1 -> in_area lg b /\ b <> start) ->
  during (fun d => head_valid lg d /\ forall b, ~ in_area lg b -> durable start d b = d_read d0 b) ws d0.
Proof.
  intros Hz Hws.
  assert (Hr : during (fun d => d_size d = d_size d0 /\ d_read d start = d_read d0 start /\
                         forall b, ~ in_area lg b -> d_read d b = d_read d0 b) ws d0).
  { eapply during_writes with (Q := fun b => in_area lg b /\ b <> start); [done|done|].
    intros b v d (Hs & H1 & H2) [Hb Hne]. split_and!; [done|by rewrite d_read_one_ne|].
    intros b' Hb'. rewrite d_read_one_ne by congruence. by apply H2. }
  intros pre post E. destruct (Hr pre post E) as (Hs & H1 & H2). split.
  - unfold head_valid, disk_blocks in *. by rewrite Hs, H1.
  - intros b Hb. rewrite durable_other; [by apply H2|]. unfold disk_blocks, head_blocks.
    rewrite H1, Hz. set_solver.
Qed.

(** Installing the recorded transaction. *)
Lemma during_install ws :
  (forall b, b ∈ ws.*1 -> b ∈ disk_blocks start d0) ->
  during (fun d => head_valid lg d /\ forall b, durable start d b = durable start d0 b) ws d0.
Proof.
  intros Hws. destruct Hd0 as (Hlen & Hn & Hok).
  assert (Hr : during (fun d => d_size d = d_size d0 /\ (forall b, b ∉ disk_blocks start d0 -> d_read d b = d_read d0 b)) ws d0).
  { eapply during_writes with (Q := fun b => b ∈ disk_blocks start d0); [done|done|].
    intros b v d (Hs & H) Hb. split; [done|]. intros b' Hb'. rewrite d_read_one_ne by congruence. by apply H. }
  intros pre post E. destruct (Hr pre post E) as (Hs & H).
  assert (Harea : forall b, in_area lg b -> d_read (add_writes post d0) b = d_read d0 b).
  { intros b Hb. apply H. intros Hin. by apply (lk_home _ _ _ Hok) in Hin as [_ []]. }
  assert (Hst : d_read (add_writes post d0) start = d_read d0 start).
  { apply Harea. pose proof (lk_fit _ _ _ Hok). unfold in_area. destruct Hlg. lia. }
  assert (Hbl : disk_blocks start (add_writes post d0) = disk_blocks start d0) by (unfold disk_blocks; by rewrite Hst).
  split; [unfold head_valid; by rewrite Hst, Hs, Hbl|].
  intros b. destruct (decide (b ∈ disk_blocks start d0)) as [Hb|Hb].
  - apply elem_of_home in Hb as (j & Hj & ->). rewrite (durable_home start d0) by (done || apply Hok).
    rewrite <- Hbl at 1. rewrite durable_home by (rewrite Hbl; done || apply Hok).
    by apply Harea, (log_block_area (disk_blocks start d0)).
  - rewrite !durable_other by (by rewrite ?Hbl). by apply H.
Qed.

(** Recording a transaction. *)
Lemma record_head bl d :
  d_size d = d_size d0 -> d_read d start = d_read d0 start -> logged_ok lg (d_size d0) bl ->
  let d' := add_writes [(start, header bl (d_read d start))] d in
  head_valid lg d' /\ disk_blocks start d' = bl.
Proof.
  intros Hs Hst Hok d'. destruct Hd0 as (Hlen & _ & _). unfold BSIZE in Hlen.
  assert (Er : d_read d' start = header bl (d_read d0 start)) by (unfold d'; by rewrite d_read_one, Z.eqb_refl, Hst).
  pose proof (lk_few _ _ _ Hok) as Hfew. unfold NBUF in Hfew.
  assert (Ebl : disk_blocks start d' = bl).
  { unfold disk_blocks. rewrite Er. apply head_blocks_header; [lia|lia|].
    apply Forall_forall. intros b Hb%(lk_home _ _ _ Hok). destruct Hlg. lia. }
  split; [|done]. split_and!.
  - rewrite Er. unfold header. by rewrite length_put_words, length_put32.
  - rewrite Er, head_n_header by lia. lia.
  - rewrite Ebl. change (d_size d') with (d_size d). by rewrite Hs.
Qed.

(** Clearing the header once the transaction is installed. *)
Lemma clear_head d :
  d_size d = d_size d0 -> d_read d start = d_read d0 start ->
  let d' := add_writes [(start, header [] (d_read d start))] d in
  head_valid lg d' /\ head_n (d_read d' start) = 0 /\
  forall b, ~ in_area lg b -> d_read d' b = d_read d b /\ durable start d' b = d_read d b.
Proof.
  intros Hs Hst d'. destruct (record_head [] d) as [Hv Hb]; [done|done| |].
  { destruct Hlg. split; simpl; [lia|unfold NBUF; lia|apply NoDup_nil_2|set_solver]. }
  assert (Hne : forall b, ~ in_area lg b -> d_read d' b = d_read d b).
  { intros b Hout. apply d_read_one_ne. unfold in_area in Hout. destruct Hlg. lia. }
  split_and!; [done| |].
  - unfold d'. rewrite d_read_one, Z.eqb_refl. destruct Hd0 as (Hl & _). unfold BSIZE in Hl.
    rewrite head_n_header; [done|simpl; lia|rewrite Hst; lia].
  - intros b Hout. rewrite durable_other by (unfold d'; rewrite Hb; set_solver). by split; apply Hne.
Qed.
End Disks.

Lemma written_copies f n k :
  (forall i j, 0 <= i < Z.of_nat n -> 0 <= j < Z.of_nat n -> (f i).1 = (f j).1 -> i = j) ->
  0 <= k < Z.of_nat n -> written (f k).1 (copies f (Z.of_nat n)) = Some (f k).2.
Proof.
  induction n as [|n IH]; intros Hinj Hk; [lia|]. unfold copies.
  replace (Z.of_nat (S n)) with (Z.of_nat n + 1) by lia.
  rewrite zrange_snoc, map_app, rev_app_distr by lia. simpl. fold (copies f (Z.of_nat n)).
  destruct (f (Z.of_nat n)) as [b v] eqn:E. destruct (Z.eqb_spec b (f k).1) as [Eb|Hne].
  - replace k with (Z.of_nat n); [by rewrite E|]. apply Hinj; [lia|lia|by rewrite E].
  - apply IH; [intros; apply Hinj; lia || done|]. assert (k <> Z.of_nat n) by (intros ->; by rewrite E in Hne). lia.
Qed.

Lemma txn_intro lg bl sz :
  log_sane lg sz -> logged_ok lg sz bl -> lh_n lg = Z.of_nat (length bl) ->
  take (length bl) (lh_block lg) = bl -> txn lg bl sz.
Proof. intros (? & ? & ? & ? & ? & ?) [] ? ?. by split. Qed.

Lemma length_head_blocks l : 0 <= head_n l -> Z.of_nat (length (head_blocks l)) = head_n l.
Proof. intros H. unfold head_blocks, zrange. rewrite !length_map, length_seq. lia. Qed.

Lemma txn_loaded lg d :
  log_sane lg (d_size d) -> head_valid lg d -> txn (loaded (d_read d (l_start lg)) lg) (disk_blocks (l_start lg) d) (d_size d).
Proof.
  intros (H1 & H2 & H3 & H4 & H5 & H6) (Hl & Hn & Hok).
  pose proof (lk_few _ _ _ Hok) as Hf. unfold NBUF in Hf. unfold disk_blocks in *.
  apply txn_intro; unfold loaded; rsimpl.
  - split_and!; try done. rsimpl. rewrite length_app, length_drop, H2. unfold LOGSIZE. lia.
  - by destruct Hok.
  - by rewrite length_head_blocks.
  - rewrite take_app_length' by done. done.
Qed.

Section Recovery.
Context {fl : Fuel} {dsk : Disk} {laws : DiskLaws dsk}.
Context {ci : nat} {c : cpu} {p : nat} {pr : proc}.
Local Abbreviation quiet := (quiet (ci := ci) (c := c) (p := p) (pr := pr)).
Local Abbreviation wrote := (wrote (ci := ci) (c := c) (p := p) (pr := pr)).

Definition all_clean (s : kstate) : Prop := forall b, is_dirty s b = false.

Lemma clean_read s : quiet s -> all_clean s -> forall b, view s b = d_read (k_disk s) b.
Proof. intros [_ [l HI]] Hc b. by eapply clean_view. Qed.

Lemma few_clean s : all_clean s -> few_dirty 0 s.
Proof. intros Hc. exists []. split; [done|]. intros b. by rewrite Hc. Qed.

(** Installing and clearing: the common end of [commit] and [recover_from_log]. *)
Lemma install_clear_ok bl n s :
  quiet s -> txn (k_log s) bl (d_size (k_disk s)) -> few_dirty n s -> (n < NBUF)%nat ->
  (forall b, b ∈ bl -> is_dirty s b = true) \/ (S n < NBUF)%nat -> (forall b, is_dirty s b = true -> b ∈ bl) ->
  let start := l_start (k_log s) in
  let ws := copies (to_home (bl := bl) (s := s)) (Z.of_nat (length bl)) in
  let d := add_writes ws (k_disk s) in
  exists s', (install_trans;; log_upd (fun lg => lg <| lh_n := 0 |>);; write_head) s = Ok tt s' /\ quiet s' /\
    k_log s' = (k_log s) <| lh_n := 0 |> /\ all_clean s' /\ rest s s' /\
    k_disk s' = add_writes ([(start, header [] (d_read d start))] ++ ws) (k_disk s).
Proof.
  intros Hq Htx Hfew Hn Hroom Hsub start ws d.
  destruct (install_trans_ok Hq Htx Hfew Hn Hroom) as (s1 & H1 & Hw1).
  set (s2 := s1 <| k_log ::= fun lg => lg <| lh_n := 0 |> |>).
  assert (El : k_log s1 = k_log s) by apply bio_frame_log, Hw1.
  assert (Hc2 : all_clean s2).
  { intros b. change (is_dirty s2 b) with (is_dirty s1 b). rewrite (wr_dirty _ _ _ Hw1).
    destruct (written b _) eqn:E; [done|]. apply written_None in E.
    destruct (is_dirty s b) eqn:Eb; [|done]. exfalso. apply E, elem_of_copies.
    apply Hsub, elem_of_home in Eb as (j & Hj & ->). by exists j. }
  assert (Hq2 : quiet s2) by apply quiet_log, Hw1.
  destruct (write_head_ok [] 0 s2 Hq2) as (s3 & H3 & Hw3).
  { destruct (wrote_txn _ _ _ _ Hw1 Htx). split; try done; simpl; [lia|unfold NBUF; lia|apply NoDup_nil_2|set_solver]. }
  { by apply few_clean. } { unfold NBUF; lia. }
  assert (Es : l_start (k_log s2) = start) by (unfold s2; rsimpl; by rewrite El).
  assert (Ed : k_disk s2 = d) by apply Hw1.
  exists s3. split_and!.
  - mstep with (H1). unfold log_upd. mstep. exact H3.
  - apply Hw3.
  - rewrite (bio_frame_log s2 s3) by apply Hw3. unfold s2. rsimpl. by rewrite El.
  - intros b. rewrite (wr_dirty _ _ _ Hw3). destruct (written b _); [done|apply Hc2].
  - etrans; [apply bio_rest, Hw1|exact (bio_rest _ _ (wr_frame _ _ _ Hw3))].
  - rewrite (wr_disk _ _ _ Hw3), Es, (clean_read s2 Hq2 Hc2), Ed, add_writes_app. done.
Qed.

(** After the installation the blocks hold what the disk promised. *)
Lemma installed_read bl s b :
  NoDup bl ->
  d_read (add_writes (copies (to_home (bl := bl) (s := s)) (Z.of_nat (length bl))) (k_disk s)) b =
  match scan (Z.eqb b) bl with
  | Some k => view s (l_start (k_log s) + Z.of_nat k + 1)
  | None => d_read (k_disk s) b
  end.
Proof.
  intros Hd. rewrite d_read_add. destruct (scan _ _) as [k|] eqn:E.
  - apply scan_Some in E as [(x & Hx & <-%Z.eqb_eq) _].
    pose proof (lookup_lt_Some _ _ _ Hx) as Hk.
    replace b with (to_home (bl := bl) (s := s) (Z.of_nat k)).1.
    + rewrite written_copies; [done| |lia]. intros i j Hi Hj. by apply home_inj.
    + simpl. unfold home. rewrite Nat2Z.id. by apply nth_lookup_Some.
  - rewrite (proj2 (written_None _ _)); [done|]. intros (k & Hk & ->)%elem_of_copies.
    rewrite scan_None in E. specialize (E _ _ (home_lookup bl k Hk)). by rewrite Z.eqb_refl in E.
Qed.

(** What the writes of an operation of the log may do to the promised contents. *)
Definition promises (lg : log_t) (old new : Z -> list Z) (d : disk) : Prop :=
  head_valid lg d /\
  ((forall b, ~ in_area lg b -> durable (l_start lg) d b = old b) \/
   (forall b, ~ in_area lg b -> durable (l_start lg) d b = new b)).

Lemma install_clear_safe bl s :
  let lg := k_log s in
  let start := l_start lg in
  let ws := copies (to_home (bl := bl) (s := s)) (Z.of_nat (length bl)) in
  let d := add_writes ws (k_disk s) in
  log_sane lg (d_size (k_disk s)) -> head_valid lg (k_disk s) -> disk_blocks start (k_disk s) = bl ->
  (forall j, 0 <= j < Z.of_nat (length bl) -> view s (start + j + 1) = d_read (k_disk s) (start + j + 1)) ->
  let ws' := [(start, header [] (d_read d start))] ++ ws in
  during (fun d => head_valid lg d /\ forall b, ~ in_area lg b -> durable start d b = durable start (k_disk s) b)
    ws' (k_disk s) /\
  head_n (d_read (add_writes ws' (k_disk s)) start) = 0 /\
  forall b, ~ in_area lg b -> d_read (add_writes ws' (k_disk s)) b = durable start (k_disk s) b.
Proof.
  intros lg start ws d Hlg Hv Hbl Hview ws'. pose proof Hv as (_ & _ & Hok).
  assert (Hws : forall b, b ∈ ws.*1 -> b ∈ disk_blocks start (k_disk s)).
  { intros b Hb. rewrite Hbl. apply elem_of_copies in Hb as (k & Hk & ->). by apply home_elem. }
  assert (Hdur : forall b, d_read d b = durable start (k_disk s) b).
  { intros b. unfold d, ws, durable. rewrite installed_read by (rewrite <- Hbl; apply Hok). rewrite Hbl.
    destruct (scan _ _) as [k|] eqn:E; [|done]. apply Hview.
    apply scan_Some in E as [(x & Hx & _) _]. apply lookup_lt_Some in Hx. lia. }
  assert (Hst : d_read d start = d_read (k_disk s) start).
  { rewrite Hdur. apply durable_other. intros Hin. apply (lk_home _ _ _ Hok) in Hin as [_ []].
    unfold in_area, start. destruct Hlg. lia. }
  destruct (clear_head (d0 := k_disk s) Hlg Hv d eq_refl Hst) as (Hv' & Hz & Hout).
  pose proof (during_install Hlg Hv ws Hws) as Hdi. fold start in Hdi.
  unfold ws'. rewrite add_writes_app. fold d. split_and!; [|done|].
  - apply during_app.
    + intros pre post E. destruct (Hdi pre post E) as [H1 H2]. by split.
    + fold d. destruct (during_end _ _ _ Hdi) as [H1 H2]. apply during_one; [by split|].
      split; [done|]. intros b Hb. destruct (Hout b Hb) as [_ E]. fold start in E. by rewrite E.
  - intros b Hb. destruct (Hout b Hb) as [E _]. fold start in E. by rewrite E.
Qed.

Lemma recover_ok s :
  let lg := k_log s in
  let start := l_start lg in
  quiet s -> all_clean s -> log_sane lg (d_size (k_disk s)) -> head_valid lg (k_disk s) ->
  exists ws s', recover_from_log s = Ok tt s' /\ quiet s' /\ all_clean s' /\
    k_log s' = (loaded (d_read (k_disk s) start) lg) <| lh_n := 0 |> /\
    k_disk s' = add_writes ws (k_disk s) /\ head_n (d_read (k_disk s') start) = 0 /\
    during (fun d => head_valid lg d /\ forall b, ~ in_area lg b -> durable start d b = durable start (k_disk s) b)
      ws (k_disk s) /\
    forall b, ~ in_area lg b -> d_read (k_disk s') b = durable start (k_disk s) b.
Proof.
  intros lg start Hq Hc Hlg Hv. pose proof Hlg as (H1 & H2 & H3 & H4 & H5 & H6). pose proof Hv as (_ & Hn & Hok).
  pose proof (lk_few _ _ _ Hok) as Hfew. unfold NBUF, disk_blocks in Hfew.
  pose proof (length_head_blocks _ Hn) as Hlen.
  destruct (read_head_ok 0 s Hq H1 H2) as (s1 & Hr1 & Hq1 & El1 & Hv1 & Hd1).
  { fold lg; lia. } { fold lg; lia. } { by apply few_clean. } { unfold NBUF; lia. }
  { fold lg. rewrite (clean_read s Hq Hc). unfold LOGSIZE. lia. }
  rewrite (clean_read s Hq Hc) in El1. fold lg start in El1.
  assert (Hc1 : all_clean s1) by (intros b; by rewrite (proj2 (Hv1 b))).
  set (bl := disk_blocks start (k_disk s)).
  assert (Htx : txn (k_log s1) bl (d_size (k_disk s1))) by (rewrite El1, Hd1; by apply txn_loaded).
  destruct (install_clear_ok bl 0 s1 Hq1 Htx) as (s2 & Hr2 & Hq2 & El2 & Hc2 & _ & Hd2).
  { by apply few_clean. } { unfold NBUF; lia. } { right; unfold NBUF; lia. } { intros b. by rewrite Hc1. }
  destruct (install_clear_safe bl s1) as (Hdur & Hz & Hout).
  - rewrite El1, Hd1. split_and!; try done. rewrite <- El1. apply Htx.
  - rewrite El1, Hd1. destruct Hv as (G1 & G2 & []). by split.
  - by rewrite El1, Hd1.
  - intros j Hj. by apply clean_read.
  - rewrite El1 in Hd2, El2, Hdur, Hz, Hout. rewrite Hd1 in Hd2, Hdur, Hz, Hout.
    eexists _, s2. rewrite Hd2. split_and!.
    + unfold recover_from_log. mstep with (Hr1). exact Hr2.
    + done.
    + done.
    + done.
    + reflexivity.
    + exact Hz.
    + intros pre post E. destruct (Hdur pre post E) as [(G1 & G2 & []) G3]. split; [by split|exact G3].
    + exact Hout.
Qed.

(** The transaction in memory: the logged blocks are the dirty ones, and no
    transaction is recorded on the disk. *)
Record pending (bl : list Z) (s : kstate) : Prop := {
  pd_quiet : quiet s;
  pd_sane : log_sane (k_log s) (d_size (k_disk s));
  pd_txn : txn (k_log s) bl (d_size (k_disk s));
  pd_dirty : forall b, is_dirty s b = true <-> b ∈ bl;
  pd_head : head_valid (k_log s) (k_disk s);
  pd_none : head_n (d_read (k_disk s) (l_start (k_log s))) = 0 }.

Lemma txn_logged lg bl sz : txn lg bl sz -> logged_ok lg sz bl.
Proof. by intros []. Qed.

Section Commit.
Context {bl : list Z} {s : kstate} (Hp : pending bl s).
Local Abbreviation lg := (k_log s).
Local Abbreviation start := (l_start (k_log s)).

Lemma pending_few : few_dirty (length bl) s.
Proof. exists bl. split; [done|]. intros b. apply Hp. Qed.

Lemma pending_clean b : b ∉ bl -> view s b = d_read (k_disk s) b.
Proof.
  intros Hb. destruct Hp as [[_ [l HI]] _ _ Hd _ _]. eapply clean_view; [done|].
  apply not_true_iff_false. by rewrite Hd.
Qed.

Lemma area_not_logged b : in_area lg b -> b ∉ bl.
Proof. intros Ha Hb. by apply (tx_home _ _ _ (pd_txn _ _ Hp)) in Hb as [_ []]. Qed.

Lemma start_area : in_area lg start.
Proof. destruct (pd_sane _ _ Hp). unfold in_area. lia. Qed.

Local Abbreviation w1 := (copies (to_log (bl := bl) (s := s)) (Z.of_nat (length bl))).
Local Abbreviation w2 := ((start, header bl (d_read (k_disk s) start)) :: w1).

(** The log blocks hold the transaction, the rest of the disk is as it was. *)
Lemma filled_read b : ~ in_area lg b \/ b = start -> d_read (add_writes w1 (k_disk s)) b = d_read (k_disk s) b.
Proof.
  intros Hb. rewrite d_read_add, (proj2 (written_None _ _)); [done|].
  intros (j & Hj & ->)%elem_of_copies.
  destruct (log_block_area (pd_sane _ _ Hp) bl j (txn_logged _ _ _ (pd_txn _ _ Hp)) Hj) as [Ha Hs].
  simpl in Hb. naive_solver.
Qed.

Lemma logged_read j :
  0 <= j < Z.of_nat (length bl) -> d_read (add_writes w1 (k_disk s)) (start + j + 1) = view s (home bl j).
Proof.
  intros Hj. rewrite d_read_add.
  change (start + j + 1) with (to_log (bl := bl) (s := s) j).1.
  rewrite written_copies; [done| |done]. simpl. lia.
Qed.

(** The commit point: the header names the blocks. *)
Lemma committed :
  head_valid lg (add_writes w2 (k_disk s)) /\ disk_blocks start (add_writes w2 (k_disk s)) = bl /\
  forall b, ~ in_area lg b -> durable start (add_writes w2 (k_disk s)) b = view s b.
Proof.
  pose proof (txn_logged _ _ _ (pd_txn _ _ Hp)) as Hok.
  change w2 with ([(start, header bl (d_read (k_disk s) start))] ++ w1). rewrite add_writes_app.
  rewrite <- (filled_read start) by (by right).
  destruct (record_head (pd_sane _ _ Hp) (pd_head _ _ Hp) bl (add_writes w1 (k_disk s)) eq_refl) as [Hv Hbl].
  { apply filled_read. by right. } { done. }
  split_and!; [done|done|]. intros b Hb. destruct (decide (b ∈ bl)) as [Hin|Hout].
  - apply elem_of_home in Hin as (j & Hj & ->). set (d := add_writes _ (add_writes _ _)) in *.
    assert (Ed : durable start d (home bl j) = d_read d (start + j + 1)).
    { rewrite <- Hbl at 1. apply durable_home; rewrite Hbl; [apply Hok|done]. }
    rewrite Ed. destruct (log_block_area (pd_sane _ _ Hp) bl j Hok Hj) as [Ha Hs].
    unfold d. by rewrite d_read_one_ne, logged_read.
  - rewrite durable_other by (by rewrite Hbl). pose proof start_area.
    rewrite d_read_one_ne by congruence. rewrite filled_read by (by left). symmetry. by apply pending_clean.
Qed.

Lemma promises_before : during (promises lg (d_read (k_disk s)) (view s)) w2 (k_disk s).
Proof.
  destruct committed as (Hv & _ & Hnew).
  assert (Hfill : during (promises lg (d_read (k_disk s)) (view s)) w1 (k_disk s)).
  { intros pre post E. destruct (during_fill (pd_sane _ _ Hp) (pd_head _ _ Hp) w1 (pd_none _ _ Hp)) with (pre := pre) (post := post)
      as [H1 H2]; [|done|split; [done|by left]].
    intros b (j & Hj & ->)%elem_of_copies.
    destruct (log_block_area (pd_sane _ _ Hp) bl j (txn_logged _ _ _ (pd_txn _ _ Hp)) Hj). by split. }
  change w2 with ([(start, header bl (d_read (k_disk s) start))] ++ w1) in *.
  apply during_app; [done|]. apply during_one; [by apply during_end|].
  rewrite <- add_writes_app. split; [done|by right].
Qed.

(** [write_log] and the first [write_head]. *)
Lemma commit_first_half :
  exists s1 s2, write_log s = Ok tt s1 /\ write_head s1 = Ok tt s2 /\ wrote w2 s s2.
Proof.
  destruct (write_log_ok (pd_quiet _ _ Hp) (pd_txn _ _ Hp) pending_few (tx_few _ _ _ (pd_txn _ _ Hp)))
    as (s1 & H1 & Hw1); [left; intros b; apply Hp|].
  pose proof (bio_frame_log _ _ (wr_frame _ _ _ Hw1)) as El.
  destruct (write_head_ok bl (length bl) s1 (wr_quiet _ _ _ Hw1)) as (s2 & H2 & Hw2).
  { by eapply wrote_txn, Hp. } { by eapply wrote_few, pending_few. } { apply (pd_txn _ _ Hp). }
  exists s1, s2. split_and!; [done..|]. rewrite El in Hw2.
  assert (Ev : view s1 start = d_read (k_disk s) start).
  { destruct (wrote_other _ _ _ start Hw1) as [-> _]; [|apply pending_clean, area_not_logged, start_area].
    intros (j & Hj & E)%elem_of_copies. simpl in E. lia. }
  rewrite Ev in Hw2. exact (wrote_app _ _ _ _ _ Hw1 Hw2).
Qed.

Lemma commit_ok :
  exists ws s', commit s = Ok tt s' /\ quiet s' /\ all_clean s' /\ k_log s' = lg <| lh_n := 0 |> /\
    rest s s' /\
    k_disk s' = add_writes ws (k_disk s) /\ head_n (d_read (k_disk s') start) = 0 /\
    during (promises lg (d_read (k_disk s)) (view s)) ws (k_disk s) /\
    forall b, ~ in_area lg b -> d_read (k_disk s') b = view s b.
Proof.
  destruct commit_first_half as (s1 & s2 & H1 & H2 & Hw). destruct committed as (Hv & Hbl & Hnew).
  pose proof (bio_frame_log _ _ (wr_frame _ _ _ Hw)) as El. pose proof (wr_disk _ _ _ Hw) as Ed.
  pose proof (pd_txn _ _ Hp) as Htx.
  destruct (decide (bl = [])) as [E0|Hne].
  { exists [], s. rewrite add_writes_nil. split_and!; try done; try apply Hp.
    - unfold commit. mstep. rewrite (tx_n _ _ _ Htx), E0. done.
    - intros b. apply not_true_iff_false. rewrite (pd_dirty _ _ Hp), E0. set_solver.
    - pose proof (tx_n _ _ _ Htx) as En. rewrite E0 in En. destruct (k_log s). simpl in En. by subst.
    - intros [|] post E; [|done]. simpl in E. subst post. apply (promises_before w2 []). by rewrite app_nil_r.
    - intros b _. symmetry. apply pending_clean. rewrite E0. set_solver. }
  assert (Hmem : forall b, is_dirty s2 b = true <-> b ∈ bl).
  { intros b. rewrite <- (pd_dirty _ _ Hp), (wr_dirty _ _ _ Hw). destruct (written b _) eqn:E; [|done].
    split; [done|]. intros Hb%(pd_dirty _ _ Hp). exfalso.
    assert (Hn : b ∉ w2.*1); [|by apply written_None in Hn; rewrite Hn in E].
    intros [->|(j & Hj & ->)%elem_of_copies]%elem_of_cons.
    - by apply (area_not_logged start start_area).
    - apply (area_not_logged _ (proj1 (log_block_area (pd_sane _ _ Hp) bl j (txn_logged _ _ _ Htx) Hj)) Hb). }
  destruct (install_clear_ok bl (length bl) s2 (wr_quiet _ _ _ Hw)) as (s3 & H3 & Hq3 & El3 & Hc3 & Hw3 & Hd3).
  { by eapply wrote_txn. } { by eapply wrote_few, pending_few. } { apply Htx. }
  { left. intros b. apply Hmem. } { intros b. apply Hmem. }
  destruct (install_clear_safe bl s2) as (Hdur & Hz & Hout).
  { rewrite El, Ed. apply Hp. } { by rewrite El, Ed. } { by rewrite El, Ed. }
  { intros j Hj. destruct (wr_quiet _ _ _ Hw) as [_ [l HI]]. eapply clean_view; [done|].
    apply not_true_iff_false. rewrite Hmem, El. apply area_not_logged.
    by apply (log_block_area (pd_sane _ _ Hp) bl j (txn_logged _ _ _ Htx)). }
  rewrite El in El3, Hd3, Hdur, Hz, Hout. rewrite Ed in Hd3, Hdur, Hz, Hout. rewrite <- Hd3 in Hz, Hout.
  rewrite <- add_writes_app in Hd3. eexists _, s3. split_and!; try done.
  - unfold commit. mstep. rewrite (tx_n _ _ _ Htx), (proj2 (Z.ltb_lt _ _)) by (destruct bl; simpl; done || lia).
    cbn [when]. mstep with (H1). mstep with (H2). exact H3.
  - etrans; [apply bio_rest, Hw|exact Hw3].
  - apply during_app; [apply promises_before|]. intros pre post E. destruct (Hdur pre post E) as [G1 G2].
    split; [done|right]. intros b Hb. by rewrite G2, Hnew.
  - intros b Hb. by rewrite Hout, Hnew.
Qed.
End Commit.
End Recovery.
