(* ===== verification/Txn.v ===== *)
(** * Transactions (log.c)

    What the log promises to the file system: [log_write] adds a block to the
    transaction in memory without touching the disk, the last [end_op] commits, and a
    crash at any point of the commit or of a later recovery leaves all or nothing of
    the transaction. *)

From stdpp Require Import gmap.
From S2P Require Import Prelude Outcome Kernel Spinlock Kalloc Proc Sleeplock Bio Log.

Section Txn.
Context {fl : Fuel} {dsk : Disk} {laws : DiskLaws dsk}.
Context {ci : nat} {c : cpu} {p : nat} {pr : proc}.
Local Abbreviation pid := (p_pid pr).
Local Abbreviation pending := (pending (ci := ci) (c := c) (p := p) (pr := pr)).

(** ** log_write *)

(** The transaction with block [b] added, and the in-memory header. *)
Definition add_block (b : Z) (bl : list Z) : list Z := if decide (b ∈ bl) then bl else bl ++ [b].
Definition add_logged (b : Z) (bl : list Z) (lg : log_t) : log_t :=
  if decide (b ∈ bl) then lg
  else lg <| lh_n ::= Z.succ |> <| lh_block ::= <[length bl := b]> |>.

Lemma elem_of_add_block b b' bl : b' ∈ add_block b bl <-> b' = b \/ b' ∈ bl.
Proof. unfold add_block. case_decide as Hin; [|rewrite elem_of_app, list_elem_of_singleton]; naive_solver. Qed.

Lemma lh_index_eq lg bl sz b :
  txn lg bl sz -> 0 <= b < 2147483648 ->
  lh_index lg b = match scan (Z.eqb b) bl with Some k => Z.of_nat k | None => Z.of_nat (length bl) end.
Proof.
  intros Htx Hb. unfold lh_index. rewrite (tx_n _ _ _ Htx), Nat2Z.id, (tx_pre _ _ _ Htx).
  assert (E : scan (fun k => u32 k =? b) bl = scan (Z.eqb b) bl); [|by rewrite E].
  pose proof (tx_home _ _ _ Htx) as Hh. pose proof (tx_sz _ _ _ Htx) as Hs. clear Htx.
  unfold scan. generalize 0%nat. induction bl as [|a bl IH]; intros k; [done|]. simpl.
  assert (Ha : 0 <= a < sz) by (apply Hh; by left). rewrite u32_id by lia. rewrite (Z.eqb_sym a b).
  destruct (b =? a); [done|]. apply IH. intros b' Hb'. apply Hh. by right.
Qed.

Lemma scan_elem b bl : (exists k, scan (Z.eqb b) bl = Some k /\ bl !! k = Some b) /\ b ∈ bl \/
                       scan (Z.eqb b) bl = None /\ b ∉ bl.
Proof.
  destruct (scan _ _) as [k|] eqn:E; [left|right].
  - apply scan_Some in E as [(x & Hx & <-%Z.eqb_eq) _]. split; [by exists k|]. by eapply list_elem_of_lookup_2.
  - split; [done|]. intros (k & Hk)%list_elem_of_lookup. rewrite scan_None in E.
    specialize (E _ _ Hk). by rewrite Z.eqb_refl in E.
Qed.

Lemma log_write_ok H l i x bl s :
  kmode ci c p pr s -> bcache_inv pid H l s -> i ∈ H -> k_bufs s !! i = Some x ->
  txn (k_log s) bl (d_size (k_disk s)) -> Z.of_nat (length bl) < l_size (k_log s) - 1 ->
  1 <= l_outstanding (k_log s) ->
  let s' := s <| k_bufs := <[i := x <| b_flags := Z.lor B_VALID B_DIRTY |>]> (k_bufs s) |>
              <| k_log := add_logged (b_blockno x) bl (k_log s) |> in
  log_write i s = Ok tt s' /\ bcache_inv pid H l s' /\
  (forall b, view s' b = (if decide (b = b_blockno x) then b_data x else view s b) /\
             is_dirty s' b = (if decide (b = b_blockno x) then true else is_dirty s b)).
Proof.
  intros Hk HI HiH Hx Htx Hfit Hout s'.
  destruct (bi_held _ _ _ _ HI i HiH) as (Hi & _ & x' & Hx' & _ & Hd). simplify_eq.
  destruct (bi_shape _ _ _ _ HI i x Hi Hx) as [[? _]|(_ & Hb & Hfl)]; [congruence|].
  pose proof (tx_few _ _ _ Htx) as Hfew. unfold NBUF in Hfew. pose proof (tx_sz _ _ _ Htx) as Hsz.
  split_and!.
  - unfold log_write. mstep. rewrite (tx_n _ _ _ Htx), (proj2 (Z.leb_gt _ _)), (proj2 (Z.leb_gt _ _)),
      (proj2 (Z.ltb_ge _ _)) by (unfold LOGSIZE; lia). cbn [orb].
    mstep by (by eapply (kmode_acquire LLog)). mstep by (by apply buf_get_ok). mstep. rsimpl.
    rewrite (lh_index_eq _ _ _ _ Htx), (i32_id (b_blockno x)), (tx_n _ _ _ Htx) by lia.
    assert (Hor : Z.lor (b_flags x) B_DIRTY = Z.lor B_VALID B_DIRTY) by (by destruct Hfl as [-> | ->]).
    assert (Ex : x <| b_flags ::= fun f => Z.lor f B_DIRTY |> = x <| b_flags := Z.lor B_VALID B_DIRTY |>)
      by (destruct x; simpl in Hor; by rewrite <- Hor).
    pose proof (tx_pre _ _ _ Htx) as Hpre.
    assert (Hset : forall k, (k < LOGSIZE)%nat -> forall t, lh_set (Z.of_nat k) (b_blockno x) t =
              Ok tt (t <| k_log ::= fun lg => lg <| lh_block ::= <[k := b_blockno x]> |> |>)).
    { intros k Hlt t. unfold lh_set. rewrite (proj2 (Z.ltb_ge _ _)), (proj2 (Z.leb_gt _ _)) by lia.
      cbn [orb]. by rewrite Nat2Z.id. }
    destruct (scan_elem (b_blockno x) bl) as [[(k & -> & Hkl) Hin]|[-> Hin]].
    + pose proof (lookup_lt_Some _ _ _ Hkl). mstep by (apply Hset; unfold LOGSIZE; lia).
      rewrite (proj2 (Z.eqb_neq _ _)) by lia. cbn [when]. mstep. mstep by (by apply buf_upd_ok).
      rewrite (kmode_release LLog s _ Hk) by done. f_equal. unfold s', add_logged. rewrite decide_True by done.
      apply kstate_ext; rsimpl; try reflexivity; [by rewrite Ex|].
      assert (Hlk : lh_block (k_log s) !! k = Some (b_blockno x)).
      { rewrite <- Hkl, <- Hpre at 1. by rewrite lookup_take_lt. }
      pose proof (list_insert_id _ _ _ Hlk) as E. destruct (k_log s). unfold set. simpl in *. by rewrite E.
    + mstep by (apply Hset; unfold LOGSIZE; lia). rewrite Z.eqb_refl. cbn [when]. unfold log_upd. mstep.
      mstep by (by apply buf_upd_ok).
      rewrite (kmode_release LLog s _ Hk) by done. f_equal. unfold s', add_logged. rewrite decide_False by done.
      apply kstate_ext; rsimpl; try reflexivity. by rewrite Ex.
  - eapply (change_inv (s := s) (s' := s') (i := i) (x := x) (y := x <| b_flags := Z.lor B_VALID B_DIRTY |>)); try done.
    by right.
  - intros b. destruct (change_blocks (s' := s') (y := x <| b_flags := Z.lor B_VALID B_DIRTY |>) HI HiH Hx)
      with (b := b) as [H1 H2]; done.
Qed.

(** A typical use (the comment above [log_write]): read a block, change it, log it and
    release it. *)
Definition log_update (b : Z) (d : list Z) : K unit :=
  i ← bread 1 b;
  buf_upd i (fun x => x <| b_data := d |>);;
  log_write i;;
  brelse i.

Lemma txn_add lg bl sz b :
  txn lg bl sz -> Z.of_nat (length bl) < l_size lg - 1 -> l_size lg <= Z.of_nat NBUF ->
  0 <= b < sz -> ~ in_area lg b -> txn (add_logged b bl lg) (add_block b bl) sz.
Proof.
  intros Htx Hfit Hsz Hb Hout. unfold add_logged, add_block. case_decide as Hin; [done|].
  destruct Htx as [H1 H2 H3 H4 H5 H6 H7 H8 H9 H10]. split; rsimpl; rewrite ?length_app; simpl; try done; try lia.
  - by rewrite length_insert.
  - rewrite Nat.add_1_r, (take_S_r _ _ b), take_insert_ge, H6; [done|lia|].
    apply list_lookup_insert_eq. rewrite H2. unfold NBUF, LOGSIZE in *. lia.
  - apply NoDup_app. split_and!; [done|set_solver|apply NoDup_singleton].
  - intros b' [Hb'|Hb']%elem_of_app; [by apply H10|]. set_solver.
Qed.

(** The area of the log does not change after [initlog]. *)
Definition same_area (lg lg' : log_t) : Prop :=
  l_start lg' = l_start lg /\ l_size lg' = l_size lg.

Lemma add_logged_area b bl lg : same_area lg (add_logged b bl lg).
Proof. unfold add_logged. by case_decide. Qed.

Lemma head_valid_area lg lg' d : same_area lg lg' -> head_valid lg d -> head_valid lg' d.
Proof.
  intros [E1 E2] (H1 & H2 & []). unfold head_valid. rewrite E1. split_and!; try done.
  split; rewrite ?E2; try done. unfold in_area. by rewrite E1, E2.
Qed.

Lemma pending_change bl bl' s s' :
  pending bl s -> quiet (ci := ci) (c := c) (p := p) (pr := pr) s' -> k_disk s' = k_disk s ->
  same_area (k_log s) (k_log s') ->
  txn (k_log s') bl' (d_size (k_disk s)) -> (forall b, is_dirty s' b = true <-> b ∈ bl') -> pending bl' s'.
Proof.
  intros [H1 H2 H3 H4 H5 H6] Hq Ed Ea Htx Hdirty. destruct (Ea) as [E1 E2].
  split; rewrite ?Ed, ?E1; try done; [|by eapply head_valid_area].
  destruct H2 as (_ & _ & G3 & G4 & G5 & G6), Htx. unfold log_sane. by rewrite E1, E2.
Qed.

Lemma log_update_ok bl b d s :
  pending bl s -> 0 <= b < d_size (k_disk s) -> ~ in_area (k_log s) b ->
  Z.of_nat (length bl) < l_size (k_log s) - 1 -> l_size (k_log s) <= Z.of_nat NBUF ->
  1 <= l_outstanding (k_log s) ->
  exists s', log_update b d s = Ok tt s' /\ pending (add_block b bl) s' /\ k_disk s' = k_disk s /\
    (forall b', view s' b' = if decide (b' = b) then d else view s b') /\
    k_log s' = add_logged b bl (k_log s).
Proof.
  intros Hp Hb Hout Hfit Hsz Ho. pose proof (pd_quiet _ _ Hp) as [Hk [l HI]]. pose proof (pd_txn _ _ Hp) as Htx.
  destruct (bread_ok [] l b s Hk HI Hb) as (i & x & s1 & H1 & _ & HI1 & Hx & Hbx & _ & _ & _ & Hv1 & Hf1 & Hd1);
    [by intros ? ? ?%not_elem_of_nil|right; eapply few_dirty_room;
     [done|by eapply pending_few|simpl; rewrite Nat.add_0_r; apply Htx]|].
  pose proof (bio_frame_log _ _ Hf1) as El1.
  destruct (fill_ok (pr := pr) [i] l i x d s1 HI1 ltac:(by left) Hx) as (HI2 & Hf2 & Hv2).
  set (s2 := s1 <| k_bufs := <[i := x <| b_data := d |>]> (k_bufs s1) |>) in *.
  pose proof (kmode_bio _ _ _ _ _ _ (kmode_bio _ _ _ _ _ _ Hk Hf1) Hf2) as Hk2.
  assert (Hx2 : k_bufs s2 !! i = Some (x <| b_data := d |>)) by (apply list_lookup_insert_eq; by eapply lookup_lt_Some).
  assert (Htx2 : txn (k_log s2) bl (d_size (k_disk s2))) by (unfold s2; rsimpl; by rewrite El1, Hd1).
  destruct (log_write_ok [i] l i _ bl s2 Hk2 HI2 ltac:(by left) Hx2 Htx2) as (H3 & HI3 & Hv3).
  { unfold s2; rsimpl; by rewrite El1. } { unfold s2; rsimpl; by rewrite El1. }
  change (b_blockno (x <| b_data := d |>)) with (b_blockno x) in *. rewrite Hbx in *.
  set (s3 := s2 <| k_bufs := _ |> <| k_log := _ |>) in *.
  assert (Hk3 : kmode ci c p pr s3) by (by apply (kmode_frame ci c p pr s2)).
  assert (Hx3 : k_bufs s3 !! i = Some (x <| b_data := d |> <| b_flags := Z.lor B_VALID B_DIRTY |>))
    by (apply list_lookup_insert_eq; by eapply lookup_lt_Some).
  destruct (brelse_ok [] l i _ s3 Hk3 HI3 ltac:(set_solver) Hx3 (or_introl eq_refl))
    as (l4 & s4 & H4 & HI4 & _ & Hv4 & Hf4 & Hd4).
  assert (El4 : k_log s4 = add_logged b bl (k_log s)).
  { rewrite (bio_frame_log _ _ Hf4). unfold s3, s2. rsimpl. by rewrite El1. }
  assert (Ed4 : k_disk s4 = k_disk s) by (by rewrite Hd4).
  exists s4. split_and!; try done.
  - unfold log_update. mstep with (H1). mstep by (by apply buf_upd_ok). fold s2. mstep with (H3). exact H4.
  - eapply (pending_change bl); [done| |done|rewrite El4; apply add_logged_area|rewrite El4; by apply txn_add|].
    + split; [by eapply kmode_bio|by eexists].
    + intros b'. destruct (Hv4 b') as [_ ->], (Hv3 b') as [_ ->], (Hv2 b') as [_ ->], (Hv1 b') as [_ ->].
      rewrite elem_of_add_block, <- (pd_dirty _ _ Hp b'). case_decide; naive_solver.
  - intros b'. destruct (Hv4 b') as [-> _], (Hv3 b') as [-> _], (Hv2 b') as [-> _], (Hv1 b') as [-> _].
    rsimpl. by repeat case_decide.
Qed.

(** ** begin_op and end_op *)

Definition out_of_room (lg : log_t) : bool :=
  negb (l_committing lg =? 0) || (Z.of_nat LOGSIZE <? lh_n lg + (l_outstanding lg + 1) * MAXOPBLOCKS).

Lemma begin_op_enters s :
  kmode ci c p pr s -> out_of_room (k_log s) = false -> 0 <= l_outstanding (k_log s) -> 0 <= lh_n (k_log s) ->
  begin_op s = Ok tt (s <| k_log ::= fun lg => lg <| l_outstanding ::= fun k => k + 1 |> |>).
Proof.
  intros Hk Hr Ho Hn. unfold begin_op. mstep by (by eapply (kmode_acquire LLog)).
  assert (E : i32 (l_outstanding (k_log s) + 1) = l_outstanding (k_log s) + 1).
  { apply i32_id. unfold out_of_room in Hr. apply orb_false_iff in Hr as [_ Hr%Z.ltb_ge].
    unfold LOGSIZE, MAXOPBLOCKS in Hr. lia. }
  unfold out_of_room in Hr. destruct fuel; cbn [begin_op_loop]; mstep; rsimpl; rewrite Hr; unfold log_upd; mstep;
    rewrite (kmode_release LLog s _ Hk) by done; f_equal; apply kstate_ext; rsimpl; try reflexivity;
    unfold set; simpl; by rewrite E.
Qed.

(** Without room the process sleeps on the log, with [log.lock] free. *)
Lemma begin_op_waits s n :
  fuel = S n -> kmode ci c p pr s -> out_of_room (k_log s) = true ->
  exists k, begin_op s = Switch (s <| k_hw ::= acquired ci c LPtable |> <| k_procs ::= alter (asleep CLog) p |>) k /\
    forall i' c' h' s', resumed i' c' h' s' -> free LLog h' ->
      k s' = begin_op_loop n (s' <| k_procs ::= alter (fun p => p <| p_chan := None |>) p |>
                                 <| k_hw := woken_hw i' c' LLog (h' <| hw_if := hw_if (k_hw s) |>) |>).
Proof.
  intros Hn Hk Hr.
  destruct (sleep_cases ci c (k_hw s) p pr CLog LLog (s <| k_hw ::= acquired ci c LLog |>))
    as (k & Hs & Hres); try done; [apply Hk|apply Hk|by apply (km_locks _ _ _ _ _ Hk)..|apply Hk|apply Hk|].
  eexists. split.
  - unfold begin_op. mstep by (by eapply (kmode_acquire LLog)). rewrite Hn. cbn [begin_op_loop].
    unfold out_of_room in Hr. mstep. rsimpl. rewrite Hr. unfold bind at 1. rewrite Hs. reflexivity.
  - intros i' c' h' s' H1 H2. cbv beta. rewrite (Hres i' c' h' s' H1 H2). cbn [obind]. reflexivity.
Qed.

Definition wake_log : list proc -> list proc := map (wake_one (Some CLog)).

(** No process waits for the log. *)
Definition log_waiters_awake (ps : list proc) : Prop :=
  nobody_asleep (Some CLog) ps.

Lemma all_awake ps : log_waiters_awake (wake_log ps).
Proof. apply wake_all. Qed.

(** The sections of [end_op] before and after the commit. *)
Lemma end_op_others s :
  kmode ci c p pr s -> l_committing (k_log s) = 0 -> 1 < l_outstanding (k_log s) < 2147483648 ->
  end_op s = Ok tt (s <| k_log ::= fun lg => lg <| l_outstanding ::= fun k => k - 1 |> |> <| k_procs ::= wake_log |>).
Proof.
  intros Hk Hc Ho. unfold end_op. mstep by (by eapply (kmode_acquire LLog)). unfold log_upd at 1. mstep. mstep.
  rsimpl. rewrite Hc. rewrite i32_id by lia. rewrite (proj2 (Z.eqb_neq (_ - 1) 0)) by lia. cbn [negb Z.eqb].
  mstep by (mstep by (eapply (inside_wakeup LLog CLog s); [done|split; [done|apply woken_refl]|done]); reflexivity).
  mstep by (by apply (kmode_release LLog s _ Hk)). cbn [when]. unfold ret. f_equal.
  apply kstate_ext; rsimpl; try reflexivity. unfold set. simpl. by rewrite i32_id by lia.
Qed.

Definition in_commit (s : kstate) : kstate :=
  s <| k_log ::= fun lg => lg <| l_outstanding := 0 |> <| l_committing := 1 |> |>.

Lemma end_op_last s s1 :
  kmode ci c p pr s -> l_committing (k_log s) = 0 -> l_outstanding (k_log s) = 1 ->
  commit (in_commit s) = Ok tt s1 -> kmode ci c p pr s1 ->
  end_op s = Ok tt (s1 <| k_log ::= fun lg => lg <| l_committing := 0 |> |> <| k_procs ::= wake_log |>).
Proof.
  intros Hk Hc Ho Hcm Hk1. unfold end_op. mstep by (by eapply (kmode_acquire LLog)). unfold log_upd at 1. mstep. mstep.
  rsimpl. rewrite Hc, Ho. change (i32 (1 - 1)) with 0. cbn [negb Z.eqb].
  mstep by (unfold log_upd; mstep; reflexivity). mstep by (by apply (kmode_release LLog s _ Hk)). cbn [when].
  erewrite bind_ok.
  2: { rewrite <- Hcm. f_equal. unfold in_commit. apply kstate_ext; rsimpl; try reflexivity.
       unfold set. simpl. by rewrite Ho. }
  mstep by (by eapply (kmode_acquire LLog)). unfold log_upd. mstep.
  mstep by (eapply (inside_wakeup LLog CLog s1); [done|split; [done|apply woken_refl]|done]).
  rewrite (kmode_release LLog s1 _ Hk1) by done. done.
Qed.

Lemma txn_other_fields lg lg' bl sz :
  txn lg bl sz -> l_dev lg' = l_dev lg -> l_start lg' = l_start lg -> l_size lg' = l_size lg ->
  lh_n lg' = lh_n lg -> lh_block lg' = lh_block lg -> txn lg' bl sz.
Proof.
  intros [] E1 E2 E3 E4 E5. split; rewrite ?E1, ?E2, ?E3, ?E4, ?E5; try done.
  unfold in_area. by rewrite E2, E3.
Qed.

(** A change of the counters and of sleeping processes keeps the transaction. *)
Lemma pending_counters bl s f ps :
  pending bl s -> woken (k_procs s) ps -> l_dev (f (k_log s)) = l_dev (k_log s) ->
  same_area (k_log s) (f (k_log s)) ->
  lh_n (f (k_log s)) = lh_n (k_log s) -> lh_block (f (k_log s)) = lh_block (k_log s) ->
  pending bl (s <| k_log ::= f |> <| k_procs := ps |>).
Proof.
  intros Hp Hw E1 Ea E4 E5. destruct (Ea) as [E2 E3]. eapply (pending_change bl bl s); try done.
  - destruct (pd_quiet _ _ Hp) as [Hk [l HI]]. split; [by apply (kmode_frame ci c p pr s)|].
    exists l. destruct HI. by split.
  - by eapply txn_other_fields; [apply Hp|..].
  - apply Hp.
Qed.

Lemma pending_nil s :
  quiet (ci := ci) (c := c) (p := p) (pr := pr) s -> all_clean s -> log_sane (k_log s) (d_size (k_disk s)) ->
  head_valid (k_log s) (k_disk s) -> head_n (d_read (k_disk s) (l_start (k_log s))) = 0 -> lh_n (k_log s) = 0 ->
  pending [] s.
Proof.
  intros Hq Hc Hs Hv Hz Hn. split; try done.
  - apply txn_intro; try done. destruct Hs as (_ & _ & ? & ? & _). split; simpl; [lia|unfold NBUF; lia|apply NoDup_nil_2|set_solver].
  - intros b. rewrite Hc. set_solver.
Qed.

Lemma commit_pending bl s :
  pending bl s ->
  exists ws s', commit s = Ok tt s' /\ pending [] s' /\ k_log s' = (k_log s) <| lh_n := 0 |> /\
    rest s s' /\
    k_disk s' = add_writes ws (k_disk s) /\
    during (promises (k_log s) (d_read (k_disk s)) (view s)) ws (k_disk s) /\
    forall b, ~ in_area (k_log s) b -> d_read (k_disk s') b = view s b.
Proof.
  intros Hp. destruct (commit_ok Hp) as (ws & s' & H1 & H2 & H3 & H4 & Hw & H5 & H6 & H7 & H8).
  exists ws, s'. split_and!; try done. apply pending_nil; rewrite ?H4; try done.
  - destruct (pd_sane _ _ Hp) as (G1 & G2 & G3 & G4 & G5 & G6). rewrite H5. by split_and!.
  - rewrite H5. by destruct (during_end _ _ _ H7) as [(G1 & G2 & []) _].
Qed.
End Txn.

(** ** Crashes *)

Section Crash.
Context {fl : Fuel} {dsk : Disk} {laws : DiskLaws dsk}.

(** A machine that has booted on the disk [d]: some process is about to run
    [recover_from_log], nothing is cached, and [initlog] has set the fields of the
    log. *)
Definition booted (lg : log_t) (d : disk) (t : kstate) : Prop :=
  (exists ci c p pr, quiet (ci := ci) (c := c) (p := p) (pr := pr) t) /\ all_clean t /\ k_disk t = d /\
  l_dev (k_log t) = 1 /\ length (lh_block (k_log t)) = LOGSIZE /\ same_area lg (k_log t).

(** The machine stops during the recovery from [d] and leaves [d']. *)
Definition stops (lg : log_t) (d d' : disk) : Prop :=
  exists t t' pre post, booted lg d t /\ recover_from_log t = Ok tt t' /\
    k_disk t' = add_writes (pre ++ post) d /\ d' = add_writes post d.

Lemma in_area_same lg lg' b : same_area lg lg' -> in_area lg' b <-> in_area lg b.
Proof. intros [E1 E2]. unfold in_area. by rewrite E1, E2. Qed.

Lemma add_writes_inj w1 w2 d : add_writes w1 d = add_writes w2 d -> w1 = w2.
Proof. intros E. apply (f_equal d_writes) in E. unfold add_writes in E. rsimpl in E. by eapply app_inv_tail. Qed.

(** The layout of the log on a disk with a valid header. *)
Definition layout_ok (lg : log_t) (sz : Z) : Prop :=
  0 <= l_start lg /\ 0 < l_size lg /\ l_start lg + l_size lg <= sz /\ sz <= 2147483648.

Lemma booted_recovers lg d t :
  layout_ok lg (d_size d) -> head_valid lg d -> booted lg d t ->
  exists ws t', recover_from_log t = Ok tt t' /\
    (exists ci c p pr, pending (ci := ci) (c := c) (p := p) (pr := pr) [] t') /\
    k_disk t' = add_writes ws d /\
    during (fun d' => head_valid lg d' /\ forall b, ~ in_area lg b -> durable (l_start lg) d' b = durable (l_start lg) d b)
      ws d /\
    forall b, ~ in_area lg b -> d_read (k_disk t') b = durable (l_start lg) d b.
Proof.
  intros (L1 & L2 & L3 & L4) Hv ((ci & c & p & pr & Hq) & Hc & Ed & Hdev & Hlen & Ha). destruct (Ha) as [Es Ez].
  assert (Hsane : log_sane (k_log t) (d_size (k_disk t))) by (unfold log_sane; by rewrite Ed, Es, Ez).
  assert (Hv' : head_valid (k_log t) (k_disk t)) by (rewrite Ed; by eapply head_valid_area).
  destruct (recover_ok t Hq Hc Hsane Hv') as (ws & t' & H1 & H2 & H3 & H4 & H5 & H6 & H7 & H8).
  assert (Hz : l_start (k_log t') = l_start (k_log t)) by (by rewrite H4).
  pose proof (tx_len _ _ _ (txn_loaded _ _ Hsane Hv')) as Hll.
  exists ws, t'. rewrite Es, Ed in *. split_and!; try done.
  - exists ci, c, p, pr. apply pending_nil; try done; try (rewrite ?H4, ?H5; rsimpl; done).
    + destruct Hsane as (_ & _ & G3 & G4 & G5 & G6). rewrite H5, H4.
      by split_and!.
    + rewrite H4, H5. destruct (during_end _ _ _ H7) as [(G1 & G2 & []) _]. by split_and!.
    + by rewrite Hz.
  - intros pre post E. destruct (H7 pre post E) as [G1 G2]. split.
    + eapply head_valid_area; [|done]. split; congruence.
    + intros b Hb. apply G2. by rewrite (in_area_same lg).
  - intros b Hb. apply H8. by rewrite (in_area_same lg).
Qed.

Lemma stops_promises lg sz old new d d' :
  layout_ok lg sz -> d_size d = sz -> promises lg old new d -> stops lg d d' ->
  promises lg old new d' /\ d_size d' = sz.
Proof.
  intros HL Es [Hv Hp] (t & t' & pre & post & Hb & Hr & Hd & ->). split; [|done].
  destruct (booted_recovers lg d t) as (ws & t'' & Hr' & _ & Hd' & Hdur & _); [by rewrite Es|done..|].
  assert (t' = t'') by congruence. subst t''. rewrite Hd in Hd'. apply add_writes_inj in Hd'.
  destruct (Hdur pre post (eq_sym Hd')) as [Hv' He]. split; [done|].
  destruct Hp as [Hp|Hp]; [left|right]; intros b Hb'; rewrite He by done; by apply Hp.
Qed.
End Crash.

(** ** Properties *)

(** C1. A commit is atomic.  [commit] returns, the disk holds the transaction and the log
    is empty again.  If the machine stops after any prefix of the writes of the commit,
    and then any number of times during the recovery, the recovery that completes
    leaves every block outside the log with its contents from before the transaction,
    or every one with its contents from the transaction. *)
Theorem commit_atomic {fl : Fuel} {dsk : Disk} {laws : DiskLaws dsk} ci c p pr bl s :
  pending (ci := ci) (c := c) (p := p) (pr := pr) bl s ->
  let lg := k_log s in
  exists ws s', commit s = Ok tt s' /\ pending (ci := ci) (c := c) (p := p) (pr := pr) [] s' /\
    k_disk s' = add_writes ws (k_disk s) /\
    (forall b, ~ in_area lg b -> d_read (k_disk s') b = view s b) /\
    forall pre post d t, ws = pre ++ post -> rtc (stops lg) (add_writes post (k_disk s)) d -> booted lg d t ->
      exists t', recover_from_log t = Ok tt t' /\
        ((forall b, ~ in_area lg b -> d_read (k_disk t') b = d_read (k_disk s) b) \/
         (forall b, ~ in_area lg b -> d_read (k_disk t') b = view s b)).
Proof.
  intros Hp lg. destruct (commit_pending bl s Hp) as (ws & s' & H1 & H2 & _ & _ & H4 & H5 & H6).
  exists ws, s'. split_and!; try done. intros pre post d t E Hst Hb.
  assert (HL : layout_ok lg (d_size (k_disk s))) by (destruct (pd_sane _ _ Hp) as (_ & _ & ? & ? & ? & ?); by split_and!).
  assert (Hd : promises lg (d_read (k_disk s)) (view s) d /\ d_size d = d_size (k_disk s)).
  { pose proof (H5 pre post E) as Hpost. assert (Es : d_size (add_writes post (k_disk s)) = d_size (k_disk s)) by done.
    revert Hpost Es. induction Hst as [|d1 d2 d3 H12 _ IH]; [done|]. intros Hpr Es.
    destruct (stops_promises _ _ _ _ _ _ HL Es Hpr H12). by apply IH. }
  destruct Hd as [[Hv Hpr] Es]. rewrite <- Es in HL.
  destruct (booted_recovers lg d t HL Hv Hb) as (_ & t' & Hr & _ & _ & _ & Hread).
  exists t'. split; [done|]. destruct Hpr as [Hpr|Hpr]; [left|right]; intros b Hout; by rewrite Hread, Hpr.
Qed.


(** [log_write] defers: a block that is read, changed, logged and released belongs to
    the transaction, once, and reads as changed, while nothing has been written to the
    disk. *)
Theorem log_write_defers {fl : Fuel} {dsk : Disk} {laws : DiskLaws dsk} ci c p pr bl b d s :
  pending (ci := ci) (c := c) (p := p) (pr := pr) bl s ->
  0 <= b < d_size (k_disk s) -> ~ in_area (k_log s) b ->
  Z.of_nat (length bl) < l_size (k_log s) - 1 -> l_size (k_log s) <= Z.of_nat NBUF ->
  1 <= l_outstanding (k_log s) ->
  exists s', log_update b d s = Ok tt s' /\
    pending (ci := ci) (c := c) (p := p) (pr := pr) (add_block b bl) s' /\ k_disk s' = k_disk s /\
    forall b', view s' b' = if decide (b' = b) then d else view s b'.
Proof.
  intros Hp Hb Hout Hfit Hsz Ho.
  destruct (log_update_ok bl b d s Hp Hb Hout Hfit Hsz Ho) as (s' & H1 & H2 & H3 & H4 & _). by exists s'.
Qed.

(** [end_op].  While other operations are outstanding nothing reaches the disk; the
    last one commits: the blocks of the transaction are on the disk, and the log is
    empty and open.  In both cases the processes that wait for the log are runnable
    and the others are as they were. *)
Theorem end_op_commits_last {fl : Fuel} {dsk : Disk} {laws : DiskLaws dsk} ci c p pr bl s :
  pending (ci := ci) (c := c) (p := p) (pr := pr) bl s ->
  l_committing (k_log s) = 0 -> 1 <= l_outstanding (k_log s) < 2147483648 ->
  exists s', end_op s = Ok tt s' /\
    l_committing (k_log s') = 0 /\ l_outstanding (k_log s') = l_outstanding (k_log s) - 1 /\
    log_waiters_awake (k_procs s') /\
    woken (k_procs s) (k_procs s') /\
    (1 < l_outstanding (k_log s) -> pending (ci := ci) (c := c) (p := p) (pr := pr) bl s' /\ k_disk s' = k_disk s) /\
    (l_outstanding (k_log s) = 1 -> pending (ci := ci) (c := c) (p := p) (pr := pr) [] s' /\
      forall b, ~ in_area (k_log s) b -> d_read (k_disk s') b = view s b).
Proof.
  intros Hp Hc Ho. pose proof (pd_quiet _ _ Hp) as [Hk _].
  destruct (decide (l_outstanding (k_log s) = 1)) as [E1|Hne].
  - assert (Hp1 : pending (ci := ci) (c := c) (p := p) (pr := pr) bl (in_commit s)).
    { eapply (pending_counters bl s _ (k_procs s)); done || apply woken_refl. }
    destruct (commit_pending bl (in_commit s) Hp1) as (ws & s1 & H1 & H2 & H3 & Hw & H4 & H5 & H6).
    pose proof (pd_quiet _ _ H2) as [Hk1 _]. pose proof (end_op_last s s1 Hk Hc E1 H1 Hk1) as He.
    eexists. split_and!; [exact He|done| | | |lia|].
    + rsimpl. rewrite H3. unfold in_commit. rsimpl. lia.
    + apply all_awake.
    + etrans; [apply Hw|apply woken_wakeup].
    + intros _. split; [|exact H6]. eapply (pending_counters [] s1); try done. apply woken_wakeup.
  - pose proof (end_op_others s Hk Hc ltac:(lia)) as He. eexists. split_and!; [exact He|done|done| | | |lia].
    + apply all_awake.
    + apply woken_wakeup.
    + intros _. split; [|done]. eapply (pending_counters bl s); try done. apply woken_wakeup.
Qed.

(** [begin_op] reserves room.  When no commit is in progress and the log has room for
    [MAXOPBLOCKS] more blocks, the operation is admitted, and what all admitted
    operations may write still fits; otherwise the caller sleeps on the log with
    [log.lock] free, and looks again when it is resumed. *)
Theorem begin_op_reserves {fl : Fuel} ci c p pr s n :
  fuel = S n -> kmode ci c p pr s -> 0 <= l_outstanding (k_log s) -> 0 <= lh_n (k_log s) ->
  if out_of_room (k_log s) then
    exists k, begin_op s = Switch (s <| k_hw ::= acquired ci c LPtable |> <| k_procs ::= alter (asleep CLog) p |>) k /\
      forall i' c' h' s', resumed i' c' h' s' -> free LLog h' ->
        k s' = begin_op_loop n (s' <| k_procs ::= alter (fun p => p <| p_chan := None |>) p |>
                                   <| k_hw := woken_hw i' c' LLog (h' <| hw_if := hw_if (k_hw s) |>) |>)
  else exists s', begin_op s = Ok tt s' /\
    s' = s <| k_log ::= fun lg => lg <| l_outstanding ::= fun k => k + 1 |> |> /\
    lh_n (k_log s') + l_outstanding (k_log s') * MAXOPBLOCKS <= Z.of_nat LOGSIZE.
Proof.
  intros Hn Hk Ho Hl. destruct (out_of_room (k_log s)) eqn:Hr; [by eapply begin_op_waits|].
  eexists. split; [by eapply begin_op_enters|]. split; [done|]. rsimpl.
  unfold out_of_room in Hr. apply orb_false_iff in Hr as [_ Hr%Z.ltb_ge]. lia.
Qed.

(** ** Witnesses *)

Definition log_demo : log_t := mkLog 2 30 1 0 1 0 (replicate LOGSIZE 0).

Lemma demo_quiet d lg :
  quiet (ci := 0%nat) (c := fs_cpu) (p := 0%nat) (pr := fs_proc) (cache_demo d lg) /\ all_clean (cache_demo d lg).
Proof.
  destruct (cache_demo_ok d lg) as (Hk & HI & Hs & _ & _). split.
  - split; [done|by eexists].
  - intros b. unfold is_dirty. by rewrite Hs.
Qed.

Lemma demo_pending :
  pending (ci := 0%nat) (c := fs_cpu) (p := 0%nat) (pr := fs_proc) [] (cache_demo disk_demo log_demo).
Proof.
  destruct (demo_quiet disk_demo log_demo) as [Hq Hc].
  destruct (cache_demo_ok disk_demo log_demo) as (_ & _ & _ & Ed & El).
  assert (Hz : head_n (d_read disk_demo 2) = 0) by (vm_compute; reflexivity).
  apply pending_nil; rewrite ?Ed, ?El; [exact Hq|exact Hc| | |exact Hz|reflexivity].
  - split_and!; [reflexivity|reflexivity|discriminate|reflexivity|discriminate|discriminate].
  - split; [vm_compute; reflexivity|]. change (l_start log_demo) with 2. rewrite Hz. split; [lia|].
    assert (Eb : disk_blocks 2 disk_demo = []) by (unfold disk_blocks, head_blocks; by rewrite Hz).
    rewrite Eb. split; [reflexivity|apply Nat.ltb_lt; reflexivity|apply NoDup_nil_2|].
    intros b Hb. destruct (not_elem_of_nil b Hb).
Qed.

(** The transaction with one block. *)
Definition demo_txn_stmt (s : kstate) : Prop :=
  @log_update 5%nat memide 40 [1; 2; 3] (cache_demo disk_demo log_demo) = Ok tt s /\
  pending (ci := 0%nat) (c := fs_cpu) (p := 0%nat) (pr := fs_proc) [40] s /\ view s 40 = [1; 2; 3] /\
  d_read (k_disk s) 40 = replicate 512 0 /\ k_log s = add_logged 40 [] log_demo.

Lemma demo_txn : exists s, demo_txn_stmt s.
Proof.
  destruct (cache_demo_ok disk_demo log_demo) as (_ & _ & _ & Ed & El).
  destruct (@log_update_ok 5%nat memide memide_laws _ _ _ _ [] 40 [1; 2; 3] _ demo_pending)
    as (s & H1 & H2 & H3 & H4 & H5); rewrite ?Ed, ?El.
  - split; [discriminate|reflexivity].
  - unfold in_area. simpl. lia.
  - reflexivity.
  - discriminate.
  - discriminate.
  - exists s. split_and!; [exact H1|exact H2|by rewrite H4|by rewrite H3, Ed|by rewrite H5, El].
Qed.

Lemma commit_atomic_witness :
  exists s s', demo_txn_stmt s /\ commit (fl := 5%nat) (dsk := memide) s = Ok tt s' /\
    d_read (k_disk s') 40 = [1; 2; 3].
Proof.
  destruct demo_txn as [s Hs]. exists s. pose proof Hs as (_ & Hp & Hv & _ & El).
  destruct (@commit_atomic 5%nat memide memide_laws _ _ _ _ [40] s Hp) as (ws & s' & H1 & _ & _ & H4 & _).
  exists s'. split; [exact Hs|]. split; [exact H1|]. rewrite H4; [exact Hv|].
  rewrite El. unfold in_area. simpl. lia.
Defined.

Lemma log_write_defers_witness :
  exists s', @log_update 5%nat memide 41 [4] (cache_demo disk_demo log_demo) = Ok tt s' /\ view s' 41 = [4].
Proof.
  destruct (cache_demo_ok disk_demo log_demo) as (_ & _ & _ & Ed & El).
  destruct (@log_write_defers 5%nat memide memide_laws _ _ _ _ [] 41 [4] _ demo_pending)
    as (s' & H1 & _ & _ & H4).
  - rewrite Ed. split; [discriminate|reflexivity].
  - rewrite El. unfold in_area. simpl. lia.
  - rewrite El. reflexivity.
  - rewrite El. discriminate.
  - rewrite El. discriminate.
  - exists s'. split; [exact H1|]. rewrite H4. reflexivity.
Defined.

Lemma end_op_commits_last_witness :
  exists s s', demo_txn_stmt s /\ end_op (fl := 5%nat) (dsk := memide) s = Ok tt s' /\ d_read (k_disk s') 40 = [1; 2; 3].
Proof.
  destruct demo_txn as [s Hs]. exists s. pose proof Hs as (_ & Hp & Hv & _ & El).
  destruct (@end_op_commits_last 5%nat memide memide_laws _ _ _ _ [40] s Hp) as (s' & H1 & _ & _ & _ & _ & _ & H6).
  - rewrite El. reflexivity.
  - rewrite El. split; [discriminate|reflexivity].
  - destruct H6 as [_ H6]; [rewrite El; reflexivity|]. exists s'. split; [exact Hs|]. split; [exact H1|].
    rewrite H6; [exact Hv|]. rewrite El. unfold in_area. simpl. lia.
Defined.

Lemma begin_op_reserves_witness :
  exists s', @begin_op 5%nat (cache_demo disk_demo log_demo) = Ok tt s'.
Proof.
  destruct (cache_demo_ok disk_demo log_demo) as (Hk & _ & _ & _ & El).
  pose proof (@begin_op_reserves 5%nat _ _ _ _ _ 4 eq_refl Hk) as H. rewrite El in H.
  destruct H as (s' & H & _); [discriminate|discriminate|]. exists s'. exact H.
Defined.

(** A disk with a committed transaction that has not been installed. *)
Definition crashed_disk : disk :=
  add_writes [(2, header [40] (replicate 512 0)); (3, [9; 9])] disk_demo.

