(* ===== verification/Edit.v ===== *)
(** * Editing blocks in a transaction

    The pattern of fs.c, read a block, change it, log it and release it, with other
    buffers locked at the same time.  [intxn H bl s]: the current process holds the
    buffers [H] inside a transaction that has logged the blocks [bl]. *)

From stdpp Require Import gmap.
From S2P Require Import Prelude Outcome Kernel Spinlock Kalloc Proc Sleeplock Bio Log Txn.

Section Edit.
Context {fl : Fuel} {dsk : Disk} {laws : DiskLaws dsk}.
Context {ci : nat} {c : cpu} {p : nat} {pr : proc}.
Local Abbreviation pid := (p_pid pr).
Local Abbreviation pending := (pending (ci := ci) (c := c) (p := p) (pr := pr)).

Record intxn (H : list nat) (bl : list Z) (s : kstate) : Prop := {
  it_kmode : kmode ci c p pr s;
  it_cache : exists l, bcache_inv pid H l s;
  it_sane : log_sane (k_log s) (d_size (k_disk s));
  it_txn : txn (k_log s) bl (d_size (k_disk s));
  it_dirty : forall b, is_dirty s b = true <-> b ∈ bl;
  it_head : head_valid (k_log s) (k_disk s);
  it_none : head_n (d_read (k_disk s) (l_start (k_log s))) = 0;
  it_out : 1 <= l_outstanding (k_log s);
  it_size : l_size (k_log s) <= Z.of_nat NBUF }.

Lemma intxn_pending bl s :
  intxn [] bl s <-> pending bl s /\ 1 <= l_outstanding (k_log s) /\ l_size (k_log s) <= Z.of_nat NBUF.
Proof.
  split.
  - intros []. by split_and!.
  - intros ([[] ? ? ? ? ?] & ? & ?). by split.
Qed.

(** What a step inside a transaction leaves alone: the disk and everything but the
    cache, the log header and sleeping processes. *)
Definition same_counts (lg lg' : log_t) : Prop := l_outstanding lg' = l_outstanding lg /\ l_committing lg' = l_committing lg.
Definition fs_frame (s s' : kstate) : Prop :=
  k_hw s' = k_hw s /\ woken (k_procs s) (k_procs s') /\
  (k_disk s' = k_disk s /\ inode_locks s s' /\ same_counts (k_log s) (k_log s')) /\
  same_area (k_log s) (k_log s') /\
  s' = s <| k_bufs := k_bufs s' |> <| k_slocks := k_slocks s' |> <| k_procs := k_procs s' |>
         <| k_log := k_log s' |>.

#[global] Instance fs_frame_preorder : PreOrder fs_frame.
Proof.
  split.
  - intros s. split_and!; try done. by destruct s.
  - intros s1 s2 s3 (H1 & H2 & (H3 & H3' & [C1 C2]) & [H4 H4'] & H5) (H6 & H7 & (H8 & H8' & [C3 C4]) & [H9 H9'] & H10). split_and!; try congruence.
    + by etrans.
    + split; congruence.
    + split; congruence.
    + rewrite H10, H5. by destruct s1, s3.
Qed.

Lemma bio_fs_frame s s' : bio_frame s s' -> k_disk s' = k_disk s -> fs_frame s s'.
Proof.
  intros Hf Hd. pose proof Hf as (H1 & H2 & _ & [_ H4] & H5). split_and!; try done.
  - by rewrite (bio_frame_log _ _ Hf).
  - by rewrite (bio_frame_log _ _ Hf).
  - rewrite H5 at 1. apply kstate_ext; rsimpl; try reflexivity; try done. symmetry; by apply bio_frame_log.
Qed.

(** The block in buffer [i] may be released. *)
Definition settled (i : nat) (s : kstate) : Prop :=
  forall x, k_bufs s !! i = Some x ->
    b_flags x = Z.lor B_VALID B_DIRTY \/ b_data x = d_read (k_disk s) (b_blockno x).

Definition holds_block (i : nat) (b : Z) (s : kstate) : Prop :=
  exists x, k_bufs s !! i = Some x /\ b_blockno x = b /\ b_data x = view s b.

(** No buffer of [H] holds block [b]; there is a buffer to read it into. *)
Definition unheld (H : list nat) (b : Z) (s : kstate) : Prop :=
  forall i, i ∈ H -> b_blockno <$> k_bufs s !! i <> Some b.
Definition can_read (H : list nat) (bl : list Z) (b : Z) (s : kstate) : Prop :=
  0 <= b < d_size (k_disk s) /\ unheld H b s /\ (b ∈ bl \/ (length bl + length H < NBUF)%nat).

(** The buffers [H] hold the same blocks. *)
Definition same_held (H : list nat) (s s' : kstate) : Prop :=
  forall i, i ∈ H -> payload <$> k_bufs s' !! i = payload <$> k_bufs s !! i.

#[global] Instance same_held_preorder H : PreOrder (same_held H).
Proof. split; [by intros s i|]. intros s1 s2 s3 H1 H2 i Hi. by rewrite H2, H1. Qed.

Lemma same_held_blockno H s s' i :
  same_held H s s' -> i ∈ H -> b_blockno <$> k_bufs s' !! i = b_blockno <$> k_bufs s !! i.
Proof.
  intros Hs Hi. specialize (Hs i Hi).
  destruct (k_bufs s' !! i), (k_bufs s !! i); simpl in *; try done. unfold payload in Hs. congruence.
Qed.

Lemma unheld_same H b s s' : same_held H s s' -> unheld H b s -> unheld H b s'.
Proof. intros Hs Hu i Hi. rewrite (same_held_blockno H s s') by done. by apply Hu. Qed.

Lemma intxn_step H H' bl s s' l :
  intxn H bl s -> bio_frame s s' -> k_disk s' = k_disk s -> bcache_inv pid H' l s' ->
  (forall b, is_dirty s' b = is_dirty s b) -> intxn H' bl s'.
Proof.
  intros [H1 H2 H3 H4 H5 H6 H7 H8 H9] Hf Hd HI Hdirty. pose proof (bio_frame_log _ _ Hf) as El.
  split; rewrite ?El, ?Hd; try done.
  - by eapply kmode_bio.
  - by exists l.
  - intros b. by rewrite Hdirty.
Qed.

Lemma bread_in H bl b s :
  intxn H bl s -> can_read H bl b s ->
  exists i s', bread 1 b s = Ok i s' /\ (i ∉ H) /\ intxn (i :: H) bl s' /\ holds_block i b s' /\ settled i s' /\
    same_held H s s' /\
    (forall b', view s' b' = view s b') /\ fs_frame s s' /\ k_log s' = k_log s.
Proof.
  intros Hi (Hb & Hne & Hroom). pose proof (it_cache _ _ _ Hi) as [l HI]. pose proof (it_kmode _ _ _ Hi) as Hk.
  assert (Hne' : forall i x, i ∈ H -> k_bufs s !! i = Some x -> b_blockno x <> b).
  { intros i x Hih Hx E. apply (Hne i Hih). by rewrite Hx, <- E. }
  destruct (bread_ok H l b s Hk HI Hb Hne') as (i & y & s' & H1 & HiH & HI' & Hy & Hby & Hdy & Hco & Hoth & Hv & Hf & Hd).
  { destruct Hroom as [Hin|Hlt]; [left; by apply dirty_slot, (it_dirty _ _ _ Hi)|right].
    eapply room_if_few_dirty; [done|intros b'; apply Hi|done]. }
  exists i, s'. split_and!; try done.
  - eapply intxn_step; try done. intros b'. apply Hv.
  - exists y. rewrite (proj1 (Hv b)). done.
  - intros x Hx. rewrite Hy in Hx. injection Hx as <-. rewrite Hby, Hd. done.
  - intros j Hj. by rewrite Hoth.
  - intros b'. apply Hv.
  - by apply bio_fs_frame.
  - by apply bio_frame_log.
Qed.

Lemma brelse_in H bl i s :
  intxn (i :: H) bl s -> i ∉ H -> settled i s ->
  exists s', brelse i s = Ok tt s' /\ intxn H bl s' /\
    same_held H s s' /\
    (forall b', view s' b' = view s b') /\ fs_frame s s' /\ k_log s' = k_log s.
Proof.
  intros Hi HiH Hset. pose proof (it_cache _ _ _ Hi) as [l HI]. pose proof (it_kmode _ _ _ Hi) as Hk.
  destruct (bi_held _ _ _ _ HI i ltac:(by left)) as (_ & _ & x & Hx & _ & _).
  destruct (brelse_ok H l i x s Hk HI HiH Hx (Hset x Hx)) as (l' & s' & H1 & HI' & Hpay & Hv & Hf & Hd).
  exists s'. split_and!; try done.
  - eapply intxn_step; try done. intros b'. apply Hv.
  - intros j Hj. rewrite Hpay, list_lookup_insert_ne; [done|]. intros ->. done.
  - intros b'. apply Hv.
  - by apply bio_fs_frame.
  - by apply bio_frame_log.
Qed.

(** The data of a held buffer are changed and logged. *)
Lemma log_in H bl i b f s :
  intxn H bl s -> i ∈ H -> holds_block i b s -> ~ in_area (k_log s) b ->
  Z.of_nat (length bl) < l_size (k_log s) - 1 ->
  exists s1 s', buf_upd i (fun x => x <| b_data ::= f |>) s = Ok tt s1 /\ log_write i s1 = Ok tt s' /\
    intxn H (add_block b bl) s' /\ holds_block i b s' /\ settled i s' /\
    (forall j, j <> i -> k_bufs s' !! j = k_bufs s !! j) /\
    (forall b', view s' b' = if decide (b' = b) then f (view s b) else view s b') /\
    fs_frame s s' /\ k_log s' = add_logged b bl (k_log s).
Proof.
  intros Hi HiH (x & Hx & Hbx & Hdx) Hout Hfit.
  pose proof (it_cache _ _ _ Hi) as [l HI]. pose proof (it_kmode _ _ _ Hi) as Hk. pose proof (it_txn _ _ _ Hi) as Htx.
  destruct (fill_ok (pr := pr) H l i x (f (b_data x)) s HI HiH Hx) as (HI1 & Hf1 & Hv1).
  set (s1 := s <| k_bufs := <[i := x <| b_data := f (b_data x) |>]> (k_bufs s) |>) in *.
  set (x1 := x <| b_data := f (b_data x) |>) in *.
  assert (Hx1 : k_bufs s1 !! i = Some x1) by (apply list_lookup_insert_eq; by eapply lookup_lt_Some).
  destruct (log_write_ok H l i x1 bl s1 (kmode_bio _ _ _ _ _ _ Hk Hf1) HI1 HiH Hx1 Htx Hfit (it_out _ _ _ Hi))
    as (H2 & HI2 & Hv2).
  change (b_blockno x1) with (b_blockno x) in *. change (k_log s1) with (k_log s) in *. rewrite Hbx in *.
  set (s2 := s1 <| k_bufs := _ |> <| k_log := _ |>) in *.
  assert (Hb2 : k_bufs s2 = <[i := x1 <| b_flags := Z.lor B_VALID B_DIRTY |>]> (k_bufs s)).
  { unfold s2, s1. rsimpl. by rewrite list_insert_insert_eq. }
  assert (Hl2 : k_bufs s2 !! i = Some (x1 <| b_flags := Z.lor B_VALID B_DIRTY |>)).
  { rewrite Hb2. apply list_lookup_insert_eq. by eapply lookup_lt_Some. }
  assert (Hview : forall b', view s2 b' = if decide (b' = b) then f (view s b) else view s b').
  { intros b'. destruct (Hv2 b') as [-> _]. destruct (Hv1 b') as [-> _]. rewrite <- Hdx. by case_decide. }
  destruct (bi_held _ _ _ _ HI i HiH) as (Hlt & _ & x' & Hx' & _ & Hdev).
  assert (x' = x) as -> by congruence.
  destruct (bi_shape _ _ _ _ HI i x Hlt Hx) as [[? _]|(_ & Hrange & _)]; [congruence|]. rewrite Hbx in Hrange.
  exists s1, s2. split_and!; try done.
  - exact (buf_upd_ok i x (fun y => y <| b_data ::= f |>) s Hx).
  - destruct Hi as [G1 G2 G3 G4 G5 G6 G7 G8 G9].
    pose proof (add_logged_area b bl (k_log s)) as Ha. destruct (Ha) as [Ea1 Ea2].
    pose proof (txn_add _ _ _ _ Htx Hfit G9 Hrange Hout) as Htx'.
    assert (El : k_log s2 = add_logged b bl (k_log s)) by done. assert (Ed : k_disk s2 = k_disk s) by done.
    split; rewrite ?El, ?Ed, ?Ea1, ?Ea2; try done.
    + by apply (kmode_frame ci c p pr s).
    + by exists l.
    + destruct G3 as (K1 & K2 & K3 & K4 & K5 & K6). unfold log_sane. rewrite Ea1, Ea2.
      split_and!; try done; apply Htx'.
    + intros b'. destruct (Hv2 b') as [_ ->]. destruct (Hv1 b') as [_ ->]. rewrite elem_of_add_block, <- G5.
      clear -b b'. case_decide; naive_solver.
    + by eapply head_valid_area.
    + unfold add_logged. by case_decide.
  - eexists. split_and!; [exact Hl2|done|]. rewrite Hview, decide_True, <- Hdx by done. done.
  - intros y Hy. rewrite Hl2 in Hy. injection Hy as <-. by left.
  - intros j Hj. rewrite Hb2. by rewrite list_lookup_insert_ne.
  - split_and!; try done; [|apply add_logged_area]. change (same_counts (k_log s) (add_logged b bl (k_log s))). unfold add_logged. by case_decide.
Qed.

(** Change, log and release. *)
Lemma log_release_in H bl i b f s :
  intxn (i :: H) bl s -> i ∉ H -> holds_block i b s -> ~ in_area (k_log s) b ->
  Z.of_nat (length bl) < l_size (k_log s) - 1 ->
  exists s1 s2 s', buf_upd i (fun x => x <| b_data ::= f |>) s = Ok tt s1 /\ log_write i s1 = Ok tt s2 /\
    brelse i s2 = Ok tt s' /\ intxn H (add_block b bl) s' /\ same_held H s s' /\
    (forall b', view s' b' = if decide (b' = b) then f (view s b) else view s b') /\
    fs_frame s s' /\ k_log s' = add_logged b bl (k_log s).
Proof.
  intros Hi HiH Hb Hout Hfit.
  destruct (log_in (i :: H) bl i b f s Hi ltac:(by left) Hb Hout Hfit)
    as (s1 & s2 & H1 & H2 & Hi2 & Hb2 & Hs2 & Ho2 & Hv2 & Hf2 & Hl2).
  destruct (brelse_in H (add_block b bl) i s2 Hi2 HiH Hs2) as (s3 & H3 & Hi3 & Hh3 & Hv3 & Hf3 & Hl3).
  exists s1, s2, s3. split_and!; try done.
  - intros j Hj. rewrite Hh3 by done. rewrite Ho2; [done|]. intros ->. done.
  - intros b'. by rewrite Hv3, Hv2.
  - by etrans.
  - congruence.
Qed.

(** Read, change, log and release. *)
Lemma edit_in H bl b f s :
  intxn H bl s -> can_read H bl b s -> ~ in_area (k_log s) b -> Z.of_nat (length bl) < l_size (k_log s) - 1 ->
  exists s', (i ← bread 1 b; buf_upd i (fun x => x <| b_data ::= f |>);; log_write i;; brelse i) s = Ok tt s' /\
    intxn H (add_block b bl) s' /\ same_held H s s' /\
    (forall b', view s' b' = if decide (b' = b) then f (view s b) else view s b') /\
    fs_frame s s' /\ k_log s' = add_logged b bl (k_log s).
Proof.
  intros Hi Hc Hout Hfit.
  destruct (bread_in H bl b s Hi Hc) as (i & s1 & H1 & HiH & Hi1 & Hb1 & _ & Hh1 & Hv1 & Hf1 & Hl1).
  destruct (log_release_in H bl i b f s1 Hi1 HiH Hb1) as (s2 & s3 & s4 & H2 & H3 & H4 & Hi4 & Hh4 & Hv4 & Hf4 & Hl4);
    [by rewrite Hl1..|].
  exists s4. split_and!; try done.
  - mstep with (H1). mstep with (H2). mstep with (H3). exact H4.
  - by etrans.
  - intros b'. rewrite Hv4, !Hv1. done.
  - by etrans.
  - congruence.
Qed.
End Edit.
