(* ===== verification/Pipe.v ===== *)
(** * Pipes (pipe.c)

    A pipe is a ring of [PIPESIZE] bytes with two free-running 32-bit counters.  The
    structure sits in a page of the allocator and is known by the page's address.
    Buffers of the caller are the list of bytes that is written, or returned. *)

From stdpp Require Import gmap.
From S2P Require Import Prelude Outcome Kernel Spinlock Kalloc Proc Sleeplock.

Definition PIPESIZE : Z := 512.

Definition pipe_get (p : Z) : K pipe := m ← gets k_pipes; deref (m !! p).
Definition pipe_upd (p : Z) (f : pipe -> pipe) : K unit :=
  modify (fun s => s <| k_pipes ::= alter f p |>).

(** [myproc()->killed] *)
Definition is_killed : K bool :=
  mp ← myproc;
  mp ← deref mp;
  pr ← proc_get mp;
  ret (negb (p_killed pr =? 0)).

Section Pipe.
Context {fl : Fuel}.

(** The [while] loop of [pipewrite]: [false] is the return on error. *)
Fixpoint pipe_full_wait (n : nat) (p : Z) : K bool :=
  pi ← pipe_get p;
  if pi_nwrite pi =? u32 (pi_nread pi + PIPESIZE) then
    stop ← (if pi_readopen pi =? 0 then ret true else is_killed);
    if stop : bool then release (LPipe p);; ret false
    else match n with
         | O => spin
         | S n => wakeup (CPipeRead p);; sleep (CPipeWrite p) (LPipe p);; pipe_full_wait n p
         end
  else ret true.

(** [p->data[p->nwrite++ % PIPESIZE] = b] *)
Definition pipe_put (b : Z) (pi : pipe) : pipe :=
  pi <| pi_data ::= <[Z.to_nat (pi_nwrite pi mod PIPESIZE) := b]> |> <| pi_nwrite ::= fun n => u32 (n + 1) |>.

Fixpoint pipewrite_loop (p : Z) (bs : list Z) : K bool :=
  match bs with
  | [] => ret true
  | b :: bs =>
    ok ← pipe_full_wait fuel p;
    if ok : bool then pipe_upd p (pipe_put b);; pipewrite_loop p bs else ret false
  end.

Definition pipewrite (p : Z) (addr : Z -> Z) (n : Z) : K Z :=
  acquire (LPipe p);;
  ok ← pipewrite_loop p (map addr (zrange 0 n));
  if ok : bool then wakeup (CPipeRead p);; release (LPipe p);; ret n
  else ret (-1).

Fixpoint pipe_empty_wait (n : nat) (p : Z) : K bool :=
  pi ← pipe_get p;
  if (pi_nread pi =? pi_nwrite pi) && negb (pi_writeopen pi =? 0) then
    stop ← is_killed;
    if stop : bool then release (LPipe p);; ret false
    else match n with
         | O => spin
         | S n => sleep (CPipeRead p) (LPipe p);; pipe_empty_wait n p
         end
  else ret true.

Fixpoint piperead_copy (n : nat) (p : Z) : K (list Z) :=
  match n with
  | O => ret []
  | S n =>
    pi ← pipe_get p;
    if pi_nread pi =? pi_nwrite pi then ret [] else
    b ← deref (pi_data pi !! Z.to_nat (pi_nread pi mod PIPESIZE));
    pipe_upd p (fun pi => pi <| pi_nread ::= fun k => u32 (k + 1) |>);;
    bs ← piperead_copy n p;
    ret (b :: bs)
  end.

(** The number of bytes, or -1, and the bytes stored at [addr]. *)
Definition piperead (p : Z) (n : Z) : K (Z * list Z) :=
  acquire (LPipe p);;
  ok ← pipe_empty_wait fuel p;
  if ok : bool then
    bs ← piperead_copy (Z.to_nat n) p;
    wakeup (CPipeWrite p);;
    release (LPipe p);;
    ret (Z.of_nat (length bs), bs)
  else ret (-1, []).

(** The freed page no longer is a pipe. *)
Definition pipeclose (kernel_end : Z) (p writable : Z) : K unit :=
  acquire (LPipe p);;
  (if negb (writable =? 0)
   then pipe_upd p (fun pi => pi <| pi_writeopen := 0 |>);; wakeup (CPipeRead p)
   else pipe_upd p (fun pi => pi <| pi_readopen := 0 |>);; wakeup (CPipeWrite p));;
  pi ← pipe_get p;
  if (pi_readopen pi =? 0) && (pi_writeopen pi =? 0) then
    release (LPipe p);;
    kfree kernel_end p;;
    modify (fun s => s <| k_pipes ::= delete p |>)
  else release (LPipe p).
End Pipe.

(** ** The contents of a pipe *)

(** The bytes between the counters, oldest first.  The counters wrap modulo 2^32, a
    multiple of [PIPESIZE]. *)
Record PipeInv (pi : pipe) (q : list Z) : Prop := {
  pv_len : Z.of_nat (length (pi_data pi)) = PIPESIZE;
  pv_nread : 0 <= pi_nread pi < 4294967296;
  pv_nwrite : pi_nwrite pi = u32 (pi_nread pi + Z.of_nat (length q));
  pv_size : Z.of_nat (length q) <= PIPESIZE;
  pv_data : forall k b, q !! k = Some b ->
    pi_data pi !! Z.to_nat ((pi_nread pi + Z.of_nat k) mod PIPESIZE) = Some b }.

Lemma u32_mod z : u32 z mod PIPESIZE = z mod PIPESIZE.
Proof. unfold u32, PIPESIZE. Z.div_mod_to_equations. lia. Qed.

Lemma u32_eq_add z a b :
  0 <= z < 4294967296 -> 0 <= a < 4294967296 -> 0 <= b < 4294967296 -> u32 (z + a) = u32 (z + b) -> a = b.
Proof. unfold u32. intros. Z.div_mod_to_equations. lia. Qed.

Lemma pipe_full_iff pi q :
  PipeInv pi q -> (pi_nwrite pi =? u32 (pi_nread pi + PIPESIZE)) = bool_decide (Z.of_nat (length q) = PIPESIZE).
Proof.
  intros [H1 H2 H3 H4 H5]. rewrite H3. apply eq_true_iff_eq. rewrite Z.eqb_eq, bool_decide_eq_true. split.
  - intros E. apply (u32_eq_add (pi_nread pi)); unfold PIPESIZE in *; done || lia.
  - by intros ->.
Qed.

Lemma pipe_empty_iff pi q : PipeInv pi q -> (pi_nread pi =? pi_nwrite pi) = bool_decide (q = []).
Proof.
  intros [H1 H2 H3 H4 H5]. rewrite H3. apply eq_true_iff_eq. rewrite Z.eqb_eq, bool_decide_eq_true.
  assert (E0 : pi_nread pi = u32 (pi_nread pi + 0)) by (rewrite Z.add_0_r; by rewrite u32_id). split.
  - intros E. rewrite E0 in E at 1. apply u32_eq_add in E; unfold PIPESIZE in *; try lia. destruct q; simpl in *; [done|lia].
  - intros ->. exact E0.
Qed.

Lemma PipeInv_put pi q b : PipeInv pi q -> Z.of_nat (length q) < PIPESIZE -> PipeInv (pipe_put b pi) (q ++ [b]).
Proof.
  intros [H1 H2 H3 H4 H5] Hlt. unfold pipe_put. split; rsimpl; rewrite ?length_app, ?length_insert; simpl; try done; try lia.
  - rewrite H3. unfold u32. rewrite Zplus_mod_idemp_l. f_equal. lia.
  - intros k x Hx. rewrite H3, u32_mod. apply lookup_app_Some in Hx as [Hx|[Hge Hx]].
    + pose proof (lookup_lt_Some _ _ _ Hx). rewrite list_lookup_insert_ne; [by apply H5|].
      intros E. apply Z2Nat.inj in E; try (apply Z.mod_pos_bound; unfold PIPESIZE; lia).
      unfold PIPESIZE in *. Z.div_mod_to_equations. lia.
    + apply list_lookup_singleton_Some in Hx as [Hk <-]. replace k with (length q) by lia.
      apply list_lookup_insert_eq. pose proof (Z.mod_pos_bound (pi_nread pi + Z.of_nat (length q)) PIPESIZE). unfold PIPESIZE in *. lia.
Qed.

Lemma PipeInv_take pi b q :
  PipeInv pi (b :: q) ->
  pi_data pi !! Z.to_nat (pi_nread pi mod PIPESIZE) = Some b /\
  PipeInv (pi <| pi_nread ::= fun k => u32 (k + 1) |>) q.
Proof.
  intros [H1 H2 H3 H4 H5]. cbn [length] in *. split.
  - specialize (H5 0%nat b eq_refl). by rewrite Z.add_0_r in H5.
  - split; rsimpl; try done; try lia.
    + apply u32_range.
    + rewrite H3. unfold u32. rewrite Zplus_mod_idemp_l. f_equal. lia.
    + intros k x Hx. specialize (H5 (S k) x Hx). rewrite <- H5. do 2 f_equal.
      rewrite <- (u32_mod (u32 _ + _)), u32_add_l, u32_mod. f_equal. lia.
Qed.

Definition puts (bs : list Z) (pi : pipe) : pipe := fold_left (fun pi b => pipe_put b pi) bs pi.

Lemma PipeInv_puts bs pi q :
  PipeInv pi q -> Z.of_nat (length q + length bs) <= PIPESIZE -> PipeInv (puts bs pi) (q ++ bs).
Proof.
  revert pi q. induction bs as [|b bs IH]; intros pi q HI Hl; simpl in *; [by rewrite app_nil_r|].
  rewrite cons_middle, app_assoc. apply IH; [apply PipeInv_put; [done|lia]|]. rewrite length_app. simpl. lia.
Qed.

Lemma puts_open bs pi :
  pi_readopen (puts bs pi) = pi_readopen pi /\ pi_writeopen (puts bs pi) = pi_writeopen pi.
Proof. revert pi. induction bs as [|b bs IH]; intros pi; [done|]. simpl. by destruct (IH (pipe_put b pi)) as [-> ->]. Qed.

Lemma insert_alter_eq (m : gmap Z pipe) a x f : m !! a = Some x -> alter f a m = <[a := f x]> m.
Proof.
  intros Hx. apply map_eq. intros k. destruct (decide (k = a)) as [->|Hne].
  - by rewrite lookup_alter_eq, lookup_insert_eq, Hx.
  - by rewrite lookup_alter_ne, lookup_insert_ne.
Qed.

(** The state with pipe [pi] at [a]. *)
Definition with_pipe (a : Z) (pi : pipe) (s : kstate) : kstate := s <| k_pipes ::= <[a := pi]> |>.

Lemma with_pipe_id a pi s : k_pipes s !! a = Some pi -> with_pipe a pi s = s.
Proof.
  intros H. apply kstate_ext; unfold with_pipe; rsimpl; try reflexivity. by rewrite insert_id.
Qed.

Section Ops.
Context {fl : Fuel} {i : nat} {c : cpu} {p : nat} {pr : proc} {a : Z}.

Lemma pipe_get_ok pi s : k_pipes s !! a = Some pi -> pipe_get a s = Ok pi s.
Proof. intros H. unfold pipe_get. mstep. by rewrite H. Qed.

Lemma pipe_upd_ok pi f s : k_pipes s !! a = Some pi -> pipe_upd a f s = Ok tt (with_pipe a (f pi) s).
Proof.
  intros H. unfold pipe_upd, modify, with_pipe. f_equal. apply kstate_ext; rsimpl; try reflexivity.
  by apply insert_alter_eq.
Qed.

Lemma is_killed_ok lk s0 s :
  kmode i c p pr s0 -> @inside i c lk s0 s -> is_killed s = Ok (negb (p_killed pr =? 0)) s.
Proof.
  intros Hk Hi. destruct (inside_myproc lk s0 s Hk Hi) as [H1 H2]. unfold is_killed. mstep with (H1).
  cbn [deref]. mstep. by mstep by (by apply (proc_get_ok p pr)).
Qed.

(** The bytes that fit are stored without waiting. *)
Lemma pipewrite_loop_fits bs1 bs2 pi q s :
  k_pipes s !! a = Some pi -> PipeInv pi q -> Z.of_nat (length q + length bs1) <= PIPESIZE ->
  pipewrite_loop a (bs1 ++ bs2) s = pipewrite_loop a bs2 (with_pipe a (puts bs1 pi) s).
Proof.
  revert pi q s. induction bs1 as [|b bs IH]; intros pi q s Hpi HI Hl; cbn [app].
  { by rewrite with_pipe_id. }
  cbn [pipewrite_loop length] in *. erewrite bind_ok.
  2: { instantiate (1 := s). instantiate (1 := true). destruct fuel; cbn [pipe_full_wait];
       mstep by (by apply pipe_get_ok); rewrite (pipe_full_iff _ _ HI), bool_decide_eq_false_2 by lia; done. }
  cbv iota beta. mstep by (by apply (pipe_upd_ok pi)).
  rewrite (IH (pipe_put b pi) (q ++ [b])).
  - f_equal. apply kstate_ext; unfold with_pipe; rsimpl; try reflexivity. by rewrite insert_insert_eq.
  - unfold with_pipe. rsimpl. by rewrite lookup_insert_eq.
  - apply PipeInv_put; [done|lia].
  - rewrite length_app. simpl. lia.
Qed.

(** The rest of [pipewrite] for a writer that waits with [n] more checks. *)
Definition write_rest (n : nat) (bs : list Z) (r : Z) : K Z :=
  ok ← (match bs with
        | [] => ret true
        | b :: bs =>
          ok ← pipe_full_wait n a;
          if ok : bool then pipe_upd a (pipe_put b);; pipewrite_loop a bs else ret false
        end);
  if ok : bool then wakeup (CPipeRead a);; release (LPipe a);; ret r else ret (-1).

(** The table of processes after [wakeup(ch)]. *)
Definition awake (ch : chan) (s : kstate) : kstate := s <| k_procs ::= map (wake_one (Some ch)) |>.

(** A full pipe: error, or sleep. *)
Lemma write_full n bs r pi q s0 s :
  kmode i c p pr s0 -> free (LPipe a) (k_hw s0) -> @inside i c (LPipe a) s0 s ->
  k_pipes s !! a = Some pi -> PipeInv pi q -> Z.of_nat (length q) = PIPESIZE -> bs <> [] ->
  if (pi_readopen pi =? 0) || negb (p_killed pr =? 0)
  then write_rest (S n) bs r s = Ok (-1) (s <| k_hw := k_hw s0 |>)
  else exists k,
    write_rest (S n) bs r s =
      Switch ((awake (CPipeRead a) s) <| k_hw := acquired i c LPtable (k_hw s0) |>
                <| k_procs ::= alter (asleep (CPipeWrite a)) p |>) k /\
    forall i' c' h' s', resumed i' c' h' s' -> free (LPipe a) h' ->
      k s' = write_rest n bs r (s' <| k_procs ::= alter (fun p => p <| p_chan := None |>) p |>
                                   <| k_hw := woken_hw i' c' (LPipe a) (h' <| hw_if := hw_if (k_hw s0) |>) |>).
Proof.
  intros Hk Hf Hi Hpi HI Hq Hne. destruct bs as [|b bs]; [done|].
  assert (Hstop : (if pi_readopen pi =? 0 then ret true else is_killed) s =
                  Ok ((pi_readopen pi =? 0) || negb (p_killed pr =? 0)) s).
  { destruct (pi_readopen pi =? 0); [done|]. by apply (is_killed_ok (LPipe a) s0). }
  unfold write_rest. cbn [pipe_full_wait].
  destruct (_ || _) eqn:Es.
  - erewrite bind_ok.
    2: { erewrite bind_ok.
         2: { mstep by (by apply pipe_get_ok). rewrite (pipe_full_iff _ _ HI), bool_decide_eq_true_2 by done.
              mstep with (Hstop). by mstep by (apply (free_release (LPipe a) s0 _ Hk); [done|apply Hi]). }
         reflexivity. }
    done.
  - pose proof (inside_wakeup (LPipe a) (CPipeRead a) s0 s Hk Hi ltac:(done)) as Hw. fold (awake (CPipeRead a) s) in Hw.
    destruct (inside_myproc (LPipe a) s0 s Hk Hi) as [_ Hpr].
    destruct (sleep_cases i c (k_hw s0) p pr (CPipeWrite a) (LPipe a) (awake (CPipeRead a) s)) as (k & Hs & Hres);
      [apply Hk|apply Hk|by apply (km_locks _ _ _ _ _ Hk)|done|done|apply Hi|apply Hk| |].
    { eapply woken_running; [apply woken_wakeup|done|apply Hk]. }
    eexists. split.
    + unfold bind at 1 2. mstep by (by apply pipe_get_ok). rewrite (pipe_full_iff _ _ HI), bool_decide_eq_true_2 by done.
      mstep with (Hstop). cbv iota. mstep with (Hw). unfold bind at 1. rewrite Hs. reflexivity.
    + intros i' c' h' s' H1 H2. cbv beta. rewrite (Hres i' c' h' s' H1 H2). cbn [obind]. reflexivity.
Qed.

Lemma piperead_copy_ok n pi q s :
  k_pipes s !! a = Some pi -> PipeInv pi q ->
  exists pi', piperead_copy n a s = Ok (take n q) (with_pipe a pi' s) /\ PipeInv pi' (drop n q) /\
    pi_readopen pi' = pi_readopen pi /\ pi_writeopen pi' = pi_writeopen pi.
Proof.
  revert pi q s. induction n as [|n IH]; intros pi q s Hpi HI; cbn [piperead_copy].
  { exists pi. rewrite take_0, drop_0, with_pipe_id by done. done. }
  mstep by (by apply pipe_get_ok). rewrite (pipe_empty_iff _ _ HI).
  destruct q as [|b q].
  - rewrite bool_decide_eq_true_2 by done. exists pi. by rewrite with_pipe_id.
  - rewrite bool_decide_eq_false_2 by done. destruct (PipeInv_take _ _ _ HI) as [Hb HI'].
    rewrite Hb. cbn [deref]. mstep. mstep by (by apply (pipe_upd_ok pi)).
    set (pi1 := pi <| pi_nread ::= fun k => u32 (k + 1) |>) in *.
    destruct (IH pi1 q (with_pipe a pi1 s)) as (pi' & H1 & H2 & H3 & H4);
      [unfold with_pipe; rsimpl; by rewrite lookup_insert_eq|done|].
    exists pi'. split_and!; try done. mstep with (H1). unfold ret. cbn [take]. f_equal.
    apply kstate_ext; unfold with_pipe; rsimpl; try reflexivity. by rewrite insert_insert_eq.
Qed.

(** The rest of [piperead] for a reader that waits with [k] more checks. *)
Definition read_rest (k : nat) (n : Z) : K (Z * list Z) :=
  ok ← pipe_empty_wait k a;
  if ok : bool then
    bs ← piperead_copy (Z.to_nat n) a;
    wakeup (CPipeWrite a);;
    release (LPipe a);;
    ret (Z.of_nat (length bs), bs)
  else ret (-1, []).

(** A reader does not wait when there are bytes, or no writer. *)
Lemma read_takes k n pi q s0 s :
  kmode i c p pr s0 -> free (LPipe a) (k_hw s0) -> @inside i c (LPipe a) s0 s ->
  k_pipes s !! a = Some pi -> PipeInv pi q -> q <> [] \/ pi_writeopen pi = 0 ->
  exists pi', PipeInv pi' (drop (Z.to_nat n) q) /\
    pi_readopen pi' = pi_readopen pi /\ pi_writeopen pi' = pi_writeopen pi /\
    read_rest k n s = Ok (Z.of_nat (length (take (Z.to_nat n) q)), take (Z.to_nat n) q)
                         ((awake (CPipeWrite a) (with_pipe a pi' s)) <| k_hw := k_hw s0 |>).
Proof.
  intros Hk Hf Hi Hpi HI Hcan.
  destruct (piperead_copy_ok (Z.to_nat n) pi q s Hpi HI) as (pi' & H1 & H2 & H3 & H4).
  exists pi'. split_and!; try done. unfold read_rest. erewrite bind_ok.
  2: { instantiate (1 := s). instantiate (1 := true). destruct k; cbn [pipe_empty_wait];
       mstep by (by apply pipe_get_ok); rewrite (pipe_empty_iff _ _ HI);
       (destruct Hcan as [Hq| ->]; [by rewrite bool_decide_eq_false_2|by rewrite andb_false_r]). }
  cbv iota. mstep with (H1).
  mstep by (eapply (inside_wakeup (LPipe a) (CPipeWrite a) s0); [done|exact Hi|done]).
  mstep by (apply (free_release (LPipe a) s0 _ Hk); [done|apply Hi]). done.
Qed.

(** An empty pipe with a writer: error, or sleep. *)
Lemma read_empty n r pi s0 s :
  kmode i c p pr s0 -> free (LPipe a) (k_hw s0) -> @inside i c (LPipe a) s0 s ->
  k_pipes s !! a = Some pi -> PipeInv pi [] -> pi_writeopen pi <> 0 ->
  if negb (p_killed pr =? 0)
  then read_rest (S n) r s = Ok (-1, []) (s <| k_hw := k_hw s0 |>)
  else exists k,
    read_rest (S n) r s =
      Switch (s <| k_hw := acquired i c LPtable (k_hw s0) |> <| k_procs ::= alter (asleep (CPipeRead a)) p |>) k /\
    forall i' c' h' s', resumed i' c' h' s' -> free (LPipe a) h' ->
      k s' = read_rest n r (s' <| k_procs ::= alter (fun p => p <| p_chan := None |>) p |>
                               <| k_hw := woken_hw i' c' (LPipe a) (h' <| hw_if := hw_if (k_hw s0) |>) |>).
Proof.
  intros Hk Hf Hi Hpi HI Hw. unfold read_rest. cbn [pipe_empty_wait].
  assert (Hguard : (pi_nread pi =? pi_nwrite pi) && negb (pi_writeopen pi =? 0) = true).
  { by rewrite (pipe_empty_iff _ _ HI), (proj2 (Z.eqb_neq _ _) Hw). }
  pose proof (is_killed_ok (LPipe a) s0 s Hk Hi) as Hkill. destruct (negb (p_killed pr =? 0)) eqn:Es.
  - erewrite bind_ok.
    2: { mstep by (by apply pipe_get_ok). rewrite Hguard. mstep with (Hkill).
         by mstep by (apply (free_release (LPipe a) s0 _ Hk); [done|apply Hi]). }
    done.
  - destruct (inside_myproc (LPipe a) s0 s Hk Hi) as [_ Hpr].
    destruct (sleep_cases i c (k_hw s0) p pr (CPipeRead a) (LPipe a) s) as (k & Hs & Hres);
      [apply Hk|apply Hk|by apply (km_locks _ _ _ _ _ Hk)|done|done|apply Hi|apply Hk|done|].
    eexists. split.
    + unfold bind at 1. mstep by (by apply pipe_get_ok). rewrite Hguard. mstep with (Hkill). cbv iota.
      unfold bind at 1. rewrite Hs. reflexivity.
    + intros i' c' h' s' H1 H2. cbv beta. rewrite (Hres i' c' h' s' H1 H2). cbn [obind]. reflexivity.
Qed.
End Ops.

Lemma with_pipe_acquired a pi f s :
  with_pipe a pi (s <| k_hw ::= f |>) = (with_pipe a pi s) <| k_hw ::= f |>.
Proof. apply kstate_ext; unfold with_pipe; rsimpl; reflexivity. Qed.

(** ** What the operations do *)

(** What [pipewrite] does until it returns or sleeps.  The bytes that fit go to the
    end of the pipe, in order.  If all fit, the readers are woken and the length is
    returned; otherwise the writer returns -1 when there is no reader or it was killed,
    and else wakes the readers and sleeps with the lock of the pipe free, and goes on
    with the remaining bytes when it is resumed. *)
Lemma pipewrite_section {fl : Fuel} i c p pr a addr n s pi q m :
  fuel = S m -> kmode i c p pr s -> free (LPipe a) (k_hw s) -> k_pipes s !! a = Some pi -> PipeInv pi q ->
  let bs := map addr (zrange 0 n) in
  let room := Z.to_nat (PIPESIZE - Z.of_nat (length q)) in
  exists pi', PipeInv pi' (q ++ take room bs) /\
    pi_readopen pi' = pi_readopen pi /\ pi_writeopen pi' = pi_writeopen pi /\
    let s1 := with_pipe a pi' s in
    if decide (length bs <= room)%nat then pipewrite a addr n s = Ok n (awake (CPipeRead a) s1)
    else if (pi_readopen pi =? 0) || negb (p_killed pr =? 0) then pipewrite a addr n s = Ok (-1) s1
    else exists k,
      pipewrite a addr n s =
        Switch ((awake (CPipeRead a) s1) <| k_hw := acquired i c LPtable (k_hw s) |>
                  <| k_procs ::= alter (asleep (CPipeWrite a)) p |>) k /\
      forall i' c' h' s', resumed i' c' h' s' -> free (LPipe a) h' ->
        k s' = write_rest (a := a) m (drop room bs) n
                 (s' <| k_procs ::= alter (fun p => p <| p_chan := None |>) p |>
                     <| k_hw := woken_hw i' c' (LPipe a) (h' <| hw_if := hw_if (k_hw s) |>) |>).
Proof.
  intros Hm Hk Hf Hpi HI bs room. pose proof (pv_size _ _ HI) as Hsz.
  assert (Hlen : Z.of_nat (length q + length (take room bs)) <= PIPESIZE) by (rewrite length_take; lia).
  exists (puts (take room bs) pi). destruct (puts_open (take room bs) pi) as [E1 E2].
  pose proof (PipeInv_puts _ _ _ HI Hlen) as HI'. split_and!; try done. intros s1.
  set (s2 := s1 <| k_hw ::= acquired i c (LPipe a) |>).
  assert (Hrun : pipewrite a addr n s = write_rest (a := a) (S m) (drop room bs) n s2).
  { unfold pipewrite. mstep by (by apply (free_acquire (LPipe a) s Hk)). fold bs.
    rewrite <- (take_drop room bs) at 1. unfold bind at 1. rewrite (pipewrite_loop_fits _ _ pi q) by done.
    rewrite with_pipe_acquired. fold s1 s2. unfold write_rest, bind at 3. rewrite <- Hm. by destruct (drop room bs). }
  assert (Hin : @inside i c (LPipe a) s s2) by (split; [done|apply woken_refl]).
  case_decide as Hfit.
  - rewrite Hrun, drop_ge by done. unfold write_rest. mstep.
    mstep by (by eapply (inside_wakeup (LPipe a) (CPipeRead a) s)).
    mstep by (by apply (free_release (LPipe a) s _ Hk)). done.
  - assert (Hfull : Z.of_nat (length (q ++ take room bs)) = PIPESIZE) by (rewrite length_app, length_take; lia).
    rewrite Hrun. rewrite <- E1. apply (write_full m (drop room bs) n (puts (take room bs) pi) (q ++ take room bs) s s2 Hk Hf Hin); [|done|done|].
    + unfold s2, s1, with_pipe. rsimpl. by rewrite lookup_insert_eq.
    + intros E. apply (f_equal length) in E. rewrite length_drop in E. simpl in E. lia.
Qed.

(** What [piperead] does until it returns or sleeps.  When the pipe has bytes, or no
    writer, the reader gets the oldest bytes, in order, at most [n] of them, wakes the
    writers and returns their number, 0 at the end of the stream.  On an empty pipe
    with a writer it returns -1 when it was killed, and else sleeps with the lock of
    the pipe free and looks again when it is resumed. *)
Lemma piperead_section {fl : Fuel} i c p pr a n s pi q m :
  fuel = S m -> kmode i c p pr s -> free (LPipe a) (k_hw s) -> k_pipes s !! a = Some pi -> PipeInv pi q ->
  if bool_decide (q = []) && negb (pi_writeopen pi =? 0) then
    if negb (p_killed pr =? 0) then piperead a n s = Ok (-1, []) s
    else exists k,
      piperead a n s = Switch (s <| k_hw ::= acquired i c LPtable |> <| k_procs ::= alter (asleep (CPipeRead a)) p |>) k /\
      forall i' c' h' s', resumed i' c' h' s' -> free (LPipe a) h' ->
        k s' = read_rest (a := a) m n
                 (s' <| k_procs ::= alter (fun p => p <| p_chan := None |>) p |>
                     <| k_hw := woken_hw i' c' (LPipe a) (h' <| hw_if := hw_if (k_hw s) |>) |>)
  else
    let bs := take (Z.to_nat n) q in
    exists pi', PipeInv pi' (drop (Z.to_nat n) q) /\
      pi_readopen pi' = pi_readopen pi /\ pi_writeopen pi' = pi_writeopen pi /\
      piperead a n s = Ok (Z.of_nat (length bs), bs) (awake (CPipeWrite a) (with_pipe a pi' s)).
Proof.
  intros Hm Hk Hf Hpi HI. set (s2 := s <| k_hw ::= acquired i c (LPipe a) |>).
  assert (Hrun : piperead a n s = read_rest (a := a) (S m) n s2).
  { unfold piperead. mstep by (by apply (free_acquire (LPipe a) s Hk)). by rewrite Hm. }
  assert (Hin : @inside i c (LPipe a) s s2) by (split; [done|apply woken_refl]).
  rewrite Hrun. destruct (_ && _) eqn:Eg.
  - apply andb_prop in Eg as [->%bool_decide_eq_true Hw%negb_true_iff%Z.eqb_neq].
    pose proof (read_empty m n pi s s2 Hk Hf Hin Hpi HI Hw) as Hr.
    destruct (negb _); [|exact Hr]. rewrite Hr. f_equal. by apply kstate_ext.
  - destruct (read_takes (S m) n pi q s s2 Hk Hf Hin Hpi HI) as (pi' & H1 & H2 & H3 & H4).
    { destruct (decide (q = [])) as [->|]; [right|by left]. simpl in Eg. by apply negb_false_iff, Z.eqb_eq in Eg. }
    exists pi'. by rewrite H4.
Qed.

(** A run of the two ends that never blocks: [inp] has been written and [out] read. *)
Inductive pipe_run {fl : Fuel} (a : Z) : kstate -> list Z -> list Z -> kstate -> Prop :=
| pr_nil s : pipe_run a s [] [] s
| pr_write s inp out s1 addr n s2 :
    pipe_run a s inp out s1 -> 0 <= n -> pipewrite a addr n s1 = Ok n s2 ->
    pipe_run a s (inp ++ map addr (zrange 0 n)) out s2
| pr_read s inp out s1 n r bs s2 :
    pipe_run a s inp out s1 -> piperead a n s1 = Ok (r, bs) s2 -> pipe_run a s inp (out ++ bs) s2.


Lemma pipe_run_inv {fl : Fuel} i c p pr a m s pi q inp out s' :
  fuel = S m -> kmode i c p pr s -> free (LPipe a) (k_hw s) -> k_pipes s !! a = Some pi -> PipeInv pi q ->
  pipe_run a s inp out s' ->
  kmode i c p pr s' /\ free (LPipe a) (k_hw s') /\
  exists pi' q', k_pipes s' !! a = Some pi' /\ PipeInv pi' q' /\ q ++ inp = out ++ q'.
Proof.
  intros Hm Hk Hf Hpi HI Hrun. induction Hrun as [s|s inp out s1 addr n s2 _ IH Hn Hw|s inp out s1 n r bs s2 _ IH Hr].
  - split_and!; try done. exists pi, q. by rewrite app_nil_r.
  - destruct (IH Hk Hf Hpi) as (Hk1 & Hf1 & pi1 & q1 & Hpi1 & HI1 & E).
    destruct (pipewrite_section i c p pr a addr n s1 pi1 q1 m Hm Hk1 Hf1 Hpi1 HI1) as (pi2 & HI2 & _ & _ & Hcase).
    case_decide as Hfit.
    + rewrite Hw in Hcase. injection Hcase as ->. split_and!; [|done|].
      { apply (kmode_frame _ _ _ _ s1); [done|done|apply woken_wakeup]. }
      eexists pi2, _. unfold awake, with_pipe. rsimpl. rewrite lookup_insert_eq.
      rewrite take_ge in HI2 by done. split_and!; [done|exact HI2|]. by rewrite !app_assoc, E.
    + exfalso. destruct (_ || _); [rewrite Hw in Hcase; injection Hcase; lia|].
      destruct Hcase as (k & Hk' & _). congruence.
  - destruct (IH Hk Hf Hpi) as (Hk1 & Hf1 & pi1 & q1 & Hpi1 & HI1 & E).
    pose proof (piperead_section i c p pr a n s1 pi1 q1 m Hm Hk1 Hf1 Hpi1 HI1) as Hcase.
    destruct (bool_decide (q1 = []) && _).
    + destruct (negb _); [|destruct Hcase as (k & Hk' & _); congruence].
      rewrite Hr in Hcase. injection Hcase as -> -> ->. split_and!; try done. exists pi1, q1. by rewrite app_nil_r.
    + destruct Hcase as (pi2 & HI2 & _ & _ & Hok). rewrite Hr in Hok. injection Hok as -> -> ->. split_and!; [|done|].
      { apply (kmode_frame _ _ _ _ s1); [done|done|apply woken_wakeup]. }
      eexists pi2, _. unfold awake, with_pipe. rsimpl. rewrite lookup_insert_eq. split_and!; [done|exact HI2|].
      by rewrite <- app_assoc, take_drop.
Qed.

(** Which end is closed, and who waits for it. *)
Definition closed (w : Z) (pi : pipe) : pipe :=
  if w =? 0 then pi <| pi_readopen := 0 |> else pi <| pi_writeopen := 0 |>.
Definition waiters (a w : Z) : chan := if w =? 0 then CPipeWrite a else CPipeRead a.

Lemma pipeclose_section ke {i c p pr} a w s pi :
  kmode i c p pr s -> free (LPipe a) (k_hw s) -> k_pipes s !! a = Some pi ->
  let s1 := awake (waiters a w) (with_pipe a (closed w pi) s) in
  pipeclose ke a w s =
    if (pi_readopen (closed w pi) =? 0) && (pi_writeopen (closed w pi) =? 0)
    then (kfree ke a;; modify (fun s => s <| k_pipes ::= delete a |>)) s1
    else Ok tt s1.
Proof.
  intros Hk Hf Hpi s1. unfold pipeclose. mstep by (by apply (free_acquire (LPipe a) s Hk)).
  set (s2 := s <| k_hw ::= acquired i c (LPipe a) |>).
  assert (Hfirst : (if negb (w =? 0) then pipe_upd a (fun pi => pi <| pi_writeopen := 0 |>);; wakeup (CPipeRead a)
                    else pipe_upd a (fun pi => pi <| pi_readopen := 0 |>);; wakeup (CPipeWrite a)) s2 =
                   Ok tt (s1 <| k_hw ::= acquired i c (LPipe a) |>)).
  { unfold s1, waiters, closed. destruct (w =? 0); cbn [negb];
      mstep by (by apply (pipe_upd_ok pi));
      rewrite (inside_wakeup (LPipe a) _ s _ Hk) by (first [done|split; [done|apply woken_refl]]); reflexivity. }
  mstep with (Hfirst). mstep by (apply (pipe_get_ok (closed w pi)); apply lookup_insert_eq).
  destruct (_ && _).
  - by mstep by (by apply (free_release (LPipe a) s _ Hk)).
  - by rewrite (free_release (LPipe a) s _ Hk).
Qed.

(** ** Properties *)


(** A writer that finds the pipe full while there is a reader has stored exactly the
    bytes that fit, wakes the readers, and sleeps with the lock of the pipe free; when
    it is resumed, on whatever the others left, it goes on with the remaining bytes. *)
Theorem pipewrite_blocks {fl : Fuel} i c p pr a addr n s pi q m :
  fuel = S m -> kmode i c p pr s -> free (LPipe a) (k_hw s) -> k_pipes s !! a = Some pi -> PipeInv pi q ->
  let bs := map addr (zrange 0 n) in
  let room := Z.to_nat (PIPESIZE - Z.of_nat (length q)) in
  (room < length bs)%nat -> pi_readopen pi <> 0 -> p_killed pr = 0 ->
  exists pi' k, PipeInv pi' (q ++ take room bs) /\
    pipewrite a addr n s =
      Switch ((awake (CPipeRead a) (with_pipe a pi' s)) <| k_hw := acquired i c LPtable (k_hw s) |>
                <| k_procs ::= alter (asleep (CPipeWrite a)) p |>) k /\
    forall i' c' h' s', resumed i' c' h' s' -> free (LPipe a) h' ->
      k s' = write_rest (a := a) m (drop room bs) n
               (s' <| k_procs ::= alter (fun p => p <| p_chan := None |>) p |>
                   <| k_hw := woken_hw i' c' (LPipe a) (h' <| hw_if := hw_if (k_hw s) |>) |>).
Proof.
  intros Hm Hk Hf Hpi HI bs room Hlt Ho Hkill.
  destruct (pipewrite_section i c p pr a addr n s pi q m Hm Hk Hf Hpi HI) as (pi' & HI' & _ & _ & Hcase).
  rewrite decide_False in Hcase by (fold bs room; lia).
  rewrite (proj2 (Z.eqb_neq _ _) Ho), Hkill in Hcase. destruct Hcase as (k & H1 & H2). by exists pi', k.
Qed.

(** Closing one end of a pipe wakes the processes that wait for it and leaves the pipe
    to the other end; closing the second end gives the page back to the allocator,
    exactly then. *)
Theorem pipeclose_last_frees ke i c p pr a w s pi l :
  kmode i c p pr s -> free (LPipe a) (k_hw s) -> k_pipes s !! a = Some pi ->
  kmem_ready i c s -> KmemInv ke s l -> page_ok ke a = true -> a ∉ l ->
  exists s', pipeclose ke a w s = Ok tt s' /\
    Forall (fun q => ~ (p_state q = SLEEPING /\ p_chan q = Some (waiters a w))) (k_procs s') /\
    if (if w =? 0 then pi_writeopen pi else pi_readopen pi) =? 0
    then k_pipes s' !! a = None /\ KmemInv ke s' (a :: l)
    else k_pipes s' !! a = Some (closed w pi) /\ KmemInv ke s' l.
Proof.
  intros Hk Hf Hpi Hr HI Ha Hal. rewrite (pipeclose_section ke a w s pi Hk Hf Hpi).
  set (s1 := awake _ _).
  assert (Haw : Forall (fun q => ~ (p_state q = SLEEPING /\ p_chan q = Some (waiters a w))) (k_procs s1)).
  { apply Forall_fmap, Forall_true. intros q [H1 H2]. unfold compose, wake_one in *.
    destruct (_ && _) eqn:E; [done|]. by rewrite !bool_decide_eq_true_2 in E by done. }
  assert (E : (pi_readopen (closed w pi) =? 0) && (pi_writeopen (closed w pi) =? 0) =
              ((if w =? 0 then pi_writeopen pi else pi_readopen pi) =? 0)).
  { unfold closed. destruct (w =? 0); rsimpl; simpl; by rewrite ?andb_true_r. }
  rewrite E. destruct ((if w =? 0 then pi_writeopen pi else pi_readopen pi) =? 0).
  - destruct (kfree_pushes ke i c a s1 l) as (s2 & H1 & H2 & _ & H4); [exact Hr|by destruct HI; split|done|done|].
    exists (s2 <| k_pipes ::= delete a |>). split_and!.
    + mstep with (H1). reflexivity.
    + rsimpl. rewrite H4. unfold kmem_section. by destruct (km_use_lock _).
    + rsimpl. by rewrite lookup_delete_eq.
    + by destruct H2; split.
  - exists s1. split_and!; [done|done|apply lookup_insert_eq|by destruct HI; split].
Qed.


(** ** Witnesses *)

(** An empty pipe whose counters are about to wrap. *)
Definition pipe_page : Z := page_example.
Definition demo_pipe : pipe := mkPipe (replicate 512 0) 4294967295 4294967295 1 1.
Definition pipe_demo : kstate :=
  fs_demo <| k_hw ::= set hw_locks (<[LPipe pipe_page := unlocked]>) |> <| k_pipes := {[pipe_page := demo_pipe]} |>.

Lemma demo_pipe_inv : PipeInv demo_pipe [].
Proof.
  split; [reflexivity|split; [discriminate|reflexivity]|reflexivity|discriminate|].
  intros k b Hk. discriminate.
Qed.

Lemma pipe_demo_ok :
  kmode 0 fs_cpu 0 fs_proc pipe_demo /\ free (LPipe pipe_page) (k_hw pipe_demo) /\
  k_pipes pipe_demo !! pipe_page = Some demo_pipe.
Proof.
  destruct (kmode_more_locks (LPipe pipe_page) fs_demo pipe_demo (kmode_fs_demo fs_demo eq_refl eq_refl) eq_refl eq_refl)
    as [Hk Hf].
  split_and!; [exact Hk|exact Hf|unfold pipe_demo; rsimpl; apply lookup_singleton_eq].
Qed.

Definition abc (k : Z) : Z := 97 + k.


Lemma pipewrite_blocks_witness :
  exists s' k, @pipewrite 3%nat pipe_page abc 600 pipe_demo = Switch s' k.
Proof.
  destruct pipe_demo_ok as (Hk & Hf & Hpi).
  destruct (@pipewrite_blocks 3%nat 0 fs_cpu 0 fs_proc pipe_page abc 600 pipe_demo demo_pipe [] 2)
    as (pi' & k & _ & H & _).
  - reflexivity.
  - exact Hk.
  - exact Hf.
  - exact Hpi.
  - exact demo_pipe_inv.
  - apply Nat.ltb_lt. vm_compute. reflexivity.
  - discriminate.
  - reflexivity.
  - eexists _, k. exact H.
Defined.

Lemma pipeclose_last_frees_witness :
  exists s', pipeclose kernel_end_example pipe_page 1 pipe_demo = Ok tt s' /\
    k_pipes s' !! pipe_page = Some (closed 1 demo_pipe).
Proof.
  destruct pipe_demo_ok as (Hk & Hf & Hpi).
  destruct (pipeclose_last_frees kernel_end_example 0 fs_cpu 0 fs_proc pipe_page 1 pipe_demo demo_pipe [])
    as (s' & H1 & _ & H3).
  - exact Hk.
  - exact Hf.
  - exact Hpi.
  - intros Hu. discriminate Hu.
  - split; [reflexivity|apply NoDup_nil_2|apply Forall_nil_2].
  - vm_compute. reflexivity.
  - apply not_elem_of_nil.
  - exists s'. split; [exact H1|apply H3].
Defined.
