(* ===== verification/Inode.v ===== *)
(** * Blocks and inodes (fs.c, first half)

    The block allocator over the free map and the inode layer: the cache of inodes,
    their copies on the disk and the blocks of their contents.  An inode of the cache is
    its index in [icache.inode]; where the code tests a pointer for null the argument is
    an option. *)

From stdpp Require Import gmap.
From S2P Require Import Prelude Outcome Kernel Spinlock Kalloc Proc Cprintf Sleeplock Bio Log.

(** ** fs.h *)
Definition ROOTINO : Z := 1.
Definition NDIRECT : Z := 12.
Definition NINDIRECT : Z := BSIZE / 4.
Definition MAXFILE : Z := NDIRECT + NINDIRECT.
Definition sizeof_dinode : Z := 64.
Definition IPB : Z := BSIZE / sizeof_dinode.
Definition IBLOCK (i : Z) (sb : superblock) : Z := u32 (i / IPB + sb_inodestart sb).
Definition BPB : Z := BSIZE * 8.
Definition BBLOCK (b : Z) (sb : superblock) : Z := u32 (b / BPB + sb_bmapstart sb).

(** stat.h *)
Definition T_DIR : Z := 1.
Definition T_FILE : Z := 2.
Definition T_DEV : Z := 3.

(** A [short] at byte [off]. *)
Definition i16 (z : Z) : Z := (z + 32768) mod 65536 - 32768.
Definition get16 (l : list Z) (off : nat) : Z := i16 (nth off l 0 + 256 * nth (off + 1) l 0).
Definition put16 (off : nat) (v : Z) (l : list Z) : list Z :=
  <[(off + 1)%nat := v / 256 mod 256]> (<[off := v mod 256]> l).

(** A byte set to 0 by [memset]. *)
Definition zero_bytes (off n : nat) (l : list Z) : list Z := take off l ++ replicate n 0 ++ drop (off + n) l.

(** The fields of [struct dinode] at byte [off] of a block. *)
Definition get_addrs (l : list Z) (off : nat) : list Z := map (fun k => get32 l (off + 12 + 4 * k)) (seq 0 13).
Definition put_dinode (off : nat) (ip : inode) (l : list Z) : list Z :=
  put_words (off + 12) (i_addrs ip)
    (put32 (off + 8) (i_size ip)
      (put16 (off + 6) (i_nlink ip) (put16 (off + 4) (i_minor ip)
        (put16 (off + 2) (i_major ip) (put16 off (i_type ip) l))))).
Definition get_dinode (l : list Z) (off : nat) (ip : inode) : inode :=
  ip <| i_type := get16 l off |> <| i_major := get16 l (off + 2) |> <| i_minor := get16 l (off + 4) |>
     <| i_nlink := get16 l (off + 6) |> <| i_size := get32 l (off + 8) |> <| i_addrs := get_addrs l off |>.
(** [(struct dinode* )bp->data + inum%IPB] *)
Definition dinode_off (inum : Z) : nat := Z.to_nat (sizeof_dinode * (inum mod IPB)).

Definition inode_get (ip : nat) : K inode := l ← gets k_inodes; deref (l !! ip).
Definition inode_upd (ip : nat) (f : inode -> inode) : K unit :=
  modify (fun s => s <| k_inodes ::= alter f ip |>).

Definition data_upd (b : nat) (f : list Z -> list Z) : K unit := buf_upd b (fun x => x <| b_data ::= f |>).

Section Fs.
Context {fl : Fuel} {dsk : Disk}.

(** ** Blocks *)

Definition bzero (dev bno : Z) : K unit :=
  bp ← bread dev bno;
  data_upd bp (fun _ => replicate (Z.to_nat BSIZE) 0);;
  log_write bp;;
  brelse bp.

(** [1 << (bi % 8)] *)
Definition bit_mask (bi : Z) : Z := Z.shiftl 1 (bi mod 8).
Definition bit_set (data : list Z) (bi : Z) : bool :=
  negb (Z.land (nth (Z.to_nat (bi / 8)) data 0) (bit_mask bi) =? 0).

(** The inner loop of [balloc]: the first clear bit of the block from [bi] on, below
    the size of the file system. *)
Fixpoint find_clear (n : nat) (b bi size : Z) (data : list Z) : option Z :=
  match n with
  | O => None
  | S n =>
    if b + bi <? size then
      if bit_set data bi then find_clear n b (bi + 1) size data else Some bi
    else None
  end.

Fixpoint balloc_loop (n : nat) (dev b : Z) : K Z :=
  sb ← gets k_sb;
  if b <? sb_size sb then
    match n with
    | O => spin
    | S n =>
      bp ← bread dev (BBLOCK b sb);
      x ← buf_get bp;
      match find_clear (Z.to_nat BPB) b 0 (sb_size sb) (b_data x) with
      | Some bi =>
        data_upd bp (alter (fun v => Z.lor v (bit_mask bi)) (Z.to_nat (bi / 8)));;
        log_write bp;;
        brelse bp;;
        bzero dev (b + bi);;
        ret (b + bi)
      | None => brelse bp;; balloc_loop n dev (b + BPB)
      end
    end
  else panic "balloc: out of blocks".

(** One turn per block of the free map. *)
Definition balloc (dev : Z) : K Z :=
  sb ← gets k_sb;
  balloc_loop (S (Z.to_nat (sb_size sb / BPB))) dev 0.

Definition bfree (dev b : Z) : K unit :=
  sb ← gets k_sb;
  bp ← bread dev (BBLOCK b sb);
  let bi := b mod BPB in
  x ← buf_get bp;
  if negb (bit_set (b_data x) bi) then panic "freeing free block" else
  data_upd bp (alter (fun v => Z.land v (Z.lnot (bit_mask bi))) (Z.to_nat (bi / 8)));;
  log_write bp;;
  brelse bp.

(** ** The inode cache *)

Definition iinit_format : list Z :=
  bytes "sb: size %d nblocks %d ninodes %d nlog %d logstart %d inodestart %d bmap start %d" ++ [10].

Definition iinit (dev : Z) : K unit :=
  initlock LIcache;;
  foreach (seq 0 NINODE) (fun i => initsleeplock (SLInode i));;
  sb ← readsb dev;
  modify (fun s => s <| k_sb := sb |>);;
  cprintf iinit_format (map (fun f => AInt (i32 (f sb)))
    [sb_size; sb_nblocks; sb_ninodes; sb_nlog; sb_logstart; sb_inodestart; sb_bmapstart]).

(** The loop of [iget]: the cached inode, and otherwise the first free entry. *)
Definition in_cache (dev inum : Z) (ip : inode) : bool :=
  (0 <? i_ref ip) && (i_dev ip =? dev) && (i_inum ip =? inum).

Definition iget (dev inum : Z) : K nat :=
  acquire LIcache;;
  l ← gets k_inodes;
  match scan (in_cache dev inum) l with
  | Some ip =>
    inode_upd ip (fun x => x <| i_ref ::= fun r => i32 (r + 1) |>);;
    release LIcache;;
    ret ip
  | None =>
    match scan (fun x => i_ref x =? 0) l with
    | None => panic "iget: no inodes"
    | Some ip =>
      inode_upd ip (fun x => x <| i_dev := dev |> <| i_inum := inum |> <| i_ref := 1 |> <| i_valid := 0 |>);;
      release LIcache;;
      ret ip
    end
  end.

Definition idup (ip : nat) : K nat :=
  acquire LIcache;;
  inode_upd ip (fun x => x <| i_ref ::= fun r => i32 (r + 1) |>);;
  release LIcache;;
  ret ip.

Fixpoint ialloc_loop (n : nat) (dev type inum : Z) : K nat :=
  sb ← gets k_sb;
  if inum <? sb_ninodes sb then
    match n with
    | O => spin
    | S n =>
      bp ← bread dev (IBLOCK inum sb);
      x ← buf_get bp;
      if get16 (b_data x) (dinode_off inum) =? 0 then
        data_upd bp (zero_bytes (dinode_off inum) 64);;
        data_upd bp (put16 (dinode_off inum) type);;
        log_write bp;;
        brelse bp;;
        iget dev inum
      else brelse bp;; ialloc_loop n dev type (inum + 1)
    end
  else panic "ialloc: no inodes".

(** One turn per inode. *)
Definition ialloc (dev type : Z) : K nat :=
  sb ← gets k_sb;
  ialloc_loop (Z.to_nat (sb_ninodes sb)) dev type 1.

Definition iupdate (ip : nat) : K unit :=
  x ← inode_get ip;
  sb ← gets k_sb;
  bp ← bread (i_dev x) (IBLOCK (i_inum x) sb);
  x ← inode_get ip;
  data_upd bp (put_dinode (dinode_off (i_inum x)) x);;
  log_write bp;;
  brelse bp.

Definition ilock (ip : option nat) : K unit :=
  match ip with
  | None => panic "ilock"
  | Some ip =>
    x ← inode_get ip;
    if i_ref x <? 1 then panic "ilock" else
    acquiresleep (SLInode ip);;
    x ← inode_get ip;
    when (i_valid x =? 0)
      (sb ← gets k_sb;
       bp ← bread (i_dev x) (IBLOCK (i_inum x) sb);
       d ← buf_get bp;
       inode_upd ip (fun x => get_dinode (b_data d) (dinode_off (i_inum x)) x);;
       brelse bp;;
       inode_upd ip (fun x => x <| i_valid := 1 |>);;
       x ← inode_get ip;
       when (i_type x =? 0) (panic "ilock: no type"))
  end.

Definition iunlock (ip : option nat) : K unit :=
  match ip with
  | None => panic "iunlock"
  | Some ip =>
    held ← holdingsleep (SLInode ip);
    if negb held then panic "iunlock" else
    x ← inode_get ip;
    if i_ref x <? 1 then panic "iunlock" else
    releasesleep (SLInode ip)
  end.

(** ** The blocks of an inode *)

Definition bmap (ip : nat) (bn : Z) : K Z :=
  x ← inode_get ip;
  if bn <? NDIRECT then
    addr ← deref (i_addrs x !! Z.to_nat bn);
    if addr =? 0 then
      addr ← balloc (i_dev x);
      inode_upd ip (fun x => x <| i_addrs ::= <[Z.to_nat bn := addr]> |>);;
      ret addr
    else ret addr
  else
    let bn := bn - NDIRECT in
    if bn <? NINDIRECT then
      addr ← deref (i_addrs x !! Z.to_nat NDIRECT);
      addr ← (if addr =? 0 then
                addr ← balloc (i_dev x);
                inode_upd ip (fun x => x <| i_addrs ::= <[Z.to_nat NDIRECT := addr]> |>);;
                ret addr
              else ret addr);
      bp ← bread (i_dev x) addr;
      d ← buf_get bp;
      let addr := get32 (b_data d) (Z.to_nat (4 * bn)) in
      addr ← (if addr =? 0 then
                addr ← balloc (i_dev x);
                data_upd bp (put32 (Z.to_nat (4 * bn)) addr);;
                log_write bp;;
                ret addr
              else ret addr);
      brelse bp;;
      ret addr
    else panic "bmap: out of range".

Definition itrunc (ip : nat) : K unit :=
  foreach (zrange 0 NDIRECT) (fun i =>
    x ← inode_get ip;
    addr ← deref (i_addrs x !! Z.to_nat i);
    when (negb (addr =? 0))
      (bfree (i_dev x) addr;;
       inode_upd ip (fun x => x <| i_addrs ::= <[Z.to_nat i := 0]> |>)));;
  x ← inode_get ip;
  addr ← deref (i_addrs x !! Z.to_nat NDIRECT);
  when (negb (addr =? 0))
    (bp ← bread (i_dev x) addr;
     foreach (zrange 0 NINDIRECT) (fun j =>
       d ← buf_get bp;
       let a := get32 (b_data d) (Z.to_nat (4 * j)) in
       when (negb (a =? 0)) (bfree (i_dev x) a));;
     brelse bp;;
     bfree (i_dev x) addr;;
     inode_upd ip (fun x => x <| i_addrs ::= <[Z.to_nat NDIRECT := 0]> |>));;
  inode_upd ip (fun x => x <| i_size := 0 |>);;
  iupdate ip.

Definition iput (ip : nat) : K unit :=
  acquiresleep (SLInode ip);;
  x ← inode_get ip;
  when (negb (i_valid x =? 0) && (i_nlink x =? 0))
    (acquire LIcache;;
     x ← inode_get ip;
     let r := i_ref x in
     release LIcache;;
     when (r =? 1)
       (itrunc ip;;
        inode_upd ip (fun x => x <| i_type := 0 |>);;
        iupdate ip;;
        inode_upd ip (fun x => x <| i_valid := 0 |>)));;
  releasesleep (SLInode ip);;
  acquire LIcache;;
  inode_upd ip (fun x => x <| i_ref ::= fun r => i32 (r - 1) |>);;
  release LIcache.

Definition iunlockput (ip : nat) : K unit :=
  iunlock (Some ip);;
  iput ip.
End Fs.

(** struct stat *)
Record stat : Type := mkStat { st_type : Z; st_dev : Z; st_ino : Z; st_nlink : Z; st_size : Z }.
Definition stati (ip : nat) : K stat :=
  x ← inode_get ip;
  ret (mkStat (i_type x) (i32 (i_dev x)) (i_inum x) (i_nlink x) (i_size x)).
