(* ===== verification/Alloc.v ===== *)
(** * The block allocator (fs.c: balloc, bfree)

    What [balloc] and [bfree] do to the free map inside a transaction. *)

From stdpp Require Import gmap.
From S2P Require Import Prelude Outcome Kernel Spinlock Kalloc Proc Cprintf Sleeplock Bio Log Txn Edit Inode.

(** ** Bits *)

Lemma land_mask v k : 0 <= k -> negb (Z.land v (Z.shiftl 1 k) =? 0) = Z.testbit v k.
Proof.
  intros Hk. rewrite Z.shiftl_1_l.
  assert (E : Z.land v (2 ^ k) = if Z.testbit v k then 2 ^ k else 0).
  { apply Z.bits_inj'. intros n Hn. rewrite Z.land_spec, Z.pow2_bits_eqb by done.
    destruct (Z.eqb_spec k n) as [<-|Hne].
    - rewrite andb_true_r. destruct (Z.testbit v k); [by rewrite Z.pow2_bits_true|by rewrite Z.bits_0].
    - rewrite andb_false_r. destruct (Z.testbit v k); [by rewrite Z.pow2_bits_false|by rewrite Z.bits_0]. }
  rewrite E. destruct (Z.testbit v k); [|done]. rewrite (proj2 (Z.eqb_neq _ _)); [done|].
  pose proof (Z.pow_pos_nonneg 2 k). lia.
Qed.

Lemma bit_set_testbit data bi : bit_set data bi = Z.testbit (nth (Z.to_nat (bi / 8)) data 0) (bi mod 8).
Proof. apply land_mask. apply Z.mod_pos_bound. lia. Qed.

Lemma nth_alter (l : list Z) f i j d :
  (i < length l)%nat -> nth j (alter f i l) d = if decide (i = j) then f (nth i l d) else nth j l d.
Proof.
  intros Hi. rewrite !nth_lookup. case_decide as E.
  - subst. rewrite list_lookup_alter_eq. destruct (lookup_lt_is_Some_2 l j Hi) as [x ->]. done.
  - by rewrite list_lookup_alter_ne.
Qed.

Lemma same_bit bi bj : 0 <= bi -> 0 <= bj -> Z.to_nat (bi / 8) = Z.to_nat (bj / 8) -> bi mod 8 = bj mod 8 -> bi = bj.
Proof. intros. Z.div_mod_to_equations. lia. Qed.

(** Setting and clearing a bit changes that bit only. *)
Lemma bit_set_lor data bi bj :
  0 <= bi -> 0 <= bj -> (Z.to_nat (bi / 8) < length data)%nat ->
  bit_set (alter (fun v => Z.lor v (bit_mask bi)) (Z.to_nat (bi / 8)) data) bj =
  if decide (bj = bi) then true else bit_set data bj.
Proof.
  intros Hi Hj Hl. pose proof (Z.mod_pos_bound bi 8). pose proof (Z.mod_pos_bound bj 8).
  rewrite !bit_set_testbit, nth_alter by done. unfold bit_mask. rewrite Z.shiftl_1_l.
  destruct (decide (Z.to_nat (bi / 8) = Z.to_nat (bj / 8))) as [E|E].
  - rewrite Z.lor_spec, Z.pow2_bits_eqb, E by lia. destruct (Z.eqb_spec (bi mod 8) (bj mod 8)) as [Em|Em].
    + rewrite (same_bit bi bj), decide_True by done. by rewrite orb_true_r.
    + rewrite orb_false_r, decide_False by congruence. done.
  - rewrite decide_False by congruence. done.
Qed.

Lemma bit_set_clear data bi bj :
  0 <= bi -> 0 <= bj -> (Z.to_nat (bi / 8) < length data)%nat ->
  bit_set (alter (fun v => Z.land v (Z.lnot (bit_mask bi))) (Z.to_nat (bi / 8)) data) bj =
  if decide (bj = bi) then false else bit_set data bj.
Proof.
  intros Hi Hj Hl. pose proof (Z.mod_pos_bound bi 8). pose proof (Z.mod_pos_bound bj 8).
  rewrite !bit_set_testbit, nth_alter by done. unfold bit_mask. rewrite Z.shiftl_1_l.
  destruct (decide (Z.to_nat (bi / 8) = Z.to_nat (bj / 8))) as [E|E].
  - rewrite Z.land_spec, Z.lnot_spec, Z.pow2_bits_eqb, E by lia. destruct (Z.eqb_spec (bi mod 8) (bj mod 8)) as [Em|Em].
    + rewrite (same_bit bi bj), decide_True by done. by rewrite andb_false_r.
    + rewrite andb_true_r, decide_False by congruence. done.
  - rewrite decide_False by congruence. done.
Qed.

Lemma find_clear_spec n b bi size data :
  match find_clear n b bi size data with
  | Some r => bi <= r < bi + Z.of_nat n /\ b + r < size /\ bit_set data r = false /\
              forall k, bi <= k < r -> bit_set data k = true
  | None => forall k, bi <= k < bi + Z.of_nat n -> b + k < size -> bit_set data k = true
  end.
Proof.
  revert bi. induction n as [|n IH]; intros bi; cbn [find_clear]; [intros k Hk; lia|].
  destruct (Z.ltb_spec (b + bi) size) as [Hlt|Hge]; [|intros k Hk; lia].
  destruct (bit_set data bi) eqn:Eb; [|split_and!; [lia|lia|done|done|intros k Hk; lia]].
  specialize (IH (bi + 1)). destruct (find_clear n b (bi + 1) size data) as [r|].
  - destruct IH as (H1 & H2 & H3 & H4). split_and!; [lia|lia|done|done|]. intros k Hk.
    destruct (decide (k = bi)) as [->|]; [done|]. apply H4. lia.
  - intros k Hk. destruct (decide (k = bi)) as [->|]; [done|]. apply IH. lia.
Qed.

(** ** The free map *)

(** Whether the map marks block [b]. *)
Definition used (s : kstate) (b : Z) : bool := bit_set (view s (BBLOCK b (k_sb s))) (b mod BPB).

(** The map covers the file system, its blocks are ordinary blocks that nobody holds,
    and a free block is neither one of them nor part of the log. *)
Record map_ok (H : list nat) (s : kstate) : Prop := {
  mo_size : 0 <= sb_size (k_sb s) <= d_size (k_disk s);
  mo_start : 0 <= sb_bmapstart (k_sb s) /\ sb_bmapstart (k_sb s) + d_size (k_disk s) < 4294967296;
  mo_map : forall b, 0 <= b < sb_size (k_sb s) ->
    0 <= BBLOCK b (k_sb s) < d_size (k_disk s) /\ ~ in_area (k_log s) (BBLOCK b (k_sb s)) /\
    length (view s (BBLOCK b (k_sb s))) = 512%nat /\ unheld H (BBLOCK b (k_sb s)) s;
  mo_free : forall b, 0 <= b < sb_size (k_sb s) -> used s b = false ->
    ~ in_area (k_log s) b /\ unheld H b s /\
    forall b', 0 <= b' < sb_size (k_sb s) -> BBLOCK b' (k_sb s) <> b }.

Lemma BPB_pos : 0 < BPB.
Proof. done. Qed.

Lemma BBLOCK_eq H s b : map_ok H s -> 0 <= b < sb_size (k_sb s) -> BBLOCK b (k_sb s) = b / BPB + sb_bmapstart (k_sb s).
Proof.
  intros [Hs Hb _ _] Hr. unfold BBLOCK. apply u32_id.
  pose proof (Z.div_pos b BPB). pose proof (Z.div_le_upper_bound b BPB b). unfold BPB, BSIZE in *. lia.
Qed.

Lemma map_bit H s b b' :
  map_ok H s -> 0 <= b < sb_size (k_sb s) -> 0 <= b' < sb_size (k_sb s) ->
  BBLOCK b (k_sb s) = BBLOCK b' (k_sb s) -> b mod BPB = b' mod BPB -> b = b'.
Proof.
  intros Hm Hb Hb'. rewrite !(BBLOCK_eq H) by done. intros E1 E2.
  rewrite (Z.div_mod b BPB), (Z.div_mod b' BPB) by done. rewrite E2. f_equal. f_equal. lia.
Qed.

Lemma fs_frame_sb s s' : fs_frame s s' -> k_sb s' = k_sb s.
Proof. intros (_ & _ & _ & _ & ->). done. Qed.

Lemma fs_frame_disk s s' : fs_frame s s' -> k_disk s' = k_disk s.
Proof. by intros (_ & _ & [H _] & _). Qed.

Lemma fs_frame_area s s' b : fs_frame s s' -> in_area (k_log s') b <-> in_area (k_log s) b.
Proof. intros (_ & _ & _ & H & _). by apply in_area_same. Qed.

(** A step that gives every block the bytes [v b] keeps the map in order when it keeps
    the lengths and frees no block. *)
Lemma map_ok_step H s s' :
  map_ok H s -> fs_frame s s' -> same_held H s s' ->
  (forall b, 0 <= b < sb_size (k_sb s) -> length (view s' (BBLOCK b (k_sb s))) = 512%nat) ->
  (forall b, 0 <= b < sb_size (k_sb s) -> used s' b = false -> used s b = false) -> map_ok H s'.
Proof.
  intros [H1 H2 H3 H4] Hf Hh Hlen Hfree.
  split; rewrite ?(fs_frame_sb s s'), ?(fs_frame_disk s s') by done; try done.
  - intros b Hb. destruct (H3 b Hb) as (G1 & G2 & G3 & G4). split_and!; try done; [lia|lia|..].
    + by rewrite (fs_frame_area s s').
    + by apply Hlen.
    + by eapply unheld_same.
  - intros b Hb Hu. destruct (H4 b Hb (Hfree b Hb Hu)) as (G1 & G2 & G3). split_and!; try done.
    + by rewrite (fs_frame_area s s').
    + by eapply unheld_same.
Qed.

Section Balloc.
Context {fl : Fuel} {dsk : Disk} {laws : DiskLaws dsk}.
Context {ci : nat} {c : cpu} {p : nat} {pr : proc}.
Local Abbreviation intxn := (intxn (ci := ci) (c := c) (p := p) (pr := pr)).

(** There is room in the log and in the cache for [n] more blocks. *)
Definition room (n : nat) (H : list nat) (bl : list Z) (s : kstate) : Prop :=
  Z.of_nat (length bl + n) < l_size (k_log s) /\ (length bl + length H + n <= NBUF)%nat.

Lemma length_add_block b bl : (length (add_block b bl) <= S (length bl))%nat.
Proof. unfold add_block. case_decide; [lia|]. rewrite length_app. simpl. lia. Qed.

Lemma room_step n H bl b s s' :
  room (S n) H bl s -> fs_frame s s' -> room n H (add_block b bl) s'.
Proof.
  intros [H1 H2] (_ & _ & _ & [_ Ea] & _). pose proof (length_add_block b bl). unfold room. rewrite Ea. lia.
Qed.

Lemma room_read n H bl b s :
  room (S n) H bl s -> 0 <= b < d_size (k_disk s) -> unheld H b s -> can_read H bl b s.
Proof. intros [_ H2] Hb Hu. split; [done|split; [done|right; lia]]. Qed.

(** [bzero] clears a block. *)
Lemma bzero_ok n H bl b s :
  intxn H bl s -> room (S n) H bl s -> 0 <= b < d_size (k_disk s) -> unheld H b s -> ~ in_area (k_log s) b ->
  exists s', bzero 1 b s = Ok tt s' /\ intxn H (add_block b bl) s' /\ room n H (add_block b bl) s' /\
    same_held H s s' /\ fs_frame s s' /\
    (forall b', view s' b' = if decide (b' = b) then replicate 512 0 else view s b').
Proof.
  intros Hi Hr Hb Hu Hout.
  destruct (edit_in H bl b (fun _ => replicate (Z.to_nat BSIZE) 0) s Hi) as (s' & H1 & H2 & H3 & H4 & H5 & H6);
    [by eapply room_read|done|destruct Hr; lia|].
  exists s'. split_and!; try done. by eapply room_step.
Qed.

(** Block [r], the least free one, has been taken from the map and cleared. *)
Record allocated (H : list nat) (bl : list Z) (r : Z) (s s' : kstate) : Prop := {
  al_range : 0 <= r < sb_size (k_sb s);
  al_free : used s r = false;
  al_least : forall b, 0 <= b < r -> used s b = true;
  al_txn : intxn H (add_block r (add_block (BBLOCK r (k_sb s)) bl)) s';
  al_map : map_ok H s';
  al_held : same_held H s s';
  al_frame : fs_frame s s';
  al_used : forall b, 0 <= b < sb_size (k_sb s) -> used s' b = if decide (b = r) then true else used s b;
  al_zero : view s' r = replicate 512 0;
  al_other : forall b, b <> r -> b <> BBLOCK r (k_sb s) -> view s' b = view s b }.

(** The bits of a map block stand for consecutive blocks. *)
Lemma map_run b0 bi : 0 <= b0 -> b0 mod BPB = 0 -> 0 <= bi < BPB -> (b0 + bi) / BPB = b0 / BPB /\ (b0 + bi) mod BPB = bi.
Proof. unfold BPB, BSIZE. intros. Z.div_mod_to_equations. lia. Qed.

Lemma used_run s b0 bi :
  0 <= b0 -> b0 mod BPB = 0 -> 0 <= bi < BPB ->
  used s (b0 + bi) = bit_set (view s (BBLOCK b0 (k_sb s))) bi.
Proof. intros H1 H2 H3. unfold used, BBLOCK. destruct (map_run b0 bi H1 H2 H3) as [-> ->]. done. Qed.

(** The bits of a map block after one of them changed to [v]. *)
Lemma used_change H (v : bool) f r s s' :
  map_ok H s -> k_sb s' = k_sb s -> 0 <= r < sb_size (k_sb s) ->
  (forall b, 0 <= b < BPB ->
     bit_set (f (view s (BBLOCK r (k_sb s)))) b =
     if decide (b = r mod BPB) then v else bit_set (view s (BBLOCK r (k_sb s))) b) ->
  (forall b, 0 <= b < sb_size (k_sb s) -> view s' (BBLOCK b (k_sb s)) =
     if decide (BBLOCK b (k_sb s) = BBLOCK r (k_sb s)) then f (view s (BBLOCK r (k_sb s)))
     else view s (BBLOCK b (k_sb s))) ->
  forall b, 0 <= b < sb_size (k_sb s) -> used s' b = if decide (b = r) then v else used s b.
Proof.
  intros Hm Es Hr Hf Hv b Hb. unfold used. rewrite Es, Hv by done. case_decide as E.
  - rewrite Hf by (apply Z.mod_pos_bound; done). destruct (decide (b = r)) as [->|Hne]; [by rewrite decide_True|].
    rewrite decide_False; [by rewrite E|]. intros Em. by apply Hne, (map_bit H s).
  - rewrite decide_False; [done|]. congruence.
Qed.

Lemma mark_ok H bl i b0 bi s :
  intxn (i :: H) bl s -> i ∉ H -> holds_block i (BBLOCK b0 (k_sb s)) s -> room 2 H bl s -> map_ok H s ->
  0 <= b0 -> b0 mod BPB = 0 -> 0 <= bi < BPB -> b0 + bi < sb_size (k_sb s) ->
  used s (b0 + bi) = false -> (forall b, 0 <= b < b0 + bi -> used s b = true) ->
  exists s', (data_upd i (alter (fun v => Z.lor v (bit_mask bi)) (Z.to_nat (bi / 8)));;
              log_write i;; brelse i;; bzero 1 (b0 + bi);; ret (b0 + bi)) s = Ok (b0 + bi) s' /\
    allocated H bl (b0 + bi) s s'.
Proof.
  intros Hi HiH Hb Hroom Hm H0 Hmod Hbi Hlt Hfree Hleast. set (r := b0 + bi).
  assert (Em : BBLOCK r (k_sb s) = BBLOCK b0 (k_sb s)) by (unfold BBLOCK, r; by destruct (map_run b0 bi H0 Hmod Hbi) as [-> _]).
  assert (Er : r mod BPB = bi) by apply (map_run b0 bi H0 Hmod Hbi).
  assert (Hr : 0 <= r < sb_size (k_sb s)) by lia. rewrite <- Em in Hb.
  destruct (mo_map _ _ Hm r Hr) as (M1 & M2 & M3 & M4). destruct (mo_free _ _ Hm r Hr Hfree) as (F1 & F2 & F3).
  set (f := alter (fun v => Z.lor v (bit_mask bi)) (Z.to_nat (bi / 8))).
  destruct (log_release_in H bl i _ f s Hi HiH Hb M2) as (s1 & s2 & s3 & H1 & H2 & H3 & Hi3 & Hh3 & Hv3 & Hf3 & _);
    [destruct Hroom; lia|].
  pose proof (room_step 1 H bl (BBLOCK r (k_sb s)) s s3 Hroom Hf3) as Hroom3.
  destruct (bzero_ok 0 H _ r s3 Hi3 Hroom3) as (s4 & H4 & Hi4 & _ & Hh4 & Hf4 & Hv4).
  { rewrite (fs_frame_disk s s3) by done. destruct (mo_size _ _ Hm). lia. }
  { by eapply unheld_same. } { by rewrite (fs_frame_area s s3). }
  assert (Hf : fs_frame s s4) by (by etrans). assert (Hh : same_held H s s4) by (by etrans).
  assert (Hv : forall b, view s4 b = if decide (b = r) then replicate 512 0
                         else if decide (b = BBLOCK r (k_sb s)) then f (view s (BBLOCK r (k_sb s))) else view s b).
  { intros b. by rewrite Hv4, Hv3. }
  assert (Hmap : forall b, 0 <= b < sb_size (k_sb s) -> view s4 (BBLOCK b (k_sb s)) =
     if decide (BBLOCK b (k_sb s) = BBLOCK r (k_sb s)) then f (view s (BBLOCK r (k_sb s))) else view s (BBLOCK b (k_sb s))).
  { intros b Hb'. rewrite Hv, decide_False by (by apply F3). done. }
  assert (Hused : forall b, 0 <= b < sb_size (k_sb s) -> used s4 b = if decide (b = r) then true else used s b).
  { apply (used_change H true f); [done|by apply fs_frame_sb|done| |done].
    intros b Hb'. rewrite Er. apply bit_set_lor; [lia|lia|]. rewrite M3. unfold BPB, BSIZE in Hbi. Z.div_mod_to_equations. lia. }
  exists s4. split.
  - unfold data_upd. mstep with (H1). mstep with (H2). mstep with (H3). by mstep with (H4).
  - split; try done.
    + apply (map_ok_step H s); try done.
      * intros b Hb'. rewrite Hmap by done. case_decide; [unfold f; by rewrite length_alter|by apply Hm].
      * intros b Hb' Hu. rewrite Hused in Hu by done. by case_decide.
    + by rewrite Hv, decide_True.
    + intros b Hne Hne'. by rewrite Hv, !decide_False.
Qed.

(** Reading a block changes nothing that is seen of the map. *)
Lemma used_same s s' b : k_sb s' = k_sb s -> (forall b, view s' b = view s b) -> used s' b = used s b.
Proof. intros Es Hv. unfold used. by rewrite Es, Hv. Qed.

Lemma allocated_after H bl r s s1 s' :
  fs_frame s s1 -> same_held H s s1 -> (forall b, view s1 b = view s b) -> allocated H bl r s1 s' -> allocated H bl r s s'.
Proof.
  intros Hf Hh Hv [A1 A2 A3 A4 A5 A6 A7 A8 A9 A10]. pose proof (fs_frame_sb _ _ Hf) as Es. rewrite Es in *.
  pose proof (used_same s s1) as Hu. split; try done.
  - by rewrite <- Hu.
  - intros b Hb. rewrite <- Hu by done. by apply A3.
  - by etrans.
  - by etrans.
  - intros b Hb. rewrite A8 by done. by rewrite Hu.
  - intros b H1 H2. by rewrite A10.
Qed.

Lemma map_ok_read H s s' :
  map_ok H s -> fs_frame s s' -> same_held H s s' -> (forall b, view s' b = view s b) ->
  map_ok H s'.
Proof.
  intros Hm Hf Hh Hv. apply (map_ok_step H s); try done.
  - intros b Hb. rewrite Hv. by apply Hm.
  - intros b Hb. by rewrite (used_same s s') by (done || by apply fs_frame_sb).
Qed.

Lemma room_same n H bl s s' : fs_frame s s' -> room n H bl s -> room n H bl s'.
Proof. intros (_ & _ & _ & [_ E] & _) Hr. unfold room. by rewrite E. Qed.

Lemma balloc_loop_ok n b0 H bl s :
  intxn H bl s -> room 2 H bl s -> map_ok H s -> 0 <= b0 -> b0 mod BPB = 0 ->
  (forall b, 0 <= b < b0 -> b < sb_size (k_sb s) -> used s b = true) ->
  sb_size (k_sb s) - b0 <= Z.of_nat n * BPB ->
  (exists r s', balloc_loop n 1 b0 s = Ok r s' /\ allocated H bl r s s') \/
  ((forall b, 0 <= b < sb_size (k_sb s) -> used s b = true) /\ balloc_loop n 1 b0 s = Panic "balloc: out of blocks").
Proof.
  revert b0 s. induction n as [|n IH]; intros b0 s Hi Hroom Hm H0 Hmod Hbelow Hn; cbn [balloc_loop]; mstep.
  { rewrite (proj2 (Z.ltb_ge _ _)) by lia. right. split; [|done]. intros b Hb. apply Hbelow; lia. }
  destruct (Z.ltb_spec b0 (sb_size (k_sb s))) as [Hlt|Hge].
  2: { right. split; [|done]. intros b Hb. apply Hbelow; lia. }
  destruct (mo_map _ _ Hm b0 ltac:(lia)) as (M1 & M2 & M3 & M4).
  destruct (bread_in H bl _ s Hi (room_read 1 H bl _ s Hroom M1 M4))
    as (i & s1 & H1 & HiH & Hi1 & Hb1 & Hset1 & Hh1 & Hv1 & Hf1 & _).
  pose proof (fs_frame_sb _ _ Hf1) as Es. destruct Hb1 as (x & Hx & Hbx & Hdx).
  pose proof (map_ok_read H s s1 Hm Hf1 Hh1 Hv1) as Hm1. pose proof (room_same 2 H bl s s1 Hf1 Hroom) as Hroom1.
  pose proof (used_same s s1) as Hu1.
  mstep with (H1). mstep by (by apply buf_get_ok). rewrite Hdx, Hv1.
  pose proof (find_clear_spec (Z.to_nat BPB) b0 0 (sb_size (k_sb s)) (view s (BBLOCK b0 (k_sb s)))) as Hfc.
  destruct (find_clear _ _ _ _ _) as [bi|].
  - left. destruct Hfc as (F1 & F2 & F3 & F4). assert (Hbi : 0 <= bi < BPB) by (unfold BPB, BSIZE in *; lia).
    destruct (mark_ok H bl i b0 bi s1) as (s' & Hok & Hal); rewrite ?Es; try done.
    + by exists x.
    + rewrite Hu1, used_run by done. done.
    + intros b Hb. rewrite Hu1 by done. destruct (decide (b < b0)); [apply Hbelow; lia|].
      replace b with (b0 + (b - b0)) by lia. rewrite used_run by lia. apply F4. lia.
    + exists (b0 + bi), s'. split; [exact Hok|]. by eapply allocated_after.
  - destruct (brelse_in H bl i s1 Hi1 HiH Hset1) as (s2 & H2 & Hi2 & Hh2 & Hv2 & Hf2 & _). mstep with (H2).
    assert (Hf : fs_frame s s2) by (by etrans). assert (Hh : same_held H s s2) by (by etrans).
    assert (Hv : forall b, view s2 b = view s b) by (intros b; by rewrite Hv2).
    pose proof (fs_frame_sb _ _ Hf) as Es2. pose proof (used_same s s2) as Hu2.
    destruct (IH (b0 + BPB) s2) as [(r & s' & Hok & Hal)|[Hall Hp]]; rewrite ?Es2; try done.
    + by eapply room_same.
    + by eapply map_ok_read.
    + unfold BPB, BSIZE; lia.
    + rewrite <- Zplus_mod_idemp_l, Hmod. by vm_compute.
    + intros b Hb Hb'. rewrite Hu2 by done. destruct (decide (b < b0)); [apply Hbelow; lia|].
      replace b with (b0 + (b - b0)) by lia. rewrite used_run by (unfold BPB, BSIZE in *; lia). apply Hfc; unfold BPB, BSIZE in *; lia.
    + unfold BPB, BSIZE in *. lia.
    + left. exists r, s'. split; [done|]. by eapply allocated_after.
    + right. split; [|done]. intros b Hb. rewrite <- Hu2 by done. apply Hall. by rewrite Es2.
Qed.

(** A block of the contents of files: [bfree] may give it back. *)
Definition data_block (H : list nat) (b : Z) (s : kstate) : Prop :=
  0 <= b < sb_size (k_sb s) /\ ~ in_area (k_log s) b /\ unheld H b s /\
  forall b', 0 <= b' < sb_size (k_sb s) -> BBLOCK b' (k_sb s) <> b.

Lemma bfree_used H bl b s :
  intxn H bl s -> room 1 H bl s -> map_ok H s -> data_block H b s -> used s b = true ->
  exists s', bfree 1 b s = Ok tt s' /\ intxn H (add_block (BBLOCK b (k_sb s)) bl) s' /\ map_ok H s' /\
    same_held H s s' /\ fs_frame s s' /\
    (forall b', 0 <= b' < sb_size (k_sb s) -> used s' b' = if decide (b' = b) then false else used s b') /\
    (forall b', b' <> BBLOCK b (k_sb s) -> view s' b' = view s b').
Proof.
  intros Hi Hroom Hm (Hb & Hout & Hun & Hnm) Hu. destruct (mo_map _ _ Hm b Hb) as (M1 & M2 & M3 & M4).
  destruct (bread_in H bl _ s Hi (room_read 0 H bl _ s Hroom M1 M4))
    as (i & s1 & H1 & HiH & Hi1 & Hb1 & _ & Hh1 & Hv1 & Hf1 & Hl1).
  pose proof Hb1 as (x & Hx & Hbx & Hdx).
  set (bi := b mod BPB) in *. assert (Hbi : 0 <= bi < BPB) by (by apply Z.mod_pos_bound).
  set (f := alter (fun v => Z.land v (Z.lnot (bit_mask bi))) (Z.to_nat (bi / 8)) : list Z -> list Z).
  destruct (log_release_in H bl i _ f s1 Hi1 HiH Hb1) as (s2 & s3 & s4 & H2 & H3 & H4 & Hi4 & Hh4 & Hv4 & Hf4 & _).
  { by rewrite Hl1. } { rewrite Hl1. destruct Hroom; lia. }
  assert (Hf : fs_frame s s4) by (by etrans). assert (Hh : same_held H s s4) by (by etrans).
  assert (Hv : forall b', view s4 b' = if decide (b' = BBLOCK b (k_sb s)) then f (view s (BBLOCK b (k_sb s))) else view s b').
  { intros b'. by rewrite Hv4, !Hv1. }
  assert (Hused : forall b', 0 <= b' < sb_size (k_sb s) -> used s4 b' = if decide (b' = b) then false else used s b').
  { apply (used_change H false f); [done|by apply fs_frame_sb|done| |intros b' Hb'; by rewrite Hv].
    intros b' Hb'. apply bit_set_clear; [lia|lia|]. rewrite M3. unfold BPB, BSIZE in Hbi. Z.div_mod_to_equations. lia. }
  exists s4. split_and!; try done.
  - unfold bfree. mstep. mstep with (H1). mstep by (by apply buf_get_ok). rewrite Hdx, Hv1.
    change (bit_set (view s (BBLOCK b (k_sb s))) (b mod BPB)) with (used s b). rewrite Hu. cbn [negb].
    unfold data_upd. fold bi f. mstep with (H2). mstep with (H3). exact H4.
  - destruct Hm as [O1 O2 O3 O4]. pose proof (fs_frame_sb _ _ Hf) as Es. pose proof (fs_frame_disk _ _ Hf) as Ed.
    split; rewrite ?Es, ?Ed; try done.
    + intros b' Hb'. destruct (O3 b' Hb') as (G1 & G2 & G3 & G4). split_and!; [lia|lia|..].
      * by rewrite (fs_frame_area s s4).
      * rewrite Hv. case_decide; [unfold f; by rewrite length_alter|done].
      * by eapply unheld_same.
    + intros b' Hb' Hu'. rewrite Hused in Hu' by done. rewrite (fs_frame_area s s4) by done.
      case_decide as E; [subst b'|destruct (O4 b' Hb' Hu') as (G1 & G2 & G3)];
        (split_and!; [done|by eapply unheld_same|done]).
  - intros b' Hne. by rewrite Hv, decide_False.
Qed.

Lemma bfree_free H bl b s :
  intxn H bl s -> room 1 H bl s -> map_ok H s -> 0 <= b < sb_size (k_sb s) -> used s b = false ->
  bfree 1 b s = Panic "freeing free block".
Proof.
  intros Hi Hroom Hm Hb Hu. destruct (mo_map _ _ Hm b Hb) as (M1 & M2 & M3 & M4).
  destruct (bread_in H bl _ s Hi (room_read 0 H bl _ s Hroom M1 M4))
    as (i & s1 & H1 & HiH & Hi1 & (x & Hx & Hbx & Hdx) & _ & _ & Hv1 & _ & _).
  unfold bfree. mstep. mstep with (H1). mstep by (by apply buf_get_ok). rewrite Hdx, Hv1.
  change (bit_set (view s (BBLOCK b (k_sb s))) (b mod BPB)) with (used s b). by rewrite Hu.
Qed.

Lemma balloc_ok H bl s :
  intxn H bl s -> room 2 H bl s -> map_ok H s ->
  (exists r s', balloc 1 s = Ok r s' /\ allocated H bl r s s') \/
  ((forall b, 0 <= b < sb_size (k_sb s) -> used s b = true) /\ balloc 1 s = Panic "balloc: out of blocks").
Proof.
  intros Hi Hroom Hm. unfold balloc. mstep. apply balloc_loop_ok; try done; [intros b Hb; lia|].
  destruct (mo_size _ _ Hm). unfold BPB, BSIZE. Z.div_mod_to_equations. lia.
Qed.
End Balloc.

(** ** Properties *)

(** [balloc] terminates, and returns the least block that the map marks free: it is
    marked afterwards, reads as zeroes, and no other mark and no other block outside
    the map has changed; nothing has reached the disk.  It panics exactly when the map
    has no free block. *)
Theorem balloc_least_free {fl : Fuel} {dsk : Disk} {laws : DiskLaws dsk} ci c p pr H bl s :
  intxn (ci := ci) (c := c) (p := p) (pr := pr) H bl s -> room 2 H bl s -> map_ok H s ->
  (exists r s', balloc 1 s = Ok r s' /\ allocated (ci := ci) (c := c) (p := p) (pr := pr) H bl r s s') \/
  ((forall b, 0 <= b < sb_size (k_sb s) -> used s b = true) /\ balloc 1 s = Panic "balloc: out of blocks").
Proof. apply balloc_ok. Qed.

(** [bfree] clears the mark of a marked block and changes no other mark and no block
    outside the map; a block that is not marked is refused with a panic. *)
Theorem bfree_clears_mark {fl : Fuel} {dsk : Disk} {laws : DiskLaws dsk} ci c p pr H bl b s :
  intxn (ci := ci) (c := c) (p := p) (pr := pr) H bl s -> room 1 H bl s -> map_ok H s -> data_block H b s ->
  if used s b then
    exists s', bfree 1 b s = Ok tt s' /\
      intxn (ci := ci) (c := c) (p := p) (pr := pr) H (add_block (BBLOCK b (k_sb s)) bl) s' /\ map_ok H s' /\
      k_disk s' = k_disk s /\
      (forall b', 0 <= b' < sb_size (k_sb s) -> used s' b' = if decide (b' = b) then false else used s b') /\
      (forall b', b' <> BBLOCK b (k_sb s) -> view s' b' = view s b')
  else bfree 1 b s = Panic "freeing free block".
Proof.
  intros Hi Hr Hm Hd. destruct (used s b) eqn:Hu.
  - destruct (bfree_used H bl b s Hi Hr Hm Hd Hu) as (s' & H1 & H2 & H3 & _ & H5 & H6 & H7).
    exists s'. split_and!; try done. by apply fs_frame_disk.
  - eapply bfree_free; try done. apply Hd.
Qed.

(** ** Witnesses *)

(** A file system of 100 blocks, the log at 2 and the map in block 58, which marks the
    blocks 0 to 59. *)
Definition demo_sb : superblock := mkSuperblock 100 941 200 30 2 32 58.
Definition demo_bitmap : list Z := replicate 7 255 ++ [15] ++ replicate 504 0.
Definition fs_disk : disk := mkDisk 100 (fun b => if b =? 58 then demo_bitmap else replicate 512 0) [].
Definition alloc_demo : kstate := (cache_demo fs_disk log_demo) <| k_sb := demo_sb |>.

Lemma sb_fields t sb :
  k_disk (t <| k_sb := sb |>) = k_disk t /\ k_log (t <| k_sb := sb |>) = k_log t /\
  forall b, view (t <| k_sb := sb |>) b = view t b.
Proof. done. Qed.

Lemma intxn_sb {ci c p pr} H bl t sb :
  intxn (ci := ci) (c := c) (p := p) (pr := pr) H bl t ->
  intxn (ci := ci) (c := c) (p := p) (pr := pr) H bl (t <| k_sb := sb |>).
Proof.
  intros [G1 [l G2] G3 G4 G5 G6 G7 G8 G9]. split; try done; [by apply (kmode_frame ci c p pr t)|].
  exists l. by destruct G2.
Qed.

Lemma alloc_demo_fields : k_disk alloc_demo = fs_disk /\ k_log alloc_demo = log_demo.
Proof.
  destruct (sb_fields (cache_demo fs_disk log_demo) demo_sb) as (E1 & E2 & _).
  destruct (cache_demo_ok fs_disk log_demo) as (_ & _ & _ & Ed & El). unfold alloc_demo.
  rewrite E1, E2. split; assumption.
Qed.

Lemma alloc_demo_view b : view alloc_demo b = if b =? 58 then demo_bitmap else replicate 512 0.
Proof.
  destruct (cache_demo_ok fs_disk log_demo) as (_ & _ & Hs & Ed & _).
  destruct (sb_fields (cache_demo fs_disk log_demo) demo_sb) as (_ & _ & E). unfold alloc_demo.
  rewrite E. unfold view. rewrite Hs, Ed. reflexivity.
Qed.

Lemma alloc_demo_txn : intxn (ci := 0%nat) (c := fs_cpu) (p := 0%nat) (pr := fs_proc) [] [] alloc_demo.
Proof.
  destruct (demo_quiet fs_disk log_demo) as [Hq Hc].
  destruct (cache_demo_ok fs_disk log_demo) as (Hk & HI & Hs & Ed & El).
  assert (Hz : head_n (d_read fs_disk 2) = 0) by (vm_compute; reflexivity).
  assert (Hp : pending (ci := 0%nat) (c := fs_cpu) (p := 0%nat) (pr := fs_proc) [] (cache_demo fs_disk log_demo)).
  { apply pending_nil; rewrite ?Ed, ?El; [exact Hq|exact Hc| | |exact Hz|reflexivity].
    - split_and!; [reflexivity|reflexivity|discriminate|reflexivity|discriminate|discriminate].
    - split; [vm_compute; reflexivity|]. change (l_start log_demo) with 2. rewrite Hz. split; [lia|].
      assert (Eb : disk_blocks 2 fs_disk = []) by (unfold disk_blocks, head_blocks; by rewrite Hz).
      rewrite Eb. split; [reflexivity|apply Nat.ltb_lt; reflexivity|apply NoDup_nil_2|].
      intros b Hb. destruct (not_elem_of_nil b Hb). }
  apply intxn_sb, intxn_pending. rewrite El. split; [exact Hp|split; discriminate].
Qed.

Lemma alloc_demo_marks : used alloc_demo 59 = true /\ used alloc_demo 60 = false.
Proof. unfold used. rewrite !alloc_demo_view. by vm_compute. Qed.

Lemma alloc_demo_map : map_ok [] alloc_demo.
Proof.
  assert (Hm : forall b, 0 <= b < 100 -> BBLOCK b demo_sb = 58).
  { intros b Hb. unfold BBLOCK, BPB, BSIZE. rewrite Z.div_small by lia. reflexivity. }
  destruct alloc_demo_fields as [Ed El].
  assert (Hu : forall b, 0 <= b < 60 -> used alloc_demo b = true).
  { intros b Hb. unfold used. change (k_sb alloc_demo) with demo_sb. rewrite Hm, alloc_demo_view by lia.
    rewrite Z.mod_small by (unfold BPB, BSIZE; lia).
    assert (Hall : forallb (bit_set demo_bitmap) (zrange 0 60) = true) by (vm_compute; reflexivity).
    rewrite forallb_forall in Hall. apply Hall, list_elem_of_In, elem_of_zrange, Hb. }
  split; rewrite ?Ed, ?El; change (k_sb alloc_demo) with demo_sb; cbn [sb_size sb_bmapstart demo_sb d_size fs_disk].
  - lia.
  - lia.
  - intros b Hb. rewrite (Hm b Hb), alloc_demo_view. split_and!; [lia|lia|unfold in_area; simpl; lia|reflexivity|].
    intros i Hi. destruct (not_elem_of_nil i Hi).
  - intros b Hb Hf. assert (~ b < 60) by (intros Hlt; rewrite Hu in Hf by lia; discriminate).
    split_and!; [unfold in_area; simpl; lia| |intros b' Hb'; rewrite Hm by lia; lia].
    intros i Hi. destruct (not_elem_of_nil i Hi).
Qed.

Lemma alloc_demo_room : room 2 [] [] alloc_demo.
Proof.
  destruct alloc_demo_fields as [_ El].
  split; [rewrite El; reflexivity|apply Nat.leb_le; reflexivity].
Qed.

Lemma balloc_least_free_witness :
  exists r s', @balloc 5%nat memide 1 alloc_demo = Ok r s' /\ used alloc_demo r = false.
Proof.
  destruct (@balloc_least_free 5%nat memide memide_laws 0 fs_cpu 0 fs_proc [] [] alloc_demo
    alloc_demo_txn alloc_demo_room alloc_demo_map) as [(r & s' & H1 & H2)|[Hall _]].
  - exists r, s'. split; [exact H1|apply H2].
  - exfalso. specialize (Hall 60 ltac:(split; [discriminate|reflexivity])).
    rewrite (proj2 alloc_demo_marks) in Hall. discriminate Hall.
Defined.

Lemma alloc_demo_data : data_block [] 59 alloc_demo.
Proof.
  destruct alloc_demo_fields as [_ El]. unfold data_block. change (k_sb alloc_demo) with demo_sb. rewrite El.
  split; [split; [discriminate|reflexivity]|]. split; [unfold in_area; simpl; lia|].
  split; [intros i Hi; destruct (not_elem_of_nil i Hi)|]. intros b' Hb'. cbn [sb_size demo_sb] in Hb'.
  unfold BBLOCK, BPB, BSIZE. rewrite Z.div_small by lia. discriminate.
Qed.

Lemma alloc_demo_room1 : room 1 [] [] alloc_demo.
Proof. destruct alloc_demo_room as [R1 R2]. cbn [length] in R1, R2. split; cbn [length]; lia. Qed.

Lemma bfree_clears_mark_witness :
  exists s', @bfree 5%nat memide 1 59 alloc_demo = Ok tt s' /\ k_disk s' = k_disk alloc_demo.
Proof.
  pose proof (@bfree_clears_mark 5%nat memide memide_laws 0 fs_cpu 0 fs_proc [] [] 59 alloc_demo alloc_demo_txn
    alloc_demo_room1 alloc_demo_map alloc_demo_data) as Hb.
  rewrite (proj1 alloc_demo_marks) in Hb. destruct Hb as (s' & H1 & _ & _ & H2 & _).
  exists s'. split; [exact H1|exact H2].
Defined.
