(* ===== verification/Icache.v ===== *)
(** * References to cached inodes (fs.c: iget, idup, iput)

    The clients of the inode cache hold counted references.  [A] is the ledger of the
    references that are out: the entry and the inode it was obtained for. *)

From stdpp Require Import gmap.
From S2P Require Import Prelude Outcome Kernel Spinlock Kalloc Proc Cprintf Sleeplock Bio Log Inode.

Definition ident (x : inode) : Z * Z := (i_dev x, i_inum x).

(** How many references to entry [k] are out. *)
Definition holders (k : nat) (A : list (nat * (Z * Z))) : nat := length (filter (fun r => r.1 = k) A).

Lemma holders_cons k r A : holders k (r :: A) = ((if decide (r.1 = k) then 1 else 0) + holders k A)%nat.
Proof. unfold holders. rewrite filter_cons. by case_decide. Qed.

Lemma holders_app k A B : holders k (A ++ B) = (holders k A + holders k B)%nat.
Proof. unfold holders. by rewrite filter_app, length_app. Qed.

Lemma holders_pos k id A : (k, id) ∈ A -> (0 < holders k A)%nat.
Proof.
  intros H. unfold holders.
  assert (Hin : (k, id) ∈ filter (fun r : nat * (Z * Z) => r.1 = k) A) by (apply list_elem_of_filter; done).
  destruct (filter _ A); [by apply not_elem_of_nil in Hin|simpl; lia].
Qed.

(** The table agrees with the ledger: each count is the number of references out, two
    entries in use are different inodes, and a reference still means the inode it was
    obtained for. *)
Record table_ok (A : list (nat * (Z * Z))) (l : list inode) : Prop := {
  tb_len : length l = NINODE;
  tb_refs : forall k x, l !! k = Some x -> i_ref x = Z.of_nat (holders k A);
  tb_uniq : forall j k x y, l !! j = Some x -> l !! k = Some y -> 0 < i_ref x -> 0 < i_ref y ->
    ident x = ident y -> j = k;
  tb_ident : forall k id, (k, id) ∈ A -> exists x, l !! k = Some x /\ ident x = id }.

Lemma in_cache_true dev inum x : in_cache dev inum x = true <-> 0 < i_ref x /\ ident x = (dev, inum).
Proof.
  unfold in_cache, ident. rewrite !andb_true_iff, Z.ltb_lt, !Z.eqb_eq. naive_solver.
Qed.

Lemma alter_inode (l : list inode) i x f : l !! i = Some x -> alter f i l = <[i := f x]> l.
Proof.
  intros Hx. apply list_eq. intros j. destruct (decide (i = j)) as [<-|Hne].
  - rewrite list_lookup_alter_eq, list_lookup_insert_eq, Hx by (by eapply lookup_lt_Some). done.
  - by rewrite list_lookup_alter_ne, list_lookup_insert_ne.
Qed.

(** One more reference to a cached inode, the first one to another, and one less. *)
Lemma table_more A l k x id :
  table_ok A l -> l !! k = Some x -> ident x = id -> 0 < i_ref x ->
  table_ok ((k, id) :: A) (<[k := x <| i_ref ::= fun r => r + 1 |>]> l).
Proof.
  intros [H1 H2 H3 H4] Hx Hid Hr. pose proof (lookup_lt_Some _ _ _ Hx) as Hk.
  assert (Hl : forall j y, <[k := x <| i_ref ::= fun r => r + 1 |>]> l !! j = Some y ->
             exists z, l !! j = Some z /\ ident y = ident z /\ (0 < i_ref y -> 0 < i_ref z) /\
               i_ref y = i_ref z + (if decide (j = k) then 1 else 0)).
  { intros j y Hy. destruct (decide (j = k)) as [->|Hne].
    - rewrite list_lookup_insert_eq in Hy by done. injection Hy as <-. exists x. split_and!; done.
    - rewrite list_lookup_insert_ne in Hy by done. exists y. split_and!; try done. lia. }
  split.
  - by rewrite length_insert.
  - intros j y Hy. destruct (Hl j y Hy) as (z & Hz & _ & _ & ->). rewrite (H2 j z Hz), holders_cons. simpl.
    repeat case_decide; subst; done || lia.
  - intros j m y z Hy Hz Hry Hrz E. destruct (Hl j y Hy) as (y' & Hy' & Ey & Py & _).
    destruct (Hl m z Hz) as (z' & Hz' & Ez & Pz & _). apply (H3 j m y' z'); try auto. congruence.
  - intros j id' [E|Hin]%elem_of_cons.
    + injection E as -> ->. eexists. split; [by apply list_lookup_insert_eq|done].
    + destruct (H4 j id' Hin) as (y & Hy & Ey). destruct (decide (j = k)) as [->|Hne].
      * exists (x <| i_ref ::= fun r => r + 1 |>). rewrite list_lookup_insert_eq by done. split; [done|].
        rewrite Hx in Hy. injection Hy as ->. done.
      * exists y. by rewrite list_lookup_insert_ne.
Qed.

Lemma table_first A l k x dev inum :
  table_ok A l -> l !! k = Some x -> i_ref x = 0 -> (forall j y, l !! j = Some y -> in_cache dev inum y = false) ->
  table_ok ((k, (dev, inum)) :: A)
    (<[k := x <| i_dev := dev |> <| i_inum := inum |> <| i_ref := 1 |> <| i_valid := 0 |>]> l).
Proof.
  intros [H1 H2 H3 H4] Hx Hr Hnew. pose proof (lookup_lt_Some _ _ _ Hx) as Hk.
  set (x' := x <| i_dev := dev |> <| i_inum := inum |> <| i_ref := 1 |> <| i_valid := 0 |>).
  assert (Hk0 : holders k A = 0%nat) by (pose proof (H2 k x Hx); lia).
  assert (Hl : forall j y, <[k := x']> l !! j = Some y -> (j = k /\ y = x') \/ (j <> k /\ l !! j = Some y)).
  { intros j y Hy. destruct (decide (j = k)) as [->|Hne]; [left|right].
    - rewrite list_lookup_insert_eq in Hy by done. by injection Hy as <-.
    - by rewrite list_lookup_insert_ne in Hy by done. }
  assert (Hno : forall j y, l !! j = Some y -> 0 < i_ref y -> ident y <> (dev, inum)).
  { intros j y Hy Hp E. pose proof (Hnew j y Hy) as Hf. apply not_true_iff_false in Hf. by apply Hf, in_cache_true. }
  split.
  - by rewrite length_insert.
  - intros j y Hy. rewrite holders_cons. simpl. destruct (Hl j y Hy) as [[-> ->]|[Hne Hy']].
    + rewrite decide_True, Hk0 by done. done.
    + rewrite decide_False by done. by apply H2.
  - intros j m y z Hy Hz Hry Hrz E. destruct (Hl j y Hy) as [[-> ->]|[Hj Hy']], (Hl m z Hz) as [[-> ->]|[Hm Hz']].
    + done.
    + exfalso. by apply (Hno m z).
    + exfalso. by apply (Hno j y).
    + by apply (H3 j m y z).
  - intros j id' [E|Hin]%elem_of_cons.
    + injection E as -> ->. exists x'. split; [by apply list_lookup_insert_eq|done].
    + destruct (decide (j = k)) as [->|Hne]; [pose proof (holders_pos k id' A Hin); lia|].
      destruct (H4 j id' Hin) as (y & Hy & Ey). exists y. by rewrite list_lookup_insert_ne.
Qed.

Lemma table_less A B l k x id :
  table_ok (A ++ (k, id) :: B) l -> l !! k = Some x ->
  table_ok (A ++ B) (<[k := x <| i_ref ::= fun r => r - 1 |>]> l).
Proof.
  intros [H1 H2 H3 H4] Hx. pose proof (lookup_lt_Some _ _ _ Hx) as Hk.
  assert (Hl : forall j y, <[k := x <| i_ref ::= fun r => r - 1 |>]> l !! j = Some y ->
             exists z, l !! j = Some z /\ ident y = ident z /\ (0 < i_ref y -> 0 < i_ref z) /\
               i_ref y = i_ref z - (if decide (j = k) then 1 else 0)).
  { intros j y Hy. destruct (decide (j = k)) as [->|Hne].
    - rewrite list_lookup_insert_eq in Hy by done. injection Hy as <-. exists x. split_and!; try done. rsimpl. lia.
    - rewrite list_lookup_insert_ne in Hy by done. exists y. split_and!; try done. lia. }
  split.
  - by rewrite length_insert.
  - intros j y Hy. destruct (Hl j y Hy) as (z & Hz & _ & _ & ->). rewrite (H2 j z Hz), !holders_app, holders_cons. simpl.
    repeat case_decide; subst; done || lia.
  - intros j m y z Hy Hz Hry Hrz E. destruct (Hl j y Hy) as (y' & Hy' & Ey & Py & _).
    destruct (Hl m z Hz) as (z' & Hz' & Ez & Pz & _). apply (H3 j m y' z'); try auto. congruence.
  - intros j id' Hin. destruct (H4 j id') as (y & Hy & Ey); [set_solver|].
    destruct (decide (j = k)) as [->|Hne].
    + exists (x <| i_ref ::= fun r => r - 1 |>). rewrite list_lookup_insert_eq by done. split; [done|].
      rewrite Hx in Hy. injection Hy as ->. done.
    + exists y. by rewrite list_lookup_insert_ne.
Qed.

(** Counts have changed and entries have been recycled; what is valid was valid. *)
Definition recounted (l l' : list inode) : Prop := forall k x', l' !! k = Some x' -> 0 < i_ref x' -> i_valid x' <> 0 ->
  exists x, l !! k = Some x /\ 0 < i_ref x /\ x' = x <| i_ref := i_ref x' |>.

Lemma inode_eta x : x = x <| i_ref := i_ref x |>.
Proof. by destruct x. Qed.

Lemma recounted_count l k x g : l !! k = Some x -> 0 < i_ref x -> recounted l (<[k := x <| i_ref ::= g |>]> l).
Proof.
  intros Hx Hr j y Hy Hp Hv. destruct (decide (j = k)) as [->|Hne].
  - rewrite list_lookup_insert_eq in Hy by (by eapply lookup_lt_Some). injection Hy as <-. by exists x.
  - rewrite list_lookup_insert_ne in Hy by done. exists y. split_and!; [done|done|apply inode_eta].
Qed.

Lemma recounted_fresh l k x : i_valid x = 0 -> recounted l (<[k := x]> l).
Proof.
  intros Hx j y Hy Hp Hv. destruct (decide (j = k)) as [->|Hne].
  - destruct (decide (k < length l)%nat); [|rewrite list_insert_ge in Hy by lia; apply lookup_lt_Some in Hy; lia].
    rewrite list_lookup_insert_eq in Hy by done. by injection Hy as <-.
  - rewrite list_lookup_insert_ne in Hy by done. exists y. split_and!; [done|done|apply inode_eta].
Qed.

(** ** The operations *)

Lemma fs_lock_inode k : (k < NINODE)%nat -> fs_lock (LSleep (SLInode k)) = true.
Proof. intros H. simpl. by apply Nat.ltb_lt. Qed.

Lemma inode_get_ok k x s : k_inodes s !! k = Some x -> inode_get k s = Ok x s.
Proof. intros H. unfold inode_get. mstep. by rewrite H. Qed.

Lemma inode_upd_ok k x f s :
  k_inodes s !! k = Some x -> inode_upd k f s = Ok tt (s <| k_inodes ::= <[k := f x]> |>).
Proof.
  intros H. unfold inode_upd, modify. f_equal. apply kstate_ext; rsimpl; try reflexivity. by apply alter_inode.
Qed.

(** An inode whose sleep-lock the process holds is unlocked at once, and one that is
    valid and free is locked without a look at the disk. *)
Section Lock.
Context {fl : Fuel} {dsk : Disk} {ci : nat} {c : cpu} {p : nat} {pr : proc}.

Definition unlocked_inode (ip : nat) (s : kstate) : kstate :=
  s <| k_slocks ::= <[SLInode ip := mkSleeplock 0 0]> |>
    <| k_procs ::= map (wake_one (Some (CSleeplock (SLInode ip)))) |>.

Lemma iunlock_held ip x s :
  kmode ci c p pr s -> (ip < NINODE)%nat -> k_inodes s !! ip = Some x -> 1 <= i_ref x ->
  sl_held (SLInode ip) (p_pid pr) s -> iunlock (Some ip) s = Ok tt (unlocked_inode ip s).
Proof.
  intros Hk Hip Hx Href Hh. pose proof (fs_lock_inode ip Hip) as Hf. unfold iunlock.
  mstep by (by apply (holdingsleep_held (SLInode ip) Hf s Hk)). cbn [negb].
  mstep by (by apply inode_get_ok). rewrite (proj2 (Z.ltb_ge _ _)) by done.
  by apply (releasesleep_owner (SLInode ip) Hf s Hk).
Qed.

Lemma kmode_unlocked_inode ip s : kmode ci c p pr s -> kmode ci c p pr (unlocked_inode ip s).
Proof. intros Hk. apply (kmode_frame ci c p pr s); [done|done|apply woken_wakeup]. Qed.

Lemma ilock_valid ip x s :
  kmode ci c p pr s -> (ip < NINODE)%nat -> k_inodes s !! ip = Some x -> 1 <= i_ref x -> i_valid x <> 0 ->
  sl_free (SLInode ip) s ->
  ilock (Some ip) s = Ok tt (s <| k_slocks ::= <[SLInode ip := mkSleeplock 1 (p_pid pr)]> |>).
Proof.
  intros Hk Hip Hx Href Hv Hf. unfold ilock. mstep by (by apply inode_get_ok).
  rewrite (proj2 (Z.ltb_ge _ _)) by done.
  mstep by (by apply (acquiresleep_free (SLInode ip) (fs_lock_inode ip Hip) s Hk)).
  mstep by (by apply inode_get_ok). by rewrite (proj2 (Z.eqb_neq _ _) Hv).
Qed.
End Lock.

Lemma holders_le k A : (holders k A <= length A)%nat.
Proof. apply length_filter. Qed.

Section Ops.
Context {fl : Fuel} {dsk : Disk} {ci : nat} {c : cpu} {p : nat} {pr : proc}.
Local Abbreviation kmode := (kmode ci c p pr).

Definition with_inodes (l : list inode) (s : kstate) : kstate := s <| k_inodes := l |>.

Lemma iget_cases dev inum A s :
  kmode s -> table_ok A (k_inodes s) -> Z.of_nat (length A) < 2147483647 ->
  (exists ip l, iget dev inum s = Ok ip (with_inodes l s) /\ table_ok ((ip, (dev, inum)) :: A) l /\ recounted (k_inodes s) l) \/
  (iget dev inum s = Panic "iget: no inodes" /\
   forall k x, k_inodes s !! k = Some x -> 0 < i_ref x /\ ident x <> (dev, inum)).
Proof.
  intros Hk Ht HA. unfold iget. 
  destruct (scan (in_cache dev inum) (k_inodes s)) as [ip|] eqn:Es.
  - left. pose proof (proj1 (scan_Some _ _ _) Es) as [(x & Hx & Hc) _]. apply in_cache_true in Hc as [Hr Hid].
    exists ip, (<[ip := x <| i_ref ::= fun r => r + 1 |>]> (k_inodes s)). split; [|split; [by apply table_more|by apply recounted_count]].
    mstep by (by eapply (kmode_acquire LIcache)). mstep. rsimpl. rewrite Es.
    mstep by (by apply (inode_upd_ok ip x)). mstep by (by apply (kmode_release LIcache s _ Hk)). unfold ret. f_equal.
    apply kstate_ext; unfold with_inodes; rsimpl; try reflexivity. unfold set. rewrite i32_id; [done|].
    pose proof (tb_refs _ _ Ht ip x Hx). pose proof (holders_le ip A). lia.
  - assert (Hnew : forall j y, k_inodes s !! j = Some y -> in_cache dev inum y = false) by (by apply scan_None).
    destruct (scan (fun x => i_ref x =? 0) (k_inodes s)) as [ip|] eqn:Ee; [left|right].
    + pose proof (proj1 (scan_Some _ _ _) Ee) as [(x & Hx & Hr%Z.eqb_eq) _].
      eexists ip, _. split; [|split; [by apply (table_first A (k_inodes s) ip x)|by apply recounted_fresh]].
      mstep by (by eapply (kmode_acquire LIcache)). mstep. rsimpl. rewrite Es, Ee.
      mstep by (by apply (inode_upd_ok ip x)). mstep by (by apply (kmode_release LIcache s _ Hk)). unfold ret. f_equal.
    + split.
      * mstep by (by eapply (kmode_acquire LIcache)). mstep. rsimpl. by rewrite Es, Ee.
      * intros k x Hx. assert (Hr : 0 < i_ref x).
        { rewrite scan_None in Ee. pose proof (Ee k x Hx) as H0%Z.eqb_neq. pose proof (tb_refs _ _ Ht k x Hx). lia. }
        split; [done|]. intros E. pose proof (Hnew k x Hx) as Hf. apply not_true_iff_false in Hf. by apply Hf, in_cache_true.
Qed.

Lemma idup_ok ip id A s :
  kmode s -> table_ok A (k_inodes s) -> Z.of_nat (length A) < 2147483647 -> (ip, id) ∈ A ->
  exists l, idup ip s = Ok ip (with_inodes l s) /\ table_ok ((ip, id) :: A) l /\ recounted (k_inodes s) l.
Proof.
  intros Hk Ht HA Hin. destruct (tb_ident _ _ Ht ip id Hin) as (x & Hx & Hid).
  pose proof (tb_refs _ _ Ht ip x Hx) as Hr. pose proof (holders_pos ip id A Hin). pose proof (holders_le ip A).
  exists (<[ip := x <| i_ref ::= fun r => r + 1 |>]> (k_inodes s)). split; [|split; [apply table_more|apply recounted_count]; done || lia].
  unfold idup. mstep by (by eapply (kmode_acquire LIcache)). mstep by (by apply (inode_upd_ok ip x)).
  mstep by (by apply (kmode_release LIcache s _ Hk)). unfold ret. f_equal.
  apply kstate_ext; unfold with_inodes; rsimpl; try reflexivity. unfold set. rewrite i32_id; [done|]. lia.
Qed.

(** The inode is not to be freed on the disk. *)
Definition stays (x : inode) : Prop := i_valid x = 0 \/ i_nlink x <> 0 \/ i_ref x <> 1.

Lemma iput_ok ip x s :
  kmode s -> (ip < NINODE)%nat -> sl_free (SLInode ip) s -> k_inodes s !! ip = Some x -> stays x ->
  0 < i_ref x < 2147483648 ->
  iput ip s = Ok tt (with_inodes (<[ip := x <| i_ref ::= fun r => r - 1 |>]> (k_inodes s)) s
                       <| k_slocks ::= <[SLInode ip := mkSleeplock 0 0]> |>
                       <| k_procs ::= map (wake_one (Some (CSleeplock (SLInode ip)))) |>).
Proof.
  intros Hk Hi Hf Hx Hst Hr. pose proof (fs_lock_inode ip Hi) as Hl. unfold iput.
  mstep by (by apply (acquiresleep_free (SLInode ip) Hl s Hk)).
  set (s1 := s <| k_slocks ::= _ |>). assert (Hk1 : kmode s1) by (by apply (kmode_frame ci c p pr s)).
  mstep by (by apply (inode_get_ok ip x)).
  assert (Hbody : when (negb (i_valid x =? 0) && (i_nlink x =? 0))
    (acquire LIcache;; x ← inode_get ip; let r := i_ref x in release LIcache;;
     when (r =? 1) (itrunc ip;; inode_upd ip (fun x => x <| i_type := 0 |>);; iupdate ip;;
                    inode_upd ip (fun x => x <| i_valid := 0 |>))) s1 = Ok tt s1).
  { destruct (negb (i_valid x =? 0) && (i_nlink x =? 0)) eqn:Eg; [|done]. cbn [when].
    apply andb_prop in Eg as [Ev%negb_true_iff%Z.eqb_neq En%Z.eqb_eq]. destruct Hst as [?|[?|Hne]]; [done..|].
    mstep by (by eapply (kmode_acquire LIcache)). mstep by (by apply (inode_get_ok ip x)).
    mstep by (by apply (kmode_release LIcache s1 _ Hk1)). rewrite (proj2 (Z.eqb_neq _ _) Hne). cbn [when]. unfold ret.
    f_equal. }
  mstep with (Hbody).
  mstep by (apply (releasesleep_owner (SLInode ip) Hl s1 Hk1); eexists; split; [apply lookup_insert_eq|done]).
  set (s2 := s1 <| k_slocks ::= _ |> <| k_procs ::= _ |>).
  assert (Hk2 : kmode s2) by (apply (kmode_frame ci c p pr s1); [done|done|apply woken_wakeup]).
  mstep by (by eapply (kmode_acquire LIcache)). mstep by (by apply (inode_upd_ok ip x)).
  rewrite (kmode_release LIcache s2 _ Hk2) by done. f_equal.
  apply kstate_ext; unfold s2, s1, with_inodes; rsimpl; try reflexivity.
  - by rewrite insert_insert_eq.
  - unfold set. rewrite i32_id by lia. done.
Qed.
End Ops.

(** ** Clients *)

(** A client gets and duplicates references, drops one it holds, and changes the
    contents of entries. *)
Inductive ref_step {fl : Fuel} {dsk : Disk} : kstate * list (nat * (Z * Z)) -> kstate * list (nat * (Z * Z)) -> Prop :=
| rs_get dev inum ip s s' A :
    Z.of_nat (length A) < 2147483647 -> iget dev inum s = Ok ip s' -> ref_step (s, A) (s', (ip, (dev, inum)) :: A)
| rs_dup ip id s s' A :
    Z.of_nat (length A) < 2147483647 -> (ip, id) ∈ A -> idup ip s = Ok ip s' -> ref_step (s, A) (s', (ip, id) :: A)
| rs_put ip id x s s' A B :
    k_inodes s !! ip = Some x -> stays x -> iput ip s = Ok tt s' -> ref_step (s, A ++ (ip, id) :: B) (s', A ++ B)
| rs_data k f s A :
    (forall x, i_ref (f x) = i_ref x /\ ident (f x) = ident x) -> ref_step (s, A) (s <| k_inodes ::= alter f k |>, A).

Definition ref_inv {ci c p pr} (x : kstate * list (nat * (Z * Z))) : Prop :=
  kmode ci c p pr x.1 /\ table_ok x.2 (k_inodes x.1) /\
  (forall k, (k < NINODE)%nat -> sl_free (SLInode k) x.1) /\ Z.of_nat (length x.2) < 2147483648.

Lemma table_data A l k f :
  (forall x, i_ref (f x) = i_ref x /\ ident (f x) = ident x) -> table_ok A l -> table_ok A (alter f k l).
Proof.
  intros Hf [H1 H2 H3 H4].
  assert (Hl : forall j y, alter f k l !! j = Some y -> exists z, l !! j = Some z /\ i_ref y = i_ref z /\ ident y = ident z).
  { intros j y Hy. destruct (decide (j = k)) as [->|Hne].
    - rewrite list_lookup_alter_eq in Hy. apply fmap_Some in Hy as (z & Hz & ->). exists z. by destruct (Hf z).
    - rewrite list_lookup_alter_ne in Hy by done. by exists y. }
  split.
  - by rewrite length_alter.
  - intros j y Hy. destruct (Hl j y Hy) as (z & Hz & -> & _). by apply H2.
  - intros j m y z Hy Hz Hry Hrz E. destruct (Hl j y Hy) as (y' & Hy' & Ry & Ey), (Hl m z Hz) as (z' & Hz' & Rz & Ez).
    apply (H3 j m y' z'); congruence.
  - intros j id Hin. destruct (H4 j id Hin) as (y & Hy & Ey). destruct (decide (j = k)) as [->|Hne].
    + exists (f y). rewrite list_lookup_alter_eq, Hy. split; [done|]. by destruct (Hf y) as [_ ->].
    + exists y. by rewrite list_lookup_alter_ne.
Qed.

Lemma ref_inv_step {fl : Fuel} {dsk : Disk} {ci c p pr} x y :
  ref_step x y -> ref_inv (ci := ci) (c := c) (p := p) (pr := pr) x -> ref_inv (ci := ci) (c := c) (p := p) (pr := pr) y.
Proof.
  intros Hstep (Hk & Ht & Hs & HA).
  destruct Hstep as [dev inum ip s s' A Hlt Hok|ip id s s' A Hlt Hin Hok|ip id x s s' A B Hx Hst Hok|k f s A Hf];
    cbn [fst snd] in *.
  - destruct (iget_cases dev inum A s Hk Ht Hlt) as [(ip' & l & Hg & Ht' & _)|[Hg _]]; [|congruence].
    rewrite Hg in Hok. injection Hok as -> <-. split_and!; simpl; try done; [by apply (kmode_frame ci c p pr s)|lia].
  - destruct (idup_ok ip id A s Hk Ht Hlt Hin) as (l & Hg & Ht' & _).
    rewrite Hg in Hok. injection Hok as <-. split_and!; simpl; try done; [by apply (kmode_frame ci c p pr s)|lia].
  - pose proof (tb_refs _ _ Ht ip x Hx) as Hr. pose proof (holders_le ip (A ++ (ip, id) :: B)).
    assert (0 < holders ip (A ++ (ip, id) :: B))%nat by (eapply (holders_pos _ id); set_solver).
    assert (Hi : (ip < NINODE)%nat) by (rewrite <- (tb_len _ _ Ht); by eapply lookup_lt_Some).
    rewrite (iput_ok ip x s Hk Hi (Hs ip Hi) Hx Hst ltac:(lia)) in Hok. injection Hok as <-. split_and!; cbn [fst snd].
    + apply (kmode_frame ci c p pr s); [done|done|apply woken_wakeup].
    + by eapply table_less.
    + intros k Hk'. unfold sl_free, with_inodes. rsimpl. destruct (decide (k = ip)) as [->|Hne]; [by rewrite lookup_insert_eq|].
      rewrite lookup_insert_ne by congruence. by apply Hs.
    + rewrite !length_app in *. simpl in *. lia.
  - split_and!; simpl; try done; [by apply (kmode_frame ci c p pr s)|by apply table_data].
Qed.

(** ** Properties *)


