(* ===== verification/Fs.v ===== *)
(** * Files, directories and path names (fs.c, second half)

    The contents of inodes, directories and paths.  Buffers of the caller are the list
    of the bytes that are read, and the memory that is written from, as a function of
    the offset.  Device inodes go through the table [devsw]. *)

From stdpp Require Import gmap.
From S2P Require Import Prelude Outcome Kernel Spinlock Kalloc Proc Cprintf Sleeplock Bio Log Inode.

(** ** The switch table of devices *)
Definition NDEV : Z := 10.
Class Devsw : Type := {
  dev_read : Z -> option (nat -> Z -> K (Z * list Z));
  dev_write : Z -> option (nat -> (Z -> Z) -> Z -> K Z) }.

(** ** dirent *)
Definition DIRSIZ : nat := 14.
Definition sizeof_dirent : Z := 16.
Definition de_inum (de : list Z) : Z := nth 0 de 0 + 256 * nth 1 de 0.
Definition de_name (de : list Z) : list Z := drop 2 de.
Definition make_dirent (inum : Z) (name : list Z) : list Z :=
  u8 inum :: u8 (inum / 256) :: strncpy DIRSIZ name.

Definition put_bytes (off : nat) (bs : list Z) (l : list Z) : list Z :=
  take off l ++ bs ++ drop (off + length bs) l.

Section Files.
Context {fl : Fuel} {dsk : Disk} {dsw : Devsw}.

Fixpoint readi_loop (k : nat) (ip : nat) (off left : Z) : K (list Z) :=
  if left <=? 0 then ret [] else
  match k with
  | O => spin
  | S k =>
    x ← inode_get ip;
    addr ← bmap ip (off / BSIZE);
    bp ← bread (i_dev x) addr;
    let m := Z.min left (BSIZE - off mod BSIZE) in
    d ← buf_get bp;
    brelse bp;;
    bs ← readi_loop k ip (u32 (off + m)) (left - m);
    ret (take (Z.to_nat m) (drop (Z.to_nat (off mod BSIZE)) (b_data d)) ++ bs)
  end.

(** Each turn handles at least one byte. *)
Definition readi (ip : nat) (off n : Z) : K (Z * list Z) :=
  x ← inode_get ip;
  if i_type x =? T_DEV then
    if (i_major x <? 0) || (NDEV <=? i_major x) then ret (-1, []) else
    match dev_read (i_major x) with
    | None => ret (-1, [])
    | Some f => f ip (i32 n)
    end
  else if (i_size x <? off) || (u32 (off + n) <? off) then ret (-1, [])
  else
    let n := if i_size x <? u32 (off + n) then u32 (i_size x - off) else n in
    bs ← readi_loop (Z.to_nat n) ip off n;
    ret (i32 n, bs).

Fixpoint writei_loop (k : nat) (ip : nat) (src : Z -> Z) (tot off n : Z) : K Z :=
  if n <=? tot then ret off else
  match k with
  | O => spin
  | S k =>
    x ← inode_get ip;
    addr ← bmap ip (off / BSIZE);
    bp ← bread (i_dev x) addr;
    let m := Z.min (n - tot) (BSIZE - off mod BSIZE) in
    data_upd bp (put_bytes (Z.to_nat (off mod BSIZE)) (map src (zrange tot (tot + m))));;
    log_write bp;;
    brelse bp;;
    writei_loop k ip src (tot + m) (u32 (off + m)) n
  end.

Definition writei (ip : nat) (src : Z -> Z) (off n : Z) : K Z :=
  x ← inode_get ip;
  if i_type x =? T_DEV then
    if (i_major x <? 0) || (NDEV <=? i_major x) then ret (-1) else
    match dev_write (i_major x) with
    | None => ret (-1)
    | Some f => f ip src (i32 n)
    end
  else if (i_size x <? off) || (u32 (off + n) <? off) then ret (-1)
  else if MAXFILE * BSIZE <? u32 (off + n) then ret (-1)
  else
    off ← writei_loop (Z.to_nat n) ip src 0 off n;
    x ← inode_get ip;
    when ((0 <? n) && (i_size x <? off))
      (inode_upd ip (fun x => x <| i_size := off |>);;
       iupdate ip);;
    ret (i32 n).

Fixpoint changesize_loop (k : nat) (ip : nat) (off left : Z) : K unit :=
  if left <=? 0 then ret tt else
  match k with
  | O => spin
  | S k =>
    x ← inode_get ip;
    addr ← bmap ip (off / BSIZE);
    bp ← bread (i_dev x) addr;
    let m := Z.min left (BSIZE - off mod BSIZE) in
    data_upd bp (zero_bytes (Z.to_nat (off mod BSIZE)) (Z.to_nat m));;
    log_write bp;;
    brelse bp;;
    changesize_loop k ip (u32 (off + m)) (left - m)
  end.

Definition changesize (ip : nat) (size : Z) : K Z :=
  x ← inode_get ip;
  if negb (i_type x =? T_FILE) then ret (-1) else
  let n := if i_size x <? size then u32 (size - i_size x) else u32 (i_size x - size) in
  let off := if i_size x <? size then i_size x else size in
  changesize_loop (Z.to_nat n) ip off n;;
  inode_upd ip (fun x => x <| i_size := size |>);;
  iupdate ip;;
  ret (i32 size).

(** ** Directories *)

Definition namecmp (s t : list Z) : Z := strncmp DIRSIZ s t.

(** The inode, and the offset of its entry. *)
Fixpoint dirlookup_loop (k : nat) (dp : nat) (name : list Z) (off : Z) : K (option (nat * Z)) :=
  x ← inode_get dp;
  if i_size x <=? off then ret None else
  match k with
  | O => spin
  | S k =>
    ' (r, de) ← readi dp off sizeof_dirent;
    if negb (r =? sizeof_dirent) then panic "dirlookup read" else
    if negb (de_inum de =? 0) && (namecmp name (de_name de) =? 0) then
      x ← inode_get dp;
      ip ← iget (i_dev x) (de_inum de);
      ret (Some (ip, off))
    else dirlookup_loop k dp name (u32 (off + sizeof_dirent))
  end.

Definition dirlookup (dp : nat) (name : list Z) : K (option (nat * Z)) :=
  x ← inode_get dp;
  if negb (i_type x =? T_DIR) then panic "dirlookup not DIR" else
  dirlookup_loop (S (Z.to_nat (i_size x / sizeof_dirent))) dp name 0.

(** The offset of the first free entry, or of the end. *)
Fixpoint dirlink_loop (k : nat) (dp : nat) (off : Z) : K Z :=
  x ← inode_get dp;
  if i_size x <=? off then ret off else
  match k with
  | O => spin
  | S k =>
    ' (r, de) ← readi dp off sizeof_dirent;
    if negb (r =? sizeof_dirent) then panic "dirlink read" else
    if de_inum de =? 0 then ret off
    else dirlink_loop k dp (off + sizeof_dirent)
  end.

Definition dirlink (dp : nat) (name : list Z) (inum : Z) : K Z :=
  found ← dirlookup dp name;
  match found with
  | Some (ip, _) => iput ip;; ret (-1)
  | None =>
    x ← inode_get dp;
    off ← dirlink_loop (S (Z.to_nat (i_size x / sizeof_dirent))) dp 0;
    r ← writei dp (fun k => nth (Z.to_nat k) (make_dirent inum name) 0) off sizeof_dirent;
    if negb (r =? sizeof_dirent) then panic "dirlink" else ret 0
  end.

(** ** Paths *)

Definition slash : Z := 47.

(** [while ( *path == '/') path++;] *)
Fixpoint skip_slashes (path : list Z) : list Z :=
  match path with
  | c :: path' => if c =? slash then skip_slashes path' else path
  | [] => []
  end.
(** [while ( *path != '/' && *path != 0) path++;]: what it passes over, and the rest. *)
Fixpoint elem_span (path : list Z) : list Z * list Z :=
  match path with
  | c :: path' =>
    if (c =? slash) || (c =? 0) then ([], path)
    else let '(s, rest) := elem_span path' in (c :: s, rest)
  | [] => ([], [])
  end.

(** The rest of the path and the new contents of [name]. *)
Definition skipelem (path name : list Z) : option (list Z * list Z) :=
  let path := skip_slashes path in
  if hd 0 path =? 0 then None else
  let '(s, rest) := elem_span path in
  let name := if (DIRSIZ <=? length s)%nat then take DIRSIZ s
              else s ++ [0] ++ drop (length s + 1) name in
  Some (skip_slashes rest, name).

(** The inode, and the contents of [name] on return. *)
Fixpoint namex_loop (k : nat) (ip : nat) (path : list Z) (parent : bool) (name : list Z)
    : K (option nat * list Z) :=
  match skipelem path name with
  | None => if parent then iput ip;; ret (None, name) else ret (Some ip, name)
  | Some (path, name) =>
    match k with
    | O => spin
    | S k =>
      ilock (Some ip);;
      x ← inode_get ip;
      if negb (i_type x =? T_DIR) then iunlockput ip;; ret (None, name) else
      if parent && (hd 0 path =? 0) then iunlock (Some ip);; ret (Some ip, name) else
      next ← dirlookup ip name;
      match next with
      | None => iunlockput ip;; ret (None, name)
      | Some (next, _) => iunlockput ip;; namex_loop k next path parent name
      end
    end
  end.

(** Each element takes at least one character of the path. *)
Definition namex (path : list Z) (parent : bool) (name : list Z) : K (option nat * list Z) :=
  ip ← (if hd 0 path =? slash then iget ROOTDEV ROOTINO
        else mp ← myproc;
             mp ← deref mp;
             pr ← proc_get mp;
             cwd ← deref (p_cwd pr);
             idup cwd);
  namex_loop (length path) ip path parent name.

Definition namei (path : list Z) : K (option nat) :=
  r ← namex path false (replicate DIRSIZ 0);
  ret (fst r).

Definition nameiparent (path name : list Z) : K (option nat * list Z) := namex path true name.
End Files.
