(* ===== verification/Path.v ===== *)
(** * Path names (fs.c: skipelem)

    [skipelem] against a reference definition: the elements of a path are what is left
    of its pieces between slashes when the empty ones are dropped. *)

From stdpp Require Import gmap.
From S2P Require Import Prelude Outcome Kernel Fs.

Fixpoint pieces (l : list Z) : list (list Z) :=
  match l with
  | [] => [[]]
  | c :: l =>
    if c =? slash then [] :: pieces l
    else match pieces l with
         | [] => [[c]]
         | w :: ws => (c :: w) :: ws
         end
  end.

(** The elements of a path, a C string. *)
Definition elements (path : list Z) : list (list Z) := filter (fun w => w <> []) (pieces (cstr path)).

Lemma pieces_word w : slash ∉ w -> pieces w = [w].
Proof.
  induction w as [|c w IH]; intros Hw; [done|]. simpl. apply not_elem_of_cons in Hw as [Hc Hw].
  rewrite (proj2 (Z.eqb_neq _ _)), IH by congruence. done.
Qed.

Lemma pieces_word_slash w l : slash ∉ w -> pieces (w ++ slash :: l) = w :: pieces l.
Proof.
  induction w as [|c w IH]; intros Hw; [done|]. simpl. apply not_elem_of_cons in Hw as [Hc Hw].
  rewrite (proj2 (Z.eqb_neq _ _)), IH by congruence. done.
Qed.

Lemma elements_slash path : elements (slash :: path) = elements path.
Proof. done. Qed.

Lemma elements_end path : hd 0 path = 0 -> elements path = [].
Proof. destruct path as [|c path]; [done|]. simpl. intros ->. done. Qed.

Lemma skip_slashes_elements path : elements (skip_slashes path) = elements path.
Proof.
  induction path as [|c path IH]; [done|]. simpl. destruct (Z.eqb_spec c slash) as [->|]; [|done].
  by rewrite IH, elements_slash.
Qed.

Lemma skip_slashes_hd path : hd 0 (skip_slashes path) <> slash.
Proof. induction path as [|c path IH]; [done|]. simpl. by destruct (Z.eqb_spec c slash). Qed.

Lemma skip_slashes_length path : (length (skip_slashes path) <= length path)%nat.
Proof. induction path as [|c path IH]; [done|]. simpl. destruct (c =? slash); simpl; lia. Qed.

(** Where the scan of an element stops. *)
Definition stop (path : list Z) : Prop := hd 0 path = 0 \/ hd 0 path = slash.

Lemma elem_span_spec path s rest :
  elem_span path = (s, rest) -> path = s ++ rest /\ (slash ∉ s) /\ (0 ∉ s) /\ stop rest.
Proof.
  revert s rest. induction path as [|c path IH]; intros s rest; simpl.
  { intros [= <- <-]. split_and!; [done|set_solver|set_solver|by left]. }
  destruct ((c =? slash) || (c =? 0)) eqn:E.
  - intros [= <- <-]. apply orb_prop in E as [->%Z.eqb_eq| ->%Z.eqb_eq];
      (split_and!; [done|set_solver|set_solver|by (left + right)]).
  - apply orb_false_iff in E as [?%Z.eqb_neq ?%Z.eqb_neq]. destruct (elem_span path) as [s' rest'] eqn:Es.
    intros [= <- <-]. destruct (IH s' rest' eq_refl) as (-> & H1 & H2 & H3). split_and!; [done|set_solver|set_solver|done].
Qed.

Lemma cstr_app w l : 0 ∉ w -> cstr (w ++ l) = w ++ cstr l.
Proof.
  induction w as [|c w IH]; intros Hw; [done|]. simpl. apply not_elem_of_cons in Hw as [Hc Hw].
  rewrite (proj2 (Z.eqb_neq _ _)), IH by congruence. done.
Qed.

Lemma elements_word s rest :
  s <> [] -> slash ∉ s -> 0 ∉ s -> stop rest -> elements (s ++ rest) = s :: elements rest.
Proof.
  intros Hne Hs H0 Hstop. unfold elements. rewrite cstr_app by done.
  assert (Hc : cstr rest = [] \/ exists l, cstr rest = slash :: l).
  { destruct rest as [|c rest]; [by left|]. destruct Hstop as [E|E]; simpl in E; subst c; [by left|right].
    by eexists. }
  destruct Hc as [-> |[l ->]].
  - rewrite app_nil_r, pieces_word by done. by rewrite filter_cons_True.
  - rewrite pieces_word_slash by done. by rewrite filter_cons_True.
Qed.

(** The contents of [name] after an element has been copied, and what a reader of
    [name] sees. *)
Definition name_of (e name : list Z) : list Z :=
  if (DIRSIZ <=? length e)%nat then take DIRSIZ e else e ++ [0] ++ drop (length e + 1) name.

Lemma cstr_id w : 0 ∉ w -> cstr w = w.
Proof. intros H. rewrite <- (app_nil_r w) at 1. rewrite cstr_app by done. by rewrite app_nil_r. Qed.

Lemma name_of_string e name : 0 ∉ e -> cstr (name_of e name) = take DIRSIZ e.
Proof.
  intros He. unfold name_of. destruct (Nat.leb_spec DIRSIZ (length e)).
  - apply cstr_id. intros Hin. by apply He, (subseteq_take DIRSIZ).
  - rewrite cstr_app by done. simpl. rewrite app_nil_r, take_ge by lia. done.
Qed.

Lemma skipelem_ok path name :
  match elements path with
  | [] => skipelem path name = None
  | e :: es => exists rest,
      skipelem path name = Some (rest, name_of e name) /\ (0 ∉ e) /\
      elements rest = es /\ (length rest < length path)%nat /\
      hd 0 rest <> slash /\ (hd 0 rest = 0 <-> es = [])
  end.
Proof.
  rewrite <- skip_slashes_elements. unfold skipelem. pose proof (skip_slashes_hd path) as Hhd.
  pose proof (skip_slashes_length path) as Hlen. set (q := skip_slashes path) in *.
  destruct (Z.eqb_spec (hd 0 q) 0) as [E|Hne]; [by rewrite elements_end|].
  destruct (elem_span q) as [s rest] eqn:Es. destruct (elem_span_spec q s rest Es) as (Eq & H1 & H2 & H3).
  assert (Hs : s <> []).
  { intros ->. simpl in Eq. subst rest. by destruct H3. }
  assert (Ee : elements q = s :: elements rest) by (rewrite Eq; by apply elements_word). rewrite Ee. exists (skip_slashes rest). split_and!.
  - done.
  - done.
  - apply skip_slashes_elements.
  - pose proof (skip_slashes_length rest). rewrite Eq, length_app in Hlen. destruct s; [done|simpl in Hlen; lia].
  - apply skip_slashes_hd.
  - rewrite <- (skip_slashes_elements rest). pose proof (skip_slashes_hd rest) as Hr.
    destruct (skip_slashes rest) as [|c r]; [done|]. simpl in Hr |- *. split; [intros ->; by rewrite elements_end|].
    intros E. destruct (Z.eqb_spec c 0) as [->|Hc]; [done|]. exfalso. revert E. unfold elements. simpl.
    rewrite (proj2 (Z.eqb_neq _ _) Hc). simpl. rewrite (proj2 (Z.eqb_neq _ _) Hr).
    destruct (pieces (cstr r)); by rewrite filter_cons_True.
Qed.

(** ** Properties *)

(** [skipelem] steps through the elements of a path.  It fails exactly when there is
    none; otherwise it stores the first one, cut to [DIRSIZ] characters and terminated
    when it is shorter, and returns a shorter path with the remaining elements, without
    leading slashes, which is empty exactly when that was the last one. *)
Theorem skipelem_next_element path name :
  match elements path with
  | [] => skipelem path name = None
  | e :: es => exists rest name',
      skipelem path name = Some (rest, name') /\ cstr name' = take DIRSIZ e /\
      elements rest = es /\ (length rest < length path)%nat /\
      hd 0 rest <> slash /\ (hd 0 rest = 0 <-> es = [])
  end.
Proof.
  pose proof (skipelem_ok path name) as H. destruct (elements path) as [|e es]; [done|].
  destruct H as (rest & E & H0 & H). exists rest, (name_of e name). split; [done|]. split; [by apply name_of_string|done].
Qed.
