(* ===== verification/Console.v ===== *)
(** * Console input (console.c)

    Line editing, the command history and the two device operations.  The stream of
    characters that [getc] delivers is a list; after its end [getc] returns -1.  An
    access outside an array is a fault. *)

From stdpp Require Import gmap.
From S2P Require Import Prelude Outcome Kernel Spinlock Kalloc Proc Cprintf Info Sleeplock Bio Inode Fs.

(** [C(x)], Control-x *)
Definition Ctrl (x : Z) : Z := x - 64.
Definition ARROW_UP : Z := 65.
Definition ARROW_DOWN : Z := 66.
Definition newline : Z := 10.

Definition hist_upd (f : cmdhist -> cmdhist) : K unit := con_upd (fun cn => cn <| cn_hist ::= f |>).

(** [input.buf[i % INPUT_BUF]] *)
Definition in_char (cn : console) (i : Z) : Z := nth (Z.to_nat (i mod INPUT_BUF)) (in_buf cn) 0.

(** [input.buf[input.e++ % INPUT_BUF] = c] *)
Definition in_push (c : Z) : K unit :=
  con_upd (fun cn => cn <| in_buf ::= <[Z.to_nat (in_e cn mod INPUT_BUF) := u8 c]> |>
                        <| in_e ::= fun e => u32 (e + 1) |>).

(** [memmove(dst, input.buf + from, n)] into an array of [INPUT_BUF] bytes *)
Definition in_slice (from n : Z) : K (list Z) :=
  cn ← gets k_cons;
  if from + n <=? INPUT_BUF then ret (take (Z.to_nat n) (drop (Z.to_nat from) (in_buf cn))) else fault.

(** The bytes at the front of an array replaced. *)
Definition overlay (bs l : list Z) : list Z := bs ++ drop (length bs) l.

Definition consputs (s : list Z) : K unit :=
  foreach (cstr (take (Z.to_nat INPUT_BUF) s)) (fun c => in_push c;; consputc (i8 c)).

Fixpoint consclear_loop (n : nat) : K unit :=
  cn ← gets k_cons;
  if negb (in_e cn =? in_w cn) && negb (in_char cn (u32 (in_e cn - 1)) =? newline) then
    match n with
    | O => spin
    | S n =>
      con_upd (fun cn => cn <| in_e ::= fun e => u32 (e - 1) |>);;
      consputc BACKSPACE;;
      consclear_loop n
    end
  else ret tt.

(** At most as many turns as there are characters on the line. *)
Definition consclear : K unit :=
  cn ← gets k_cons;
  consclear_loop (Z.to_nat (u32 (in_e cn - in_w cn))).

(** ** The history *)

Definition get_suggestion (cmd : list Z) (cmd_size : Z) : K (option Z) :=
  h ← gets (fun s => cn_hist (k_cons s));
  let idx i := u32 (i + ch_last_used_idx h) mod HIST_SIZE in
  ret (find (fun j => strncmp (Z.to_nat cmd_size) cmd (nth (Z.to_nat j) (ch_cmd_buf h) []) =? 0)
            (map idx (zrange 0 HIST_SIZE))).

Definition suggest_cmd : K unit :=
  cn ← gets k_cons;
  when (ch_is_suggestion_used (cn_hist cn) =? 0)
    (let size := u32 (in_e cn - in_w cn) in
     hist_upd (fun h => h <| ch_original_cmd_size := size |>);;
     bs ← in_slice (in_w cn) size;
     hist_upd (fun h => h <| ch_original_cmd ::= overlay bs |>));;
  h ← gets (fun s => cn_hist (k_cons s));
  r ← get_suggestion (ch_original_cmd h) (ch_original_cmd_size h);
  match r with
  | Some j =>
    hist_upd (fun h => h <| ch_is_suggestion_used := 1 |> <| ch_last_used_idx := u32 (j + 1) |>);;
    consclear;;
    h ← gets (fun s => cn_hist (k_cons s));
    row ← deref (ch_cmd_buf h !! Z.to_nat j);
    consputs row
  | None => consputc 7
  end.

Definition push_current_hist : K unit :=
  cn ← gets k_cons;
  if u32 (in_e cn - in_w cn) =? 1 then ret tt else
  bs ← in_slice (in_w cn) (u32 (in_e cn - in_w cn - 1));
  let row := overlay bs (replicate (Z.to_nat INPUT_BUF) 0) in
  let q := ch_queue_idx (cn_hist cn) in
  if HIST_SIZE <=? q then fault else
  hist_upd (fun h =>
    let h := h <| ch_cmd_buf ::= <[Z.to_nat q := row]> |> <| ch_queue_idx := u32 (q + 1) mod HIST_SIZE |> in
    let h := h <| ch_last_arrow_idx := ch_queue_idx h |> <| ch_total_count ::= fun n => i32 (n + 1) |> in
    h <| ch_last_arrow_total := ch_total_count h |> <| ch_is_suggestion_used := 0 |>
      <| ch_last_used_idx := 0 |> <| ch_original_cmd := replicate (Z.to_nat INPUT_BUF) 0 |>).

(** The loop of [revstr], with its indices. *)
Fixpoint revstr_loop (n : nat) (i j : Z) (src : list Z) : list Z :=
  match n with
  | O => src
  | S n =>
    if i <? j then
      let tmp := nth (Z.to_nat i) src 0 in
      let src := <[Z.to_nat i := nth (Z.to_nat j) src 0]> src in
      revstr_loop n (i + 1) (j - 1) (<[Z.to_nat j := tmp]> src)
    else src
  end.
Definition revstr (src : list Z) (len : Z) : list Z := revstr_loop (Z.to_nat len) 0 (len - 1) src.

Definition revline : K unit :=
  cn ← gets k_cons;
  let n := u32 (in_e cn - in_w cn) in
  bs ← in_slice (in_w cn) n;
  if INPUT_BUF <=? n then fault else
  consclear;;
  consputs (revstr (bs ++ [0]) n).

Definition is_digit (c : Z) : bool := (48 <=? c) && (c <=? 57).

Definition remnums : K unit :=
  cn ← gets k_cons;
  let n := u32 (in_e cn - in_w cn) in
  let cmd := filter (fun c => is_digit c = false) (map (fun i => in_char cn (u32 (in_w cn + i))) (zrange 0 n)) in
  if INPUT_BUF <=? Z.of_nat (length cmd) then fault else
  consclear;;
  consputs (cmd ++ [0]).

Definition arrow_show : K unit :=
  consclear;;
  h ← gets (fun s => cn_hist (k_cons s));
  row ← deref (ch_cmd_buf h !! Z.to_nat (ch_last_arrow_idx h));
  consputs row.

Definition hist_up : K unit :=
  h ← gets (fun s => cn_hist (k_cons s));
  if (0 <? ch_last_arrow_total h) && (ch_total_count h - HIST_SIZE <? ch_last_arrow_total h) then
    hist_upd (fun h => h <| ch_last_arrow_total ::= fun n => n - 1 |>
                         <| ch_last_arrow_idx ::= fun i => u32 (i - 1 + HIST_SIZE) mod HIST_SIZE |>);;
    arrow_show
  else consputc 7.

Definition hist_down : K unit :=
  h ← gets (fun s => cn_hist (k_cons s));
  if ch_last_arrow_total h <? ch_total_count h then
    hist_upd (fun h => h <| ch_last_arrow_total ::= fun n => n + 1 |>
                         <| ch_last_arrow_idx ::= fun i => u32 (i + 1) mod HIST_SIZE |>);;
    arrow_show
  else consputc 7.

(** ** The interrupt handler *)

Definition getc (cs : list Z) : Z * list Z := match cs with [] => (-1, []) | c :: cs => (c, cs) end.

(** The [default] case. *)
Definition type_char (c : Z) : K unit :=
  cn ← gets k_cons;
  when (negb (c =? 0) && (u32 (in_e cn - in_r cn) <? INPUT_BUF))
    (let c := if c =? 13 then newline else c in
     in_push c;;
     consputc c;;
     cn ← gets k_cons;
     when ((c =? newline) || (c =? Ctrl 68) || (in_e cn =? u32 (in_r cn + INPUT_BUF)))
       (push_current_hist;;
        con_upd (fun cn => cn <| in_w := in_e cn |>);;
        wakeup CInput)).

(** An escape sequence: the characters left, and the one that falls through to
    [default], if any. *)
Definition escape (cs : list Z) : K (list Z * option Z) :=
  let '(c, cs) := getc cs in
  if c =? 91 then
    let '(c, cs) := getc cs in
    if c =? ARROW_UP then hist_up;; ret (cs, None)
    else if c =? ARROW_DOWN then hist_down;; ret (cs, None)
    else in_push 27;; consputc 27;; in_push 91;; consputc 91;; ret (cs, Some c)
  else in_push 27;; consputc 27;; ret (cs, Some c).

(** Whether [procdump] was asked for.  Each turn takes at least one character. *)
Fixpoint consoleintr_loop (n : nat) (cs : list Z) (dump : bool) : K bool :=
  match n, cs with
  | _, [] => ret dump
  | O, _ => spin
  | S n, c :: cs =>
    if c <? 0 then ret dump
    else if c =? Ctrl 80 then consoleintr_loop n cs true
    else if c =? Ctrl 85 then consclear;; consoleintr_loop n cs dump
    else if (c =? Ctrl 72) || (c =? 127) then
      cn ← gets k_cons;
      when (negb (in_e cn =? in_w cn))
        (con_upd (fun cn => cn <| in_e ::= fun e => u32 (e - 1) |>);;
         consputc BACKSPACE;;
         hist_upd (fun h => h <| ch_is_suggestion_used := 0 |>));;
      consoleintr_loop n cs dump
    else if c =? Ctrl 82 then revline;; consoleintr_loop n cs dump
    else if c =? Ctrl 78 then remnums;; consoleintr_loop n cs dump
    else if c =? 9 then suggest_cmd;; consoleintr_loop n cs dump
    else if c =? 27 then
      ' (cs, fall) ← escape cs;
      (match fall with Some c => type_char c | None => ret tt end);;
      consoleintr_loop n cs dump
    else type_char c;; consoleintr_loop n cs dump
  end.

Definition consoleintr (cs : list Z) : K unit :=
  acquire LCons;;
  dump ← consoleintr_loop (length cs) cs false;
  release LCons;;
  when dump procdump.

(** ** The device operations *)

Section Device.
Context {fl : Fuel} {dsk : Disk}.

(** The wait for input: [false] is the return on a kill. *)
Fixpoint input_wait (n : nat) (ip : nat) : K bool :=
  cn ← gets k_cons;
  if in_r cn =? in_w cn then
    mp ← myproc;
    mp ← deref mp;
    pr ← proc_get mp;
    if negb (p_killed pr =? 0) then release LCons;; ilock (Some ip);; ret false
    else match n with
         | O => spin
         | S n => sleep CInput LCons;; input_wait n ip
         end
  else ret true.

(** The loop of [consoleread] for [n] more bytes of [target]: [None] is the return on
    a kill. *)
Fixpoint consoleread_loop (n : nat) (ip : nat) (first : bool) : K (option (list Z)) :=
  match n with
  | O => ret (Some [])
  | S n =>
    ok ← input_wait fuel ip;
    if negb ok then ret None else
    cn ← gets k_cons;
    let c := i8 (in_char cn (in_r cn)) in
    con_upd (fun cn => cn <| in_r ::= fun r => u32 (r + 1) |>);;
    if c =? Ctrl 68 then
      when (negb first) (con_upd (fun cn => cn <| in_r ::= fun r => u32 (r - 1) |>));;
      ret (Some [])
    else if c =? newline then ret (Some [u8 c])
    else
      rest ← consoleread_loop n ip false;
      ret (match rest with Some bs => Some (u8 c :: bs) | None => None end)
  end.

Definition consoleread (ip : nat) (n : Z) : K (Z * list Z) :=
  iunlock (Some ip);;
  acquire LCons;;
  r ← consoleread_loop (Z.to_nat n) ip true;
  match r with
  | None => ret (-1, [])
  | Some bs =>
    release LCons;;
    ilock (Some ip);;
    ret (Z.of_nat (length bs), bs)
  end.

Definition consolewrite (ip : nat) (buf : Z -> Z) (n : Z) : K Z :=
  iunlock (Some ip);;
  acquire LCons;;
  foreach (map buf (zrange 0 n)) (fun c => consputc (Z.land c 255));;
  release LCons;;
  ilock (Some ip);;
  ret n.

(** The entries of [devsw] that [consoleinit] sets. *)
Definition CONSOLE : Z := 1.
#[export] Instance console_devsw : Devsw := {|
  dev_read := fun major => if major =? CONSOLE then Some consoleread else None;
  dev_write := fun major => if major =? CONSOLE then Some consolewrite else None |}.
End Device.
