(* ===== verification/Line.v ===== *)
(** * The line discipline (console.c)

    The circular buffer of console.c stands for two sequences: the bytes that are ready
    to be read, and the line that is being edited.  The interrupt handler and
    [consoleread] refine the corresponding operations on the two sequences, whatever
    the value of the free-running indices. *)

From stdpp Require Import gmap.
From S2P Require Import Prelude Outcome Kernel Spinlock Kalloc Proc Cprintf Info Sleeplock Bio Inode Icache Fs Console.

Definition is_byte (c : Z) : Prop := 0 <= c < 256.
Definition plain (c : Z) : Prop := 32 <= c <= 126.

(** ** The two sequences *)

Record rep (cn : console) (q l : list Z) : Prop := {
  rep_ok : con_ok cn;
  rep_buf : length (in_buf cn) = 128%nat;
  rep_r : 0 <= in_r cn < 4294967296;
  rep_w : in_w cn = u32 (in_r cn + Z.of_nat (length q));
  rep_e : in_e cn = u32 (in_r cn + Z.of_nat (length (q ++ l)));
  rep_room : (length (q ++ l) <= 128)%nat;
  rep_bytes : Forall is_byte (q ++ l);
  rep_at : forall k x, (q ++ l) !! k = Some x -> in_char cn (in_r cn + Z.of_nat k) = x;
  rep_hist : 0 <= ch_queue_idx (cn_hist cn) < HIST_SIZE }.

Lemma u32_mod_buf z : u32 z mod INPUT_BUF = z mod INPUT_BUF.
Proof. unfold u32, INPUT_BUF. Z.div_mod_to_equations. lia. Qed.

Lemma in_char_u32 cn i : in_char cn (u32 i) = in_char cn i.
Proof. unfold in_char. by rewrite u32_mod_buf. Qed.

(** Indices less than a turn of the buffer apart do not collide. *)
Lemma slot_ne r (i j : nat) :
  i <> j -> (i < 128)%nat -> (j < 128)%nat ->
  Z.to_nat ((r + Z.of_nat i) mod INPUT_BUF) <> Z.to_nat ((r + Z.of_nat j) mod INPUT_BUF).
Proof. unfold INPUT_BUF. intros ???. Z.div_mod_to_equations. lia. Qed.

Lemma slot_lt i : (Z.to_nat (i mod INPUT_BUF) < 128)%nat.
Proof. unfold INPUT_BUF. Z.div_mod_to_equations. lia. Qed.

Lemma rep_size cn q l : rep cn q l -> u32 (in_e cn - in_w cn) = Z.of_nat (length l).
Proof.
  intros []. rewrite rep_e0, rep_w0, u32_sub, length_app in *. rewrite u32_id; lia.
Qed.

Lemma rep_used cn q l : rep cn q l -> u32 (in_e cn - in_r cn) = Z.of_nat (length (q ++ l)).
Proof.
  intros []. rewrite rep_e0, u32_sub_l, u32_id; lia.
Qed.

Lemma rep_empty cn q l : rep cn q l -> (in_e cn =? in_w cn) = bool_decide (l = []).
Proof.
  intros Hr. pose proof (rep_size _ _ _ Hr) as Hs. destruct l as [|c l].
  - rewrite bool_decide_eq_true_2 by done. apply Z.eqb_eq. destruct Hr. by rewrite rep_e0, rep_w0, app_nil_r.
  - rewrite bool_decide_eq_false_2 by done. apply Z.eqb_neq. intros E. rewrite E, Z.sub_diag in Hs. done.
Qed.

(** What the sequences stand for does not depend on the display. *)
Lemma emit_input c cn :
  in_buf (emit c cn) = in_buf cn /\ in_r (emit c cn) = in_r cn /\ in_w (emit c cn) = in_w cn /\
  in_e (emit c cn) = in_e cn /\ cn_hist (emit c cn) = cn_hist cn.
Proof. unfold emit. destruct (cga_advance _ _ _) as [pos crt]. by destruct (24 <=? pos / 80). Qed.

Lemma rep_emit c cn q l : rep cn q l -> rep (emit c cn) q l.
Proof.
  intros []. destruct (emit_input c cn) as (Eb & Er & Ew & Ee & Eh).
  constructor; rewrite ?Eb, ?Er, ?Ew, ?Ee, ?Eh; try done; [by apply con_ok_emit|].
  intros k x Hk. unfold in_char. rewrite Eb. by apply rep_at0.
Qed.

Lemma rep_hist_upd f cn q l :
  0 <= ch_queue_idx (f (cn_hist cn)) < HIST_SIZE -> rep cn q l -> rep (cn <| cn_hist ::= f |>) q l.
Proof. intros Hf []. by constructor. Qed.

(** ** Moving the edit index *)

Definition pushed_char (c : Z) (cn : console) : console :=
  cn <| in_buf ::= <[Z.to_nat (in_e cn mod INPUT_BUF) := u8 c]> |> <| in_e ::= fun e => u32 (e + 1) |>.

Definition popped_char (cn : console) : console := cn <| in_e ::= fun e => u32 (e - 1) |>.

Lemma rep_push c cn q l :
  rep cn q l -> is_byte c -> (length (q ++ l) < 128)%nat -> rep (pushed_char c cn) q (l ++ [c]).
Proof.
  intros [] Hc Hroom. unfold is_byte in Hc. unfold pushed_char. constructor; rsimpl; rewrite ?app_assoc; try done.
  - by rewrite length_insert.
  - rewrite rep_e0, u32_add_l, (length_app _ [c]). simpl. f_equal. lia.
  - rewrite length_app. simpl. lia.
  - apply Forall_app. split; [done|]. by constructor.
  - intros k x Hk. unfold in_char. rsimpl. rewrite rep_e0, u32_mod_buf.
    destruct (decide (k = length (q ++ l))) as [->|Hne].
    + rewrite list_lookup_middle in Hk by done. injection Hk as <-.
      rewrite nth_lookup, list_lookup_insert_eq by (rewrite rep_buf0; apply slot_lt). simpl.
      by apply Z.mod_small.
    + assert (k < length (q ++ l))%nat
        by (apply lookup_lt_Some in Hk; rewrite length_app in Hk; simpl in Hk; lia).
      rewrite lookup_app_l in Hk by done. rewrite nth_lookup, list_lookup_insert_ne, <- nth_lookup.
      * by apply rep_at0.
      * apply slot_ne; lia.
Qed.

Lemma rep_pop c cn q l : rep cn q (l ++ [c]) -> rep (popped_char cn) q l.
Proof.
  intros []. rewrite app_assoc, ?length_app in *. simpl in *. unfold popped_char.
  constructor; rsimpl; rewrite ?length_app; try done.
  - rewrite rep_e0, u32_sub_l. f_equal. lia.
  - lia.
  - by apply Forall_app in rep_bytes0 as [? _].
  - intros k x Hk. apply rep_at0. by apply lookup_app_l_Some.
Qed.

(** The last character of the line. *)
Lemma rep_last c cn q l : rep cn q (l ++ [c]) -> in_char cn (u32 (in_e cn - 1)) = c.
Proof.
  intros []. rewrite rep_e0, u32_sub_l, in_char_u32.
  replace (in_r cn + _ - 1) with (in_r cn + Z.of_nat (length (q ++ l)))
    by (rewrite !length_app; simpl; lia).
  apply rep_at0. rewrite app_assoc. by apply list_lookup_middle.
Qed.

(** ** The editing operations *)

Definition cons_is (cn : console) (s : kstate) : kstate := s <| k_cons := cn |>.

(** An operation that changes the line, and of the rest only the display and what the
    history remembers of the current line. *)
Definition does (m : K unit) (s : kstate) (q l : list Z) : Prop :=
  exists cn, m s = Ok tt (cons_is cn s) /\ rep cn q l /\ in_w cn = in_w (k_cons s).

Lemma does_bind m k s q l1 l2 :
  does m s q l1 ->
  (forall cn, rep cn q l1 -> in_w cn = in_w (k_cons s) -> does k (cons_is cn s) q l2) ->
  does (m;; k) s q l2.
Proof.
  intros (cn & Hm & Hr & Hw) Hk. destruct (Hk cn Hr Hw) as (cn' & Hk' & Hr' & Hw').
  exists cn'. split; [|split; [done|]].
  - mstep with Hm. exact Hk'.
  - exact (eq_trans Hw' Hw).
Qed.

Lemma does_nothing s q l : rep (k_cons s) q l -> does (ret tt) s q l.
Proof. intros Hr. exists (k_cons s). split; [by destruct s|done]. Qed.

Lemma does_con_upd f s q l :
  rep (f (k_cons s)) q l -> in_w (f (k_cons s)) = in_w (k_cons s) -> does (con_upd f) s q l.
Proof. intros Hr Hw. by exists (f (k_cons s)). Qed.

Lemma does_consputc c s q l : rep (k_cons s) q l -> does (consputc c) s q l.
Proof.
  intros Hr. exists (emit c (k_cons s)). split; [|split].
  - by rewrite consputc_ok by apply Hr.
  - by apply rep_emit.
  - apply emit_input.
Qed.

(** A character typed. *)
Lemma does_put c d s q l :
  rep (k_cons s) q l -> is_byte c -> (length (q ++ l) < 128)%nat ->
  does (in_push c;; consputc d) s q (l ++ [c]).
Proof.
  intros Hr Hc Hroom. apply (does_bind _ _ _ _ (l ++ [c])).
  - apply does_con_upd; [|done]. by apply rep_push.
  - intros cn Hcn _. by apply does_consputc.
Qed.

(** A character erased. *)
Lemma does_erase s q l c :
  rep (k_cons s) q (l ++ [c]) ->
  does (con_upd (fun cn => cn <| in_e ::= fun e => u32 (e - 1) |>);; consputc BACKSPACE) s q l.
Proof.
  intros Hr. apply (does_bind _ _ _ _ l).
  - apply does_con_upd; [|done]. by apply (rep_pop c).
  - intros cn Hcn _. by apply does_consputc.
Qed.

Lemma does_bind2 (m1 m2 k : K unit) s q l1 l2 :
  does (m1;; m2) s q l1 ->
  (forall cn, rep cn q l1 -> in_w cn = in_w (k_cons s) -> does k (cons_is cn s) q l2) ->
  does (m1;; m2;; k) s q l2.
Proof.
  intros (cn & Hm & Hr & Hw) Hk. destruct (Hk cn Hr Hw) as (cn' & Hk' & Hr' & Hw').
  exists cn'. split; [|split; [done|]].
  - rewrite (bind_seq_ok _ _ _ _ _ _ Hm). exact Hk'.
  - exact (eq_trans Hw' Hw).
Qed.

Lemma consclear_loop_ok q l s n :
  rep (k_cons s) q l -> Forall plain l -> (length l <= n)%nat -> does (consclear_loop n) s q [].
Proof.
  revert s n. induction l as [|c l IH] using rev_ind; intros s n Hr Hp Hn.
  - exists (k_cons s). split; [|done]. destruct n; simpl; mstep;
      rewrite (rep_empty _ _ _ Hr), bool_decide_eq_true_2 by done; by destruct s.
  - apply Forall_app in Hp as [Hp Hc]. inversion_clear Hc as [|? ? Hc' _]. rewrite length_app in Hn.
    destruct n as [|n]; [simpl in Hn; lia|]. simpl in Hn.
    destruct (does_bind2 _ _ (consclear_loop n) s q l [] (does_erase s q l c Hr)) as (cn & Hm & Hcn).
    { intros cn Hcn _. apply IH; [done|done|lia]. }
    exists cn. split; [|done]. simpl. mstep.
    rewrite (rep_empty _ _ _ Hr), (rep_last _ _ _ _ Hr), bool_decide_eq_false_2 by (by destruct l).
    rewrite (proj2 (Z.eqb_neq c newline)) by (unfold plain, newline in *; lia). exact Hm.
Qed.

(** [consclear] empties the line. *)
Lemma consclear_ok q l s : rep (k_cons s) q l -> Forall plain l -> does consclear s q [].
Proof.
  intros Hr Hp. destruct (consclear_loop_ok q l s (length l) Hr Hp) as (cn & Hm & Hcn); [done|].
  exists cn. split; [|done]. unfold consclear. mstep. by rewrite (rep_size _ _ _ Hr), Nat2Z.id.
Qed.

Lemma cstr_app_0 l r : Forall plain l -> cstr (l ++ 0 :: r) = l.
Proof.
  induction 1 as [|c l Hc _ IH]; [done|]. simpl.
  rewrite (proj2 (Z.eqb_neq c 0)), IH by (unfold plain in Hc; lia). done.
Qed.

Lemma plain_byte c : plain c -> is_byte c.
Proof. unfold plain, is_byte. lia. Qed.

(** [consputs] appends a string to the line. *)
Lemma consputs_ok bs r q l s :
  rep (k_cons s) q l -> Forall plain bs -> (length (q ++ l) + length bs <= 128)%nat ->
  (length bs < 128)%nat -> does (consputs (bs ++ 0 :: r)) s q (l ++ bs).
Proof.
  intros Hr Hp Hroom Hbs. unfold consputs. change (Z.to_nat INPUT_BUF) with 128%nat.
  rewrite take_app, take_ge by lia. destruct (128 - length bs)%nat as [|k] eqn:E; [lia|].
  simpl. rewrite cstr_app_0 by done. clear E Hbs k r.
  revert s l Hr Hroom. induction Hp as [|c bs Hc Hp IH]; intros s l Hr Hroom; simpl.
  - rewrite app_nil_r. by apply does_nothing.
  - simpl in Hroom. apply (does_bind _ _ _ _ (l ++ [c])).
    + apply does_put; [done|by apply plain_byte|lia].
    + intros cn Hcn _. replace (l ++ c :: bs) with ((l ++ [c]) ++ bs) by (by rewrite <- app_assoc).
      apply IH; [done|]. rewrite !length_app in *. simpl. lia.
Qed.

(** ** Reversing in place *)

Lemma revstr_loop_ok n a m z :
  (length m <= 2 * n + 1)%nat ->
  revstr_loop n (Z.of_nat (length a)) (Z.of_nat (length a + length m) - 1) (a ++ m ++ z) = a ++ rev m ++ z.
Proof.
  revert a m z. induction n as [|n IH]; intros a m z Hn.
  - by destruct m as [|x [|y m]]; [| |simpl in Hn; lia].
  - destruct m as [|x m]; [|destruct m as [|y m _] using rev_ind]; cbn [revstr_loop].
    + rewrite (proj2 (Z.ltb_ge _ _)) by (simpl; lia). done.
    + rewrite (proj2 (Z.ltb_ge _ _)) by (simpl; lia). done.
    + cbn [length] in *. rewrite length_app in *. cbn [length] in *.
      rewrite (proj2 (Z.ltb_lt _ _)) by lia. rewrite Nat2Z.id.
      replace (Z.to_nat _) with (length (a ++ x :: m)) by (rewrite length_app; simpl; lia).
      replace (a ++ (x :: m ++ [y]) ++ z) with ((a ++ x :: m) ++ y :: z)
        by (simpl; by rewrite <- !app_assoc).
      rewrite (nth_lookup _ (length (a ++ x :: m))), list_lookup_middle by done.
      rewrite <- app_assoc. simpl. rewrite nth_lookup, list_lookup_middle by done. simpl.
      rewrite insert_app_r_alt, Nat.sub_diag by lia. simpl.
      replace (a ++ y :: m ++ y :: z) with ((a ++ y :: m) ++ y :: z) by (by rewrite <- app_assoc).
      rewrite insert_app_r_alt by (rewrite !length_app; simpl; lia).
      replace (_ - _)%nat with 0%nat by (rewrite !length_app; simpl; lia). simpl.
      specialize (IH (a ++ [y]) m (x :: z)). rewrite length_app in IH. simpl in IH.
      rewrite rev_app_distr. simpl. rewrite <- !app_assoc in *. simpl in *. rewrite <- IH by lia. f_equal; lia.
Qed.

(** The first [n] characters of an array, reversed. *)
Lemma revstr_rev l z : revstr (l ++ z) (Z.of_nat (length l)) = rev l ++ z.
Proof. unfold revstr. rewrite Nat2Z.id. apply (revstr_loop_ok (length l) [] l z). lia. Qed.

(** ** The line as it lies in the buffer *)

(** Short of the end of the array the line is contiguous. *)
Lemma in_slice_ok s q l t :
  rep (k_cons s) q (l ++ t) -> in_w (k_cons s) + Z.of_nat (length l) <= INPUT_BUF ->
  in_slice (in_w (k_cons s)) (Z.of_nat (length l)) s = Ok l s.
Proof.
  intros Hr Hw. unfold in_slice. mstep. rewrite (proj2 (Z.leb_le _ _)) by done. unfold ret. f_equal.
  pose proof (rep_w _ _ _ Hr) as Ew. pose proof (u32_range (in_r (k_cons s) + Z.of_nat (length q))) as Hu.
  rewrite <- Ew in Hu. unfold INPUT_BUF in Hw. pose proof (rep_buf _ _ _ Hr) as Hb.
  rewrite Nat2Z.id. apply (list_eq_same_length _ _ (length l)); [done| |].
  { rewrite length_take, length_drop, Hb. lia. }
  intros k x y Hk Hx Hy. rewrite lookup_take_lt, lookup_drop in Hx by done.
  assert (Hat : (q ++ l ++ t) !! (length q + k)%nat = Some y)
    by (rewrite lookup_app_r by lia; replace (length q + k - length q)%nat with k by lia;
        by apply lookup_app_l_Some).
  apply (rep_at _ _ _ Hr) in Hat. unfold in_char in Hat. rewrite <- Hat.
  replace (in_r (k_cons s) + Z.of_nat (length q + k))
    with (in_r (k_cons s) + Z.of_nat (length q) + Z.of_nat k) by lia.
  rewrite <- Zplus_mod_idemp_l, <- (u32_mod_buf (_ + Z.of_nat (length q))), <- Ew, Zplus_mod_idemp_l.
  unfold INPUT_BUF. rewrite Z.mod_small by lia. rewrite nth_lookup.
  replace (Z.to_nat _) with (Z.to_nat (in_w (k_cons s)) + k)%nat by lia. by rewrite Hx.
Qed.

(** The characters of the line, one by one. *)
Lemma line_chars cn q l :
  rep cn q l -> map (fun i => in_char cn (u32 (in_w cn + i))) (zrange 0 (Z.of_nat (length l))) = l.
Proof.
  intros Hr. apply list_eq. intros k. unfold zrange. rewrite Z.sub_0_r, Nat2Z.id.
  change (@map Z Z) with (@fmap list _ Z Z). change (@map nat Z) with (@fmap list _ nat Z).
  rewrite !list_lookup_fmap. destruct (l !! k) as [x|] eqn:Hk.
  - rewrite lookup_seq_lt by (by eapply lookup_lt_Some). simpl. f_equal.
    rewrite in_char_u32, (rep_w _ _ _ Hr), <- in_char_u32, u32_add_l, in_char_u32.
    assert (Hat : (q ++ l) !! (length q + k)%nat = Some x)
      by (rewrite lookup_app_r by lia; by replace (length q + k - length q)%nat with k by lia).
    rewrite <- (rep_at _ _ _ Hr _ _ Hat). f_equal. lia.
  - rewrite lookup_seq_ge; [done|]. by apply lookup_ge_None.
Qed.

(** ** The abstract editor *)

Definition is_newline (c : Z) : bool := (c =? 10) || (c =? 13).
Definition is_erase (c : Z) : bool := (c =? Ctrl 72) || (c =? 127).

(** The effect of a key on the bytes that are ready and the line. *)
Definition feed (ql : list Z * list Z) (c : Z) : list Z * list Z :=
  let '(q, l) := ql in
  if c =? 0 then (q, l)
  else if c =? Ctrl 85 then (q, [])
  else if is_erase c then (q, removelast l)
  else if c =? Ctrl 82 then (q, rev l)
  else if c =? Ctrl 78 then (q, filter (fun c => is_digit c = false) l)
  else if is_newline c then (q ++ l ++ [newline], [])
  else (q, l ++ [c]).

(** The keys of the editor: the printable characters, the ends of a line and the
    control characters that work on the line alone; 0 is a key without character. *)
Definition key (c : Z) : bool :=
  (c =? 0) || ((32 <=? c) && (c <=? 127)) || is_newline c || bool_decide (c ∈ [Ctrl 85; Ctrl 72; Ctrl 82; Ctrl 78]).

Lemma revline_ok q l s :
  rep (k_cons s) q l -> Forall plain l -> in_w (k_cons s) + Z.of_nat (length l) <= INPUT_BUF ->
  (length l < 128)%nat -> does revline s q (rev l).
Proof.
  intros Hr Hp Hw Hl. destruct (does_bind consclear (consputs (rev l ++ [0])) s q [] (rev l)) as (cn & Hm & Hcn).
  - by apply (consclear_ok q l).
  - intros cn Hcn _. apply (consputs_ok (rev l) [] q []); [done|by apply Forall_rev| |by rewrite length_rev].
    destruct Hr. rewrite !length_app, length_rev in *. simpl. lia.
  - exists cn. split; [|done]. unfold revline. mstep. rewrite (rep_size _ _ _ Hr).
    mstep with (in_slice_ok s q l [] ltac:(by rewrite app_nil_r) Hw).
    rewrite (proj2 (Z.leb_gt _ _)) by (unfold INPUT_BUF; lia). by rewrite revstr_rev.
Qed.

Lemma plain_filter l : Forall plain l -> Forall plain (filter (fun c => is_digit c = false) l).
Proof.
  rewrite !Forall_forall. intros H c Hc. apply list_elem_of_filter in Hc as [_ Hc]. by apply H.
Qed.

Lemma remnums_ok q l s :
  rep (k_cons s) q l -> Forall plain l -> (length l < 128)%nat ->
  does remnums s q (filter (fun c => is_digit c = false) l).
Proof.
  intros Hr Hp Hl. set (l' := filter _ l). assert (length l' <= length l)%nat by apply length_filter.
  destruct (does_bind consclear (consputs (l' ++ [0])) s q [] l') as (cn & Hm & Hcn).
  - by apply (consclear_ok q l).
  - intros cn Hcn _. apply (consputs_ok l' [] q []); [done|by apply plain_filter| |lia].
    destruct Hr. rewrite !length_app in *. simpl. lia.
  - exists cn. split; [|done]. unfold remnums. mstep. rewrite (rep_size _ _ _ Hr), (line_chars _ _ _ Hr).
    fold l'. rewrite (proj2 (Z.leb_gt _ _)) by (unfold INPUT_BUF; lia). done.
Qed.

Lemma type_plain_ok c q l s :
  rep (k_cons s) q l -> plain c -> (S (length (q ++ l)) < 128)%nat -> does (type_char c) s q (l ++ [c]).
Proof.
  intros Hr Hc Hroom. unfold plain in Hc.
  destruct (does_put c c s q l Hr) as (cn & Hm & Hcn & Hw); [by apply plain_byte|lia|].
  exists cn. split; [|done]. unfold type_char. mstep. rewrite (rep_used _ _ _ Hr).
  rewrite (proj2 (Z.eqb_neq c 0)), (proj2 (Z.eqb_neq c 13)), (proj2 (Z.ltb_lt _ _)) by (unfold INPUT_BUF; lia).
  simpl. rewrite (bind_seq_ok _ _ _ _ _ _ Hm). mstep.
  rewrite (proj2 (Z.eqb_neq c newline)), (proj2 (Z.eqb_neq c (Ctrl 68))) by (unfold newline, Ctrl; lia). simpl.
  rewrite (proj2 (Z.eqb_neq _ _)); [done|]. intros E. pose proof (rep_used _ _ _ Hcn) as Hu.
  change (in_e cn = u32 (in_r cn + INPUT_BUF)) in E.
  rewrite E, u32_sub_l, u32_id, app_assoc, length_app in Hu by (unfold INPUT_BUF; lia).
  unfold INPUT_BUF in Hu. simpl in Hu. lia.
Qed.

Lemma push_hist_ok q l c s :
  rep (k_cons s) q (l ++ [c]) -> in_w (k_cons s) + Z.of_nat (length l) <= INPUT_BUF ->
  does push_current_hist s q (l ++ [c]).
Proof.
  intros Hr Hw. unfold does, push_current_hist. pose proof (rep_size _ _ _ Hr) as Hs.
  rewrite length_app in Hs. simpl in Hs. destruct (Z.eqb_spec (u32 (in_e (k_cons s) - in_w (k_cons s))) 1) as [E|E].
  - exists (k_cons s). split; [|done]. mstep. rewrite (proj2 (Z.eqb_eq _ _) E). by destruct s.
  - eexists. split.
    + mstep. rewrite (proj2 (Z.eqb_neq _ _) E).
      replace (u32 _) with (Z.of_nat (length l))
        by (rewrite <- u32_sub_l, Hs, u32_id; destruct Hr; rewrite ?length_app in *; simpl in *; lia).
      mstep with (in_slice_ok s q l [c] Hr Hw). pose proof (rep_hist _ _ _ Hr).
      rewrite (proj2 (Z.leb_gt _ _)) by lia. reflexivity.
    + split; [|done]. apply rep_hist_upd; [|done]. rsimpl. apply Z.mod_pos_bound. done.
Qed.

(** The end of a line makes it ready. *)
Lemma rep_commit cn q l : rep cn q l -> rep (cn <| in_w := in_e cn |>) (q ++ l) [].
Proof. intros []. by constructor; rsimpl; rewrite ?app_nil_r. Qed.

(** The processes when the keys [cs] have been handled: the readers are woken by the end
    of a line. *)
Definition wakes (cs : list Z) (ps : list proc) : list proc :=
  if existsb is_newline cs then map (wake_one (Some CInput)) ps else ps.

Lemma wakes_cons c cs ps : wakes (c :: cs) ps = wakes cs (wakes [c] ps).
Proof.
  unfold wakes. simpl. rewrite orb_false_r. destruct (is_newline c), (existsb is_newline cs); try done.
  simpl. rewrite map_map. apply map_ext. intros p. symmetry. apply wake_one_idem.
Qed.

Section Handler.
Context (i : nat) (c : cpu).

(** Console input is handled with the console lock held. *)
Record handling (s : kstate) : Prop := {
  hd_cpu : CpuOk i c (k_hw s);
  hd_nested : 0 < c_ncli c;
  hd_ptable : free LPtable (k_hw s) }.

Lemma type_newline_ok k q l s :
  handling s -> is_newline k = true -> rep (k_cons s) q l -> (length (q ++ l) < 128)%nat ->
  in_w (k_cons s) + Z.of_nat (length l) < INPUT_BUF ->
  exists cn, type_char k s = Ok tt (cons_is cn s <| k_procs ::= wakes [k] |>) /\
    rep cn (q ++ l ++ [newline]) [] /\ in_w cn = in_w (k_cons s) + Z.of_nat (length l) + 1.
Proof.
  intros [] Hk Hr Hroom Hw. pose proof (rep_used _ _ _ Hr) as Hu.
  destruct (does_put newline newline s q l Hr) as (cn & Hm & Hcn & Ew); [done|done|].
  destruct (push_hist_ok q l newline (cons_is cn s) Hcn) as (cn' & Hm' & Hcn' & Ew').
  { change (in_w cn + Z.of_nat (length l) <= INPUT_BUF). lia. }
  change (in_w cn' = in_w cn) in Ew'.
  exists (cn' <| in_w := in_e cn' |>). split; [|split].
  - unfold type_char. mstep. rewrite Hu, (proj2 (Z.ltb_lt _ _)) by (unfold INPUT_BUF; lia).
    rewrite (proj2 (Z.eqb_neq k 0)) by (intros ->; done). cbn [negb andb when].
    replace (if k =? 13 then newline else k) with newline
      by (unfold is_newline in Hk; destruct (Z.eqb_spec k 13); [done|]; simpl in Hk;
          rewrite orb_false_r in Hk; apply Z.eqb_eq in Hk; done).
    rewrite (bind_seq_ok _ _ _ _ _ _ Hm). mstep. simpl. mstep with Hm'. unfold con_upd. msteps.
    rewrite (wakeup_ok i c) by done. f_equal.
    rewrite (touch_id i c) by (by apply touched_nested). unfold wakes, cons_is. simpl. rewrite Hk.
    by destruct s.
  - rewrite app_assoc. rewrite <- app_assoc. by apply rep_commit.
  - pose proof (rep_size _ _ _ Hcn') as Hs. rewrite length_app in Hs. simpl in Hs. rsimpl.
    pose proof (rep_w _ _ _ Hcn') as E1. pose proof (rep_e _ _ _ Hcn') as E2.
    rewrite <- Ew, <- Ew'. rewrite !length_app in E2. simpl in E2.
    replace (_ + Z.of_nat _) with (in_r cn' + Z.of_nat (length q) + (Z.of_nat (length l) + 1)) in E2 by lia.
    rewrite <- u32_add_l, <- E1 in E2. rewrite E2. pose proof (u32_range (in_r cn' + Z.of_nat (length q))).
    unfold INPUT_BUF in *. rewrite u32_id; lia.
Qed.

(** One turn of the handler's loop. *)
Definition steps (k : Z) (s : kstate) (cn : console) : Prop :=
  forall n cs d, consoleintr_loop (S n) (k :: cs) d s =
    consoleintr_loop n cs d (cons_is cn s <| k_procs ::= wakes [k] |>).

Lemma quiet_state k cn s : is_newline k = false -> cons_is cn s <| k_procs ::= wakes [k] |> = cons_is cn s.
Proof. intros Hk. unfold wakes. simpl. rewrite Hk. by destruct s. Qed.

(** The turn of a key that is not the end of a line, when it runs [m]. *)
Lemma does_steps m k s q l :
  does m s q l -> is_newline k = false ->
  (forall n cs d, consoleintr_loop (S n) (k :: cs) d s = (m;; consoleintr_loop n cs d) s) ->
  exists cn, steps k s cn /\ rep cn q l /\ in_w cn = in_w (k_cons s).
Proof.
  intros (cn & Hm & Hcn) Hk Hl. exists cn. split; [|done]. intros n cs d.
  rewrite Hl, (bind_ok _ _ _ _ _ Hm), quiet_state by done. done.
Qed.

(** Backspace, on a line that may be empty. *)
Lemma backspace_steps k q l s :
  is_erase k = true -> rep (k_cons s) q l ->
  exists cn, steps k s cn /\ rep cn q (removelast l) /\ in_w cn = in_w (k_cons s).
Proof.
  intros Hk Hr. assert (Hn : is_newline k = false)
    by (unfold is_erase, is_newline, Ctrl in *; destruct (Z.eqb_spec k 10), (Z.eqb_spec k 13); by subst).
  assert (Hl : forall n cs d, consoleintr_loop (S n) (k :: cs) d s =
    (cn ← gets k_cons;
     when (negb (in_e cn =? in_w cn))
       (con_upd (fun cn => cn <| in_e ::= fun e => u32 (e - 1) |>);;
        consputc BACKSPACE;;
        hist_upd (fun h => h <| ch_is_suggestion_used := 0 |>));;
     consoleintr_loop n cs d) s).
  { intros n cs d. unfold is_erase, Ctrl in Hk. simpl. unfold Ctrl.
    apply orb_true_iff in Hk as [Hk|Hk]; apply Z.eqb_eq in Hk as ->; done. }
  destruct l as [|x l _] using rev_ind.
  - exists (k_cons s). split; [|done]. intros n cs d. rewrite Hl. mstep.
    rewrite (rep_empty _ _ _ Hr), bool_decide_eq_true_2, quiet_state by done. by destruct s.
  - rewrite removelast_last.
    destruct (does_bind2 _ _ (hist_upd (fun h => h <| ch_is_suggestion_used := 0 |>)) s q l l
                (does_erase s q l x Hr)) as (cn & Hm & Hcn).
    { intros cn Hcn _. apply does_con_upd; [|done]. apply rep_hist_upd; [apply Hcn|done]. }
    exists cn. split; [|done]. intros n cs d. rewrite Hl. mstep.
    rewrite (rep_empty _ _ _ Hr), bool_decide_eq_false_2, quiet_state by (done || by destruct l).
    cbn [negb when]. by rewrite (bind_ok _ _ _ _ _ Hm).
Qed.

Lemma length_removelast (l : list Z) : (length (removelast l) <= length l)%nat.
Proof. destruct l as [|x l _] using rev_ind; [done|]. rewrite removelast_last, length_app. lia. Qed.

Lemma plain_removelast l : Forall plain l -> Forall plain (removelast l).
Proof.
  destruct l as [|x l _] using rev_ind; [done|]. rewrite removelast_last. by intros [? _]%Forall_app.
Qed.

Lemma plain_steps k s :
  plain k -> forall n cs d, consoleintr_loop (S n) (k :: cs) d s = (type_char k;; consoleintr_loop n cs d) s.
Proof.
  intros Hk n cs d. unfold plain in Hk. cbn [consoleintr_loop]. unfold Ctrl.
  rewrite (proj2 (Z.ltb_ge k 0)), !(proj2 (Z.eqb_neq k _)) by lia. done.
Qed.

Lemma nokey_step q l s :
  rep (k_cons s) q l -> exists cn, steps 0 s cn /\ rep cn q l /\ in_w cn = in_w (k_cons s).
Proof.
  intros Hr. apply (does_steps (type_char 0)); [|done|done]. destruct (does_nothing s q l Hr) as (cn & Hm & Hcn).
  exists cn. split; [|done]. unfold type_char. mstep. exact Hm.
Qed.

Lemma key_step k q l s :
  handling s -> key k = true -> rep (k_cons s) q l -> Forall plain l ->
  (S (length (q ++ l)) < 128)%nat -> in_w (k_cons s) + Z.of_nat (length l) < INPUT_BUF ->
  let '(q', l') := feed (q, l) k in
  exists cn, steps k s cn /\ rep cn q' l' /\ Forall plain l' /\
    (length (q' ++ l') <= S (length (q ++ l)))%nat /\
    in_w cn + Z.of_nat (length l') <= in_w (k_cons s) + Z.of_nat (length l) + 1.
Proof.
  intros Hh Hk Hr Hp Hroom Hw. assert (Hl : (length l < 128)%nat) by (rewrite length_app in Hroom; lia).
  unfold feed. destruct (Z.eqb_spec k 0) as [->|N0].
  { destruct (nokey_step q l s Hr) as (cn & Hs & Hcn & Ew). exists cn. rewrite Ew. split_and!; done || lia. }
  destruct (Z.eqb_spec k (Ctrl 85)) as [->|N1].
  { destruct (does_steps consclear (Ctrl 85) s q []) as (cn & Hs & Hcn & Ew); [by apply (consclear_ok q l)|done|done|].
    exists cn. rewrite Ew, !length_app. split_and!; simpl; done || lia. }
  destruct (is_erase k) eqn:He.
  { destruct (backspace_steps k q l s He Hr) as (cn & Hs & Hcn & Ew). pose proof (length_removelast l).
    exists cn. rewrite Ew, !length_app. split_and!; [done|done|by apply plain_removelast|lia|lia]. }
  destruct (Z.eqb_spec k (Ctrl 82)) as [->|N2].
  { destruct (does_steps revline (Ctrl 82) s q (rev l)) as (cn & Hs & Hcn & Ew); [apply revline_ok; done || lia|done|done|].
    exists cn. rewrite Ew, !length_app, length_rev. split_and!; [done|done|by apply Forall_rev|lia|lia]. }
  destruct (Z.eqb_spec k (Ctrl 78)) as [->|N3].
  { destruct (does_steps remnums (Ctrl 78) s q (filter (fun c => is_digit c = false) l))
      as (cn & Hs & Hcn & Ew); [by apply remnums_ok|done|done|].
    pose proof (length_filter (fun c => is_digit c = false) l).
    exists cn. rewrite Ew, !length_app. split_and!; [done|done|by apply plain_filter|lia|lia]. }
  destruct (is_newline k) eqn:Hn.
  { destruct (type_newline_ok k q l s Hh Hn Hr) as (cn & Hm & Hcn & Ew); [lia|done|].
    exists cn. rewrite Ew, !length_app. simpl. split_and!; [|done|done|lia|lia].
    intros n cs d. unfold is_newline in Hn. apply orb_true_iff in Hn as [Hn|Hn]; apply Z.eqb_eq in Hn as ->;
      cbn [consoleintr_loop]; simpl; by rewrite (bind_ok _ _ _ _ _ Hm). }
  assert (Hpl : plain k).
  { unfold key in Hk. rewrite Hn, orb_false_r, (proj2 (Z.eqb_neq k 0) N0) in Hk. simpl in Hk. unfold is_erase in He. apply orb_false_iff in He as [He1 He2].
    apply Z.eqb_neq in He1, He2. apply orb_true_iff in Hk as [Hk|Hk].
    - apply andb_true_iff in Hk as [H1 H2]. apply Z.leb_le in H1, H2. unfold plain. lia.
    - apply bool_decide_eq_true in Hk. rewrite !elem_of_cons in Hk. destruct Hk as [?|[?|[?|[?|Hk]]]]; try done.
      by apply not_elem_of_nil in Hk. }
  destruct (does_steps (type_char k) k s q (l ++ [k])) as (cn & Hs & Hcn & Ew);
    [by apply type_plain_ok|done|by apply plain_steps|].
  exists cn. rewrite Ew, !length_app. split_and!; [done|done| |simpl; lia|simpl; lia].
  apply Forall_app. split; [done|]. by constructor.
Qed.
End Handler.

(** ** The reader *)

(** What a read of [n] bytes takes from the bytes that are ready: up to the end of a
    line, or up to a Control-D, which stays for the next read unless it comes first.
    [None] when the bytes run out before. *)
Fixpoint readline (n : nat) (first : bool) (q : list Z) : option (list Z * list Z) :=
  match n, q with
  | O, _ => Some ([], q)
  | S n, [] => None
  | S n, c :: q' =>
    if c =? Ctrl 68 then Some ([], if first then q' else q)
    else if c =? newline then Some ([c], q')
    else match readline n false q' with
         | Some (bs, r) => Some (c :: bs, r)
         | None => None
         end
  end.

Lemma i8_eqb c d : is_byte c -> 0 <= d < 128 -> (i8 c =? d) = (c =? d).
Proof.
  intros Hc Hd. unfold is_byte, i8 in *. apply Bool.eq_iff_eq_true. rewrite !Z.eqb_eq.
  destruct (Z.ltb_spec c 128); lia.
Qed.

Lemma u8_i8 c : is_byte c -> u8 (i8 c) = c.
Proof. intros Hc. unfold is_byte, u8, i8 in *. destruct (Z.ltb_spec c 128); Z.div_mod_to_equations; lia. Qed.

Definition taken_char (cn : console) : console := cn <| in_r ::= fun r => u32 (r + 1) |>.

Lemma rep_take x cn q l : rep cn (x :: q) l -> rep (taken_char cn) q l.
Proof.
  intros []. unfold taken_char. simpl in *. constructor; rsimpl; try done.
  - apply u32_range.
  - rewrite rep_w0, u32_add_l. f_equal. lia.
  - rewrite rep_e0, u32_add_l. f_equal. lia.
  - lia.
  - by inversion rep_bytes0.
  - intros k y Hk. change (in_char cn (u32 (in_r cn + 1) + Z.of_nat k) = y).
    rewrite <- in_char_u32, u32_add_l, in_char_u32, <- (rep_at0 (S k) y Hk). f_equal. lia.
Qed.

Lemma put_back cn : 0 <= in_r cn < 4294967296 -> (taken_char cn) <| in_r ::= fun r => u32 (r - 1) |> = cn.
Proof.
  intros Hr. unfold taken_char. destruct cn. unfold set. simpl in *. f_equal.
  rewrite u32_sub_l, Z.add_simpl_r. by apply u32_id.
Qed.

Section Reader.
Context {fl : Fuel} {dsk : Disk}.

Lemma consoleread_loop_ok n ip first s q l bs q' :
  rep (k_cons s) q l -> readline n first q = Some (bs, q') ->
  exists cn, consoleread_loop n ip first s = Ok (Some bs) (cons_is cn s) /\ rep cn q' l.
Proof.
  revert first s q bs. induction n as [|n IH]; intros first s q bs Hr Hq.
  { simpl in Hq. injection Hq as <- <-. exists (k_cons s). by destruct s. }
  destruct q as [|x q]; [done|]. cbn [readline] in Hq.
  assert (Hx : is_byte x) by (pose proof (rep_bytes _ _ _ Hr) as H; by inversion H).
  assert (Hc : in_char (k_cons s) (in_r (k_cons s)) = x)
    by (rewrite <- (Z.add_0_r (in_r _)); by apply (rep_at _ _ _ Hr 0)).
  assert (Hwait : input_wait fuel ip s = Ok true s).
  { assert (E : (in_r (k_cons s) =? in_w (k_cons s)) = false).
    { apply Z.eqb_neq. intros E. destruct Hr. rewrite length_app in *. simpl in *.
      rewrite rep_w0 in E. unfold u32 in E. Z.div_mod_to_equations. lia. }
    destruct fuel; simpl; mstep; by rewrite E. }
  cbn [consoleread_loop]. mstep with Hwait. cbn [negb]. mstep. rewrite Hc. unfold con_upd at 1. mstep.
  rewrite !i8_eqb by (done || unfold Ctrl, newline; lia). pose proof (rep_take _ _ _ _ Hr) as Ht.
  destruct (x =? Ctrl 68); [|destruct (x =? newline)].
  - destruct first; simpl; injection Hq as <- <-.
    + exists (taken_char (k_cons s)). done.
    + exists (k_cons s). unfold con_upd. msteps. split; [|done]. unfold ret. f_equal.
      apply kstate_ext; rsimpl; try reflexivity. apply put_back, Hr.
  - injection Hq as <- <-. exists (taken_char (k_cons s)). by rewrite u8_i8.
  - destruct (readline n false q) as [[bs1 r1]|] eqn:Er; [|done]. injection Hq as <- <-.
    destruct (IH false (cons_is (taken_char (k_cons s)) s) q bs1 Ht Er) as (cn & Hm & Hcn).
    exists cn. split; [|done]. mstep with Hm. by rewrite u8_i8.
Qed.
End Reader.

(** ** Correctness *)

(** The keys that make a character. *)
Definition typed (cs : list Z) : nat := length (filter (fun c => c <> 0) cs).

Lemma keys_ok i c cs q l s d :
  handling i c s -> forallb key cs = true -> rep (k_cons s) q l -> Forall plain l ->
  (length (q ++ l) + typed cs < 128)%nat ->
  in_w (k_cons s) + Z.of_nat (length l) + Z.of_nat (typed cs) <= INPUT_BUF ->
  exists cn, consoleintr_loop (length cs) cs d s = Ok d (cons_is cn s <| k_procs ::= wakes cs |>) /\
    let '(q', l') := fold_left feed cs (q, l) in
    rep cn q' l' /\ Forall plain l' /\ (length (q' ++ l') <= length (q ++ l) + typed cs)%nat /\
    in_w cn + Z.of_nat (length l') <= in_w (k_cons s) + Z.of_nat (length l) + Z.of_nat (typed cs).
Proof.
  revert q l s. induction cs as [|k cs IH]; intros q l s Hh Hks Hr Hp Hroom Hw.
  { exists (k_cons s). split; [by destruct s|]. simpl. split_and!; done || lia. }
  cbn [forallb] in Hks. apply andb_true_iff in Hks as [Hk Hks].
  assert (Hstep : let '(q1, l1) := feed (q, l) k in
    exists cn, steps k s cn /\ rep cn q1 l1 /\ Forall plain l1 /\
      (length (q1 ++ l1) + typed cs <= length (q ++ l) + typed (k :: cs))%nat /\
      in_w cn + Z.of_nat (length l1) + Z.of_nat (typed cs) <= in_w (k_cons s) + Z.of_nat (length l) + Z.of_nat (typed (k :: cs))).
  { unfold typed in *. rewrite filter_cons in *. destruct (decide (k <> 0)) as [H0|H0].
    - cbn [length] in *. pose proof (key_step i c k q l s Hh Hk Hr Hp ltac:(lia) ltac:(lia)) as Hstep.
      destruct (feed (q, l) k) as [q1 l1]. destruct Hstep as (cn & ? & ? & ? & ? & ?). exists cn. split_and!; done || lia.
    - assert (k = 0) as -> by lia. cbn [feed Z.eqb]. destruct (nokey_step q l s Hr) as (cn & Hs & Hcn & Ew). exists cn. rewrite Ew. split_and!; done || lia. }
  cbn [fold_left]. destruct (feed (q, l) k) as [q1 l1]. destruct Hstep as (cn & Hs & Hcn & Hp1 & Hlen & Hw1).
  destruct (IH q1 l1 (cons_is cn s <| k_procs ::= wakes [k] |>)) as (cn' & Hm & Hres); try done.
  - by destruct Hh.
  - lia.
  - rsimpl. change (in_w cn + Z.of_nat (length l1) + Z.of_nat (typed cs) <= INPUT_BUF). lia.
  - exists cn'. split.
    + cbn [length]. rewrite Hs, Hm. f_equal. unfold cons_is.
      apply kstate_ext; rsimpl; try reflexivity. symmetry. apply wakes_cons.
    + destruct (fold_left feed cs (q1, l1)) as [q' l']. destruct Hres as (? & ? & ? & Hw'). split_and!; [done|done|lia|].
      change (in_w (k_cons _)) with (in_w cn) in Hw'. lia.
Qed.

(** The handler on a sequence of keys. *)
Lemma consoleintr_ok i c cs q l s :
  CpuOk i c (k_hw s) -> free LCons (k_hw s) -> free LPtable (k_hw s) ->
  rep (k_cons s) q l -> Forall plain l -> forallb key cs = true ->
  (length (q ++ l) + typed cs < 128)%nat ->
  in_w (k_cons s) + Z.of_nat (length l) + Z.of_nat (typed cs) <= INPUT_BUF ->
  exists s', consoleintr cs s = Ok tt s' /\
    k_procs s' = wakes cs (k_procs s) /\ k_hw s' = touched i c (k_hw s) /\
    let '(q', l') := fold_left feed cs (q, l) in
    rep (k_cons s') q' l' /\ Forall plain l' /\ (length (q' ++ l') <= length (q ++ l) + typed cs)%nat /\
    in_w (k_cons s') + Z.of_nat (length l') <= in_w (k_cons s) + Z.of_nat (length l) + Z.of_nat (typed cs).
Proof.
  intros HC Hf Hpt Hr Hp Hk Hroom Hw. unfold consoleintr.
  mstep by (apply (kacquire_ok i c); done).
  destruct (keys_ok i (pushed_cpu (hw_if (k_hw s)) c) cs q l (s <| k_hw ::= acquired i c LCons |>) false)
    as (cn & Hm & Hres); try done.
  { split; [by apply CpuOk_acquired|by eapply pushed_ncli_pos|by apply free_acquired]. }
  mstep with Hm. mstep by (apply (krelease_ok i c LCons (k_hw s)); done).
  eexists. by split; [reflexivity|].
Qed.


(** The console of a running system, where process 0 sleeps waiting for input. *)
Definition line_demo : kstate :=
  con_demo <| k_hw ::= set hw_locks (insert LPtable unlocked) |>
           <| k_procs := [zero_proc <| p_state := SLEEPING |> <| p_chan := Some CInput |>] |>.

Lemma rep_line_demo : rep (k_cons line_demo) [] [].
Proof. constructor; try done. simpl. lia. Qed.


(** A read takes what [readline] says from the bytes that are ready, leaves the line
    being edited alone, and holds the inode's lock again when it returns. *)
Theorem consoleread_takes_line {fl : Fuel} {dsk : Disk} i c p pr ip x n q l bs q' s :
  kmode i c p pr s -> free LCons (k_hw s) -> (ip < NINODE)%nat ->
  k_inodes s !! ip = Some x -> 1 <= i_ref x -> i_valid x <> 0 -> sl_held (SLInode ip) (p_pid pr) s ->
  rep (k_cons s) q l -> readline (Z.to_nat n) true q = Some (bs, q') ->
  exists s', consoleread ip n s = Ok (Z.of_nat (length bs), bs) s' /\
    rep (k_cons s') q' l /\ sl_held (SLInode ip) (p_pid pr) s' /\ kmode i c p pr s' /\
    k_inodes s' = k_inodes s.
Proof.
  intros Hk Hf Hip Hx Href Hv Hh Hr Hq. unfold consoleread.
  mstep by (by apply (iunlock_held ip x s Hk)). set (s1 := unlocked_inode ip s).
  pose proof (kmode_unlocked_inode ip s Hk) as Hk1. fold s1 in Hk1.
  mstep by (by apply (free_acquire LCons s1 Hk1)). set (s2 := s1 <| k_hw ::= acquired i c LCons |>).
  destruct (consoleread_loop_ok (Z.to_nat n) ip true s2 q l bs q' Hr Hq) as (cn & Hm & Hcn).
  mstep with Hm. mstep by (by apply (free_release LCons s1 _ Hk1)).
  mstep by (apply (ilock_valid (ci := i) (c := c) (p := p) (pr := pr) ip x); try done;
            [by apply (kmode_frame i c p pr s1)|unfold sl_free, cons_is, s2, s1, unlocked_inode; rsimpl;
             by rewrite lookup_insert_eq]).
  eexists. split; [reflexivity|]. split; [done|]. split; [|split; [|done]].
  - eexists. rsimpl. rewrite lookup_insert_eq. done.
  - apply (kmode_frame i c p pr s1); done.
Qed.

(** The process has the console's inode locked, and "hi" and half a line were typed. *)
Definition read_demo : kstate :=
  fs_demo <| k_hw ::= set hw_locks (insert LCons unlocked) |>
          <| k_inodes := [mkInode 1 1 1 1 3 1 1 1 0 (replicate 13 0)] |>
          <| k_slocks := {[SLInode 0 := mkSleeplock 1 1]} |>
          <| k_cons ::= fun cn => cn <| in_buf := [104; 105; 10; 120] ++ replicate 124 0 |>
                                     <| in_w := 3 |> <| in_e := 4 |> |>.

Lemma rep_read_demo : rep (k_cons read_demo) [104; 105; 10] [120].
Proof.
  constructor; try done; [simpl; lia|repeat constructor; lia|].
  intros k x Hk. do 4 (destruct k as [|k]; [by injection Hk as <-|]). done.
Qed.

Lemma consoleread_takes_line_witness :
  exists s', @consoleread 5%nat memide 0 100 read_demo = Ok (3, [104; 105; 10]) s' /\ rep (k_cons s') [] [120].
Proof.
  destruct (kmode_more_locks LCons fs_demo read_demo (kmode_fs_demo fs_demo eq_refl eq_refl) eq_refl eq_refl)
    as [Hk Hf].
  destruct (@consoleread_takes_line 5%nat memide 0 fs_cpu 0 fs_proc 0 (mkInode 1 1 1 1 3 1 1 1 0 (replicate 13 0))
              100 [104; 105; 10] [120] [104; 105; 10] [] read_demo Hk Hf) as (s' & H & Hr & _).
  - apply Nat.ltb_lt. reflexivity.
  - reflexivity.
  - discriminate.
  - discriminate.
  - exists (mkSleeplock 1 1). split; [reflexivity|split; [discriminate|reflexivity]].
  - apply rep_read_demo.
  - reflexivity.
  - exists s'. split; [exact H|exact Hr].
Defined.

Lemma plain_keys_ok cs rest q l s d n :
  rep (k_cons s) q l -> Forall plain cs -> (length (q ++ l) + length cs < 128)%nat ->
  exists cn, consoleintr_loop (length cs + n) (cs ++ rest) d s = consoleintr_loop n rest d (cons_is cn s) /\
    rep cn q (l ++ cs) /\ in_w cn = in_w (k_cons s).
Proof.
  intros Hr Hp. revert s l Hr. induction Hp as [|k cs Hk Hp IH]; intros s l Hr Hroom.
  - exists (k_cons s). rewrite app_nil_r. by destruct s.
  - simpl in Hroom. destruct (type_plain_ok k q l s Hr Hk) as (cn & Hm & Hcn & Ew); [lia|].
    destruct (IH (cons_is cn s) (l ++ [k]) Hcn) as (cn' & Hm' & Hcn' & Ew').
    { rewrite !length_app in *. simpl. lia. }
    rewrite <- app_assoc in Hcn'. exists cn'. split_and!; [|done|exact (eq_trans Ew' Ew)].
    cbn [length Nat.add app]. rewrite plain_steps by done. by rewrite (bind_ok _ _ _ _ _ Hm).
Qed.

Lemma type_newline_faults q l s :
  rep (k_cons s) q l -> l <> [] -> (length (q ++ l) < 128)%nat ->
  INPUT_BUF < in_w (k_cons s) + Z.of_nat (length l) -> type_char newline s = Fault.
Proof.
  intros Hr Hne Hroom Hw.
  destruct (does_put newline newline s q l Hr) as (cn & Hm & Hcn & Ew); [done|done|].
  assert (Ht : push_current_hist (cons_is cn s) = Fault).
  { unfold push_current_hist. mstep. change (k_cons (cons_is cn s)) with cn. pose proof (rep_size _ _ _ Hcn) as Hs.
    rewrite length_app in Hs, Hroom. simpl in Hs. rewrite Hs. destruct l as [|x l]; [done|].
    rewrite (proj2 (Z.eqb_neq _ _)) by (simpl; lia). rewrite <- u32_sub_l, Hs.
    rewrite u32_id by (simpl in *; lia). unfold in_slice, bind, gets.
    rewrite (proj2 (Z.leb_gt _ _)); [done|]. rewrite Ew. lia. }
  unfold type_char. mstep. rewrite (rep_used _ _ _ Hr), (proj2 (Z.ltb_lt _ _)) by (unfold INPUT_BUF; lia).
  simpl. rewrite (bind_seq_ok _ _ _ _ _ _ Hm). mstep. simpl. unfold bind at 1. by rewrite Ht.
Qed.

(** The command history copies the line from [input.buf + input.w], without the remainder
    by [INPUT_BUF] that every other access takes: once the free-running write index and
    the length of a line add up to more than the size of the array, entering the line
    reads outside of it. *)
Theorem history_copy_overruns i c l q s :
  CpuOk i c (k_hw s) -> free LCons (k_hw s) -> rep (k_cons s) q [] -> Forall plain l -> l <> [] ->
  (length q + length l < 127)%nat -> INPUT_BUF < in_w (k_cons s) + Z.of_nat (length l) ->
  consoleintr (l ++ [newline]) s = Fault.
Proof.
  intros HC Hf Hr Hp Hne Hroom Hw. unfold consoleintr. mstep by (by apply (kacquire_ok i c)).
  set (s1 := s <| k_hw ::= acquired i c LCons |>). rewrite length_app.
  destruct (plain_keys_ok l [newline] q [] s1 false 1) as (cn & Hm & Hcn & Ew); [done|done|rewrite app_nil_r; lia|].
  assert (Ht : type_char newline (cons_is cn s1) = Fault).
  { apply (type_newline_faults q l); [done|done|rewrite length_app; lia|].
    change (k_cons (cons_is cn s1)) with cn. by rewrite Ew. }
  unfold bind at 1. cbn [length]. rewrite Hm. cbn [consoleintr_loop]. simpl. unfold bind at 1. by rewrite Ht.
Qed.

Definition late_demo : kstate :=
  line_demo <| k_cons ::= fun cn => cn <| in_r := 120 |> <| in_w := 120 |> <| in_e := 120 |> |>.

(** The ninth character after 120 *)
Lemma history_copy_overruns_witness : consoleintr (replicate 9 97 ++ [newline]) late_demo = Fault.
Proof.
  apply (history_copy_overruns 0 (mkCpu 0 0 false None) (replicate 9 97) [] late_demo).
  - split_and!; [reflexivity|reflexivity|discriminate|discriminate].
  - reflexivity.
  - constructor; try reflexivity; try (split; [discriminate|reflexivity]).
    + split; [reflexivity|]. split; [discriminate|reflexivity].
    + apply Nat.leb_le. reflexivity.
    + constructor.
    + intros k x Hk. discriminate Hk.
  - repeat constructor; discriminate.
  - discriminate.
  - apply Nat.ltb_lt. reflexivity.
  - reflexivity.
Defined.
