(* ===== verification/File.v ===== *)
(** * Open files (file.c) and the creation of pipes (pipe.c: pipealloc)

    A [struct file *] is the index of the entry in [ftable.file].  The buffers of the
    caller are as in [Fs]. *)

From stdpp Require Import gmap.
From S2P Require Import Prelude Outcome Kernel Spinlock Kalloc Proc Sleeplock Bio Log Inode Fs Pipe.

Definition file_get (f : nat) : K file := l ← gets k_files; deref (l !! f).
Definition file_upd (f : nat) (g : file -> file) : K unit :=
  modify (fun s => s <| k_files ::= alter g f |>).

Definition fileinit : K unit := initlock LFtable.

Definition filealloc : K (option nat) :=
  acquire LFtable;;
  l ← gets k_files;
  match scan (fun f => f_ref f =? 0) l with
  | Some f =>
    file_upd f (fun x => x <| f_ref := 1 |>);;
    release LFtable;;
    ret (Some f)
  | None => release LFtable;; ret None
  end.

Definition filedup (f : nat) : K nat :=
  acquire LFtable;;
  x ← file_get f;
  if f_ref x <? 1 then panic "filedup" else
  file_upd f (fun x => x <| f_ref ::= fun r => i32 (r + 1) |>);;
  release LFtable;;
  ret f.

Section Files.
Context (kernel_end : Z) {fl : Fuel} {dsk : Disk} {dsw : Devsw}.

Definition fileclose (f : nat) : K unit :=
  acquire LFtable;;
  x ← file_get f;
  if f_ref x <? 1 then panic "fileclose" else
  file_upd f (fun x => x <| f_ref ::= fun r => r - 1 |>);;
  ff ← file_get f;
  if 0 <? f_ref ff then release LFtable else
  file_upd f (fun x => x <| f_ref := 0 |> <| f_type := FD_NONE |>);;
  release LFtable;;
  match f_type ff with
  | FD_PIPE => pipeclose kernel_end (f_pipe ff) (f_writable ff)
  | FD_INODE =>
    begin_op;;
    ip ← deref (f_ip ff);
    iput ip;;
    end_op
  | FD_NONE => ret tt
  end.

(** The result, and the structure stored at [st]. *)
Definition filestat (f : nat) : K (Z * option stat) :=
  x ← file_get f;
  if bool_decide (f_type x = FD_INODE) then
    ilock (f_ip x);;
    ip ← deref (f_ip x);
    st ← stati ip;
    iunlock (f_ip x);;
    ret (0, Some st)
  else ret (-1, None).

(** The result, and the bytes stored at [addr]. *)
Definition fileread (f : nat) (n : Z) : K (Z * list Z) :=
  x ← file_get f;
  if f_readable x =? 0 then ret (-1, []) else
  match f_type x with
  | FD_PIPE => piperead (f_pipe x) n
  | FD_INODE =>
    ilock (f_ip x);;
    x ← file_get f;
    ip ← deref (f_ip x);
    ' (r, bs) ← readi ip (f_off x) (u32 n);
    when (0 <? r) (file_upd f (fun x => x <| f_off ::= fun o => u32 (o + r) |>));;
    iunlock (f_ip x);;
    ret (r, bs)
  | FD_NONE => panic "fileread"
  end.

(** [((MAXOPBLOCKS-1-1-2) / 2) * 512] *)
Definition max_write : Z := (MAXOPBLOCKS - 1 - 1 - 2) / 2 * 512.

(** The loop of [filewrite] from [i] on; the result is the final [i].  Each turn
    writes at least one byte or ends the loop. *)
Fixpoint filewrite_loop (k : nat) (f : nat) (addr : Z -> Z) (i n : Z) : K Z :=
  if n <=? i then ret i else
  match k with
  | O => spin
  | S k =>
    let n1 := Z.min (n - i) max_write in
    begin_op;;
    x ← file_get f;
    ilock (f_ip x);;
    ip ← deref (f_ip x);
    x ← file_get f;
    r ← writei ip (fun j => addr (i + j)) (f_off x) n1;
    when (0 <? r) (file_upd f (fun x => x <| f_off ::= fun o => u32 (o + r) |>));;
    iunlock (f_ip x);;
    end_op;;
    if r <? 0 then ret i
    else if negb (r =? n1) then panic "short filewrite"
    else filewrite_loop k f addr (i + r) n
  end.

Definition filewrite (f : nat) (addr : Z -> Z) (n : Z) : K Z :=
  x ← file_get f;
  if f_writable x =? 0 then ret (-1) else
  match f_type x with
  | FD_PIPE => pipewrite (f_pipe x) addr n
  | FD_INODE =>
    i ← filewrite_loop (Z.to_nat n) f addr 0 n;
    ret (if i =? n then n else -1)
  | FD_NONE => panic "filewrite"
  end.

Definition filechangesize (f : nat) (n : Z) : K Z :=
  x ← file_get f;
  if f_writable x =? 0 then ret (-1) else
  if bool_decide (f_type x = FD_INODE) then
    begin_op;;
    ilock (f_ip x);;
    ip ← deref (f_ip x);
    r ← changesize ip (u32 n);
    when (0 <? r) (file_upd f (fun x => x <| f_off := r |>));;
    iunlock (f_ip x);;
    end_op;;
    ret r
  else panic "filechangesize".

(** ** pipealloc *)

(** sizeof(struct spinlock), the offset of [data] in [struct pipe] *)
Definition sizeof_spinlock : Z := 52.

Definition file_closeopt (f : option nat) : K unit :=
  match f with Some f => fileclose f | None => ret tt end.

(** The exit [bad], where [p] is null: no page has been allocated. *)
Definition pipealloc_bad (f0 f1 : option nat) : K (option (nat * nat)) :=
  file_closeopt f0;;
  file_closeopt f1;;
  ret None.

(** The two files, or [None] for -1. *)
Definition pipealloc : K (option (nat * nat)) :=
  f0 ← filealloc;
  match f0 with
  | None => pipealloc_bad None None
  | Some a =>
    f1 ← filealloc;
    match f1 with
    | None => pipealloc_bad (Some a) None
    | Some b =>
      p ← kalloc;
      if p =? 0 then pipealloc_bad (Some a) (Some b) else
      mem ← gets k_mem;
      let data := map (fun k => mem (p + sizeof_spinlock + k)) (zrange 0 PIPESIZE) in
      modify (fun s => s <| k_pipes ::= <[p := mkPipe data 0 0 1 1]> |>);;
      initlock (LPipe p);;
      file_upd a (fun x => x <| f_type := FD_PIPE |> <| f_readable := 1 |> <| f_writable := 0 |> <| f_pipe := p |>);;
      file_upd b (fun x => x <| f_type := FD_PIPE |> <| f_readable := 0 |> <| f_writable := 1 |> <| f_pipe := p |>);;
      ret (Some (a, b))
    end
  end.
End Files.

(** ** The file system leaves the table of open files alone *)

Lemma files_hwop {A} (m : M hw A) : keeps k_files (hwop m).
Proof.
  intros s a s' H. unfold hwop in H. destruct (m (k_hw s)); try discriminate. simpl in H. by injection H as <- <-.
Qed.
#[export] Hint Resolve files_hwop : keeps.

Section KeepsFiles.
Context {fl : Fuel} {dsk : Disk}.

(** The driver does not touch the table either. *)
Context (Hdsk : forall b, keeps k_files (iderw b)).

Lemma files_proc_upd p f : keeps k_files (proc_upd p f). Proof. unfold proc_upd. keeps. Qed.
Lemma files_proc_get p : keeps k_files (proc_get p). Proof. unfold proc_get. keeps. Qed.
Lemma files_buf_get b : keeps k_files (buf_get b). Proof. unfold buf_get. keeps. Qed.
Lemma files_buf_upd b f : keeps k_files (buf_upd b f). Proof. unfold buf_upd. keeps. Qed.
Lemma files_inode_get b : keeps k_files (inode_get b). Proof. unfold inode_get. keeps. Qed.
Lemma files_inode_upd b f : keeps k_files (inode_upd b f). Proof. unfold inode_upd. keeps. Qed.
Lemma files_log_upd f : keeps k_files (log_upd f). Proof. unfold log_upd. keeps. Qed.
Lemma files_pipe_get b : keeps k_files (pipe_get b). Proof. unfold pipe_get. keeps. Qed.
Lemma files_pipe_upd b f : keeps k_files (pipe_upd b f). Proof. unfold pipe_upd. keeps. Qed.
Lemma files_sl_set r l : keeps k_files (sl_set r l). Proof. unfold sl_set. keeps. Qed.
Lemma files_acquire lk : keeps k_files (acquire lk). Proof. unfold acquire. keeps. Qed.
Lemma files_release lk : keeps k_files (release lk). Proof. unfold release. keeps. Qed.
Lemma files_myproc : keeps k_files myproc. Proof. unfold myproc. keeps. Qed.
#[local] Hint Resolve files_proc_upd files_proc_get files_buf_get files_buf_upd files_inode_get files_inode_upd
  files_log_upd files_pipe_get files_pipe_upd files_sl_set files_acquire files_release files_myproc : keeps.

Lemma files_wakeup ch : keeps k_files (wakeup ch). Proof. unfold wakeup, wakeup1. keeps. Qed.
Lemma files_sched : keeps k_files sched. Proof. unfold sched, holding. keeps. Qed.
#[local] Hint Resolve files_wakeup files_sched : keeps.
Lemma files_sleep ch lk : keeps k_files (sleep ch lk). Proof. unfold sleep. keeps. Qed.
Lemma files_mypid : keeps k_files mypid. Proof. unfold mypid. keeps. Qed.
Lemma files_sl_get r : keeps k_files (sl_get r). Proof. unfold sl_get. keeps. Qed.
#[local] Hint Resolve files_sleep files_mypid files_sl_get : keeps.
Lemma files_acquiresleep_loop n r : keeps k_files (acquiresleep_loop n r).
Proof. induction n; simpl; keeps. Qed.
#[local] Hint Resolve files_acquiresleep_loop : keeps.
Lemma files_acquiresleep r : keeps k_files (acquiresleep r). Proof. unfold acquiresleep. keeps. Qed.
Lemma files_releasesleep r : keeps k_files (releasesleep r). Proof. unfold releasesleep. keeps. Qed.
Lemma files_holdingsleep r : keeps k_files (holdingsleep r). Proof. unfold holdingsleep. keeps. Qed.
Lemma files_bscan n link test b : keeps k_files (bscan n link test b).
Proof. revert b. induction n; intros b; simpl; keeps. Qed.
#[local] Hint Resolve files_acquiresleep files_releasesleep files_holdingsleep files_bscan : keeps.

Lemma files_bget dev b : keeps k_files (bget dev b). Proof. unfold bget. keeps. Qed.
#[local] Hint Resolve files_bget : keeps.
Lemma files_bread dev b : keeps k_files (bread dev b). Proof. unfold bread. keeps. Qed.
Lemma files_bwrite b : keeps k_files (bwrite b). Proof. unfold bwrite. keeps. Qed.
Lemma files_relink b : keeps k_files (relink b). Proof. unfold relink. keeps. Qed.
#[local] Hint Resolve files_bread files_bwrite files_relink : keeps.
Lemma files_brelse b : keeps k_files (brelse b). Proof. unfold brelse. keeps. Qed.
#[local] Hint Resolve files_brelse : keeps.

Lemma files_lh_get i : keeps k_files (lh_get i). Proof. unfold lh_get. keeps. Qed.
Lemma files_lh_set i v : keeps k_files (lh_set i v). Proof. unfold lh_set. keeps. Qed.
Lemma files_log_bread b : keeps k_files (log_bread b). Proof. unfold log_bread. keeps. Qed.
Lemma files_copy_data d b : keeps k_files (copy_data d b). Proof. unfold copy_data. keeps. Qed.
#[local] Hint Resolve files_lh_get files_lh_set files_log_bread files_copy_data : keeps.
Lemma files_install_trans : keeps k_files install_trans. Proof. unfold install_trans, install_one. keeps. Qed.
Lemma files_write_head : keeps k_files write_head. Proof. unfold write_head. keeps. Qed.
Lemma files_write_log : keeps k_files write_log. Proof. unfold write_log, write_log_one. keeps. Qed.
#[local] Hint Resolve files_install_trans files_write_head files_write_log : keeps.
Lemma files_commit : keeps k_files commit. Proof. unfold commit. keeps. Qed.
Lemma files_begin_op_loop n : keeps k_files (begin_op_loop n). Proof. induction n; simpl; keeps. Qed.
#[local] Hint Resolve files_commit files_begin_op_loop : keeps.
Lemma files_begin_op : keeps k_files begin_op. Proof. unfold begin_op. keeps. Qed.
Lemma files_end_op : keeps k_files end_op. Proof. unfold end_op. keeps. Qed.
Lemma files_log_write b : keeps k_files (log_write b). Proof. unfold log_write. keeps. Qed.
#[local] Hint Resolve files_begin_op files_end_op files_log_write : keeps.

Lemma files_data_upd b f : keeps k_files (data_upd b f). Proof. unfold data_upd. keeps. Qed.
#[local] Hint Resolve files_data_upd : keeps.
Lemma files_bfree dev b : keeps k_files (bfree dev b). Proof. unfold bfree. keeps. Qed.
Lemma files_iupdate ip : keeps k_files (iupdate ip). Proof. unfold iupdate. keeps. Qed.
#[local] Hint Resolve files_bfree files_iupdate : keeps.
Lemma files_itrunc ip : keeps k_files (itrunc ip). Proof. unfold itrunc. keeps. Qed.
#[local] Hint Resolve files_itrunc : keeps.
Lemma files_iput ip : keeps k_files (iput ip). Proof. unfold iput. keeps. Qed.
Lemma files_kfree ke v : keeps k_files (kfree ke v). Proof. unfold kfree. keeps. Qed.
#[local] Hint Resolve files_kfree : keeps.
Lemma files_pipeclose ke a w : keeps k_files (pipeclose ke a w). Proof. unfold pipeclose. keeps. Qed.
End KeepsFiles.

(** ** Counted references *)

(** [A] is the ledger of the references to open files that are out: in the tables of the
    processes and in system calls under way. *)
Definition refs (k : nat) (A : list nat) : nat := length (filter (eq k) A).

Lemma refs_cons k f A : refs k (f :: A) = ((if decide (k = f) then 1 else 0) + refs k A)%nat.
Proof. unfold refs. rewrite filter_cons. by case_decide. Qed.

Lemma refs_app k A B : refs k (A ++ B) = (refs k A + refs k B)%nat.
Proof. unfold refs. by rewrite filter_app, length_app. Qed.

Lemma refs_pos k A : k ∈ A <-> (0 < refs k A)%nat.
Proof.
  induction A as [|f A IH].
  - split; [by intros ?%not_elem_of_nil|]. unfold refs. simpl. lia.
  - rewrite refs_cons, elem_of_cons, IH. destruct (decide (k = f)); intuition lia.
Qed.

Lemma refs_le k A : (refs k A <= length A)%nat.
Proof. apply length_filter. Qed.

Record ftable_ok (A : list nat) (l : list file) : Prop := {
  ft_len : length l = NFILE;
  ft_refs : forall k x, l !! k = Some x -> f_ref x = Z.of_nat (refs k A);
  ft_closed : forall k x, l !! k = Some x -> f_ref x = 0 -> f_type x = FD_NONE;
  ft_valid : Forall (fun k => (k < NFILE)%nat) A }.

Lemma alter_file (l : list file) i x f : l !! i = Some x -> alter f i l = <[i := f x]> l.
Proof.
  intros Hx. apply list_eq. intros j. destruct (decide (i = j)) as [<-|Hne].
  - rewrite list_lookup_alter_eq, list_lookup_insert_eq, Hx by (by eapply lookup_lt_Some). done.
  - by rewrite list_lookup_alter_ne, list_lookup_insert_ne.
Qed.

(** An entry and its references change together. *)
Lemma ftable_change A A' l k y :
  ftable_ok A l -> (k < NFILE)%nat -> f_ref y = Z.of_nat (refs k A') -> (f_ref y = 0 -> f_type y = FD_NONE) ->
  (forall j, j <> k -> refs j A' = refs j A) -> Forall (fun k => (k < NFILE)%nat) A' ->
  ftable_ok A' (<[k := y]> l).
Proof.
  intros [H1 H2 H3 H4] Hk Hy Hc Hj HA.
  assert (Hl : forall j x, <[k := y]> l !! j = Some x -> j = k /\ x = y \/ j <> k /\ l !! j = Some x).
  { intros j x Hx. destruct (decide (j = k)) as [->|Hne].
    - rewrite list_lookup_insert_eq in Hx by (by rewrite H1). left. by injection Hx as <-.
    - rewrite list_lookup_insert_ne in Hx by done. by right. }
  split; [by rewrite length_insert| | |done].
  - intros j x [[-> ->]|[Hne Hx]]%Hl; [done|]. rewrite Hj by done. by apply H2.
  - intros j x [[-> ->]|[Hne Hx]]%Hl; [done|]. exact (H3 j x Hx).
Qed.

(** Changing what an entry in use says. *)
Lemma ftable_data A l f g :
  ftable_ok A l -> f ∈ A -> (forall x, f_ref (g x) = f_ref x) -> ftable_ok A (alter g f l).
Proof.
  intros HI Hin Hg. pose proof (ft_valid _ _ HI) as Hv. rewrite Forall_forall in Hv. pose proof (Hv f Hin) as Hf.
  destruct (lookup_lt_is_Some_2 l f) as [x Hx]; [by rewrite (ft_len _ _ HI)|]. rewrite (alter_file _ _ _ _ Hx).
  pose proof (ft_refs _ _ HI f x Hx) as Hc. apply refs_pos in Hin.
  apply (ftable_change A); try done; [by rewrite Hg|rewrite Hg; lia|by apply HI].
Qed.

Section Ledger.
Context (kernel_end : Z) {fl : Fuel} {dsk : Disk} (Hdsk : forall b, keeps k_files (iderw b)).

(** What the operations do to the table, whenever they return. *)
Lemma filealloc_files s r s' :
  filealloc s = Ok r s' ->
  r = scan (fun f => f_ref f =? 0) (k_files s) /\
  k_files s' = match r with Some f => alter (fun x => x <| f_ref := 1 |>) f (k_files s) | None => k_files s end.
Proof.
  intros H. apply bind_inv in H as ([] & s1 & E1 & H). rewrite bind_gets, (files_acquire _ _ _ _ E1) in H.
  destruct (scan _ (k_files s)) as [f|].
  - apply bind_inv in H as ([] & s2 & E2 & H). apply bind_inv in H as ([] & s3 & E3 & H).
    injection E2 as <-. injection H as <- <-. split; [done|]. rewrite (files_release _ _ _ _ E3). rsimpl.
    by rewrite (files_acquire _ _ _ _ E1).
  - apply bind_inv in H as ([] & s3 & E3 & H). injection H as <- <-. split; [done|].
    by rewrite (files_release _ _ _ _ E3), (files_acquire _ _ _ _ E1).
Qed.

Lemma file_get_inv f s x s' : file_get f s = Ok x s' -> s' = s /\ k_files s !! f = Some x.
Proof.
  unfold file_get. rewrite bind_gets. destruct (k_files s !! f) as [y|]; [|done]. simpl.
  intros H. by injection H as -> ->.
Qed.

Lemma filedup_files f s r s' :
  filedup f s = Ok r s' ->
  r = f /\ k_files s' = alter (fun x => x <| f_ref ::= fun r => i32 (r + 1) |>) f (k_files s).
Proof.
  intros H. apply bind_inv in H as ([] & s1 & E1 & H). apply bind_inv in H as (x & s2 & E2 & H).
  apply file_get_inv in E2 as [-> Hx]. destruct (f_ref x <? 1); [done|].
  apply bind_inv in H as ([] & s2 & E2 & H). apply bind_inv in H as ([] & s3 & E3 & H).
  injection E2 as <-. injection H as <- <-. split; [done|]. rewrite (files_release _ _ _ _ E3). rsimpl.
  by rewrite (files_acquire _ _ _ _ E1).
Qed.

(** The entry as [fileclose] leaves it. *)
Definition closed_file (x : file) : file :=
  if 0 <? f_ref x - 1 then x <| f_ref := f_ref x - 1 |> else x <| f_ref := 0 |> <| f_type := FD_NONE |>.

Lemma fileclose_files f s s' :
  fileclose kernel_end f s = Ok tt s' ->
  exists x, k_files s !! f = Some x /\ 1 <= f_ref x /\ k_files s' = <[f := closed_file x]> (k_files s).
Proof.
  intros H. apply bind_inv in H as ([] & s1 & E1 & H). apply bind_inv in H as (x & s2 & E2 & H).
  apply file_get_inv in E2 as [-> Hx]. rewrite (files_acquire _ _ _ _ E1) in Hx.
  destruct (Z.ltb_spec (f_ref x) 1); [done|]. exists x. split_and!; [done|done|].
  apply bind_inv in H as ([] & s2 & E2 & H). injection E2 as <-.
  apply bind_inv in H as (ff & s2 & E2 & H). apply file_get_inv in E2 as [-> Hff]. rsimpl in Hff.
  rewrite (files_acquire _ _ _ _ E1), (alter_file _ _ _ _ Hx), list_lookup_insert_eq in Hff by (by eapply lookup_lt_Some).
  injection Hff as <-. unfold closed_file. rsimpl in H. destruct (0 <? f_ref x - 1).
  - rewrite (files_release _ _ _ _ H). rsimpl. by rewrite (files_acquire _ _ _ _ E1), (alter_file _ _ _ _ Hx).
  - apply bind_inv in H as ([] & s2 & E2 & H). injection E2 as <-. apply bind_inv in H as ([] & s3 & E3 & H).
    match type of H with ?m s3 = _ => assert (Hk : keeps k_files m) end.
    { destruct (f_type _); [apply keeps_ret|apply files_pipeclose|].
      repeat (keeps_step || apply files_begin_op || by apply files_iput || by apply files_end_op). }
    rewrite (Hk _ _ _ H), (files_release _ _ _ _ E3). rsimpl. rewrite (files_acquire _ _ _ _ E1), (alter_file _ _ _ _ Hx).
    rewrite (alter_file _ _ _ _ (list_lookup_insert_eq _ _ _ (lookup_lt_Some _ _ _ Hx))), list_insert_insert_eq. done.
Qed.

(** The clients: they open, duplicate and close files, change what the entries they hold
    say, and do anything that does not touch the table. *)
Inductive file_step : kstate * list nat -> kstate * list nat -> Prop :=
| fs_alloc f s s' A : filealloc s = Ok (Some f) s' -> file_step (s, A) (s', f :: A)
| fs_dup f s s' A :
    Z.of_nat (length A) < 2147483647 -> f ∈ A -> filedup f s = Ok f s' -> file_step (s, A) (s', f :: A)
| fs_close f s s' A B : fileclose kernel_end f s = Ok tt s' -> file_step (s, A ++ f :: B) (s', A ++ B)
| fs_data f g s A :
    f ∈ A -> (forall x, f_ref (g x) = f_ref x) -> file_step (s, A) (s <| k_files ::= alter g f |>, A)
| fs_other s s' A : k_files s' = k_files s -> file_step (s, A) (s', A).

Lemma ftable_step x y : file_step x y -> ftable_ok x.2 (k_files x.1) -> ftable_ok y.2 (k_files y.1).
Proof.
  intros Hstep HI. pose proof (ft_valid _ _ HI) as Hv. pose proof (ft_len _ _ HI) as Hlen.
  destruct Hstep as [f s s' A H|f s s' A Hlt Hin H|f s s' A B H|f g s A Hin Hg|s s' A H]; cbn [fst snd] in *.
  - apply filealloc_files in H as [Hs ->]. symmetry in Hs. apply scan_Some in Hs as ((x & Hx & Hr) & _).
    apply Z.eqb_eq in Hr. pose proof (lookup_lt_Some _ _ _ Hx) as Hf. rewrite Hlen in Hf.
    pose proof (ft_refs _ _ HI f x Hx) as Hc. rewrite (alter_file _ _ _ _ Hx).
    apply (ftable_change A); rsimpl; try done.
    + rewrite refs_cons, decide_True by done. lia.
    + intros j Hj. by rewrite refs_cons, decide_False.
    + by constructor.
  - apply filedup_files in H as [_ ->]. assert (Hf : (f < NFILE)%nat) by (by rewrite Forall_forall in Hv; apply Hv).
    destruct (lookup_lt_is_Some_2 (k_files s) f) as [x Hx]; [lia|]. rewrite (alter_file _ _ _ _ Hx).
    pose proof (ft_refs _ _ HI f x Hx) as Hc. pose proof (refs_le f A).
    assert (E : i32 (f_ref x + 1) = f_ref x + 1) by (apply i32_id; lia).
    apply (ftable_change A); rsimpl; rewrite ?E; try done.
    + rewrite refs_cons, decide_True by done. lia.
    + lia.
    + intros j Hj. by rewrite refs_cons, decide_False.
    + by constructor.
  - apply fileclose_files in H as (x & Hx & Hr & ->). pose proof (ft_refs _ _ HI f x Hx) as Hc.
    rewrite refs_app, refs_cons, decide_True in Hc by done. pose proof (lookup_lt_Some _ _ _ Hx) as Hf. rewrite Hlen in Hf.
    apply (ftable_change (A ++ f :: B)); try done.
    + unfold closed_file. rewrite refs_app. destruct (Z.ltb_spec 0 (f_ref x - 1)); rsimpl; lia.
    + unfold closed_file. destruct (Z.ltb_spec 0 (f_ref x - 1)); rsimpl; [lia|done].
    + intros j Hj. by rewrite !refs_app, refs_cons, decide_False.
    + apply Forall_app in Hv as [H1 H2]. inversion H2. by apply Forall_app.
  - by apply ftable_data.
  - by rewrite H.
Qed.
End Ledger.

(** ** Properties *)

Definition with_files (l : list file) (s : kstate) : kstate := s <| k_files := l |>.
Definition opened (x : file) : file := x <| f_ref := 1 |>.

Section Ops.
Context {i : nat} {c : cpu} {p : nat} {pr : proc}.

Lemma kmode_files l s : kmode i c p pr s -> kmode i c p pr (with_files l s).
Proof. intros Hk. by apply (kmode_frame i c p pr s). Qed.

Lemma filealloc_returns s :
  kmode i c p pr s ->
  let r := scan (fun f => f_ref f =? 0) (k_files s) in
  filealloc s = Ok r (with_files (match r with Some f => alter opened f (k_files s) | None => k_files s end) s).
Proof.
  intros Hk r. unfold filealloc. mstep by (by apply (kmode_acquire LFtable s Hk)). mstep. rsimpl. fold r.
  destruct r as [f|]; unfold file_upd; msteps; mstep by (by apply (kmode_release LFtable s _ Hk));
    unfold ret; f_equal; by destruct s.
Qed.

(** Closing an entry that was allocated and is not used yet. *)
Lemma fileclose_fresh {fl : Fuel} {dsk : Disk} ke f x s :
  kmode i c p pr s -> k_files s !! f = Some x -> f_ref x = 1 -> f_type x = FD_NONE ->
  fileclose ke f s = Ok tt (with_files (<[f := x <| f_ref := 0 |>]> (k_files s)) s).
Proof.
  intros Hk Hx Hr Ht. unfold fileclose. mstep by (by apply (kmode_acquire LFtable s Hk)).
  assert (Hget : forall y t, k_files t !! f = Some y -> file_get f t = Ok y t)
    by (intros y t Hy; unfold file_get; mstep; by rewrite Hy).
  mstep by (by apply Hget). rewrite Hr. simpl. unfold file_upd. mstep.
  mstep by (apply Hget; rsimpl; by rewrite list_lookup_alter_eq, Hx). rsimpl. rewrite Hr. simpl. mstep.
  mstep by (by apply (kmode_release LFtable s _ Hk)). rewrite Ht. unfold ret. f_equal. unfold with_files.
  apply kstate_ext; rsimpl; try reflexivity. rewrite (alter_file _ _ _ _ Hx).
  rewrite (alter_file _ _ _ _ (list_lookup_insert_eq _ _ _ (lookup_lt_Some _ _ _ Hx))), list_insert_insert_eq.
  f_equal. destruct x. unfold set. simpl in *. by subst.
Qed.
End Ops.


Lemma close_opened (l : list file) f x :
  l !! f = Some x -> f_ref x = 0 -> <[f := (opened x) <| f_ref := 0 |>]> (alter opened f l) = l.
Proof.
  intros Hx Hr. rewrite (alter_file _ _ _ _ Hx), list_insert_insert_eq, list_insert_id; [done|].
  rewrite Hx. f_equal. destruct x. unfold opened, set. simpl in *. by subst.
Qed.

Lemma with_files_id s : with_files (k_files s) s = s.
Proof. by destruct s. Qed.

(** The entries of the two ends. *)
Definition read_end (v : Z) (x : file) : file :=
  x <| f_type := FD_PIPE |> <| f_readable := 1 |> <| f_writable := 0 |> <| f_pipe := v |>.
Definition write_end (v : Z) (x : file) : file :=
  x <| f_type := FD_PIPE |> <| f_readable := 0 |> <| f_writable := 1 |> <| f_pipe := v |>.

Section Pipealloc.
Context (ke : Z) {fl : Fuel} {dsk : Disk} {i : nat} {c : cpu} {p : nat} {pr : proc}.

(** No page: both entries are given back. *)
Lemma pipealloc_bad_two a b x y s :
  kmode i c p pr s -> a <> b -> k_files s !! a = Some x -> k_files s !! b = Some y ->
  f_ref x = 0 -> f_ref y = 0 -> f_type x = FD_NONE -> f_type y = FD_NONE ->
  pipealloc_bad ke (Some a) (Some b) (with_files (alter opened b (alter opened a (k_files s))) s) = Ok None s.
Proof.
  intros Hk Hne Hx Hy Rx Ry Tx Ty. unfold pipealloc_bad, file_closeopt.
  set (l2 := alter opened b (alter opened a (k_files s))).
  mstep by (apply (fileclose_fresh (i := i) (c := c) (p := p) (pr := pr) ke a (opened x)); try done;
            [by apply kmode_files|simpl; unfold l2; by rewrite list_lookup_alter_ne, list_lookup_alter_eq, Hx]).
  mstep by (apply (fileclose_fresh (i := i) (c := c) (p := p) (pr := pr) ke b (opened y)); try done;
            [by do 2 apply kmode_files
            |simpl; unfold l2; by rewrite list_lookup_insert_ne, list_lookup_alter_eq, list_lookup_alter_ne, Hy]).
  unfold ret. f_equal. simpl.
  assert (E : <[b := (opened y) <| f_ref := 0 |>]> (<[a := (opened x) <| f_ref := 0 |>]> l2) = k_files s).
  { rewrite list_insert_insert_ne by done. unfold l2.
    rewrite (close_opened _ b y) by (done || by rewrite list_lookup_alter_ne). by rewrite (close_opened _ a x). }
  unfold with_files at 1. simpl. rewrite E. by destruct s.
Qed.

Lemma kmem_section_kmode s : kmode i c p pr s -> kmem_section i c s = s.
Proof. intros Hk. unfold kmem_section. case_match; [|done]. apply touch_id. by apply (kmode_touched s Hk). Qed.

Lemma unused_entry A l f :
  ftable_ok A l -> scan (fun f => f_ref f =? 0) l = Some f ->
  exists x, l !! f = Some x /\ f_ref x = 0 /\ f_type x = FD_NONE /\ (f ∉ A) /\ ftable_ok (f :: A) (alter opened f l).
Proof.
  intros HI Hs. apply scan_Some in Hs as ((x & Hx & Hr) & _). apply Z.eqb_eq in Hr. exists x.
  pose proof (ft_refs _ _ HI f x Hx) as Hc. split_and!; [done|done|by apply (ft_closed _ _ HI f)|rewrite refs_pos; lia|].
  rewrite (alter_file _ _ _ _ Hx). pose proof (lookup_lt_Some _ _ _ Hx) as Hf. rewrite (ft_len _ _ HI) in Hf.
  apply (ftable_change A); try done.
  - rewrite refs_cons, decide_True by done. unfold opened. rsimpl. lia.
  - intros j Hj. by rewrite refs_cons, decide_False.
  - constructor; [done|]. apply HI.
Qed.

Lemma none_unused A l :
  ftable_ok A l -> scan (fun f => f_ref f =? 0) l = None -> forall f, (f < NFILE)%nat -> f ∈ A.
Proof.
  intros HI Hs f Hf. destruct (lookup_lt_is_Some_2 l f) as [x Hx]; [by rewrite (ft_len _ _ HI)|].
  apply refs_pos. pose proof (ft_refs _ _ HI f x Hx) as Hr. pose proof (proj1 (scan_None _ _) Hs f x Hx) as Hn.
  apply Z.eqb_neq in Hn. lia.
Qed.

Lemma alter_ends f g h (l : list file) a b x y :
  a <> b -> l !! a = Some x -> l !! b = Some y ->
  alter g b (alter f a (alter h b (alter h a l))) = <[b := g (h y)]> (<[a := f (h x)]> l).
Proof.
  intros Hne Hx Hy. pose proof (lookup_lt_Some _ _ _ Hx). pose proof (lookup_lt_Some _ _ _ Hy).
  apply list_eq. intros j. destruct (decide (j = b)) as [->|Hb]; [|destruct (decide (j = a)) as [->|Ha]].
  - by rewrite list_lookup_alter_eq, list_lookup_alter_ne, list_lookup_alter_eq, list_lookup_alter_ne, Hy,
      list_lookup_insert_eq by (done || by rewrite length_insert).
  - by rewrite list_lookup_alter_ne, list_lookup_alter_eq, list_lookup_alter_ne, list_lookup_alter_eq, Hx,
      list_lookup_insert_ne, list_lookup_insert_eq by done.
  - by rewrite !list_lookup_alter_ne, !list_lookup_insert_ne by done.
Qed.

(** What a successful [pipealloc] leaves. *)
Definition new_pipe (v : Z) (mem : Z -> Z) : pipe :=
  mkPipe (map (fun k => mem (v + sizeof_spinlock + k)) (zrange 0 PIPESIZE)) 0 0 1 1.

Lemma pipealloc_cases A s l :
  kmode i c p pr s -> ftable_ok A (k_files s) -> kmem_ready i c s -> KmemInv ke s l ->
  (exists a b v l' km x y, pipealloc ke s =
     Ok (Some (a, b)) (s <| k_kmem := km |> <| k_pipes ::= <[v := new_pipe v (k_mem s)]> |>
       <| k_hw ::= set hw_locks (insert (LPipe v) unlocked) |>
       <| k_files := <[b := write_end v y]> (<[a := read_end v x]> (k_files s)) |>) /\
     a <> b /\ (a ∉ A) /\ (b ∉ A) /\ l = v :: l' /\ KmemInv ke (s <| k_kmem := km |>) l' /\
     ftable_ok (b :: a :: A) (<[b := write_end v y]> (<[a := read_end v x]> (k_files s)))) \/
  pipealloc ke s = Ok None s /\
    (l = [] \/ forall f1 f2, (f1 < NFILE)%nat -> (f2 < NFILE)%nat -> f1 ∉ A -> f2 ∉ A -> f1 = f2).
Proof.
  intros Hk HI Hr Hm. unfold pipealloc. mstep by (by apply (filealloc_returns s Hk)).
  destruct (scan _ (k_files s)) as [a|] eqn:Ha.
  2: { right. rewrite with_files_id. split; [done|]. right. intros f1 f2 H1 _ Hn. by destruct Hn; apply (none_unused A _ HI Ha). }
  destruct (unused_entry A _ a HI Ha) as (x & Hx & Rx & Tx & HaA & HI1).
  set (s1 := with_files (alter opened a (k_files s)) s). pose proof (kmode_files (alter opened a (k_files s)) s Hk) as Hk1.
  mstep by (by apply (filealloc_returns s1 Hk1)). change (k_files s1) with (alter opened a (k_files s)).
  destruct (scan _ (alter opened a (k_files s))) as [b|] eqn:Hb.
  2: { right. split.
       - unfold pipealloc_bad, file_closeopt. mstep by (apply (fileclose_fresh (i := i) (c := c) (p := p) (pr := pr) ke a
           (opened x)); [exact Hk1|unfold s1; simpl; by rewrite list_lookup_alter_eq, Hx|done|done]).
         unfold ret. f_equal. unfold with_files at 1. simpl. rewrite close_opened by done. unfold s1. by destruct s.
       - right. intros f1 f2 H1 H2 N1 N2. pose proof (none_unused _ _ HI1 Hb f1 H1) as M1.
         pose proof (none_unused _ _ HI1 Hb f2 H2) as M2. apply elem_of_cons in M1 as [->|?], M2 as [->|?]; done. }
  destruct (unused_entry _ _ b HI1 Hb) as (y & Hy & Ry & Ty & Hba & HI2). apply not_elem_of_cons in Hba as [Hba HbA].
  rewrite list_lookup_alter_ne in Hy by done.
  set (s2 := with_files (alter opened b (alter opened a (k_files s))) s1).
  assert (Hk2 : kmode i c p pr s2) by (by do 2 apply kmode_files).
  pose proof (kalloc_pops ke i c s2 l Hr (KmemInv_same ke s s2 l eq_refl eq_refl Hm)) as Hka. destruct l as [|v l'].
  - right. rewrite (kmem_section_kmode s2 Hk2) in Hka. mstep with Hka. cbn [Z.eqb]. split; [|by left].
    exact (pipealloc_bad_two a b x y s Hk (not_eq_sym Hba) Hx Hy Rx Ry Tx Ty).
  - left. destruct Hka as (s3 & Hka & Hm3 & Hv & Es3 & _). rewrite (kmem_section_kmode s2 Hk2) in Es3.
    exists a, b, v, l', (k_kmem s3), (opened x), (opened y). rewrite Es3 in Hka. split_and!; try done.
    + mstep with Hka. rewrite (proj2 (Z.eqb_neq v 0)) by done. mstep. mstep.
      mstep by (apply hwop_ok; reflexivity). unfold file_upd. msteps. unfold ret. f_equal.
      apply kstate_ext; rsimpl; try reflexivity. unfold s2, with_files. simpl.
      by apply (alter_ends (read_end v) (write_end v)).
    + apply (KmemInv_same ke s3); [by rewrite Es3|done|done].
    + rewrite <- (alter_ends (read_end v) (write_end v) opened _ a b) by done.
      apply (ftable_data _ _ b (write_end v)); [|by left|done]. apply (ftable_data _ _ a); [done|set_solver|done].
Qed.
End Pipealloc.

Lemma new_pipe_empty v mem : PipeInv (new_pipe v mem) [].
Proof.
  by split.
Qed.

(** [pipealloc] always returns.  When two entries of the table and a page are free, it
    makes an empty pipe, open at both ends, in that page, with its lock free, and two
    entries that were not in use its ends, one readable and one writable.  Otherwise it
    fails, and nothing has changed: no entry and no page is lost. *)
Theorem pipealloc_spec ke {fl : Fuel} {dsk : Disk} i c p pr A s l :
  kmode i c p pr s -> ftable_ok A (k_files s) -> kmem_ready i c s -> KmemInv ke s l ->
  (exists a b v l' s', pipealloc ke s = Ok (Some (a, b)) s' /\ kmode i c p pr s' /\
     l = v :: l' /\ KmemInv ke s' l' /\ (a ∉ A) /\ (b ∉ A) /\ a <> b /\ ftable_ok (b :: a :: A) (k_files s') /\
     (exists x, k_files s' !! a = Some (read_end v x)) /\ (exists y, k_files s' !! b = Some (write_end v y)) /\
     free (LPipe v) (k_hw s') /\
     exists pi, k_pipes s' !! v = Some pi /\ PipeInv pi [] /\ pi_readopen pi = 1 /\ pi_writeopen pi = 1) \/
  pipealloc ke s = Ok None s /\
    (l = [] \/ forall f1 f2, (f1 < NFILE)%nat -> (f2 < NFILE)%nat -> f1 ∉ A -> f2 ∉ A -> f1 = f2).
Proof.
  intros Hk HI Hr Hm.
  destruct (pipealloc_cases ke A s l Hk HI Hr Hm)
    as [(a & b & v & l' & km & x & y & Hok & Hne & HaA & HbA & El & Hm' & HI')|Hbad]; [left|by right].
  set (s' := s <| k_kmem := km |> <| k_pipes ::= _ |> <| k_hw ::= _ |> <| k_files := _ |>) in Hok.
  destruct (kmode_more_locks (LPipe v) s s' Hk eq_refl eq_refl) as [Hk' Hf'].
  assert (Hlen : length (k_files s) = NFILE) by apply HI.
  assert (Ha : (a < NFILE)%nat /\ (b < NFILE)%nat) by (pose proof (ft_valid _ _ HI') as Hv; inversion Hv; by inversion H2).
  exists a, b, v, l', s'. split_and!; try done.
  - by apply (KmemInv_same ke (s <| k_kmem := km |>)).
  - exists x. unfold s'. simpl. by rewrite list_lookup_insert_ne, list_lookup_insert_eq by (done || lia).
  - exists y. unfold s'. simpl. rewrite list_lookup_insert_eq; [done|]. rewrite length_insert. lia.
  - exists (new_pipe v (k_mem s)). split_and!; [apply lookup_insert_eq|apply new_pipe_empty|done|done].
Qed.

(** ** Witnesses *)

Definition file_demo : kstate := fs_demo <| k_kmem := mkKmem false page_example |>.

Lemma kmode_file_demo : kmode 0 fs_cpu 0 fs_proc file_demo.
Proof. apply kmode_fs_demo; reflexivity. Qed.

Lemma ftable_file_demo : ftable_ok [] (k_files file_demo).
Proof.
  split.
  - reflexivity.
  - intros k x Hx. apply lookup_replicate in Hx as [-> _]. reflexivity.
  - intros k x Hx _. apply lookup_replicate in Hx as [-> _]. reflexivity.
  - constructor.
Qed.

Lemma memide_files b : keeps k_files (@iderw memide b).
Proof.
  unfold iderw, memide, memide_iderw. repeat (keeps_step || apply files_holdingsleep || apply files_buf_get || apply files_buf_upd).
Qed.


Lemma pipealloc_spec_witness :
  exists a b s' pi, @pipealloc kernel_end_example 5%nat memide file_demo = Ok (Some (a, b)) s' /\
    k_pipes s' !! page_example = Some pi /\ PipeInv pi [].
Proof.
  destruct (@pipealloc_spec kernel_end_example 5%nat memide 0 fs_cpu 0 fs_proc [] file_demo [page_example])
    as [(a & b & v & l' & s' & Hok & _ & El & _ & _ & _ & _ & _ & _ & _ & _ & pi & Hpi & HI & _)|[_ [E|E]]].
  - exact kmode_file_demo.
  - exact ftable_file_demo.
  - intros Hu. discriminate Hu.
  - exact (KmemInv_same kernel_end_example one_page file_demo [page_example] eq_refl eq_refl one_page_inv).
  - injection El as <- _. exists a, b, s', pi. split; [exact Hok|]. split; [exact Hpi|exact HI].
  - discriminate E.
  - specialize (E 0%nat 1%nat (proj1 (Nat.ltb_lt 0 NFILE) eq_refl) (proj1 (Nat.ltb_lt 1 NFILE) eq_refl)
                  (not_elem_of_nil _) (not_elem_of_nil _)). discriminate E.
Defined.
