(* ===== verification/Life.v ===== *)
(** * The life of a process (proc.c: userinit, fork, exit, forkret)

    The operations of proc.c that involve files and inodes.  The functions of vm.c and
    string.c are parameters: those files are not among the sources. *)

From stdpp Require Import gmap.
From S2P Require Import Prelude Outcome Kernel Spinlock Kalloc Proc Sched Cprintf Sleeplock Bio Log Inode Icache Fs Pipe File Txn.

Definition pinit : K unit := initlock LPtable.

(** mmu.h *)
Definition SEG_UCODE : Z := 3.
Definition SEG_UDATA : Z := 4.
Definition DPL_USER : Z := 3.
Definition FL_IF : Z := 512.

(** [sizeof(p->name)] *)
Definition sizeof_name : Z := 16.

(** setupkvm and inituvm of vm.c, and safestrcpy of string.c: the destination as it was,
    the source, and the size. *)
Class Startup : Type := {
  setupkvm : K Z;
  inituvm : Z -> K unit;
  safestrcpy : list Z -> list Z -> Z -> list Z }.

Section Life.
Context (kernel_end : Z) {vm : VM} {st : Startup} {fl : Fuel} {dsk : Disk} {dsw : Devsw}.

(** The registers the first process starts with. *)
Definition init_trapframe : trapframe :=
  mkTrapframe 0 0 PGSIZE FL_IF
    (Z.lor (Z.shiftl SEG_UCODE 3) DPL_USER)
    (Z.lor (Z.shiftl SEG_UDATA 3) DPL_USER)
    (Z.lor (Z.shiftl SEG_UDATA 3) DPL_USER)
    (Z.lor (Z.shiftl SEG_UDATA 3) DPL_USER).

Definition userinit : K unit :=
  p ← allocproc;
  modify (fun s => s <| k_initproc := p |>);;
  p ← deref p;
  pgdir ← setupkvm;
  proc_upd p (fun x => x <| p_pgdir := pgdir |>);;
  if pgdir =? 0 then panic "userinit: out of memory?" else
  inituvm pgdir;;
  proc_upd p (fun x => x <| p_sz := PGSIZE |> <| p_trapframe := init_trapframe |>
    <| p_name ::= fun n => safestrcpy n (bytes "initcode" ++ [0]) sizeof_name |>);;
  cwd ← namei (bytes "/" ++ [0]);
  proc_upd p (fun x => x <| p_cwd := cwd |>);;
  acquire LPtable;;
  proc_upd p (fun x => x <| p_state := RUNNABLE |>);;
  release LPtable;;
  x ← proc_get p;
  change_queue (p_pid x) UNSET;;
  ret tt.

(** The loop of [fork] over the open files. *)
Definition dup_files (cur np : nat) : K unit :=
  foreach (seq 0 NOFILE) (fun i =>
    x ← proc_get cur;
    f ← deref (p_ofile x !! i);
    match f with
    | None => ret tt
    | Some f =>
      g ← filedup f;
      proc_upd np (fun x => x <| p_ofile ::= <[i := Some g]> |>)
    end).

(** The part of [fork] after the address space has been copied. *)
Definition fork_copy (cur np : nat) : K Z :=
  x ← proc_get cur;
  proc_upd np (fun y => y <| p_sz := p_sz x |> <| p_parent := Some cur |> <| p_trapframe := p_trapframe x |>);;
  (* Clear %eax so that fork returns 0 in the child. *)
  proc_upd np (fun y => y <| p_trapframe ::= fun tf => tf <| tf_eax := 0 |> |>);;
  dup_files cur np;;
  x ← proc_get cur;
  cwd ← deref (p_cwd x);
  cwd ← idup cwd;
  proc_upd np (fun y => y <| p_cwd := Some cwd |>);;
  x ← proc_get cur;
  proc_upd np (fun y => y <| p_name ::= fun n => safestrcpy n (p_name x) sizeof_name |>);;
  y ← proc_get np;
  let pid := p_pid y in
  acquire LPtable;;
  proc_upd np (fun y => y <| p_state := RUNNABLE |>);;
  acquire LTicks;;
  ticks ← gets k_ticks;
  proc_upd np (sched_upd (fun st => st <| last_run := i32 ticks |> <| arrival_time := i32 ticks |>));;
  release LTicks;;
  release LPtable;;
  y ← proc_get np;
  change_queue (p_pid y) UNSET;;
  ret pid.

Definition fork : K Z :=
  cur ← myproc;
  np ← allocproc;
  match np with
  | None => ret (-1)
  | Some np =>
    (* Copy process state from proc. *)
    cur ← deref cur;
    x ← proc_get cur;
    pgdir ← copyuvm (p_pgdir x) (p_sz x);
    proc_upd np (fun y => y <| p_pgdir := pgdir |>);;
    if pgdir =? 0 then
      y ← proc_get np;
      kfree kernel_end (p_kstack y);;
      proc_upd np (fun y => y <| p_kstack := 0 |> <| p_state := UNUSED |>);;
      ret (-1)
    else fork_copy cur np
  end.

(** The loop of [exit] over the open files. *)
Definition close_files (cur : nat) : K unit :=
  foreach (seq 0 NOFILE) (fun fd =>
    x ← proc_get cur;
    f ← deref (p_ofile x !! fd);
    match f with
    | None => ret tt
    | Some f =>
      fileclose kernel_end f;;
      proc_upd cur (fun x => x <| p_ofile ::= <[fd := None]> |>)
    end).

(** The loop of [exit] over the process table. *)
Definition abandon_children (cur : nat) : K unit :=
  foreach (seq 0 NPROC) (fun i =>
    x ← proc_get i;
    when (is_child cur x)
      (ip ← gets k_initproc;
       proc_upd i (fun x => x <| p_parent := ip |>);;
       when (bool_decide (p_state x = ZOMBIE)) (wakeup1 (CProc <$> ip)))).

(** The first half of [exit] gives up the files and the directory ... *)
Definition exit_release (cur : nat) : K unit :=
  close_files cur;;
  begin_op;;
  x ← proc_get cur;
  cwd ← deref (p_cwd x);
  iput cwd;;
  end_op;;
  proc_upd cur (fun x => x <| p_cwd := None |>).

(** ... and the second half the processor. *)
Definition exit_finish (cur : nat) : K unit :=
  acquire LPtable;;
  (* Parent might be sleeping in wait(). *)
  x ← proc_get cur;
  wakeup1 (CProc <$> p_parent x);;
  (* Pass abandoned children to init. *)
  abandon_children cur;;
  (* Jump into the scheduler, never to return. *)
  proc_upd cur (fun x => x <| p_state := ZOMBIE |>);;
  sched;;
  panic "zombie exit".

Definition exit : K unit :=
  cur ← myproc;
  ip ← gets k_initproc;
  if bool_decide (cur = ip) then panic "init exiting" else
  cur ← deref cur;
  exit_release cur;;
  exit_finish cur.

(** The static variable [first] is an argument and the result. *)
Definition forkret (first : Z) : K Z :=
  release LPtable;;
  if negb (first =? 0) then
    iinit ROOTDEV;;
    initlog ROOTDEV;;
    ret 0
  else ret first.
End Life.

(** ** fork *)

Section Fork.
Context {fl : Fuel} {dsk : Disk} {i : nat} {c : cpu} {p : nat} {pr : proc}.

Definition with_procs (l : list proc) (s : kstate) : kstate := s <| k_procs := l |>.

(** The references to open files that a process holds. *)
Definition opens (x : proc) : list nat := omap id (p_ofile x).

Lemma ftable_perm A B l : A ≡ₚ B -> ftable_ok A l -> ftable_ok B l.
Proof.
  intros HAB [H1 H2 H3 H4]. split; [done| |done|by rewrite <- HAB]. intros k x Hx. rewrite (H2 k x Hx).
  unfold refs. by rewrite HAB.
Qed.

Lemma filedup_ok A f s :
  kmode i c p pr s -> ftable_ok A (k_files s) -> f ∈ A -> Z.of_nat (length A) < 2147483647 ->
  exists l, filedup f s = Ok f (with_files l s) /\ ftable_ok (f :: A) l.
Proof.
  intros Hk HI Hin HA. pose proof (ft_valid _ _ HI) as Hv. rewrite Forall_forall in Hv. pose proof (Hv f Hin) as Hf.
  destruct (lookup_lt_is_Some_2 (k_files s) f) as [x Hx]; [by rewrite (ft_len _ _ HI)|].
  pose proof (ft_refs _ _ HI f x Hx) as Hr. apply refs_pos in Hin. pose proof (refs_le f A).
  exists (alter (fun x => x <| f_ref ::= fun r => i32 (r + 1) |>) f (k_files s)). split.
  - unfold filedup. mstep by (by apply (kmode_acquire LFtable s Hk)).
    mstep by (unfold file_get; mstep; rsimpl; by rewrite Hx). rewrite (proj2 (Z.ltb_ge _ _)) by lia. unfold file_upd. mstep.
    mstep by (by apply (kmode_release LFtable s _ Hk)). done.
  - rewrite (alter_file _ _ _ _ Hx). apply (ftable_change A); rsimpl; try done.
    + rewrite refs_cons, decide_True, i32_id by (done || lia). lia.
    + rewrite i32_id by lia. lia.
    + intros j Hj. by rewrite refs_cons, decide_False.
    + constructor; [done|]. apply HI.
Qed.

Lemma proc_upd_ok j x f s :
  k_procs s !! j = Some x -> proc_upd j f s = Ok tt (with_procs (<[j := f x]> (k_procs s)) s).
Proof.
  intros Hx. unfold proc_upd, modify, with_procs. f_equal. apply kstate_ext; rsimpl; try reflexivity. by apply alter_insert.
Qed.

(** The loop over the open files, from the slot [length pre] on. *)
Lemma dup_files_loop np pre rest A s y :
  np <> p -> kmode i c p pr s -> p_ofile pr = pre ++ rest -> k_procs s !! np = Some y ->
  p_ofile y = pre ++ replicate (length rest) None ->
  ftable_ok A (k_files s) -> (forall f, f ∈ omap id rest -> f ∈ A) ->
  Z.of_nat (length A + length rest) < 2147483647 ->
  exists l, foreach (seq (length pre) (length rest)) (fun i =>
      x ← proc_get p;
      f ← deref (p_ofile x !! i);
      match f with
      | None => ret tt
      | Some f => g ← filedup f; proc_upd np (fun x => x <| p_ofile ::= <[i := Some g]> |>)
      end) s =
    Ok tt (with_files l (with_procs (<[np := y <| p_ofile := pre ++ rest |>]> (k_procs s)) s)) /\
    ftable_ok (omap id rest ++ A) l.
Proof.
  intros Hne. revert pre A s y.
  induction rest as [|o rest IH]; intros pre A s y Hk Ho Hy Hoy HI Hin Hlen.
  - exists (k_files s). split; [|done]. simpl. unfold ret, with_files, with_procs. f_equal.
    apply kstate_ext; rsimpl; try reflexivity. symmetry. apply list_insert_id. rewrite Hy. f_equal.
    destruct y. unfold set. simpl in *. by subst.
  - cbn [length seq foreach]. pose proof (km_lookup _ _ _ _ _ Hk) as Hp.
    assert (Ho' : p_ofile pr !! length pre = Some o) by (rewrite Ho; by apply list_lookup_middle).
    set (y1 := y <| p_ofile := (pre ++ [o]) ++ replicate (length rest) None |>).
    assert (Hstep : exists l1, (x ← proc_get p; f ← deref (p_ofile x !! length pre);
        match f with
        | None => ret tt
        | Some f => g ← filedup f; proc_upd np (fun x => x <| p_ofile ::= <[length pre := Some g]> |>)
        end) s = Ok tt (with_files l1 (with_procs (<[np := y1]> (k_procs s)) s)) /\
        ftable_ok (omap id [o] ++ A) l1).
    { mstep by (by apply proc_get_ok). rewrite Ho'. cbn [deref]. mstep. destruct o as [f|].
      - destruct (filedup_ok A f s Hk HI) as (l1 & Hd & HI1); [apply Hin; set_solver|lia|].
        exists l1. split; [|done]. mstep with Hd. rewrite (proc_upd_ok np y) by done.
        assert (Ey : y <| p_ofile ::= <[length pre := Some f]> |> = y1).
        { unfold y1. unfold set at 1. rewrite Hoy, insert_app_r_alt, Nat.sub_diag by lia. by rewrite <- app_assoc. }
        by rewrite Ey.
      - exists (k_files s). split; [|done]. unfold ret, with_files, with_procs. f_equal.
        apply kstate_ext; rsimpl; try reflexivity. symmetry. apply list_insert_id. rewrite Hy. f_equal.
        unfold y1. rewrite <- app_assoc. simpl in *. rewrite <- Hoy. by destruct y. }
    destruct Hstep as (l1 & Hstep & HI1). mstep with Hstep.
    set (s1 := with_files l1 (with_procs (<[np := y1]> (k_procs s)) s)).
    assert (Hk1 : kmode i c p pr s1).
    { apply kmode_files. destruct Hk. split; try done. simpl. by rewrite list_lookup_insert_ne. }
    destruct (IH (pre ++ [o]) (omap id [o] ++ A) s1 y1) as (l & Hrun & HIl); try done.
    + by rewrite <- app_assoc.
    + simpl. apply list_lookup_insert_eq. by eapply lookup_lt_Some.
    + intros f Hf. apply elem_of_app. right. apply Hin. simpl. destruct o; set_solver.
    + destruct o; simpl in *; lia.
    + exists l. rewrite length_app, Nat.add_1_r in Hrun. rewrite Hrun. split.
      * f_equal. unfold s1, with_files, with_procs. apply kstate_ext; rsimpl; try reflexivity.
        rewrite list_insert_insert_eq. unfold y1. by rewrite <- app_assoc.
      * eapply ftable_perm; [|exact HIl]. destruct o; simpl; [|done]. by rewrite Permutation_middle.
Qed.

Lemma kmode_procs ps s :
  kmode i c p pr s -> ps !! p = Some pr -> kmode i c p pr (with_procs ps s).
Proof. intros [] Hp. by split. Qed.

(** The slot and the stack of the child. *)
Lemma fork_allocates ke np y v l s :
  kmode i c p pr s -> free LKmem (k_hw s) -> scan is_unused (k_procs s) = Some np -> k_procs s !! np = Some y ->
  KmemInv ke s (v :: l) ->
  exists km, allocproc s = Ok (Some np) (with_procs (<[np := embryo (k_nextpid s) v y]> (k_procs s))
                                           (s <| k_nextpid := i32 (k_nextpid s + 1) |> <| k_kmem := km |>)) /\
    KmemInv ke (s <| k_kmem := km |>) l.
Proof.
  intros Hk Hf Hs Hy HI. destruct (allocproc_alloc ke i c s np y v l) as (km & Hm & Ha); try done; [apply Hk| |].
  { by apply (km_locks _ _ _ _ _ Hk). }
  exists km. split; [|done]. rewrite Ha. f_equal. unfold with_procs. apply kstate_ext; rsimpl; try reflexivity.
  by apply (kmode_touched s Hk).
Qed.

(** The child becomes runnable and gets its times, under both locks. *)
Definition timed (ticks : Z) (y : proc) : proc :=
  sched_upd (fun st => st <| last_run := i32 ticks |> <| arrival_time := i32 ticks |>) (y <| p_state := RUNNABLE |>).

Lemma fork_starts {A} (k : K A) np y s :
  kmode i c p pr s -> np <> p -> free LTicks (k_hw s) -> k_procs s !! np = Some y ->
  (acquire LPtable;;
   proc_upd np (fun y => y <| p_state := RUNNABLE |>);;
   acquire LTicks;;
   ticks ← gets k_ticks;
   proc_upd np (sched_upd (fun st => st <| last_run := i32 ticks |> <| arrival_time := i32 ticks |>));;
   release LTicks;;
   release LPtable;;
   k) s = k (with_procs (<[np := timed (k_ticks s) y]> (k_procs s)) s).
Proof.
  intros Hk Hne Hf Hy. mstep by (by apply (kmode_acquire LPtable s Hk)).
  mstep by (by apply (proc_upd_ok np y)).
  set (s1 := with_procs _ _). set (c1 := pushed_cpu (hw_if (k_hw s)) c).
  assert (HC1 : CpuOk i c1 (k_hw s1)) by (apply CpuOk_acquired, Hk).
  mstep by (apply (kacquire_ok i c1); [done|by apply free_acquired]). mstep.
  mstep by (apply (proc_upd_ok np (y <| p_state := RUNNABLE |>)); apply list_lookup_insert_eq; by eapply lookup_lt_Some).
  mstep by (apply (krelease_ok i c1 LTicks (k_hw s1)); [done|by apply free_acquired|done]).
  mstep by (apply (kmode_release LPtable s _ Hk); [done|];
            apply (touched_nested i c1); [done|by eapply pushed_ncli_pos, Hk]).
  f_equal. unfold s1, with_procs. rsimpl. rewrite list_insert_insert_eq. by destruct s.
Qed.

(** The state in which the slot [np] of the table [ps] is [y]. *)
Definition child_at (np : nat) (ps : list proc) (y : proc) (s : kstate) : kstate := with_procs (<[np := y]> ps) s.

Lemma proc_upd_child np ps y f s :
  (np < length ps)%nat -> proc_upd np f (child_at np ps y s) = Ok tt (child_at np ps (f y) s).
Proof.
  intros Hn. rewrite (proc_upd_ok np y) by (by apply list_lookup_insert_eq). unfold child_at, with_procs. rsimpl.
  by rewrite list_insert_insert_eq.
Qed.

Lemma proc_get_child np ps y s :
  (np < length ps)%nat -> proc_get np (child_at np ps y s) = Ok y (child_at np ps y s).
Proof. intros Hn. apply proc_get_ok. by apply list_lookup_insert_eq. Qed.

Lemma kmode_child np ps y s :
  np <> p -> ps !! p = Some pr -> kmode i c p pr s -> kmode i c p pr (child_at np ps y s).
Proof. intros Hne Hp Hk. apply kmode_procs; [done|]. by rewrite list_lookup_insert_ne. Qed.

(** The child, from its slot [y] and its parent. *)
Definition child {st : Startup} (ticks : Z) (y : proc) : proc :=
  in_queue LCFS (timed ticks
    (y <| p_sz := p_sz pr |> <| p_parent := Some p |> <| p_trapframe := (p_trapframe pr) <| tf_eax := 0 |> |>
       <| p_ofile := p_ofile pr |> <| p_cwd := p_cwd pr |>
       <| p_name ::= fun n => safestrcpy n (p_name pr) sizeof_name |>)).

(** The last step puts the child, the only process with its pid, into the queue. *)
Lemma queue_child np ps y s :
  kmode i c p pr (child_at np ps y s) -> (np < length ps)%nat -> 1 < p_pid y ->
  (forall j x, j <> np -> ps !! j = Some x -> p_pid x <> p_pid y) ->
  exists q, change_queue (p_pid y) UNSET (child_at np ps y s) = Ok q (child_at np ps (in_queue LCFS y) s).
Proof.
  intros Hk Hn Hpid Hfresh.
  rewrite (change_queue_cases i c) by (by apply (km_cpu _ _ _ _ _ Hk) || apply (km_locks _ _ _ _ _ Hk)).
  unfold default_queue. rewrite (proj2 (Z.eqb_neq (p_pid y) 1)), (proj2 (Z.ltb_lt 1 (p_pid y))) by lia.
  assert (Hs : scan (has_pid (p_pid y)) (k_procs (child_at np ps y s)) = Some np).
  { apply scan_Some. split.
    - exists y. split; [by apply list_lookup_insert_eq|]. apply Z.eqb_refl.
    - intros j x Hj Hx. change (k_procs (child_at np ps y s)) with (<[np := y]> ps) in Hx.
      rewrite list_lookup_insert_ne in Hx by lia. apply Z.eqb_neq, (Hfresh j); [lia|done]. }
  cbn [Z.eqb UNSET]. rewrite Hs. eexists. f_equal. unfold child_at, with_procs.
  apply kstate_ext; rsimpl; try reflexivity; [by apply (kmode_touched _ Hk)|].
  rewrite (alter_insert _ _ y) by (by apply list_lookup_insert_eq). by rewrite list_insert_insert_eq.
Qed.

Lemma fork_copies {st : Startup} np ps y cwd id A T s :
  np <> p -> kmode i c p pr s -> ps !! p = Some pr -> (np < length ps)%nat -> free LTicks (k_hw s) ->
  length (p_ofile pr) = NOFILE -> p_ofile y = replicate NOFILE None -> p_cwd pr = Some cwd ->
  ftable_ok A (k_files s) -> (forall f, f ∈ opens pr -> f ∈ A) -> Z.of_nat (length A + NOFILE) < 2147483647 ->
  table_ok T (k_inodes s) -> (cwd, id) ∈ T -> Z.of_nat (length T) < 2147483647 ->
  1 < p_pid y -> (forall j x, j <> np -> ps !! j = Some x -> p_pid x <> p_pid y) ->
  exists lf li, fork_copy p np (child_at np ps y s) =
      Ok (p_pid y) (child_at np ps (child (k_ticks s) y) (with_inodes li (with_files lf s))) /\
    ftable_ok (opens pr ++ A) lf /\ table_ok ((cwd, id) :: T) li.
Proof.
  intros Hne Hk Hp Hn Hft Hlen Hoy Hcwd HA Hop Hroom HT Hin HT' Hpid Hfresh. unfold fork_copy.
  assert (Hget : forall y t, kmode i c p pr (child_at np ps y t) -> proc_get p (child_at np ps y t) = Ok pr (child_at np ps y t)).
  { intros y' t Hk'. apply proc_get_ok, Hk'. }
  mstep by (by apply Hget, kmode_child). mstep by (by apply proc_upd_child). mstep by (by apply proc_upd_child). rsimpl.
  set (y2 := y <| p_sz := p_sz pr |> <| p_parent := Some p |> <| p_trapframe := p_trapframe pr |>
               <| p_trapframe ::= fun tf => tf <| tf_eax := 0 |> |>).
  destruct (dup_files_loop np [] (p_ofile pr) A (child_at np ps y2 s) y2) as (lf & Hd & HIf); try done.
  { by apply kmode_child. }
  { by apply list_lookup_insert_eq. }
  { unfold y2. rsimpl. by rewrite Hoy, Hlen. }
  { by rewrite Hlen. }
  set (y3 := y2 <| p_ofile := [] ++ p_ofile pr |>) in Hd.
  assert (E3 : with_files lf (with_procs (<[np := y3]> (k_procs (child_at np ps y2 s))) (child_at np ps y2 s)) =
    child_at np ps y3 (with_files lf s)).
  { unfold child_at, with_procs, with_files. rsimpl. rewrite list_insert_insert_eq. by destruct s. }
  rewrite E3, Hlen in Hd. mstep with Hd. clear E3 Hd.
  pose proof (kmode_files lf s Hk) as Hk3. mstep by (by apply Hget, kmode_child). rewrite Hcwd. cbn [deref]. mstep.
  destruct (idup_ok cwd id T _ (kmode_child np ps y3 _ Hne Hp Hk3) HT HT' Hin) as (li & Hi & HIi & _).
  mstep with Hi. change (with_inodes li (child_at np ps y3 (with_files lf s)))
    with (child_at np ps y3 (with_inodes li (with_files lf s))).
  set (s4 := with_inodes li (with_files lf s)).
  assert (Hk4 : kmode i c p pr s4) by (by apply (kmode_frame i c p pr (with_files lf s))).
  mstep by (by apply proc_upd_child). mstep by (by apply Hget, kmode_child). mstep by (by apply proc_upd_child).
  mstep by (by apply proc_get_child). rsimpl. set (y5 := y3 <| p_cwd := _ |> <| p_name ::= _ |>).
  rewrite (fork_starts _ np y5 (child_at np ps y5 s4)); [|by apply kmode_child|done|done|by apply list_lookup_insert_eq].
  set (y6 := timed _ y5).
  assert (E6 : with_procs (<[np := y6]> (k_procs (child_at np ps y5 s4))) (child_at np ps y5 s4) = child_at np ps y6 s4).
  { unfold child_at, with_procs. rsimpl. by rewrite list_insert_insert_eq. }
  rewrite E6. clear E6. mstep by (by apply proc_get_child). change (p_pid y6) with (p_pid y).
  exists lf, li. split; [|split; [done|done]].
  destruct (queue_child np ps y6 s4) as (q & Hq); [by apply kmode_child|done..|]. mstep with Hq. unfold ret. f_equal.
  unfold child_at. do 2 f_equal. unfold y6, y5, y3, y2, child. rewrite Hcwd. by destruct y.
Qed.

(** What proc.c relies on in copyuvm: it works on memory only, and when it fails it gives
    back the pages it took. *)
Definition copies_memory (ke : Z) (vm : VM) : Prop := forall d sz s,
  kmode i c p pr s -> free LKmem (k_hw s) ->
  exists r m km, copyuvm d sz s = Ok r (s <| k_mem := m |> <| k_kmem := km |>) /\
    km_use_lock km = km_use_lock (k_kmem s) /\
    (r = 0 -> forall l, KmemInv ke s l -> exists l', KmemInv ke (s <| k_mem := m |> <| k_kmem := km |>) l' /\ l' ≡ₚ l).

Lemma fork_without_copy {vm : VM} {st : Startup} ke np ps y l s :
  (np < length ps)%nat -> kmode i c p pr (child_at np ps y s) -> free LKmem (k_hw s) -> KmemInv ke s l ->
  page_ok ke (p_kstack y) = true -> p_kstack y ∉ l ->
  exists s', (y ← proc_get np; kfree ke (p_kstack y);;
      proc_upd np (fun y => y <| p_kstack := 0 |> <| p_state := UNUSED |>);; ret (-1)) (child_at np ps y s) =
    Ok (-1) (child_at np ps (y <| p_kstack := 0 |> <| p_state := UNUSED |>) s') /\
    KmemInv ke s' (p_kstack y :: l) /\ k_files s' = k_files s /\ k_inodes s' = k_inodes s.
Proof.
  intros Hn Hk Hf HI Hv Hnin. mstep by (by apply proc_get_child).
  destruct (kfree_pushes ke i c (p_kstack y) (child_at np ps y s) l) as (s1 & Hkf & HI1 & _ & Es1); try done.
  { intros _. split; [apply (km_cpu _ _ _ _ _ Hk)|done]. }
  { by apply (KmemInv_same ke s). }
  rewrite (kmem_section_kmode _ Hk) in Es1.
  exists (s <| k_mem := k_mem s1 |> <| k_kmem ::= set km_freelist (fun _ => p_kstack y) |>).
  assert (E1 : s1 = child_at np ps y (s <| k_mem := k_mem s1 |> <| k_kmem ::= set km_freelist (fun _ => p_kstack y) |>))
    by (rewrite Es1 at 1; done).
  mstep with Hkf. split; [|split; [|done]].
  - rewrite E1 at 1. mstep by (by apply proc_upd_child). done.
  - apply (KmemInv_same ke s1); [done| |done]. by rewrite E1.
Qed.
End Fork.

(** ** exit *)

Section Exit.
Context {fl : Fuel} {dsk : Disk} {i : nat} {c : cpu} {p : nat} {pr : proc}.

Definition adopt (ip : option nat) (x : proc) : proc := if is_child p x then x <| p_parent := ip |> else x.
Definition wake_if (b : bool) (ch : option chan) (ps : list proc) : list proc :=
  if b then map (wake_one ch) ps else ps.
(** The table when the children among [ps] have been handed over. *)
Definition adopted (ip : option nat) (ps : list proc) : list proc :=
  wake_if (existsb (is_zombie_child p) ps) (CProc <$> ip) (map (adopt ip) ps).

Lemma wake_one_child ch x : is_child p (wake_one ch x) = is_child p x.
Proof. unfold wake_one. by destruct (_ && _). Qed.

Lemma wake_one_zombie ch x : bool_decide (p_state (wake_one ch x) = ZOMBIE) = bool_decide (p_state x = ZOMBIE).
Proof.
  unfold wake_one. destruct (bool_decide (p_state x = SLEEPING)) eqn:E; [|done].
  apply bool_decide_eq_true in E. destruct (bool_decide (p_chan x = ch)); [|done]. simpl. by rewrite E.
Qed.

Lemma wake_one_adopt ch ip x : wake_one ch (adopt ip x) = adopt ip (wake_one ch x).
Proof.
  unfold adopt. rewrite wake_one_child. destruct (is_child p x); [|done]. unfold wake_one. simpl. by destruct (_ && _).
Qed.

Lemma wake_if_twice a b ch ps : wake_if b ch (wake_if a ch ps) = wake_if (a || b) ch ps.
Proof.
  destruct a, b; try done. simpl. rewrite map_map. apply map_ext. intros x. apply wake_one_idem.
Qed.

Lemma wake_if_lookup b ch ps k x :
  ps !! k = Some x -> exists x', wake_if b ch ps !! k = Some x' /\ is_child p x' = is_child p x /\
    bool_decide (p_state x' = ZOMBIE) = bool_decide (p_state x = ZOMBIE).
Proof.
  intros Hx. destruct b; [|by exists x]. exists (wake_one ch x). split_and!.
  - unfold wake_if. change (@map proc proc) with (@fmap list _ proc proc). by rewrite list_lookup_fmap, Hx.
  - apply wake_one_child.
  - apply wake_one_zombie.
Qed.

Lemma wake_if_alter b ch ip k ps :
  alter (fun x => x <| p_parent := ip |>) k (wake_if b ch ps) = wake_if b ch (alter (fun x => x <| p_parent := ip |>) k ps).
Proof.
  destruct b; [|done]. symmetry. apply (list_fmap_alter (wake_one ch)), Forall_true. intros x. unfold wake_one. simpl.
  by destruct (_ && _).
Qed.

Lemma existsb_snoc {X} (f : X -> bool) l x : existsb f (l ++ [x]) = existsb f l || f x.
Proof. rewrite existsb_app. simpl. by rewrite orb_false_r. Qed.

Lemma abandon_loop ip pre rest s :
  k_initproc s = ip ->
  k_procs s = wake_if (existsb (is_zombie_child p) pre) (CProc <$> ip) (map (adopt ip) pre ++ rest) ->
  foreach (seq (length pre) (length rest)) (fun i =>
    x ← proc_get i;
    when (is_child p x)
      (ip ← gets k_initproc;
       proc_upd i (fun x => x <| p_parent := ip |>);;
       when (bool_decide (p_state x = ZOMBIE)) (wakeup1 (CProc <$> ip)))) s =
  Ok tt (with_procs (adopted ip (pre ++ rest)) s).
Proof.
  intros Hip. revert pre s Hip. induction rest as [|x0 rest IH]; intros pre s Hip Hps.
  - rewrite app_nil_r in *. simpl. unfold ret. f_equal. unfold with_procs, adopted. rewrite <- Hps. by destruct s.
  - cbn [length seq foreach].
    destruct (wake_if_lookup (existsb (is_zombie_child p) pre) (CProc <$> ip) (map (adopt ip) pre ++ x0 :: rest) (length pre) x0)
      as (x & Hx & Hc & Hz). { apply list_lookup_middle. by rewrite length_map. }
    rewrite <- Hps in Hx.
    set (s1 := with_procs (wake_if (existsb (is_zombie_child p) (pre ++ [x0])) (CProc <$> ip)
                             (map (adopt ip) (pre ++ [x0]) ++ rest)) s).
    erewrite (bind_ok _ _ s tt s1).
    + replace (pre ++ x0 :: rest) with ((pre ++ [x0]) ++ rest) by (by rewrite <- app_assoc).
      replace (S (length pre)) with (length (pre ++ [x0])) by (rewrite length_app; simpl; lia). rewrite IH by done. done.
    + mstep by (by apply proc_get_ok). rewrite Hc, Hz. unfold s1. rewrite existsb_snoc, map_app, <- app_assoc. cbn [map app].
      change (adopt ip x0) with (if is_child p x0 then x0 <| p_parent := ip |> else x0).
      change (is_zombie_child p x0) with (is_child p x0 && bool_decide (p_state x0 = ZOMBIE)).
      destruct (is_child p x0); cbn [when andb].
      * mstep. unfold proc_upd. mstep. rewrite Hip.
        assert (E : alter (fun x => x <| p_parent := ip |>) (length pre) (k_procs s) =
          wake_if (existsb (is_zombie_child p) pre) (CProc <$> ip) (map (adopt ip) pre ++ (x0 <| p_parent := ip |>) :: rest)).
        { rewrite Hps, wake_if_alter. f_equal. rewrite (alter_insert _ _ x0) by (apply list_lookup_middle; by rewrite length_map).
          by rewrite insert_app_r_alt, length_map, Nat.sub_diag by (by rewrite length_map). }
        destruct (bool_decide (p_state x0 = ZOMBIE)); cbn [when]; unfold wakeup1, modify, ret; f_equal;
          unfold with_procs; apply kstate_ext; rsimpl; try reflexivity; rewrite E.
        -- by rewrite <- wake_if_twice.
        -- by rewrite orb_false_r.
      * unfold ret. f_equal. rewrite orb_false_r, <- Hps. by destruct s.
Qed.

Lemma abandon_ok ip s :
  k_initproc s = ip -> length (k_procs s) = NPROC -> abandon_children p s = Ok tt (with_procs (adopted ip (k_procs s)) s).
Proof.
  intros Hip Hl. unfold abandon_children. rewrite <- Hl. apply (abandon_loop ip [] (k_procs s)); [done|done].
Qed.

(** A process other than the one that exits: children change parents, and a process may
    have been woken; nothing else changes. *)
Definition survivor (ip : option nat) (x x' : proc) : Prop :=
  x' = adopt ip x \/ p_state x = SLEEPING /\ x' = (adopt ip x) <| p_state := RUNNABLE |>.

Lemma wake_survivor ch ip x y : survivor ip x y -> survivor ip x (wake_one ch y).
Proof.
  unfold survivor, wake_one. intros [->|[Hs ->]].
  - destruct (bool_decide (p_state (adopt ip x) = SLEEPING) && _) eqn:E; [|by left]. right. split; [|done].
    apply andb_true_iff in E as [E%bool_decide_eq_true _]. unfold adopt in E. by destruct (is_child p x).
  - right. split; [done|]. by destruct (_ && _).
Qed.

Lemma asleep_adopted ch ip ps : nobody_asleep ch ps -> nobody_asleep ch (map (adopt ip) ps).
Proof.
  intros H. apply Forall_fmap. eapply Forall_impl; [exact H|]. intros x Hx. unfold compose, adopt. by destruct (is_child p x).
Qed.

Lemma asleep_wake ch ch' ps : nobody_asleep ch ps -> nobody_asleep ch (map (wake_one ch') ps).
Proof.
  intros H. apply Forall_fmap. eapply Forall_impl; [exact H|]. intros x Hx. unfold compose, wake_one.
  destruct (_ && _); [|done]. by intros [? _].
Qed.

Lemma asleep_adopted_all ch ip ps : nobody_asleep ch ps -> nobody_asleep ch (adopted ip ps).
Proof.
  intros H. unfold adopted, wake_if. destruct (existsb _ ps); [apply asleep_wake|]; by apply asleep_adopted.
Qed.

Lemma asleep_zombie ch j ps : nobody_asleep ch ps -> nobody_asleep ch (alter (fun x => x <| p_state := ZOMBIE |>) j ps).
Proof. intros H. apply Forall_alter; [done|]. by intros x _ _ [? _]. Qed.

Lemma existsb_wake ch ps : existsb (is_zombie_child p) (map (wake_one ch) ps) = existsb (is_zombie_child p) ps.
Proof.
  induction ps as [|x ps IH]; [done|]. simpl. rewrite IH. f_equal. unfold is_zombie_child.
  by rewrite wake_one_child, wake_one_zombie.
Qed.

Lemma adopted_parent ip ps : ip <> Some p -> Forall (fun x => p_parent x <> Some p) (adopted ip ps).
Proof.
  intros Hip. assert (H : Forall (fun x => p_parent x <> Some p) (map (adopt ip) ps)).
  { apply Forall_fmap, Forall_true. intros x. unfold compose, adopt, is_child.
    destruct (bool_decide (p_parent x = Some p)) eqn:E; [done|]. by apply bool_decide_eq_false in E. }
  unfold adopted, wake_if. destruct (existsb _ ps); [|done]. apply Forall_fmap. eapply Forall_impl; [exact H|].
  intros x Hx. unfold compose, wake_one. by destruct (_ && _).
Qed.

Lemma adopted_survivors ch ip ps : Forall2 (survivor ip) ps (adopted ip (map (wake_one ch) ps)).
Proof.
  assert (H : Forall2 (survivor ip) ps (map (adopt ip) (map (wake_one ch) ps))).
  { rewrite map_map. apply Forall2_fmap_r, Forall_Forall2_diag, Forall_true. intros x. change (survivor ip x (adopt ip (wake_one ch x))). rewrite <- wake_one_adopt.
    apply wake_survivor. by left. }
  unfold adopted, wake_if. destruct (existsb _ _); [|done]. apply Forall2_fmap_r. eapply Forall2_impl; [exact H|].
  intros x y. apply wake_survivor.
Qed.
End Exit.

(** A process without open files, whose directory stays on the disk, gives up its
    directory without a commit while others are in a transaction. *)
Section Release.
Context (ke : Z) {fl : Fuel} {dsk : Disk} {i : nat} {c : cpu} {p : nat} {pr : proc}.

Lemma foreach_nothing {A} (l : list A) (body : A -> K unit) s :
  (forall a, a ∈ l -> body a s = Ok tt s) -> foreach l body s = Ok tt s.
Proof.
  induction l as [|a l IH]; intros H; [done|]. simpl. mstep by (apply H; by left). apply IH. intros b Hb. apply H. by right.
Qed.

Lemma close_files_none s :
  k_procs s !! p = Some pr -> p_ofile pr = replicate NOFILE None -> close_files ke p s = Ok tt s.
Proof.
  intros Hp Ho. apply foreach_nothing. intros fd Hfd. apply elem_of_seq in Hfd. mstep by (by apply proc_get_ok).
  rewrite Ho, lookup_replicate_2 by lia. done.
Qed.

Lemma exit_release_idle cwd x s :
  kmode i c p pr s -> p_ofile pr = replicate NOFILE None -> p_cwd pr = Some cwd ->
  (cwd < NINODE)%nat -> sl_free (SLInode cwd) s -> k_inodes s !! cwd = Some x -> stays x -> 0 < i_ref x < 2147483648 ->
  out_of_room (k_log s) = false -> l_committing (k_log s) = 0 -> 1 <= l_outstanding (k_log s) -> 0 <= lh_n (k_log s) ->
  exists s1, exit_release ke p s = Ok tt s1 /\ kmode i c p (pr <| p_cwd := None |>) s1 /\
    k_initproc s1 = k_initproc s /\ length (k_procs s1) = length (k_procs s).
Proof.
  intros Hk Ho Hc Hi Hf Hx Hst Href Hroom Hcom Hout Hn. unfold exit_release.
  mstep by (apply close_files_none; [apply Hk|done]).
  mstep by (apply (begin_op_enters (ci := i) (c := c) (p := p) (pr := pr)); done || lia).
  set (s1 := s <| k_log ::= _ |>). assert (Hk1 : kmode i c p pr s1) by (by apply (kmode_frame i c p pr s)).
  mstep by (apply proc_get_ok; by apply (km_lookup _ _ _ _ _ Hk1)). rewrite Hc. cbn [deref]. mstep.
  mstep by (by apply (iput_ok (ci := i) (c := c) (p := p) (pr := pr) cwd x s1)).
  set (s2 := with_inodes _ _).
  assert (Hk2 : kmode i c p pr s2) by (apply (kmode_frame i c p pr s1); [done|done|apply woken_wakeup]).
  assert (Hlt : l_outstanding (k_log s) < 2147483647).
  { unfold out_of_room in Hroom. apply orb_false_iff in Hroom as [_ Hr%Z.ltb_ge]. unfold LOGSIZE, MAXOPBLOCKS in Hr. lia. }
  mstep by (apply (end_op_others (ci := i) (c := c) (p := p) (pr := pr)); [done|done|]; unfold s2, s1, with_inodes; rsimpl; lia).
  set (s3 := s2 <| k_log ::= _ |> <| k_procs ::= _ |>).
  assert (Hk3 : kmode i c p pr s3) by (apply (kmode_frame i c p pr s2); [done|done|apply woken_wakeup]).
  pose proof (km_lookup _ _ _ _ _ Hk3) as Hp3. rewrite (proc_upd_ok p pr) by done. eexists. split; [reflexivity|].
  split_and!; [|done|].
  - destruct Hk3 as [H1 H2 H3 H4 H5 H6 H7]. split; try done. simpl. apply list_lookup_insert_eq. by eapply lookup_lt_Some.
  - unfold with_procs. rsimpl. rewrite length_insert. unfold s3, wake_log. rsimpl. rewrite length_map. unfold s2, with_inodes.
    rsimpl. by rewrite length_map.
Qed.
End Release.

(** ** Properties *)

(** A process that may fork: the tables agree with the ledgers [A] of open files and [T]
    of inodes, which hold the references of the process; free slots have no files; and
    the next pid is not in use. *)
Record can_fork (ke : Z) (i : nat) (c : cpu) (p : nat) (pr : proc) (A : list nat) (T : list (nat * (Z * Z)))
    (cwd : nat) (id : Z * Z) (l : list Z) (s : kstate) : Prop := {
  cf_kmode : kmode i c p pr s;
  cf_kmem : free LKmem (k_hw s);
  cf_ticks : free LTicks (k_hw s);
  cf_pages : KmemInv ke s l;
  cf_ofile : length (p_ofile pr) = NOFILE;
  cf_files : ftable_ok A (k_files s);
  cf_opens : forall f, f ∈ opens pr -> f ∈ A;
  cf_room : Z.of_nat (length A + NOFILE) < 2147483647;
  cf_cwd : p_cwd pr = Some cwd;
  cf_inodes : table_ok T (k_inodes s);
  cf_ref : (cwd, id) ∈ T;
  cf_refs : Z.of_nat (length T) < 2147483647;
  cf_unused : forall j x, k_procs s !! j = Some x -> p_state x = UNUSED -> p_ofile x = replicate NOFILE None;
  cf_pid : 1 < k_nextpid s;
  cf_fresh : forall j x, k_procs s !! j = Some x -> p_pid x <> k_nextpid s }.

(** A slot is as it was, or was and is unused. *)
Definition same_process (x x' : proc) : Prop := x' = x \/ p_state x = UNUSED /\ p_state x' = UNUSED.

Lemma same_process_insert ps np y y' :
  ps !! np = Some y -> p_state y = UNUSED -> p_state y' = UNUSED -> Forall2 same_process ps (<[np := y']> ps).
Proof.
  intros Hy H1 H2. rewrite <- (list_insert_id ps np y Hy) at 1.
  apply Forall2_insert; [|by right]. apply Forall_Forall2_diag, Forall_true. by left.
Qed.


(** C24. A process that has given up its files and directory leaves as a zombie.  It switches
    to the scheduler holding the lock of the table alone; it is a zombie by then; init is
    the parent of all its children; neither its parent nor, when a child is a zombie,
    init is left asleep in [wait]; nothing else has changed; and if it were ever resumed,
    it would panic. *)
Theorem exit_leaves_zombie ke {vm : VM} {fl : Fuel} {dsk : Disk} i c p pr pr1 s s1 :
  kmode i c p pr s -> k_initproc s <> Some p -> exit_release ke p s = Ok tt s1 ->
  kmode i c p pr1 s1 -> k_initproc s1 = k_initproc s -> length (k_procs s1) = NPROC ->
  exists s2 k, exit ke s = Switch s2 k /\ k_hw s2 = acquired i c LPtable (k_hw s1) /\
    (exists x, k_procs s2 !! p = Some x /\ p_state x = ZOMBIE /\ p_pid x = p_pid pr1) /\
    Forall (fun x => p_parent x <> Some p) (k_procs s2) /\
    nobody_asleep (CProc <$> p_parent pr1) (k_procs s2) /\
    (existsb (is_zombie_child p) (k_procs s1) = true -> nobody_asleep (CProc <$> k_initproc s) (k_procs s2)) /\
    (forall j x, j <> p -> k_procs s1 !! j = Some x ->
       exists x', k_procs s2 !! j = Some x' /\ survivor (p := p) (k_initproc s) x x') /\
    forall i' c' h' s', resumed i' c' h' s' -> k s' = Panic "zombie exit".
Proof.
  intros Hk Hinit Hrel Hk1 Hip Hlen. set (ch := CProc <$> p_parent pr1).
  pose proof (km_lookup _ _ _ _ _ Hk1) as Hp1. pose proof (km_running _ _ _ _ _ Hk1) as Hrun.
  set (ps := adopted (p := p) (k_initproc s) (map (wake_one ch) (k_procs s1))).
  pose proof (adopted_survivors (p := p) ch (k_initproc s) (k_procs s1)) as Hsurv. fold ps in Hsurv.
  destruct (Forall2_lookup_l _ _ _ _ _ Hsurv Hp1) as (x & Hx & Hxs).
  assert (Ex : x = adopt (p := p) (k_initproc s) pr1) by (destruct Hxs as [->|[? _]]; congruence).
  set (ps2 := alter (fun x => x <| p_state := ZOMBIE |>) p ps).
  set (s2 := with_procs ps2 (s1 <| k_hw ::= acquired i c LPtable |>)).
  assert (Hx2 : k_procs s2 !! p = Some (x <| p_state := ZOMBIE |>)) by (simpl; unfold ps2; by rewrite list_lookup_alter_eq, Hx).
  assert (Hsw : sched s2 = Switch s2 (hwop (HW.mycpu_upd (fun c => c <| c_intena := hw_if (k_hw s1) |>)))).
  { apply (sched_switches i c (k_hw s1) p (x <| p_state := ZOMBIE |>)); try done; apply Hk1. }
  eexists s2, _. split.
  { unfold exit. mstep by (rewrite (kmyproc_ok i c) by apply Hk;
      by rewrite touch_id, (km_proc _ _ _ _ _ Hk) by (by apply (kmode_touched s Hk))).
    mstep. rewrite bool_decide_eq_false_2 by congruence. cbn [deref]. mstep. mstep with Hrel. unfold exit_finish.
    mstep by (by apply (kmode_acquire LPtable s1 Hk1)). mstep by (by apply proc_get_ok). unfold wakeup1. mstep.
    mstep by (apply (abandon_ok (p := p) (k_initproc s)); [done|by rsimpl; rewrite length_map]).
    unfold proc_upd. mstep. unfold bind at 1.
    match goal with |- context [sched ?t] => change t with s2 end. rewrite Hsw. reflexivity. }
  split_and!.
  - done.
  - exists (x <| p_state := ZOMBIE |>). split; [done|]. rewrite Ex. unfold adopt. by destruct (is_child p pr1).
  - apply Forall_alter; [by apply adopted_parent|done].
  - apply asleep_zombie, asleep_adopted_all, wake_all.
  - intros Hz. apply asleep_zombie. unfold ps, adopted. rewrite existsb_wake, Hz. apply wake_all.
  - intros j y Hj Hy. destruct (Forall2_lookup_l _ _ _ _ _ Hsurv Hy) as (y' & Hy' & Hsv). exists y'. split; [|done].
    change (ps2 !! j = Some y'). unfold ps2. by rewrite list_lookup_alter_ne.
  - intros i' c' h' s' Hres. by rewrite (restore_intena i' c' h' s' _ Hres).
Qed.

(** ** Witnesses *)

(** A process with one open file and a directory, and one free page. *)
Definition demo_startup : Startup :=
  {| setupkvm := ret 4096; inituvm := fun _ => ret tt; safestrcpy := fun _ t _ => t |}.
Definition fork_proc : proc :=
  fs_proc <| p_ofile := Some 0%nat :: replicate 15 None |> <| p_cwd := Some 0%nat |> <| p_pgdir := 4096 |>.
Definition fork_inodes : list inode :=
  mkInode 1 1 1 1 1 0 0 1 0 (replicate 13 0) :: replicate 49 (mkInode 0 0 0 0 0 0 0 0 0 (replicate 13 0)).
Definition kmem_hw : hw := fs_hw <| hw_locks ::= <[LKmem := unlocked]> |>.
Definition fork_hw : hw := kmem_hw <| hw_locks ::= <[LTicks := unlocked]> |>.
Definition fork_demo : kstate :=
  bss <| k_hw := fork_hw |>
      <| k_procs := fork_proc :: replicate 9 zero_proc |> <| k_nextpid := 2 |>
      <| k_kmem := mkKmem false page_example |>
      <| k_files := mkFile FD_NONE 1 1 0 0 None 0 :: replicate 99 zero_file |>
      <| k_inodes := fork_inodes |>.

Lemma kmode_fork s :
  k_hw s = fork_hw -> k_procs s !! 0%nat = Some fork_proc -> kmode 0 fs_cpu 0 fork_proc s.
Proof.
  intros Hh Hp. set (s0 := s <| k_hw := fs_hw |>). set (s1 := s <| k_hw := kmem_hw |>).
  assert (H0 : kmode 0 fs_cpu 0 fork_proc s0).
  { destruct (kmode_fs_demo fs_demo eq_refl eq_refl) as [H1 H2 H3 H4 H5 H6 H7]. split; try assumption; reflexivity. }
  destruct (kmode_more_locks LKmem s0 s1 H0 eq_refl eq_refl) as [H1 _].
  apply (kmode_more_locks LTicks s1 s H1); [exact Hh|reflexivity].
Qed.

Lemma ftable_fork_demo : ftable_ok [0%nat] (k_files fork_demo).
Proof.
  split; [reflexivity| | |].
  - intros [|k] x Hx; [injection Hx as <-; reflexivity|]. apply lookup_replicate in Hx as [-> _]. reflexivity.
  - intros [|k] x Hx Hr; [injection Hx as <-; reflexivity|]. apply lookup_replicate in Hx as [-> _]. reflexivity.
  - constructor; [|constructor]. apply Nat.ltb_lt. reflexivity.
Qed.

Lemma table_fork_demo : table_ok [(0%nat, (1, 1))] (k_inodes fork_demo).
Proof.
  split; [reflexivity| | |].
  - intros [|k] x Hx; [injection Hx as <-; reflexivity|]. apply lookup_replicate in Hx as [-> _]. reflexivity.
  - intros [|j] [|k] x y Hx Hy Rx Ry _; [reflexivity| | |].
    + apply lookup_replicate in Hy as [-> _]. discriminate Ry.
    + apply lookup_replicate in Hx as [-> _]. discriminate Rx.
    + apply lookup_replicate in Hx as [-> _]. discriminate Rx.
  - intros k id Hin. apply list_elem_of_singleton in Hin. injection Hin as -> ->. eexists. split; reflexivity.
Qed.

Lemma fork_demo_ok :
  can_fork kernel_end_example 0 fs_cpu 0 fork_proc [0%nat] [(0%nat, (1, 1))] 0 (1, 1) [page_example] fork_demo.
Proof.
  split.
  - apply kmode_fork; reflexivity.
  - unfold free. change (k_hw fork_demo) with fork_hw. unfold fork_hw. rsimpl. rewrite lookup_insert_ne by discriminate. apply lookup_insert_eq.
  - apply lookup_insert_eq.
  - exact (KmemInv_same kernel_end_example one_page fork_demo [page_example] eq_refl eq_refl one_page_inv).
  - reflexivity.
  - exact ftable_fork_demo.
  - intros f Hf. exact Hf.
  - reflexivity.
  - reflexivity.
  - exact table_fork_demo.
  - left.
  - reflexivity.
  - intros [|j] x Hx Hu; [injection Hx as <-; discriminate Hu|]. apply lookup_replicate in Hx as [-> _]. reflexivity.
  - reflexivity.
  - intros [|j] x Hx; [injection Hx as <-; discriminate|]. apply lookup_replicate in Hx as [-> _]. discriminate.
Qed.


(** Process 0 exits; process 1 is init, process 2 a zombie child of process 0. *)
Definition exit_proc : proc := fs_proc <| p_cwd := Some 0%nat |> <| p_parent := Some 1%nat |>.
Definition exit_demo : kstate :=
  bss <| k_hw := fs_hw |>
      <| k_procs := exit_proc :: zero_proc <| p_state := SLEEPING |> <| p_chan := Some (CProc 1) |>
           :: zero_proc <| p_state := ZOMBIE |> <| p_parent := Some 0%nat |> :: replicate 7 zero_proc |>
      <| k_initproc := Some 1%nat |> <| k_inodes := fork_inodes |> <| k_log := log_demo |>.

Lemma kmode_exit s :
  k_hw s = fs_hw -> k_procs s !! 0%nat = Some exit_proc -> kmode 0 fs_cpu 0 exit_proc s.
Proof.
  intros Hh Hp. destruct (kmode_fs_demo fs_demo eq_refl eq_refl) as [H1 H2 H3 H4 H5 H6 H7].
  split; rewrite ?Hh; try assumption; reflexivity.
Qed.

Lemma exit_leaves_zombie_witness :
  exists s2 k x, @exit kernel_end_example 5%nat memide exit_demo = Switch s2 k /\
    k_procs s2 !! 0%nat = Some x /\ p_state x = ZOMBIE.
Proof.
  pose proof (kmode_exit exit_demo eq_refl eq_refl) as Hk.
  destruct (@exit_release_idle kernel_end_example 5%nat memide 0 fs_cpu 0 exit_proc 0
              (mkInode 1 1 1 1 1 0 0 1 0 (replicate 13 0)) exit_demo Hk) as (s1 & H1 & H2 & H3 & H4).
  - reflexivity.
  - reflexivity.
  - apply Nat.ltb_lt. reflexivity.
  - reflexivity.
  - reflexivity.
  - right. left. discriminate.
  - split; reflexivity.
  - reflexivity.
  - reflexivity.
  - discriminate.
  - discriminate.
  - destruct (@exit_leaves_zombie kernel_end_example flat_vm 5%nat memide 0 fs_cpu 0 exit_proc
                (exit_proc <| p_cwd := None |>) exit_demo s1) as (s2 & k & Hx & _ & (x & Hp & Hz & _) & _).
    + exact Hk.
    + discriminate.
    + exact H1.
    + exact H2.
    + exact H3.
    + exact H4.
    + exists s2, k, x. split; [exact Hx|]. split; [exact Hp|exact Hz].
Defined.
