(* ===== verification/Grep.v ===== *)
(** * The pattern matcher and line filter of grep (grep.c)

    A C string is the list of its characters before the terminating zero.  The
    recursion of [matchhere] is structural on the pattern, so no fuel is needed.  The
    input of [grep] is what [read] can still deliver; [lim] bounds what one call of
    [read] delivers, as a pipe or the console do. *)

From stdpp Require Import gmap.
From S2P Require Import Prelude.

Definition c_star : Z := 42.
Definition c_dot : Z := 46.
Definition c_end : Z := 36.
Definition c_begin : Z := 94.
Definition c_nl : Z := 10.

(** The [do] loop of [matchstar], where [m] is [matchhere re]. *)
Fixpoint star_loop (m : list Z -> bool) (c : Z) (text : list Z) : bool :=
  if m text then true
  else match text with
       | [] => false
       | t :: text => if (t =? c) || (c =? c_dot) then star_loop m c text else false
       end.

Fixpoint matchhere (re text : list Z) {struct re} : bool :=
  match re with
  | [] => true
  | c :: re1 =>
    match re1 with
    | d :: re2 =>
      if d =? c_star then star_loop (matchhere re2) c text
      else match text with
           | t :: text => if (c =? c_dot) || (c =? t) then matchhere re1 text else false
           | [] => false
           end
    | [] =>
      if c =? c_end then match text with [] => true | _ => false end
      else match text with
           | t :: text => if (c =? c_dot) || (c =? t) then matchhere re1 text else false
           | [] => false
           end
    end
  end.

Definition matchstar (c : Z) (re text : list Z) : bool := star_loop (matchhere re) c text.

Fixpoint match_loop (re text : list Z) : bool :=
  if matchhere re text then true
  else match text with
       | [] => false
       | _ :: text => match_loop re text
       end.

(** [match] *)
Definition match_ (re text : list Z) : bool :=
  match re with
  | c :: re' => if c =? c_begin then matchhere re' text else match_loop re text
  | [] => match_loop re text
  end.

(** ** The language of a pattern *)

Inductive token : Type := TChar (c : Z) | TAny | TStar (c : Z) | TStarAny | TEnd.

Definition atom (c : Z) : token := if c =? c_dot then TAny else TChar c.
Definition star (c : Z) : token := if c =? c_dot then TStarAny else TStar c.

(** The tokens of a pattern without its leading [^]. *)
Fixpoint tokens (re : list Z) : list token :=
  match re with
  | [] => []
  | c :: re1 =>
    match re1 with
    | [] => [if c =? c_end then TEnd else atom c]
    | d :: re2 => if d =? c_star then star c :: tokens re2 else atom c :: tokens re1
    end
  end.

(** [lang ts w rest]: the word [w], followed by [rest], is one the tokens describe. *)
Inductive lang : list token -> list Z -> list Z -> Prop :=
| lang_nil rest : lang [] [] rest
| lang_char c ts w rest : lang ts w rest -> lang (TChar c :: ts) (c :: w) rest
| lang_any c ts w rest : lang ts w rest -> lang (TAny :: ts) (c :: w) rest
| lang_star c ts u w rest : Forall (eq c) u -> lang ts w rest -> lang (TStar c :: ts) (u ++ w) rest
| lang_starany ts u w rest : lang ts w rest -> lang (TStarAny :: ts) (u ++ w) rest
| lang_end ts w : lang ts w [] -> lang (TEnd :: ts) w [].

Definition matches_prefix (ts : list token) (text : list Z) : Prop :=
  exists w rest, text = w ++ rest /\ lang ts w rest.

(** ** The matcher decides the language *)

Lemma star_loop_spec m c text :
  star_loop m c text = true <->
  exists u v, text = u ++ v /\ (c = c_dot \/ Forall (eq c) u) /\ m v = true.
Proof.
  induction text as [|t text IH]; simpl.
  - split.
    + intros H. exists [], []. split_and!; [done|by right|]. by destruct (m []).
    + intros (u & v & E & _ & Hm). symmetry in E. apply app_eq_nil in E as [-> ->]. by rewrite Hm.
  - destruct (m (t :: text)) eqn:Em.
    { split; [|done]. intros _. exists [], (t :: text). split_and!; [done|by right|done]. }
    destruct ((t =? c) || (c =? c_dot)) eqn:Et.
    + rewrite IH. apply orb_true_iff in Et. rewrite !Z.eqb_eq in Et. split.
      * intros (u & v & -> & Hu & Hv). exists (t :: u), v. split_and!; [done| |done].
        destruct Et as [<-|Hd]; [|by left]. destruct Hu as [?|Hu]; [by left|right]. by constructor.
      * intros (u & v & E & Hu & Hv). destruct u as [|x u]; [simpl in E; subst v; congruence|].
        injection E as <- ->. exists u, v. split_and!; [done| |done]. destruct Hu as [?|Hu]; [by left|right]. by inversion Hu.
    + split; [done|]. intros (u & v & E & Hu & Hv). apply orb_false_iff in Et as [E1 E2].
      apply Z.eqb_neq in E1, E2. destruct u as [|x u]; [simpl in E; subst v; congruence|].
      injection E as <- ->. destruct Hu as [?|Hu]; [done|]. inversion Hu. by subst.
Qed.

Lemma atom_spec c ts text :
  matches_prefix (atom c :: ts) text <->
  exists t text', text = t :: text' /\ (c = c_dot \/ c = t) /\ matches_prefix ts text'.
Proof.
  unfold atom. split.
  - intros (w & rest & -> & H). destruct (Z.eqb_spec c c_dot); inversion H; subst; simpl; eexists _, _;
      (split; [reflexivity|]); split; eauto; by eexists _, _.
  - intros (t & text' & -> & Hc & w & rest & -> & H). exists (t :: w), rest. split; [done|].
    destruct (Z.eqb_spec c c_dot); [by constructor|]. destruct Hc as [?|<-]; [done|by constructor].
Qed.

Lemma star_spec c ts text :
  matches_prefix (star c :: ts) text <->
  exists u v, text = u ++ v /\ (c = c_dot \/ Forall (eq c) u) /\ matches_prefix ts v.
Proof.
  unfold star. split.
  - intros (w & rest & -> & H). destruct (Z.eqb_spec c c_dot); inversion H; subst; eexists u, (_ ++ rest);
      (split; [by rewrite <- app_assoc|]); split; eauto; by eexists _, _.
  - intros (u & v & -> & Hc & w & rest & -> & H). exists (u ++ w), rest. split; [by rewrite <- app_assoc|].
    destruct (Z.eqb_spec c c_dot); [by constructor|]. destruct Hc as [?|Hu]; [done|by constructor].
Qed.

Lemma end_spec text : matches_prefix [TEnd] text <-> text = [].
Proof.
  split.
  - intros (w & rest & -> & H). inversion H as [| | | | |? ? H1]; subst. inversion H1. done.
  - intros ->. exists [], []. split; [done|]. by repeat constructor.
Qed.

(** [matchhere] on a pattern whose first character is not starred. *)
Definition one_char (c : Z) (re text : list Z) : bool :=
  match text with
  | t :: text => if (c =? c_dot) || (c =? t) then matchhere re text else false
  | [] => false
  end.

Lemma one_char_spec c re text :
  (forall text, matchhere re text = true <-> matches_prefix (tokens re) text) ->
  one_char c re text = true <-> matches_prefix (atom c :: tokens re) text.
Proof.
  intros IH. rewrite atom_spec. destruct text as [|t text]; simpl.
  - split; [done|]. by intros (? & ? & ? & _).
  - destruct ((c =? c_dot) || (c =? t)) eqn:E.
    + apply orb_true_iff in E. rewrite !Z.eqb_eq in E. rewrite IH. split.
      * intros H. by exists t, text.
      * intros (? & ? & Ht & _ & H). by injection Ht as <- <-.
    + apply orb_false_iff in E as [E1%Z.eqb_neq E2%Z.eqb_neq]. split; [done|].
      intros (? & ? & Ht & [?|?] & _); injection Ht as <- <-; congruence.
Qed.

Lemma matchhere_spec re text : matchhere re text = true <-> matches_prefix (tokens re) text.
Proof.
  revert text. remember (length re) as n eqn:Hn. assert (Hle : (length re <= n)%nat) by lia. clear Hn.
  revert re Hle. induction n as [|n IH]; intros re Hle text.
  { destruct re; [|simpl in Hle; lia]. simpl. split; [|done]. intros _. exists [], text. split; [done|constructor]. }
  destruct re as [|c [|d re]].
  - simpl. split; [|done]. intros _. exists [], text. split; [done|constructor].
  - change (matchhere [c] text) with (if c =? c_end then match text with [] => true | _ => false end else one_char c [] text).
    simpl tokens. destruct (Z.eqb_spec c c_end).
    + rewrite end_spec. by destruct text.
    + rewrite (one_char_spec c [] text) by (apply IH; simpl; lia). done.
  - change (matchhere (c :: d :: re) text) with
      (if d =? c_star then star_loop (matchhere re) c text else one_char c (d :: re) text).
    simpl tokens. destruct (Z.eqb_spec d c_star).
    + rewrite star_loop_spec, star_spec. simpl in Hle.
      assert (IH' : forall v, matchhere re v = true <-> matches_prefix (tokens re) v) by (intros v; apply IH; lia).
      split; intros (u & v & E & Hu & Hv); exists u, v; (split_and!; [done|done|by apply IH']).
    + apply one_char_spec. intros v. apply IH. simpl in *. lia.
Qed.

Lemma match_loop_spec re text :
  match_loop re text = true <-> exists pre v, text = pre ++ v /\ matches_prefix (tokens re) v.
Proof.
  induction text as [|t text IH]; cbn [match_loop].
  - destruct (matchhere re []) eqn:E.
    + split; [|done]. intros _. exists [], []. split; [done|]. by apply matchhere_spec.
    + split; [done|]. intros (pre & v & Ev & H). symmetry in Ev. apply app_eq_nil in Ev as [-> ->].
      apply matchhere_spec in H. congruence.
  - destruct (matchhere re (t :: text)) eqn:E.
    + split; [|done]. intros _. exists [], (t :: text). split; [done|]. by apply matchhere_spec.
    + rewrite IH. split.
      * intros (pre & v & -> & H). by exists (t :: pre), v.
      * intros (pre & v & Ev & H). destruct pre as [|x pre].
        -- simpl in Ev. subst v. apply matchhere_spec in H. congruence.
        -- injection Ev as <- ->. by exists pre, v.
Qed.

(** The occurrences of a pattern in a line: at the beginning of the line for a pattern
    that starts with [^], and anywhere otherwise. *)
Definition occurs (re text : list Z) : Prop :=
  match re with
  | c :: re' =>
    if c =? c_begin then matches_prefix (tokens re') text
    else exists pre v, text = pre ++ v /\ matches_prefix (tokens re) v
  | [] => True
  end.

(** ** The filter *)

(** [strchr(p, '\n')]: the characters before the newline and those after it. *)
Fixpoint strchr_nl (p : list Z) : option (list Z * list Z) :=
  match p with
  | [] => None
  | c :: p =>
    if c =? c_nl then Some ([], p)
    else if c =? 0 then None
    else match strchr_nl p with
         | Some (line, rest) => Some (c :: line, rest)
         | None => None
         end
  end.

(** The inner loop: what is written, and what is left from [p] on.  There are at most
    as many lines as characters. *)
Fixpoint grep_scan (n : nat) (pattern p : list Z) : list (list Z) * list Z :=
  match n with
  | O => ([], p)
  | S n =>
    match strchr_nl p with
    | None => ([], p)
    | Some (line, rest) =>
      let '(out, rest) := grep_scan n pattern rest in
      ((if match_ pattern line then [line ++ [c_nl]] else []) ++ out, rest)
    end
  end.

(** [sizeof(buf)] *)
Definition sizeof_buf : nat := 1024.

(** The outer loop, with [held] at the front of [buf] and [input] still to be read: the
    writes.  Each turn reads at least one byte. *)
Fixpoint grep_loop (n : nat) (lim : nat) (pattern held input : list Z) : list (list Z) :=
  match n with
  | O => []
  | S n =>
    let k := Nat.min (sizeof_buf - length held - 1) lim in
    match take k input with
    | [] => []
    | chunk =>
      let p := held ++ chunk in
      let '(out, rest) := grep_scan (length p) pattern p in
      let held := if (length rest =? length p)%nat then [] else rest in
      out ++ grep_loop n lim pattern held (drop k input)
    end
  end.

Definition grep (lim : nat) (pattern input : list Z) : list (list Z) :=
  grep_loop (length input) lim pattern [] input.

(** ** The lines of a text *)

(** The lines that are ended by a newline, and the rest. *)
Fixpoint lines (text : list Z) : list (list Z) :=
  match text with
  | [] => []
  | c :: text =>
    if c =? c_nl then [] :: lines text
    else match lines text with
         | [] => []
         | l :: ls => (c :: l) :: ls
         end
  end.

Lemma lines_none text : c_nl ∉ text -> lines text = [].
Proof.
  induction text as [|c text IH]; intros H; [done|]. apply not_elem_of_cons in H as [Hc H]. simpl.
  rewrite (proj2 (Z.eqb_neq c c_nl)), IH by done. done.
Qed.

Lemma lines_line l text : c_nl ∉ l -> lines (l ++ c_nl :: text) = l :: lines text.
Proof.
  induction l as [|c l IH]; intros H; [done|]. apply not_elem_of_cons in H as [Hc H]. simpl.
  rewrite (proj2 (Z.eqb_neq c c_nl)), IH by done. done.
Qed.

Lemma strchr_nl_spec p :
  0 ∉ p ->
  match strchr_nl p with
  | Some (line, rest) => p = line ++ c_nl :: rest /\ c_nl ∉ line
  | None => c_nl ∉ p
  end.
Proof.
  induction p as [|c p IH]; intros H; simpl; [apply not_elem_of_nil|].
  apply not_elem_of_cons in H as [Hc H]. destruct (Z.eqb_spec c c_nl) as [->|Hne].
  { split; [done|apply not_elem_of_nil]. }
  rewrite (proj2 (Z.eqb_neq c 0)) by done. specialize (IH H). destruct (strchr_nl p) as [[line rest]|].
  - destruct IH as [-> Hl]. split; [done|]. by apply not_elem_of_cons.
  - by apply not_elem_of_cons.
Qed.

Definition selected (pattern : list Z) (ls : list (list Z)) : list (list Z) :=
  map (fun l => l ++ [c_nl]) (filter (fun l => match_ pattern l = true) ls).

Lemma selected_app pattern ls1 ls2 : selected pattern (ls1 ++ ls2) = selected pattern ls1 ++ selected pattern ls2.
Proof. unfold selected. by rewrite filter_app, map_app. Qed.

(** The inner loop writes the selected lines and leaves a text without newline. *)
Lemma grep_scan_spec n pattern p :
  0 ∉ p -> (length p <= n)%nat ->
  exists ls rest, grep_scan n pattern p = (selected pattern ls, rest) /\ (c_nl ∉ rest) /\
    (forall more, lines (p ++ more) = ls ++ lines (rest ++ more)) /\
    (exists pre, p = pre ++ rest) /\ (rest = p <-> c_nl ∉ p).
Proof.
  revert p. induction n as [|n IH]; intros p H0 Hn.
  { destruct p; [|simpl in Hn; lia]. exists [], []. split_and!; try done; [apply not_elem_of_nil|by exists []|].
    split; [|done]. intros _. apply not_elem_of_nil. }
  cbn [grep_scan]. pose proof (strchr_nl_spec p H0) as Hs. destruct (strchr_nl p) as [[line rest]|].
  - destruct Hs as [-> Hl]. rewrite length_app in Hn. simpl in Hn.
    destruct (IH rest) as (ls & rest' & Hg & Hr & Hlines & (pre & Hpre) & _); [set_solver|lia|]. rewrite Hg.
    exists (line :: ls), rest'. split_and!; try done.
    + f_equal. change (line :: ls) with ([line] ++ ls). rewrite selected_app. f_equal. unfold selected. rewrite filter_cons.
      by destruct (match_ pattern line).
    + intros more. rewrite <- app_assoc. simpl. rewrite lines_line by done. by rewrite Hlines.
    + exists (line ++ c_nl :: pre). rewrite <- app_assoc. simpl. by rewrite <- Hpre.
    + split; [|set_solver]. intros E. exfalso. apply (f_equal length) in E. rewrite Hpre, !length_app in E. simpl in E.
      rewrite length_app in E. lia.
  - exists [], p. split_and!; try done. by exists [].
Qed.

Lemma lines_prefix p more :
  c_nl ∉ p -> lines (p ++ more) = match lines more with [] => [] | l :: ls => (p ++ l) :: ls end.
Proof.
  induction p as [|c p IH]; intros H; simpl; [by destruct (lines more)|]. apply not_elem_of_cons in H as [Hc H].
  rewrite (proj2 (Z.eqb_neq c c_nl)), IH by done. by destruct (lines more).
Qed.

(** Text that is dropped for want of a newline held no part of a short line. *)
Lemma lines_dropped p more :
  c_nl ∉ p -> (more = [] \/ length p = 1023%nat) ->
  Forall (fun l => (length l < 1023)%nat) (lines (p ++ more)) -> lines (p ++ more) = lines more.
Proof.
  intros Hp Hfull Hshort. rewrite (lines_prefix p more Hp) in *. destruct (lines more) as [|l ls] eqn:E; [done|].
  destruct Hfull as [->|Hfull]; [done|]. apply Forall_cons in Hshort as [Hl _]. rewrite length_app in Hl. lia.
Qed.

Lemma grep_loop_ok n lim pattern held input :
  0 ∉ held ++ input -> c_nl ∉ held -> (length held < 1023)%nat -> (length input <= n)%nat -> (1023 <= lim)%nat ->
  Forall (fun l => (length l < 1023)%nat) (lines (held ++ input)) ->
  grep_loop n lim pattern held input = selected pattern (lines (held ++ input)).
Proof.
  intros H0 Hh Hlen Hn Hlim. revert held input H0 Hh Hlen Hn. induction n as [|n IH]; intros held input H0 Hh Hlen Hn Hshort.
  { destruct input; [|simpl in Hn; lia]. by rewrite app_nil_r, lines_none. }
  cbn [grep_loop]. rewrite Nat.min_l by (unfold sizeof_buf; lia). set (k := (sizeof_buf - length held - 1)%nat).
  assert (Hk : k = (1023 - length held)%nat) by (unfold k, sizeof_buf; lia).
  destruct (take k input) as [|x chunk] eqn:Et.
  { destruct input as [|y input]; [by rewrite app_nil_r, lines_none|]. destruct k; [lia|done]. }
  rewrite <- Et. set (p := held ++ take k input). set (more := drop k input).
  assert (Ei : held ++ input = p ++ more) by (unfold p, more; by rewrite <- app_assoc, take_drop).
  rewrite Ei in *. assert (Hp0 : 0 ∉ p) by set_solver.
  destruct (grep_scan_spec (length p) pattern p Hp0) as (ls & rest & Hg & Hr & Hlines & (pre & Hpre) & Hiff); [done|].
  rewrite Hg. pose proof (Hlines more) as Hall.
  assert (Hpl : (length p <= 1023)%nat) by (unfold p; rewrite length_app, length_take; lia).
  assert (Hml : (length more <= n)%nat).
  { unfold more. rewrite length_drop. destruct input; [by rewrite take_nil in Et|]. simpl in *. lia. }
  assert (Hm0 : 0 ∉ more) by set_solver.
  destruct (Nat.eqb_spec (length rest) (length p)) as [E|E].
  - assert (rest = p) as ->.
    { rewrite Hpre, length_app in E. destruct pre; [done|simpl in E; lia]. }
    assert (Hdrop : lines (p ++ more) = lines more).
    { apply lines_dropped; [done| |done]. unfold more, p. rewrite length_app, length_take.
      destruct (decide (length input <= k)%nat); [left; by apply drop_ge|right; lia]. }
    assert (ls = []) as -> by (apply (f_equal length) in Hall; rewrite length_app in Hall; destruct ls; [done|simpl in Hall; lia]).
    simpl. rewrite Hdrop in *. apply IH; try done; [by apply not_elem_of_nil|simpl; lia].
  - rewrite Hall in Hshort |- *. apply Forall_app in Hshort as [_ Hshort]. rewrite selected_app. f_equal.
    apply IH; try done.
    + rewrite Hpre in Hp0. set_solver.
    + rewrite Hpre, length_app in Hpl, E. lia.
Qed.

(** ** Properties *)

(** C12. The matcher decides the language of the pattern: [match] succeeds exactly when the
    pattern, read as a sequence of characters, [.], starred characters and a final [$],
    occurs in the text, at its beginning if the pattern starts with [^]. *)
Theorem match_decides_language re text : match_ re text = true <-> occurs re text.
Proof.
  unfold match_, occurs. destruct re as [|c re].
  - split; [done|]. intros _. apply match_loop_spec. exists [], text. split; [done|].
    exists [], text. split; [done|constructor].
  - destruct (c =? c_begin); [apply matchhere_spec|apply match_loop_spec].
Qed.

(** C39. On a file, where [read] fills the buffer, [grep] writes exactly the lines that the
    pattern occurs in, in order and each with its newline, as long as a line and its
    newline fit the buffer. *)
Theorem grep_prints_matching_lines lim pattern input :
  0 ∉ input -> (1023 <= lim)%nat -> Forall (fun l => (length l < 1023)%nat) (lines input) ->
  grep lim pattern input = selected pattern (lines input).
Proof. intros H0 Hlim Hs. apply (grep_loop_ok _ lim pattern [] input); try done; [apply not_elem_of_nil|simpl; lia]. Qed.

Lemma grep_prints_matching_lines_witness :
  grep 4096 [97; c_star; 98] [120; 121; 10; 97; 97; 98; 10; 98] = [[97; 97; 98; 10]].
Proof.
  rewrite (grep_prints_matching_lines 4096 [97; c_star; 98] [120; 121; 10; 97; 97; 98; 10; 98]).
  - reflexivity.
  - intros H. rewrite !elem_of_cons in H. repeat (destruct H as [H|H]; [discriminate H|]). exact (not_elem_of_nil _ H).
  - apply Nat.leb_le. reflexivity.
  - repeat constructor; apply Nat.ltb_lt; reflexivity.
Defined.

(** When [read] delivers less, as it does on a pipe or the console, a line may arrive in
    pieces.  A piece without newline that comes first in the buffer is thrown away: of a
    line that arrives byte by byte nothing but its newline is left, and the line is
    written exactly when the pattern occurs in the empty line. *)
Theorem grep_loses_split_lines pattern line :
  0 ∉ line -> c_nl ∉ line ->
  grep 1 pattern (line ++ [c_nl]) = if match_ pattern [] then [[c_nl]] else [].
Proof.
  intros H0 Hn. unfold grep. rewrite length_app. simpl. induction line as [|c line IH].
  - simpl. destruct (match_ pattern []); done.
  - apply not_elem_of_cons in H0 as [Hc0 H0], Hn as [Hcn Hn].
    cbn [length Nat.add app grep_loop take]. simpl Nat.min. cbn [take drop app length].
    cbn [grep_scan strchr_nl]. rewrite (proj2 (Z.eqb_neq c c_nl)), (proj2 (Z.eqb_neq c 0)) by done.
    simpl. by apply IH.
Qed.

(** "ab" is lost *)
Lemma grep_loses_split_lines_witness :
  grep 1 [97; 98] [97; 98; 10] = [] /\ grep 4096 [97; 98] [97; 98; 10] = [[97; 98; 10]].
Proof.
  split; [|vm_compute; reflexivity]. change [97; 98; 10] with ([97; 98] ++ [c_nl]). rewrite (grep_loses_split_lines [97; 98] [97; 98]).
  - reflexivity.
  - intros H. rewrite !elem_of_cons in H. repeat (destruct H as [H|H]; [discriminate H|]). exact (not_elem_of_nil _ H).
  - intros H. rewrite !elem_of_cons in H. repeat (destruct H as [H|H]; [discriminate H|]). exact (not_elem_of_nil _ H).
Defined.
