(* ===== verification/Sh.v ===== *)
(** * The command parser of the shell (sh.c)

    A [char *] into the command line is an index into [buf].  [malloc] does not fail.
    A call of [panic] prints a message and ends the process: the parser stops.  The
    structure of [execcmd] is filled in while redirections already point to it: it is
    the leaf under them. *)

From stdpp Require Import gmap.
From Stdlib Require Import String.
From S2P Require Import Prelude.
Local Open Scope Z_scope.
Local Open Scope list_scope.

Definition MAXARGS : nat := 10.
Definition O_RDONLY : Z := 0.
Definition O_WRONLY : Z := 1.
Definition O_CREATE : Z := 512.

(** An argument is the pair of [argv[i]] and [eargv[i]]. *)
Inductive cmd : Type :=
| EXEC (argv : list (nat * nat))
| REDIR (c : cmd) (file efile : nat) (mode fd : Z)
| PIPE (left right : cmd)
| LIST (left right : cmd)
| BACK (c : cmd).

(** The constructors: the zeroed structure with its fields set. *)
Definition execcmd : cmd := EXEC [].
Definition redircmd (subcmd : cmd) (file efile : nat) (mode fd : Z) : cmd := REDIR subcmd file efile mode fd.
Definition pipecmd (left right : cmd) : cmd := PIPE left right.
Definition listcmd (left right : cmd) : cmd := LIST left right.
Definition backcmd (subcmd : cmd) : cmd := BACK subcmd.

(** [cmd->argv[argc] = q; cmd->eargv[argc] = eq] through the pointer to the leaf. *)
Fixpoint push_arg (a : nat * nat) (c : cmd) : cmd :=
  match c with
  | EXEC argv => EXEC (argv ++ [a])
  | REDIR c f e m d => REDIR (push_arg a c) f e m d
  | c => c
  end.

(** What a parser returns: a value, the message of a panic, or no answer within the
    fuel. *)
Inductive res (A : Type) : Type :=
| Val (a : A)
| Stop (msg : string)
| Loop.
Arguments Val {A} a.
Arguments Stop {A} msg.
Arguments Loop {A}.

Definition rbind {A B} (r : res A) (f : A -> res B) : res B :=
  match r with Val a => f a | Stop msg => Stop msg | Loop => Loop end.
Notation "'let*' x ':=' r 'in' k" := (rbind r (fun x => k)) (at level 10, x pattern, r at level 100, k at level 200).

Definition whitespace : list Z := [32; 9; 13; 10; 11].
Definition symbols : list Z := [60; 124; 62; 38; 59; 40; 41].

(** [strchr(l, c)] as a truth value *)
Definition strchr (l : list Z) (c : Z) : bool := existsb (Z.eqb c) l.

Section Parser.
Context (buf : list Z) (es : nat).

Definition at_ (s : nat) : Z := nth s buf 0.

(** [while(s < es && test( *s)) s++] *)
Fixpoint skip_while (n : nat) (test : Z -> bool) (s : nat) : nat :=
  match n with
  | O => s
  | S n => if (s <? es)%nat && test (at_ s) then skip_while n test (S s) else s
  end.
Definition skip (test : Z -> bool) (s : nat) : nat := skip_while (es - s) test s.
Definition is_ws (c : Z) : bool := strchr whitespace c.
Definition in_word (c : Z) : bool := negb (strchr whitespace c) && negb (strchr symbols c).

(** The token, [*q], [*eq] and the new [*ps]. *)
Definition gettoken (s : nat) : Z * nat * nat * nat :=
  let s := skip is_ws s in
  let c := at_ s in
  let '(ret, e) :=
    if c =? 0 then (c, s)
    else if strchr [124; 40; 41; 59; 38; 60] c then (c, S s)
    else if c =? 62 then if at_ (S s) =? 62 then (43, S (S s)) else (c, S s)
    else (97, skip in_word s) in
  (ret, s, e, skip is_ws e).

(** The answer and the new [*ps]. *)
Definition peek (s : nat) (toks : list Z) : bool * nat :=
  let s := skip is_ws s in
  (negb (at_ s =? 0) && strchr toks (at_ s), s).

Fixpoint parseredirs (n : nat) (c : cmd) (s : nat) : res (cmd * nat) :=
  let '(b, s) := peek s [60; 62] in
  if b then
    match n with
    | O => Loop
    | S n =>
      let '(tok, _, _, s) := gettoken s in
      let '(t, q, eq, s) := gettoken s in
      if negb (t =? 97) then Stop "missing file for redirection"
      else
        let c := if tok =? 60 then redircmd c q eq O_RDONLY 0
                 else if (tok =? 62) || (tok =? 43) then redircmd c q eq (Z.lor O_WRONLY O_CREATE) 1
                 else c in
        parseredirs n c s
    end
  else Val (c, s).

(** The loop of [parseexec]. *)
Fixpoint parseargs (n : nat) (ret : cmd) (argc s : nat) : res (cmd * nat) :=
  let '(b, s) := peek s [124; 41; 38; 59] in
  if b then Val (ret, s)
  else
    let '(tok, q, eq, s) := gettoken s in
    if tok =? 0 then Val (ret, s)
    else if negb (tok =? 97) then Stop "syntax"
    else
      match n with
      | O => Loop
      | S n =>
        let ret := push_arg (q, eq) ret in
        let argc := S argc in
        if (MAXARGS <=? argc)%nat then Stop "too many args"
        else let* (ret, s) := parseredirs n ret s in parseargs n ret argc s
      end.

(** [pl] is [parseline]. *)
Definition parseblock (n : nat) (pl : nat -> res (cmd * nat)) (s : nat) : res (cmd * nat) :=
  let '(b, s) := peek s [40] in
  if negb b then Stop "parseblock"
  else
    let '(_, _, _, s) := gettoken s in
    let* (c, s) := pl s in
    let '(b, s) := peek s [41] in
    if negb b then Stop "syntax - missing )"
    else
      let '(_, _, _, s) := gettoken s in
      parseredirs n c s.

Definition parseexec (n : nat) (pl : nat -> res (cmd * nat)) (s : nat) : res (cmd * nat) :=
  let '(b, s) := peek s [40] in
  if b then parseblock n pl s
  else let* (ret, s) := parseredirs n execcmd s in parseargs n ret 0 s.

Fixpoint parsepipe (n : nat) (pl : nat -> res (cmd * nat)) (s : nat) : res (cmd * nat) :=
  let* (c, s) := parseexec n pl s in
  let '(b, s) := peek s [124] in
  if b then
    match n with
    | O => Loop
    | S n =>
      let '(_, _, _, s) := gettoken s in
      let* (r, s) := parsepipe n pl s in
      Val (pipecmd c r, s)
    end
  else Val (c, s).

(** [while(peek(ps, es, "&"))] *)
Fixpoint parsebacks (n : nat) (c : cmd) (s : nat) : res (cmd * nat) :=
  let '(b, s) := peek s [38] in
  if b then
    match n with
    | O => Loop
    | S n => let '(_, _, _, s) := gettoken s in parsebacks n (backcmd c) s
    end
  else Val (c, s).

Fixpoint parseline (n : nat) (s : nat) : res (cmd * nat) :=
  match n with
  | O => Loop
  | S n =>
    let* (c, s) := parsepipe n (parseline n) s in
    let* (c, s) := parsebacks n c s in
    let '(b, s) := peek s [59] in
    if b then
      let '(_, _, _, s) := gettoken s in
      let* (r, s) := parseline n s in
      Val (listcmd c r, s)
    else Val (c, s)
  end.
End Parser.

(** The stores of zeroes, in the order of the code. *)
Fixpoint nulterminate (c : cmd) (buf : list Z) : list Z :=
  match c with
  | EXEC argv => fold_left (fun buf a => <[snd a := 0]> buf) argv buf
  | REDIR c _ e _ _ => <[e := 0]> (nulterminate c buf)
  | PIPE l r => nulterminate r (nulterminate l buf)
  | LIST l r => nulterminate r (nulterminate l buf)
  | BACK c => nulterminate c buf
  end.

(** The command and the terminated buffer.  [n] bounds the nesting and the loops. *)
Definition parsecmd (n : nat) (buf : list Z) : res (cmd * list Z) :=
  let es := List.length (cstr buf) in
  let* (c, s) := parseline buf es n 0 in
  let '(_, s) := peek buf es s [] in
  if negb (s =? es)%nat then Stop "syntax"
  else Val (c, nulterminate c buf).

(** ** Tokens *)

Inductive tok : Type := Sym (c : Z) | App | Word (w : list Z).

Definition repr (t : tok) : list Z :=
  match t with Sym c => [c] | App => [62; 62] | Word w => w end.
(** What [gettoken] returns. *)
Definition code (t : tok) : Z := match t with Sym c => c | App => 43 | Word _ => 97 end.
(** What [peek] looks at. *)
Definition first (t : tok) : Z := match t with Sym c => c | App => 62 | Word w => hd 0 w end.

Definition word_ok (w : list Z) : Prop := w <> [] /\ Forall (fun c => in_word c = true /\ c <> 0) w.
Definition tok_ok (t : tok) : Prop :=
  match t with Sym c => c ∈ symbols | App => True | Word w => word_ok w end.
(** What may follow a token without a space. *)
Definition ends (t : tok) (rest : list Z) : Prop :=
  match t with
  | Sym c => c = 62 -> hd 0 rest <> 62
  | App => True
  | Word _ => rest = [] \/ in_word (hd 0 rest) = false
  end.

(** A text lays out a sequence of tokens, with blanks between them as it likes. *)
Inductive laid : list Z -> list tok -> Prop :=
| laid_nil ws : Forall (fun c => is_ws c = true) ws -> laid ws []
| laid_cons ws t rest ts :
    Forall (fun c => is_ws c = true) ws -> tok_ok t -> ends t rest -> laid rest ts -> laid (ws ++ repr t ++ rest) (t :: ts).

Section Lexer.
Context {buf T : list Z}.
Context (Hat : forall s, (s <= length T)%nat -> nth s buf 0 = nth s T 0).
Local Abbreviation es := (length T).

Definition at_toks (s : nat) (ts : list tok) : Prop := (s <= es)%nat /\ laid (drop s T) ts.

Lemma nth_hd_drop (l : list Z) s : nth s l 0 = hd 0 (drop s l).
Proof. revert s. induction l as [|c l IH]; intros [|s]; simpl; try done. Qed.

Lemma at_hd s v : drop s T = v -> (s <= es)%nat -> at_ buf s = hd 0 v.
Proof. intros <- Hs. unfold at_. by rewrite Hat, nth_hd_drop. Qed.

Lemma drop_more s u v : drop s T = u ++ v -> drop (s + length u) T = v.
Proof. intros E. by rewrite <- drop_drop, E, drop_app_length. Qed.

Lemma drop_bound s u v : (s <= es)%nat -> drop s T = u ++ v -> (s + length u <= es)%nat.
Proof. intros Hs E. apply (f_equal length) in E. rewrite length_drop, length_app in E. lia. Qed.

Lemma skip_while_spec n test s u v :
  (s <= es)%nat -> drop s T = u ++ v -> Forall (fun c => test c = true) u -> (v = [] \/ test (hd 0 v) = false) ->
  (es - s <= n)%nat -> skip_while buf es n test s = (s + length u)%nat.
Proof.
  revert s u. induction n as [|n IH]; intros s u Hs E Hu Hv Hn.
  - pose proof (drop_bound s u v Hs E). simpl. lia.
  - cbn [skip_while]. rewrite (at_hd s _ E Hs). destruct u as [|c u].
    + destruct (Nat.ltb_spec s es) as [Hlt|Hlt]; [|simpl; lia]. destruct Hv as [->|Hv].
      * apply (f_equal length) in E. rewrite length_drop in E. simpl in E. lia.
      * simpl. rewrite Hv. simpl. lia.
    + apply Forall_cons in Hu as [Hc Hu]. pose proof (drop_bound s (c :: u) v Hs E) as Hb. simpl in Hb.
      rewrite (proj2 (Nat.ltb_lt s es)) by lia. simpl. rewrite Hc. rewrite (IH (S s) u); try done; try lia.
      rewrite <- Nat.add_1_r. by apply (drop_more s [c]).
Qed.

Lemma skip_spec test s u v :
  (s <= es)%nat -> drop s T = u ++ v -> Forall (fun c => test c = true) u -> (v = [] \/ test (hd 0 v) = false) ->
  skip buf es test s = (s + length u)%nat.
Proof. intros Hs E Hu Hv. by apply (skip_while_spec _ test s u v). Qed.

(** A token does not start with a blank or a zero. *)
Lemma first_char t : tok_ok t -> hd 0 (repr t) = first t /\ repr t <> [] /\ is_ws (first t) = false /\ first t <> 0.
Proof.
  destruct t as [c| |w]; simpl.
  - intros Hc. unfold symbols in Hc. rewrite !elem_of_cons in Hc.
    split_and!; [done|done| |]; repeat (destruct Hc as [->|Hc]; [done|]); by apply not_elem_of_nil in Hc.
  - done.
  - intros [Hne Hw]. destruct w as [|c w]; [done|]. apply Forall_cons in Hw as [[Hc H0] _]. simpl. split_and!; try done.
    unfold in_word in Hc. apply andb_true_iff in Hc as [Hc _]. unfold is_ws. by destruct (strchr whitespace c).
Qed.

(** The blanks before the next token. *)
Lemma skip_blanks s ts :
  at_toks s ts ->
  exists s', skip buf es is_ws s = s' /\ (s <= s' <= es)%nat /\
    match ts with
    | [] => s' = es
    | t :: ts => exists rest, drop s' T = repr t ++ rest /\ tok_ok t /\ ends t rest /\ laid rest ts
    end.
Proof.
  intros [Hs Hl]. inversion Hl as [ws Hws E|ws t rest ts' Hws Ht He Hr E]; subst.
  - assert (E' : drop s T = drop s T ++ []) by (by rewrite app_nil_r).
    pose proof (drop_bound s _ _ Hs E') as Hb. exists (s + length (drop s T))%nat. split_and!.
    + apply (skip_spec is_ws s (drop s T) []); try done. by left.
    + lia.
    + rewrite length_drop. lia.
    + rewrite length_drop. lia.
  - symmetry in E. pose proof (drop_bound s _ _ Hs E). destruct (first_char t Ht) as (H1 & H2 & H3 & _).
    exists (s + length ws)%nat. split_and!; [|lia|lia|].
    + apply (skip_spec is_ws s ws (repr t ++ rest)); try done. right. destruct (repr t); [done|]. simpl in *. by rewrite H1.
    + exists rest. split_and!; try done. by apply drop_more.
Qed.

Lemma peek_spec s ts cs :
  at_toks s ts ->
  exists s', peek buf es s cs = (match ts with [] => false | t :: _ => strchr cs (first t) end, s') /\ at_toks s' ts.
Proof.
  intros H. destruct (skip_blanks s ts H) as (s' & Hs & Hle & Hts). unfold peek. rewrite Hs. exists s'.
  destruct ts as [|t ts].
  - rewrite Hts, (at_hd es []) by (done || by apply drop_ge). split; [done|]. split; [lia|].
    rewrite drop_ge by lia. by constructor.
  - destruct Hts as (rest & E & Ht & He & Hr). destruct (first_char t Ht) as (H1 & H2 & _ & H0).
    rewrite (at_hd s' _ E) by lia. destruct (repr t) as [|c r] eqn:Er; [done|]. simpl in *. subst c. split.
    + by rewrite (proj2 (Z.eqb_neq _ 0)).
    + split; [lia|]. rewrite E. change (first t :: r ++ rest) with ([] ++ (first t :: r) ++ rest). rewrite <- Er. by constructor.
Qed.

Lemma laid_skip s ts : (s <= es)%nat -> laid (drop s T) ts -> at_toks (skip buf es is_ws s) ts.
Proof.
  intros Hs Hl. destruct (peek_spec s ts [] (conj Hs Hl)) as (s' & Hp & Ha). unfold peek in Hp. by injection Hp as _ <-.
Qed.

(** A word, or anything else, at the index [q]. *)
Definition found (q : nat) (t : tok) (rest : list Z) : Prop := drop q T = repr t ++ rest /\ (q <= es)%nat /\ ends t rest.

Lemma gettoken_spec s t ts :
  at_toks s (t :: ts) ->
  exists q s' rest, gettoken buf es s = (code t, q, (q + length (repr t))%nat, s') /\ at_toks s' ts /\ found q t rest.
Proof.
  intros H. destruct (skip_blanks s _ H) as (q & Hs & Hle & rest & E & Ht & He & Hr).
  assert (Hend : at_toks (skip buf es is_ws (q + length (repr t))) ts).
  { apply laid_skip; [apply (drop_bound q _ _ ltac:(lia) E)|]. by rewrite (drop_more q _ _ E). }
  destruct (first_char t Ht) as (H1 & H2 & _ & H0).
  assert (Hq : at_ buf q = first t).
  { rewrite (at_hd q _ E) by lia. by destruct (repr t). }
  exists q, (skip buf es is_ws (q + length (repr t))), rest. split; [|split; [done|by split_and!; [|lia|]]].
  unfold gettoken. rewrite Hs, Hq, (proj2 (Z.eqb_neq _ 0)) by done. destruct t as [c| |w]; cbn [first repr code length] in *.
  - assert (Hnext : c = 62 -> at_ buf (S q) <> 62).
    { intros ->. rewrite (at_hd (S q) rest); [by apply He|rewrite <- Nat.add_1_r; by apply (drop_more q [62])|].
      pose proof (drop_bound q [62] rest ltac:(lia) E). simpl in *. lia. }
    rewrite Nat.add_1_r. change (c ∈ symbols) in Ht. unfold symbols in Ht. rewrite !elem_of_cons in Ht.
    repeat (destruct Ht as [->|Ht]; [try done|]); [|by apply not_elem_of_nil in Ht].
    simpl. by rewrite (proj2 (Z.eqb_neq _ 62)) by (by apply Hnext).
  - simpl strchr. simpl. rewrite (at_hd (S q) (62 :: rest)).
    + simpl. by replace (q + 2)%nat with (S (S q)) by lia.
    + rewrite <- Nat.add_1_r. by apply (drop_more q [62]).
    + pose proof (drop_bound q _ rest ltac:(lia) E). simpl in *. lia.
  - destruct Ht as [Hne Hw]. destruct w as [|c w]; [done|]. pose proof (proj1 (Forall_cons _ _ _) Hw) as [[Hc _] _]. cbn [hd].
    assert (Hns : strchr symbols c = false).
    { unfold in_word in Hc. apply andb_true_iff in Hc as [_ Hc]. by destruct (strchr symbols c). }
    assert (Hsub : strchr [124; 40; 41; 59; 38; 60] c = false /\ (c =? 62) = false).
    { unfold strchr, symbols in *. simpl in *. rewrite !orb_false_iff in *. tauto. }
    destruct Hsub as [-> ->]. rewrite (skip_spec in_word q (c :: w) rest); try done; [lia|].
    eapply Forall_impl; [exact Hw|]. by intros x [? _].
Qed.

Lemma gettoken_end s : at_toks s [] -> gettoken buf es s = (0, es, es, es).
Proof.
  intros H. destruct (skip_blanks s _ H) as (q & Hs & Hle & Hq). unfold gettoken. rewrite Hs, Hq.
  rewrite (at_hd es []) by (done || by apply drop_ge). simpl. unfold skip. by rewrite Nat.sub_diag.
Qed.
End Lexer.

(** ** The grammar *)

Inductive rkind : Type := RIn | ROut | RAppend.
Definition redir : Type := rkind * list Z.

(** A simple command is a sequence of redirections and of words, each followed by
    redirections. *)
Inductive sexec : Type :=
| Simple (rs : list redir) (args : list (list Z * list redir))
| Block (l : sline) (rs : list redir)
with spipe : Type :=
| One (e : sexec)
| Bar (e : sexec) (p : spipe)
with sline : Type :=
| Last (p : spipe) (backs : nat)
| Seq (p : spipe) (backs : nat) (l : sline).

Scheme sexec_mind := Induction for sexec Sort Prop
  with spipe_mind := Induction for spipe Sort Prop
  with sline_mind := Induction for sline Sort Prop.
Combined Scheme shell_ind from sexec_mind, spipe_mind, sline_mind.

Definition rtok (k : rkind) : tok := match k with RIn => Sym 60 | ROut => Sym 62 | RAppend => App end.
Definition redir_toks (r : redir) : list tok := [rtok r.1; Word r.2].
Definition redirs_toks (rs : list redir) : list tok := concat (map redir_toks rs).
Definition arg_toks (a : list Z * list redir) : list tok := Word a.1 :: redirs_toks a.2.
Definition args_toks (args : list (list Z * list redir)) : list tok := concat (map arg_toks args).

Fixpoint exec_toks (e : sexec) : list tok :=
  match e with
  | Simple rs args => redirs_toks rs ++ args_toks args
  | Block l rs => Sym 40 :: line_toks l ++ Sym 41 :: redirs_toks rs
  end
with pipe_toks (p : spipe) : list tok :=
  match p with
  | One e => exec_toks e
  | Bar e p => exec_toks e ++ Sym 124 :: pipe_toks p
  end
with line_toks (l : sline) : list tok :=
  match l with
  | Last p k => pipe_toks p ++ replicate k (Sym 38)
  | Seq p k l => pipe_toks p ++ replicate k (Sym 38) ++ Sym 59 :: line_toks l
  end.

(** ** What a command line means *)

Inductive tree : Type :=
| TExec (argv : list (list Z))
| TRedir (t : tree) (file : list Z) (mode fd : Z)
| TPipe (left right : tree)
| TList (left right : tree)
| TBack (t : tree).

Fixpoint tpush (w : list Z) (t : tree) : tree :=
  match t with
  | TExec argv => TExec (argv ++ [w])
  | TRedir t f m d => TRedir (tpush w t) f m d
  | t => t
  end.
Definition tredir (t : tree) (r : redir) : tree :=
  match r.1 with
  | RIn => TRedir t r.2 O_RDONLY 0
  | _ => TRedir t r.2 (Z.lor O_WRONLY O_CREATE) 1
  end.
Definition tredirs (rs : list redir) (t : tree) : tree := fold_left tredir rs t.
Definition targ (t : tree) (a : list Z * list redir) : tree := tredirs a.2 (tpush a.1 t).

Fixpoint exec_tree (e : sexec) : tree :=
  match e with
  | Simple rs args => fold_left targ args (tredirs rs (TExec []))
  | Block l rs => tredirs rs (line_tree l)
  end
with pipe_tree (p : spipe) : tree :=
  match p with
  | One e => exec_tree e
  | Bar e p => TPipe (exec_tree e) (pipe_tree p)
  end
with line_tree (l : sline) : tree :=
  match l with
  | Last p k => Nat.iter k TBack (pipe_tree p)
  | Seq p k l => TList (Nat.iter k TBack (pipe_tree p)) (line_tree l)
  end.

(** The number of words of every simple command is within the bound. *)
Fixpoint exec_ok (e : sexec) : Prop :=
  match e with
  | Simple rs args => (length args < MAXARGS)%nat
  | Block l rs => line_ok l
  end
with pipe_ok (p : spipe) : Prop :=
  match p with
  | One e => exec_ok e
  | Bar e p => exec_ok e /\ pipe_ok p
  end
with line_ok (l : sline) : Prop :=
  match l with
  | Last p _ => pipe_ok p
  | Seq p _ l => pipe_ok p /\ line_ok l
  end.

(** The tree of strings that a parsed command stands for, in the text it was parsed
    from. *)
Definition sub (T : list Z) (a : nat * nat) : list Z := take (a.2 - a.1) (drop a.1 T).
Fixpoint view (T : list Z) (c : cmd) : tree :=
  match c with
  | EXEC argv => TExec (map (sub T) argv)
  | REDIR c f e m d => TRedir (view T c) (sub T (f, e)) m d
  | PIPE l r => TPipe (view T l) (view T r)
  | LIST l r => TList (view T l) (view T r)
  | BACK c => TBack (view T c)
  end.
(** The strings of a command. *)
Fixpoint spans (c : cmd) : list (nat * nat) :=
  match c with
  | EXEC argv => argv
  | REDIR c f e _ _ => spans c ++ [(f, e)]
  | PIPE l r => spans l ++ spans r
  | LIST l r => spans l ++ spans r
  | BACK c => spans c
  end.

Lemma view_push T a c : view T (push_arg a c) = tpush (sub T a) (view T c).
Proof. induction c; simpl; try done; [by rewrite map_app|by rewrite IHc]. Qed.

Lemma spans_push a c b : b ∈ spans (push_arg a c) -> b = a \/ b ∈ spans c.
Proof. induction c; simpl; rewrite ?elem_of_app; set_solver. Qed.

(** ** Parsing *)

Section Parses.
Context {buf T : list Z}.
Context (Hat : forall s, (s <= length T)%nat -> nth s buf 0 = nth s T 0).
Local Abbreviation es := (length T).
Local Abbreviation at_toks := (at_toks (T := T)).

(** The string lies in the text, up to a character that is not part of it. *)
Definition located (a : nat * nat) : Prop :=
  exists w rest, word_ok w /\ found (T := T) a.1 (Word w) rest /\ a.2 = (a.1 + length w)%nat.
Definition good (c : cmd) : Prop := Forall located (spans c).
Definition parsed (r : res (cmd * nat)) (t : tree) (ts : list tok) : Prop :=
  exists c s, r = Val (c, s) /\ view T c = t /\ good c /\ at_toks s ts.

(** The next token is none of the given ones. *)
Definition not_next (cs : list Z) (ts : list tok) : Prop :=
  match ts with [] => True | t :: _ => strchr cs (first t) = false end.

Lemma laid_ok text ts : laid text ts -> Forall tok_ok ts.
Proof. by induction 1; constructor. Qed.

Lemma toks_ok s t ts : at_toks s (t :: ts) -> tok_ok t.
Proof. intros [_ H]. by inversion H. Qed.

Lemma word_first w cs : word_ok w -> cs ⊆ symbols -> strchr cs (first (Word w)) = false.
Proof.
  intros [Hne Hw] Hcs. destruct w as [|c w]; [done|]. apply Forall_cons in Hw as [[Hc _] _]. simpl.
  unfold in_word in Hc. apply andb_true_iff in Hc as [_ Hc]. apply negb_true_iff in Hc.
  apply not_true_is_false. intros H. unfold strchr in H. apply existsb_exists in H as (x & Hx & E). apply Z.eqb_eq in E as <-.
  apply list_elem_of_In, Hcs, list_elem_of_In in Hx. assert (strchr symbols c = true); [|congruence].
  unfold strchr. apply existsb_exists. exists c. by rewrite Z.eqb_refl.
Qed.

Lemma located_word w q rest : word_ok w -> found (T := T) q (Word w) rest -> located (q, (q + length w)%nat).
Proof. intros Hw Hf. by exists w, rest. Qed.

Lemma sub_found w q rest : found (T := T) q (Word w) rest -> sub T (q, (q + length w)%nat) = w.
Proof.
  intros (E & _ & _). unfold sub. simpl in *. rewrite E. replace (q + length w - q)%nat with (length w) by lia.
  apply take_app_length.
Qed.

Lemma parseredirs_ok rs : forall n c s ts,
  at_toks s (redirs_toks rs ++ ts) -> not_next [60; 62] ts -> (length rs <= n)%nat -> good c ->
  parsed (parseredirs buf es n c s) (tredirs rs (view T c)) ts.
Proof.
  induction rs as [|[k w] rs IH]; intros n c s ts Ha Hnext Hn Hg.
  - destruct (peek_spec Hat s ts [60; 62] Ha) as (s' & Hp & Ha'). exists c, s'. split_and!; try done.
    destruct n; cbn [parseredirs]; rewrite Hp; destruct ts as [|t ts]; cbn [not_next] in Hnext; by rewrite ?Hnext.
  - destruct n as [|n]; [simpl in Hn; lia|]. cbn [parseredirs].
    change (at_toks s (rtok k :: Word w :: redirs_toks rs ++ ts)) in Ha.
    destruct (peek_spec Hat s _ [60; 62] Ha) as (s1 & Hp & Ha1). rewrite Hp.
    replace (strchr [60; 62] (first (rtok k))) with true by (by destruct k).
    destruct (gettoken_spec Hat s1 _ _ Ha1) as (q1 & s2 & rest1 & Hg1 & Ha2 & _). rewrite Hg1.
    destruct (gettoken_spec Hat s2 _ _ Ha2) as (q & s3 & rest & Hg2 & Ha3 & Hf). rewrite Hg2. cbn [code Z.eqb negb].
    pose proof (toks_ok _ _ _ Ha2) as Hw. change (word_ok w) in Hw. cbn [repr].
    match goal with |- context [parseredirs _ _ n ?x s3] => set (c' := x) end.
    destruct (IH n c' s3 ts Ha3 Hnext) as (c2 & s4 & Hr & Hv & Hg' & Ha4); [simpl in Hn; lia| |].
    + assert (Hl : located (q, (q + length w)%nat)) by (by eapply located_word).
      unfold good, c'. destruct k; simpl; apply Forall_app; (split; [done|]); by constructor.
    + exists c2, s4. split_and!; try done. rewrite Hv. unfold tredirs. cbn [fold_left]. f_equal.
      unfold c'. destruct k; simpl; by rewrite (sub_found w q rest).
Qed.

(** The next token, if there is one, is one of the given ones. *)
Definition next_in (cs : list Z) (ts : list tok) : Prop :=
  match ts with [] => True | t :: _ => strchr cs (first t) = true end.

Lemma next_in_sub cs cs' ts : cs ⊆ cs' -> next_in cs ts -> next_in cs' ts.
Proof.
  intros Hs. destruct ts as [|t ts]; [done|]. simpl. unfold strchr. rewrite !existsb_exists. intros (x & Hx & E).
  exists x. split; [|done]. by apply list_elem_of_In, Hs, list_elem_of_In.
Qed.

Lemma next_in_not cs cs' ts : cs ## cs' -> next_in cs ts -> not_next cs' ts.
Proof.
  intros Hd. destruct ts as [|t ts]; [done|]. simpl. intros H. apply not_true_is_false. intros H'.
  unfold strchr in *. apply existsb_exists in H as (x & Hx & E%Z.eqb_eq), H' as (y & Hy & E'%Z.eqb_eq).
  apply (Hd (first t)); apply list_elem_of_In; by subst.
Qed.

Lemma laid_app text ts1 ts2 : laid text (ts1 ++ ts2) -> exists text', laid text' ts2.
Proof.
  revert text. induction ts1 as [|t ts1 IH]; intros text H; [by exists text|]. inversion H. by eapply IH.
Qed.

(** No redirection follows the ones that belong to a word. *)
Lemma args_next s ts0 args ts :
  at_toks s (ts0 ++ args_toks args ++ ts) -> next_in [124; 41; 38; 59] ts -> not_next [60; 62] (args_toks args ++ ts).
Proof.
  intros [_ Hl] Hnext. apply laid_app in Hl as (text & Hl). destruct args as [|[w rs] args].
  - apply (next_in_not [124; 41; 38; 59]); [set_solver|done].
  - apply laid_ok, Forall_cons in Hl as [Hw _]. apply (word_first w); [done|unfold symbols; set_solver].
Qed.

Lemma length_redirs rs : length (redirs_toks rs) = (2 * length rs)%nat.
Proof. unfold redirs_toks. induction rs as [|r rs IH]; [done|]. simpl in *. rewrite IH. lia. Qed.

Lemma parseargs_ok args : forall n ret argc s ts,
  at_toks s (args_toks args ++ ts) -> next_in [124; 41; 38; 59] ts -> (length (args_toks args) <= n)%nat ->
  (argc + length args < MAXARGS)%nat -> good ret ->
  parsed (parseargs buf es n ret argc s) (fold_left targ args (view T ret)) ts.
Proof.
  induction args as [|[w rs] args IH]; intros n ret argc s ts Ha Hnext Hn Hargc Hg.
  - destruct (peek_spec Hat s _ [124; 41; 38; 59] Ha) as (s1 & Hp & Ha1). cbn [args_toks map concat app] in *.
    destruct ts as [|t ts]; cbn [next_in] in Hnext.
    + exists ret, es. split_and!; try done.
      * destruct n; cbn [parseargs]; rewrite Hp; by rewrite (gettoken_end Hat s1 Ha1).
      * split; [lia|]. rewrite drop_ge by lia. by constructor.
    + exists ret, s1. split_and!; try done. destruct n; cbn [parseargs]; rewrite Hp; by rewrite Hnext.
  - assert (Ha' : at_toks s (Word w :: redirs_toks rs ++ args_toks args ++ ts))
      by (unfold args_toks in *; simpl in Ha; by rewrite <- app_assoc in Ha).
    pose proof (toks_ok _ _ _ Ha') as Hw. change (word_ok w) in Hw.
    assert (Hlen : (S (length (redirs_toks rs)) + length (args_toks args) <= n)%nat)
      by (unfold args_toks in *; simpl in Hn; rewrite length_app in Hn; lia).
    destruct n as [|n]; [lia|]. cbn [parseargs].
    destruct (peek_spec Hat s _ [124; 41; 38; 59] Ha') as (s1 & Hp & Ha1). rewrite Hp.
    rewrite (word_first w [124; 41; 38; 59] Hw) by (unfold symbols; set_solver).
    destruct (gettoken_spec Hat s1 _ _ Ha1) as (q & s2 & rest & Hgt & Ha2 & Hf). rewrite Hgt. cbn [code repr Z.eqb negb].
    simpl in Hargc. rewrite (proj2 (Nat.leb_gt MAXARGS (S argc))) by lia.
    pose proof (args_next s2 (redirs_toks rs) args ts Ha2 Hnext) as Hnr.
    assert (Hg1 : good (push_arg (q, (q + length w)%nat) ret)).
    { apply Forall_forall. intros b Hb. apply spans_push in Hb as [->|Hb]; [by eapply located_word|].
      by apply (proj1 (Forall_forall _ _) Hg). }
    destruct (parseredirs_ok rs n _ s2 _ Ha2 Hnr ltac:(rewrite length_redirs in Hlen; lia) Hg1) as (c2 & s3 & Hr & Hv & Hg2 & Ha3).
    rewrite Hr. cbn [rbind]. destruct (IH n c2 (S argc) s3 ts) as (c3 & s4 & Hr3 & Hv3 & Hg3 & Ha4); try done; [lia|lia|].
    exists c3, s4. split_and!; try done. rewrite Hv3, Hv. cbn [fold_left]. unfold targ at 3. simpl.
    by rewrite view_push, (sub_found w q rest).
Qed.

Lemma parsebacks_ok k : forall n c s ts,
  at_toks s (replicate k (Sym 38) ++ ts) -> not_next [38] ts -> (k <= n)%nat -> good c ->
  parsed (parsebacks buf es n c s) (Nat.iter k TBack (view T c)) ts.
Proof.
  induction k as [|k IH]; intros n c s ts Ha Hnext Hn Hg.
  - destruct (peek_spec Hat s _ [38] Ha) as (s1 & Hp & Ha1). exists c, s1. split_and!; try done.
    destruct n; cbn [parsebacks]; rewrite Hp; destruct ts as [|t ts]; cbn [not_next replicate app] in *; by rewrite ?Hnext.
  - destruct n as [|n]; [lia|]. cbn [parsebacks]. change (at_toks s (Sym 38 :: replicate k (Sym 38) ++ ts)) in Ha.
    destruct (peek_spec Hat s _ [38] Ha) as (s1 & Hp & Ha1). rewrite Hp. cbn [first].
    destruct (gettoken_spec Hat s1 _ _ Ha1) as (q & s2 & rest & Hgt & Ha2 & _). rewrite Hgt.
    destruct (IH n (BACK c) s2 ts Ha2 Hnext) as (c2 & s3 & Hr & Hv & Hrest); [lia|done|].
    exists c2, s3. split_and!; try apply Hrest; [done|]. rewrite Hv. simpl. by rewrite <- Nat.iter_succ_r.
Qed.

(** A simple command does not start with a parenthesis. *)
Lemma simple_next rs args s ts :
  at_toks s (redirs_toks rs ++ args_toks args ++ ts) -> next_in [124; 41; 38; 59] ts ->
  not_next [40] (redirs_toks rs ++ args_toks args ++ ts).
Proof.
  intros Ha Hnext. destruct rs as [|[[] w] rs]; [|done..]. destruct args as [|[w rs] args].
  - apply (next_in_not [124; 41; 38; 59]); [set_solver|done].
  - destruct Ha as [_ Hl]. apply laid_ok, Forall_cons in Hl as [Hw _]. apply (word_first w); [done|unfold symbols; set_solver].
Qed.

Definition exec_parses (e : sexec) : Prop := forall n m s ts,
  exec_ok e -> at_toks s (exec_toks e ++ ts) -> next_in [124; 41; 38; 59] ts ->
  (length (exec_toks e) <= n)%nat -> (length (exec_toks e) <= m)%nat ->
  parsed (parseexec buf es n (parseline buf es m) s) (exec_tree e) ts.
Definition pipe_parses (p : spipe) : Prop := forall n m s ts,
  pipe_ok p -> at_toks s (pipe_toks p ++ ts) -> next_in [41; 38; 59] ts ->
  (length (pipe_toks p) <= n)%nat -> (length (pipe_toks p) <= m)%nat ->
  parsed (parsepipe buf es n (parseline buf es m) s) (pipe_tree p) ts.
Definition line_parses (l : sline) : Prop := forall n s ts,
  line_ok l -> at_toks s (line_toks l ++ ts) -> next_in [41] ts -> (length (line_toks l) < n)%nat ->
  parsed (parseline buf es n s) (line_tree l) ts.

Lemma simple_parses rs args : exec_parses (Simple rs args).
Proof.
  intros n m s ts Hok Ha Hnext Hn Hm. cbn [exec_toks exec_ok] in *. rewrite <- app_assoc in Ha.
  destruct (peek_spec Hat s _ [40] Ha) as (s1 & Hp & Ha1). pose proof (simple_next rs args s ts Ha Hnext) as Hn40.
  unfold parseexec, execcmd. rewrite Hp. replace (match redirs_toks rs ++ args_toks args ++ ts with [] => false | t :: _ => _ end) with false
    by (symmetry; by destruct (redirs_toks rs ++ args_toks args ++ ts)).
  rewrite length_app, length_redirs in Hn.
  pose proof (args_next s1 (redirs_toks rs) args ts Ha1 Hnext) as Hnr.
  destruct (parseredirs_ok rs n (EXEC []) s1 _ Ha1 Hnr) as (c & s2 & Hr & Hv & Hg & Ha2); [lia|constructor|].
  rewrite Hr. cbn [rbind]. destruct (parseargs_ok args n c 0 s2 ts Ha2 Hnext) as (c2 & s3 & Hr2 & Hv2 & Hrest); [lia|done|done|].
  exists c2, s3. split_and!; try apply Hrest; [done|]. by rewrite Hv2, Hv.
Qed.

Lemma block_parses l rs : line_parses l -> exec_parses (Block l rs).
Proof.
  intros IH n m s ts Hok Ha Hnext Hn Hm. cbn [exec_toks exec_ok] in *.
  assert (Ha0 : at_toks s (Sym 40 :: line_toks l ++ Sym 41 :: redirs_toks rs ++ ts))
    by (simpl in Ha; by rewrite <- app_assoc in Ha).
  assert (Hlen : (length (line_toks l) < m /\ length rs <= n)%nat)
    by (simpl in *; rewrite length_app in *; simpl in *; rewrite length_redirs in *; lia).
  unfold parseexec. destruct (peek_spec Hat s _ [40] Ha0) as (s1 & Hp & Ha1). rewrite Hp. cbn [first].
  change (strchr [40] 40) with true. cbv iota. unfold parseblock.
  destruct (peek_spec Hat s1 _ [40] Ha1) as (s2 & Hp2 & Ha2). rewrite Hp2. cbn [first]. change (strchr [40] 40) with true.
  cbn [negb]. destruct (gettoken_spec Hat s2 _ _ Ha2) as (q & s3 & rest & Hgt & Ha3 & _). rewrite Hgt.
  destruct (IH m s3 _ Hok Ha3) as (c & s4 & Hr & Hv & Hg & Ha4); [done|lia|]. rewrite Hr. cbn [rbind].
  destruct (peek_spec Hat s4 _ [41] Ha4) as (s5 & Hp5 & Ha5). rewrite Hp5. cbn [first]. change (strchr [41] 41) with true.
  cbn [negb]. destruct (gettoken_spec Hat s5 _ _ Ha5) as (q6 & s6 & rest6 & Hgt6 & Ha6 & _). rewrite Hgt6.
  cbn [exec_tree]. rewrite <- Hv. apply parseredirs_ok; [done| |lia|done].
  apply (next_in_not [124; 41; 38; 59]); [set_solver|done].
Qed.

Lemma one_parses e : exec_parses e -> pipe_parses (One e).
Proof.
  intros IH n m s ts Hok Ha Hnext Hn Hm. cbn [pipe_toks pipe_ok pipe_tree] in *.
  destruct (IH n m s ts Hok Ha) as (c & s1 & Hr & Hv & Hg & Ha1); [by eapply next_in_sub; [|done]; set_solver|done|done|].
  destruct (peek_spec Hat s1 _ [124] Ha1) as (s2 & Hp & Ha2). exists c, s2. split_and!; try done.
  assert (Hb : match ts with [] => false | t :: _ => strchr [124] (first t) end = false).
  { destruct ts; [done|]. by apply (next_in_not [41; 38; 59] [124] (t :: ts)); [set_solver|]. }
  rewrite Hb in Hp. destruct n; cbn [parsepipe]; rewrite Hr; cbn [rbind]; by rewrite Hp.
Qed.

Lemma bar_parses e p : exec_parses e -> pipe_parses p -> pipe_parses (Bar e p).
Proof.
  intros IHe IHp n m s ts [Hoke Hokp] Ha Hnext Hn Hm. cbn [pipe_toks] in *. rewrite <- app_assoc in Ha.
  rewrite length_app in Hn, Hm. simpl in Hn, Hm.
  destruct (IHe n m s _ Hoke Ha) as (c & s1 & Hr & Hv & Hg & Ha1); [done|lia|lia|].
  destruct n as [|n]; [lia|]. cbn [parsepipe]. rewrite Hr. cbn [rbind].
  destruct (peek_spec Hat s1 _ [124] Ha1) as (s2 & Hp & Ha2). rewrite Hp. cbn [app first]. change (strchr [124] 124) with true.
  cbv iota. destruct (gettoken_spec Hat s2 _ _ Ha2) as (q & s3 & rest & Hgt & Ha3 & _). rewrite Hgt.
  destruct (IHp n m s3 ts Hokp Ha3 Hnext) as (c2 & s4 & Hr2 & Hv2 & Hg2 & Ha4); [lia|lia|]. rewrite Hr2. cbn [rbind].
  exists (PIPE c c2), s4. split_and!; try done; [simpl; by rewrite Hv, Hv2|]. apply Forall_app. done.
Qed.

Lemma pipe_backs_parse p k n s ts :
  pipe_parses p -> pipe_ok p -> at_toks s (pipe_toks p ++ replicate k (Sym 38) ++ ts) -> next_in [41; 59] ts ->
  (length (pipe_toks p) + k <= n)%nat ->
  parsed (let* (c, s) := parsepipe buf es n (parseline buf es n) s in parsebacks buf es n c s)
    (Nat.iter k TBack (pipe_tree p)) ts.
Proof.
  intros IH Hok Ha Hnext Hn.
  destruct (IH n n s _ Hok Ha) as (c & s1 & Hr & Hv & Hg & Ha1); [|lia|lia|].
  { destruct k; [|done]. by eapply next_in_sub; [|done]; set_solver. }
  rewrite Hr. cbn [rbind]. rewrite <- Hv. apply parsebacks_ok; [done| |lia|done].
  apply (next_in_not [41; 59]); [set_solver|done].
Qed.

Lemma rbind_pair {A B C D} (r : res (A * B)) (f : A -> B -> res C) (g : C -> res D) :
  (let* (a, b) := r in rbind (f a b) g) = rbind (let* (a, b) := r in f a b) g.
Proof. by destruct r as [[a b]| |]. Qed.

Lemma parses_all :
  (forall e, exec_parses e) /\ (forall p, pipe_parses p) /\ (forall l, line_parses l).
Proof.
  apply shell_ind.
  - apply simple_parses.
  - intros l Hl rs. by apply block_parses.
  - apply one_parses.
  - intros e He p Hp. by apply bar_parses.
  - intros p IH k n s ts Hok Ha Hnext Hn. cbn [line_toks line_ok line_tree] in *. rewrite <- app_assoc in Ha.
    rewrite length_app, length_replicate in Hn. destruct n as [|n]; [lia|]. cbn [parseline].
    destruct (pipe_backs_parse p k n s ts IH Hok Ha) as (c & s1 & Hr & Hv & Hg & Ha1); [|lia|].
    { by eapply next_in_sub; [|done]; set_solver. }
    destruct (peek_spec Hat s1 _ [59] Ha1) as (s2 & Hp & Ha2). exists c, s2. split_and!; try done.
    assert (Hb : match ts with [] => false | t :: _ => strchr [59] (first t) end = false).
    { destruct ts; [done|]. by apply (next_in_not [41] [59] (t :: ts)); [set_solver|]. }
    rewrite Hb in Hp. rewrite rbind_pair, Hr. cbn [rbind]. by rewrite Hp.
  - intros p IHp k l IHl n s ts [Hokp Hokl] Ha Hnext Hn. cbn [line_toks line_tree] in *.
    rewrite <- !app_assoc in Ha. rewrite !length_app, length_replicate in Hn. simpl in Hn.
    destruct n as [|n]; [lia|]. cbn [parseline].
    destruct (pipe_backs_parse p k n s _ IHp Hokp Ha) as (c & s1 & Hr & Hv & Hg & Ha1); [done|lia|].
    rewrite rbind_pair, Hr. cbn [rbind]. destruct (peek_spec Hat s1 _ [59] Ha1) as (s2 & Hp & Ha2). rewrite Hp.
    cbn [app first]. change (strchr [59] 59) with true. cbv iota.
    destruct (gettoken_spec Hat s2 _ _ Ha2) as (q & s3 & rest & Hgt & Ha3 & _). rewrite Hgt.
    destruct (IHl n s3 ts Hokl Ha3 Hnext) as (c2 & s4 & Hr2 & Hv2 & Hg2 & Ha4); [lia|]. rewrite Hr2. cbn [rbind].
    exists (LIST c c2), s4. split_and!; try done; [simpl; by rewrite Hv, Hv2|]. by apply Forall_app.
Qed.
End Parses.

(** ** Termination of the strings *)

(** The strings of a command in memory. *)
Fixpoint cview (mem : list Z) (c : cmd) : tree :=
  match c with
  | EXEC argv => TExec (map (fun a => cstr (drop a.1 mem)) argv)
  | REDIR c f _ m d => TRedir (cview mem c) (cstr (drop f mem)) m d
  | PIPE l r => TPipe (cview mem l) (cview mem r)
  | LIST l r => TList (cview mem l) (cview mem r)
  | BACK c => TBack (cview mem c)
  end.

Definition zero_ends (l : list (nat * nat)) (buf : list Z) : list Z := fold_left (fun buf a => <[a.2 := 0]> buf) l buf.

Lemma nulterminate_spans c buf : nulterminate c buf = zero_ends (spans c) buf.
Proof.
  revert buf. induction c; intros buf; simpl; unfold zero_ends in *; rewrite ?fold_left_app; try done.
  - simpl. by rewrite IHc.
  - by rewrite IHc1, IHc2.
  - by rewrite IHc1, IHc2.
Qed.

Lemma zero_ends_lookup l buf i :
  (i < length buf)%nat -> zero_ends l buf !! i = if decide (i ∈ map snd l) then Some 0 else buf !! i.
Proof.
  revert buf. induction l as [|a l IH]; intros buf Hi; [done|]. simpl. unfold zero_ends in *. simpl.
  rewrite IH by (by rewrite length_insert). destruct (decide (i ∈ map snd l)) as [Hin|Hout].
  - rewrite decide_True by set_solver. done.
  - destruct (decide (i = a.2)) as [->|Hne].
    + rewrite list_lookup_insert_eq, decide_True by (done || set_solver). done.
    + rewrite list_lookup_insert_ne, decide_False by (done || set_solver). done.
Qed.

Lemma cstr_prefix w rest : 0 ∉ w -> cstr (w ++ 0 :: rest) = w.
Proof.
  induction w as [|c w IH]; intros H; [done|]. apply not_elem_of_cons in H as [Hc H]. simpl.
  by rewrite (proj2 (Z.eqb_neq c 0)), IH.
Qed.

Section Strings.
Context {T pad : list Z}.
Local Abbreviation buf := (T ++ 0 :: pad).

(** The end of a string is never inside another one. *)
Lemma ends_outside a b i : located (T := T) a -> located (T := T) b -> (a.1 <= i < a.2)%nat -> i <> b.2.
Proof.
  intros (w & rest & [_ Hw] & (E & Hq & _) & Ea) (w' & rest' & _ & (E' & Hq' & He') & Eb) Hi ->.
  destruct (lookup_lt_is_Some_2 w (b.2 - a.1)%nat) as [c Hc]; [lia|].
  assert (HT : T !! b.2 = Some c).
  { replace b.2 with (a.1 + (b.2 - a.1))%nat by lia. rewrite <- lookup_drop, E. simpl. by apply lookup_app_l_Some. }
  assert (HT' : rest' !! 0%nat = Some c).
  { rewrite <- HT, Eb. pose proof (drop_more b.1 (repr (Word w')) rest' E') as Hd. simpl in Hd.
    rewrite <- Hd, lookup_drop. f_equal. lia. }
  rewrite Forall_forall in Hw. destruct (Hw c) as [Hc' _]; [by apply list_elem_of_lookup_2 in Hc|].
  simpl in He'. destruct He' as [->|He']; [done|]. destruct rest' as [|x r]; [done|]. simpl in *. injection HT' as ->. congruence.
Qed.

Lemma string_in_memory l a :
  Forall (located (T := T)) l -> a ∈ l -> cstr (drop a.1 (zero_ends l buf)) = sub T a.
Proof.
  intros Hl Ha. pose proof (proj1 (Forall_forall _ _) Hl a Ha) as Hloc. pose proof Hloc as (w & rest & Hw & Hf & Ea).
  assert (Hsub : sub T a = w) by (destruct a as [q e]; simpl in *; subst e; by eapply sub_found).
  rewrite Hsub. destruct Hf as (E & Hq & _). simpl in E.
  assert (Hlen : (a.2 <= length T)%nat).
  { apply (f_equal length) in E. rewrite length_drop, length_app in E. lia. }
  assert (H0w : 0 ∉ w).
  { intros H. destruct Hw as [_ Hw]. rewrite Forall_forall in Hw. by destruct (Hw 0 H). }
  assert (Hd : drop a.1 (zero_ends l buf) = w ++ 0 :: drop (S a.2) (zero_ends l buf)).
  { apply list_eq. intros i. rewrite lookup_drop. destruct (decide (i < length w)%nat) as [Hi|Hi].
    - rewrite zero_ends_lookup by (rewrite length_app; simpl; lia). rewrite (lookup_app_l w) by done.
      rewrite decide_False.
      + rewrite lookup_app_l by lia. by rewrite <- lookup_drop, E, lookup_app_l.
      + intros Hin. apply list_elem_of_fmap in Hin as (b & Eb & Hb). pose proof (proj1 (Forall_forall _ _) Hl b Hb) as Hlb.
        apply (ends_outside a b (a.1 + i)); [done|done|lia|done].
    - rewrite (lookup_app_r w) by lia. destruct (decide (i = length w)) as [->|Hne].
      + rewrite Nat.sub_diag, <- Ea, zero_ends_lookup by (rewrite length_app; simpl; lia).
        rewrite decide_True by (apply list_elem_of_fmap; by exists a). done.
      + destruct (i - length w)%nat as [|k] eqn:Ek; [lia|]. simpl. rewrite lookup_drop. f_equal. lia. }
  rewrite Hd. by apply cstr_prefix.
Qed.

Lemma view_in_memory l c :
  Forall (located (T := T)) l -> (forall a, a ∈ spans c -> a ∈ l) -> cview (zero_ends l buf) c = view T c.
Proof.
  intros Hl. induction c as [argv|c IH f e m d|c1 IH1 c2 IH2|c1 IH1 c2 IH2|c IH]; simpl; intros Hs.
  - f_equal. apply map_ext_in. intros a Ha. apply string_in_memory; [done|]. by apply Hs, list_elem_of_In.
  - rewrite IH by set_solver. f_equal. apply (string_in_memory l (f, e)); [done|]. set_solver.
  - rewrite IH1, IH2; [done|set_solver..].
  - rewrite IH1, IH2; [done|set_solver..].
  - by rewrite IH.
Qed.
End Strings.

(** ** The loops end *)

Section Ends.
Context {buf : list Z} {es : nat}.
Context (Hend : at_ buf es = 0).

Lemma nonzero_inside s : (s <= es)%nat -> at_ buf s <> 0 -> (s < es)%nat.
Proof. intros Hs H. assert (s <> es) by congruence. lia. Qed.

Lemma skip_while_bounds n test s :
  (s <= es)%nat -> (es - s <= n)%nat ->
  (s <= skip_while buf es n test s <= es)%nat /\
  (skip_while buf es n test s = es \/ test (at_ buf (skip_while buf es n test s)) = false).
Proof.
  revert s. induction n as [|n IH]; intros s Hs Hn; cbn [skip_while]; [split; [lia|left; lia]|].
  destruct (Nat.ltb_spec s es) as [Hlt|Hlt]; simpl; [|split; [lia|left; lia]].
  destruct (test (at_ buf s)) eqn:Ht; [|split; [lia|by right]]. destruct (IH (S s)) as [? ?]; [lia|lia|]. split; [lia|done].
Qed.

Lemma skip_bounds test s : (s <= es)%nat -> (s <= skip buf es test s <= es)%nat.
Proof. intros Hs. by apply skip_while_bounds. Qed.

Lemma skip_stops test s : (s <= es)%nat -> skip buf es test s = es \/ test (at_ buf (skip buf es test s)) = false.
Proof. intros Hs. by apply skip_while_bounds. Qed.

Lemma skip_stays test s : test (at_ buf s) = false -> skip buf es test s = s.
Proof. intros H. unfold skip. destruct (es - s)%nat; [done|]. simpl. by rewrite H, andb_false_r. Qed.

Lemma skip_advances test s : (s < es)%nat -> test (at_ buf s) = true -> (s < skip buf es test s)%nat.
Proof.
  intros Hs Ht. unfold skip. destruct (es - s)%nat as [|n] eqn:E; [lia|]. simpl. rewrite Ht, (proj2 (Nat.ltb_lt _ _)) by lia.
  simpl. pose proof (skip_while_bounds n test (S s) ltac:(lia) ltac:(lia)). lia.
Qed.

(** A character that is no blank, no symbol and not the end is part of a word. *)
Lemma word_char c : is_ws c = false -> strchr [124; 40; 41; 59; 38; 60] c = false -> c <> 62 -> in_word c = true.
Proof.
  unfold is_ws, in_word. intros -> H H62. apply Z.eqb_neq in H62. unfold symbols. simpl in H |- *.
  repeat match goal with H : (_ || _)%bool = false |- _ => apply orb_false_iff in H as [? H] end. lia.
Qed.

(** [gettoken] moves forward, unless it is at the end. *)
Lemma gettoken_moves s t q e s' :
  (s <= es)%nat -> gettoken buf es s = (t, q, e, s') ->
  (s <= s' <= es)%nat /\ (t <> 0 -> (s < s')%nat) /\ (q <= e <= es)%nat.
Proof.
  intros Hs. unfold gettoken. pose proof (skip_bounds is_ws s Hs) as Hb. pose proof (skip_stops is_ws s Hs) as Hst.
  set (b := skip buf es is_ws s) in *. clearbody b. pose proof (nonzero_inside b) as Hnz. pose proof (nonzero_inside (S b)) as Hnz'.
  assert (Hgo : forall e0, (b <= e0 <= es)%nat -> (b <= skip buf es is_ws e0 <= es)%nat /\ (e0 <= skip buf es is_ws e0)%nat).
  { intros e0 He. pose proof (skip_bounds is_ws e0 ltac:(lia)). lia. }
  destruct (Z.eqb_spec (at_ buf b) 0) as [H0|H0].
  { intros [= <- <- <- <-]. destruct (Hgo b ltac:(lia)). split_and!; (lia || done). }
  specialize (Hnz ltac:(lia) H0). destruct Hst as [->|Hst]; [lia|].
  assert (Hone : forall e0, (b < e0 <= es)%nat ->
    (s <= skip buf es is_ws e0 <= es)%nat /\ (s < skip buf es is_ws e0)%nat /\ (b <= e0 <= es)%nat).
  { intros e0 He. destruct (Hgo e0 ltac:(lia)). lia. }
  destruct (strchr _ (at_ buf b)) eqn:Hsym; [intros [= <- <- <- <-]; destruct (Hone (S b)) as (? & ? & ?); [lia|auto]|].
  destruct (Z.eqb_spec (at_ buf b) 62) as [H62|H62].
  - destruct (Z.eqb_spec (at_ buf (S b)) 62) as [H2|H2].
    + assert (S b < es)%nat by (apply Hnz'; [lia|by rewrite H2]).
      intros [= <- <- <- <-]. destruct (Hone (S (S b))) as (? & ? & ?); [lia|auto].
    + intros [= <- <- <- <-]. destruct (Hone (S b)) as (? & ? & ?); [lia|auto].
  - intros [= <- <- <- <-]. pose proof (skip_advances in_word b Hnz (word_char _ Hst Hsym H62)).
    pose proof (skip_bounds in_word b ltac:(lia)). destruct (Hone (skip buf es in_word b)) as (? & ? & ?); [lia|auto].
Qed.

Lemma peek_moves s cs b s' : (s <= es)%nat -> peek buf es s cs = (b, s') -> (s <= s' <= es)%nat.
Proof. intros Hs. unfold peek. intros [= _ <-]. by apply skip_bounds. Qed.

(** What [peek] saw is there for [gettoken] to take. *)
Lemma peek_take s cs s' t q e s2 :
  (s <= es)%nat -> peek buf es s cs = (true, s') -> gettoken buf es s' = (t, q, e, s2) -> (s' < s2 <= es)%nat.
Proof.
  intros Hs Hp Hg. pose proof (peek_moves s cs true s' Hs Hp) as Hb. unfold peek in Hp. injection Hp as Hc Hs'.
  destruct (gettoken_moves s' t q e s2 ltac:(lia) Hg) as (H1 & H2 & _). split; [|lia]. apply H2. intros ->.
  rewrite Hs' in Hc. apply andb_true_iff in Hc as [Hc _]. apply negb_true_iff, Z.eqb_neq in Hc.
  assert (Hst : is_ws (at_ buf s') = false).
  { destruct (skip_stops is_ws s Hs) as [E|E]; rewrite Hs' in E; [subst; congruence|done]. }
  unfold gettoken in Hg. rewrite (skip_stays is_ws s' Hst), (proj2 (Z.eqb_neq _ _) Hc) in Hg.
  destruct (strchr _ _); [congruence|]. destruct (_ =? 62); [destruct (_ =? 62)|]; congruence.
Qed.

Lemma peek_inside s cs s' : (s <= es)%nat -> peek buf es s cs = (true, s') -> (s' < es)%nat.
Proof. intros Hs Hp. destruct (gettoken buf es s') as [[[t q] e] s2] eqn:Hg. pose proof (peek_take s cs s' t q e s2 Hs Hp Hg). lia. Qed.

(** Every string lies in the text and every argument vector has room for its end. *)
Fixpoint safe (c : cmd) : Prop :=
  match c with
  | EXEC argv => (length argv < MAXARGS)%nat /\ Forall (fun a => (a.1 <= a.2 <= es)%nat) argv
  | REDIR c f e _ _ => safe c /\ (f <= e <= es)%nat
  | PIPE l r => safe l /\ safe r
  | LIST l r => safe l /\ safe r
  | BACK c => safe c
  end.
(** The arguments of the leaf. *)
Fixpoint argc_of (c : cmd) : nat :=
  match c with EXEC argv => length argv | REDIR c _ _ _ _ => argc_of c | _ => 0 end.

Lemma safe_push a c :
  safe c -> (S (argc_of c) < MAXARGS)%nat -> (a.1 <= a.2 <= es)%nat -> safe (push_arg a c).
Proof.
  intros Hc Hn Ha. induction c; simpl in *; try done; [|by destruct Hc; auto]. destruct Hc as [_ Hc].
  rewrite length_app, Forall_app, Forall_singleton. simpl. split; [lia|done].
Qed.

Lemma argc_push a c : (argc_of (push_arg a c) <= S (argc_of c))%nat.
Proof. induction c; simpl; try lia. rewrite length_app. simpl. lia. Qed.

(** A parser returns: at or after the index [s], with such a command. *)
Definition fine (r : res (cmd * nat)) (s : nat) : Prop :=
  match r with Val (c, s') => (s <= s' <= es)%nat /\ safe c | Stop _ => True | Loop => False end.

Lemma fine_mono r s s' : fine r s -> (s' <= s)%nat -> fine r s'.
Proof. destruct r as [[c x]| |]; simpl; [|done..]. intros [? ?] ?. split; [lia|done]. Qed.

Lemma fine_bind r s (f : cmd * nat -> res (cmd * nat)) s0 :
  fine r s -> (forall c s', (s <= s' <= es)%nat -> safe c -> fine (f (c, s')) s0) -> fine (rbind r f) s0.
Proof. destruct r as [[c x]| |]; simpl; [|done..]. intros [? ?] Hf. by apply Hf. Qed.

Ltac token H t s :=
  match goal with
  | |- context [gettoken ?b ?e ?x] => destruct (gettoken b e x) as [[[t ?] ?] s] eqn:H
  end.

Lemma parseredirs_fine n c s : (s <= es)%nat -> (es - s <= n)%nat -> safe c -> fine (parseredirs buf es n c s) s.
Proof.
  revert c s. induction n as [|n IH]; intros c s Hs Hn Hc; cbn [parseredirs];
    destruct (peek buf es s _) as [b s1] eqn:Hp; pose proof (peek_moves _ _ _ _ Hs Hp) as H1; (destruct b; [|split; [lia|done]]).
  - pose proof (peek_inside _ _ _ Hs Hp). lia.
  - token Hg t1 s3. pose proof (peek_take _ _ _ _ _ _ _ Hs Hp Hg) as H2. token Hg2 t2 s5.
    destruct (gettoken_moves s3 _ _ _ _ ltac:(lia) Hg2) as (H3 & _ & H4). destruct (negb _); [done|].
    eapply fine_mono; [apply IH; [lia|lia|]|lia]. destruct (_ =? 60); [done|]. by destruct (_ || _).
Qed.

Lemma parseredirs_argc n c s c' s' : parseredirs buf es n c s = Val (c', s') -> argc_of c' = argc_of c.
Proof.
  revert c s. induction n as [|n IH]; intros c s; cbn [parseredirs]; destruct (peek buf es s _) as [b s1];
    (destruct b; [|congruence]); [done|]. token Hg t1 s3. token Hg2 t2 s5. destruct (negb _); [done|].
  intros H. apply IH in H. rewrite H. destruct (_ =? 60); [done|]. by destruct (_ || _).
Qed.

Lemma redirs_bind n c s (f : cmd * nat -> res (cmd * nat)) s0 :
  (s <= es)%nat -> (es - s <= n)%nat -> safe c ->
  (forall c' s', (s <= s' <= es)%nat -> safe c' -> argc_of c' = argc_of c -> fine (f (c', s')) s0) ->
  fine (rbind (parseredirs buf es n c s) f) s0.
Proof.
  intros Hs Hn Hc Hf. pose proof (parseredirs_fine n c s Hs Hn Hc) as H1. pose proof (parseredirs_argc n c s) as H2.
  destruct (parseredirs buf es n c s) as [[c' s']| |]; simpl in *; [|done..]. destruct H1 as [H1 H3]. eapply Hf; eauto.
Qed.

Lemma parseargs_fine n c argc s :
  (s <= es)%nat -> (es - s <= n)%nat -> safe c -> (argc_of c <= argc)%nat -> fine (parseargs buf es n c argc s) s.
Proof.
  revert c argc s. induction n as [|n IH]; intros c argc s Hs Hn Hc Ha; cbn [parseargs];
    destruct (peek buf es s _) as [b s1] eqn:Hp; pose proof (peek_moves _ _ _ _ Hs Hp) as H1; (destruct b; [split; [lia|done]|]);
    token Hg t1 s3; destruct (gettoken_moves s1 _ _ _ _ ltac:(lia) Hg) as (H2 & H3 & H4);
    (destruct (Z.eqb_spec t1 0) as [Hz|Hz]; [split; [lia|done]|]); specialize (H3 Hz); (destruct (negb _); [done|]); [lia|].
  destruct (Nat.leb_spec MAXARGS (S argc)) as [Hm|Hm]; [done|].
  pose proof (argc_push (n0, n1) c) as Hpush.
  apply redirs_bind; [lia|lia|by apply safe_push; [|lia|]|]. intros c' s' Hs' Hc' Ha'.
  eapply fine_mono; [apply IH; (lia || done)|lia].
Qed.

(** The promise of [parseline] that [parseblock] relies on. *)
Definition line_fine (pl : nat -> res (cmd * nat)) (s : nat) : Prop := forall s', (s < s' <= es)%nat -> fine (pl s') s'.

Lemma line_fine_mono pl s s' : line_fine pl s -> (s <= s')%nat -> line_fine pl s'.
Proof. intros H Hs x Hx. apply H. lia. Qed.

Lemma parseblock_fine n pl s : (s <= es)%nat -> (es - s <= n)%nat -> line_fine pl s -> fine (parseblock buf es n pl s) s.
Proof.
  intros Hs Hn Hpl. unfold parseblock. destruct (peek buf es s [40]) as [b s1] eqn:Hp.
  pose proof (peek_moves _ _ _ _ Hs Hp) as H1. destruct b; [|exact I]. cbn [negb]. token Hg t1 s3.
  pose proof (peek_take _ _ _ _ _ _ _ Hs Hp Hg) as H2. eapply fine_bind; [apply Hpl; lia|]. intros c s2 H3 Hc. cbn beta iota.
  destruct (peek buf es s2 [41]) as [b s4] eqn:Hp2. pose proof (peek_moves s2 _ _ _ ltac:(lia) Hp2) as H4.
  destruct b; [|exact I]. cbn [negb]. token Hg2 t2 s5. pose proof (peek_take s2 _ _ _ _ _ _ ltac:(lia) Hp2 Hg2) as H5.
  eapply fine_mono; [apply parseredirs_fine; (lia || done)|lia].
Qed.

Lemma parseexec_fine n pl s : (s <= es)%nat -> (es - s <= n)%nat -> line_fine pl s -> fine (parseexec buf es n pl s) s.
Proof.
  intros Hs Hn Hpl. unfold parseexec. destruct (peek buf es s [40]) as [b s1] eqn:Hp.
  pose proof (peek_moves _ _ _ _ Hs Hp) as H1. destruct b.
  - eapply fine_mono; [apply parseblock_fine; [lia|lia|]|lia]. eapply line_fine_mono; [done|lia].
  - apply redirs_bind; [lia|lia|by split; [simpl; unfold MAXARGS; lia|]|]. intros c s2 H2 Hc Ha. simpl in Ha.
    eapply fine_mono; [apply parseargs_fine; (lia || done)|lia].
Qed.

Lemma parsepipe_fine n pl s : (s <= es)%nat -> (es - s <= n)%nat -> line_fine pl s -> fine (parsepipe buf es n pl s) s.
Proof.
  revert s. induction n as [|n IH]; intros s Hs Hn Hpl; cbn [parsepipe];
    (eapply fine_bind; [by apply parseexec_fine|]); intros c s1 H1 Hc; cbn beta iota;
    destruct (peek buf es s1 [124]) as [b s2] eqn:Hp; pose proof (peek_moves s1 _ _ _ ltac:(lia) Hp) as H2;
    (destruct b; [|split; [lia|done]]); [pose proof (peek_inside s1 _ _ ltac:(lia) Hp); lia|].
  token Hg t1 s3. pose proof (peek_take s1 _ _ _ _ _ _ ltac:(lia) Hp Hg) as H3.
  eapply fine_bind; [apply IH; [lia|lia|eapply line_fine_mono; [done|lia]]|]. intros r s5 H5 Hr. split; [lia|done].
Qed.

Lemma parsebacks_fine n c s : (s <= es)%nat -> (es - s <= n)%nat -> safe c -> fine (parsebacks buf es n c s) s.
Proof.
  revert c s. induction n as [|n IH]; intros c s Hs Hn Hc; cbn [parsebacks];
    destruct (peek buf es s _) as [b s1] eqn:Hp; pose proof (peek_moves _ _ _ _ Hs Hp) as H1; (destruct b; [|split; [lia|done]]);
    [pose proof (peek_inside _ _ _ Hs Hp); lia|].
  token Hg t1 s3. pose proof (peek_take _ _ _ _ _ _ _ Hs Hp Hg) as H2.
  eapply fine_mono; [apply IH; (lia || done)|lia].
Qed.

Lemma parseline_fine n s : (s <= es)%nat -> (es - s < n)%nat -> fine (parseline buf es n s) s.
Proof.
  revert s. induction n as [|n IH]; intros s Hs Hn; [lia|]. cbn [parseline].
  eapply fine_bind; [apply parsepipe_fine; [lia|lia|]|].
  { intros s' Hs'. apply IH; lia. }
  intros c s1 H1 Hc. cbn beta iota. eapply fine_bind; [apply parsebacks_fine; (lia || done)|].
  intros c' s2 H2 Hc'. cbn beta iota.
  destruct (peek buf es s2 [59]) as [b s4] eqn:Hp. pose proof (peek_moves s2 _ _ _ ltac:(lia) Hp) as H3.
  destruct b; [|split; [lia|done]]. token Hg t1 s3. pose proof (peek_take s2 _ _ _ _ _ _ ltac:(lia) Hp Hg) as H4.
  eapply fine_bind; [apply IH; lia|]. intros r s6 H6 Hr. split; [lia|done].
Qed.
End Ends.

(** ** The command parser *)

Lemma at_text T pad s : (s <= length T)%nat -> nth s (T ++ 0 :: pad) 0 = nth s T 0.
Proof.
  intros Hs. destruct (decide (s < length T)%nat) as [H|H]; [by apply app_nth1|].
  rewrite app_nth2, (nth_overflow T) by lia. by replace (s - length T)%nat with 0%nat by lia.
Qed.

Lemma laid_length text ts : laid text ts -> (length ts <= length text)%nat.
Proof.
  induction 1 as [|ws t rest ts Hws Ht He Hr IH]; simpl; [lia|]. rewrite !length_app.
  destruct (first_char t Ht) as (_ & Hne & _). destruct (repr t); [done|]. simpl. lia.
Qed.

Lemma parsecmd_tree (T pad : list Z) (l : sline) (n : nat) :
  0 ∉ T -> laid T (line_toks l) -> line_ok l -> (length T < n)%nat ->
  exists c buf', parsecmd n (T ++ 0 :: pad) = Val (c, buf') /\ cview buf' c = line_tree l.
Proof.
  intros H0 Hl Hok Hn. pose proof (laid_length _ _ Hl) as Hlen. pose proof (at_text T pad) as Hat.
  destruct (proj2 (proj2 (parses_all Hat)) l n 0%nat []) as (c & s & Hr & Hv & Hg & Ha); [done| |done|lia|].
  { split; [lia|]. by rewrite app_nil_r. }
  exists c, (nulterminate c (T ++ 0 :: pad)). split.
  - unfold parsecmd. rewrite cstr_prefix, Hr by done. cbn [rbind]. destruct (skip_blanks Hat s [] Ha) as (s' & Hs & _ & He).
    unfold peek. by rewrite Hs, He, Nat.eqb_refl.
  - rewrite nulterminate_spans, view_in_memory; [done|done|auto].
Qed.

(** C11. A command line that lays out the tokens of a line of the grammar - commands with
    their redirections, blocks, pipelines, background commands and lists - is parsed
    into the tree it means, and after [nulterminate] every word and every file name of
    the command is a C string of its own in the buffer. *)
Theorem parsecmd_builds_tree (T pad : list Z) (l : sline) (n : nat) :
  0 ∉ T -> laid T (line_toks l) -> line_ok l -> (length T < n)%nat ->
  exists c buf', parsecmd n (T ++ 0 :: pad) = Val (c, buf') /\ cview buf' c = line_tree l.
Proof. apply parsecmd_tree. Qed.

(** The line [a <f|(b)&]. *)
Definition line_demo : sline :=
  Last (Bar (Simple [] [([97], [(RIn, [102])])]) (One (Block (Last (One (Simple [] [([98], [])])) 0) []))) 1.
Definition text_demo : list Z := [97; 32; 60; 102; 124; 40; 98; 41; 38].

Lemma laid_demo : laid text_demo (line_toks line_demo).
Proof.
  assert (Hword : forall c, in_word c = true -> c <> 0 -> word_ok [c]) by (intros c H1 H2; split; [done|by constructor]).
  apply (laid_cons [] (Word [97]) [32; 60; 102; 124; 40; 98; 41; 38]); [done|by apply Hword|by right|].
  apply (laid_cons [32] (Sym 60) [102; 124; 40; 98; 41; 38]); [by constructor|set_solver|done|].
  apply (laid_cons [] (Word [102]) [124; 40; 98; 41; 38]); [done|by apply Hword|by right|].
  apply (laid_cons [] (Sym 124) [40; 98; 41; 38]); [done|set_solver|done|].
  apply (laid_cons [] (Sym 40) [98; 41; 38]); [done|set_solver|done|].
  apply (laid_cons [] (Word [98]) [41; 38]); [done|by apply Hword|by right|].
  apply (laid_cons [] (Sym 41) [38]); [done|set_solver|done|].
  apply (laid_cons [] (Sym 38) []); [done|set_solver|done|]. by constructor.
Qed.

Lemma parsecmd_builds_tree_witness :
  exists c buf', parsecmd 10 (text_demo ++ 0 :: [7]) = Val (c, buf') /\
    cview buf' c = TBack (TPipe (TRedir (TExec [[97]]) [102] O_RDONLY 0) (TExec [[98]])).
Proof.
  apply (parsecmd_builds_tree text_demo [7] line_demo 10).
  - unfold text_demo. set_solver.
  - exact laid_demo.
  - unfold MAXARGS. simpl. unfold MAXARGS. lia.
  - unfold text_demo. simpl. lia.
Defined.

(** C37. On every text the parser returns, with a command or with the message of a
    panic, and a command it returns is safe to use: every string lies in the text with
    its end, where [nulterminate] stores a zero, at most at the end of the text, and
    every argument vector has room for the null pointer after its last argument. *)
Theorem parsecmd_total_safe (T pad : list Z) (n : nat) :
  0 ∉ T -> (length T < n)%nat ->
  match parsecmd n (T ++ 0 :: pad) with
  | Val (c, _) => safe (es := length T) c
  | Stop _ => True
  | Loop => False
  end.
Proof.
  intros H0 Hn. unfold parsecmd. rewrite cstr_prefix by done.
  assert (Hend : at_ (T ++ 0 :: pad) (length T) = 0) by (unfold at_; by rewrite app_nth2, Nat.sub_diag by lia).
  pose proof (parseline_fine Hend n 0%nat) as Hf. destruct (parseline _ _ n 0) as [[c s]| |]; cbn [rbind].
  - destruct Hf as [_ Hc]; [lia|lia|]. destruct (peek _ _ s []) as [b s']. by destruct (negb _).
  - done.
  - apply Hf; lia.
Qed.

Lemma parsecmd_total_safe_witness :
  match parsecmd 10 (text_demo ++ 0 :: [7]) with
  | Val (c, _) => safe (es := length text_demo) c
  | Stop _ => True
  | Loop => False
  end.
Proof.
  apply (parsecmd_total_safe text_demo [7] 10).
  - unfold text_demo. set_solver.
  - unfold text_demo. simpl. lia.
Defined.
