(* ===== verification/Kbd.v ===== *)
(** * The keyboard (kbd.c, kbd.h)

    [kbdgetc] turns a scan code into a character.  Its static variable [shift] is an
    argument and a result.  The ports are read through [inb]; the bytes that wait in the
    keyboard controller are a list, and [kbdintr] hands the console what [kbdgetc]
    returns for them. *)

From stdpp Require Import gmap.
From S2P Require Import Prelude Outcome Kernel Spinlock Proc Cprintf Console Line.
Local Open Scope Z_scope.
Local Open Scope list_scope.

Definition KBSTATP : Z := 100.
Definition KBS_DIB : Z := 1.
Definition KBDATAP : Z := 96.

Definition SHIFT : Z := 1.
Definition CTL : Z := 2.
Definition ALT : Z := 4.
Definition CAPSLOCK : Z := 8.
Definition NUMLOCK : Z := 16.
Definition SCROLLLOCK : Z := 32.
Definition E0ESC : Z := 64.

(** [static uchar t[256]] with the first elements and the designated ones. *)
Definition table (l : list Z) (designated : list (nat * Z)) : list Z :=
  fold_left (fun t e => <[e.1 := e.2]> t) designated (l ++ replicate (256 - length l) 0).

Definition shiftcode : list Z := table [] [(29%nat, CTL); (42%nat, SHIFT); (54%nat, SHIFT); (56%nat, ALT); (157%nat, CTL); (184%nat, ALT)].
Definition togglecode : list Z := table [] [(58%nat, CAPSLOCK); (69%nat, NUMLOCK); (70%nat, SCROLLLOCK)].

(** KEY_UP and the like. *)
Definition special : list (nat * Z) :=
  [(200%nat, 226); (208%nat, 227); (201%nat, 230); (209%nat, 231); (203%nat, 228); (205%nat, 229);
   (151%nat, 224); (207%nat, 225); (210%nat, 232); (211%nat, 233)].

Definition normalmap : list Z :=
  table
   [0; 27; 49; 50; 51; 52; 53; 54;
    55; 56; 57; 48; 45; 61; 8; 9;
    113; 119; 101; 114; 116; 121; 117; 105;
    111; 112; 91; 93; 10; 0; 97; 115;
    100; 102; 103; 104; 106; 107; 108; 59;
    39; 96; 0; 92; 122; 120; 99; 118;
    98; 110; 109; 44; 46; 47; 0; 42;
    0; 32; 0; 0; 0; 0; 0; 0;
    0; 0; 0; 0; 0; 0; 0; 55;
    56; 57; 45; 52; 53; 54; 43; 49;
    50; 51; 48; 46; 0; 0; 0; 0]
   ((156%nat, 10) :: (181%nat, 47) :: special).

Definition shiftmap : list Z :=
  table
   [0; 27; 33; 64; 35; 36; 37; 94;
    38; 42; 40; 41; 95; 43; 8; 9;
    81; 87; 69; 82; 84; 89; 85; 73;
    79; 80; 123; 125; 10; 0; 65; 83;
    68; 70; 71; 72; 74; 75; 76; 58;
    34; 126; 0; 124; 90; 88; 67; 86;
    66; 78; 77; 60; 62; 63; 0; 42;
    0; 32; 0; 0; 0; 0; 0; 0;
    0; 0; 0; 0; 0; 0; 0; 55;
    56; 57; 45; 52; 53; 54; 43; 49;
    50; 51; 48; 46; 0; 0; 0; 0]
   ((156%nat, 10) :: (181%nat, 47) :: special).

(** [C('/')] is -17, stored into an unsigned character. *)
Definition ctlmap : list Z :=
  table
   [0; 0; 0; 0; 0; 0; 0; 0;
    0; 0; 0; 0; 0; 0; 0; 0;
    Ctrl 81; Ctrl 87; Ctrl 69; Ctrl 82; Ctrl 84; Ctrl 89; Ctrl 85; Ctrl 73;
    Ctrl 79; Ctrl 80; 0; 0; 13; 0; Ctrl 65; Ctrl 83;
    Ctrl 68; Ctrl 70; Ctrl 71; Ctrl 72; Ctrl 74; Ctrl 75; Ctrl 76; 0;
    0; 0; 0; Ctrl 92; Ctrl 90; Ctrl 88; Ctrl 67; Ctrl 86;
    Ctrl 66; Ctrl 78; Ctrl 77; 0; 0; u8 (Ctrl 47); 0; 0]
   ((156%nat, 13) :: (181%nat, u8 (Ctrl 47)) :: special).

Definition charcode : list (list Z) := [normalmap; shiftmap; ctlmap; ctlmap].

Definition entry (t : list Z) (i : Z) : Z := nth (Z.to_nat i) t 0.

(** What it returns, and the new [shift]. *)
Definition kbdgetc (inb : Z -> Z) (shift : Z) : Z * Z :=
  let st := inb KBSTATP in
  if Z.land st KBS_DIB =? 0 then (-1, shift) else
  let data := inb KBDATAP in
  if data =? 224 then (0, Z.lor shift E0ESC)
  else if negb (Z.land data 128 =? 0) then
    let data := if negb (Z.land shift E0ESC =? 0) then data else Z.land data 127 in
    (0, Z.land shift (Z.lnot (Z.lor (entry shiftcode data) E0ESC)))
  else
    let '(data, shift) :=
      if negb (Z.land shift E0ESC =? 0) then (Z.lor data 128, Z.land shift (Z.lnot E0ESC)) else (data, shift) in
    let shift := Z.lor shift (entry shiftcode data) in
    let shift := Z.lxor shift (entry togglecode data) in
    let c := entry (nth (Z.to_nat (Z.land shift (Z.lor CTL SHIFT))) charcode []) data in
    let c := if negb (Z.land shift CAPSLOCK =? 0) then
               if (97 <=? c) && (c <=? 122) then c + (65 - 97)
               else if (65 <=? c) && (c <=? 90) then c + (97 - 65) else c
             else c in
    (c, shift).

(** The controller: a status bit tells whether a byte waits, the data port delivers it. *)
Definition controller (codes : list Z) (port : Z) : Z :=
  if port =? KBSTATP then match codes with [] => 0 | _ => KBS_DIB end
  else if port =? KBDATAP then hd 0 codes else 0.

(** What the calls of [kbdgetc] return until it returns -1. *)
Fixpoint getcs (codes : list Z) (shift : Z) : list Z * Z :=
  let '(c, shift) := kbdgetc (controller codes) shift in
  match codes with
  | [] => ([], shift)
  | _ :: codes =>
    if c <? 0 then ([], shift)
    else let '(cs, shift) := getcs codes shift in (c :: cs, shift)
  end.

Definition kbdintr (codes : list Z) (shift : Z) : K Z :=
  let '(cs, shift) := getcs codes shift in
  consoleintr cs;;
  ret shift.

(** Interrupts, one after the other; at each of them some bytes wait. *)
Fixpoint kbdintrs (chunks : list (list Z)) (shift : Z) : K Z :=
  match chunks with
  | [] => ret shift
  | codes :: chunks => shift ← kbdintr codes shift; kbdintrs chunks shift
  end.

(** ** What a call returns *)

Definition byte_entries (t : list Z) : bool := forallb (fun c => (0 <=? c) && (c <? 256)) t.

Lemma entry_byte t i : byte_entries t = true -> 0 <= entry t i < 256.
Proof.
  intros Ht. unfold entry. destruct (nth_in_or_default (Z.to_nat i) t 0) as [H|H]; [|lia].
  unfold byte_entries in Ht. rewrite forallb_forall in Ht. specialize (Ht _ H). lia.
Qed.

Lemma charcode_bytes k : byte_entries (nth k charcode []) = true.
Proof. do 4 (destruct k as [|k]; [vm_compute; reflexivity|]). by destruct k. Qed.

(** A byte, or -1 when none waits. *)
Lemma kbdgetc_range inb shift :
  if Z.land (inb KBSTATP) KBS_DIB =? 0 then kbdgetc inb shift = (-1, shift) else 0 <= (kbdgetc inb shift).1 < 256.
Proof.
  unfold kbdgetc. destruct (_ =? 0); [done|]. destruct (_ =? 224); [simpl; lia|]. destruct (negb _); [simpl; lia|].
  destruct (if negb (Z.land shift E0ESC =? 0) then _ else _) as [data sh]. cbn [fst].
  pose proof (entry_byte (nth (Z.to_nat (Z.land (Z.lxor (Z.lor sh (entry shiftcode data)) (entry togglecode data)) (Z.lor CTL SHIFT))) charcode [])
                data (charcode_bytes _)) as H.
  set (c := entry _ data) in *. clearbody c. destruct (negb _); [|done].
  destruct (Z.leb_spec 97 c), (Z.leb_spec c 122), (Z.leb_spec 65 c), (Z.leb_spec c 90); simpl; lia.
Qed.

Lemma getcs_cons code codes shift :
  getcs (code :: codes) shift =
  let '(c, shift) := kbdgetc (controller (code :: codes)) shift in
  let '(cs, shift) := getcs codes shift in (c :: cs, shift).
Proof.
  cbn [getcs]. pose proof (kbdgetc_range (controller (code :: codes)) shift) as H. simpl in H.
  destruct (kbdgetc _ _) as [c sh]. cbn [fst] in H. by rewrite (proj2 (Z.ltb_ge c 0)) by lia.
Qed.

(** Only the first byte matters to a call. *)
Lemma kbdgetc_first code codes codes' shift :
  kbdgetc (controller (code :: codes)) shift = kbdgetc (controller (code :: codes')) shift.
Proof. done. Qed.

Lemma getcs_app a b shift :
  getcs (a ++ b) shift =
  let '(x, shift) := getcs a shift in let '(y, shift) := getcs b shift in (x ++ y, shift).
Proof.
  revert shift. induction a as [|code a IH]; intros shift; [simpl; by destruct (getcs b shift)|].
  cbn [app]. rewrite !getcs_cons, (kbdgetc_first code (a ++ b) a). destruct (kbdgetc _ shift) as [c sh].
  rewrite IH. destruct (getcs a sh) as [x sh1]. by destruct (getcs b sh1).
Qed.

(** ** Typing *)

Definition swap_case (c : Z) : Z :=
  if (97 <=? c) && (c <=? 122) then c - 32 else if (65 <=? c) && (c <=? 90) then c + 32 else c.

(** The scan codes of the keys that are pressed and released to type a character: the
    key alone, with the left shift key, or with the left control key. *)
Definition stroke (caps : bool) (c : Z) : list Z :=
  let c' := if caps then swap_case c else c in
  match scan (Z.eqb c') (take 128 normalmap), scan (Z.eqb c') (take 128 shiftmap), scan (Z.eqb c) (take 128 ctlmap) with
  | Some k, _, _ => [Z.of_nat k; Z.of_nat k + 128]
  | None, Some k, _ => [42; Z.of_nat k; Z.of_nat k + 128; 170]
  | None, None, Some k => [29; Z.of_nat k; Z.of_nat k + 128; 157]
  | None, None, None => []
  end.

(** The value of [shift] when no key is down. *)
Definition locks (caps : bool) : Z := if caps then CAPSLOCK else 0.

(** The printable characters, the newline and the control letters. *)
Definition typeable (c : Z) : bool := (1 <=? c) && (c <=? 126) && negb ((27 <=? c) && (c <=? 31)).

Definition stroke_types (caps : bool) (c : Z) : bool :=
  let '(cs, shift) := getcs (stroke caps c) (locks caps) in
  (shift =? locks caps) && bool_decide (filter (fun x => x <> 0) cs = [c]).

Lemma strokes_type caps c :
  typeable c = true -> exists cs, getcs (stroke caps c) (locks caps) = (cs, locks caps) /\ filter (fun x => x <> 0) cs = [c].
Proof.
  intros Hc. assert (H : forallb (fun c => negb (typeable c) || stroke_types caps c) (zrange 1 127) = true)
    by (destruct caps; vm_compute; reflexivity).
  rewrite forallb_forall in H. specialize (H c).
  assert (stroke_types caps c = true) as Hs.
  { rewrite Hc in H. apply H, list_elem_of_In, elem_of_zrange. unfold typeable in Hc. lia. }
  unfold stroke_types in Hs. destruct (getcs _ _) as [cs sh]. apply andb_true_iff in Hs as [H1 H2].
  apply Z.eqb_eq in H1 as ->. apply bool_decide_eq_true in H2. by exists cs.
Qed.

(** The characters of a text, typed one after the other. *)
Definition strokes (caps : bool) (text : list Z) : list Z := concat (map (stroke caps) text).

Lemma text_typed caps text :
  Forall (fun c => typeable c = true) text ->
  exists cs, getcs (strokes caps text) (locks caps) = (cs, locks caps) /\ filter (fun x => x <> 0) cs = text.
Proof.
  induction 1 as [|c text Hc _ (cs & Hcs & Hf)]; [by exists []|].
  destruct (strokes_type caps c Hc) as (cs0 & H0 & Hf0). exists (cs0 ++ cs). unfold strokes. cbn [map concat].
  rewrite getcs_app, H0. fold (strokes caps text). by rewrite Hcs, filter_app, Hf0, Hf.
Qed.

Lemma feed_skip cs ql : fold_left feed (filter (fun x => x <> 0) cs) ql = fold_left feed cs ql.
Proof.
  revert ql. induction cs as [|c cs IH]; intros ql; [done|]. rewrite filter_cons. destruct (decide (c <> 0)) as [H|H].
  - simpl. apply IH.
  - assert (c = 0) as -> by lia. simpl. rewrite IH. by destruct ql.
Qed.

Lemma keys_filter cs : forallb key (filter (fun x => x <> 0) cs) = true -> forallb key cs = true.
Proof.
  induction cs as [|c cs IH]; [done|]. rewrite filter_cons. destruct (decide (c <> 0)) as [H|H]; cbn [forallb]; rewrite !andb_true_iff.
  - intros [? ?]. auto.
  - intros Hk. assert (c = 0) as -> by lia. auto.
Qed.

Lemma wakes_app a b ps : wakes (a ++ b) ps = wakes b (wakes a ps).
Proof.
  revert ps. induction a as [|c a IH]; intros ps; [done|]. cbn [app]. by rewrite wakes_cons, IH, <- wakes_cons.
Qed.

Lemma typed_app a b : typed (a ++ b) = (typed a + typed b)%nat.
Proof. unfold typed. by rewrite filter_app, length_app. Qed.

(** A sequence of interrupts does to the editor what one of them would. *)
Lemma kbdintrs_ok i c chunks shift cs shift' q l s :
  getcs (concat chunks) shift = (cs, shift') ->
  CpuOk i c (k_hw s) -> free LCons (k_hw s) -> free LPtable (k_hw s) ->
  rep (k_cons s) q l -> Forall plain l -> forallb key cs = true ->
  (length (q ++ l) + typed cs < 128)%nat ->
  in_w (k_cons s) + Z.of_nat (length l) + Z.of_nat (typed cs) <= INPUT_BUF ->
  exists s', kbdintrs chunks shift s = Ok shift' s' /\ k_procs s' = wakes cs (k_procs s) /\
    let '(q', l') := fold_left feed cs (q, l) in rep (k_cons s') q' l'.
Proof.
  revert c shift cs q l s. induction chunks as [|codes chunks IH]; intros c shift cs q l s Hg HC Hf Hpt Hr Hp Hk Hroom Hw.
  { injection Hg as <- <-. by exists s. }
  cbn [concat] in Hg. rewrite getcs_app in Hg. cbn [kbdintrs]. unfold kbdintr.
  destruct (getcs codes shift) as [cs1 sh1]. destruct (getcs (concat chunks) sh1) as [cs2 sh2] eqn:Hg2. injection Hg as <- <-.
  rewrite forallb_app in Hk. apply andb_true_iff in Hk as [Hk1 Hk2]. rewrite typed_app in *.
  destruct (consoleintr_ok i c cs1 q l s) as (s1 & Hs1 & Hps & Hhw & Hres); try done; [lia|lia|].
  rewrite fold_left_app. destruct (fold_left feed cs1 (q, l)) as [q1 l1]. destruct Hres as (Hr1 & Hp1 & Hlen & Hw1).
  destruct (IH (touched_cpu (hw_if (k_hw s)) c) sh1 cs2 q1 l1 s1) as (s2 & Hs2 & Hps2 & Hres2); try done.
  - rewrite Hhw. by apply CpuOk_touched.
  - by rewrite Hhw.
  - by rewrite Hhw.
  - lia.
  - lia.
  - exists s2. rewrite (bind_ok _ _ s sh1 s1) by (by rewrite (bind_ok _ _ _ _ _ Hs1)).
    split; [done|]. split; [|done]. by rewrite Hps2, Hps, wakes_app.
Qed.


