(* ===== verification/Machine.v ===== *)
(** * The devices of the machine

    The kernel state together with what the drivers of ioapic.c, picirq.c, lapic.c,
    mp.c and ide.c keep and drive.  The registers of the interrupt controllers are
    functions from register numbers to words.  traps.h and x86.h are not among the
    sources: the numbers of the interrupts and the disk controller behind [inb],
    [outb], [insl] and [outsl] are parameters. *)

From stdpp Require Import gmap.
From S2P Require Import Prelude Outcome Kernel.

(** traps.h *)
Class Traps : Type := {
  T_IRQ0 : Z; IRQ_TIMER : Z; IRQ_KBD : Z; IRQ_IDE : Z; IRQ_ERROR : Z; IRQ_SPURIOUS : Z }.

(** An ATA disk controller: [inb(0x1f7)], [outb] to its ports, and the transfer of one
    sector through the data port. *)
Class Ata : Type := {
  ata : Type;
  ata_status : ata -> Z * ata;
  ata_outb : Z -> Z -> ata -> ata;
  ata_insl : ata -> list Z * ata;
  ata_outsl : list Z -> ata -> ata }.

Record mach {A : Ata} : Type := mkMach {
  m_k : kstate;
  m_ioreg : Z;                   (* ioapic->reg *)
  m_io : Z -> Z;                 (* the registers of the I/O APIC *)
  m_ioapicid : Z;
  m_lapic : bool;                (* lapic is not null *)
  m_la : Z -> Z;                 (* lapic[...] *)
  m_out : list (Z * Z);          (* outb to other ports, in order *)
  m_ata : ata;
  m_idequeue : option nat;
  m_qnext : nat -> option nat;   (* b->qnext *)
  m_havedisk1 : Z }.
#[export] Instance eta_mach {A : Ata} : Settable mach :=
  fun r => mkMach A (m_k r) (m_ioreg r) (m_io r) (m_ioapicid r) (m_lapic r) (m_la r) (m_out r)
    (m_ata r) (m_idequeue r) (m_qnext r) (m_havedisk1 r).

(** Kernel code on the whole machine. *)
Fixpoint mlift {A : Ata} {B} (o : outcome kstate B) (m : mach) : outcome mach B :=
  match o with
  | Ok b s => Ok b (m <| m_k := s |>)
  | Panic msg => Panic msg
  | Fault => Fault
  | Spin => Spin
  | Switch s k => Switch (m <| m_k := s |>) (fun m' => mlift (k (m_k m')) m')
  end.
Definition kop {A : Ata} {B} (f : K B) : M mach B := fun m => mlift (f (m_k m)) m.

Lemma kop_ok {A : Ata} {B} (f : K B) m b s : f (m_k m) = Ok b s -> kop f m = Ok b (m <| m_k := s |>).
Proof. intros H. unfold kop. by rewrite H. Qed.

Lemma kop_switch {A : Ata} {B} (f : K B) m s k :
  f (m_k m) = Switch s k -> kop f m = Switch (m <| m_k := s |>) (fun m' => mlift (k (m_k m')) m').
Proof. intros H. unfold kop. by rewrite H. Qed.

Definition outb {A : Ata} (port v : Z) : M mach unit := modify (fun m => m <| m_out ::= fun l => l ++ [(port, u8 v)] |>).
