(* ===== verification/Apic.v ===== *)
(** * Interrupt controllers and the clock (ioapic.c, picirq.c, lapic.c)

    Reading a register of the I/O APIC or of the local APIC gives what was last written
    to it, but for the delivery status, which is given as the list of the values that
    are read.  The CMOS clock changes while it is read: it is a function from the number
    of the read to the registers. *)

From stdpp Require Import gmap.
From S2P Require Import Prelude Outcome Kernel Spinlock Cprintf Machine.
Local Open Scope Z_scope.
Local Open Scope list_scope.

Section Apic.
Context {A : Ata} {tr : Traps}.

(** ** ioapic.c *)

Definition REG_ID : Z := 0.
Definition REG_VER : Z := 1.
Definition REG_TABLE : Z := 16.
Definition INT_DISABLED : Z := 65536.

Definition ioapicread (reg : Z) : M mach Z :=
  modify (fun m => m <| m_ioreg := reg |>);;
  gets (fun m => m_io m (m_ioreg m)).

Definition ioapicwrite (reg data : Z) : M mach unit :=
  modify (fun m => m <| m_ioreg := reg |>);;
  modify (fun m => m <| m_io ::= fun r i => if i =? m_ioreg m then u32 data else r i |>).

Definition ioapicinit : M mach unit :=
  v ← ioapicread REG_VER;
  let maxintr := Z.land (Z.shiftr v 16) 255 in
  w ← ioapicread REG_ID;
  let id := Z.shiftr w 24 in
  ioapicid ← gets m_ioapicid;
  when (negb (id =? ioapicid)) (kop (cprintf (bytes "ioapicinit: id isn't equal to ioapicid; not a MP" ++ [10]) []));;
  foreach (zrange 0 (maxintr + 1)) (fun i =>
    ioapicwrite (REG_TABLE + 2 * i) (Z.lor INT_DISABLED (T_IRQ0 + i));;
    ioapicwrite (REG_TABLE + 2 * i + 1) 0).

Definition ioapicenable (irq cpunum : Z) : M mach unit :=
  ioapicwrite (REG_TABLE + 2 * irq) (T_IRQ0 + irq);;
  ioapicwrite (REG_TABLE + 2 * irq + 1) (Z.shiftl cpunum 24).

(** ** picirq.c *)

Definition IO_PIC1 : Z := 32.
Definition IO_PIC2 : Z := 160.

Definition picinit : M mach unit :=
  outb (IO_PIC1 + 1) 255;;
  outb (IO_PIC2 + 1) 255.

(** ** lapic.c *)

Definition ID : Z := 8.
Definition VER : Z := 12.
Definition TPR : Z := 32.
Definition EOI : Z := 44.
Definition SVR : Z := 60.
Definition ENABLE : Z := 256.
Definition ESR : Z := 160.
Definition ICRLO : Z := 192.
Definition INIT : Z := 1280.
Definition STARTUP : Z := 1536.
Definition DELIVS : Z := 4096.
Definition ASSERT : Z := 16384.
Definition LEVEL : Z := 32768.
Definition BCAST : Z := 524288.
Definition ICRHI : Z := 196.
Definition TIMER : Z := 200.
Definition X1 : Z := 11.
Definition PERIODIC : Z := 131072.
Definition PCINT : Z := 208.
Definition LINT0 : Z := 212.
Definition LINT1 : Z := 216.
Definition ERROR : Z := 220.
Definition MASKED : Z := 65536.
Definition TICR : Z := 224.
Definition TDCR : Z := 248.

(** The read of [lapic[ID]] that waits for the write has no effect. *)
Definition lapicw (index value : Z) : M mach unit :=
  modify (fun m => m <| m_la ::= fun r i => if i =? index then u32 value else r i |>).

(** [while(lapic[ICRLO] & DELIVS)]; [icr] are the values read. *)
Fixpoint delivered (icr : list Z) : M mach unit :=
  match icr with
  | [] => spin
  | v :: icr => if Z.land v DELIVS =? 0 then ret tt else delivered icr
  end.

Definition lapicinit (icr : list Z) : M mach unit :=
  lapic ← gets m_lapic;
  if negb lapic then ret tt else
  lapicw SVR (Z.lor ENABLE (T_IRQ0 + IRQ_SPURIOUS));;
  lapicw TDCR X1;;
  lapicw TIMER (Z.lor PERIODIC (T_IRQ0 + IRQ_TIMER));;
  lapicw TICR 10000000;;
  lapicw LINT0 MASKED;;
  lapicw LINT1 MASKED;;
  v ← gets (fun m => m_la m VER);
  when (4 <=? Z.land (Z.shiftr v 16) 255) (lapicw PCINT MASKED);;
  lapicw ERROR (T_IRQ0 + IRQ_ERROR);;
  lapicw ESR 0;;
  lapicw ESR 0;;
  lapicw EOI 0;;
  lapicw ICRHI 0;;
  lapicw ICRLO (Z.lor (Z.lor BCAST INIT) LEVEL);;
  delivered icr;;
  lapicw TPR 0.

Definition lapicid : M mach Z :=
  lapic ← gets m_lapic;
  if negb lapic then ret 0 else gets (fun m => Z.shiftr (m_la m ID) 24).

Definition lapiceoi : M mach unit :=
  lapic ← gets m_lapic;
  when lapic (lapicw EOI 0).

Definition microdelay (us : Z) : M mach unit := ret tt.

Definition CMOS_PORT : Z := 112.

(** A store of a [ushort] in little-endian order. *)
Definition store16 (a v : Z) : M mach unit :=
  modify (fun m => m <| m_k ::= set k_mem (fun mem x => if x =? a then u8 v else if x =? a + 1 then u8 (v / 256) else mem x) |>).

Definition lapicstartap (apicid addr : Z) : M mach unit :=
  outb CMOS_PORT 15;;
  outb (CMOS_PORT + 1) 10;;
  let wrv := KERNBASE + Z.lor (Z.shiftl 64 4) 103 in
  store16 wrv 0;;
  store16 (wrv + 2) (Z.shiftr addr 4);;
  lapicw ICRHI (Z.shiftl apicid 24);;
  lapicw ICRLO (Z.lor (Z.lor INIT LEVEL) ASSERT);;
  microdelay 200;;
  lapicw ICRLO (Z.lor INIT LEVEL);;
  microdelay 100;;
  foreach [0; 1] (fun _ =>
    lapicw ICRHI (Z.shiftl apicid 24);;
    lapicw ICRLO (Z.lor STARTUP (Z.shiftr addr 12));;
    microdelay 200).
End Apic.

(** *** The CMOS clock *)

Record rtcdate : Type := mkRtcdate { second : Z; minute : Z; hour : Z; day : Z; month : Z; year : Z }.
#[export] Instance rtcdate_eq_dec : EqDecision rtcdate.
Proof. solve_decision. Defined.

Definition CMOS_STATA : Z := 10.
Definition CMOS_STATB : Z := 11.
Definition CMOS_UIP : Z := 128.
Definition SECS : Z := 0.
Definition MINS : Z := 2.
Definition HOURS : Z := 4.
Definition DAY : Z := 7.
Definition MONTH : Z := 8.
Definition YEAR : Z := 9.

Section Clock.
(** What the [t]-th read returns for a register. *)
Context (clock : nat -> Z -> Z).

Definition cmos_read (reg : Z) (t : nat) : Z * nat := (clock t reg, S t).

Definition fill_rtcdate (t : nat) : rtcdate * nat :=
  let '(second, t) := cmos_read SECS t in
  let '(minute, t) := cmos_read MINS t in
  let '(hour, t) := cmos_read HOURS t in
  let '(day, t) := cmos_read DAY t in
  let '(month, t) := cmos_read MONTH t in
  let '(year, t) := cmos_read YEAR t in
  (mkRtcdate second minute hour day month year, t).

(** The loop of [cmostime]; [None] when the fuel runs out. *)
Fixpoint cmos_loop (n : nat) (t : nat) : option rtcdate :=
  match n with
  | O => None
  | S n =>
    let '(t1, t) := fill_rtcdate t in
    let '(sa, t) := cmos_read CMOS_STATA t in
    if negb (Z.land sa CMOS_UIP =? 0) then cmos_loop n t
    else
      let '(t2, t) := fill_rtcdate t in
      if bool_decide (t1 = t2) then Some t1 else cmos_loop n t
  end.

Definition conv (x : Z) : Z := Z.shiftr x 4 * 10 + Z.land x 15.
Definition conv_date (r : rtcdate) : rtcdate :=
  mkRtcdate (conv (second r)) (conv (minute r)) (conv (hour r)) (conv (day r)) (conv (month r)) (conv (year r)).

Definition cmostime (n : nat) (t : nat) : option rtcdate :=
  let '(sb, t) := cmos_read CMOS_STATB t in
  let bcd := Z.land sb 4 =? 0 in
  match cmos_loop n t with
  | None => None
  | Some t1 =>
    let t1 := if bcd then conv_date t1 else t1 in
    Some (mkRtcdate (second t1) (minute t1) (hour t1) (day t1) (month t1) (u32 (year t1 + 2000)))
  end.
End Clock.

(** ** The routing of interrupts *)

(** A redirection entry: bit 16 of the low word masks it, the low byte is the vector,
    the high byte of the high word is the processor. *)
Definition masked (low : Z) : bool := Z.testbit low 16.
Definition vector (low : Z) : Z := Z.land low 255.
Definition destination (high : Z) : Z := Z.shiftr high 24.

Section Routes.
Context {A : Ata} {tr : Traps}.

Definition low_of (i : Z) (m : mach) : Z := m_io m (REG_TABLE + 2 * i).
Definition high_of (i : Z) (m : mach) : Z := m_io m (REG_TABLE + 2 * i + 1).

Definition set_entry (i low high : Z) (m : mach) : mach :=
  m <| m_ioreg := REG_TABLE + 2 * i + 1 |>
    <| m_io ::= fun r x => if x =? REG_TABLE + 2 * i + 1 then high else if x =? REG_TABLE + 2 * i then low else r x |>.

Lemma ioapicread_ok reg m : ioapicread reg m = Ok (m_io m reg) (m <| m_ioreg := reg |>).
Proof. done. Qed.

Lemma write_entry i low high m :
  (ioapicwrite (REG_TABLE + 2 * i) low;; ioapicwrite (REG_TABLE + 2 * i + 1) high) m =
  Ok tt (set_entry i (u32 low) (u32 high) m).
Proof. done. Qed.

Lemma entry_eq i low high m : low_of i (set_entry i low high m) = low /\ high_of i (set_entry i low high m) = high.
Proof.
  unfold low_of, high_of, set_entry. rsimpl. rewrite !Z.eqb_refl. split; [|done].
  by rewrite (proj2 (Z.eqb_neq _ _)) by lia.
Qed.

Lemma entry_ne i j low high m :
  i <> j -> low_of j (set_entry i low high m) = low_of j m /\ high_of j (set_entry i low high m) = high_of j m.
Proof. intros H. unfold low_of, high_of, set_entry. rsimpl. rewrite !(proj2 (Z.eqb_neq _ _)) by lia. done. Qed.

Lemma entry_reg i low high r m : r < REG_TABLE -> 0 <= i -> m_io (set_entry i low high m) r = m_io m r.
Proof. intros H Hi. unfold set_entry. rsimpl. unfold REG_TABLE in *. by rewrite !(proj2 (Z.eqb_neq _ _)) by lia. Qed.

(** The processor that an interrupt was last routed to. *)
Fixpoint route (i : Z) (reqs : list (Z * Z)) : option Z :=
  match reqs with
  | [] => None
  | (j, cpu) :: reqs => match route i reqs with Some c => Some c | None => if j =? i then Some cpu else None end
  end.

(** What the entry of interrupt [i] must say when it is routed to [r]. *)
Definition routed (i : Z) (r : option Z) (m : mach) : Prop :=
  match r with
  | Some cpu => masked (low_of i m) = false /\ vector (low_of i m) = T_IRQ0 + i /\ destination (high_of i m) = cpu
  | None => masked (low_of i m) = true
  end.

(** A vector is a byte. *)
Context (HT : 0 <= T_IRQ0).

Lemma vector_small v : 0 <= v < 256 -> masked (u32 v) = false /\ vector (u32 v) = v.
Proof.
  intros Hv. rewrite u32_id by lia. unfold masked, vector. split.
  - apply Z.bits_above_log2; [lia|]. destruct (decide (v = 0)) as [->|]; [done|]. apply Z.log2_lt_pow2; lia.
  - change 255 with (Z.ones 8). rewrite Z.land_ones by lia. apply Z.mod_small. lia.
Qed.

Lemma disabled_masked v : 0 <= v < 256 -> masked (u32 (Z.lor INT_DISABLED v)) = true.
Proof.
  intros Hv. unfold masked, u32. change 4294967296 with (2 ^ 32). rewrite Z.mod_pow2_bits_low by lia.
  by rewrite Z.lor_spec.
Qed.

Lemma destination_cpu c : 0 <= c < 256 -> destination (u32 (Z.shiftl c 24)) = c.
Proof.
  intros Hc. unfold destination. rewrite Z.shiftl_mul_pow2 by lia. rewrite u32_id by (change (2 ^ 24) with 16777216; lia).
  rewrite Z.shiftr_div_pow2 by lia. apply Z.div_mul. lia.
Qed.

Lemma init_loop l m :
  NoDup l -> exists m', foreach l (fun i =>
    ioapicwrite (REG_TABLE + 2 * i) (Z.lor INT_DISABLED (T_IRQ0 + i));; ioapicwrite (REG_TABLE + 2 * i + 1) 0) m = Ok tt m' /\
    (forall i, i ∈ l -> low_of i m' = u32 (Z.lor INT_DISABLED (T_IRQ0 + i))) /\
    (forall i, i ∉ l -> low_of i m' = low_of i m).
Proof.
  revert m. induction l as [|i l IH]; intros m Hnd.
  { exists m. split_and!; [done| |done]. intros i Hi. by apply not_elem_of_nil in Hi. }
  apply NoDup_cons in Hnd as [Hi Hnd]. cbn [foreach]. rewrite (bind_ok _ _ _ _ _ (write_entry _ _ _ _)).
  destruct (IH (set_entry i (u32 (Z.lor INT_DISABLED (T_IRQ0 + i))) (u32 0) m) Hnd) as (m' & Hm & H1 & H2).
  exists m'. split_and!; [done| |].
  - intros j Hj. apply elem_of_cons in Hj as [->|Hj]; [|by apply H1]. rewrite H2 by done. apply entry_eq.
  - intros j Hj. apply not_elem_of_cons in Hj as [Hne Hj]. rewrite H2 by done. by apply entry_ne.
Qed.

Lemma ioapicenable_routes irq cpu r m :
  0 <= T_IRQ0 + irq < 256 -> 0 <= cpu < 256 ->
  exists m', ioapicenable irq cpu m = Ok tt m' /\ routed irq (Some cpu) m' /\ (forall j, j <> irq -> routed j r m -> routed j r m').
Proof.
  intros Hi Hc. eexists. split; [apply write_entry|]. unfold routed. destruct (entry_eq irq (u32 (T_IRQ0 + irq)) (u32 (Z.shiftl cpu 24)) m) as [-> ->].
  destruct (vector_small (T_IRQ0 + irq) Hi) as [-> ->]. rewrite destination_cpu by done. split; [done|].
  intros j Hj. destruct (entry_ne irq j (u32 (T_IRQ0 + irq)) (u32 (Z.shiftl cpu 24)) m ltac:(done)) as [-> ->]. done.
Qed.
Definition enable_all (reqs : list (Z * Z)) : M mach unit := foreach reqs (fun r => ioapicenable r.1 r.2).

Lemma enable_all_routes n reqs pre m :
  T_IRQ0 + n < 256 -> Forall (fun r => 0 <= r.1 <= n /\ 0 <= r.2 < 256) reqs ->
  (forall i, 0 <= i <= n -> routed i (pre i) m) ->
  exists m', enable_all reqs m = Ok tt m' /\
    forall i, 0 <= i <= n -> routed i (match route i reqs with Some c => Some c | None => pre i end) m'.
Proof.
  intros Hn Hr. revert pre m. induction Hr as [|[irq cpu] reqs [Hi Hc] _ IH]; intros pre m Hpre; [by exists m|].
  simpl in Hi, Hc. cbn [enable_all foreach route fst snd].
  destruct (ioapicenable_routes irq cpu None m) as (m1 & Hm1 & Hr1 & _); [lia|done|]. rewrite (bind_ok _ _ _ _ _ Hm1).
  destruct (IH (fun i => if irq =? i then Some cpu else pre i) m1) as (m' & Hm' & Hres).
  - intros i Hi'. destruct (Z.eqb_spec irq i) as [<-|Hne]; [done|].
    destruct (ioapicenable_routes irq cpu (pre i) m) as (m2 & Hm2 & _ & Hother); [lia|done|].
    rewrite Hm1 in Hm2. injection Hm2 as <-. apply Hother; [done|by apply Hpre].
  - exists m'. split; [done|]. intros i Hi'. specialize (Hres i Hi'). destruct (route i reqs); [done|].
    by destruct (irq =? i).
Qed.
End Routes.

(** The I/O APIC delivers exactly the interrupts that were enabled.  After [ioapicinit]
    and any sequence of calls of [ioapicenable], an interrupt that was never enabled is
    masked, and one that was has its own vector and goes to the processor that it was
    last enabled for. *)
Theorem ioapic_routes {A : Ata} {tr : Traps} (reqs : list (Z * Z)) (m : mach) :
  let n := Z.land (Z.shiftr (m_io m REG_VER) 16) 255 in
  0 <= T_IRQ0 -> T_IRQ0 + n < 256 -> Z.shiftr (m_io m REG_ID) 24 = m_ioapicid m ->
  Forall (fun r => 0 <= r.1 <= n /\ 0 <= r.2 < 256) reqs ->
  exists m', (ioapicinit;; enable_all reqs) m = Ok tt m' /\
    forall i, 0 <= i <= n -> routed i (route i reqs) m'.
Proof.
  intros n HT Hn Hid Hr.
  destruct (init_loop (zrange 0 (n + 1)) (m <| m_ioreg := REG_VER |> <| m_ioreg := REG_ID |>)) as (m1 & Hm1 & Hlow & _).
  { unfold zrange. apply NoDup_fmap_2; [|apply NoDup_seq]. intros x y. lia. }
  assert (Hinit : ioapicinit m = Ok tt m1).
  { unfold ioapicinit. do 2 mstep with (ioapicread_ok _ _). mstep. rsimpl. rewrite Hid, Z.eqb_refl. cbn [negb when].
    mstep. exact Hm1. }
  rewrite (bind_ok _ _ _ _ _ Hinit).
  destruct (enable_all_routes HT n reqs (fun _ => None) m1) as (m' & Hm' & Hres); [done|done| |].
  - intros i Hi. unfold routed. rewrite Hlow by (apply elem_of_zrange; lia). apply disabled_masked. lia.
  - exists m'. split; [done|]. intros i Hi. specialize (Hres i Hi). by destruct (route i reqs).
Qed.

(** A machine without a disk, with an I/O APIC of 24 entries. *)
Definition traps_demo : Traps := Build_Traps 32 0 1 14 19 31.
Definition no_disk : Ata := Build_Ata unit (fun a => (64, a)) (fun _ _ a => a) (fun a => ([], a)) (fun _ a => a).
Definition mach_demo : @mach no_disk :=
  mkMach no_disk bss 0 (fun r => if r =? REG_VER then 1507328 else 0) 0 true (fun _ => 0) [] tt None (fun _ => None) 0.

Lemma ioapic_routes_witness :
  exists m', (@ioapicinit _ traps_demo;; @enable_all _ traps_demo [(1, 0); (14, 1); (14, 3)]) mach_demo = Ok tt m' /\
    masked (low_of 2 m') = true /\ destination (high_of 14 m') = 3.
Proof.
  destruct (@ioapic_routes no_disk traps_demo [(1, 0); (14, 1); (14, 3)] mach_demo) as (m' & Hm & Hr).
  - discriminate.
  - reflexivity.
  - reflexivity.
  - change (Z.land (Z.shiftr (m_io mach_demo REG_VER) 16) 255) with 23.
    repeat (apply Forall_cons; split; [simpl; lia|]). apply Forall_nil. exact I.
  - exists m'. split; [exact Hm|]. split; [apply (Hr 2); split; discriminate|apply (Hr 14); split; discriminate].
Defined.

(** ** The date *)

Definition bcd (d : Z) : Z := 16 * (d / 10) + d mod 10.

Lemma conv_bcd d : 0 <= d < 100 -> conv (bcd d) = d.
Proof.
  intros Hd. unfold conv, bcd. pose proof (Z.mod_pos_bound d 10 ltac:(lia)).
  rewrite Z.shiftr_div_pow2 by lia. change 15 with (Z.ones 4). rewrite Z.land_ones by lia. change (2 ^ 4) with 16.
  replace (16 * (d / 10) + d mod 10) with (d mod 10 + d / 10 * 16) by lia.
  rewrite Z.div_add, Z.mod_add, (Z.div_small (d mod 10) 16), (Z.mod_small (d mod 10) 16) by lia.
  pose proof (Z.div_mod d 10). lia.
Qed.

Definition date_ok (d : rtcdate) : Prop :=
  0 <= second d < 100 /\ 0 <= minute d < 100 /\ 0 <= hour d < 100 /\ 0 <= day d < 100 /\ 0 <= month d < 100 /\ 0 <= year d < 100.
(** The registers at the [t]-th read hold the date, in the chosen code. *)
Definition shows (enc : Z -> Z) (d : rtcdate) (regs : Z -> Z) : Prop :=
  regs SECS = enc (second d) /\ regs MINS = enc (minute d) /\ regs HOURS = enc (hour d) /\
  regs DAY = enc (day d) /\ regs MONTH = enc (month d) /\ regs YEAR = enc (year d).
Definition in_century (d : rtcdate) : rtcdate :=
  mkRtcdate (second d) (minute d) (hour d) (day d) (month d) (2000 + year d).
(** What the six reads from the [t]-th on return. *)
Definition filled (clock : nat -> Z -> Z) (t : nat) : rtcdate := (fill_rtcdate clock t).1.

Lemma cmos_loop_stable clock T n t r0 :
  (forall k, (T <= k)%nat -> Z.land (clock k CMOS_STATA) CMOS_UIP = 0 /\ filled clock k = r0) -> (0 < n)%nat -> (T < n + t)%nat ->
  exists t0, cmos_loop clock n t = Some (filled clock t0) /\ (t <= t0)%nat /\
    filled clock t0 = filled clock (t0 + 7) /\ Z.land (clock (t0 + 6)%nat CMOS_STATA) CMOS_UIP = 0.
Proof.
  intros Hst. revert t. induction n as [|n IH]; intros t H0 Hn; [lia|].
  cbn [cmos_loop]. change (fill_rtcdate clock t) with (filled clock t, (6 + t)%nat). cbn [cmos_read].
  replace (6 + t)%nat with (t + 6)%nat by lia.
  assert (Hmore : forall t', (t < t')%nat -> (t < T)%nat -> exists t0, cmos_loop clock n t' = Some (filled clock t0) /\
    (t <= t0)%nat /\ filled clock t0 = filled clock (t0 + 7) /\ Z.land (clock (t0 + 6)%nat CMOS_STATA) CMOS_UIP = 0).
  { intros t' Ht HT. destruct (IH t' ltac:(lia) ltac:(lia)) as (t0 & ? & ? & ? & ?). exists t0. split_and!; (done || lia). }
  destruct (Z.eqb_spec (Z.land (clock (t + 6)%nat CMOS_STATA) CMOS_UIP) 0) as [Hu|Hu]; cbn [negb].
  2: { apply Hmore; [lia|]. destruct (decide (T <= t)%nat) as [HT|HT]; [|lia]. by destruct (Hst (t + 6)%nat ltac:(lia)). }
  change (fill_rtcdate clock (S (t + 6))) with (filled clock (S (t + 6)), (6 + S (t + 6))%nat).
  replace (S (t + 6)) with (t + 7)%nat by lia. case_bool_decide as Heq.
  2: { apply Hmore; [lia|]. destruct (decide (T <= t)%nat) as [HT|HT]; [|lia]. destruct Heq.
       destruct (Hst t HT) as [_ ->], (Hst (t + 7)%nat ltac:(lia)) as [_ ->]. done. }
  exists t. by split_and!.
Qed.


