(* ===== verification/Ata.v ===== *)
(** * The disk controller

    What the drivers of ide.c and bootmain.c rely on: the documented behaviour of an ATA
    controller with 28-bit sector addresses, as a class of laws, and a controller made of
    registers that keeps them. *)

From stdpp Require Import gmap.
From S2P Require Import Prelude Outcome Kernel Machine.
Local Open Scope Z_scope.
Local Open Scope list_scope.

(** A command for a sector of a disk. *)
Inductive command : Type := Reading (dev lba : Z) | Writing (dev lba : Z).

(** The address in the registers: three bytes, and four bits of the fourth, whose bit 4
    selects the disk. *)
Definition lba_of (b0 b1 b2 d : Z) : Z := b0 + 256 * b1 + 65536 * b2 + 16777216 * (d mod 16).
Definition dev_of (d : Z) : Z := (d / 16) mod 2.

(** The order in which the drivers write the registers. *)
Definition issue {A : Ata} (b0 b1 b2 d cmd : Z) (a : ata) : ata :=
  ata_outb 503 cmd (ata_outb 502 d (ata_outb 501 b2 (ata_outb 500 b1 (ata_outb 499 b0 (ata_outb 498 1 a))))).

(** The controller after [n] reads of its status. *)
Fixpoint polled {A : Ata} (n : nat) (a : ata) : ata :=
  match n with O => a | S n => polled n (ata_status a).2 end.

Definition ready (st : Z) : bool := Z.land st 192 =? 64.

Class AtaLaws (A : Ata) : Type := {
  sector : ata -> Z -> Z -> list Z;
  command_of : ata -> option command;
  ata_delay : nat;
  (** It becomes ready, without an error. *)
  ata_ready a : exists n, (n <= ata_delay)%nat /\ ready (ata_status (polled n a)).1 = true;
  ata_no_error a : Z.land (ata_status a).1 33 = 0;
  status_sector a : sector (ata_status a).2 = sector a;
  status_command a : command_of (ata_status a).2 = command_of a;
  outb_sector p v a : sector (ata_outb p v a) = sector a;
  (** Bit 6 of the drive register asks for an address. *)
  issue_read b0 b1 b2 d a : 0 <= d < 256 -> Z.testbit d 6 = true ->
    command_of (issue b0 b1 b2 d 32 a) = Some (Reading (dev_of d) (lba_of b0 b1 b2 d));
  issue_write b0 b1 b2 d a : 0 <= d < 256 -> Z.testbit d 6 = true ->
    command_of (issue b0 b1 b2 d 48 a) = Some (Writing (dev_of d) (lba_of b0 b1 b2 d));
  insl_sector a dev lba : command_of a = Some (Reading dev lba) ->
    (ata_insl a).1 = sector a dev lba /\ sector (ata_insl a).2 = sector a;
  outsl_command data a : command_of (ata_outsl data a) = command_of a;
  outsl_sector a dev lba data : command_of a = Some (Writing dev lba) ->
    sector (ata_outsl data a) = fun dev' lba' => if (dev' =? dev) && (lba' =? lba) then data else sector a dev' lba' }.

(** ** A controller of registers *)

Record regs : Type := mkRegs { r_port : Z -> Z; r_cmd : option command; r_disk : Z -> Z -> list Z }.

Definition regs_outb (p v : Z) (r : regs) : regs :=
  let port := r_port r in
  let cmd := if p =? 503 then
               let dev := dev_of (port 502) in
               let lba := lba_of (port 499) (port 500) (port 501) (port 502) in
               if v =? 32 then Some (Reading dev lba) else if v =? 48 then Some (Writing dev lba) else r_cmd r
             else r_cmd r in
  mkRegs (fun q => if q =? p then v else port q) cmd (r_disk r).
Definition regs_insl (r : regs) : list Z * regs :=
  (match r_cmd r with Some (Reading dev lba) => r_disk r dev lba | _ => [] end, r).
Definition regs_outsl (data : list Z) (r : regs) : regs :=
  match r_cmd r with
  | Some (Writing dev lba) =>
    mkRegs (r_port r) (r_cmd r) (fun dev' lba' => if (dev' =? dev) && (lba' =? lba) then data else r_disk r dev' lba')
  | _ => r
  end.
#[export] Instance regs_ata : Ata := Build_Ata regs (fun r => (64, r)) regs_outb regs_insl regs_outsl.

#[export] Instance regs_laws : AtaLaws regs_ata.
Proof.
  refine {| sector := r_disk : @ata regs_ata -> _; command_of := r_cmd : @ata regs_ata -> _; ata_delay := 0 |}; simpl; try done.
  - intros a. by exists 0%nat.
  - intros a dev lba H. by rewrite H.
  - intros data a. unfold regs_outsl. destruct (r_cmd a) as [[]|] eqn:E; simpl; congruence.
  - intros a dev lba data H. unfold regs_outsl. by rewrite H.
Defined.
