(* ===== verification/Ide.v ===== *)
(** * The disk driver (ide.c)

    The queue of requests is threaded through [b->qnext], the head being the request the
    disk is working on.  [iderw] appends a buffer and sleeps until it is done; the
    interrupt handler takes the head off, finishes it and starts the next one. *)

From stdpp Require Import gmap.
From S2P Require Import Prelude Outcome Kernel Spinlock Proc Sleeplock Bio Machine Apic Ata.
Local Open Scope Z_scope.
Local Open Scope list_scope.

Definition SECTOR_SIZE : Z := 512.
Definition IDE_BSY : Z := 128.
Definition IDE_DRDY : Z := 64.
Definition IDE_DF : Z := 32.
Definition IDE_ERR : Z := 1.
Definition IDE_CMD_READ : Z := 32.
Definition IDE_CMD_WRITE : Z := 48.
Definition IDE_CMD_RDMUL : Z := 196.
Definition IDE_CMD_WRMUL : Z := 197.

Section Ide.
Context {fl : Fuel} {A : Ata} {tr : Traps}.

Definition ata_out (port v : Z) : M mach unit := modify (fun m => m <| m_ata ::= ata_outb port (u8 v) |>).
Definition ata_in : M mach Z :=
  r ← gets (fun m => ata_status (m_ata m));
  modify (fun m => m <| m_ata := r.2 |>);;
  ret r.1.

(** The loop of [idewait]: the status that ends it. *)
Fixpoint idewait_loop (n : nat) : M mach Z :=
  r ← ata_in;
  if negb (Z.land r (Z.lor IDE_BSY IDE_DRDY) =? IDE_DRDY) then
    match n with O => spin | S n => idewait_loop n end
  else ret r.

Definition idewait (checkerr : bool) : M mach Z :=
  r ← idewait_loop fuel;
  if checkerr && negb (Z.land r (Z.lor IDE_DF IDE_ERR) =? 0) then ret (-1) else ret 0.

(** The search for disk 1, at most [n] reads. *)
Fixpoint probe (n : nat) : M mach unit :=
  match n with
  | O => ret tt
  | S n =>
    r ← ata_in;
    if negb (r =? 0) then modify (fun m => m <| m_havedisk1 := 1 |>) else probe n
  end.

Definition ideinit : M mach unit :=
  kop (initlock LIde);;
  ncpu ← gets (fun m => hw_ncpu (k_hw (m_k m)));
  ioapicenable IRQ_IDE (Z.of_nat ncpu - 1);;
  idewait false;;
  ata_out 502 (Z.lor 224 (Z.shiftl 1 4));;
  probe 1000;;
  ata_out 502 (Z.lor 224 (Z.shiftl 0 4)).

(** Start the request for [b]. *)
Definition idestart (b : option nat) : M mach unit :=
  match b with
  | None => panic "idestart"
  | Some b =>
    x ← kop (buf_get b);
    if FSSIZE <=? b_blockno x then panic "incorrect blockno" else
    let sector_per_block := BSIZE / SECTOR_SIZE in
    let sector := i32 (b_blockno x * sector_per_block) in
    let read_cmd := if sector_per_block =? 1 then IDE_CMD_READ else IDE_CMD_RDMUL in
    let write_cmd := if sector_per_block =? 1 then IDE_CMD_WRITE else IDE_CMD_WRMUL in
    if 7 <? sector_per_block then panic "idestart" else
    idewait false;;
    ata_out 1014 0;;
    ata_out 498 sector_per_block;;
    ata_out 499 (Z.land sector 255);;
    ata_out 500 (Z.land (Z.shiftr sector 8) 255);;
    ata_out 501 (Z.land (Z.shiftr sector 16) 255);;
    ata_out 502 (Z.lor (Z.lor 224 (Z.shiftl (Z.land (b_dev x) 1) 4)) (Z.land (Z.shiftr sector 24) 15));;
    if negb (Z.land (b_flags x) B_DIRTY =? 0) then
      ata_out 503 write_cmd;;
      modify (fun m => m <| m_ata ::= ata_outsl (b_data x) |>)
    else ata_out 503 read_cmd
  end.

(** [insl(0x1f0, b->data, BSIZE/4)] *)
Definition ide_insl (b : nat) : M mach unit :=
  r ← gets (fun m => ata_insl (m_ata m));
  modify (fun m => m <| m_ata := r.2 |>);;
  kop (buf_upd b (fun x => x <| b_data := r.1 |>)).

(** The handler for the request [b], with the lock held. *)
Definition ide_finish (b : nat) : M mach unit :=
  next ← gets (fun m => m_qnext m b);
  modify (fun m => m <| m_idequeue := next |>);;
  x ← kop (buf_get b);
  (* Read data if needed. *)
  (if Z.land (b_flags x) B_DIRTY =? 0 then
     r ← idewait true;
     when (0 <=? r) (ide_insl b)
   else ret tt);;
  (* Wake process waiting for this buf. *)
  kop (buf_upd b (fun x => x <| b_flags ::= fun f => Z.lor f B_VALID |>));;
  kop (buf_upd b (fun x => x <| b_flags ::= fun f => Z.land f (Z.lnot B_DIRTY) |>));;
  kop (wakeup (CBuf b));;
  (* Start disk on next buf in queue. *)
  q ← gets m_idequeue;
  match q with None => ret tt | Some _ => idestart q end.

Definition ideintr : M mach unit :=
  kop (acquire LIde);;
  q ← gets m_idequeue;
  match q with
  | None => kop (release LIde)
  | Some b =>
    ide_finish b;;
    kop (release LIde)
  end.

(** [for(pp=&idequeue; *pp; pp=&( *pp)->qnext);]: the buffer whose [qnext] is [*pp], or
    none when it is [idequeue]. *)
Fixpoint queue_end (n : nat) (last q : option nat) : M mach (option nat) :=
  match q with
  | None => ret last
  | Some b =>
    match n with
    | O => spin
    | S n => q' ← gets (fun m => m_qnext m b); queue_end n (Some b) q'
    end
  end.

(** Append [b] to the queue and start the disk if necessary. *)
Definition ide_append (b : nat) : M mach unit :=
  modify (fun m => m <| m_qnext ::= fun f j => if (j =? b)%nat then None else f j |>);;
  q ← gets m_idequeue;
  last ← queue_end NBUF None q;
  (match last with
   | None => modify (fun m => m <| m_idequeue := Some b |>)
   | Some l => modify (fun m => m <| m_qnext ::= fun f j => if (j =? l)%nat then Some b else f j |>)
   end);;
  q ← gets m_idequeue;
  if bool_decide (q = Some b) then idestart (Some b) else ret tt.

(** Wait for request to finish. *)
Fixpoint ide_wait (n : nat) (b : nat) : M mach unit :=
  x ← kop (buf_get b);
  if negb (Z.land (b_flags x) (Z.lor B_VALID B_DIRTY) =? B_VALID) then
    match n with
    | O => spin
    | S n => kop (sleep (CBuf b) LIde);; ide_wait n b
    end
  else ret tt.

Definition ide_iderw (b : nat) : M mach unit :=
  h ← kop (holdingsleep (SLBuf b));
  if negb h then panic "iderw: buf not locked" else
  x ← kop (buf_get b);
  if Z.land (b_flags x) (Z.lor B_VALID B_DIRTY) =? B_VALID then panic "iderw: nothing to do" else
  havedisk1 ← gets m_havedisk1;
  if negb (b_dev x =? 0) && (havedisk1 =? 0) then panic "iderw: ide disk 1 not present" else
  kop (acquire LIde);;
  ide_append b;;
  ide_wait fuel b;;
  kop (release LIde).
End Ide.

(** ** Starting a request *)

Definition dirty (x : buf) : bool := negb (Z.land (b_flags x) B_DIRTY =? 0).
Definition disk_of (x : buf) : Z := Z.land (b_dev x) 1.
Definition request (x : buf) : command :=
  (if dirty x then Writing else Reading) (disk_of x) (b_blockno x).

Section Start.
Context {fl : Fuel} {A : Ata} {law : AtaLaws A} (Hfuel : (ata_delay <= fuel)%nat).

Lemma ata_in_ok m : ata_in m = Ok (ata_status (m_ata m)).1 (m <| m_ata := (ata_status (m_ata m)).2 |>).
Proof. done. Qed.

Lemma idewait_loop_ok n m :
  (exists k, (k <= n)%nat /\ ready (ata_status (polled k (m_ata m))).1 = true) ->
  exists r a', idewait_loop n m = Ok r (m <| m_ata := a' |>) /\ Z.land r 33 = 0 /\
    sector a' = sector (m_ata m) /\ command_of a' = command_of (m_ata m).
Proof.
  revert m. induction n as [|n IH]; intros m (k & Hk & Hr); cbn [idewait_loop]; mstep with (ata_in_ok m);
    change (Z.land (ata_status (m_ata m)).1 (Z.lor IDE_BSY IDE_DRDY) =? IDE_DRDY) with (ready (ata_status (m_ata m)).1).
  - assert (k = 0%nat) as -> by lia. simpl in Hr. rewrite Hr. cbn [negb]. eexists _, _. split; [reflexivity|].
    split; [apply ata_no_error|]. by rewrite status_sector, status_command.
  - destruct (ready (ata_status (m_ata m)).1) eqn:E; cbn [negb].
    + eexists _, _. split; [reflexivity|]. split; [apply ata_no_error|]. by rewrite status_sector, status_command.
    + destruct k as [|k]; [simpl in Hr; congruence|].
      destruct (IH (m <| m_ata := (ata_status (m_ata m)).2 |>)) as (r & a' & H1 & H2 & H3 & H4).
      { exists k. split; [lia|done]. }
      exists r, a'. split; [done|]. split; [done|]. rsimpl in H3. rsimpl in H4. by rewrite H3, H4, status_sector, status_command.
Qed.

Lemma idewait_ok b m :
  exists a', idewait b m = Ok 0 (m <| m_ata := a' |>) /\
    sector a' = sector (m_ata m) /\ command_of a' = command_of (m_ata m).
Proof.
  destruct (ata_ready (m_ata m)) as (k & Hk & Hr).
  destruct (idewait_loop_ok fuel m) as (r & a' & H1 & H2 & H3); [exists k; split; [lia|done]|].
  exists a'. split; [|done]. unfold idewait. mstep with H1.
  change (Z.lor IDE_DF IDE_ERR) with 33. rewrite H2. by destruct b.
Qed.

Lemma u8_small v : 0 <= v < 256 -> u8 v = v.
Proof. apply Z.mod_small. Qed.

(** The registers hold the address of the sector and the number of the disk. *)
Lemma drive_register x s :
  0 <= s < FSSIZE ->
  let d := Z.lor (Z.lor 224 (Z.shiftl (disk_of x) 4)) (Z.land (Z.shiftr s 24) 15) in
  0 <= d < 256 /\ Z.testbit d 6 = true /\ dev_of d = disk_of x /\
  lba_of (u8 (Z.land s 255)) (u8 (Z.land (Z.shiftr s 8) 255)) (u8 (Z.land (Z.shiftr s 16) 255)) d = s.
Proof.
  intros Hs. unfold FSSIZE in Hs. assert (E : Z.shiftr s 24 = 0) by (rewrite Z.shiftr_div_pow2 by lia; apply Z.div_small; lia).
  assert (E16 : Z.shiftr s 16 = 0) by (rewrite Z.shiftr_div_pow2 by lia; apply Z.div_small; lia).
  rewrite E, E16. unfold disk_of. change 1 with (Z.ones 1). rewrite Z.land_ones by lia. change (2 ^ 1) with 2.
  change 255 with (Z.ones 8). rewrite !Z.land_ones, Z.shiftr_div_pow2 by lia. change (2 ^ 8) with 256.
  pose proof (Z.mod_pos_bound (b_dev x) 2 ltac:(lia)) as Hd. unfold u8. rewrite !Z.mod_mod by lia.
  assert (H2 : b_dev x mod 2 = 0 \/ b_dev x mod 2 = 1) by lia.
  destruct H2 as [-> | ->]; (split; [vm_compute; split; [discriminate|reflexivity]|]); (split; [reflexivity|]); (split; [reflexivity|]).
  - unfold lba_of. rewrite (Z.mod_small (s / 256)) by (Z.div_mod_to_equations; lia). vm_compute (Z.land 0 15). simpl Z.lor.
    vm_compute (_ mod 16). vm_compute (0 mod 256). pose proof (Z.div_mod s 256 ltac:(lia)). lia.
  - unfold lba_of. rewrite (Z.mod_small (s / 256)) by (Z.div_mod_to_equations; lia). vm_compute (Z.land 0 15). simpl Z.lor.
    vm_compute (_ mod 16). vm_compute (0 mod 256). pose proof (Z.div_mod s 256 ltac:(lia)). lia.
Qed.

(** The disk after the request of [x] has been started on it. *)
Definition started (x : buf) (a a' : ata) : Prop :=
  command_of a' = Some (request x) /\
  sector a' = (if dirty x then fun dev lba => if (dev =? disk_of x) && (lba =? b_blockno x) then b_data x else sector a dev lba
               else sector a).

Lemma ata_out_ok port v a m : ata_out port v (m <| m_ata := a |>) = Ok tt (m <| m_ata := ata_outb port (u8 v) a |>).
Proof. done. Qed.

Lemma ata_outsl_ok data a m :
  modify (fun m => m <| m_ata ::= ata_outsl data |>) (m <| m_ata := a |>) = Ok tt (m <| m_ata := ata_outsl data a |>).
Proof. done. Qed.

Lemma buf_get_kop b x m : k_bufs (m_k m) !! b = Some x -> kop (buf_get b) m = Ok x m.
Proof.
  intros H. rewrite (kop_ok _ _ x (m_k m)); [by destruct m|]. unfold buf_get. mstep. by rewrite H.
Qed.

Lemma idestart_ok b x m :
  k_bufs (m_k m) !! b = Some x -> 0 <= b_blockno x < FSSIZE ->
  exists a', idestart (Some b) m = Ok tt (m <| m_ata := a' |>) /\ started x (m_ata m) a'.
Proof.
  intros Hx Hb. cbn [idestart]. mstep with (buf_get_kop b x m Hx). rewrite (proj2 (Z.leb_gt _ _)) by lia.
  change (BSIZE / SECTOR_SIZE) with 1. cbn beta iota zeta. change (7 <? 1) with false. cbn iota.
  rewrite Z.mul_1_r, i32_id by (unfold FSSIZE in Hb; lia).
  destruct (idewait_ok false m) as (a1 & Hw & Hs & Hc). mstep with Hw. do 6 mstep with (ata_out_ok _ _ _ m).
  destruct (drive_register x (b_blockno x) Hb) as (Hd & H6 & Hdev & Hlba).
  fold (disk_of x). fold (dirty x). set (d := Z.lor (Z.lor 224 _) _) in *.
  set (a2 := ata_outb 1014 (u8 0) a1).
  assert (Hs2 : forall cmd, sector (issue (u8 (Z.land (b_blockno x) 255)) (u8 (Z.land (Z.shiftr (b_blockno x) 8) 255))
    (u8 (Z.land (Z.shiftr (b_blockno x) 16) 255)) d cmd a2) = sector (m_ata m)).
  { intros cmd. unfold issue. rewrite !outb_sector. unfold a2. by rewrite outb_sector. }
  unfold started, request. destruct (dirty x).
  - mstep with (ata_out_ok _ _ _ m). rewrite ata_outsl_ok. eexists. split; [reflexivity|]. rewrite (u8_small d) by done.
    pose proof (issue_write (u8 (Z.land (b_blockno x) 255)) (u8 (Z.land (Z.shiftr (b_blockno x) 8) 255))
                  (u8 (Z.land (Z.shiftr (b_blockno x) 16) 255)) d a2 Hd H6) as Hcmd.
    rewrite Hlba, Hdev in Hcmd. split; [rewrite outsl_command; exact Hcmd|]. rewrite (outsl_sector _ _ _ _ Hcmd). by rewrite <- (Hs2 48).
  - rewrite ata_out_ok. eexists. split; [reflexivity|]. rewrite (u8_small d) by done.
    pose proof (issue_read (u8 (Z.land (b_blockno x) 255)) (u8 (Z.land (Z.shiftr (b_blockno x) 8) 255))
                  (u8 (Z.land (Z.shiftr (b_blockno x) 16) 255)) d a2 Hd H6) as Hcmd.
    rewrite Hlba, Hdev in Hcmd. split; [exact Hcmd|exact (Hs2 32)].
Qed.
End Start.

(** ** The queue *)

(** The list that starts at [q] and is threaded through [next]. *)
Fixpoint linked (q : option nat) (next : nat -> option nat) (l : list nat) : Prop :=
  match l with
  | [] => q = None
  | b :: l => q = Some b /\ linked (next b) next l
  end.

Lemma linked_ext q next next' l : (forall b, b ∈ l -> next' b = next b) -> linked q next l -> linked q next' l.
Proof.
  revert q. induction l as [|b l IH]; intros q Hn; [done|]. intros [-> Hl]. split; [done|].
  rewrite Hn by set_solver. apply IH; [|done]. intros x Hx. apply Hn. set_solver.
Qed.

Lemma linked_snoc q next l z b :
  NoDup (l ++ [z]) -> b ∉ l ++ [z] -> linked q next (l ++ [z]) ->
  linked q (fun j => if (j =? z)%nat then Some b else if (j =? b)%nat then None else next j) ((l ++ [z]) ++ [b]).
Proof.
  revert q. induction l as [|y l IH]; intros q Hnd Hb; cbn [app linked].
  - intros [-> Hz]. split; [done|]. rewrite Nat.eqb_refl. split; [done|]. 
    rewrite Nat.eqb_refl. by rewrite (proj2 (Nat.eqb_neq b z)) by set_solver.
  - apply NoDup_cons in Hnd as [Hy Hnd]. apply not_elem_of_cons in Hb as [Hby Hb]. intros [-> Hl]. split; [done|].
    rewrite (proj2 (Nat.eqb_neq y z)), (proj2 (Nat.eqb_neq y b)) by set_solver. by apply IH.
Qed.

Section Queue.
Context {fl : Fuel} {A : Ata} {law : AtaLaws A} (Hfuel : (ata_delay <= fuel)%nat).

Lemma queue_end_ok n last0 q l m :
  linked q (m_qnext m) l -> (length l <= n)%nat ->
  queue_end n last0 q m = Ok (match last l with Some z => Some z | None => last0 end) m.
Proof.
  revert n last0 q. induction l as [|b l IH]; intros n last0 q Hl Hn.
  { simpl in Hl. subst q. by destruct n. }
  destruct Hl as [-> Hl]. destruct n as [|n]; [simpl in Hn; lia|]. cbn [queue_end]. mstep.
  rewrite (IH n) by (done || simpl in Hn; lia). rewrite last_cons. by destruct (last l).
Qed.

(** A buffer that waits for the disk. *)
Definition waits (m : mach) (b : nat) : Prop :=
  (b < NBUF)%nat /\ exists x, k_bufs (m_k m) !! b = Some x /\ 0 <= b_blockno x < FSSIZE /\
    Z.land (b_flags x) (Z.lor B_VALID B_DIRTY) <> B_VALID.

(** The queue is [l], and the disk works for its head; when the head is to be written,
    the disk has got the data. *)
Record ide_inv (l : list nat) (m : mach) : Prop := {
  q_linked : linked (m_idequeue m) (m_qnext m) l;
  q_nodup : NoDup l;
  q_waits : Forall (waits m) l;
  q_active : forall b x, l !! 0%nat = Some b -> k_bufs (m_k m) !! b = Some x ->
    command_of (m_ata m) = Some (request x) /\
    (dirty x = true -> sector (m_ata m) (disk_of x) (b_blockno x) = b_data x) }.

Lemma queue_length l : NoDup l -> Forall (fun b => (b < NBUF)%nat) l -> (length l <= NBUF)%nat.
Proof.
  intros Hnd Hl. transitivity (length (seq 0 NBUF)); [|by rewrite length_seq].
  apply submseteq_length, NoDup_submseteq; [done|].
  intros b Hb. rewrite Forall_forall in Hl. apply elem_of_seq. specialize (Hl b Hb). lia.
Qed.

Lemma inv_length l m : ide_inv l m -> (length l <= NBUF)%nat.
Proof. intros [_ Hnd Hw _]. apply queue_length; [done|]. eapply Forall_impl; [done|]. by intros b [? _]. Qed.

Lemma started_active x a a' :
  started x a a' -> command_of a' = Some (request x) /\ (dirty x = true -> sector a' (disk_of x) (b_blockno x) = b_data x).
Proof. intros [Hc Hs]. split; [done|]. intros Hd. by rewrite Hs, Hd, !Z.eqb_refl. Qed.

Lemma ide_append_ok b l m :
  ide_inv l m -> b ∉ l -> waits m b ->
  exists m', ide_append b m = Ok tt m' /\ ide_inv (l ++ [b]) m' /\ m_k m' = m_k m.
Proof.
  intros HI Hb Hw. pose proof (inv_length l m HI) as Hlen. destruct HI as [Hl Hnd Hwl Ha]. unfold ide_append. mstep. mstep.
  set (m1 := m <| m_qnext ::= _ |>).
  assert (Hl1 : linked (m_idequeue m1) (m_qnext m1) l).
  { apply (linked_ext _ (m_qnext m)); [|done]. intros j Hj. unfold m1. rsimpl. by rewrite (proj2 (Nat.eqb_neq j b)) by set_solver. }
  mstep with (queue_end_ok NBUF None (m_idequeue m1) l m1 Hl1 Hlen).
  assert (Hnd' : NoDup (l ++ [b])) by (apply NoDup_app; split_and!; [done|set_solver|apply NoDup_singleton]).
  destruct l as [|z l _] using rev_ind.
  - cbn [last]. mstep. mstep. rsimpl. rewrite bool_decide_eq_true_2 by done. destruct Hw as (Hn & x & Hx & Hbk & Hfl).
    set (m2 := m1 <| m_idequeue := Some b |>). destruct (idestart_ok Hfuel b x m2 Hx Hbk) as (a' & Hs & Hst).
    exists (m2 <| m_ata := a' |>). split; [exact Hs|]. split; [|done].
    split; [|done| |].
    + split; [done|]. unfold m2, m1. rsimpl. by rewrite Nat.eqb_refl.
    + constructor; [|constructor]. split; [done|]. by exists x.
    + intros b0 x0 [= <-] Hx0. rsimpl in Hx0. change (k_bufs (m_k m) !! b = Some x0) in Hx0. rewrite Hx in Hx0. injection Hx0 as <-.
      by eapply started_active.
  - rewrite last_snoc. mstep. mstep. rsimpl.
    assert (Hq : m_idequeue m1 <> Some b).
    { intros E. destruct l as [|y l]; destruct Hl1 as [E' _]; rewrite E in E'; injection E' as <-; set_solver. }
    change (m_idequeue m) with (m_idequeue m1). rewrite bool_decide_eq_false_2 by done. eexists. split; [reflexivity|].
    split; [|done]. split; [|done| |].
    + rsimpl. by apply linked_snoc.
    + apply Forall_app. split; [done|]. by constructor.
    + intros b0 x0 Hh Hx0. apply (Ha b0 x0); [|done]. by destruct l.
Qed.

(** The buffer when its request is done. *)
Definition finished (x : buf) (data : list Z) : buf :=
  x <| b_data := data |> <| b_flags ::= fun f => Z.lor f B_VALID |> <| b_flags ::= fun f => Z.land f (Z.lnot B_DIRTY) |>.

Lemma finished_valid x data : Z.land (b_flags (finished x data)) (Z.lor B_VALID B_DIRTY) = B_VALID.
Proof.
  unfold finished. rsimpl. rewrite <- Z.land_assoc. change (Z.land (Z.lnot B_DIRTY) (Z.lor B_VALID B_DIRTY)) with B_VALID.
  rewrite Z.land_lor_distr_l, Z.land_diag. apply Z.bits_inj'. intros n _. rewrite Z.lor_spec, Z.land_spec.
  by destruct (Z.testbit (b_flags x) n), (Z.testbit B_VALID n).
Qed.

Lemma buf_upd_again b y f l s :
  (b < length l)%nat ->
  buf_upd b f (s <| k_bufs := <[b := y]> l |>) = Ok tt (s <| k_bufs := <[b := f y]> l |>).
Proof.
  intros Hb. erewrite buf_upd_ok by (by apply list_lookup_insert_eq). f_equal.
  apply kstate_ext; rsimpl; try reflexivity. apply list_insert_insert_eq.
Qed.

Lemma kop_at {B} (f : K B) (m : mach) s b s' : f s = Ok b s' -> kop f (m <| m_k := s |>) = Ok b (m <| m_k := s' |>).
Proof. intros H. by rewrite (kop_ok f _ b s'). Qed.

(** The data is in the buffer: read from the disk, or there all the time. *)
Lemma fetch_ok b x m :
  k_bufs (m_k m) !! b = Some x -> command_of (m_ata m) = Some (request x) ->
  (dirty x = true -> sector (m_ata m) (disk_of x) (b_blockno x) = b_data x) ->
  exists a' s', (if Z.land (b_flags x) B_DIRTY =? 0 then r ← idewait true; when (0 <=? r) (ide_insl b) else ret tt) m =
    Ok tt (m <| m_ata := a' |> <| m_k := s' |>) /\ sector a' = sector (m_ata m) /\
    s' = (m_k m) <| k_bufs := <[b := x <| b_data := sector (m_ata m) (disk_of x) (b_blockno x) |>]> (k_bufs (m_k m)) |>.
Proof.
  intros Hx Hcmd Hdata. unfold request, dirty in *.
  destruct (Z.land (b_flags x) B_DIRTY =? 0); cbn [negb] in *.
  - destruct (idewait_ok Hfuel true m) as (a1 & Hw & Hs & Hc). mstep with Hw. change (0 <=? 0) with true. cbn [when].
    rewrite Hcmd in Hc. destruct (insl_sector a1 _ _ Hc) as [Hd Hs1].
    exists (ata_insl a1).2, ((m_k m) <| k_bufs := <[b := x <| b_data := (ata_insl a1).1 |>]> (k_bufs (m_k m)) |>).
    rewrite Hs1, Hs, Hd, Hs. split; [|done]. unfold ide_insl. mstep. mstep. rsimpl.
    rewrite <- Hs, <- Hd. erewrite kop_ok; [reflexivity|]. by apply buf_upd_ok.
  - exists (m_ata m), (m_k m). split; [by destruct m|]. split; [done|]. rewrite (Hdata eq_refl).
    rewrite list_insert_id; [by destruct (m_k m)|]. rewrite Hx. by destruct x.
Qed.

Lemma ide_finish_ok i c b l m :
  ide_inv (b :: l) m -> CpuOk i c (k_hw (m_k m)) -> free LPtable (k_hw (m_k m)) ->
  exists x m', k_bufs (m_k m) !! b = Some x /\ ide_finish b m = Ok tt m' /\ ide_inv l m' /\
    m_k m' = (m_k m) <| k_bufs := <[b := finished x (sector (m_ata m) (disk_of x) (b_blockno x))]> (k_bufs (m_k m)) |>
                     <| k_hw ::= touched i c |> <| k_procs ::= map (wake_one (Some (CBuf b))) |>.
Proof.
  intros HI HC Hf. pose proof HI as [[Hq Hl] Hnd Hw Ha]. apply Forall_cons in Hw as [(Hn & x & Hx & Hbk & _) Hw].
  apply NoDup_cons in Hnd as [Hb Hnd]. exists x.
  destruct (Ha b x eq_refl Hx) as [Hcmd Hdata].
  unfold ide_finish. mstep. mstep. set (m1 := m <| m_idequeue := m_qnext m b |>).
  mstep with (buf_get_kop b x m1 Hx).
  destruct (fetch_ok b x m1 Hx Hcmd Hdata) as (a2 & s2 & Hfe & Hs2 & Es2). mstep with Hfe.
  set (data := sector (m_ata m) (disk_of x) (b_blockno x)).
  change (sector (m_ata m1) (disk_of x) (b_blockno x)) with data in Es2. change (m_k m1) with (m_k m) in Es2.
  assert (Hlt : (b < length (k_bufs (m_k m)))%nat) by (by eapply lookup_lt_Some).
  set (s3 := (m_k m) <| k_bufs := <[b := finished x data]> (k_bufs (m_k m)) |>).
  set (s4 := s3 <| k_hw ::= touched i c |> <| k_procs ::= map (wake_one (Some (CBuf b))) |>).
  set (m2 := m1 <| m_ata := a2 |>). subst s2.
  mstep with (kop_at _ m2 _ _ _ (buf_upd_again b _ _ _ (m_k m) Hlt)).
  mstep with (kop_at _ m2 _ _ _ (buf_upd_again b _ _ _ (m_k m) Hlt)).
  mstep with (kop_at _ m2 s3 _ _ (wakeup_ok i c (CBuf b) s3 HC Hf)). mstep. fold s4.
  assert (Hother : forall y, y <> b -> k_bufs s4 !! y = k_bufs (m_k m) !! y).
  { intros y Hy. unfold s4, s3. rsimpl. by rewrite list_lookup_insert_ne. }
  assert (Hwl : forall a, Forall (waits (m2 <| m_k := s4 |> <| m_ata := a |>)) l).
  { intros a. apply Forall_forall. intros y Hy. rewrite Forall_forall in Hw. destruct (Hw y Hy) as (H1 & z & Hz & H2).
    split; [done|]. exists z. rsimpl. rewrite Hother; [done|]. by intros ->. }
  change (m_idequeue (m2 <| m_k := s4 |>)) with (m_qnext m b).
  destruct l as [|b2 l].
  - simpl in Hl. rewrite Hl. exists (m2 <| m_k := s4 |>). split_and!; [done|done| |done].
    split; [exact Hl|constructor|constructor|done].
  - pose proof Hl as [Hq2 _]. rewrite Hq2. apply Forall_cons in Hw as [(Hn2 & x2 & Hx2 & Hbk2 & _) _].
    set (m3 := m2 <| m_k := s4 |>). assert (Hx3 : k_bufs (m_k m3) !! b2 = Some x2).
    { unfold m3. rsimpl. rewrite Hother; [done|]. set_solver. }
    destruct (idestart_ok Hfuel b2 x2 m3 Hx3 Hbk2) as (a4 & Hst & Hsta).
    exists (m3 <| m_ata := a4 |>). split_and!; [done|done| |done]. split; [exact Hl|done|apply Hwl|].
    intros b0 x0 [= <-] Hx0. change (k_bufs (m_k m3) !! b2 = Some x0) in Hx0. rewrite Hx3 in Hx0. injection Hx0 as <-.
    by eapply started_active.
Qed.
End Queue.

(** ** Correctness *)

Section Correct.
Context {fl : Fuel} {A : Ata} {law : AtaLaws A} (Hfuel : (ata_delay <= fuel)%nat).

(** A step of the system, with the buffers requested and the buffers finished so far: a
    request, an interrupt, or anything else the kernel does, which leaves alone the
    buffers that wait. *)
Inductive ide_step : mach * (list nat * list nat) -> mach * (list nat * list nat) -> Prop :=
| step_request m m' R D b :
    b ∉ drop (length D) R -> waits m b -> ide_append b m = Ok tt m' ->
    ide_step (m, (R, D)) (m', (R ++ [b], D))
| step_interrupt m m' R D b i c :
    CpuOk i c (k_hw (m_k m)) -> free LPtable (k_hw (m_k m)) ->
    m_idequeue m = Some b -> ide_finish b m = Ok tt m' ->
    ide_step (m, (R, D)) (m', (R, D ++ [b]))
| step_other m s' R D :
    (forall b, b ∈ drop (length D) R -> k_bufs s' !! b = k_bufs (m_k m) !! b) ->
    ide_step (m, (R, D)) (m <| m_k := s' |>, (R, D)).

Lemma inv_other l m s' :
  ide_inv l m -> (forall b, b ∈ l -> k_bufs s' !! b = k_bufs (m_k m) !! b) -> ide_inv l (m <| m_k := s' |>).
Proof.
  intros [Hl Hnd Hw Ha] Hs. split; [done|done| |].
  - apply Forall_forall. intros b Hb. rewrite Forall_forall in Hw. destruct (Hw b Hb) as (H1 & x & Hx & H2).
    split; [done|]. exists x. rsimpl. by rewrite Hs.
  - intros b x Hb Hx. rsimpl in Hx. rewrite Hs in Hx by (by apply list_elem_of_lookup_2 in Hb). by apply Ha with b.
Qed.

(** The queue holds the requests that are not finished, in order. *)
Lemma ide_step_inv m R D m' R' D' :
  ide_step (m, (R, D)) (m', (R', D')) ->
  (exists l, ide_inv l m /\ R = D ++ l) -> exists l, ide_inv l m' /\ R' = D' ++ l.
Proof.
  intros Hst (l & HI & ->). inversion Hst as [? ? ? ? b Hb Hw Hm|? ? ? ? b i c HC Hf Hq Hm|? s' ? ? Hs]; subst.
  - rewrite drop_app_length in Hb. destruct (ide_append_ok Hfuel b l m HI Hb Hw) as (m1 & Hm1 & HI1 & _).
    rewrite Hm in Hm1. injection Hm1 as <-. exists (l ++ [b]). by rewrite app_assoc.
  - destruct l as [|b' l].
    { pose proof (q_linked _ _ HI) as Hl. simpl in Hl. congruence. }
    pose proof (q_linked _ _ HI) as [Hl _]. assert (b' = b) as -> by congruence.
    destruct (ide_finish_ok Hfuel i c b l m HI HC Hf) as (x & m1 & _ & Hm1 & HI1 & _).
    rewrite Hm in Hm1. injection Hm1 as <-. exists l. by rewrite <- app_assoc.
  - rewrite drop_app_length in Hs. exists l. split; [by apply inv_other|done].
Qed.

Lemma ide_run_inv y z :
  rtc ide_step y z -> (exists l, ide_inv l y.1 /\ y.2.1 = y.2.2 ++ l) -> exists l, ide_inv l z.1 /\ z.2.1 = z.2.2 ++ l.
Proof.
  induction 1 as [|[? []] [? []] z Hxy _ IH]; [done|]. intros Hx. apply IH. by eapply ide_step_inv.
Qed.

Lemma ideintr_ok i c b l m :
  ide_inv (b :: l) m -> CpuOk i c (k_hw (m_k m)) -> free LIde (k_hw (m_k m)) -> free LPtable (k_hw (m_k m)) ->
  exists x m', k_bufs (m_k m) !! b = Some x /\ ideintr m = Ok tt m' /\ ide_inv l m' /\
    k_bufs (m_k m') = <[b := finished x (sector (m_ata m) (disk_of x) (b_blockno x))]> (k_bufs (m_k m)) /\
    k_procs (m_k m') = map (wake_one (Some (CBuf b))) (k_procs (m_k m)) /\
    k_hw (m_k m') = touched i c (k_hw (m_k m)).
Proof.
  intros HI HC Hf Hpt. unfold ideintr. mstep with (kop_ok _ m _ _ (kacquire_ok i c LIde (m_k m) HC Hf)). mstep.
  pose proof (q_linked _ _ HI) as [Hq _]. set (s1 := (m_k m) <| k_hw ::= acquired i c LIde |>).
  set (m1 := m <| m_k := s1 |>). change (m_idequeue m1) with (m_idequeue m). rewrite Hq.
  assert (HI1 : ide_inv (b :: l) m1) by (by apply inv_other).
  destruct (ide_finish_ok Hfuel i (pushed_cpu (hw_if (k_hw (m_k m))) c) b l m1 HI1) as (x & m2 & Hx & Hm2 & HI2 & Hk2);
    [by apply CpuOk_acquired|by apply free_acquired|].
  mstep with Hm2.
  assert (Hhw : k_hw (m_k m2) = acquired i c LIde (k_hw (m_k m))).
  { rewrite Hk2. rsimpl. apply touched_nested; [by apply CpuOk_acquired|by eapply pushed_ncli_pos]. }
  exists x. eexists. split; [exact Hx|]. split; [apply kop_ok, (krelease_ok i c LIde (k_hw (m_k m))); done|].
  split; [by apply inv_other|]. by rewrite Hk2.
Qed.
End Correct.

(** C9. The disk serves the requests in order, and well.  Whatever requests, interrupts and
    other activity of the kernel follow on an idle disk, the requests finished and those
    still in the queue are the requests made, in order.  And at an interrupt the handler
    finishes the head of the queue: the buffer becomes valid and clean and agrees with
    its sector on the disk, nobody is left asleep on it, no other buffer is touched, and
    the disk is started on the next request. *)
Theorem ide_serves_in_order {fl : Fuel} {A : Ata} {law : AtaLaws A} (m0 m : mach) (R D : list nat) :
  (ata_delay <= fuel)%nat -> ide_inv [] m0 -> rtc ide_step (m0, ([], [])) (m, (R, D)) ->
  exists l, ide_inv l m /\ R = D ++ l /\
    forall i c b l', l = b :: l' ->
      CpuOk i c (k_hw (m_k m)) -> free LIde (k_hw (m_k m)) -> free LPtable (k_hw (m_k m)) ->
      exists x x' m', k_bufs (m_k m) !! b = Some x /\ ideintr m = Ok tt m' /\ ide_inv l' m' /\
        k_bufs (m_k m') = <[b := x']> (k_bufs (m_k m)) /\
        Z.land (b_flags x') (Z.lor B_VALID B_DIRTY) = B_VALID /\ b_blockno x' = b_blockno x /\ b_dev x' = b_dev x /\
        b_data x' = sector (m_ata m) (disk_of x) (b_blockno x) /\ (dirty x = true -> b_data x' = b_data x) /\
        nobody_asleep (Some (CBuf b)) (k_procs (m_k m')).
Proof.
  intros Hfuel H0 Hrun.
  destruct (ide_run_inv Hfuel _ _ Hrun (ex_intro _ [] (conj H0 eq_refl))) as (l & HI & HR). cbn [fst snd] in HI, HR.
  exists l. split_and!; [done|done|]. intros i c b l' -> HC Hf Hpt.
  destruct (ideintr_ok Hfuel i c b l' m HI HC Hf Hpt) as (x & m' & Hx & Hm & HI' & Hb & Hp & _).
  exists x. eexists. exists m'. split_and!; [done|done|done|exact Hb|apply finished_valid|done|done|done| |].
  - intros Hd. by apply (q_active _ _ HI b x eq_refl Hx).
  - rewrite Hp. apply wake_all.
Qed.

(** [iderw] for a buffer that the process has locked puts it at the end of the queue,
    starting the disk when it was idle, and sleeps, with the lock of the queue free; and
    when the process runs again and the buffer is valid and clean, it returns, with the
    lock free again. *)
Theorem iderw_waits {fl : Fuel} {A : Ata} {law : AtaLaws A} i c p pr b l (m : mach) :
  (ata_delay <= fuel)%nat -> (0 < fuel)%nat ->
  kmode i c p pr (m_k m) -> free LIde (k_hw (m_k m)) -> sl_held (SLBuf b) (p_pid pr) (m_k m) ->
  ide_inv l m -> b ∉ l -> waits m b -> m_havedisk1 m <> 0 ->
  exists m1 k, ide_iderw b m = Switch m1 k /\ ide_inv (l ++ [b]) m1 /\
    k_procs (m_k m1) !! p = Some (asleep (CBuf b) pr) /\ free LIde (k_hw (m_k m1)) /\
    forall i' c' h' m2 y, resumed i' c' h' (m_k m2) -> free LIde h' ->
      k_bufs (m_k m2) !! b = Some y -> Z.land (b_flags y) (Z.lor B_VALID B_DIRTY) = B_VALID ->
      exists m3, k m2 = Ok tt m3 /\ k_bufs (m_k m3) = k_bufs (m_k m2) /\ m_idequeue m3 = m_idequeue m2 /\
        free LIde (k_hw (m_k m3)).
Proof.
  intros Hd Hfu Hk Hf Hh HI Hb Hw Hdisk. pose proof Hw as (Hn & x & Hx & _ & Hfl).
  unfold ide_iderw.
  assert (Hhold : kop (holdingsleep (SLBuf b)) m = Ok true m).
  { rewrite (kop_ok _ _ true (m_k m)); [by destruct m|]. apply (holdingsleep_held (SLBuf b) (fs_lock_buf b Hn) _ Hk Hh). }
  mstep with Hhold. cbn [negb]. mstep with (buf_get_kop b x m Hx). rewrite (proj2 (Z.eqb_neq _ _) Hfl). mstep.
  rewrite (proj2 (Z.eqb_neq _ _) Hdisk), andb_false_r.
  pose proof Hk as [HC H0 _ Hp Hpr _ Hlk]. specialize (Hlk LPtable eq_refl).
  mstep with (kop_ok _ m _ _ (kacquire_ok i c LIde (m_k m) HC Hf)).
  set (s1 := (m_k m) <| k_hw ::= acquired i c LIde |>). set (m1 := m <| m_k := s1 |>).
  destruct (ide_append_ok Hd b l m1) as (m2 & Hm2 & HI2 & Hk2); [by apply inv_other|done|done|]. mstep with Hm2.
  assert (Hx2 : k_bufs (m_k m2) !! b = Some x) by (by rewrite Hk2).
  destruct (sleep_cases i c (k_hw (m_k m)) p pr (CBuf b) LIde (m_k m2)) as (k & Hsl & Hres); try done; [by rewrite Hk2..|].
  destruct fuel as [|n]; [lia|]. cbn [ide_wait]. unfold bind at 1, bind at 1. rewrite (buf_get_kop b x m2 Hx2). cbn [obind].
  rewrite (proj2 (Z.eqb_neq _ _) Hfl). cbn [negb]. unfold bind at 1. rewrite (kop_switch _ _ _ _ Hsl). cbn [obind].
  eexists _, _. split; [reflexivity|]. split; [by apply inv_other|]. split; [|split].
  - rsimpl. rewrite list_lookup_alter_eq, Hk2. change (asleep (CBuf b) <$> k_procs (m_k m) !! p = Some (asleep (CBuf b) pr)).
    by rewrite Hpr.
  - rsimpl. by apply free_acquired.
  - intros i' c' h' m3 y Hr Hf' Hy Hyv. rewrite (Hres _ _ _ _ Hr Hf'). cbn [mlift obind].
    set (m4 := m3 <| m_k := _ |>). assert (Hy4 : k_bufs (m_k m4) !! b = Some y) by done.
    assert (Hdone : ide_wait n b m4 = Ok tt m4).
    { destruct n; cbn [ide_wait]; mstep with (buf_get_kop b y m4 Hy4); by rewrite Hyv. }
    rewrite Hdone. cbn [obind]. destruct (resumed_if _ _ _ _ (hw_if (k_hw (m_k m))) Hr) as [HC2 _]. set (h2 := h' <| hw_if := hw_if (k_hw (m_k m)) |>) in *.
    rewrite (kop_ok _ _ _ _ (krelease_ok i' (touched_cpu (hw_if h2) c') LIde (touched i' c' h2) (m_k m4)
               (CpuOk_touched _ _ _ HC2) Hf' eq_refl)).
    eexists. by split; [reflexivity|].
Qed.

(** A disk whose sectors hold their number, and process 0, which holds buffer 3 for block
    7. *)
Definition buf_demo : buf := mkBuf 0 1 7 1 0 0 [].
Definition ide_hw : hw := fs_hw <| hw_locks ::= <[LIde := unlocked]> |>.
Definition ide_kernel : kstate :=
  fs_demo <| k_hw := ide_hw |> <| k_bufs := replicate 30 buf_demo |> <| k_slocks := <[SLBuf 3 := mkSleeplock 1 1]> ∅ |>.
Definition ide_demo : @mach regs_ata :=
  mkMach regs_ata ide_kernel 0 (fun _ => 0) 0 true (fun _ => 0) [] (mkRegs (fun _ => 0) None (fun dev lba => [lba])) None (fun _ => None) 1.

Lemma ide_demo_idle : ide_inv [] ide_demo.
Proof. split; [reflexivity|constructor|constructor|done]. Qed.

Lemma ide_demo_waits : waits ide_demo 3.
Proof.
  split; [apply Nat.ltb_lt; reflexivity|]. exists buf_demo. split; [reflexivity|]. split; [unfold FSSIZE; simpl; lia|]. discriminate.
Qed.

Lemma ide_demo_mode s : k_hw s = ide_hw -> k_procs s = k_procs fs_demo -> kmode 0 fs_cpu 0 fs_proc s /\ free LIde (k_hw s).
Proof.
  intros Hh Hp. destruct (kmode_more_locks LIde fs_demo s (kmode_fs_demo fs_demo eq_refl eq_refl) Hh Hp) as [H1 H2]. split; [exact H1|exact H2].
Qed.

Lemma ide_serves_in_order_witness :
  exists m1 m', @ide_append 5%nat regs_ata 3 ide_demo = Ok tt m1 /\ @ideintr 5%nat regs_ata m1 = Ok tt m' /\
    exists x', k_bufs (m_k m') = <[3%nat := x']> (k_bufs (m_k m1)) /\ Z.land (b_flags x') 6 = 2.
Proof.
  destruct (@ide_append_ok 5%nat regs_ata regs_laws (Nat.le_0_l 5) 3 [] ide_demo ide_demo_idle (not_elem_of_nil _) ide_demo_waits)
    as (m1 & Hm1 & _ & Hk1).
  assert (Hrun : rtc (@ide_step 5%nat regs_ata) (ide_demo, ([], [])) (m1, ([3%nat], []))).
  { apply rtc_once. apply (@step_request 5%nat regs_ata ide_demo m1 [] [] 3 (not_elem_of_nil _) ide_demo_waits Hm1). }
  destruct (@ide_serves_in_order 5%nat regs_ata regs_laws ide_demo m1 [3%nat] [] (Nat.le_0_l 5) ide_demo_idle Hrun)
    as (l & _ & El & H).
  destruct (ide_demo_mode (m_k m1)) as [[HC _ _ _ _ _ Hlk] Hf]; [rewrite Hk1; reflexivity|rewrite Hk1; reflexivity|].
  destruct (H 0%nat fs_cpu 3%nat [] (eq_sym El) HC Hf (Hlk LPtable eq_refl)) as (x & x' & m' & _ & Hm' & _ & Hb & Hv & _).
  exists m1, m'. split; [exact Hm1|]. split; [exact Hm'|]. exists x'. split; [exact Hb|exact Hv].
Defined.

Lemma iderw_waits_witness :
  exists m1 k, @ide_iderw 5%nat regs_ata 3 ide_demo = Switch m1 k /\ k_procs (m_k m1) !! 0%nat = Some (asleep (CBuf 3) fs_proc).
Proof.
  destruct (ide_demo_mode ide_kernel eq_refl eq_refl) as [Hk Hf].
  destruct (@iderw_waits 5%nat regs_ata regs_laws 0 fs_cpu 0 fs_proc 3 [] ide_demo (Nat.le_0_l 5) ltac:(apply Nat.ltb_lt; reflexivity)
              Hk Hf ltac:(exists (mkSleeplock 1 1); split; [reflexivity|split; [discriminate|reflexivity]])
              ide_demo_idle (not_elem_of_nil _) ide_demo_waits ltac:(discriminate)) as (m1 & k & H1 & _ & H2 & _).
  exists m1, k. split; [exact H1|exact H2].
Defined.
