(* ===== verification/Elf.v ===== *)
(** * Executable files (elf.h)

    The fields of the headers that the boot loader and [exec] use, read from bytes. *)

From S2P Require Import Prelude.

Definition ELF_MAGIC : Z := 1179403647.
Definition ELF_PROG_LOAD : Z := 1.

(** Little-endian numbers. *)
Definition le16 (get : Z -> Z) (a : Z) : Z := get a + 256 * get (a + 1).
Definition le32 (get : Z -> Z) (a : Z) : Z :=
  get a + 256 * get (a + 1) + 65536 * get (a + 2) + 16777216 * get (a + 3).

Record elfhdr : Type := mkElfhdr { e_magic : Z; e_entry : Z; e_phoff : Z; e_phnum : Z }.
Definition sizeof_elfhdr : Z := 52.
Definition get_elfhdr (get : Z -> Z) (a : Z) : elfhdr :=
  mkElfhdr (le32 get a) (le32 get (a + 24)) (le32 get (a + 28)) (le16 get (a + 44)).

Record proghdr : Type := mkProghdr {
  ph_type : Z; ph_off : Z; ph_vaddr : Z; ph_paddr : Z; ph_filesz : Z; ph_memsz : Z }.
Definition sizeof_proghdr : Z := 32.
Definition get_proghdr (get : Z -> Z) (a : Z) : proghdr :=
  mkProghdr (le32 get a) (le32 get (a + 4)) (le32 get (a + 8)) (le32 get (a + 12)) (le32 get (a + 16)) (le32 get (a + 20)).

Lemma le32_range get a : (forall x, 0 <= get x < 256) -> 0 <= le32 get a < 4294967296.
Proof. intros H. unfold le32. pose proof (H a). pose proof (H (a + 1)). pose proof (H (a + 2)). pose proof (H (a + 3)). lia. Qed.

Lemma le16_range get a : (forall x, 0 <= get x < 256) -> 0 <= le16 get a < 65536.
Proof. intros H. unfold le16. pose proof (H a). pose proof (H (a + 1)). lia. Qed.

Lemma le32_ext get get' a a' : (forall k, 0 <= k < 4 -> get (a + k) = get' (a' + k)) -> le32 get a = le32 get' a'.
Proof.
  intros H. unfold le32. pose proof (H 0 ltac:(lia)) as H0. rewrite !Z.add_0_r in H0. rewrite H0, !H by lia. done.
Qed.

Lemma le16_ext get get' a a' : (forall k, 0 <= k < 2 -> get (a + k) = get' (a' + k)) -> le16 get a = le16 get' a'.
Proof. intros H. unfold le16. pose proof (H 0 ltac:(lia)) as H0. rewrite !Z.add_0_r in H0. by rewrite H0, H by lia. Qed.

(** Headers in equal bytes are equal. *)
Lemma elfhdr_ext get get' a a' :
  (forall k, 0 <= k < sizeof_elfhdr -> get (a + k) = get' (a' + k)) -> get_elfhdr get a = get_elfhdr get' a'.
Proof.
  intros H. unfold get_elfhdr. f_equal; [apply le32_ext|apply le32_ext|apply le32_ext|apply le16_ext];
    intros k Hk; rewrite <- ?Z.add_assoc; apply H; unfold sizeof_elfhdr; lia.
Qed.

Lemma proghdr_ext get get' a a' :
  (forall k, 0 <= k < sizeof_proghdr -> get (a + k) = get' (a' + k)) -> get_proghdr get a = get_proghdr get' a'.
Proof.
  intros H. unfold get_proghdr. f_equal; apply le32_ext; intros k Hk; rewrite <- ?Z.add_assoc; apply H; unfold sizeof_proghdr; lia.
Qed.
