(* ===== verification/Boot.v ===== *)
(** * The boot loader (bootmain.c)

    Memory is a function from addresses to bytes.  The disk is behind the controller of
    Ata.v: the kernel image starts at sector 1 of disk 0. *)

From stdpp Require Import gmap sorting.
From S2P Require Import Prelude Outcome Kernel Machine Sleeplock Ata Elf.
Local Open Scope Z_scope.
Local Open Scope list_scope.

Definition SECTSIZE : Z := 512.

Record boot {A : Ata} : Type := mkBoot { bt_mem : Z -> Z; bt_ata : ata }.
#[export] Instance eta_boot {A : Ata} : Settable boot := fun r => mkBoot A (bt_mem r) (bt_ata r).

Section Boot.
Context {fl : Fuel} {A : Ata}.

Definition boot_out (port v : Z) : M boot unit := modify (fun b => b <| bt_ata ::= ata_outb port (u8 v) |>).

Fixpoint waitdisk_loop (n : nat) : M boot unit :=
  r ← gets (fun b => ata_status (bt_ata b));
  modify (fun b => b <| bt_ata := r.2 |>);;
  if negb (Z.land r.1 192 =? 64) then match n with O => spin | S n => waitdisk_loop n end else ret tt.
Definition waitdisk : M boot unit := waitdisk_loop fuel.

(** [insl(0x1F0, dst, SECTSIZE/4)] *)
Definition boot_insl (dst : Z) : M boot unit :=
  r ← gets (fun b => ata_insl (bt_ata b));
  modify (fun b => b <| bt_ata := r.2 |>);;
  modify (fun b => b <| bt_mem ::= fun mem a =>
    if (dst <=? a) && (a <? dst + SECTSIZE) then nth (Z.to_nat (a - dst)) r.1 0 else mem a |>).

Definition readsect (dst offset : Z) : M boot unit :=
  waitdisk;;
  boot_out 498 1;;
  boot_out 499 offset;;
  boot_out 500 (Z.shiftr offset 8);;
  boot_out 501 (Z.shiftr offset 16);;
  boot_out 502 (Z.lor (Z.shiftr offset 24) 224);;
  boot_out 503 32;;
  waitdisk;;
  boot_insl dst.

(** [for(; pa < epa; pa += SECTSIZE, offset++)] *)
Fixpoint readseg_loop (n : nat) (pa epa offset : Z) : M boot unit :=
  if pa <? epa then
    match n with
    | O => spin
    | S n => readsect pa offset;; readseg_loop n (u32 (pa + SECTSIZE)) epa (u32 (offset + 1))
    end
  else ret tt.

Definition readseg (pa count offset : Z) : M boot unit :=
  let epa := u32 (pa + count) in
  let pa := u32 (pa - offset mod SECTSIZE) in
  let offset := u32 (offset / SECTSIZE + 1) in
  readseg_loop (Z.to_nat (count / SECTSIZE + 2)) pa epa offset.

(** [stosb(addr, 0, cnt)] *)
Definition stosb0 (addr cnt : Z) : M boot unit :=
  modify (fun b => b <| bt_mem ::= fun mem a => if (addr <=? a) && (a <? addr + cnt) then 0 else mem a |>).

Definition elf_addr : Z := 65536.

(** The entry point that is called, or [None] when the loader returns. *)
Definition bootmain : M boot (option Z) :=
  readseg elf_addr 4096 0;;
  elf ← gets (fun b => get_elfhdr (bt_mem b) elf_addr);
  if negb (e_magic elf =? ELF_MAGIC) then ret None else
  foreach (zrange 0 (e_phnum elf)) (fun i =>
    ph ← gets (fun b => get_proghdr (bt_mem b) (u32 (elf_addr + e_phoff elf) + i * sizeof_proghdr));
    readseg (ph_paddr ph) (ph_filesz ph) (ph_off ph);;
    when (ph_filesz ph <? ph_memsz ph)
      (stosb0 (u32 (ph_paddr ph + ph_filesz ph)) (u32 (ph_memsz ph - ph_filesz ph))));;
  entry ← gets (fun b => e_entry (get_elfhdr (bt_mem b) elf_addr));
  ret (Some entry).
End Boot.

(** ** Reading sectors *)

Section Read.
Context {fl : Fuel} {A : Ata} {law : AtaLaws A} (Hfuel : (ata_delay <= fuel)%nat).

Lemma waitdisk_loop_ok n b :
  (exists k, (k <= n)%nat /\ ready (ata_status (polled k (bt_ata b))).1 = true) ->
  exists a', waitdisk_loop n b = Ok tt (b <| bt_ata := a' |>) /\
    sector a' = sector (bt_ata b) /\ command_of a' = command_of (bt_ata b).
Proof.
  revert b. induction n as [|n IH]; intros b (k & Hk & Hr); cbn [waitdisk_loop]; mstep; mstep;
    change (Z.land (ata_status (bt_ata b)).1 192 =? 64) with (ready (ata_status (bt_ata b)).1).
  - assert (k = 0%nat) as -> by lia. simpl in Hr. rewrite Hr. cbn [negb]. eexists. split; [reflexivity|].
    by rewrite status_sector, status_command.
  - destruct (ready (ata_status (bt_ata b)).1) eqn:E; cbn [negb].
    + eexists. split; [reflexivity|]. by rewrite status_sector, status_command.
    + destruct k as [|k]; [simpl in Hr; congruence|]. set (b1 := b <| bt_ata := (ata_status (bt_ata b)).2 |>).
      destruct (IH b1) as (a' & H1 & H2 & H3); [exists k; split; [lia|done]|].
      exists a'. split; [done|]. unfold b1 in H2, H3. rsimpl in H2. rsimpl in H3. by rewrite H2, H3, status_sector, status_command.
Qed.

Lemma waitdisk_ok b :
  exists a', waitdisk b = Ok tt (b <| bt_ata := a' |>) /\
    sector a' = sector (bt_ata b) /\ command_of a' = command_of (bt_ata b).
Proof. destruct (ata_ready (bt_ata b)) as (k & Hk & Hr). apply waitdisk_loop_ok. exists k. split; [lia|done]. Qed.

Lemma boot_out_ok port v a b : boot_out port v (b <| bt_ata := a |>) = Ok tt (b <| bt_ata := ata_outb port (u8 v) a |>).
Proof. done. Qed.

(** The address registers. *)
Lemma boot_address o :
  0 <= o < 268435456 ->
  let d := u8 (Z.lor (Z.shiftr o 24) 224) in
  0 <= d < 256 /\ Z.testbit d 6 = true /\ dev_of d = 0 /\
  lba_of (u8 o) (u8 (Z.shiftr o 8)) (u8 (Z.shiftr o 16)) d = o.
Proof.
  intros Ho. rewrite !Z.shiftr_div_pow2 by lia. change (2 ^ 8) with 256. change (2 ^ 16) with 65536. change (2 ^ 24) with 16777216.
  assert (Hh : 0 <= o / 16777216 < 16) by (Z.div_mod_to_equations; lia). remember (o / 16777216) as h eqn:Eh.
  assert (Hd : forallb (fun h => (0 <=? u8 (Z.lor h 224)) && (u8 (Z.lor h 224) <? 256) && Z.testbit (u8 (Z.lor h 224)) 6 &&
    (dev_of (u8 (Z.lor h 224)) =? 0) && (u8 (Z.lor h 224) mod 16 =? h)) (zrange 0 16) = true) by (vm_compute; reflexivity).
  rewrite forallb_forall in Hd. specialize (Hd h ltac:(apply list_elem_of_In, elem_of_zrange; lia)).
  repeat (apply andb_true_iff in Hd as [Hd ?]). split; [lia|]. split; [done|]. split; [lia|].
  unfold lba_of. replace (u8 (Z.lor h 224) mod 16) with h by lia. unfold u8. Z.div_mod_to_equations. lia.
Qed.

(** The bytes of a sector at [dst]. *)
Definition put_sector (dst : Z) (data : list Z) (mem : Z -> Z) : Z -> Z :=
  fun a => if (dst <=? a) && (a <? dst + SECTSIZE) then nth (Z.to_nat (a - dst)) data 0 else mem a.

Lemma readsect_ok dst o b :
  0 <= o < 268435456 ->
  exists a', readsect dst o b = Ok tt (mkBoot A (put_sector dst (sector (bt_ata b) 0 o) (bt_mem b)) a') /\ sector a' = sector (bt_ata b).
Proof.
  intros Ho. unfold readsect. destruct (waitdisk_ok b) as (a1 & H1 & Hs1 & _). mstep with H1. do 6 mstep with (boot_out_ok _ _ _ b).
  destruct (boot_address o Ho) as (Hd & H6 & Hdev & Hlba). change (u8 1) with 1. change (u8 32) with 32.
  pose proof (issue_read (u8 o) (u8 (Z.shiftr o 8)) (u8 (Z.shiftr o 16)) (u8 (Z.lor (Z.shiftr o 24) 224)) a1 Hd H6) as Hcmd.
  rewrite Hdev, Hlba in Hcmd. unfold issue in Hcmd. set (a2 := ata_outb 503 32 _) in *.
  assert (Hs2 : sector a2 = sector (bt_ata b)) by (unfold a2; by rewrite !outb_sector).
  set (b2 := b <| bt_ata := a2 |>). destruct (waitdisk_ok b2) as (a3 & H3 & Hs3 & Hc3). mstep with H3.
  change (bt_ata b2) with a2 in Hs3, Hc3. rewrite Hcmd in Hc3. destruct (insl_sector a3 0 o Hc3) as [Hdata Hs4].
  unfold boot_insl. mstep. mstep. rsimpl. exists (ata_insl a3).2. rewrite Hs4, Hs3, Hs2. split; [|done].
  unfold modify. f_equal. unfold put_sector. rewrite <- Hs2, <- Hs3, <- Hdata. done.
Qed.

(** Memory after the sectors from [o] on have been read to [pa] up to [epa]. *)
Definition put_sectors (pa epa o : Z) (sec : Z -> list Z) (mem mem' : Z -> Z) : Prop :=
  forall a, mem' a = if (pa <=? a) && (a <? pa + SECTSIZE * ((epa - pa + 511) / SECTSIZE))
                     then nth (Z.to_nat ((a - pa) mod SECTSIZE)) (sec (o + (a - pa) / SECTSIZE)) 0 else mem a.

Lemma put_sectors_none pa epa o sec mem : epa <= pa -> put_sectors pa epa o sec mem mem.
Proof.
  intros H a. destruct (Z.leb_spec pa a), (Z.ltb_spec a (pa + SECTSIZE * ((epa - pa + 511) / SECTSIZE))); try done.
  unfold SECTSIZE in *. Z.div_mod_to_equations. lia.
Qed.

Lemma put_sectors_step pa epa o sec mem mem' :
  pa < epa -> put_sectors (pa + SECTSIZE) epa (o + 1) sec (put_sector pa (sec o) mem) mem' -> put_sectors pa epa o sec mem mem'.
Proof.
  intros Hlt H a. rewrite (H a). unfold put_sector, SECTSIZE.
  replace (epa - (pa + 512) + 511) with (epa - pa + 511 + (-1) * 512) by lia. rewrite Z.div_add by lia.
  assert (Hn : 1 <= (epa - pa + 511) / 512) by (Z.div_mod_to_equations; lia).
  destruct (Z.leb_spec (pa + 512) a), (Z.leb_spec pa a), (Z.ltb_spec a (pa + 512)),
    (Z.ltb_spec a (pa + 512 + 512 * ((epa - pa + 511) / 512 + -1))), (Z.ltb_spec a (pa + 512 * ((epa - pa + 511) / 512)));
    simpl; try lia; try done.
  - replace (a - (pa + 512)) with (a - pa + (-1) * 512) by lia. rewrite Z.mod_add, Z.div_add by lia. f_equal. f_equal. lia.
  - rewrite Z.mod_small, Z.div_small by lia. by rewrite Z.add_0_r.
Qed.

Lemma readseg_loop_ok n pa epa o b :
  0 <= pa -> epa + 512 < 4294967296 -> 0 <= o -> o + Z.of_nat n <= 268435456 -> epa - pa <= 512 * Z.of_nat n ->
  exists mem' a', readseg_loop n pa epa o b = Ok tt (mkBoot A mem' a') /\ sector a' = sector (bt_ata b) /\
    put_sectors pa epa o (sector (bt_ata b) 0) (bt_mem b) mem'.
Proof.
  revert pa o b. induction n as [|n IH]; intros pa o b Hpa Hepa Ho Hon Hn.
  - cbn [readseg_loop]. rewrite (proj2 (Z.ltb_ge _ _)) by lia. exists (bt_mem b), (bt_ata b). split; [by destruct b|].
    split; [done|]. apply put_sectors_none. lia.
  - cbn [readseg_loop]. destruct (Z.ltb_spec pa epa) as [Hlt|Hge].
    + destruct (readsect_ok pa o b) as (a1 & H1 & Hs1); [lia|]. mstep with H1. rewrite !u32_id by (unfold SECTSIZE; lia).
      set (b1 := mkBoot A _ a1). destruct (IH (pa + SECTSIZE) (o + 1) b1) as (mem' & a' & H2 & Hs2 & Hp); try (unfold SECTSIZE; lia).
      exists mem', a'. split; [done|]. change (bt_ata b1) with a1 in *. rewrite Hs1 in *. split; [done|].
      by apply put_sectors_step.
    + exists (bt_mem b), (bt_ata b). split; [by destruct b|]. split; [done|]. apply put_sectors_none. lia.
Qed.

(** The bytes of the kernel image, which starts at sector 1. *)
Definition image (sec : Z -> list Z) (k : Z) : Z := nth (Z.to_nat (k mod SECTSIZE)) (sec (k / SECTSIZE + 1)) 0.

(** The addresses that [readseg] writes. *)
Definition seg_start (pa o : Z) : Z := pa - o mod SECTSIZE.
Definition seg_end (pa count o : Z) : Z :=
  seg_start pa o + SECTSIZE * ((pa + count - seg_start pa o + 511) / SECTSIZE).

Lemma readseg_ok pa count o b :
  0 <= seg_start pa o -> 0 <= count -> pa + count + 512 < 4294967296 -> 0 <= o -> o + count < 100000000000 ->
  exists mem' a', readseg pa count o b = Ok tt (mkBoot A mem' a') /\ sector a' = sector (bt_ata b) /\
    forall a, mem' a = if (seg_start pa o <=? a) && (a <? seg_end pa count o)
                       then image (sector (bt_ata b) 0) (o + (a - pa)) else bt_mem b a.
Proof.
  intros Hpa Hc Hend Ho Hoc. unfold readseg. unfold seg_start in Hpa. pose proof (Z.mod_pos_bound o 512 ltac:(lia)) as Hm.
  unfold SECTSIZE in Hpa.
  rewrite (u32_id (pa + count)), (u32_id (pa - _)), (u32_id (o / _ + 1)) by (unfold SECTSIZE; Z.div_mod_to_equations; lia).
  destruct (readseg_loop_ok (Z.to_nat (count / SECTSIZE + 2)) (pa - o mod SECTSIZE) (pa + count) (o / SECTSIZE + 1) b)
    as (mem' & a' & H1 & Hs & Hp); [unfold SECTSIZE; Z.div_mod_to_equations; lia..|].
  exists mem', a'. split_and!; [done|done|]. intros a. rewrite (Hp a). unfold seg_end, seg_start, image.
  destruct (_ && _); [|done]. unfold SECTSIZE. replace (a - (pa - o mod 512)) with (o + (a - pa) + (- (o / 512)) * 512)
    by (pose proof (Z.div_mod o 512 ltac:(lia)); lia).
  rewrite Z.mod_add, Z.div_add by lia. f_equal. f_equal. lia.
Qed.
End Read.

(** ** Loading the kernel *)

(** The end of a segment in memory. *)
Definition ph_end (ph : proghdr) : Z := ph_paddr ph + Z.max (ph_filesz ph) (ph_memsz ph).

(** A segment that lies above the scratch page and below the end of memory. *)
Definition ph_ok (ph : proghdr) : Prop :=
  69632 <= seg_start (ph_paddr ph) (ph_off ph) /\ ph_end ph + 512 < 4294967296 /\
  0 <= ph_filesz ph /\ 0 <= ph_memsz ph /\ 0 <= ph_off ph /\ ph_off ph + ph_filesz ph < 100000000000.

(** The segment is in memory: its bytes, and zeroes up to its size. *)
Definition loaded (img mem : Z -> Z) (ph : proghdr) : Prop :=
  (forall k, 0 <= k < ph_filesz ph -> mem (ph_paddr ph + k) = img (ph_off ph + k)) /\
  (forall k, ph_filesz ph <= k < ph_memsz ph -> mem (ph_paddr ph + k) = 0).

(** The order that the comment of [readseg] relies on: what is read for a segment,
    rounded down to a sector, starts after the segments before it. *)
Definition before (ph ph' : proghdr) : Prop := ph_end ph <= seg_start (ph_paddr ph') (ph_off ph').

Section Load.
Context {fl : Fuel} {A : Ata} {law : AtaLaws A} (Hfuel : (ata_delay <= fuel)%nat).

Definition load_segment (ph : proghdr) : M boot unit :=
  readseg (ph_paddr ph) (ph_filesz ph) (ph_off ph);;
  when (ph_filesz ph <? ph_memsz ph)
    (stosb0 (u32 (ph_paddr ph + ph_filesz ph)) (u32 (ph_memsz ph - ph_filesz ph))).

Lemma seg_end_covers pa count o a : pa <= a < pa + count -> 0 <= o -> seg_start pa o <= a < seg_end pa count o.
Proof.
  intros Ha Ho. unfold seg_end, seg_start, SECTSIZE. pose proof (Z.mod_pos_bound o 512 ltac:(lia)). Z.div_mod_to_equations. lia.
Qed.

Lemma load_segment_ok ph b :
  ph_ok ph ->
  exists mem' a', load_segment ph b = Ok tt (mkBoot A mem' a') /\ sector a' = sector (bt_ata b) /\
    loaded (image (sector (bt_ata b) 0)) mem' ph /\
    forall a, a < seg_start (ph_paddr ph) (ph_off ph) -> mem' a = bt_mem b a.
Proof.
  intros (Hs & He & Hf & Hm & Ho & Hoc). unfold ph_end in He. unfold load_segment.
  destruct (readseg_ok Hfuel (ph_paddr ph) (ph_filesz ph) (ph_off ph) b) as (mem1 & a1 & H1 & Hs1 & Hmem); [lia..|]. mstep with H1.
  assert (Hpa : seg_start (ph_paddr ph) (ph_off ph) <= ph_paddr ph)
    by (unfold seg_start, SECTSIZE; pose proof (Z.mod_pos_bound (ph_off ph) 512 ltac:(lia)); lia).
  assert (Hbytes : forall k, 0 <= k < ph_filesz ph -> mem1 (ph_paddr ph + k) = image (sector (bt_ata b) 0) (ph_off ph + k)).
  { intros k Hk. rewrite Hmem. destruct (seg_end_covers (ph_paddr ph) (ph_filesz ph) (ph_off ph) (ph_paddr ph + k)) as [H2 H3]; [lia|lia|].
    rewrite (proj2 (Z.leb_le _ _)), (proj2 (Z.ltb_lt _ _)) by done. simpl. f_equal. lia. }
  assert (Hlow : forall a, a < seg_start (ph_paddr ph) (ph_off ph) -> mem1 a = bt_mem b a).
  { intros a Ha. rewrite Hmem. by rewrite (proj2 (Z.leb_gt _ _)) by lia. }
  destruct (Z.ltb_spec (ph_filesz ph) (ph_memsz ph)) as [Hlt|Hge]; cbn [when].
  - unfold stosb0, modify. rewrite !u32_id by lia. eexists _, _. split; [reflexivity|]. split; [done|]. rsimpl. split.
    + split; intros k Hk.
      * rewrite (proj2 (Z.leb_gt _ _)) by lia. by apply Hbytes.
      * by rewrite (proj2 (Z.leb_le _ _)), (proj2 (Z.ltb_lt _ _)) by lia.
    + intros a Ha. rewrite (proj2 (Z.leb_gt _ _)) by lia. by apply Hlow.
  - exists mem1, a1. split_and!; [done|done| |done]. split; [done|]. intros k Hk. lia.
Qed.

(** A segment that ends below the changes stays loaded. *)
Lemma loaded_below img mem mem' ph lim :
  loaded img mem ph -> ph_end ph <= lim -> (forall a, a < lim -> mem' a = mem a) -> loaded img mem' ph.
Proof.
  intros [H1 H2] Hl Hm. unfold ph_end in Hl. split; intros k Hk; rewrite Hm by lia; [by apply H1|by apply H2].
Qed.

Lemma load_all_ok (hdr : Z -> proghdr) (read : Z -> boot -> proghdr) is0 done0 b :
  (forall i b', i ∈ is0 -> (forall a, a < 69632 -> bt_mem b' a = bt_mem b a) -> read i b' = hdr i) ->
  (forall i, i ∈ is0 -> ph_ok (hdr i)) ->
  StronglySorted before (map hdr (done0 ++ is0)) ->
  (forall i, i ∈ done0 -> loaded (image (sector (bt_ata b) 0)) (bt_mem b) (hdr i)) ->
  exists mem' a', foreach is0 (fun i => ph ← gets (read i); load_segment ph) b = Ok tt (mkBoot A mem' a') /\
    sector a' = sector (bt_ata b) /\ (forall a, a < 69632 -> mem' a = bt_mem b a) /\
    forall i, i ∈ done0 ++ is0 -> loaded (image (sector (bt_ata b) 0)) mem' (hdr i).
Proof.
  revert done0 b. induction is0 as [|i is0 IH]; intros done0 b Hrd Hok Hsort Hd.
  { exists (bt_mem b), (bt_ata b). rewrite app_nil_r in *. split; [by destruct b|]. by split_and!. }
  cbn [foreach]. assert (Hph : ph_ok (hdr i)) by (apply Hok; set_solver).
  destruct (load_segment_ok (hdr i) b Hph) as (mem1 & a1 & H1 & Hs1 & Hl1 & Hm1). set (b1 := mkBoot A mem1 a1).
  assert (Hstep : (ph ← gets (read i); load_segment ph) b = Ok tt b1).
  { mstep. rewrite (Hrd i b) by (done || set_solver). exact H1. }
  rewrite (bind_ok _ _ _ _ _ Hstep). pose proof Hph as (Hlow & _).
  assert (Hkeep : forall a, a < 69632 -> mem1 a = bt_mem b a) by (intros a Ha; apply Hm1; lia).
  replace (done0 ++ i :: is0) with ((done0 ++ [i]) ++ is0) in * by (by rewrite <- app_assoc).
  destruct (IH (done0 ++ [i]) b1) as (mem' & a' & H2 & Hs2 & Hm2 & Hl2).
  - intros j b' Hj Hb'. apply Hrd; [set_solver|]. intros a Ha. rewrite Hb' by done. by apply Hkeep.
  - intros j Hj. apply Hok. set_solver.
  - done.
  - intros j Hj. change (bt_ata b1) with a1. rewrite Hs1. apply elem_of_app in Hj as [Hj|Hj]; [|by apply list_elem_of_singleton in Hj as ->].
    apply (loaded_below _ (bt_mem b) _ _ (seg_start (ph_paddr (hdr i)) (ph_off (hdr i)))); [by apply Hd| |done].
    apply (StronglySorted_app_1_elem_of before (map hdr done0) (map hdr (i :: is0))).
    + rewrite <- app_assoc in Hsort. by rewrite map_app in Hsort.
    + apply list_elem_of_fmap. by exists j.
    + by left.
  - exists mem', a'. change (bt_ata b1) with a1 in *. rewrite Hs1 in *. split_and!; [done|done| |done].
    intros a Ha. rewrite Hm2 by done. by apply Hkeep.
Qed.
End Load.


(** A kernel of two bytes and two zeroes, at one megabyte. *)
Definition sparse (l : list (Z * Z)) : list Z :=
  map (fun k => match List.find (fun e => e.1 =? k) l with Some e => e.2 | None => 0 end) (zrange 0 512).
Definition kernel_demo : Z -> list Z := fun n =>
  if n =? 1 then sparse [(0, 127); (1, 69); (2, 76); (3, 70); (24, 12); (26, 16); (28, 52); (44, 1);
                         (52, 1); (56, 88); (57, 2); (66, 16); (68, 2); (72, 4)]
  else if n =? 2 then sparse [(88, 7); (89, 9)] else [].
Definition boot_demo : @boot regs_ata := mkBoot regs_ata (fun _ => 255) (mkRegs (fun _ => 0) None (fun _ => kernel_demo)).

