(* ===== verification/Mp.v ===== *)
(** * Finding the processors (mp.c, mp.h)

    The BIOS describes the machine in memory: a floating structure points to a
    configuration table, whose entries [mpinit] walks.  Structures are read from the
    bytes of memory. *)

From stdpp Require Import gmap.
From S2P Require Import Prelude Outcome Kernel Spinlock Machine Apic Elf.
Local Open Scope Z_scope.
Local Open Scope list_scope.

Definition P2V (a : Z) : Z := u32 (a + KERNBASE).

Definition sizeof_mp : Z := 16.
Definition sizeof_mpconf : Z := 44.
Definition sizeof_mpproc : Z := 20.
Definition sizeof_mpioapic : Z := 8.

(** struct mp *)
Definition mp_physaddr (mem : Z -> Z) (p : Z) : Z := le32 mem (p + 4).
Definition mp_imcrp (mem : Z -> Z) (p : Z) : Z := mem (p + 12).
(** struct mpconf *)
Definition conf_length (mem : Z -> Z) (p : Z) : Z := le16 mem (p + 4).
Definition conf_version (mem : Z -> Z) (p : Z) : Z := mem (p + 6).
Definition conf_lapicaddr (mem : Z -> Z) (p : Z) : Z := le32 mem (p + 36).

Definition MPPROC : Z := 0.
Definition MPBUS : Z := 1.
Definition MPIOAPIC : Z := 2.
Definition MPIOINTR : Z := 3.
Definition MPLINTR : Z := 4.

(** The bytes from [a] on. *)
Definition bytes_from (mem : Z -> Z) (a n : Z) : list Z := map (fun k => mem (a + k)) (zrange 0 n).

Definition sum (mem : Z -> Z) (addr len : Z) : Z := u8 (fold_left Z.add (bytes_from mem addr len) 0).

(** "_MP_" and "PCMP" *)
Definition mp_signature : list Z := bytes "_MP_".
Definition conf_signature : list Z := bytes "PCMP".

Fixpoint mpsearch1_loop (n : nat) (mem : Z -> Z) (p e : Z) : option Z :=
  match n with
  | O => None
  | S n =>
    if p <? e then
      if bool_decide (bytes_from mem p 4 = mp_signature) && (sum mem p sizeof_mp =? 0) then Some p
      else mpsearch1_loop n mem (p + sizeof_mp) e
    else None
  end.

(** The loop makes at most [len / 16 + 1] turns. *)
Definition mpsearch1 (mem : Z -> Z) (a len : Z) : option Z :=
  let addr := P2V a in
  mpsearch1_loop (Z.to_nat (len / sizeof_mp + 1)) mem addr (addr + len).

Definition mpsearch (mem : Z -> Z) : option Z :=
  let bda := P2V 1024 in
  let p := Z.shiftl (Z.lor (Z.shiftl (mem (bda + 15)) 8) (mem (bda + 14))) 4 in
  let rest := mpsearch1 mem 983040 65536 in
  if negb (p =? 0) then
    match mpsearch1 mem p 1024 with Some mp => Some mp | None => rest end
  else
    let p := Z.lor (Z.shiftl (mem (bda + 20)) 8) (mem (bda + 19)) * 1024 in
    match mpsearch1 mem (p - 1024) 1024 with Some mp => Some mp | None => rest end.

(** The configuration table and the floating structure. *)
Definition mpconfig (mem : Z -> Z) : option (Z * Z) :=
  match mpsearch mem with
  | None => None
  | Some mp =>
    if mp_physaddr mem mp =? 0 then None else
    let conf := P2V (mp_physaddr mem mp) in
    if negb (bool_decide (bytes_from mem conf 4 = conf_signature)) then None else
    if negb (conf_version mem conf =? 1) && negb (conf_version mem conf =? 4) then None else
    if negb (sum mem conf (conf_length mem conf) =? 0) then None else
    Some (conf, mp)
  end.

Section Mp.
Context {A : Ata}.

(** [cpus[ncpu].apicid = proc->apicid; ncpu++] *)
Definition add_cpu (apicid : Z) (h : hw) : hw :=
  if (hw_ncpu h <? NCPU)%nat
  then h <| hw_cpus ::= alter (fun c => c <| c_apicid := apicid |>) (hw_ncpu h) |> <| hw_ncpu ::= S |>
  else h.

(** The loop over the entries.  The [break] of the [default] case leaves the [switch], not
    the loop. *)
Fixpoint mpinit_loop (n : nat) (p e : Z) (ismp : bool) : M mach bool :=
  if p <? e then
    match n with
    | O => spin
    | S n =>
      mem ← gets (fun m => k_mem (m_k m));
      if mem p =? MPPROC then
        modify (fun m => m <| m_k ::= set k_hw (add_cpu (mem (p + 1))) |>);;
        mpinit_loop n (p + sizeof_mpproc) e ismp
      else if mem p =? MPIOAPIC then
        modify (fun m => m <| m_ioapicid := mem (p + 1) |>);;
        mpinit_loop n (p + sizeof_mpioapic) e ismp
      else if (mem p =? MPBUS) || (mem p =? MPIOINTR) || (mem p =? MPLINTR) then mpinit_loop n (p + 8) e ismp
      else mpinit_loop n p e false
    end
  else ret ismp.

(** [in23] is what [inb(0x23)] returns; [n] bounds the loop. *)
Definition mpinit (n : nat) (in23 : Z) : M mach unit :=
  mem ← gets (fun m => k_mem (m_k m));
  match mpconfig mem with
  | None => panic "Expect to run on an SMP"
  | Some (conf, mp) =>
    modify (fun m => m <| m_lapic := negb (conf_lapicaddr mem conf =? 0) |>);;
    ismp ← mpinit_loop n (conf + sizeof_mpconf) (conf + conf_length mem conf) true;
    if negb ismp then panic "Didn't find a suitable machine" else
    when (negb (mp_imcrp mem mp =? 0))
      (outb 34 112;;
       outb 35 (Z.lor in23 1))
  end.
End Mp.

(** ** The entries of the table *)

Inductive entry : Type := Processor (apicid : Z) | IoApic (id : Z) | Other (kind : Z).

Definition entry_size (x : entry) : Z := match x with Processor _ => 20 | _ => 8 end.
Definition entry_at (mem : Z -> Z) (p : Z) (x : entry) : Prop :=
  match x with
  | Processor id => mem p = MPPROC /\ mem (p + 1) = id
  | IoApic id => mem p = MPIOAPIC /\ mem (p + 1) = id
  | Other kind => mem p = kind /\ kind ∈ [MPBUS; MPIOINTR; MPLINTR]
  end.
(** The entries [l] lie from [p] to [q]. *)
Fixpoint entries (mem : Z -> Z) (p q : Z) (l : list entry) : Prop :=
  match l with
  | [] => p = q
  | x :: l => entry_at mem p x /\ entries mem (p + entry_size x) q l
  end.

Definition processors (l : list entry) : list Z := omap (fun x => match x with Processor id => Some id | _ => None end) l.
(** The last I/O APIC, or the one known before. *)
Definition ioapic_of (l : list entry) (id0 : Z) : Z :=
  fold_left (fun id x => match x with IoApic id => id | _ => id end) l id0.
Definition add_cpus (ids : list Z) (h : hw) : hw := fold_left (fun h id => add_cpu id h) ids h.

Section Table.
Context {A : Ata}.

(** The machine after the entries. *)
Definition described (l : list entry) (m : mach) : mach :=
  m <| m_k ::= set k_hw (add_cpus (processors l)) |> <| m_ioapicid ::= ioapic_of l |>.

Lemma entries_le mem p q l : entries mem p q l -> p <= q.
Proof.
  revert p. induction l as [|x l IH]; intros p; simpl; [lia|]. intros [_ H]. apply IH in H. destruct x; simpl in H; lia.
Qed.

Lemma described_cons x l m :
  described (x :: l) m = described l (described [x] m).
Proof. by destruct x. Qed.

(** The walk over well-formed entries. *)
Lemma mpinit_loop_entries n p q e l ismp m :
  entries (k_mem (m_k m)) p q l -> q <= e ->
  mpinit_loop (length l + n) p e ismp m = mpinit_loop n q e ismp (described l m).
Proof.
  revert p m. induction l as [|x l IH]; intros p m.
  { intros -> _. by destruct m as [[]]. }
  cbn [entries length]. intros [Hx Hl] Hq. pose proof (entries_le _ _ _ _ Hl) as Hle.
  assert (Hlt : p < e) by (destruct x; simpl in Hle; lia). rewrite described_cons.
  cbn [Nat.add mpinit_loop]. rewrite (proj2 (Z.ltb_lt _ _) Hlt). rewrite bind_gets.
  destruct x as [id|id|kind]; cbn [entry_at entry_size] in *.
  - destruct Hx as [-> ->]. rewrite Z.eqb_refl, bind_modify. by apply IH.
  - destruct Hx as [-> ->]. change (MPIOAPIC =? MPPROC) with false. rewrite Z.eqb_refl, bind_modify.
    replace (m <| m_ioapicid := id |>) with (described [IoApic id] m) by (by destruct m as [[]]). by apply IH.
  - destruct Hx as [-> Hk]. assert (E : mpinit_loop (length l + n) (p + 8) e ismp m =
      mpinit_loop n q e ismp (described l (described [Other kind] m))) by (rewrite (IH (p + 8) m Hl Hq); by destruct m as [[]]).
    rewrite !elem_of_cons in Hk. destruct Hk as [->|[->|[->|Hk]]]; [exact E..|]. by apply not_elem_of_nil in Hk.
Qed.

(** The walk with too little fuel. *)
Lemma mpinit_loop_short n p q e l ismp m :
  entries (k_mem (m_k m)) p q l -> q <= e -> (n < length l)%nat -> mpinit_loop n p e ismp m = Spin.
Proof.
  intros Hl Hq Hn. rewrite <- (take_drop n l) in Hl.
  assert (Hsplit : forall l1 l2 p, entries (k_mem (m_k m)) p q (l1 ++ l2) ->
    exists r, entries (k_mem (m_k m)) p r l1 /\ entries (k_mem (m_k m)) r q l2).
  { induction l1 as [|x l1 IH]; intros l2 p0; [by exists p0|]. intros [Hx H]. destruct (IH _ _ H) as (r & H1 & H2). by exists r. }
  destruct (Hsplit _ _ _ Hl) as (r & H1 & H2). replace n with (length (take n l) + 0)%nat by (rewrite length_take; lia).
  destruct (drop n l) as [|x l2] eqn:E; [apply (f_equal length) in E; rewrite length_drop in E; simpl in E; lia|].
  destruct H2 as [_ H2]. apply entries_le in H2. assert (r < e) by (destruct x; simpl in H2; lia).
  rewrite (mpinit_loop_entries 0 p r e (take n l)) by (done || lia). cbn [mpinit_loop]. by rewrite (proj2 (Z.ltb_lt _ _)).
Qed.
End Table.

(** ** The processors *)

Lemma add_cpus_spec ids h :
  length (hw_cpus h) = NCPU -> (hw_ncpu h <= NCPU)%nat ->
  let h' := add_cpus ids h in
  hw_ncpu h' = Nat.min NCPU (hw_ncpu h + length ids) /\ length (hw_cpus h') = NCPU /\
  map c_apicid (take (hw_ncpu h') (hw_cpus h')) =
    take NCPU (map c_apicid (take (hw_ncpu h) (hw_cpus h)) ++ ids).
Proof.
  revert h. induction ids as [|id ids IH]; intros h Hlen Hn; cbn [add_cpus fold_left].
  - rewrite Nat.add_0_r, app_nil_r. split; [lia|]. split; [done|]. symmetry. apply take_ge. rewrite length_map, length_take. lia.
  - change (fold_left _ ids (add_cpu id h)) with (add_cpus ids (add_cpu id h)). unfold add_cpu.
    destruct (Nat.ltb_spec (hw_ncpu h) NCPU) as [Hlt|Hge].
    + set (h1 := h <| hw_cpus ::= _ |> <| hw_ncpu ::= S |>).
      assert (Hlen1 : length (hw_cpus h1) = NCPU) by (unfold h1; rsimpl; rewrite length_alter; exact Hlen).
      destruct (IH h1 Hlen1) as (H1 & H2 & H3); [unfold h1; rsimpl; lia|]. change (hw_ncpu h1) with (S (hw_ncpu h)) in H1, H3.
      split; [cbn [length]; lia|]. split; [done|]. rewrite H3. f_equal.
      destruct (lookup_lt_is_Some_2 (hw_cpus h) (hw_ncpu h)) as [c Hc]; [lia|].
      unfold h1. rsimpl. erewrite take_S_r by (rewrite list_lookup_alter_eq, Hc; reflexivity).
      rewrite take_alter, decide_False by lia. by rewrite map_app, <- app_assoc.
    + destruct (IH h Hlen Hn) as (H1 & H2 & H3). split; [cbn [length]; lia|]. split; [done|]. rewrite H3.
      assert (Hfull : length (map c_apicid (take (hw_ncpu h) (hw_cpus h))) = NCPU) by (rewrite length_map, length_take; lia).
      by rewrite !take_app_le, !take_ge by lia.
Qed.

(** The search of [mycpu] among distinct processors. *)
Lemma cpu_index_nth k cs i id :
  NoDup (map c_apicid cs) -> map c_apicid cs !! i = Some id -> HW.cpu_index k cs id = Some (k + i)%nat.
Proof.
  revert k i. induction cs as [|c cs IH]; intros k i Hnd Hi; [done|]. apply NoDup_cons in Hnd as [Hc Hnd].
  cbn [HW.cpu_index]. destruct i as [|i]; simpl in Hi.
  - injection Hi as <-. by rewrite Z.eqb_refl, Nat.add_0_r.
  - assert (Hne : c_apicid c <> id) by (intros E; apply Hc; rewrite E; by apply list_elem_of_lookup_2 in Hi).
    rewrite (proj2 (Z.eqb_neq _ _) Hne), (IH (S k) i) by done. f_equal. lia.
Qed.

(** C35. [mpinit] finds the processors.  On a table of well-formed entries it returns, with
    at most NCPU processors in the order of the table, so that on the processor with the
    [i]-th APIC id [mycpu] finds the [i]-th entry of [cpus]; and with the id of the last
    I/O APIC. *)
Theorem mpinit_finds_processors {A : Ata} n in23 conf mp l (m : mach) :
  mpconfig (k_mem (m_k m)) = Some (conf, mp) ->
  entries (k_mem (m_k m)) (conf + sizeof_mpconf) (conf + conf_length (k_mem (m_k m)) conf) l -> (length l <= n)%nat ->
  length (hw_cpus (k_hw (m_k m))) = NCPU -> hw_ncpu (k_hw (m_k m)) = 0%nat -> NoDup (processors l) ->
  exists m', mpinit n in23 m = Ok tt m' /\ m_ioapicid m' = ioapic_of l (m_ioapicid m) /\
    hw_ncpu (k_hw (m_k m')) = Nat.min NCPU (length (processors l)) /\
    forall i id, (i < NCPU)%nat -> processors l !! i = Some id ->
      HW.mycpu ((k_hw (m_k m')) <| hw_lapicid := id |> <| hw_if := false |>) =
      Ok i ((k_hw (m_k m')) <| hw_lapicid := id |> <| hw_if := false |>).
Proof.
  intros Hconf Hl Hn Hlen H0 Hnd. unfold mpinit. rewrite bind_gets, Hconf, bind_modify. set (m1 := m <| m_lapic := _ |>).
  replace n with (length l + (n - length l))%nat by lia.
  assert (Hloop : mpinit_loop (length l + (n - length l)) (conf + sizeof_mpconf) (conf + conf_length (k_mem (m_k m)) conf) true m1 =
    Ok true (described l m1)).
  { rewrite (mpinit_loop_entries _ _ _ _ l) by (done || lia). destruct (n - length l)%nat; cbn [mpinit_loop]; by rewrite Z.ltb_irrefl. }
  rewrite (bind_ok _ _ _ _ _ Hloop). cbn [negb].
  destruct (add_cpus_spec (processors l) (k_hw (m_k m)) Hlen) as (Hc & _ & Ht); [lia|].
  rewrite H0 in Hc, Ht. change (take 0 _) with (@nil cpu) in Ht. cbn [map app Nat.add] in Hc, Ht.
  set (h' := add_cpus (processors l) (k_hw (m_k m))) in *.
  assert (Hcpu : forall i id, (i < NCPU)%nat -> processors l !! i = Some id ->
    HW.mycpu (h' <| hw_lapicid := id |> <| hw_if := false |>) = Ok i (h' <| hw_lapicid := id |> <| hw_if := false |>)).
  { intros i id Hi Hid. unfold HW.mycpu. msteps. rsimpl. cbn iota. msteps. rsimpl.
    rewrite (cpu_index_nth 0 _ i id); [done| |].
    - rewrite Ht. rewrite <- (take_drop NCPU (processors l)) in Hnd. by apply NoDup_app in Hnd as [Hnd _].
    - rewrite Ht. by rewrite lookup_take_lt. }
  destruct (negb (mp_imcrp _ mp =? 0)); cbn [when]; eexists; (split; [reflexivity|]); by split_and!.
Qed.

(** An entry of unknown kind hangs the machine: the [break] of the [default] case leaves
    only the [switch], the pointer does not move, and [mpinit] loops forever instead of
    reporting that it did not find a suitable machine. *)
Theorem mpinit_hangs_on_unknown_entry {A : Ata} n in23 conf mp p l (m : mach) :
  mpconfig (k_mem (m_k m)) = Some (conf, mp) ->
  entries (k_mem (m_k m)) (conf + sizeof_mpconf) p l -> p < conf + conf_length (k_mem (m_k m)) conf ->
  k_mem (m_k m) p ∉ [MPPROC; MPBUS; MPIOAPIC; MPIOINTR; MPLINTR] ->
  mpinit n in23 m = Spin.
Proof.
  intros Hconf Hl Hp Hk. unfold mpinit. rewrite bind_gets, Hconf, bind_modify. set (m1 := m <| m_lapic := _ |>).
  set (e := conf + conf_length _ conf) in *. apply bind_spin.
  assert (Hhang : forall k b m2, k_mem (m_k m2) = k_mem (m_k m) -> mpinit_loop k p e b m2 = Spin).
  { induction k as [|k IH]; intros b m2 Em; cbn [mpinit_loop]; rewrite (proj2 (Z.ltb_lt _ _) Hp); [done|].
    rewrite bind_gets, Em. rewrite !not_elem_of_cons in Hk. destruct Hk as (H1 & H2 & H3 & H4 & H5 & _).
    rewrite !(proj2 (Z.eqb_neq _ _)) by done. by apply IH. }
  destruct (decide (length l <= n)%nat) as [Hn|Hn].
  - replace n with (length l + (n - length l))%nat by lia. rewrite (mpinit_loop_entries _ _ p _ l) by (done || lia). by apply Hhang.
  - apply (mpinit_loop_short n _ p _ l); (done || lia).
Qed.

(** A machine with two processors; the table is followed by a byte that is no entry. *)
Definition mp_memory (len : Z) (cs : Z) : Z -> Z := fun a =>
  match List.find (fun e => e.1 =? a - KERNBASE)
    [(* the floating structure at 0xF0000 *)
     (983040, 95); (983041, 77); (983042, 80); (983043, 95); (983044, 0); (983045, 2); (983050, 163);
     (* the table at 512 *)
     (512, 80); (513, 67); (514, 77); (515, 80); (516, len); (518, 4); (519, cs); (548, 1);
     (556, 0); (557, 5); (576, 0); (577, 3); (596, 2); (597, 9); (604, 99)] with
  | Some e => e.2
  | None => 0
  end.
Definition mp_demo (len cs : Z) : @mach no_disk :=
  mkMach no_disk (bss <| k_mem := mp_memory len cs |> <| k_hw ::= set hw_ncpu (fun _ => 0%nat) |>)
    0 (fun _ => 0) 0 false (fun _ => 0) [] tt None (fun _ => None) 0.

Lemma mpinit_finds_processors_witness :
  exists m', mpinit 9 0 (mp_demo 92 92) = Ok tt m' /\ m_ioapicid m' = 9 /\ hw_ncpu (k_hw (m_k m')) = 2%nat.
Proof.
  destruct (mpinit_finds_processors 9 0 (KERNBASE + 512) (KERNBASE + 983040) [Processor 5; Processor 3; IoApic 9] (mp_demo 92 92))
    as (m' & H1 & H2 & H3 & _).
  - vm_compute. reflexivity.
  - vm_compute. repeat (split; try reflexivity).
  - simpl. lia.
  - reflexivity.
  - reflexivity.
  - apply (bool_decide_unpack _). vm_compute. exact I.
  - exists m'. split; [exact H1|]. split; [exact H2|exact H3].
Defined.

Lemma mpinit_hangs_on_unknown_entry_witness : mpinit 1000 0 (mp_demo 93 248) = Spin.
Proof.
  apply (mpinit_hangs_on_unknown_entry 1000 0 (KERNBASE + 512) (KERNBASE + 983040) (KERNBASE + 604)
    [Processor 5; Processor 3; IoApic 9] (mp_demo 93 248)).
  - vm_compute. reflexivity.
  - vm_compute. repeat (split; try reflexivity).
  - vm_compute. reflexivity.
  - change (k_mem (m_k (mp_demo 93 248)) (KERNBASE + 604)) with 99. unfold MPPROC, MPBUS, MPIOAPIC, MPIOINTR, MPLINTR. set_solver.
Defined.
