(* ===== verification/Exec.v ===== *)
(** * exec (exec.c)

    [exec] replaces the image of the calling process: it loads the segments of an ELF
    file into a new address space, puts the arguments on a new stack, and only then
    switches to the new image.  The functions of vm.c are parameters. *)

From stdpp Require Import gmap.
From S2P Require Import Prelude Outcome Kernel Spinlock Kalloc Proc Cprintf Sleeplock Bio Log Txn Inode Alloc Fs Life Elf.
Local Open Scope Z_scope.
Local Open Scope list_scope.

Definition MAXARG : nat := 32.

Class ExecVM : Type := {
  loaduvm : Z -> Z -> nat -> Z -> Z -> K Z;
  clearpteu : Z -> Z -> K unit;
  copyout : Z -> Z -> list Z -> K Z }.

(** A 32-bit word in memory. *)
Definition word (v : Z) : list Z := [v mod 256; v / 256 mod 256; v / 65536 mod 256; v / 16777216 mod 256].

Section Exec.
Context {vm : VM} {xv : ExecVM} {st : Startup} {fl : Fuel} {dsk : Disk} {dsw : Devsw}.

(** The bytes that [readi] stored into a structure. *)
Definition field (bs : list Z) (k : Z) : Z := nth (Z.to_nat k) bs 0.

(** The loop over the program headers: [None] is [goto bad]. *)
Fixpoint exec_load (n : nat) (ip : nat) (pgdir off sz : Z) : K (option Z) :=
  match n with
  | O => ret (Some sz)
  | S n =>
    ' (r, bs) ← readi ip off sizeof_proghdr;
    if negb (r =? sizeof_proghdr) then ret None else
    let ph := get_proghdr (field bs) 0 in
    let off := i32 (off + sizeof_proghdr) in
    if negb (ph_type ph =? ELF_PROG_LOAD) then exec_load n ip pgdir off sz else
    if ph_memsz ph <? ph_filesz ph then ret None else
    if u32 (ph_vaddr ph + ph_memsz ph) <? ph_vaddr ph then ret None else
    sz ← allocuvm pgdir sz (u32 (ph_vaddr ph + ph_memsz ph));
    if sz =? 0 then ret None else
    if negb (ph_vaddr ph mod PGSIZE =? 0) then ret None else
    r ← loaduvm pgdir (ph_vaddr ph) ip (ph_off ph) (ph_filesz ph);
    if r <? 0 then ret None else
    exec_load n ip pgdir off sz
  end.

(** [bad:] *)
Definition exec_bad (pgdir : Z) (ip : option nat) : K Z :=
  when (negb (pgdir =? 0)) (freevm pgdir);;
  (match ip with None => ret tt | Some ip => iunlockput ip;; end_op end);;
  ret (-1).

(** Up to [ip = 0]: the new address space, its size and the ELF header, or the value
    [exec] returns. *)
Definition exec_image (path : list Z) : K (Z + Z * Z * elfhdr) :=
  begin_op;;
  ip ← namei path;
  match ip with
  | None =>
    end_op;;
    cprintf (bytes "exec: fail" ++ [10]) [];;
    ret (inl (-1))
  | Some ip =>
    ilock (Some ip);;
    ' (r, bs) ← readi ip 0 sizeof_elfhdr;
    if negb (r =? sizeof_elfhdr) then r ← exec_bad 0 (Some ip); ret (inl r) else
    let elf := get_elfhdr (field bs) 0 in
    if negb (e_magic elf =? ELF_MAGIC) then r ← exec_bad 0 (Some ip); ret (inl r) else
    pgdir ← setupkvm;
    if pgdir =? 0 then r ← exec_bad 0 (Some ip); ret (inl r) else
    sz ← exec_load (Z.to_nat (e_phnum elf)) ip pgdir (i32 (e_phoff elf)) 0;
    match sz with
    | None => r ← exec_bad pgdir (Some ip); ret (inl r)
    | Some sz =>
      iunlockput ip;;
      end_op;;
      ret (inr (pgdir, sz, elf))
    end
  end.

(** Push argument strings: the stack pointer and the pointers to the strings. *)
Fixpoint exec_args (pgdir : Z) (argv : list (list Z)) (argc : nat) (sp : Z) (ustack : list Z) : K (option (Z * list Z)) :=
  match argv with
  | [] => ret (Some (sp, ustack))
  | arg :: argv =>
    if (MAXARG <=? argc)%nat then ret None else
    let str := cstr arg ++ [0] in
    let sp := Z.land (u32 (sp - Z.of_nat (length str))) (Z.lnot 3) in
    r ← copyout pgdir sp str;
    if r <? 0 then ret None else
    exec_args pgdir argv (S argc) sp (ustack ++ [sp])
  end.

(** The stack: its size and the stack pointer. *)
Definition exec_stack (pgdir sz : Z) (argv : list (list Z)) : K (option (Z * Z)) :=
  let sz := PGROUNDUP sz in
  sz ← allocuvm pgdir sz (u32 (sz + 2 * PGSIZE));
  if sz =? 0 then ret None else
  clearpteu pgdir (u32 (sz - 2 * PGSIZE));;
  args ← exec_args pgdir argv 0 sz [];
  match args with
  | None => ret None
  | Some (sp, ptrs) =>
    let argc := Z.of_nat (length argv) in
    let ustack := [4294967295; argc; u32 (sp - (argc + 1) * 4)] ++ ptrs ++ [0] in
    let sp := u32 (sp - (3 + argc + 1) * 4) in
    r ← copyout pgdir sp (concat (map word ustack));
    if r <? 0 then ret None else ret (Some (sz, sp))
  end.

(** Program name: what follows the last slash. *)
Fixpoint last_element (s last : list Z) : list Z :=
  match s with
  | [] => last
  | c :: s => last_element s (if c =? slash then s else last)
  end.

Definition exec (path : list Z) (argv : list (list Z)) : K Z :=
  cur ← myproc;
  img ← exec_image path;
  match img with
  | inl r => ret r
  | inr (pgdir, sz, elf) =>
    stk ← exec_stack pgdir sz argv;
    match stk with
    | None => exec_bad pgdir None
    | Some (sz, sp) =>
      cur ← deref cur;
      proc_upd cur (fun x => x <| p_name ::= fun name => safestrcpy name (last_element (cstr path) (cstr path)) sizeof_name |>);;
      x ← proc_get cur;
      let oldpgdir := p_pgdir x in
      proc_upd cur (fun x => x <| p_pgdir := pgdir |> <| p_sz := sz |>
                               <| p_trapframe ::= fun tf => tf <| tf_eip := e_entry elf |> <| tf_esp := sp |> |>);;
      switchuvm cur;;
      freevm oldpgdir;;
      ret 0
    end
  end.
End Exec.

(** ** What vm.c promises *)

(** The byte a process reads at a user address, if it may.  [copyout] writes to mapped
    pages that the process may access, [clearpteu] takes one away, [allocuvm] maps
    zeroed pages. *)
Record user_memory {vm : VM} {xv : ExecVM} (umem : kstate -> Z -> Z -> option Z) : Prop := {
  um_alloc d old new s s' : allocuvm d old new s = Ok new s' -> old mod PGSIZE = 0 ->
    k_procs s' = k_procs s /\ (forall a, old <= a < new -> is_Some (umem s' d a)) /\ (forall a, a < old -> umem s' d a = umem s d a);
  um_clear d va s : exists s', clearpteu d va s = Ok tt s' /\ k_procs s' = k_procs s /\
    forall a, umem s' d a = if (va <=? a) && (a <? va + PGSIZE) then None else umem s d a;
  um_copyout d va bs s : (forall k, (k < length bs)%nat -> is_Some (umem s d (va + Z.of_nat k))) ->
    exists s', copyout d va bs s = Ok 0 s' /\ k_procs s' = k_procs s /\
      forall a, umem s' d a = if (va <=? a) && (a <? va + Z.of_nat (length bs)) then Some (nth (Z.to_nat (a - va)) bs 0) else umem s d a;
  um_procs ps s : umem (with_procs ps s) = umem s;
  um_switch p s : exists s', switchuvm p s = Ok tt s' /\ k_procs s' = k_procs s /\ umem s' = umem s;
  um_free d s : exists s', freevm d s = Ok tt s' /\ k_procs s' = k_procs s /\ forall d', d' <> d -> umem s' d' = umem s d' }.

Definition bytes_at (mem : Z -> option Z) (a : Z) (bs : list Z) : Prop :=
  forall k c, bs !! k = Some c -> mem (a + Z.of_nat k) = Some c.

Lemma bytes_at_app mem a u v : bytes_at mem a (u ++ v) -> bytes_at mem a u /\ bytes_at mem (a + Z.of_nat (length u)) v.
Proof.
  intros H. split; intros k c Hk.
  - apply H. by apply lookup_app_l_Some.
  - rewrite <- Z.add_assoc, <- Nat2Z.inj_add. apply H. rewrite lookup_app_r by lia. by replace (length u + k - length u)%nat with k by lia.
Qed.

(** The words of an array. *)
Lemma words_at mem a ws i w :
  bytes_at mem a (concat (map word ws)) -> ws !! i = Some w -> bytes_at mem (a + 4 * Z.of_nat i) (word w).
Proof.
  revert a i. induction ws as [|w0 ws IH]; intros a i H Hi; [done|]. cbn [map concat] in H. apply bytes_at_app in H as [H1 H2].
  destruct i as [|i]; simpl in Hi.
  - injection Hi as ->. by rewrite Z.add_0_r.
  - change (Z.of_nat (length (word w0))) with 4 in H2. apply (IH _ i) in H2; [|done]. by replace (a + 4 * Z.of_nat (S i)) with (a + 4 + 4 * Z.of_nat i) by lia.
Qed.

(** The room a string takes on the stack. *)
Definition arg_size (arg : list Z) : Z := 4 * ((Z.of_nat (length (cstr arg ++ [0])) + 3) / 4).
Definition args_size (argv : list (list Z)) : Z := fold_right (fun arg n => arg_size arg + n) 0 argv.

Lemma arg_size_bounds arg : Z.of_nat (length (cstr arg ++ [0])) <= arg_size arg.
Proof. unfold arg_size. Z.div_mod_to_equations. lia. Qed.

Lemma args_size_nonneg argv : 0 <= args_size argv.
Proof. induction argv as [|arg argv IH]; simpl; [lia|]. pose proof (arg_size_bounds arg). lia. Qed.

Lemma align_down v : 0 <= v < 4294967296 -> Z.land v (Z.lnot 3) = 4 * (v / 4).
Proof.
  intros Hv. rewrite <- Z.ldiff_land. change 3 with (Z.ones 2). rewrite Z.ldiff_ones_r, Z.shiftr_div_pow2, Z.shiftl_mul_pow2 by lia.
  change (2 ^ 2) with 4. lia.
Qed.

Lemma push_aligned sp arg :
  sp mod 4 = 0 -> arg_size arg <= sp < 4294967296 ->
  Z.land (u32 (sp - Z.of_nat (length (cstr arg ++ [0])))) (Z.lnot 3) = sp - arg_size arg /\ (sp - arg_size arg) mod 4 = 0.
Proof.
  intros Ha Hs. pose proof (arg_size_bounds arg). set (n := Z.of_nat _) in *. assert (0 <= n) by (unfold n; lia).
  rewrite u32_id, align_down by lia. unfold arg_size in *. fold n in Hs, H |- *. Z.div_mod_to_equations. lia.
Qed.

Section Stack.
Context {vm : VM} {xv : ExecVM} {umem : kstate -> Z -> Z -> option Z} (um : user_memory umem).

(** Accessible memory. *)
Definition accessible (s : kstate) (d lo hi : Z) : Prop := forall a, lo <= a < hi -> is_Some (umem s d a).

Lemma copyout_ok d va bs s lo hi :
  accessible s d lo hi -> lo <= va -> va + Z.of_nat (length bs) <= hi ->
  exists s', copyout d va bs s = Ok 0 s' /\ k_procs s' = k_procs s /\ accessible s' d lo hi /\
    bytes_at (umem s' d) va bs /\ forall a, a < va \/ va + Z.of_nat (length bs) <= a -> umem s' d a = umem s d a.
Proof.
  intros Hac Hlo Hhi. destruct (um_copyout umem um d va bs s) as (s' & H1 & H2 & H3); [intros k Hk; apply Hac; lia|].
  exists s'. split_and!; [done|done| | |].
  - intros a Ha. rewrite H3. destruct (_ && _); [done|]. by apply Hac.
  - intros k c Hk. pose proof (lookup_lt_Some _ _ _ Hk). rewrite H3, (proj2 (Z.leb_le _ _)), (proj2 (Z.ltb_lt _ _)) by lia. simpl.
    replace (va + Z.of_nat k - va) with (Z.of_nat k) by lia. rewrite Nat2Z.id. by rewrite (nth_lookup_Some _ _ _ _ Hk).
  - intros a Ha. rewrite H3. destruct (Z.leb_spec va a), (Z.ltb_spec a (va + Z.of_nat (length bs))); simpl; (done || lia).
Qed.

(** The strings are on the stack, each at its pointer. *)
Definition strings_at (mem : Z -> option Z) (lo hi : Z) (ptrs : list Z) (argv : list (list Z)) : Prop :=
  Forall2 (fun q arg => lo <= q /\ q + Z.of_nat (length (cstr arg ++ [0])) <= hi /\ bytes_at mem q (cstr arg ++ [0])) ptrs argv.

Lemma bytes_at_same mem mem' a bs : (forall x, a <= x < a + Z.of_nat (length bs) -> mem' x = mem x) -> bytes_at mem a bs -> bytes_at mem' a bs.
Proof. intros H Hb k c Hk. pose proof (lookup_lt_Some _ _ _ Hk). rewrite H by lia. by apply Hb. Qed.

Lemma strings_at_same mem mem' lo hi ptrs argv :
  (forall a, lo <= a < hi -> mem' a = mem a) -> strings_at mem lo hi ptrs argv -> strings_at mem' lo hi ptrs argv.
Proof.
  intros H Hs. eapply Forall2_impl; [exact Hs|]. intros q arg (H1 & H2 & H3). split_and!; [done|done|].
  eapply bytes_at_same; [|done]. intros x Hx. apply H. lia.
Qed.

Lemma exec_args_ok d argv argc sp ptrs lo s :
  accessible s d lo sp -> sp mod 4 = 0 -> 0 <= lo -> sp < 4294967296 -> args_size argv <= sp - lo ->
  (argc + length argv <= MAXARG)%nat ->
  exists ptrs' s', exec_args d argv argc sp ptrs s = Ok (Some (sp - args_size argv, ptrs ++ ptrs')) s' /\
    k_procs s' = k_procs s /\ (sp - args_size argv) mod 4 = 0 /\ accessible s' d lo sp /\
    strings_at (umem s' d) (sp - args_size argv) sp ptrs' argv /\
    (forall a, sp <= a \/ a < sp - args_size argv -> umem s' d a = umem s d a).
Proof.
  revert argc sp ptrs s. induction argv as [|arg argv IH]; intros argc sp ptrs s Hac Hal Hlo Hsp Hsz Hn.
  { exists [], s. simpl. rewrite Z.sub_0_r, app_nil_r. split_and!; try done. constructor. }
  cbn [exec_args args_size fold_right length] in *. fold (args_size argv) in *. pose proof (args_size_nonneg argv) as Hpos.
  rewrite (proj2 (Nat.leb_gt _ _)) by lia. cbv zeta. pose proof (arg_size_bounds arg) as Hb.
  destruct (push_aligned sp arg Hal) as [-> Hal1]; [lia|]. set (sp1 := sp - arg_size arg) in *.
  destruct (copyout_ok d sp1 (cstr arg ++ [0]) s lo sp Hac) as (s1 & H1 & Hp1 & Hac1 & Hb1 & Hsame1); [unfold sp1; lia..|].
  rewrite (bind_ok _ _ _ _ _ H1). change (0 <? 0) with false. cbn iota.
  destruct (IH (S argc) sp1 (ptrs ++ [sp1]) s1) as (ptrs' & s2 & H2 & Hp2 & Hal2 & Hac2 & Hst & Hsame2); try (done || unfold sp1; lia).
  { intros a Ha. apply Hac1. unfold sp1 in Ha. lia. }
  exists (sp1 :: ptrs'), s2. rewrite H2, <- app_assoc. replace (sp - (arg_size arg + args_size argv)) with (sp1 - args_size argv) by (unfold sp1; lia).
  split_and!; [done|congruence|done| | |].
  - intros a Ha. destruct (decide (a < sp1)) as [Hlt|Hge]; [apply Hac2; lia|]. rewrite Hsame2 by lia. by apply Hac1.
  - constructor.
    + split_and!; [lia|unfold sp1; lia|]. eapply bytes_at_same; [|exact Hb1]. intros x Hx. apply Hsame2. lia.
    + eapply Forall2_impl; [exact Hst|]. intros q a0 (Ha & Hb' & Hc). split_and!; [done|unfold sp1 in *; lia|done].
  - intros a Ha. rewrite Hsame2 by (unfold sp1; lia). apply Hsame1. unfold sp1 in *. lia.
Qed.

(** The stack page [main] starts on: a return address no code has, [argc], [argv], the
    array [argv] points to with its null pointer, and the strings. *)
Definition main_stack (mem : Z -> option Z) (sp hi : Z) (argv : list (list Z)) : Prop :=
  exists ptrs, bytes_at mem sp (word 4294967295) /\ bytes_at mem (sp + 4) (word (Z.of_nat (length argv))) /\
    bytes_at mem (sp + 8) (word (sp + 12)) /\
    (forall i q, (ptrs ++ [0]) !! i = Some q -> bytes_at mem (sp + 12 + 4 * Z.of_nat i) (word q)) /\
    strings_at mem (sp + 16 + 4 * Z.of_nat (length argv)) hi ptrs argv.

Lemma main_stack_words mem sp hi argv ptrs :
  bytes_at mem sp (concat (map word ([4294967295; Z.of_nat (length argv); sp + 12] ++ ptrs ++ [0]))) ->
  strings_at mem (sp + 16 + 4 * Z.of_nat (length argv)) hi ptrs argv -> main_stack mem sp hi argv.
Proof.
  intros Hb Hs. exists ptrs. set (ws := [_; _; _]) in Hb.
  assert (Hw : forall i w, (ws ++ ptrs ++ [0]) !! i = Some w -> bytes_at mem (sp + 4 * Z.of_nat i) (word w)) by (intros i w Hi; by apply (words_at mem sp (ws ++ ptrs ++ [0]))).
  split_and!; [|exact (Hw 1%nat _ eq_refl)|exact (Hw 2%nat _ eq_refl)| |done].
  - rewrite <- (Z.add_0_r sp). exact (Hw 0%nat _ eq_refl).
  - intros i q Hi. replace (sp + 12 + 4 * Z.of_nat i) with (sp + 4 * Z.of_nat (3 + i)) by lia. apply Hw. rewrite lookup_app_r by (simpl; lia).
    by replace (3 + i - length ws)%nat with i by (simpl; lia).
Qed.

Lemma words_length ws : length (concat (map word ws)) = (4 * length ws)%nat.
Proof. induction ws as [|w ws IH]; [done|]. cbn [map concat]. rewrite length_app, IH. simpl. lia. Qed.

(** How far the stack pointer moves. *)
Definition stack_size (argv : list (list Z)) : Z := args_size argv + (4 + Z.of_nat (length argv)) * 4.

Lemma exec_stack_ok d sz argv s s0 :
  let sz' := PGROUNDUP sz + 2 * PGSIZE in
  0 <= PGROUNDUP sz -> PGROUNDUP sz mod PGSIZE = 0 -> sz' < 4294967296 ->
  allocuvm d (PGROUNDUP sz) sz' s = Ok sz' s0 -> (length argv <= MAXARG)%nat -> stack_size argv <= PGSIZE ->
  exists s', exec_stack d sz argv s = Ok (Some (sz', sz' - stack_size argv)) s' /\ k_procs s' = k_procs s /\
    (sz' - stack_size argv) mod 4 = 0 /\ main_stack (umem s' d) (sz' - stack_size argv) sz' argv /\
    (forall a, sz' - PGSIZE <= a < sz' -> is_Some (umem s' d a)) /\
    (forall a, PGROUNDUP sz <= a < PGROUNDUP sz + PGSIZE -> umem s' d a = None) /\
    (forall a, a < PGROUNDUP sz -> umem s' d a = umem s d a).
Proof.
  intros sz' Hnn Hal Hmax Hall Hn Hfit. unfold exec_stack. set (lo := PGROUNDUP sz) in *. cbv zeta.
  change PGSIZE with 4096 in *. unfold stack_size in *. pose proof (args_size_nonneg argv).
  rewrite (u32_id (lo + 2 * 4096)) by (unfold sz' in *; lia). change (lo + 2 * 4096) with sz'. rewrite (bind_ok _ _ _ _ _ Hall).
  rewrite (proj2 (Z.eqb_neq _ _)) by (unfold sz'; lia). destruct (um_alloc umem um _ _ _ _ _ Hall Hal) as (Hp0 & Hac0 & Hlow0).
  rewrite u32_id by (unfold sz' in *; lia). replace (sz' - 2 * 4096) with lo by (unfold sz'; lia).
  destruct (um_clear umem um d lo s0) as (s1 & H1 & Hp1 & Hm1). rewrite (bind_ok _ _ _ _ _ H1). change PGSIZE with 4096 in Hm1.
  assert (Hac1 : accessible s1 d (sz' - 4096) sz').
  { intros a Ha. rewrite Hm1, (proj2 (Z.ltb_ge _ _)), andb_false_r by (unfold sz' in Ha; lia). apply Hac0. unfold sz' in *; lia. }
  assert (Hsz4 : sz' mod 4 = 0) by (unfold sz'; clear - Hal; Z.div_mod_to_equations; lia).
  destruct (exec_args_ok d argv 0 sz' [] (sz' - 4096) s1) as (ptrs & s2 & H2 & Hp2 & Hal2 & Hac2 & Hst2 & Hm2); try (done || unfold sz' in *; lia).
  rewrite (bind_ok _ _ _ _ _ H2). cbn [app]. set (top := sz' - args_size argv) in *. set (n := Z.of_nat (length argv)) in *.
  rewrite !(u32_id (top - _)) by (unfold top, n, sz' in *; lia).
  set (sp := top - (3 + n + 1) * 4). replace (top - (n + 1) * 4) with (sp + 12) by (unfold sp; lia).
  set (ws := 4294967295 :: _). pose proof (Forall2_length _ _ _ Hst2) as Hlen.
  assert (Hwl : Z.of_nat (length (concat (map word ws))) = (4 + n) * 4) by (rewrite words_length; unfold ws, n; simpl; rewrite length_app; simpl; lia).
  destruct (copyout_ok d sp (concat (map word ws)) s2 (sz' - 4096) sz' Hac2) as (s3 & H3 & Hp3 & Hac3 & Hb3 & Hm3); [unfold sp, top, n in *; lia..|].
  rewrite (bind_ok _ _ _ _ _ H3). change (0 <? 0) with false. cbn iota.
  assert (Hout : forall a, a < sz' - 4096 -> umem s3 d a = umem s1 d a) by (intros a Ha; rewrite Hm3, Hm2 by (unfold sp, top in *; lia); done).
  exists s3. replace (sz' - (args_size argv + (4 + n) * 4)) with sp by (unfold sp, top; lia). split_and!; try done.
  - congruence.
  - unfold sp. clear - Hal2. Z.div_mod_to_equations; lia.
  - apply (main_stack_words _ _ _ _ ptrs); [exact Hb3|]. fold n. replace (sp + 16 + 4 * n) with top by (unfold sp; lia).
    eapply strings_at_same; [|exact Hst2]. intros a Ha. apply Hm3. unfold sp in *. lia.
  - intros a Ha. rewrite Hout, Hm1, (proj2 (Z.leb_le _ _)), (proj2 (Z.ltb_lt _ _)) by (unfold sz'; lia). done.
  - intros a Ha. rewrite Hout, Hm1, (proj2 (Z.leb_gt _ _)) by (unfold sz'; lia). simpl. by apply Hlow0.
Qed.
End Stack.

Section Commit.
Context {vm : VM} {xv : ExecVM} {st : Startup} {fl : Fuel} {dsk : Disk} {dsw : Devsw}.
Context {umem : kstate -> Z -> Z -> option Z}.

End Commit.

(** ** A program of one segment *)

(** An address space in [k_mem]: an odd number is a byte without access, an even one twice
    the byte. *)
Definition exec_vm : VM := {|
  allocuvm := fun _ old new => modify (fun s => s <| k_mem ::= fun m a => if (old <=? a) && (a <? new) then 0 else m a |>);; ret new;
  deallocuvm := fun _ _ new => ret new; copyuvm := fun pgdir _ => ret pgdir; freevm := fun _ => ret tt;
  switchuvm := fun _ => ret tt; switchkvm := ret tt |}.
Definition exec_xv : ExecVM := {|
  loaduvm := fun _ _ _ _ _ => ret 0;
  clearpteu := fun _ va => modify (fun s => s <| k_mem ::= fun m a => if (va <=? a) && (a <? va + PGSIZE) then 1 else m a |>);
  copyout := fun _ va bs => modify (fun s => s <| k_mem ::= fun m a => if (va <=? a) && (a <? va + Z.of_nat (length bs)) then 2 * nth (Z.to_nat (a - va)) bs 0 else m a |>);; ret 0 |}.
Definition exec_umem (s : kstate) (d a : Z) : option Z := if Z.odd (k_mem s a) then None else Some (k_mem s a / 2).

(** The file [/] of the disk holds an ELF header and one program header. *)
Definition demo_elf : list Z :=
  [127; 69; 76; 70] ++ replicate 20 0 ++ word 0 ++ word 52 ++ replicate 12 0 ++ [1; 0] ++ replicate 6 0 ++
  word 1 ++ word 84 ++ word 0 ++ word 0 ++ word 16 ++ word 32 ++ replicate 8 0.
Definition elf_disk : disk :=
  mkDisk 100 (fun b => if b =? 32 then put_dinode 64 (mkInode 1 1 1 1 T_FILE 0 0 1 100 (60 :: replicate 12 0)) (replicate 512 0)
                       else if b =? 60 then demo_elf ++ replicate 428 0 else replicate 512 0) [].
Definition exec_demo : kstate :=
  let s0 := fs_demo <| k_disk := elf_disk |> <| k_log := log_demo |> <| k_sb := demo_sb |> in
  match binit s0 with Ok _ s => s0 <| k_bufs := k_bufs s |> <| k_slocks := k_slocks s |> | _ => s0 end.
Definition no_devices : Devsw := {| dev_read := fun _ => None; dev_write := fun _ => None |}.

Lemma exec_umem_laws : @user_memory exec_vm exec_xv exec_umem.
Proof.
  split.
  - intros d old new s s' H _. injection H as <-. split; [reflexivity|]. split; intros a Ha; unfold exec_umem, set; simpl.
    + rewrite (proj2 (Z.leb_le _ _)), (proj2 (Z.ltb_lt _ _)) by lia. by eexists.
    + by rewrite (proj2 (Z.leb_gt _ _)) by lia.
  - intros d va s. eexists. split; [reflexivity|]. split; [reflexivity|]. intros a. unfold exec_umem, set. simpl. by destruct (_ && _).
  - intros d va bs s _. eexists. split; [reflexivity|]. split; [reflexivity|]. intros a. unfold exec_umem, set. cbn [k_mem].
    destruct (_ && _); [|done]. by rewrite Z.odd_mul, (Z.mul_comm 2), Z.div_mul by done.
  - reflexivity.
  - intros p s. by exists s.
  - intros d s. by exists s.
Qed.

(** Running the loader on the example. *)
Lemma exec_demo_image :
  exists s1, @exec_image exec_vm exec_xv demo_startup 5%nat memide no_devices (bytes "/") exec_demo =
    Ok (inr (4096, 32, mkElfhdr ELF_MAGIC 0 52 1)) s1 /\ k_procs s1 !! 0%nat = Some fs_proc.
Proof.
  assert (H : match @exec_image exec_vm exec_xv demo_startup 5%nat memide no_devices (bytes "/") exec_demo with
              | Ok r s => (r, k_procs s !! 0%nat) = (inr (4096, 32, mkElfhdr ELF_MAGIC 0 52 1), Some fs_proc) | _ => False end)
    by (vm_compute; reflexivity).
  destruct (exec_image _ _) as [r s1| | | |]; try contradiction. injection H as -> Hp. by exists s1.
Qed.

