(* ===== verification/Content.v ===== *)
(** * The contents of files (fs.c: bmap, readi, writei, iupdate)

    What a file of the inode layer holds, seen through the buffer cache inside a
    transaction: the blocks that [bmap] finds or allocates, the bytes [writei] stores
    in them and [readi] returns, and the inode on the disk. *)

From stdpp Require Import gmap fin_sets.
From S2P Require Import Prelude Outcome Kernel Spinlock Kalloc Proc Cprintf Sleeplock Bio Log Txn Edit Inode Alloc Icache Fs.
Local Open Scope Z_scope.

Section Env.
Context {fl : Fuel} {dsk : Disk} {laws : DiskLaws dsk}.
Context {ci : nat} {c : cpu} {p : nat} {pr : proc}.
Local Abbreviation intxn := (intxn (ci := ci) (c := c) (p := p) (pr := pr)).
Local Abbreviation allocated := (allocated (ci := ci) (c := c) (p := p) (pr := pr)).

(** ** A transaction with an allowance

    The transaction has logged only blocks of [A], and the log and the cache have room
    for [A], for [k] blocks more and for two to spare; the map is the single block
    [mapb] of [A], and at least [n] blocks are free. *)
Definition mapb (s : kstate) : Z := sb_bmapstart (k_sb s).

Definition free_blocks (n : nat) (s : kstate) : Prop :=
  exists F : gset Z, (n <= size F)%nat /\ forall b, b ∈ F -> 0 <= b < sb_size (k_sb s) /\ used s b = false.

Record env (A : gset Z) (k n : nat) (H : list nat) (bl : list Z) (s : kstate) : Prop := {
  ev_txn : intxn H bl s;
  ev_map : map_ok H s;
  ev_one : sb_size (k_sb s) <= BPB;
  ev_zero : used s 0 = true;
  ev_nonempty : 0 < sb_size (k_sb s);
  ev_free : free_blocks n s;
  ev_in : forall b, b ∈ bl -> b ∈ A;
  ev_mapb : mapb s ∈ A;
  ev_log : Z.of_nat (size A + k) + 2 < l_size (k_log s);
  ev_buf : (size A + k + 3 <= NBUF)%nat;
  ev_held : (length H <= 1)%nat }.

Lemma free_blocks_le m n s : (m <= n)%nat -> free_blocks n s -> free_blocks m s.
Proof. intros Hle (F & H1 & H2). exists F. split; [lia|done]. Qed.

Lemma env_le A k k' n n' H bl s : (k' <= k)%nat -> (n' <= n)%nat -> env A k n H bl s -> env A k' n' H bl s.
Proof. intros Hk Hn []. split; try done; [by eapply free_blocks_le|lia|lia]. Qed.

Lemma env_add A k n b H bl s : env A (S k) n H bl s -> env ({[b]} ∪ A) k n H bl s.
Proof.
  intros []. pose proof (size_union_alt {[b]} A) as E. pose proof (subseteq_size (A ∖ {[b]}) A ltac:(set_solver)) as Hs.
  rewrite size_singleton in E. split; try done; [set_solver|set_solver|lia|lia].
Qed.

Lemma BBLOCK_one H b s : map_ok H s -> sb_size (k_sb s) <= BPB -> 0 <= b < sb_size (k_sb s) -> BBLOCK b (k_sb s) = mapb s.
Proof. intros Hm H1 Hb. rewrite (BBLOCK_eq H) by done. by rewrite Z.div_small by lia. Qed.

Lemma logged_within (A : gset Z) bl : NoDup bl -> (forall b, b ∈ bl -> b ∈ A) -> (length bl <= size A)%nat.
Proof.
  intros Hnd Hin. rewrite <- (size_list_to_set (C := gset Z) bl Hnd). apply subseteq_size. intros b Hb%elem_of_list_to_set. by apply Hin.
Qed.

Lemma env_length A k n H bl s : env A k n H bl s -> (length bl <= size A)%nat.
Proof. intros []. apply logged_within; [|done]. by eapply tx_dup, it_txn. Qed.

Lemma env_room A k n H bl s : env A k n H bl s -> room 2 H bl s.
Proof. intros He. pose proof (env_length _ _ _ _ _ _ He). destruct He. split; lia. Qed.

(** A step that changes no block of the map. *)
Lemma used_mapb s s' b :
  k_sb s' = k_sb s -> BBLOCK b (k_sb s) = mapb s -> view s' (mapb s) = view s (mapb s) -> used s' b = used s b.
Proof. intros Es Eb Hv. unfold used. by rewrite Es, Eb, Hv. Qed.

Lemma env_used A k n H bl s s' b :
  env A k n H bl s -> fs_frame s s' -> view s' (mapb s) = view s (mapb s) -> 0 <= b < sb_size (k_sb s) -> used s' b = used s b.
Proof. intros [] Hf Hv Hb. apply used_mapb; [by apply fs_frame_sb|by eapply BBLOCK_one|done]. Qed.

Lemma env_step A k n H bl H' bl' s s' :
  env A k n H bl s -> fs_frame s s' -> intxn H' bl' s' -> (forall b, b ∈ bl' -> b ∈ A) -> (length H' <= 1)%nat ->
  view s' (mapb s) = view s (mapb s) ->
  (forall b, b = mapb s \/ 0 <= b < sb_size (k_sb s) /\ used s b = false -> unheld H' b s') ->
  env A k n H' bl' s'.
Proof.
  intros He Hf Hi Hin Hlen Hv Hun. pose proof (fun b => env_used _ _ _ _ _ _ s' b He Hf Hv) as Hu.
  pose proof (fs_frame_sb _ _ Hf) as Es. pose proof (fs_frame_disk _ _ Hf) as Ed. pose proof Hf as (_ & _ & _ & [_ El] & _).
  pose proof (fun b => BBLOCK_one H b s (ev_map _ _ _ _ _ _ He) (ev_one _ _ _ _ _ _ He)) as Hone.
  destruct He as [E1 E2 E3 E4 E5 (F & F1 & F2) E7 E8 E9 E10 E11]. unfold mapb in *. split; rewrite ?Es, ?El; try done.
  - destruct E2 as [M1 M2 M3 M4]. split; rewrite ?Es, ?Ed; try done.
    + intros b Hb. destruct (M3 b Hb) as (G1 & G2 & G3 & G4). rewrite (fs_frame_area s s') by done. split_and!; [lia|lia|done| |].
      * rewrite Hone in * by done. by rewrite Hv.
      * rewrite Hone by done. apply Hun. by left.
    + intros b Hb Hu'. rewrite Hu in Hu' by done. destruct (M4 b Hb Hu') as (G1 & G2 & G3).
      rewrite (fs_frame_area s s') by done. split_and!; [done|by apply Hun; right|done].
  - rewrite Hu; [done|lia].
  - exists F. split; [done|]. intros b Hb. destruct (F2 b Hb) as [G1 G2]. rewrite Es. split; [done|]. by rewrite Hu.
  - unfold mapb. by rewrite Es.
Qed.

(** A block of a file system structure: marked, of full length, and no part of the map
    or the log. *)
Record owned (b : Z) (s : kstate) : Prop := {
  ow_data : data_block [] b s;
  ow_used : used s b = true;
  ow_len : length (view s b) = 512%nat }.

Lemma owned_mapb A k n H bl b s : env A k n H bl s -> owned b s -> b <> mapb s.
Proof.
  intros [] [(Hb & _ & _ & Hn) _ _] ->. apply (Hn 0 ltac:(lia)). apply (BBLOCK_one H 0 s ev_map0 ev_one0). lia.
Qed.

Lemma owned_range A k n H bl b s : env A k n H bl s -> owned b s -> 0 <= b < d_size (k_disk s).
Proof. intros [] [(Hb & _) _ _]. destruct (mo_size _ _ ev_map0). lia. Qed.

Lemma owned_step b s s' :
  fs_frame s s' -> used s' b = true -> length (view s' b) = 512%nat -> owned b s -> owned b s'.
Proof.
  intros Hf Hu Hl [(H1 & H2 & H3 & H4) _ _]. split; [|done|done]. pose proof (fs_frame_sb _ _ Hf) as Es.
  split_and!; rewrite ?Es; [lia|lia|by rewrite (fs_frame_area s s')| |done]. by intros i ?%not_elem_of_nil.
Qed.

(** Blocks that keep their contents. *)
Lemma owned_same A k n H bl b s s' :
  env A k n H bl s -> fs_frame s s' -> (forall b', view s' b' = view s b') -> owned b s -> owned b s'.
Proof.
  intros He Hf Hv Ho. destruct (Ho) as [(Hb & _) Hu Hl]. apply (owned_step b s); [done| |by rewrite Hv|done].
  rewrite (env_used A k n H bl s s') by done. done.
Qed.

Lemma bread_env A k n bl b s :
  env A k n [] bl s -> owned b s ->
  exists i s', bread 1 b s = Ok i s' /\ env A k n [i] bl s' /\ holds_block i b s' /\ settled i s' /\
    (forall b', view s' b' = view s b') /\ fs_frame s s'.
Proof.
  intros He Ho. pose proof (owned_range _ _ _ _ _ _ _ He Ho) as Hr. pose proof (owned_mapb _ _ _ _ _ _ _ He Ho) as Hm.
  pose proof (env_length _ _ _ _ _ _ He) as Hlen.
  destruct (bread_in [] bl b s (ev_txn _ _ _ _ _ _ He)) as (i & s1 & H1 & _ & Hi1 & Hb1 & Hs1 & _ & Hv1 & Hf1 & _).
  { split; [done|split; [by intros j ?%not_elem_of_nil|]]. right. pose proof (ev_buf _ _ _ _ _ _ He). cbn [length]. lia. }
  exists i, s1. split_and!; try done.
  eapply env_step; [exact He|exact Hf1|exact Hi1|apply He|simpl; lia|apply Hv1|].
  intros b' Hb' j ->%list_elem_of_singleton. destruct Hb1 as (x & Hx & Hbx & _). rewrite Hx. simpl. rewrite Hbx.
  destruct Hb' as [->|[_ Hu]]; [congruence|]. intros [=->]. rewrite (ow_used _ _ Ho) in Hu. done.
Qed.

Lemma brelse_env A k n bl i s :
  env A k n [i] bl s -> settled i s ->
  exists s', brelse i s = Ok tt s' /\ env A k n [] bl s' /\ (forall b', view s' b' = view s b') /\ fs_frame s s'.
Proof.
  intros He Hs. destruct (brelse_in [] bl i s (ev_txn _ _ _ _ _ _ He)) as (s1 & H1 & Hi1 & _ & Hv1 & Hf1 & _);
    [apply not_elem_of_nil|done|].
  exists s1. split_and!; try done. eapply env_step; [exact He|exact Hf1|exact Hi1|apply He|simpl; lia|apply Hv1|]. by intros b' _ j ?%not_elem_of_nil.
Qed.

Lemma log_env A k n bl i b f s :
  env A k n [i] bl s -> holds_block i b s -> owned b s -> b ∈ A ->
  exists s1 s', data_upd i f s = Ok tt s1 /\ log_write i s1 = Ok tt s' /\ env A k n [i] (add_block b bl) s' /\
    settled i s' /\ (forall b', view s' b' = if decide (b' = b) then f (view s b) else view s b') /\ fs_frame s s'.
Proof.
  intros He Hb Ho HbA. pose proof (owned_mapb _ _ _ _ _ _ _ He Ho) as Hm. pose proof (env_room _ _ _ _ _ _ He) as [Hr _].
  destruct (log_in [i] bl i b f s (ev_txn _ _ _ _ _ _ He)) as (s1 & s2 & H1 & H2 & Hi2 & Hb2 & Hs2 & Hoth & Hv2 & Hf2 & _);
    [by left|done|apply Ho|lia|].
  exists s1, s2. split_and!; try done. eapply env_step; [exact He|exact Hf2|exact Hi2| |simpl; lia| |].
  - intros b'. rewrite elem_of_add_block. intros [->|Hin]; [done|]. by apply (ev_in _ _ _ _ _ _ He).
  - rewrite Hv2, decide_False; congruence.
  - intros b' Hb' j ->%list_elem_of_singleton. destruct Hb2 as (x & Hx & Hbx & _). rewrite Hx. simpl. rewrite Hbx.
    destruct Hb' as [->|[_ Hu]]; [congruence|]. intros [=->]. rewrite (ow_used _ _ Ho) in Hu. done.
Qed.

(** A block taken by [balloc]. *)
Record taken_block (r : Z) (s s' : kstate) : Prop := {
  tk_range : 0 <= r < sb_size (k_sb s);
  tk_pos : r <> 0;
  tk_free : used s r = false;
  tk_owned : owned r s';
  tk_zero : view s' r = replicate 512 0;
  tk_frame : fs_frame s s';
  tk_used : forall b, 0 <= b < sb_size (k_sb s) -> used s b = true -> used s' b = true;
  tk_keep : forall b, owned b s -> owned b s' /\ view s' b = view s b }.

Lemma balloc_env A k n H bl s :
  env A (S k) (S n) H bl s ->
  exists r bl' s', balloc 1 s = Ok r s' /\ env ({[r]} ∪ A) k n H bl' s' /\ same_held H s s' /\ taken_block r s s'.
Proof.
  intros He. pose proof (env_room _ _ _ _ _ _ He) as Hroom.
  destruct (balloc_ok H bl s (ev_txn _ _ _ _ _ _ He) Hroom (ev_map _ _ _ _ _ _ He)) as [(r & s' & Hok & Hal)|[Hall _]].
  2: { exfalso. destruct (ev_free _ _ _ _ _ _ He) as (F & HF & HFu). destruct (size_pos_elem_of F) as [b Hb]; [lia|].
       destruct (HFu b Hb) as [Hb1 Hb2]. rewrite Hall in Hb2; done. }
  destruct Hal as [Q1 Q2 Q3 Q4 Q5 Q6 Q7 Q8 Q9 Q10]. pose proof (fs_frame_sb _ _ Q7) as Es.
  pose proof (BBLOCK_one H r s (ev_map _ _ _ _ _ _ He) (ev_one _ _ _ _ _ _ He) Q1) as Em.
  assert (Hr0 : r <> 0) by (intros ->; rewrite (ev_zero _ _ _ _ _ _ He) in Q2; done).
  destruct (mo_free _ _ (ev_map _ _ _ _ _ _ He) r Q1 Q2) as (G1 & G2 & G3).
  exists r, (add_block r (add_block (BBLOCK r (k_sb s)) bl)), s'. split; [exact Hok|]. split; [|split; [done|]].
  - apply (env_add A k (S n) r) in He. destruct He as [E1 E2 E3 E4 E5 (F & F1 & F2) E7 E8 E9 E10 E11]. destruct Q7 as (_ & _ & _ & [_ El] & _).
    split; [exact Q4|done| | | | | | |by rewrite El|done|done]; unfold mapb; rewrite ?Es; try done.
    + rewrite Q8, decide_False by (lia || congruence). done.
    + exists (F ∖ {[r]}). split.
      * pose proof (size_difference_alt F {[r]}). pose proof (subseteq_size (F ∩ {[r]}) {[r]} ltac:(set_solver)) as Hs.
        rewrite size_singleton in Hs. lia.
      * intros b [Hb Hne]%elem_of_difference. destruct (F2 b Hb) as [B1 B2]. rewrite Es, Q8, decide_False by set_solver. done.
    + intros b. rewrite !elem_of_add_block, Em. intros [->|[->|Hin]]; [set_solver|done|by apply E7].
  - assert (Hkeep : forall b, owned b s -> owned b s' /\ view s' b = view s b).
    { intros b Ho. pose proof (owned_mapb _ _ _ _ _ _ _ He Ho) as Hm. destruct (Ho) as [(Hb & _) Hu Hl].
      assert (Hne : b <> r) by (intros ->; congruence).
      assert (Hv : view s' b = view s b) by (apply Q10; [done|by rewrite Em]). split; [|done].
      apply (owned_step b s); [done| |by rewrite Hv|done]. rewrite Q8, decide_False by done. done. }
    split; try done; [|intros b Hb Hu; rewrite Q8 by done; by case_decide].
    split; [|by rewrite Q8, decide_True|by rewrite Q9].
    split_and!; rewrite ?Es; [lia|lia|by rewrite (fs_frame_area s s')|by intros j ?%not_elem_of_nil|done].
Qed.
End Env.

(** ** The blocks of a file *)

Definition ind (x : inode) : Z := nth (Z.to_nat NDIRECT) (i_addrs x) 0.

(** The address of block [bn] of the file, 0 for none. *)
Definition baddr (x : inode) (s : kstate) (bn : Z) : Z :=
  if bn <? NDIRECT then nth (Z.to_nat bn) (i_addrs x) 0
  else if ind x =? 0 then 0 else get32 (view s (ind x)) (Z.to_nat (4 * (bn - NDIRECT))).

(** Byte [k] of the file. *)
Definition fbyte (x : inode) (s : kstate) (k : Z) : Z :=
  nth (Z.to_nat (k mod BSIZE)) (view s (baddr x s (k / BSIZE))) 0.

(** The blocks of the file are blocks of its own, each in one place. *)
Record file_ok (x : inode) (s : kstate) : Prop := {
  fo_dev : i_dev x = 1;
  fo_addrs : length (i_addrs x) = 13%nat;
  fo_block : forall bn, 0 <= bn < MAXFILE -> baddr x s bn <> 0 -> owned (baddr x s bn) s;
  fo_ind : ind x <> 0 -> owned (ind x) s;
  fo_inj : forall bn bn', 0 <= bn < MAXFILE -> 0 <= bn' < MAXFILE ->
    baddr x s bn = baddr x s bn' -> baddr x s bn <> 0 -> bn = bn';
  fo_apart : forall bn, 0 <= bn < MAXFILE -> baddr x s bn <> 0 -> baddr x s bn <> ind x }.

Lemma baddr_same x s s' bn : (ind x <> 0 -> view s' (ind x) = view s (ind x)) -> baddr x s' bn = baddr x s bn.
Proof. intros H. unfold baddr. destruct (bn <? NDIRECT); [done|]. destruct (Z.eqb_spec (ind x) 0); [done|]. by rewrite H. Qed.

Lemma file_ok_keep x s s' :
  file_ok x s -> (forall b, owned b s -> owned b s' /\ view s' b = view s b) ->
  file_ok x s' /\ (forall bn, baddr x s' bn = baddr x s bn) /\ forall k, 0 <= k < MAXFILE * BSIZE -> baddr x s (k / BSIZE) <> 0 -> fbyte x s' k = fbyte x s k.
Proof.
  intros [F1 F2 F3 F4 F5 F6] Hkeep.
  assert (Hb : forall bn, baddr x s' bn = baddr x s bn) by (intros bn; apply baddr_same; intros Hi; by apply Hkeep, F4).
  split_and!; [split; try done|done|].
  - intros bn Hbn Hne. rewrite Hb in *. by apply Hkeep, F3.
  - intros Hi. by apply Hkeep, F4.
  - intros bn bn' H1 H2. rewrite !Hb. by apply F5.
  - intros bn Hbn. rewrite Hb. by apply F6.
  - intros k Hk Hne. unfold fbyte. rewrite Hb. destruct (Hkeep (baddr x s (k / BSIZE))) as [_ ->]; [|done].
    apply F3; [|done]. change BSIZE with 512 in *. Z.div_mod_to_equations. lia.
Qed.

(** A fresh block becomes block [bn]. *)
Lemma file_ok_set x x' bn r s s' :
  file_ok x s -> used s r = false -> owned r s' -> r <> 0 -> (forall b, owned b s -> owned b s') ->
  i_dev x' = i_dev x -> length (i_addrs x') = length (i_addrs x) -> ind x' = ind x -> baddr x' s' bn = r ->
  (forall bn', 0 <= bn' < MAXFILE -> bn' <> bn -> baddr x' s' bn' = baddr x s bn') -> file_ok x' s'.
Proof.
  intros [F1 F2 F3 F4 F5 F6] Hfree Hr Hr0 Hkeep Ed El Ei Eb Eo.
  assert (Hfresh : forall b, owned b s -> b <> r) by (intros b Ho ->; rewrite (ow_used _ _ Ho) in Hfree; done).
  split; [congruence|congruence| | | |].
  - intros bn' Hbn' Hne. destruct (decide (bn' = bn)) as [->|]; [by rewrite Eb|]. rewrite Eo in * by done. by apply Hkeep, F3.
  - rewrite Ei. intros Hi. by apply Hkeep, F4.
  - intros b1 b2 H1 H2 E Hne. destruct (decide (b1 = bn)) as [->|N1], (decide (b2 = bn)) as [->|N2]; [done| | |].
    + rewrite Eb in *. rewrite Eo in E by done. exfalso. destruct (Hfresh (baddr x s b2)); [|done]. apply F3; congruence.
    + rewrite Eb in *. rewrite Eo in * by done. exfalso. destruct (Hfresh (baddr x s b1)); [|done]. by apply F3.
    + rewrite !Eo in * by done. by apply F5.
  - intros b1 H1 Hne. rewrite Ei. destruct (decide (b1 = bn)) as [->|N1].
    + rewrite Eb in *. intros E. apply (Hfresh (ind x)); [|done]. apply F4. congruence.
    + rewrite Eo in * by done. by apply F6.
Qed.

Lemma get32_zeroes n off : get32 (replicate n 0) off = 0.
Proof.
  assert (Hz : forall k, nth k (replicate n 0) 0 = 0).
  { intros k. rewrite nth_lookup. destruct (_ !! k) as [v|] eqn:E; [|done]. by apply lookup_replicate in E as [-> _]. }
  unfold get32. by rewrite !Hz.
Qed.

Lemma nth_set (l : list Z) i j v : (i < length l)%nat -> nth j (<[i := v]> l) 0 = if decide (j = i) then v else nth j l 0.
Proof. intros Hi. rewrite nth_insert. repeat case_decide; try done; lia. Qed.

Definition set_addr (i : Z) (r : Z) (x : inode) : inode := x <| i_addrs ::= <[Z.to_nat i := r]> |>.

Lemma set_direct x bn r s s' :
  file_ok x s -> taken_block r s s' -> 0 <= bn < NDIRECT -> 
  file_ok (set_addr bn r x) s' /\ baddr (set_addr bn r x) s' bn = r /\ ind (set_addr bn r x) = ind x /\
  forall bn', 0 <= bn' < MAXFILE -> bn' <> bn -> baddr (set_addr bn r x) s' bn' = baddr x s bn'.
Proof.
  intros Hf Ht Hbn. pose proof (fo_addrs _ _ Hf) as Hl. unfold NDIRECT in Hbn.
  assert (Ei : ind (set_addr bn r x) = ind x).
  { unfold ind, set_addr. rsimpl. rewrite nth_set, decide_False; unfold NDIRECT; [done|lia|lia]. }
  assert (Eb : baddr (set_addr bn r x) s' bn = r).
  { unfold baddr, set_addr, NDIRECT. rsimpl. rewrite (proj2 (Z.ltb_lt _ _)) by lia. rewrite nth_set, decide_True by lia. done. }
  assert (Eo : forall bn', 0 <= bn' < MAXFILE -> bn' <> bn -> baddr (set_addr bn r x) s' bn' = baddr x s bn').
  { intros bn' Hr Hne. unfold baddr. rewrite Ei. unfold set_addr. rsimpl. destruct (bn' <? NDIRECT); [rewrite nth_set, decide_False by lia; done|].
    destruct (Z.eqb_spec (ind x) 0); [done|]. by rewrite (proj2 (tk_keep _ _ _ Ht _ (fo_ind _ _ Hf n))). }
  split_and!; try done. apply (file_ok_set x _ bn r s); try done; [apply Ht..| |].
  - intros b Hb. by apply (tk_keep _ _ _ Ht).
  - unfold set_addr. rsimpl. apply length_insert.
Qed.

Lemma set_indirect x r s s' :
  file_ok x s -> taken_block r s s' -> ind x = 0 ->
  file_ok (set_addr NDIRECT r x) s' /\ ind (set_addr NDIRECT r x) = r /\
  forall bn, 0 <= bn < MAXFILE -> baddr (set_addr NDIRECT r x) s' bn = baddr x s bn.
Proof.
  intros Hf Ht Hi. pose proof (fo_addrs _ _ Hf) as Hl.
  assert (Ei : ind (set_addr NDIRECT r x) = r).
  { unfold ind, set_addr. rsimpl. rewrite nth_set, decide_True; [done|done|]. rewrite Hl. unfold NDIRECT. lia. }
  assert (Eb : forall bn, 0 <= bn < MAXFILE -> baddr (set_addr NDIRECT r x) s' bn = baddr x s bn).
  { intros bn Hr. unfold baddr. rewrite Ei, Hi, (tk_zero _ _ _ Ht), get32_zeroes. unfold set_addr. rsimpl.
    destruct (Z.ltb_spec bn NDIRECT); [rewrite nth_set, decide_False; [done|unfold NDIRECT in *; lia|unfold NDIRECT in *; lia]|].
    change (0 =? 0) with true. by destruct (r =? 0). }
  split_and!; try done. destruct Hf as [F1 F2 F3 F4 F5 F6].
  split; [done|unfold set_addr; rsimpl; by rewrite length_insert| |rewrite Ei; intros _; apply Ht| |].
  - intros bn Hbn. rewrite Eb by done. intros Hne. by apply (tk_keep _ _ _ Ht), F3.
  - intros b1 b2 H1 H2. rewrite !Eb by done. by apply F5.
  - intros bn Hbn. rewrite Eb, Ei by done. intros Hne E. pose proof (F3 bn Hbn Hne) as Ho.
    pose proof (ow_used _ _ Ho) as Hu. rewrite E, (tk_free _ _ _ Ht) in Hu. done.
Qed.

(** The entry for [bn] is set in the indirect block. *)
Lemma set_entry_ok x bn r s s1 s' :
  file_ok x s -> taken_block r s s1 -> ind x <> 0 -> NDIRECT <= bn < MAXFILE -> r < 4294967296 ->
  (forall b, view s' b = if decide (b = ind x) then put32 (Z.to_nat (4 * (bn - NDIRECT))) r (view s1 (ind x)) else view s1 b) ->
  (forall b, owned b s1 -> owned b s') ->
  file_ok x s' /\ baddr x s' bn = r /\ forall bn', 0 <= bn' < MAXFILE -> bn' <> bn -> baddr x s' bn' = baddr x s bn'.
Proof.
  intros Hf Ht Hi Hbn Hr Hv Hkeep. pose proof (fo_ind _ _ Hf Hi) as Ho. destruct (tk_keep _ _ _ Ht _ Ho) as [Ho1 Hv1].
  unfold MAXFILE, NINDIRECT, NDIRECT, BSIZE in *. change (12 + 512 / 4) with 140 in *.
  assert (Eb : baddr x s' bn = r).
  { unfold baddr, NDIRECT. rewrite (proj2 (Z.ltb_ge _ _)), (proj2 (Z.eqb_neq _ _)) by (done || lia).
    rewrite Hv, decide_True by done. rewrite get32_put32 by (rewrite (ow_len _ _ Ho1); lia).
    apply u32_id. pose proof (tk_range _ _ _ Ht). lia. }
  assert (Eo : forall bn', 0 <= bn' < 140 -> bn' <> bn -> baddr x s' bn' = baddr x s bn').
  { intros bn' H1 H2. unfold baddr, NDIRECT. destruct (Z.ltb_spec bn' 12); [done|]. rewrite (proj2 (Z.eqb_neq _ _)) by done.
    rewrite Hv, decide_True by done. by rewrite get32_put32_ne, Hv1 by lia. }
  split_and!; try done. apply (file_ok_set x x bn r s); try done; [apply Ht| |apply Ht|].
  - apply Hkeep, Ht.
  - intros b Hb. by apply Hkeep, (tk_keep _ _ _ Ht).
Qed.

(** ** bmap *)

Lemma owned_inodes b l s : owned b (with_inodes l s) <-> owned b s.
Proof. split; intros [H1 H2 H3]; by split. Qed.

Lemma file_ok_inodes x l s : file_ok x (with_inodes l s) <-> file_ok x s.
Proof.
  split; intros [H1 H2 H3 H4 H5 H6]; split; try assumption.
  - intros bn Hb Hne. by apply (owned_inodes _ l), H3.
  - intros Hne. by apply (owned_inodes _ l), H4.
  - intros bn Hb Hne. by apply owned_inodes, H3.
  - intros Hne. by apply owned_inodes, H4.
Qed.

Lemma frame_inodes l s s' : fs_frame s s' -> fs_frame (with_inodes l s) (with_inodes l s').
Proof. intros (H1 & H2 & (H3 & H3' & H3'') & H4 & H5). split_and!; try done. rewrite H5 at 1. by destruct s, s'. Qed.

Lemma frame_inodes_inv l s s' : fs_frame (with_inodes l s) s' -> k_inodes s' = l.
Proof. intros (_ & _ & _ & _ & ->). done. Qed.

Lemma frame_trans l1 l2 s s1 s2 :
  fs_frame (with_inodes l1 s) s1 -> fs_frame (with_inodes l2 s1) s2 -> fs_frame (with_inodes l2 s) s2.
Proof. intros H1 H2. apply (frame_inodes l2) in H1. etrans; [exact H1|exact H2]. Qed.

Lemma frame_same s s' : fs_frame s s' -> fs_frame (with_inodes (k_inodes s) s) s'.
Proof. intros H. by replace (with_inodes (k_inodes s) s) with s by (by destruct s). Qed.

Section Bmap.
Context {fl : Fuel} {dsk : Disk} {laws : DiskLaws dsk}.
Context {ci : nat} {c : cpu} {p : nat} {pr : proc}.
Local Abbreviation env := (env (ci := ci) (c := c) (p := p) (pr := pr)).

Lemma env_inodes A k n H bl l s : env A k n H bl s -> env A k n H bl (with_inodes l s).
Proof.
  intros [[G1 [lb G2] G3 G4 G5 G6 G7 G8 G9] [M1 M2 M3 M4] E3 E4 E5 E6 E7 E8 E9 E10 E11]. split; try done.
  - split; try done; [by apply (kmode_frame ci c p pr s)|]. exists lb. by destruct G2.
Qed.

(** What [bmap] does: [a] is block [bn] of the file, and was it already, or is fresh and
    zeroed; the other blocks are where they were, and every block with an owner keeps it
    and, but for the file's indirect block, its contents. *)
Record mapped (ip : nat) (x x' : inode) (bn a : Z) (s s' : kstate) : Prop := {
  md_frame : fs_frame (with_inodes (<[ip := x']> (k_inodes s)) s) s';
  md_x : x' = x <| i_addrs := i_addrs x' |>;
  md_file : file_ok x' s';
  md_addr : baddr x' s' bn = a;
  md_pos : a <> 0;
  md_others : forall bn', 0 <= bn' < MAXFILE -> bn' <> bn -> baddr x' s' bn' = baddr x s bn';
  md_old : baddr x s bn <> 0 -> x' = x /\ forall b, view s' b = view s b;
  md_new : baddr x s bn = 0 -> used s a = false /\ view s' a = replicate 512 0;
  md_ind : ind x' = ind x \/ 0 <= ind x' < sb_size (k_sb s) /\ used s (ind x') = false;
  md_used : forall b, 0 <= b < sb_size (k_sb s) -> used s b = true -> used s' b = true;
  md_keep : forall b, owned b s -> owned b s' /\ (b <> ind x -> view s' b = view s b) }.

(** What an indirect block may still cost. *)
Definition pot (A : gset Z) (x : inode) : nat := if decide (ind x <> 0 /\ ind x ∈ A) then 0 else 1.

Lemma pot_mono A A' x x' : A ⊆ A' -> ind x' = ind x -> (pot A' x' <= pot A x)%nat.
Proof. intros Hs E. unfold pot. rewrite E. repeat case_decide; try lia. set_solver. Qed.

Lemma addr_lookup x s i : file_ok x s -> 0 <= i <= NDIRECT -> i_addrs x !! Z.to_nat i = Some (nth (Z.to_nat i) (i_addrs x) 0).
Proof.
  intros Hf Hi. destruct (lookup_lt_is_Some_2 (i_addrs x) (Z.to_nat i)) as [a Ha]; [rewrite (fo_addrs _ _ Hf); unfold NDIRECT in Hi; lia|].
  by rewrite Ha, (nth_lookup_Some _ _ _ _ Ha).
Qed.

Lemma inode_id ip x s : k_inodes s !! ip = Some x -> <[ip := x]> (k_inodes s) = k_inodes s.
Proof. apply list_insert_id. Qed.

Lemma mapped_old ip x bn s s' :
  k_inodes s !! ip = Some x -> fs_frame s s' -> file_ok x s' -> (forall b, view s' b = view s b) -> baddr x s bn <> 0 ->
  (forall b, owned b s -> owned b s') -> (forall b, 0 <= b < sb_size (k_sb s) -> used s b = true -> used s' b = true) ->
  mapped ip x x bn (baddr x s bn) s s'.
Proof.
  intros Hx Hf Hok Hv Hne Hkeep Hu. assert (Hb : forall bn', baddr x s' bn' = baddr x s bn') by (intros; by apply baddr_same).
  split; try done.
  - rewrite (inode_id ip x s Hx). by apply frame_same.
  - by destruct x.
  - by left.
  - intros b Hb'. split; [by apply Hkeep|done].
Qed.

Lemma bmap_direct A k n ip x bn bl s :
  env A (S k + pot A x) (S n + pot A x) [] bl s -> file_ok x s -> k_inodes s !! ip = Some x -> 0 <= bn < NDIRECT ->
  exists a x' A' bl' s', bmap ip bn s = Ok a s' /\ mapped ip x x' bn a s s' /\ A ⊆ A' /\ a ∈ A' /\
    env A' (k + pot A' x') (n + pot A' x') [] bl' s'.
Proof.
  intros He Hf Hx Hbn. unfold bmap. mstep by (by apply inode_get_ok). rewrite (proj2 (Z.ltb_lt _ _)) by lia.
  rewrite (addr_lookup x s bn Hf) by lia. cbn [deref]. mstep.
  assert (Eb : baddr x s bn = nth (Z.to_nat bn) (i_addrs x) 0) by (unfold baddr; by rewrite (proj2 (Z.ltb_lt _ _)) by lia).
  rewrite <- Eb. destruct (Z.eqb_spec (baddr x s bn) 0) as [E0|Hne].
  - destruct (balloc_env A (k + pot A x) (n + pot A x) [] bl s He) as (r & bl' & s1 & H1 & He1 & _ & Ht).
    rewrite (fo_dev _ _ Hf). mstep with (H1).
    assert (Hx1 : k_inodes s1 !! ip = Some x) by (destruct (tk_frame _ _ _ Ht) as (_ & _ & _ & _ & ->); done).
    mstep by (by apply inode_upd_ok). fold (set_addr bn r x). set (s2 := set k_inodes _ s1).
    destruct (set_direct x bn r s s1 Hf Ht Hbn) as (Hf1 & Ha & Hi & Ho).
    assert (E2 : s2 = with_inodes (<[ip := set_addr bn r x]> (k_inodes s)) s1).
    { unfold s2, with_inodes. apply kstate_ext; rsimpl; try reflexivity. f_equal. destruct (tk_frame _ _ _ Ht) as (_ & _ & _ & _ & ->). done. }
    exists r, (set_addr bn r x), ({[r]} ∪ A), bl', s2. split; [done|]. rewrite E2. split; [|split_and!; [set_solver|set_solver|]].
    + split; try done.
      * apply frame_inodes, Ht.
      * by apply file_ok_inodes.
      * apply Ht.
      * intros _. split; apply Ht.
      * by left.
      * exact (tk_used _ _ _ Ht).
      * intros b Hb. rewrite owned_inodes. by destruct (tk_keep _ _ _ Ht b Hb).
    + apply env_inodes. eapply env_le; [| |exact He1]; pose proof (pot_mono A ({[r]} ∪ A) x (set_addr bn r x) ltac:(set_solver) Hi); lia.
  - exists (baddr x s bn), x, ({[baddr x s bn]} ∪ A), bl, s. split; [done|]. split; [by apply mapped_old|].
    split_and!; [set_solver|set_solver|]. apply env_add.
    eapply env_le; [| |exact He]; pose proof (pot_mono A ({[baddr x s bn]} ∪ A) x x ltac:(set_solver) eq_refl); lia.
Qed.

(** The indirect block is there. *)
Record ready (ip : nat) (x x1 : inode) (s s1 : kstate) : Prop := {
  rd_frame : fs_frame (with_inodes (<[ip := x1]> (k_inodes s)) s) s1;
  rd_x : x1 = x <| i_addrs := i_addrs x1 |>;
  rd_file : file_ok x1 s1;
  rd_pos : ind x1 <> 0;
  rd_addr : forall bn, 0 <= bn < MAXFILE -> baddr x1 s1 bn = baddr x s bn;
  rd_old : ind x <> 0 -> x1 = x /\ s1 = s;
  rd_ind : ind x1 = ind x \/ 0 <= ind x1 < sb_size (k_sb s) /\ used s (ind x1) = false;
  rd_used : forall b, 0 <= b < sb_size (k_sb s) -> used s b = true -> used s1 b = true;
  rd_keep : forall b, owned b s -> owned b s1 /\ view s1 b = view s b }.

Lemma bmap_ready A k n ip x bl s :
  env A (k + pot A x) (n + pot A x) [] bl s -> file_ok x s -> k_inodes s !! ip = Some x ->
  exists x1 A1 bl1 s1,
    (if ind x =? 0 then
       addr ← balloc (i_dev x);
       inode_upd ip (fun x => x <| i_addrs ::= <[Z.to_nat NDIRECT := addr]> |>);;
       ret addr
     else ret (ind x)) s = Ok (ind x1) s1 /\ ready ip x x1 s s1 /\ A ⊆ A1 /\ ind x1 ∈ A1 /\ env A1 k n [] bl1 s1.
Proof.
  intros He Hf Hx. destruct (Z.eqb_spec (ind x) 0) as [E0|Hne].
  - assert (Ep : pot A x = 1%nat) by (unfold pot; rewrite decide_False by tauto; done). rewrite Ep, !Nat.add_1_r in He.
    destruct (balloc_env A k n [] bl s He) as (r & bl' & s1 & H1 & He1 & _ & Ht). rewrite (fo_dev _ _ Hf). mstep with (H1).
    assert (Hx1 : k_inodes s1 !! ip = Some x) by (destruct (tk_frame _ _ _ Ht) as (_ & _ & _ & _ & ->); done).
    mstep by (by apply inode_upd_ok). fold (set_addr NDIRECT r x). set (s2 := set k_inodes _ s1).
    destruct (set_indirect x r s s1 Hf Ht E0) as (Hf1 & Hi & Ho).
    assert (E2 : s2 = with_inodes (<[ip := set_addr NDIRECT r x]> (k_inodes s)) s1).
    { unfold s2, with_inodes. apply kstate_ext; rsimpl; try reflexivity. f_equal. destruct (tk_frame _ _ _ Ht) as (_ & _ & _ & _ & ->). done. }
    exists (set_addr NDIRECT r x), ({[r]} ∪ A), bl', s2. rewrite E2, Hi. split; [done|]. split; [|split_and!; [set_solver|set_solver|by apply env_inodes]].
    split; rewrite ?Hi; try done.
    + apply frame_inodes, Ht.
    + by apply file_ok_inodes.
    + apply Ht.
    + right. split; apply Ht.
    + exact (tk_used _ _ _ Ht).
    + intros b Hb. rewrite owned_inodes. by apply (tk_keep _ _ _ Ht).
  - assert (Hid : ready ip x x s s).
    { split; try done; [rewrite (inode_id ip x s Hx); by apply frame_same|by destruct x|by left]. }
    exists x, ({[ind x]} ∪ A), bl, s. split; [done|]. split; [done|]. split_and!; [set_solver|set_solver|].
    unfold pot in He. case_decide as Hp.
    + replace ({[ind x]} ∪ A) with A by set_solver. eapply env_le; [| |exact He]; lia.
    + apply env_add. eapply env_le; [| |exact He]; lia.
Qed.

(** A step that changes no contents. *)
Record silent (s s' : kstate) : Prop := {
  si_frame : fs_frame s s';
  si_view : forall b, view s' b = view s b;
  si_owned : forall b, owned b s -> owned b s';
  si_used : forall b, 0 <= b < sb_size (k_sb s) -> used s' b = used s b }.

Lemma silent_env A k n H bl s s' : env A k n H bl s -> fs_frame s s' -> (forall b, view s' b = view s b) -> silent s s'.
Proof.
  intros He Hf Hv. split; [done|done| |].
  - intros b. by apply (owned_same _ _ _ _ _ b s s' He).
  - intros b. by apply (env_used _ _ _ _ _ s s' b He).
Qed.

Lemma silent_trans s s1 s2 : silent s s1 -> silent s1 s2 -> silent s s2.
Proof.
  intros [F1 V1 O1 U1] [F2 V2 O2 U2]. split; [by etrans|intros b; by rewrite V2|auto|].
  intros b Hb. rewrite U2; [by apply U1|]. by rewrite (fs_frame_sb _ _ F1).
Qed.

Lemma silent_file x s s' : silent s s' -> file_ok x s -> file_ok x s' /\ forall bn, baddr x s' bn = baddr x s bn.
Proof. intros [F V O U] Hf. destruct (file_ok_keep x s s' Hf) as (H1 & H2 & _); [|done]. intros b Hb. split; [by apply O|done]. Qed.

Lemma silent_mapped ip x bn s s' :
  silent s s' -> k_inodes s !! ip = Some x -> file_ok x s -> baddr x s bn <> 0 -> mapped ip x x bn (baddr x s bn) s s'.
Proof.
  intros Hs Hx Hf Hne. destruct (silent_file x s s' Hs Hf) as [Hf' _]. destruct Hs as [F V O U]. apply mapped_old; try done.
  intros b Hb. by rewrite U.
Qed.

Lemma mapped_between ip x bn r s s1 s2 s3 :
  silent s s1 -> mapped ip x x bn r s1 s2 -> silent s2 s3 -> k_inodes s !! ip = Some x -> file_ok x s ->
  0 <= r < sb_size (k_sb s) -> mapped ip x x bn r s s3.
Proof.
  intros S1 [M1 M2 M3 M4 M5 M6 M7 M8 M9 M10 M11] S3 Hx Hf Hr. destruct (silent_file x s s1 S1 Hf) as [_ Hb1].
  destruct (silent_file x s2 s3 S3 M3) as [Hf3 Hb3]. destruct S1 as [F1 V1 O1 U1], S3 as [F3 V3 O3 U3].
  assert (E1 : k_inodes s1 = k_inodes s) by (destruct F1 as (_ & _ & _ & _ & ->); done).
  pose proof (fs_frame_sb _ _ F1) as Es1. pose proof (fs_frame_sb _ _ M1) as Es2.
  change (k_sb (with_inodes _ s1)) with (k_sb s1) in Es2. rewrite Es1, Hb1 in *.
  split; try done.
  - rewrite E1, (inode_id ip x s Hx) in M1. apply (frame_trans (k_inodes s) (k_inodes s) s s1) in M1; [|by apply frame_same].
    rewrite (inode_id ip x s Hx). etrans; [exact M1|exact F3].
  - by rewrite Hb3.
  - intros bn' H1 H2. by rewrite Hb3, M6, Hb1.
  - intros Hne. split; [done|]. intros b. rewrite V3, (proj2 (M7 Hne)). apply V1.
  - intros E0. destruct (M8 E0) as [Hu Hz]. rewrite <- U1, V3 by done. done.
  - by left.
  - intros b Hb Hu. rewrite U3 by (by rewrite Es2). apply M10; [done|]. by rewrite U1.
  - intros b Hb. destruct (M11 b (O1 b Hb)) as [G1 G2]. split; [by apply O3|]. intros Hne. by rewrite V3, G2, V1.
Qed.

(** A new entry of the indirect block. *)
Lemma bmap_new_entry A k n ip x bn i bl s :
  env A (S k) (S n) [i] bl s -> file_ok x s -> k_inodes s !! ip = Some x -> NDIRECT <= bn < MAXFILE ->
  ind x <> 0 -> ind x ∈ A -> holds_block i (ind x) s -> baddr x s bn = 0 ->
  exists r bl' s',
    (addr ← balloc 1;
     data_upd i (put32 (Z.to_nat (4 * (bn - NDIRECT))) addr);;
     log_write i;;
     ret addr) s = Ok r s' /\ mapped ip x x bn r s s' /\ env ({[r]} ∪ A) k n [i] bl' s' /\ settled i s' /\ 0 <= r < sb_size (k_sb s).
Proof.
  intros He Hf Hx Hbn Hi HiA Hh E0. pose proof (fo_ind _ _ Hf Hi) as Ho.
  destruct (balloc_env A k n [i] bl s He) as (r & bl' & s2 & H2 & He2 & Hh2 & Ht). mstep with (H2).
  destruct (tk_keep _ _ _ Ht _ Ho) as [Ho2 Hv2]. pose proof (owned_mapb _ _ _ _ _ _ _ He2 Ho2) as Hm2.
  assert (Hb2 : holds_block i (ind x) s2).
  { destruct Hh as (d & Hd & Hbd & Hdd). specialize (Hh2 i ltac:(by left)). rewrite Hd in Hh2.
    destruct (k_bufs s2 !! i) as [d2|] eqn:Hd2; [|done]. unfold payload in Hh2. simpl in Hh2. exists d2. rewrite Hv2. split; [done|]. split; congruence. }
  destruct (log_env ({[r]} ∪ A) k n bl' i (ind x) (put32 (Z.to_nat (4 * (bn - NDIRECT))) r) s2 He2 Hb2 Ho2)
    as (s3 & s4 & H3 & H4 & He4 & Hs4 & Hv4 & Hf4); [set_solver|].
  mstep with (H3). mstep with (H4). pose proof (tk_range _ _ _ Ht) as Hr.
  assert (Hu4 : forall b, 0 <= b < sb_size (k_sb s) -> used s4 b = used s2 b).
  { intros b Hb. rewrite (env_used _ _ _ _ _ s2 s4 b He2 Hf4); [done| |by rewrite (fs_frame_sb _ _ (tk_frame _ _ _ Ht))].
    rewrite Hv4, decide_False; congruence. }
  assert (Hk4 : forall b, owned b s2 -> owned b s4).
  { intros b Hb. pose proof (fs_frame_sb _ _ (tk_frame _ _ _ Ht)) as Es. apply (owned_step b s2); [done| | |done].
    - rewrite Hu4; [apply Hb|]. rewrite <- Es. apply Hb.
    - rewrite Hv4. case_decide; [rewrite length_put32; apply Ho2|apply Hb]. }
  assert (Hsz : r < 4294967296).
  { destruct (mo_size _ _ (ev_map _ _ _ _ _ _ He)), (mo_start _ _ (ev_map _ _ _ _ _ _ He)). lia. }
  destruct (set_entry_ok x bn r s s2 s4 Hf Ht Hi Hbn Hsz Hv4 Hk4) as (Hf5 & Ha & Hoth).
  assert (Hri : r <> ind x) by (intros ->; pose proof (ow_used _ _ Ho) as Hu; by rewrite (tk_free _ _ _ Ht) in Hu).
  exists r, (add_block (ind x) bl'), s4. split; [done|]. split; [|split_and!; try done; lia]. split; try done.
  - rewrite (inode_id ip x s Hx). apply frame_same. etrans; [apply Ht|exact Hf4].
  - by destruct x.
  - apply Ht.
  - intros _. split; [apply Ht|]. rewrite Hv4, decide_False by done. apply Ht.
  - by left.
  - intros b Hb Hu. rewrite Hu4 by done. by apply (tk_used _ _ _ Ht).
  - intros b Hb. destruct (tk_keep _ _ _ Ht b Hb) as [G1 G2]. split; [by apply Hk4|]. intros Hne. by rewrite Hv4, decide_False.
Qed.

Lemma bmap_entry A k n ip x bn bl s :
  env A (S k) (S n) [] bl s -> file_ok x s -> k_inodes s !! ip = Some x -> NDIRECT <= bn < MAXFILE ->
  ind x <> 0 -> ind x ∈ A ->
  exists a A' bl' s',
    (bp ← bread 1 (ind x);
     d ← buf_get bp;
     let addr := get32 (b_data d) (Z.to_nat (4 * (bn - NDIRECT))) in
     addr ← (if addr =? 0 then
               addr ← balloc 1;
               data_upd bp (put32 (Z.to_nat (4 * (bn - NDIRECT))) addr);;
               log_write bp;;
               ret addr
             else ret addr);
     brelse bp;;
     ret addr) s = Ok a s' /\ mapped ip x x bn a s s' /\ A ⊆ A' /\ a ∈ A' /\ env A' k n [] bl' s'.
Proof.
  intros He Hf Hx Hbn Hi HiA. pose proof (fo_ind _ _ Hf Hi) as Ho.
  destruct (bread_env A _ _ bl (ind x) s He Ho) as (i & s1 & H1 & He1 & Hh1 & Hs1 & Hv1 & Hf1). mstep with (H1).
  pose proof Hh1 as (d & Hd & Hbd & Hdd). mstep by (by apply buf_get_ok). cbv zeta. rewrite Hdd, Hv1.
  assert (Eb : baddr x s bn = get32 (view s (ind x)) (Z.to_nat (4 * (bn - NDIRECT)))).
  { unfold baddr. rewrite (proj2 (Z.ltb_ge _ _)), (proj2 (Z.eqb_neq _ _)) by (done || lia). done. }
  rewrite <- Eb. pose proof (silent_env _ _ _ _ _ s s1 He Hf1 Hv1) as S1.
  destruct (silent_file x s s1 S1 Hf) as [Hf1' Hb1].
  assert (Hx1 : k_inodes s1 !! ip = Some x) by (destruct Hf1 as (_ & _ & _ & _ & ->); done).
  destruct (Z.eqb_spec (baddr x s bn) 0) as [E0|Hne].
  - destruct (bmap_new_entry A k n ip x bn i bl s1 He1 Hf1' Hx1 Hbn Hi HiA Hh1) as (r & bl' & s2 & H2 & Hm & He2 & Hs2 & Hr); [by rewrite Hb1|].
    mstep with (H2). destruct (brelse_env _ _ _ _ i s2 He2 Hs2) as (s3 & H3 & He3 & Hv3 & Hf3). mstep with (H3).
    exists r, ({[r]} ∪ A), bl', s3. split; [done|]. split; [|split_and!; [set_solver|set_solver|done]].
    rewrite (fs_frame_sb _ _ Hf1) in Hr. apply (mapped_between ip x bn r s s1 s2 s3); try done. by apply (silent_env _ _ _ _ _ s2 s3 He2).
  - mstep. destruct (brelse_env _ _ _ _ i s1 He1 Hs1) as (s2 & H2 & He2 & Hv2 & Hf2). mstep with (H2).
    exists (baddr x s bn), ({[baddr x s bn]} ∪ A), bl, s2. split; [done|]. split; [|split_and!; [set_solver|set_solver|]].
    + apply silent_mapped; try done. eapply silent_trans; [exact S1|]. by apply (silent_env _ _ _ _ _ s1 s2 He1).
    + apply env_add. eapply env_le; [| |exact He2]; lia.
Qed.

Lemma ready_mapped ip x x1 bn a s s1 s2 :
  file_ok x s -> (ip < length (k_inodes s))%nat -> NDIRECT <= bn < MAXFILE -> ready ip x x1 s s1 -> mapped ip x1 x1 bn a s1 s2 -> mapped ip x x1 bn a s s2.
Proof.
  intros Hf Hip Hbn [R1 R2 R3 R4 R5 R6 R7 R8 R9] [M1 M2 M3 M4 M5 M6 M7 M8 M9 M10 M11].
  pose proof (frame_inodes_inv _ _ _ R1) as E1. rewrite E1, list_insert_insert_eq in M1.
  pose proof (fs_frame_sb _ _ R1) as Es. change (k_sb (with_inodes _ s)) with (k_sb s) in Es. pose proof (fs_frame_sb _ _ M1) as Es2.
  change (k_sb (with_inodes _ s1)) with (k_sb s1) in Es2.
  assert (Hr : baddr x s bn = 0 -> 0 <= a < sb_size (k_sb s)).
  { intros E0. rewrite <- Es, <- Es2. rewrite <- M4. apply (fo_block _ _ M3); [unfold NDIRECT in Hbn; lia|congruence]. }
  split; try done.
  - by eapply frame_trans.
  - intros bn' H1 H2. by rewrite M6, R5.
  - intros Hne. assert (Hi : ind x <> 0).
    { intros E0. apply Hne. unfold baddr. rewrite (proj2 (Z.ltb_ge _ _)), E0 by lia. done. }
    destruct (R6 Hi) as [-> ->]. split; [done|]. by apply M7.
  - rewrite <- R5 by (unfold NDIRECT in Hbn; lia). intros E0. destruct (M8 E0) as [Hu Hz]. split; [|done].
    destruct (used s a) eqn:Eu; [|done]. apply R8 in Eu; [congruence|]. apply Hr. by rewrite <- R5 by (unfold NDIRECT in Hbn; lia).
  - intros b Hb Hu. apply M10; [by rewrite Es|by apply R8].
  - intros b Hb. destruct (R9 b Hb) as [G1 G2], (M11 b (proj1 (R9 b Hb))) as [G3 G4]. split; [done|]. intros Hne. rewrite G4, G2; [done|].
    intros ->. destruct R7 as [E|[_ Hfr]]; [congruence|]. rewrite (ow_used _ _ Hb) in Hfr. done.
Qed.

Lemma bmap_ok A k n ip x bn bl s :
  env A (S k + pot A x) (S n + pot A x) [] bl s -> file_ok x s -> k_inodes s !! ip = Some x -> 0 <= bn < MAXFILE ->
  exists a x' A' bl' s', bmap ip bn s = Ok a s' /\ mapped ip x x' bn a s s' /\ A ⊆ A' /\ a ∈ A' /\
    env A' (k + pot A' x') (n + pot A' x') [] bl' s'.
Proof.
  intros He Hf Hx Hbn. destruct (decide (bn < NDIRECT)) as [Hd|Hi]; [apply (bmap_direct A k n ip x bn bl s); [done|done|done|lia]|].
  unfold bmap. mstep by (by apply inode_get_ok). rewrite (proj2 (Z.ltb_ge _ _)) by lia. cbv zeta.
  rewrite (proj2 (Z.ltb_lt _ _)) by (unfold MAXFILE in Hbn; lia). rewrite (addr_lookup x s NDIRECT Hf) by (unfold NDIRECT; lia). cbn [deref]. mstep.
  fold (ind x). destruct (bmap_ready A (S k) (S n) ip x bl s He Hf Hx) as (x1 & A1 & bl1 & s1 & H1 & Hrd & HA & Hin & He1).
  rewrite (fo_dev _ _ Hf) in *. mstep with (H1). pose proof (frame_inodes_inv _ _ _ (rd_frame _ _ _ _ _ Hrd)) as E1.
  pose proof (lookup_lt_Some _ _ _ Hx) as Hip.
  destruct (bmap_entry A1 k n ip x1 bn bl1 s1 He1) as (a & A2 & bl2 & s2 & H2 & Hm & HA2 & Ha & He2).
  { apply Hrd. } { rewrite E1. by apply list_lookup_insert_eq. } { lia. } { apply Hrd. } { done. }
  exists a, x1, A2, bl2, s2. split; [exact H2|]. split; [eapply ready_mapped; try done; lia|]. split; [set_solver|]. split; [done|].
  assert (Hp : pot A2 x1 = 0%nat) by (unfold pot; rewrite decide_True; [done|split; [apply Hrd|set_solver]]). by rewrite Hp, !Nat.add_0_r.
Qed.
End Bmap.

(** ** Writing *)

Lemma nth_put_bytes o bs l i :
  (o + length bs <= length l)%nat ->
  nth i (put_bytes o bs l) 0 = if decide (o <= i < o + length bs)%nat then nth (i - o) bs 0 else nth i l 0.
Proof.
  intros Hl. unfold put_bytes. assert (Ht : length (take o l) = o) by (rewrite length_take; lia). case_decide as H.
  - rewrite app_nth2 by lia. rewrite Ht, app_nth1 by lia. done.
  - destruct (decide (i < o)%nat).
    + rewrite app_nth1 by lia. rewrite !nth_lookup, lookup_take_lt by lia. done.
    + rewrite app_nth2, Ht, app_nth2 by lia. rewrite !nth_lookup, lookup_drop. do 2 f_equal. lia.
Qed.

Lemma length_put_bytes o bs l : (o + length bs <= length l)%nat -> length (put_bytes o bs l) = length l.
Proof. intros Hl. unfold put_bytes. rewrite !length_app, length_take, length_drop. lia. Qed.

(** The sizes as numbers. *)
Ltac fs_sizes := change BSIZE with 512 in *; change MAXFILE with 140 in *.

(** Block [bn] is one of those of the bytes from [lo] to [hi]. *)
Definition touches (lo hi bn : Z) : Prop := lo < hi /\ lo / BSIZE <= bn <= (hi - 1) / BSIZE.
Ltac blocks := unfold touches in *; fs_sizes; Z.div_mod_to_equations; lia.

(** The bytes from [lo] to [hi] of the file are now those of [f]: its other bytes are as
    before, and so are all blocks that were not its own. *)
Record written (ip : nat) (x x' : inode) (f : Z -> Z) (lo hi : Z) (s s' : kstate) : Prop := {
  wt_frame : fs_frame (with_inodes (<[ip := x']> (k_inodes s)) s) s';
  wt_x : x' = x <| i_addrs := i_addrs x' |>;
  wt_file : file_ok x' s';
  wt_alloc : forall bn, 0 <= bn < MAXFILE -> baddr x s bn <> 0 \/ touches lo hi bn -> baddr x' s' bn <> 0;
  wt_bytes : forall k, lo <= k < hi -> fbyte x' s' k = f k;
  wt_same : forall k, 0 <= k < MAXFILE * BSIZE -> k < lo \/ hi <= k -> baddr x s (k / BSIZE) <> 0 -> fbyte x' s' k = fbyte x s k;
  wt_fresh : forall bn, 0 <= bn < MAXFILE -> baddr x' s' bn = baddr x s bn \/
    0 <= baddr x' s' bn < sb_size (k_sb s) /\ used s (baddr x' s' bn) = false;
  wt_ind : ind x' = ind x \/ 0 <= ind x' < sb_size (k_sb s) /\ used s (ind x') = false;
  wt_old : (forall bn, 0 <= bn < MAXFILE -> touches lo hi bn -> baddr x s bn <> 0) -> x' = x;
  wt_used : forall b, 0 <= b < sb_size (k_sb s) -> used s b = true -> used s' b = true;
  wt_keep : forall b, owned b s -> owned b s' /\
    (b <> ind x -> (forall bn, 0 <= bn < MAXFILE -> baddr x s bn <> b) -> view s' b = view s b) }.

Lemma written_none ip x f lo s :
  k_inodes s !! ip = Some x -> file_ok x s -> written ip x x f lo lo s s.
Proof.
  intros Hx Hf. split; try done.
  - rewrite (inode_id ip x s Hx). by apply frame_same.
  - by destruct x.
  - intros bn Hbn [Hne|[? _]]; [done|lia].
  - intros k Hk. lia.
  - intros bn Hbn. by left.
  - by left.
Qed.

Lemma written_trans ip x x1 x2 f lo mid hi s s1 s2 :
  (ip < length (k_inodes s))%nat -> 0 <= lo <= mid -> mid <= hi -> hi <= MAXFILE * BSIZE ->
  (lo < mid -> mid < hi -> mid mod BSIZE = 0) ->
  written ip x x1 f lo mid s s1 -> written ip x1 x2 f mid hi s1 s2 -> written ip x x2 f lo hi s s2.
Proof.
  intros Hip Hlo Hhi Hmax Hal [A1 A2 A3 A4 A5 A6 A7 A8 A9 A10 A11] [B1 B2 B3 B4 B5 B6 B7 B8 B9 B10 B11].
  rewrite (frame_inodes_inv _ _ _ A1), list_insert_insert_eq in B1.
  pose proof (fs_frame_sb _ _ A1) as Es. change (k_sb (with_inodes _ s)) with (k_sb s) in Es. rewrite Es in *.
  assert (Hfr : forall b, 0 <= b < sb_size (k_sb s) -> used s1 b = false -> used s b = false).
  { intros b Hb Hu. destruct (used s b) eqn:Eu; [|done]. rewrite A10 in Hu by done. done. }
  assert (Htouch : forall bn, touches lo hi bn -> touches lo mid bn \/ touches mid hi bn) by (intros bn Ht; blocks).
  assert (Hne1 : forall bn, 0 <= bn < MAXFILE -> baddr x s bn <> 0 -> baddr x1 s1 bn <> 0) by auto.
  split.
  - by eapply frame_trans.
  - rewrite B2, A2. by destruct x.
  - done.
  - intros bn Hbn [Hne|Ht]; [auto|]. destruct (Htouch bn Ht); auto.
  - intros k Hk. destruct (decide (mid <= k)); [apply B5; lia|]. rewrite B6; [apply A5; lia|lia|lia|].
    apply A4; [blocks|right; blocks].
  - intros k Hk Hout Hne. rewrite B6; [apply A6; [done|lia|done]|done|lia|]. apply Hne1; [blocks|done].
  - intros bn Hbn. destruct (B7 bn Hbn) as [->|[H1 H2]]; [by apply A7|]. right. auto.
  - destruct B8 as [->|[H1 H2]]; [by apply A8|]. right. auto.
  - intros Ho. assert (E1 : x1 = x) by (apply A9; intros bn Hbn Ht; apply Ho; [done|blocks]).
    rewrite <- E1. apply B9. intros bn Hbn Ht. apply Hne1; [done|]. apply Ho; [done|blocks].
  - intros b Hb Hu. apply B10; [done|by apply A10].
  - intros b Hb. destruct (A11 b Hb) as [G1 G2], (B11 b (proj1 (A11 b Hb))) as [G3 G4]. split; [done|]. intros N1 N2.
    pose proof (ow_used _ _ Hb) as Hu. rewrite G4; [by apply G2| |].
    + destruct A8 as [->|[_ H1]]; congruence.
    + intros bn Hbn. destruct (A7 bn Hbn) as [->|[_ H1]]; [by apply N2|congruence].
Qed.

(** One block. *)
Lemma written_block ip x x1 bn a f off m s s1 s' :
  file_ok x s -> 0 <= off -> 0 < m -> bn = off / BSIZE -> off mod BSIZE + m <= BSIZE -> bn < MAXFILE ->
  mapped ip x x1 bn a s s1 -> fs_frame s1 s' ->
  (forall b, view s' b = if decide (b = a) then put_bytes (Z.to_nat (off mod BSIZE)) (map f (zrange off (off + m))) (view s1 a) else view s1 b) ->
  (forall b, owned b s1 -> owned b s') -> (forall b, 0 <= b < sb_size (k_sb s) -> used s' b = used s1 b) ->
  written ip x x1 f off (off + m) s s'.
Proof.
  intros Hf Hoff Hm Hbn Hfit Hmax [M1 M2 M3 M4 M5 M6 M7 M8 M9 M10 M11] Hfr Hv Hown Hused.
  change BSIZE with 512 in *. change MAXFILE with 140 in *. assert (Hbn0 : 0 <= bn < 140) by (split; [subst bn; Z.div_mod_to_equations; lia|lia]).
  pose proof (fs_frame_sb _ _ M1) as Es. change (k_sb (with_inodes _ s)) with (k_sb s) in Es.
  assert (Hai : a <> ind x1) by (rewrite <- M4; apply (fo_apart _ _ M3); [done|by rewrite M4]).
  assert (Hb : forall bn', baddr x1 s' bn' = baddr x1 s1 bn') by (intros bn'; apply baddr_same; intros _; rewrite Hv, decide_False; congruence).
  assert (Hoa : owned a s1) by (rewrite <- M4; apply (fo_block _ _ M3); [done|by rewrite M4]).
  assert (Hlen : length (map f (zrange off (off + m))) = Z.to_nat m) by (rewrite length_map, length_zrange; f_equal; lia).
  assert (Hin : forall k, 0 <= k -> k / 512 = bn -> fbyte x1 s' k = if decide (off <= k < off + m) then f k else nth (Z.to_nat (k mod 512)) (view s1 a) 0).
  { intros k Hk E. unfold fbyte. change BSIZE with 512. rewrite E, Hb, M4, Hv, decide_True by done. pose proof (Z.mod_pos_bound off 512 ltac:(lia)).
    rewrite nth_put_bytes, Hlen by (rewrite Hlen, (ow_len _ _ Hoa); lia).
    assert (Hkk : off mod 512 - k mod 512 = off - k) by (subst bn; Z.div_mod_to_equations; lia).
    pose proof (Z.mod_pos_bound k 512).
    destruct (decide (off <= k < off + m)) as [Hr|Hr]; [rewrite decide_True by lia|rewrite decide_False by lia; done].
    rewrite (nth_lookup_Some _ _ _ (f k)); [done|]. rewrite list_lookup_fmap, (lookup_zrange off (off + m) (Z.to_nat (k mod 512) - Z.to_nat (off mod 512))) by lia.
    simpl. do 2 f_equal. lia. }
  assert (Hother : forall bn', 0 <= bn' < 140 -> bn' <> bn -> baddr x s bn' <> 0 -> view s' (baddr x1 s' bn') = view s (baddr x s bn')).
  { intros bn' H1 H2 H3. rewrite Hb, M6 by done. rewrite Hv, decide_False.
    - apply M11; [by apply (fo_block _ _ Hf)|by apply (fo_apart _ _ Hf)].
    - intros E. apply H2, (fo_inj _ _ M3); [done|done| |by rewrite M6]. by rewrite M6, M4. }
  split; try done.
  - etrans; [exact M1|exact Hfr].
  - split; rewrite ?Hb; [apply M3..| | | |].
    + intros bn' H1 H2. rewrite Hb in *. by apply Hown, (fo_block _ _ M3).
    + intros Hi. by apply Hown, (fo_ind _ _ M3).
    + intros b1 b2 H1 H2. rewrite !Hb. by apply (fo_inj _ _ M3).
    + intros bn' H1. rewrite Hb. by apply (fo_apart _ _ M3).
  - intros bn' H1 H2. rewrite Hb. destruct (decide (bn' = bn)) as [->|Hne]; [by rewrite M4|]. rewrite M6 by done.
    destruct H2 as [H2|H2]; [done|]. exfalso. apply Hne. subst bn. blocks.
  - intros k Hk. rewrite Hin; [by rewrite decide_True|lia|]. subst bn. blocks.
  - intros k Hk Hout Hne. destruct (decide (k / 512 = bn)) as [E|E].
    + rewrite Hin, decide_False by (done || lia). unfold fbyte. fs_sizes. rewrite E in *. destruct (M7 Hne) as [-> Hvv]. rewrite <- M4 at 1.
      rewrite (baddr_same x s s1) by done. by rewrite Hvv.
    + unfold fbyte. fs_sizes. rewrite Hother; [done| |done|done]. blocks.
  - intros bn' H1. rewrite Hb. destruct (decide (bn' = bn)) as [->|Hne]; [|left; by apply M6]. rewrite M4.
    destruct (decide (baddr x s bn = 0)) as [E0|Hne]; [right|left].
    + split; [|by apply M8]. rewrite <- Es. apply Hoa.
    + destruct (M7 Hne) as [-> Hvv]. rewrite <- M4. by apply baddr_same.
  - intros Hall. apply M7, Hall; [done|]. subst bn. blocks.
  - intros b H1 Hu. rewrite Hused by done. by apply M10.
  - intros b Ho. destruct (M11 b Ho) as [G1 G2]. split; [by apply Hown|]. intros N1 N2. rewrite Hv. case_decide as E; [|by apply G2].
    exfalso. subst b. destruct (decide (baddr x s bn = 0)) as [E0|Hne].
    + destruct (M8 E0) as [Hu _]. by rewrite (ow_used _ _ Ho) in Hu.
    + destruct (M7 Hne) as [-> Hvv]. apply (N2 bn); [done|]. rewrite <- M4. symmetry. by apply baddr_same.
Qed.

Lemma map_zrange_shift (f : Z -> Z) a b m : map f (zrange a (a + m)) = map (fun j => f (j - b + a)) (zrange b (b + m)).
Proof.
  unfold zrange. rewrite !map_map. replace (a + m - a) with m by lia. replace (b + m - b) with m by lia. apply map_ext. intros k. f_equal. lia.
Qed.

Section Write.
Context {fl : Fuel} {dsk : Disk} {laws : DiskLaws dsk}.
Context {ci : nat} {c : cpu} {p : nat} {pr : proc}.
Local Abbreviation env := (env (ci := ci) (c := c) (p := p) (pr := pr)).

(** One turn of the loop of [writei]. *)
Lemma write_step A k n ip x off m tot src bl s :
  env A (S k + pot A x) (S n + pot A x) [] bl s -> file_ok x s -> k_inodes s !! ip = Some x ->
  0 <= off -> 0 < m -> off mod BSIZE + m <= BSIZE -> off / BSIZE < MAXFILE ->
  exists a i x1 s1 s2 s3 s4 s5 A1 bl1,
    bmap ip (off / BSIZE) s = Ok a s1 /\ bread 1 a s1 = Ok i s2 /\
    data_upd i (put_bytes (Z.to_nat (off mod BSIZE)) (map src (zrange tot (tot + m)))) s2 = Ok tt s3 /\
    log_write i s3 = Ok tt s4 /\ brelse i s4 = Ok tt s5 /\ A ⊆ A1 /\
    env A1 (k + pot A1 x1) (n + pot A1 x1) [] bl1 s5 /\
    written ip x x1 (fun j => src (j - off + tot)) off (off + m) s s5.
Proof.
  intros He Hf Hx Hoff Hm Hfit Hmax. set (bn := off / BSIZE) in *. assert (Hbn : 0 <= bn < MAXFILE) by (split; [unfold bn; blocks|done]).
  destruct (bmap_ok A k n ip x bn bl s He Hf Hx Hbn) as (a & x1 & A1 & bl1 & s1 & H1 & Hmap & HA & Ha & He1).
  assert (Ho : owned a s1) by (rewrite <- (md_addr _ _ _ _ _ _ _ Hmap); apply Hmap; [done|rewrite (md_addr _ _ _ _ _ _ _ Hmap); apply Hmap]).
  destruct (bread_env A1 _ _ bl1 a s1 He1 Ho) as (i & s2 & H2 & He2 & Hh2 & Hs2 & Hv2 & Hf2).
  pose proof (silent_env _ _ _ _ _ s1 s2 He1 Hf2 Hv2) as S12. pose proof (si_owned _ _ S12 _ Ho) as Ho2.
  set (g := put_bytes (Z.to_nat (off mod BSIZE)) (map src (zrange tot (tot + m)))).
  destruct (log_env A1 _ _ bl1 i a g s2 He2 Hh2 Ho2 Ha) as (s3 & s4 & H3 & H4 & He4 & Hs4 & Hv4 & Hf4).
  destruct (brelse_env _ _ _ _ i s4 He4 Hs4) as (s5 & H5 & He5 & Hv5 & Hf5).
  pose proof (silent_env _ _ _ _ _ s4 s5 He4 Hf5 Hv5) as S45. pose proof (owned_mapb _ _ _ _ _ _ _ He2 Ho2) as Hm2.
  exists a, i, x1, s1, s2, s3, s4, s5, A1, (add_block a bl1). split_and!; try done.
  assert (Eg : g = put_bytes (Z.to_nat (off mod BSIZE)) (map (fun j => src (j - off + tot)) (zrange off (off + m))))
    by (unfold g; by rewrite (map_zrange_shift src tot off)).
  assert (Hu4 : forall b, 0 <= b < sb_size (k_sb s2) -> used s4 b = used s2 b).
  { intros b Hb. apply (env_used _ _ _ _ _ s2 s4 b He2 Hf4); [|done]. rewrite Hv4, decide_False; congruence. }
  pose proof (fs_frame_sb _ _ Hf2) as Es2. pose proof (fs_frame_sb _ _ Hf4) as Es4. pose proof (fs_frame_sb _ _ (md_frame _ _ _ _ _ _ _ Hmap)) as Es1.
  change (k_sb (with_inodes _ s)) with (k_sb s) in Es1.
  apply (written_block ip x x1 bn a _ off m s s1 s5); try done.
  - etrans; [exact Hf2|]. by etrans.
  - intros b. rewrite Hv5, Hv4, <- Eg. case_decide; [by rewrite Hv2|by rewrite Hv2].
  - intros b Hb. apply (si_owned _ _ S45). apply (si_owned _ _ S12) in Hb. apply (owned_step b s2); [done| | |done].
    + rewrite Hu4; apply Hb.
    + rewrite Hv4. case_decide; [|apply Hb]. rewrite Eg, length_put_bytes; [apply Ho2|]. rewrite length_map, length_zrange, (ow_len _ _ Ho2). blocks.
  - intros b Hb. rewrite (si_used _ _ S45), Hu4, (si_used _ _ S12) by (rewrite ?Es4, ?Es2, ?Es1; done). done.
Qed.

(** The number of blocks of the bytes from [off] on. *)
Definition nblocks (off len : Z) : nat := if len <=? 0 then 0 else Z.to_nat ((off + len - 1) / BSIZE - off / BSIZE + 1).

Lemma nblocks_turn off len m :
  0 <= off -> 0 < len -> m = Z.min len (BSIZE - off mod BSIZE) -> nblocks off len = S (nblocks (off + m) (len - m)).
Proof.
  intros Hoff Hlen Hm. unfold nblocks. rewrite (proj2 (Z.leb_gt _ _)) by lia. destruct (Z.leb_spec (len - m) 0); [|]; blocks.
Qed.

Lemma writei_loop_ok fuel A k n ip x src tot off len bl s :
  env A (nblocks off len + k + pot A x) (nblocks off len + n + pot A x) [] bl s -> file_ok x s -> k_inodes s !! ip = Some x ->
  0 <= off -> 0 <= len -> off + len <= MAXFILE * BSIZE -> (Z.to_nat len <= fuel)%nat ->
  exists x' A' bl' s', writei_loop fuel ip src tot off (tot + len) s = Ok (off + len) s' /\ A ⊆ A' /\
    env A' (k + pot A' x') (n + pot A' x') [] bl' s' /\ written ip x x' (fun j => src (j - off + tot)) off (off + len) s s'.
Proof.
  revert A x tot off len bl s. induction fuel as [|fuel IH]; intros A x tot off len bl s He Hf Hx Hoff Hlen Hmax Hfuel; cbn [writei_loop].
  { assert (len = 0) as -> by lia. rewrite (proj2 (Z.leb_le _ _)) by lia. exists x, A, bl, s. rewrite Z.add_0_r. split_and!; try done. by apply written_none. }
  destruct (Z.leb_spec (tot + len) tot) as [Hz|Hpos].
  { assert (len = 0) as -> by lia. exists x, A, bl, s. rewrite Z.add_0_r. split_and!; try done. by apply written_none. }
  mstep by (by apply inode_get_ok). replace (tot + len - tot) with len by lia. set (m := Z.min len (BSIZE - off mod BSIZE)).
  rewrite (nblocks_turn off len m) in He by (done || lia). assert (Hm : 0 < m <= len /\ off mod BSIZE + m <= BSIZE) by (unfold m; blocks).
  destruct (write_step A (nblocks (off + m) (len - m) + k) (nblocks (off + m) (len - m) + n) ip x off m tot src bl s)
    as (a & i & x1 & s1 & s2 & s3 & s4 & s5 & A1 & bl1 & H1 & H2 & H3 & H4 & H5 & HA & He5 & Hw); try (done || lia); [blocks|].
  mstep with (H1). rewrite (fo_dev _ _ Hf). mstep with (H2). cbv zeta. mstep with (H3). mstep with (H4). mstep with (H5).
  rewrite u32_id by (fs_sizes; lia). replace (tot + len) with (tot + m + (len - m)) by lia.
  pose proof (lookup_lt_Some _ _ _ Hx) as Hip.
  destruct (IH A1 x1 (tot + m) (off + m) (len - m) bl1 s5) as (x' & A' & bl' & s' & H6 & HA' & He' & Hw'); try (done || lia).
  { apply Hw. } { rewrite (frame_inodes_inv _ _ _ (wt_frame _ _ _ _ _ _ _ _ Hw)). by apply list_lookup_insert_eq. }
  exists x', A', bl', s'. replace (off + m + (len - m)) with (off + len) in * by lia. split_and!; [done|set_solver|done|].
  apply (written_trans ip x x1 x' _ off (off + m) (off + len) s s5 s'); try (done || lia).
  - intros _ Hlt. unfold m in *. blocks.
  - destruct Hw' as [B1 B2 B3 B4 B5 B6 B7 B8 B9 B10 B11]. split; try done. intros j Hj. rewrite B5 by done. f_equal. lia.
Qed.
End Write.

(** ** The inode on the disk *)

Lemma nth_put16_ne off v l i : (i < off \/ off + 2 <= i)%nat -> nth i (put16 off v l) 0 = nth i l 0.
Proof. intros Hi. unfold put16. rewrite !nth_insert. by repeat rewrite decide_False by lia. Qed.

Lemma nth_put32_ne off v l i : (i < off \/ off + 4 <= i)%nat -> nth i (put32 off v l) 0 = nth i l 0.
Proof. intros Hi. unfold put32. rewrite !nth_insert. by repeat rewrite decide_False by lia. Qed.

Lemma nth_put_words_ne off vs l i : (i < off \/ off + 4 * length vs <= i)%nat -> nth i (put_words off vs l) 0 = nth i l 0.
Proof.
  revert off l. induction vs as [|v vs IH]; intros off l Hi; [done|]. cbn [put_words length] in *. rewrite IH by lia. apply nth_put32_ne. lia.
Qed.

Lemma length_put16 off v l : length (put16 off v l) = length l.
Proof. unfold put16. by rewrite !length_insert. Qed.

Lemma length_put_dinode off x l : length (put_dinode off x l) = length l.
Proof. unfold put_dinode. by rewrite length_put_words, length_put32, !length_put16. Qed.

Definition short (v : Z) : Prop := -32768 <= v < 32768.

Lemma get16_put16 off v l : short v -> (off + 1 < length l)%nat -> get16 (put16 off v l) off = v.
Proof.
  intros Hv Hl. unfold get16, put16, i16. rewrite !nth_insert, !length_insert.
  repeat (first [rewrite decide_True by lia | rewrite decide_False by lia]). unfold short in Hv.
  replace (v mod 256 + 256 * (v / 256 mod 256)) with (v mod 65536); [|Z.div_mod_to_equations; lia]. Z.div_mod_to_equations. lia.
Qed.

Lemma get16_same l l' off : (forall i, (off <= i < off + 2)%nat -> nth i l 0 = nth i l' 0) -> get16 l off = get16 l' off.
Proof. intros H. unfold get16. by rewrite !H by lia. Qed.

Lemma get32_same l l' off : (forall i, (off <= i < off + 4)%nat -> nth i l 0 = nth i l' 0) -> get32 l off = get32 l' off.
Proof. intros H. unfold get32. by rewrite !H by lia. Qed.

(** The fields fit the structure on the disk. *)
Record fits (x : inode) : Prop := {
  ft_type : short (i_type x); ft_major : short (i_major x); ft_minor : short (i_minor x); ft_nlink : short (i_nlink x);
  ft_size : 0 <= i_size x < 4294967296;
  ft_addrs : Forall (fun a => 0 <= a < 4294967296) (i_addrs x);
  ft_len : length (i_addrs x) = 13%nat }.

Lemma get_addrs_put off x l : fits x -> (off + 64 <= length l)%nat -> get_addrs (put_dinode off x l) off = i_addrs x.
Proof.
  intros Hx Hl. pose proof (ft_len _ Hx) as Hlen. unfold get_addrs, put_dinode. apply list_eq. intros k. rewrite list_lookup_fmap.
  destruct (decide (k < 13)%nat) as [Hk|Hk].
  - rewrite lookup_seq_lt by done. cbn [fmap option_fmap option_map Nat.add]. destruct (lookup_lt_is_Some_2 (i_addrs x) k) as [a Ha]; [lia|]. rewrite Ha. f_equal.
    rewrite get_words by (rewrite ?length_put32, ?length_put16; lia). rewrite (nth_lookup_Some _ _ _ _ Ha). apply u32_id.
    exact (Forall_lookup_1 _ _ _ _ (ft_addrs _ Hx) Ha).
  - rewrite lookup_seq_ge by lia. symmetry. simpl. apply lookup_ge_None_2. lia.
Qed.

(** What [iupdate] writes is what [ilock] reads back. *)
Lemma dinode_roundtrip off x l : fits x -> (off + 64 <= length l)%nat -> get_dinode (put_dinode off x l) off x = x.
Proof.
  intros Hx Hl. unfold get_dinode. rewrite get_addrs_put by done. unfold put_dinode. set (l1 := put16 off (i_type x) l).
  set (l2 := put16 (off + 2) (i_major x) l1). set (l3 := put16 (off + 4) (i_minor x) l2). set (l4 := put16 (off + 6) (i_nlink x) l3).
  set (l5 := put32 (off + 8) (i_size x) l4).
  assert (E1 : length l1 = length l) by apply length_put16. assert (E2 : length l2 = length l) by (etrans; [apply length_put16|done]).
  assert (E3 : length l3 = length l) by (etrans; [apply length_put16|done]). assert (E4 : length l4 = length l) by (etrans; [apply length_put16|done]).
  assert (Hlow : forall i, (i < off + 8)%nat -> nth i (put_words (off + 12) (i_addrs x) l5) 0 = nth i l4 0).
  { intros i Hi. rewrite nth_put_words_ne by lia. apply nth_put32_ne. lia. }
  rewrite (get16_same _ l1 off), (get16_same _ l2 (off + 2)), (get16_same _ l3 (off + 4)), (get16_same _ l4 (off + 6));
    try (intros i Hi; rewrite Hlow by lia; unfold l4, l3, l2; rewrite ?nth_put16_ne by lia; done).
  assert (G1 : get16 l1 off = i_type x) by (apply get16_put16; [apply Hx|lia]).
  assert (G2 : get16 l2 (off + 2) = i_major x) by (apply get16_put16; [apply Hx|lia]).
  assert (G3 : get16 l3 (off + 4) = i_minor x) by (apply get16_put16; [apply Hx|lia]).
  assert (G4 : get16 l4 (off + 6) = i_nlink x) by (apply get16_put16; [apply Hx|lia]).
  rewrite G1, G2, G3, G4, get_words_below by lia. unfold l5. rewrite get32_put32 by lia. rewrite u32_id by apply Hx.
  by destruct x.
Qed.

(** The other inodes of the block stay. *)
Lemma put_dinode_other off off' x y l :
  length (i_addrs x) = 13%nat -> (off' + 64 <= off \/ off + 64 <= off')%nat -> get_dinode (put_dinode off x l) off' y = get_dinode l off' y.
Proof.
  intros Hlen Ho.
  assert (Hn : forall i, (i < off \/ off + 64 <= i)%nat -> nth i (put_dinode off x l) 0 = nth i l 0).
  { intros i Hi. unfold put_dinode. rewrite nth_put_words_ne by lia. rewrite nth_put32_ne by lia. rewrite !nth_put16_ne by lia. done. }
  assert (H16 : forall o, (off' <= o <= off' + 62)%nat -> get16 (put_dinode off x l) o = get16 l o).
  { intros o Hoo. apply get16_same. intros i Hi. apply Hn. lia. }
  assert (H32 : get32 (put_dinode off x l) (off' + 8) = get32 l (off' + 8)) by (apply get32_same; intros i Hi; apply Hn; lia).
  unfold get_dinode. rewrite !H16, H32 by lia.
  replace (get_addrs (put_dinode off x l) off') with (get_addrs l off'); [done|]. unfold get_addrs. apply map_ext_in. intros k Hk%in_seq.
  apply get32_same. intros i Hi. symmetry. apply Hn. lia.
Qed.
