(* ===== verification/ReadWrite.v ===== *)
(** * Reading and writing files (fs.c: iupdate, readi, writei)

    The functional behaviour of [readi] and [writei] on the blocks of Content.v: a file
    is a sequence of bytes, a read returns a slice of it, and a write replaces a slice,
    extends the file where it reaches beyond its end and leaves every other file alone. *)

From stdpp Require Import gmap fin_sets.
From S2P Require Import Prelude Outcome Kernel Spinlock Kalloc Proc Cprintf Sleeplock Bio Log Txn Edit Inode Alloc Icache Fs File Content.
Local Open Scope Z_scope.

(** ** A file *)

Definition iblock (x : inode) (s : kstate) : Z := IBLOCK (i_inum x) (k_sb s).

(** Block [b] is one of the file's. *)
Definition of_file (x : inode) (s : kstate) (b : Z) : Prop :=
  b = ind x \/ exists bn, 0 <= bn < MAXFILE /\ baddr x s bn = b.

(** Inode [x] of the cache, locked and read: it has the blocks for its size, and the
    copy in the inode block, which belongs to no file, is up to date. *)
Record file_inv (x : inode) (s : kstate) : Prop := {
  fi_file : file_ok x s;
  fi_type : i_type x <> T_DEV;
  fi_size : 0 <= i_size x <= MAXFILE * BSIZE;
  fi_full : forall bn, 0 <= bn -> bn * BSIZE < i_size x -> baddr x s bn <> 0;
  fi_fits : fits x;
  fi_iblock : owned (iblock x s) s;
  fi_apart : ~ of_file x s (iblock x s);
  fi_disk : get_dinode (view s (iblock x s)) (dinode_off (i_inum x)) x = x }.

Lemma dinode_fits inum : (dinode_off inum + 64 <= 512)%nat.
Proof. unfold dinode_off, sizeof_dinode, IPB, BSIZE. change (512 / sizeof_dinode) with 8. pose proof (Z.mod_pos_bound inum 8). lia. Qed.

Section Iupdate.
Context {fl : Fuel} {dsk : Disk} {laws : DiskLaws dsk}.
Context {ci : nat} {c : cpu} {p : nat} {pr : proc}.
Local Abbreviation env := (env (ci := ci) (c := c) (p := p) (pr := pr)).

Lemma iupdate_env A k n ip x bl s :
  env A k n [] bl s -> k_inodes s !! ip = Some x -> i_dev x = 1 -> owned (iblock x s) s -> iblock x s ∈ A ->
  exists bl' s', iupdate ip s = Ok tt s' /\ env A k n [] bl' s' /\ fs_frame s s' /\
    (forall b, view s' b = if decide (b = iblock x s) then put_dinode (dinode_off (i_inum x)) x (view s b) else view s b) /\
    (forall b, owned b s -> owned b s') /\ (forall b, 0 <= b < sb_size (k_sb s) -> used s' b = used s b).
Proof.
  intros He Hx Hdev Ho HA. unfold iupdate. mstep by (by apply inode_get_ok). mstep. rewrite Hdev. fold (iblock x s).
  destruct (bread_env A k n bl _ s He Ho) as (i & s1 & H1 & He1 & Hh1 & Hs1 & Hv1 & Hf1). mstep with (H1).
  assert (Hx1 : k_inodes s1 !! ip = Some x) by (destruct Hf1 as (_ & _ & _ & _ & ->); done). mstep by (by apply inode_get_ok).
  pose proof (silent_env _ _ _ _ _ s s1 He Hf1 Hv1) as S1. pose proof (si_owned _ _ S1 _ Ho) as Ho1.
  set (g := put_dinode (dinode_off (i_inum x)) x).
  destruct (log_env A k n bl i _ g s1 He1 Hh1 Ho1 HA) as (s2 & s3 & H2 & H3 & He3 & Hs3 & Hv3 & Hf3). mstep with (H2). mstep with (H3).
  destruct (brelse_env _ _ _ _ i s3 He3 Hs3) as (s4 & H4 & He4 & Hv4 & Hf4).
  pose proof (silent_env _ _ _ _ _ s3 s4 He3 Hf4 Hv4) as S4. pose proof (owned_mapb _ _ _ _ _ _ _ He1 Ho1) as Hm.
  pose proof (fs_frame_sb _ _ Hf1) as E1. pose proof (fs_frame_sb _ _ Hf3) as E3.
  assert (Hu : forall b, 0 <= b < sb_size (k_sb s) -> used s3 b = used s1 b).
  { intros b Hb. apply (env_used _ _ _ _ _ s1 s3 b He1 Hf3); [|by rewrite E1]. rewrite Hv3, decide_False; congruence. }
  exists (add_block (iblock x s) bl), s4. split_and!; try done.
  - etrans; [exact Hf1|]. by etrans.
  - intros b. rewrite Hv4, Hv3, !Hv1. by case_decide as E; [subst b|].
  - intros b Hb. apply (si_owned _ _ S4). apply (si_owned _ _ S1) in Hb. apply (owned_step b s1); [done| | |done].
    + rewrite Hu; [apply Hb|]. rewrite <- E1. apply Hb.
    + rewrite Hv3. case_decide; [unfold g; rewrite length_put_dinode; apply Ho1|apply Hb].
  - intros b Hb. rewrite (si_used _ _ S4) by (by rewrite E3, E1). rewrite Hu by done. by apply (si_used _ _ S1).
Qed.
End Iupdate.

(** ** Reading *)

Lemma silent_view s s' : fs_frame s s' -> (forall b, view s' b = view s b) -> silent s s'.
Proof.
  intros Hf Hv. assert (Hu : forall b, used s' b = used s b) by (intros b; apply used_same; [by apply fs_frame_sb|done]).
  split; [done|done| |done]. intros b Hb. apply (owned_step b s); [done|rewrite Hu; apply Hb|rewrite Hv; apply Hb|done].
Qed.

Lemma silent_inodes s s' : silent s s' -> k_inodes s' = k_inodes s.
Proof. intros [(_ & _ & _ & _ & ->) _ _ _]. done. Qed.

Lemma silent_refl s : silent s s.
Proof. by apply silent_view. Qed.

(** Reads leave the dirty buffers alone as well. *)
Record calm (s s' : kstate) : Prop := {
  ca_silent : silent s s';
  ca_frame : bio_frame s s';
  ca_dirty : forall b, is_dirty s' b = is_dirty s b }.

Lemma calm_refl s : calm s s.
Proof. split; [apply silent_refl|done|done]. Qed.

Lemma calm_trans s s1 s2 : calm s s1 -> calm s1 s2 -> calm s s2.
Proof. intros [S1 F1 D1] [S2 F2 D2]. split; [by eapply silent_trans|by etrans|]. intros b. by rewrite D2. Qed.

Section Read.
Context {fl : Fuel} {dsk : Disk} {laws : DiskLaws dsk} {dsw : Devsw}.
Context {ci : nat} {c : cpu} {p : nat} {pr : proc}.

(** The cache has a buffer to read into; a transaction may have written the blocks
    [bl], and need not be open. *)
Record reading (bl : list Z) (s : kstate) : Prop := {
  rg_kmode : kmode ci c p pr s;
  rg_cache : exists l, bcache_inv (p_pid pr) [] l s;
  rg_dirty : forall b, is_dirty s b = true -> b ∈ bl;
  rg_room : (length bl < NBUF)%nat }.

Lemma intxn_reading bl s : intxn (ci := ci) (c := c) (p := p) (pr := pr) [] bl s -> reading bl s.
Proof. intros [H1 H2 H3 H4 H5 H6 H7 H8 H9]. split; [done|done|intros b; by rewrite H5|by eapply tx_few]. Qed.

(** A block is read, and released when the inodes have become [f] of what they were. *)
Lemma read_block_with f bl b s :
  reading bl s -> 0 <= b < d_size (k_disk s) ->
  exists i d s1 s2, bread 1 b s = Ok i s1 /\ k_bufs s1 !! i = Some d /\ b_data d = view s b /\ k_inodes s1 = k_inodes s /\
    brelse i (with_inodes (f (k_inodes s)) s1) = Ok tt s2 /\ reading bl s2 /\ calm (with_inodes (f (k_inodes s)) s) s2.
Proof.
  intros [Hk [l HI] Hd Hr] Hb. set (ino := f (k_inodes s)).
  destruct (bread_ok [] l b s Hk HI Hb) as (i & d & s1 & H1 & HiH & HI1 & Hd1 & Hb1 & Hdat & Hco & _ & Hv1 & Hf1 & Hk1).
  { by intros ? ? ?%not_elem_of_nil. }
  { right. eapply room_if_few_dirty; [exact HI|exact Hd|]. cbn [length]. lia. }
  assert (Hkm1 : kmode ci c p pr (with_inodes ino s1)) by (apply (kmode_frame ci c p pr s1); [by apply (kmode_bio _ _ _ _ _ _ Hk Hf1)|done|apply woken_refl]).
  assert (Hf1' : bio_frame (with_inodes ino s) (with_inodes ino s1)).
  { destruct Hf1 as (F1 & F2 & F3 & F4 & F5). split_and!; try done; [apply F4|apply F4|]. rewrite F5. by destruct s. }
  assert (HI1' : bcache_inv (p_pid pr) [i] l (with_inodes ino s1)) by (destruct HI1; by split).
  destruct (brelse_ok [] l i d (with_inodes ino s1) Hkm1 HI1' HiH Hd1) as (l' & s2 & H2 & HI2 & _ & Hv2 & Hf2 & Hk2); [change (k_disk (with_inodes ino s1)) with (k_disk s1); rewrite Hb1, Hk1; exact Hco|].
  exists i, d, s1, s2. split_and!; try done.
  - destruct Hf1 as (_ & _ & _ & _ & ->). done.
  - split; [by apply (kmode_bio _ _ _ _ _ _ Hkm1 Hf2)|by exists l'| |done].
    intros b'. rewrite (proj2 (Hv2 b')). change (is_dirty (with_inodes ino s1) b') with (is_dirty s1 b'). rewrite (proj2 (Hv1 b')). apply Hd.
  - split; [|by etrans|intros b'; etrans; [exact (proj2 (Hv2 b'))|exact (proj2 (Hv1 b'))]].
    apply silent_view; [|intros b'; etrans; [exact (proj1 (Hv2 b'))|exact (proj1 (Hv1 b'))]].
    etrans; [by apply bio_fs_frame; [exact Hf1'|exact Hk1]|]. by apply bio_fs_frame.
Qed.

Lemma read_block bl b s :
  reading bl s -> 0 <= b < d_size (k_disk s) ->
  exists i d s1 s2, bread 1 b s = Ok i s1 /\ k_bufs s1 !! i = Some d /\ b_data d = view s b /\ k_inodes s1 = k_inodes s /\
    brelse i s1 = Ok tt s2 /\ reading bl s2 /\ calm s s2.
Proof.
  intros Hr Hb. destruct (read_block_with id bl b s Hr Hb) as (i & d & s1 & s2 & H1 & H2 & H3 & H4 & H5 & H6 & H7).
  exists i, d, s1, s2. split_and!; try done; [|by destruct s]. rewrite <- H5. f_equal. unfold with_inodes. cbn [id]. rewrite <- H4. by destruct s1.
Qed.

Lemma intxn_calm bl s s' :
  intxn (ci := ci) (c := c) (p := p) (pr := pr) [] bl s -> reading bl s' -> calm s s' -> intxn (ci := ci) (c := c) (p := p) (pr := pr) [] bl s'.
Proof. intros Hi [_ [l HI] _ _] [S F D]. by apply (intxn_step [] [] bl s s' l Hi F (fs_frame_disk _ _ (si_frame _ _ S))). Qed.

(** [bmap] finds a block that is there. *)
Lemma bmap_finds bl ip x bn s :
  reading bl s -> map_ok [] s -> file_ok x s -> k_inodes s !! ip = Some x -> 0 <= bn < MAXFILE -> baddr x s bn <> 0 ->
  exists s', bmap ip bn s = Ok (baddr x s bn) s' /\ reading bl s' /\ calm s s'.
Proof.
  intros Hr Hmap Hf Hx Hbn Hne. unfold bmap. mstep by (by apply inode_get_ok). unfold baddr in *. cbv zeta.
  destruct (Z.ltb_spec bn NDIRECT) as [Hd|Hi].
  - rewrite (addr_lookup x s bn Hf) by lia. cbn [deref]. mstep. rewrite (proj2 (Z.eqb_neq _ _)) by done.
    exists s. split_and!; [done|done|apply calm_refl].
  - rewrite (proj2 (Z.ltb_lt _ _)) by (unfold MAXFILE in Hbn; lia). rewrite (addr_lookup x s NDIRECT Hf) by (unfold NDIRECT; lia). cbn [deref]. mstep.
    fold (ind x). destruct (Z.eqb_spec (ind x) 0) as [E0|Hind]; [done|]. mstep.
    assert (Hrange : 0 <= ind x < d_size (k_disk s)).
    { destruct (fo_ind _ _ Hf Hind) as [(G1 & _) _ _]. destruct (mo_size _ _ Hmap). lia. }
    destruct (read_block bl (ind x) s Hr Hrange) as (i & d & s1 & s2 & H1 & Hd & Hdat & _ & H2 & Hr2 & Hs). rewrite (fo_dev _ _ Hf).
    mstep with (H1). mstep by (by apply buf_get_ok). rewrite Hdat, (proj2 (Z.eqb_neq _ _)) by done. mstep. mstep with (H2). by exists s2.
Qed.

Lemma silent_map_ok s s' : silent s s' -> map_ok [] s -> map_ok [] s'.
Proof. intros [F V O U] Hm. apply (map_ok_read [] s); try done. by intros i ?%not_elem_of_nil. Qed.

(** The bytes of the file from [a] to [b]. *)
Definition slice (x : inode) (s : kstate) (a b : Z) : list Z := map (fbyte x s) (zrange a b).

Lemma silent_slice x s s' a b : silent s s' -> file_ok x s -> slice x s' a b = slice x s a b.
Proof.
  intros Hs Hf. destruct (silent_file x s s' Hs Hf) as [_ Hb]. unfold slice, fbyte. apply map_ext. intros k.
  by rewrite Hb, (si_view _ _ Hs).
Qed.


(** The part of a block that a read takes. *)
Lemma block_slice x s off m :
  file_ok x s -> 0 <= off -> 0 < m -> off mod BSIZE + m <= BSIZE -> off / BSIZE < MAXFILE -> baddr x s (off / BSIZE) <> 0 ->
  take (Z.to_nat m) (drop (Z.to_nat (off mod BSIZE)) (view s (baddr x s (off / BSIZE)))) = slice x s off (off + m).
Proof.
  intros Hf Hoff Hm Hfit Hmax Hne. assert (Hbn : 0 <= off / BSIZE) by (fs_sizes; Z.div_mod_to_equations; lia).
  pose proof (ow_len _ _ (fo_block _ _ Hf _ (conj Hbn Hmax) Hne)) as Hlen.
  pose proof (Z.mod_pos_bound off BSIZE ltac:(done)) as Hmod. fs_sizes. apply list_eq. intros k. unfold slice. rewrite list_lookup_fmap.
  destruct (decide (k < Z.to_nat m)%nat) as [Hk|Hk].
  - rewrite lookup_take_lt, lookup_drop, lookup_zrange by lia. unfold fbyte. fs_sizes. cbn [fmap option_fmap option_map].
    assert (E : (off + Z.of_nat k) / 512 = off / 512 /\ (off + Z.of_nat k) mod 512 = off mod 512 + Z.of_nat k) by (Z.div_mod_to_equations; lia).
    destruct E as [-> ->]. destruct (lookup_lt_is_Some_2 (view s (baddr x s (off / 512))) (Z.to_nat (off mod 512) + k)) as [v Hv]; [lia|].
    rewrite Hv. f_equal. symmetry. apply nth_lookup_Some. rewrite <- Hv. f_equal. lia.
  - rewrite lookup_take_ge by lia. rewrite lookup_ge_None_2; [done|]. rewrite length_zrange. lia.
Qed.

Lemma readi_loop_ok fuel bl ip x off len s :
  reading bl s -> map_ok [] s -> file_ok x s -> k_inodes s !! ip = Some x -> 0 <= off -> 0 <= len -> off + len <= MAXFILE * BSIZE ->
  (forall bn, 0 <= bn < MAXFILE -> touches off (off + len) bn -> baddr x s bn <> 0) -> (Z.to_nat len <= fuel)%nat ->
  exists s', readi_loop fuel ip off len s = Ok (slice x s off (off + len)) s' /\ reading bl s' /\ calm s s'.
Proof.
  revert off len s. induction fuel as [|fuel IH]; intros off len s Hr Hm Hf Hx Hoff Hlen Hmax Hall Hfuel; cbn [readi_loop].
  { assert (len = 0) as -> by lia. exists s. unfold slice. rewrite zrange_nil by lia. split_and!; [done|done|apply calm_refl]. }
  destruct (Z.leb_spec len 0) as [Hz|Hpos].
  { assert (len = 0) as -> by lia. exists s. unfold slice. rewrite zrange_nil by lia. split_and!; [done|done|apply calm_refl]. }
  mstep by (by apply inode_get_ok). set (m := Z.min len (BSIZE - off mod BSIZE)).
  assert (Hmm : 0 < m <= len /\ off mod BSIZE + m <= BSIZE) by (unfold m; blocks).
  assert (Hbn : 0 <= off / BSIZE < MAXFILE) by blocks. assert (Hne : baddr x s (off / BSIZE) <> 0) by (apply Hall; [done|blocks]).
  destruct (bmap_finds bl ip x _ s Hr Hm Hf Hx Hbn Hne) as (s1 & H1 & Hr1 & S1). mstep with (H1). rewrite (fo_dev _ _ Hf).
  pose proof (ca_silent _ _ S1) as S1'. destruct (silent_file x s s1 S1' Hf) as [Hf1 Hb1]. pose proof (silent_map_ok s s1 S1' Hm) as Hm1.
  assert (Hrange : 0 <= baddr x s (off / BSIZE) < d_size (k_disk s1)).
  { rewrite <- Hb1 in *. destruct (fo_block _ _ Hf1 _ Hbn Hne) as [(G1 & _) _ _]. destruct (mo_size _ _ Hm1). lia. }
  destruct (read_block bl _ s1 Hr1 Hrange) as (i & d & s2 & s3 & H2 & Hd & Hdat & _ & H3 & Hr3 & S3). mstep with (H2). cbv zeta.
  mstep by (by apply buf_get_ok). mstep with (H3). pose proof (calm_trans _ _ _ S1 S3) as Q13. pose proof (ca_silent _ _ Q13) as S13.
  destruct (silent_file x s s3 S13 Hf) as [Hf3 Hb3]. rewrite u32_id by (fs_sizes; lia). 
  destruct (IH (off + m) (len - m) s3) as (s4 & H4 & Hr4 & S4); try (done || lia).
  { by apply (silent_map_ok s). } { by rewrite (silent_inodes _ _ S13). }
  { intros bn Hbn' Ht. rewrite Hb3. apply Hall; [done|]. unfold touches in *. fs_sizes. unfold m in *. Z.div_mod_to_equations. lia. }
  rewrite (bind_ok _ _ _ _ _ H4). replace (off + m + (len - m)) with (off + len) in * by lia.
  exists s4. split_and!; [|done|by eapply calm_trans]. rewrite (silent_slice x s s3) by done. unfold ret. f_equal.
  rewrite Hdat, (si_view _ _ S1'), (block_slice x s off m) by (done || lia). unfold slice. rewrite <- map_app, <- zrange_split by lia. done.
Qed.

(** [readi] inside the file, as far as the file goes. *)
Lemma readi_ok bl ip x off n s :
  reading bl s -> map_ok [] s -> file_inv x s -> k_inodes s !! ip = Some x -> 0 <= off <= i_size x -> 0 <= n -> off + n < 4294967296 ->
  exists s', readi ip off n s = Ok (Z.min n (i_size x - off), slice x s off (Z.min (off + n) (i_size x))) s' /\ reading bl s' /\ calm s s'.
Proof.
  intros Hr Hm Hi Hx Hoff Hn Hbig. pose proof (fi_size _ _ Hi) as Hsz. unfold readi. mstep by (by apply inode_get_ok).
  rewrite (proj2 (Z.eqb_neq _ _)) by apply Hi. rewrite (u32_id (off + n)) by lia. rewrite !(proj2 (Z.ltb_ge _ _)) by lia. cbn [orb].
  set (len := Z.min n (i_size x - off)).
  assert (En : (if i_size x <? off + n then u32 (i_size x - off) else n) = len).
  { unfold len. destruct (Z.ltb_spec (i_size x) (off + n)); [rewrite u32_id by (fs_sizes; lia)|]; lia. }
  rewrite En. cbv zeta.
  destruct (readi_loop_ok (Z.to_nat len) bl ip x off len s) as (s' & H1 & Hr' & Hs); try (done || unfold len; fs_sizes; lia).
  { apply Hi. } { intros bn Hbn Ht. apply (fi_full _ _ Hi); [lia|]. unfold touches, len in *. fs_sizes. Z.div_mod_to_equations. lia. }
  mstep with (H1). exists s'. split_and!; [|done|done]. replace (off + len) with (Z.min (off + n) (i_size x)) by (unfold len; lia).
  rewrite i32_id by (unfold len; fs_sizes; lia). done.
Qed.
End Read.

(** ** Writing *)

Lemma file_ok_size v x s : file_ok x s -> file_ok (x <| i_size := v |>) s.
Proof. intros [H1 H2 H3 H4 H5 H6]. by split. Qed.

(** [s'] has the blocks of [s] but for a block that is not the file's. *)
Lemma file_ok_but x b s s' :
  file_ok x s -> ~ of_file x s b -> (forall b', b' <> b -> view s' b' = view s b') -> (forall b', owned b' s -> owned b' s') ->
  file_ok x s' /\ (forall bn, baddr x s' bn = baddr x s bn) /\
  forall k, 0 <= k < MAXFILE * BSIZE -> baddr x s (k / BSIZE) <> 0 -> fbyte x s' k = fbyte x s k.
Proof.
  intros [F1 F2 F3 F4 F5 F6] Hnot Hv Ho.
  assert (Hb : forall bn, baddr x s' bn = baddr x s bn).
  { intros bn. apply baddr_same. intros Hi. apply Hv. intros E. apply Hnot. by left. }
  split_and!; [split; try done|done|].
  - intros bn Hbn. rewrite Hb. intros Hne. by apply Ho, F3.
  - intros Hi. by apply Ho, F4.
  - intros b1 b2 H1 H2. rewrite !Hb. by apply F5.
  - intros bn Hbn. rewrite Hb. by apply F6.
  - intros k Hk Hne. unfold fbyte. rewrite Hb, Hv; [done|]. intros E. apply Hnot. right. exists (k / BSIZE).
    split; [fs_sizes; Z.div_mod_to_equations; lia|done].
Qed.

Lemma file_addrs x s : file_ok x s -> 0 <= sb_size (k_sb s) < 4294967296 -> Forall (fun a => 0 <= a < 4294967296) (i_addrs x).
Proof.
  intros Hf Hs. apply Forall_lookup_2. intros k a Ha. pose proof (lookup_lt_Some _ _ _ Ha) as Hk. rewrite (fo_addrs _ _ Hf) in Hk.
  assert (Hown : a <> 0 -> owned a s).
  { intros Hne. destruct (decide (k = 12%nat)) as [->|].
    - assert (E : ind x = a) by (apply nth_lookup_Some; exact Ha). rewrite <- E in *. by apply (fo_ind _ _ Hf).
    - assert (E : baddr x s (Z.of_nat k) = a).
      { unfold baddr, NDIRECT. rewrite (proj2 (Z.ltb_lt _ _)) by lia. rewrite Nat2Z.id. by apply nth_lookup_Some. }
      rewrite <- E in *. apply (fo_block _ _ Hf); [|done]. fs_sizes. lia. }
  destruct (decide (a = 0)) as [->|Hne]; [lia|]. destruct (Hown Hne) as [(G & _) _ _]. lia.
Qed.

(** The effect of a write on the files. *)
Record replaced (ip : nat) (x x' : inode) (src : Z -> Z) (off len : Z) (s s' : kstate) : Prop := {
  rp_frame : fs_frame (with_inodes (<[ip := x']> (k_inodes s)) s) s';
  rp_inode : x' = x <| i_addrs := i_addrs x' |> <| i_size := Z.max (i_size x) (off + len) |>;
  rp_inv : file_inv x' s';
  rp_bytes : forall k, 0 <= k < i_size x' -> fbyte x' s' k = if decide (off <= k < off + len) then src (k - off) else fbyte x s k;
  rp_others : forall b, owned b s -> owned b s' /\ (~ of_file x s b -> b <> iblock x s -> view s' b = view s b);
  rp_dinodes : forall inum y, dinode_off inum <> dinode_off (i_inum x) ->
    get_dinode (view s' (iblock x s)) (dinode_off inum) y = get_dinode (view s (iblock x s)) (dinode_off inum) y }.

Lemma dinode_apart i j : dinode_off i <> dinode_off j -> (dinode_off i + 64 <= dinode_off j \/ dinode_off j + 64 <= dinode_off i)%nat.
Proof.
  unfold dinode_off, sizeof_dinode, IPB, BSIZE. change (512 / sizeof_dinode) with 8.
  pose proof (Z.mod_pos_bound i 8). pose proof (Z.mod_pos_bound j 8). lia.
Qed.

(** The inode block is untouched by the writes to the file. *)
Lemma written_apart ip x x1 f lo hi s s1 :
  file_inv x s -> written ip x x1 f lo hi s s1 ->
  ~ of_file x1 s1 (iblock x s) /\ owned (iblock x s) s1 /\ view s1 (iblock x s) = view s (iblock x s).
Proof.
  intros Hi [W1 W2 W3 W4 W5 W6 W7 W8 W9 W10 W11]. pose proof (ow_used _ _ (fi_iblock _ _ Hi)) as Hub.
  destruct (W11 _ (fi_iblock _ _ Hi)) as [Ho Hv]. pose proof (fi_apart _ _ Hi) as Hap. set (ib := iblock x s) in *. split_and!; [|done|].
  - intros [E|(bn & Hbn & E)]; apply Hap.
    + destruct W8 as [E'|[_ Hu]]; [left; congruence|]. rewrite <- E in Hu. congruence.
    + destruct (W7 bn Hbn) as [E'|[_ Hu]]; [right; exists bn; split; [done|congruence]|]. rewrite E in Hu. congruence.
  - apply Hv; [intros E; apply Hap; by left|intros bn Hbn E; apply Hap; right; by exists bn].
Qed.

(** The blocks of the file reach to the end of the write. *)
Lemma written_full ip x x1 f off len s s1 k :
  file_inv x s -> 0 <= off <= i_size x -> off + len <= MAXFILE * BSIZE -> written ip x x1 f off (off + len) s s1 ->
  0 <= k < Z.max (i_size x) (off + len) -> baddr x1 s1 (k / BSIZE) <> 0.
Proof.
  intros Hi Hoff Hmax Hw Hk. pose proof (fi_size _ _ Hi). apply (wt_alloc _ _ _ _ _ _ _ _ Hw); [fs_sizes; Z.div_mod_to_equations; lia|].
  destruct (decide (off <= k < off + len)); [right; blocks|left]. apply (fi_full _ _ Hi); fs_sizes; Z.div_mod_to_equations; lia.
Qed.

Lemma written_bytes ip x x1 src off len s s1 k :
  file_inv x s -> 0 <= off <= i_size x -> written ip x x1 (fun j => src (j - off + 0)) off (off + len) s s1 ->
  0 <= k < Z.max (i_size x) (off + len) ->
  fbyte x1 s1 k = if decide (off <= k < off + len) then src (k - off) else fbyte x s k.
Proof.
  intros Hi Hoff Hw Hk. pose proof (fi_size _ _ Hi). case_decide.
  - rewrite (wt_bytes _ _ _ _ _ _ _ _ Hw) by done. f_equal. lia.
  - apply (wt_same _ _ _ _ _ _ _ _ Hw); [lia|lia|]. apply (fi_full _ _ Hi); fs_sizes; Z.div_mod_to_equations; lia.
Qed.

(** From the loop of [writei] to its end, when the file has grown. *)
Lemma replaced_grown ip x x1 src off len s s1 s2 :
  file_inv x s -> 0 <= off <= i_size x -> i_size x < off + len -> off + len <= MAXFILE * BSIZE -> sb_size (k_sb s) < 4294967296 ->
  written ip x x1 (fun j => src (j - off + 0)) off (off + len) s s1 ->
  let x' := x1 <| i_size := off + len |> in
  fs_frame (with_inodes (<[ip := x']> (k_inodes s)) s1) s2 ->
  (forall b, view s2 b = if decide (b = iblock x s) then put_dinode (dinode_off (i_inum x')) x' (view s1 b) else view s1 b) ->
  (forall b, owned b s1 -> owned b s2) -> replaced ip x x' src off len s s2.
Proof.
  intros Hi Hoff Hgrow Hmax Hsb Hw x' Hfr Hv Ho. destruct (written_apart _ _ _ _ _ _ _ _ Hi Hw) as (Hnot & Hib1 & Hvib).
  assert (Hlook : forall k, 0 <= k < off + len -> baddr x1 s1 (k / BSIZE) <> 0).
  { intros k Hk. eapply written_full; try done. lia. }
  assert (Hbytes := written_bytes ip x x1 src off len s s1). destruct (Hw) as [W1 W2 W3 _ _ _ _ _ _ _ W11].
  pose proof (fs_frame_sb _ _ W1) as Es. change (k_sb (with_inodes _ s)) with (k_sb s) in Es.
  pose proof (fs_frame_sb _ _ Hfr) as Es2. change (k_sb (with_inodes _ s1)) with (k_sb s1) in Es2.
  assert (Einum : i_inum x' = i_inum x) by (unfold x'; rewrite W2; done).
  assert (Eib : iblock x' s2 = iblock x s) by (unfold iblock; by rewrite Es2, Es, Einum). set (ib := iblock x s) in *.
  destruct (file_ok_but x1 ib s1 s2 W3 Hnot) as (Hf2 & Hb2 & Hk2); [intros b' Hne; by rewrite Hv, decide_False|done|].
  assert (Hdin : fits x').
  { destruct (fi_fits _ _ Hi). unfold x'. rewrite W2. split; rsimpl; try done; [fs_sizes; lia| |apply W3].
    apply (file_addrs x1 s1 W3). rewrite Es. destruct (fi_iblock _ _ Hi) as [(G & _) _ _]. lia. }
  split.
  - eapply frame_trans; [exact W1|exact Hfr].
  - unfold x'. rewrite W2. rsimpl. rewrite Z.max_r by lia. by destruct x.
  - split; rewrite ?Eib; try done.
    + by apply file_ok_size.
    + unfold x'. rewrite W2. apply Hi.
    + unfold x'. rsimpl. lia.
    + intros bn Hbn Hlt. unfold x' in Hlt. rsimpl in Hlt. change (baddr x' s2 bn) with (baddr x1 s2 bn). rewrite Hb2.
      replace bn with (bn * BSIZE / BSIZE) by (by rewrite Z.div_mul). apply Hlook. fs_sizes. lia.
    + apply Ho, Hib1.
    + intros [E|(bn & Hbn & E)]; apply Hnot; [by left|right]. exists bn. split; [done|].
      change (baddr x' s2 bn) with (baddr x1 s2 bn) in E. by rewrite Hb2 in E.
    + rewrite Hv, decide_True by done. apply dinode_roundtrip; [done|]. rewrite (ow_len _ _ Hib1). apply dinode_fits.
  - unfold x'. rsimpl. intros k Hk. change (fbyte x' s2 k) with (fbyte x1 s2 k). rewrite Hk2; [|fs_sizes; lia|by apply Hlook].
    apply Hbytes; try done. lia.
  - intros b Hb. destruct (W11 b Hb) as [G1 G2]. split; [by apply Ho|]. intros Hn Hne. rewrite Hv, decide_False by done.
    apply G2; [intros E; apply Hn; by left|intros bn Hbn E; apply Hn; right; by exists bn].
  - intros inum y Hne. fold ib. rewrite Hv, decide_True, Einum, Hvib by done. rewrite put_dinode_other; [done|apply Hdin|]. by apply dinode_apart.
Qed.

(** When it has not, the inode is as before. *)
Lemma replaced_inside ip x x1 src off len s s1 :
  file_inv x s -> 0 <= off <= i_size x -> 0 <= len -> off + len <= i_size x ->
  written ip x x1 (fun j => src (j - off + 0)) off (off + len) s s1 -> replaced ip x x1 src off len s s1.
Proof.
  intros Hi Hoff Hlen Hin Hw. pose proof (fi_size _ _ Hi) as Hsz. destruct (written_apart _ _ _ _ _ _ _ _ Hi Hw) as (Hnot & Hib1 & Hvib).
  assert (Hbytes := written_bytes ip x x1 src off len s s1). assert (Hfull := written_full ip x x1 (fun j => src (j - off + 0)) off len s s1).
  destruct (Hw) as [W1 W2 W3 _ _ _ _ _ W9 _ W11].
  assert (E : x1 = x) by (apply W9; intros bn Hbn Ht; apply (fi_full _ _ Hi); blocks).
  pose proof (fs_frame_sb _ _ W1) as Es. change (k_sb (with_inodes _ s)) with (k_sb s) in Es. rewrite E in *.
  assert (Eib : iblock x s1 = iblock x s) by (unfold iblock; by rewrite Es).
  split; try done.
  - rewrite Z.max_l by lia. by destruct x.
  - split; rewrite ?Eib; try done; [apply Hi| |apply Hi|by rewrite Hvib; apply Hi].
    intros bn Hbn Hlt. replace bn with (bn * BSIZE / BSIZE) by (by rewrite Z.div_mul). apply (Hfull (bn * BSIZE)); try done; fs_sizes; lia.
  - intros k Hk. apply Hbytes; try done. lia.
  - intros b Hb. destruct (W11 b Hb) as [G1 G2]. split; [done|]. intros Hn Hne.
    apply G2; [intros E'; apply Hn; by left|intros bn Hbn E'; apply Hn; right; by exists bn].
  - intros inum y Hne. by rewrite Hvib.
Qed.

Section Writei.
Context {fl : Fuel} {dsk : Disk} {laws : DiskLaws dsk} {dsw : Devsw}.
Context {ci : nat} {c : cpu} {p : nat} {pr : proc}.
Local Abbreviation env := (env (ci := ci) (c := c) (p := p) (pr := pr)).
Local Abbreviation intxn := (intxn (ci := ci) (c := c) (p := p) (pr := pr)).

Lemma writei_env A k m ip x src off n bl s :
  env A (nblocks off n + k + pot A x) (nblocks off n + m + pot A x) [] bl s -> file_inv x s -> k_inodes s !! ip = Some x ->
  iblock x s ∈ A -> 0 <= off <= i_size x -> 0 <= n -> off + n <= MAXFILE * BSIZE ->
  exists x' A' bl' s', writei ip src off n s = Ok n s' /\ env A' k m [] bl' s' /\ replaced ip x x' src off n s s'.
Proof.
  intros He Hi Hx HA Hoff Hn Hmax. pose proof (lookup_lt_Some _ _ _ Hx) as Hip. pose proof (fi_file _ _ Hi) as Hf.
  unfold writei. mstep by (by apply inode_get_ok). rewrite (proj2 (Z.eqb_neq _ _)) by apply Hi.
  rewrite (u32_id (off + n)) by (fs_sizes; lia). rewrite !(proj2 (Z.ltb_ge _ _)) by lia. cbn [orb].
  destruct (writei_loop_ok (Z.to_nat n) A k m ip x src 0 off n bl s He Hf Hx) as (x1 & A1 & bl1 & s1 & H1 & HA1 & He1 & Hw); try (done || lia).
  mstep with (H1). pose proof (frame_inodes_inv _ _ _ (wt_frame _ _ _ _ _ _ _ _ Hw)) as El.
  assert (Hx1 : k_inodes s1 !! ip = Some x1) by (rewrite El; by apply list_lookup_insert_eq). mstep by (by apply inode_get_ok).
  assert (Esz : i_size x1 = i_size x) by (by rewrite (wt_x _ _ _ _ _ _ _ _ Hw)). rewrite Esz.
  apply (env_le _ _ k _ m) in He1; [|lia..]. rewrite i32_id by (fs_sizes; lia).
  destruct (decide (i_size x < off + n)) as [Hg|Hng].
  - rewrite (proj2 (Z.ltb_lt 0 n)), (proj2 (Z.ltb_lt _ _)) by lia. cbn [andb when].
    set (x' := x1 <| i_size := off + n |>). set (s2 := with_inodes (<[ip := x']> (k_inodes s1)) s1).
    assert (Hu : inode_upd ip (fun x => x <| i_size := off + n |>) s1 = Ok tt s2) by (rewrite (inode_upd_ok ip x1) by done; done).
    pose proof (env_inodes _ _ _ _ _ (<[ip := x']> (k_inodes s1)) _ He1) as He2. fold s2 in He2.
    destruct (written_apart _ _ _ _ _ _ _ _ Hi Hw) as (_ & Hib & _).
    pose proof (fs_frame_sb _ _ (wt_frame _ _ _ _ _ _ _ _ Hw)) as Es. change (k_sb (with_inodes _ s)) with (k_sb s) in Es.
    assert (Eib : iblock x' s2 = iblock x s).
    { unfold iblock. change (k_sb s2) with (k_sb s1). rewrite Es. unfold x'. by rewrite (wt_x _ _ _ _ _ _ _ _ Hw). }
    destruct (iupdate_env A1 k m ip x' bl1 s2 He2) as (bl2 & s3 & H3 & He3 & Hf3 & Hv3 & Ho3 & _).
    { unfold s2, with_inodes. rsimpl. apply list_lookup_insert_eq. by eapply lookup_lt_Some. }
    { unfold x'. rewrite (wt_x _ _ _ _ _ _ _ _ Hw). apply Hf. } { rewrite Eib. by apply owned_inodes. } { rewrite Eib. set_solver. }
    rewrite Eib in Hv3. exists x', A1, bl2, s3. split_and!; [|done|].
    + assert (Hc : (inode_upd ip (fun x => x <| i_size := off + n |>);; iupdate ip) s1 = Ok tt s3) by (mstep with (Hu); exact H3). by mstep with (Hc).
    + unfold s2 in Hf3. rewrite El, list_insert_insert_eq in Hf3. apply (replaced_grown ip x x1 src off n s s1 s3); try done.
      * destruct (mo_size _ _ (ev_map _ _ _ _ _ _ He)), (mo_start _ _ (ev_map _ _ _ _ _ _ He)). lia.
      * intros b Hb. by apply Ho3, owned_inodes.
  - rewrite (proj2 (Z.ltb_ge (i_size x) _)), andb_false_r by lia. cbn [when]. mstep. exists x1, A1, bl1, s1. split_and!; [done|done|].
    apply replaced_inside; try done; lia.
Qed.

Lemma env_start bl x s k n :
  intxn [] bl s -> map_ok [] s -> 0 < sb_size (k_sb s) <= BPB -> used s 0 = true -> free_blocks n s ->
  Z.of_nat (length bl + k) + 4 < l_size (k_log s) ->
  env ({[mapb s]} ∪ ({[iblock x s]} ∪ list_to_set bl)) k n [] bl s.
Proof.
  intros Hi Hm Hs Hz Hfree Hroom. set (A := _ ∪ _). pose proof (it_size _ _ _ Hi).
  assert (HA : (size A <= length bl + 2)%nat).
  { unfold A. rewrite size_union_alt, size_singleton. pose proof (subseteq_size (({[iblock x s]} ∪ list_to_set bl) ∖ {[mapb s]}) ({[iblock x s]} ∪ list_to_set bl : gset Z) ltac:(set_solver)) as H1.
    pose proof (size_union_alt ({[iblock x s]} : gset Z) (list_to_set bl)) as H2. rewrite size_singleton in H2.
    pose proof (subseteq_size (list_to_set bl ∖ {[iblock x s]}) (list_to_set bl : gset Z) ltac:(set_solver)) as H3.
    rewrite (size_list_to_set (C := gset Z)) in H3 by (by eapply tx_dup, it_txn). lia. }
  split; try done; try (unfold A; set_solver); try lia; simpl; lia.
Qed.
End Writei.

Lemma nblocks_chunk off n : 0 <= off -> 0 <= n <= max_write -> (nblocks off n <= 4)%nat.
Proof. unfold max_write, nblocks. intros Hoff Hn. change MAXOPBLOCKS with 10 in *. destruct (n <=? 0); [lia|]. fs_sizes. Z.div_mod_to_equations. lia. Qed.

(** [writei] inside a transaction; [m] blocks more stay free. *)
Lemma writei_txn_free {fl : Fuel} {dsk : Disk} {laws : DiskLaws dsk} {dsw : Devsw} ci c p pr ip x src off n m bl s :
  intxn (ci := ci) (c := c) (p := p) (pr := pr) [] bl s -> map_ok [] s -> 0 < sb_size (k_sb s) <= BPB -> used s 0 = true ->
  free_blocks (nblocks off n + 1 + m) s -> Z.of_nat (length bl + nblocks off n) + 5 < l_size (k_log s) ->
  file_inv x s -> k_inodes s !! ip = Some x -> 0 <= off <= i_size x -> 0 <= n -> off + n <= MAXFILE * BSIZE ->
  exists x' bl' s', writei ip src off n s = Ok n s' /\
    intxn (ci := ci) (c := c) (p := p) (pr := pr) [] bl' s' /\ map_ok [] s' /\ (length bl' <= length bl + nblocks off n + 3)%nat /\
    replaced ip x x' src off n s s' /\ free_blocks m s' /\ used s' 0 = true.
Proof.
  intros Hi Hm Hsb Hz Hfree Hroom Hinv Hx Hoff Hn Hmax. set (A := {[mapb s]} ∪ ({[iblock x s]} ∪ list_to_set bl) : gset Z).
  set (k := (Z.to_nat (l_size (k_log s)) - 5 - length bl - nblocks off n - pot A x)%nat).
  assert (Hp : (pot A x <= 1)%nat) by (unfold pot; case_decide; lia).
  assert (He : env (ci := ci) (c := c) (p := p) (pr := pr) A (nblocks off n + k + pot A x) (nblocks off n + m + pot A x) [] bl s).
  { apply env_start; try done; [by eapply free_blocks_le; [|exact Hfree]; lia|]. unfold k. lia. }
  destruct (writei_env A k m ip x src off n bl s He Hinv Hx) as (x' & A' & bl' & s' & H1 & He' & Hrep); [unfold A; clear; set_solver|done..|].
  pose proof (env_length _ _ _ _ _ _ He') as Hlen. pose proof (ev_log _ _ _ _ _ _ He') as Hlog. pose proof (rp_frame _ _ _ _ _ _ _ _ Hrep) as Hfr.
  assert (El : l_size (k_log s') = l_size (k_log s)) by (destruct Hfr as (_ & _ & _ & [_ E] & _); exact E). rewrite El in Hlog.
  exists x', bl', s'. split_and!; [done|apply He'|apply He'| |done|apply He'|apply He']. unfold k in Hlog. lia.
Qed.

Lemma writei_txn {fl : Fuel} {dsk : Disk} {laws : DiskLaws dsk} {dsw : Devsw} ci c p pr ip x src off n bl s :
  intxn (ci := ci) (c := c) (p := p) (pr := pr) [] bl s -> map_ok [] s -> 0 < sb_size (k_sb s) <= BPB -> used s 0 = true ->
  free_blocks (nblocks off n + 1) s -> Z.of_nat (length bl + nblocks off n) + 5 < l_size (k_log s) ->
  file_inv x s -> k_inodes s !! ip = Some x -> 0 <= off <= i_size x -> 0 <= n -> off + n <= MAXFILE * BSIZE ->
  exists x' bl' s', writei ip src off n s = Ok n s' /\
    intxn (ci := ci) (c := c) (p := p) (pr := pr) [] bl' s' /\ map_ok [] s' /\ (length bl' <= length bl + nblocks off n + 3)%nat /\
    replaced ip x x' src off n s s'.
Proof.
  intros. destruct (writei_txn_free ci c p pr ip x src off n 0 bl s) as (x' & bl' & s' & G1 & G2 & G3 & G4 & G5 & _); try done; [by rewrite Nat.add_0_r|]. by exists x', bl', s'.
Qed.

(** ** Properties *)

(** The file [y] shares no block with [x], and its blocks do not hold [x]'s inode. *)
Definition apart (x y : inode) (s : kstate) : Prop :=
  forall b, b <> 0 -> of_file y s b -> ~ of_file x s b /\ b <> iblock x s.

Lemma other_file ip x x' src off n y s s' k :
  replaced ip x x' src off n s s' -> file_inv y s -> apart x y s -> 0 <= k < i_size y -> fbyte y s' k = fbyte y s k.
Proof.
  intros [_ _ _ _ Ho _] Hy Hap Hk. pose proof (fi_file _ _ Hy) as Hf. pose proof (fi_size _ _ Hy) as Hsz.
  assert (Hv : forall b, b <> 0 -> of_file y s b -> owned b s -> view s' b = view s b).
  { intros b Hb Hof Hown. destruct (Hap b Hb Hof) as [H1 H2]. by apply (proj2 (Ho b Hown)). }
  assert (Hbn : 0 <= k / BSIZE < MAXFILE) by (fs_sizes; Z.div_mod_to_equations; lia).
  assert (Hne : baddr y s (k / BSIZE) <> 0) by (apply (fi_full _ _ Hy); fs_sizes; Z.div_mod_to_equations; lia).
  unfold fbyte. rewrite (baddr_same y s s'); [|intros Hi; apply Hv; [done|by left|by apply (fo_ind _ _ Hf)]].
  rewrite Hv; [done|done| |by apply (fo_block _ _ Hf)]. right. by exists (k / BSIZE).
Qed.

(** A file is a sequence of bytes.  Inside a transaction, on a file whose blocks are
    its own, [writei] of [n] bytes at an offset within the file returns [n]: the bytes
    of the file are then the new ones in the range of the write and the old ones
    outside it, its size reaches to the end of the write if that lies beyond the end of
    the file, the copy of the inode in the cache of blocks is up to date, and whatever
    [readi] is asked for afterwards, it returns exactly these bytes, as far as the file
    goes.  Every other file keeps its bytes, the other inodes of the inode block stay,
    nothing has been written to the disk, and the transaction has grown by at most
    three blocks more than the write covers: by no more than [MAXOPBLOCKS] for the
    pieces in which [filewrite] writes. *)
Theorem writei_readi {fl : Fuel} {dsk : Disk} {laws : DiskLaws dsk} {dsw : Devsw} ci c p pr ip x src off n bl s :
  intxn (ci := ci) (c := c) (p := p) (pr := pr) [] bl s -> map_ok [] s -> 0 < sb_size (k_sb s) <= BPB -> used s 0 = true ->
  free_blocks (nblocks off n + 1) s -> Z.of_nat (length bl + nblocks off n) + 5 < l_size (k_log s) ->
  file_inv x s -> k_inodes s !! ip = Some x -> 0 <= off <= i_size x -> 0 <= n -> off + n <= MAXFILE * BSIZE ->
  exists x' bl' s', writei ip src off n s = Ok n s' /\
    intxn (ci := ci) (c := c) (p := p) (pr := pr) [] bl' s' /\ map_ok [] s' /\ k_disk s' = k_disk s /\
    (length bl' <= length bl + nblocks off n + 3)%nat /\
    (n <= max_write -> Z.of_nat (length bl') <= Z.of_nat (length bl) + MAXOPBLOCKS) /\
    replaced ip x x' src off n s s' /\
    (forall off2 n2, 0 <= off2 <= i_size x' -> 0 <= n2 -> off2 + n2 < 4294967296 ->
       exists s2, readi ip off2 n2 s' =
         Ok (Z.min n2 (i_size x' - off2),
             map (fun k => if decide (off <= k < off + n) then src (k - off) else fbyte x s k)
                 (zrange off2 (Z.min (off2 + n2) (i_size x')))) s2 /\ silent s' s2) /\
    (forall y k, file_inv y s -> apart x y s -> 0 <= k < i_size y -> fbyte y s' k = fbyte y s k).
Proof.
  intros Hi Hm Hsb Hz Hfree Hroom Hinv Hx Hoff Hn Hmax.
  destruct (writei_txn ci c p pr ip x src off n bl s) as (x' & bl' & s' & H1 & Hi' & Hm' & Hgrow & Hrep); try done.
  pose proof (rp_frame _ _ _ _ _ _ _ _ Hrep) as Hfr. exists x', bl', s'. split_and!; try done.
  - apply (fs_frame_disk _ _ Hfr).
  - intros Hc. pose proof (nblocks_chunk off n). unfold MAXOPBLOCKS. lia.
  - intros off2 n2 Ho2 Hn2 Hb2. pose proof (frame_inodes_inv _ _ _ Hfr) as Ei.
    destruct (readi_ok bl' ip x' off2 n2 s' (intxn_reading bl' s' Hi') Hm' (rp_inv _ _ _ _ _ _ _ _ Hrep)) as (s2 & H2 & _ & [Hs _ _]);
      try done; [rewrite Ei; apply list_lookup_insert_eq; by eapply lookup_lt_Some|].
    exists s2. split; [|done]. rewrite H2. do 2 f_equal. unfold slice. apply map_ext_in. intros j Hj%list_elem_of_In%elem_of_zrange.
    apply (rp_bytes _ _ _ _ _ _ _ _ Hrep). lia.
  - intros y j Hy Hap Hj. by eapply other_file.
Qed.

(** ** An empty file *)

Definition no_dev : Devsw := {| dev_read := fun _ => None; dev_write := fun _ => None |}.
Definition demo_inode : inode := mkInode 1 1 1 1 0 0 0 0 0 (replicate 13 0).
Definition rw_demo : kstate := with_inodes [demo_inode] alloc_demo.

(** The cache of inodes matters to none of these. *)
Lemma inodes_fields l t : k_sb (with_inodes l t) = k_sb t /\ k_log (with_inodes l t) = k_log t /\ k_inodes (with_inodes l t) = l.
Proof. done. Qed.

Lemma view_inodes l t b : view (with_inodes l t) b = view t b.
Proof. done. Qed.

Lemma map_ok_inodes H l t : map_ok H t -> map_ok H (with_inodes l t).
Proof. intros [M1 M2 M3 M4]. by split. Qed.

Lemma intxn_inodes {ci c p pr} H bl l t :
  intxn (ci := ci) (c := c) (p := p) (pr := pr) H bl t -> intxn (ci := ci) (c := c) (p := p) (pr := pr) H bl (with_inodes l t).
Proof.
  intros [G1 [q G2] G3 G4 G5 G6 G7 G8 G9]. split; try done; [by apply (kmode_frame ci c p pr t)|]. exists q. by destruct G2.
Qed.

Lemma rw_demo_fields : k_sb rw_demo = demo_sb /\ k_log rw_demo = log_demo /\ k_inodes rw_demo = [demo_inode] /\
  forall b, view rw_demo b = if b =? 58 then demo_bitmap else replicate 512 0.
Proof.
  unfold rw_demo. destruct (inodes_fields [demo_inode] alloc_demo) as (-> & -> & ->). rewrite (proj2 alloc_demo_fields).
  split_and!; [reflexivity|done|done|]. intros b. rewrite view_inodes. apply alloc_demo_view.
Qed.

Lemma rw_demo_txn : intxn (ci := 0%nat) (c := fs_cpu) (p := 0%nat) (pr := fs_proc) [] [] rw_demo.
Proof. apply intxn_inodes, alloc_demo_txn. Qed.

Lemma rw_demo_map : map_ok [] rw_demo.
Proof. apply map_ok_inodes, alloc_demo_map. Qed.

#[global] Opaque rw_demo.

Lemma rw_demo_used b : 0 <= b < 100 -> used rw_demo b = bit_set demo_bitmap b.
Proof.
  intros Hb. destruct rw_demo_fields as (Es & _ & _ & Hv). unfold used. rewrite Es.
  assert (E : BBLOCK b demo_sb = 58) by (unfold BBLOCK, BPB, BSIZE; rewrite Z.div_small by lia; reflexivity).
  rewrite E, Hv. change (58 =? 58) with true. cbn iota. rewrite Z.mod_small by (unfold BPB, BSIZE; lia). reflexivity.
Qed.

Lemma rw_demo_free : free_blocks 2 rw_demo.
Proof.
  exists ({[60]} ∪ {[61]} : gset Z). split; [by vm_compute|]. intros b Hb.
  assert (Hc : b = 60 \/ b = 61) by set_solver. destruct rw_demo_fields as (-> & _). cbn [sb_size demo_sb].
  split; [lia|]. rewrite rw_demo_used by lia. destruct Hc as [-> | ->]; by vm_compute.
Qed.

Lemma rw_demo_inode_block : owned 32 rw_demo.
Proof.
  destruct rw_demo_fields as (Es & El & _ & Hv).
  assert (Hd : data_block [] 32 rw_demo).
  { unfold data_block. rewrite Es, El.
    split; [split; [discriminate|reflexivity]|]. split; [unfold in_area; simpl; lia|].
    split; [intros i Hi; destruct (not_elem_of_nil i Hi)|]. intros b' Hb'. cbn [sb_size demo_sb] in Hb'.
    unfold BBLOCK, BPB, BSIZE. rewrite Z.div_small by lia. discriminate. }
  split; [exact Hd|rewrite rw_demo_used by lia; by vm_compute|]. rewrite Hv. reflexivity.
Qed.

Lemma rw_demo_inv : file_inv demo_inode rw_demo.
Proof.
  assert (Hb : forall bn, baddr demo_inode rw_demo bn = 0).
  { intros bn. unfold baddr. destruct (bn <? NDIRECT); [|reflexivity]. rewrite nth_lookup. change (i_addrs demo_inode) with (replicate 13 0).
    destruct (replicate 13 0 !! _) as [v|] eqn:E; [|done]. by apply lookup_replicate in E as [-> _]. }
  assert (Hf : file_ok demo_inode rw_demo).
  { split; [reflexivity|reflexivity| | | |]; intros; try rewrite Hb in *; done. }
  destruct rw_demo_fields as (Es & _ & _ & Hv).
  assert (Ei : iblock demo_inode rw_demo = 32) by (unfold iblock; rewrite Es; reflexivity).
  split; rewrite ?Ei; [exact Hf|discriminate|split; [done|discriminate]| | |exact rw_demo_inode_block| |].
  - intros bn H1 H2. cbn [i_size demo_inode] in H2. fs_sizes. lia.
  - split; [split; done..|repeat (apply Forall_cons; split; [done|]); constructor|reflexivity].
  - intros [E|(bn & _ & E)]; [discriminate E|]. rewrite Hb in E. discriminate E.
  - rewrite Hv. reflexivity.
Qed.

Lemma writei_readi_witness :
  exists s' s2, @writei 5%nat memide no_dev 0 (fun k => nth (Z.to_nat k) (bytes "hello") 0) 0 5 rw_demo = Ok 5 s' /\
    @readi 5%nat memide no_dev 0 1 100 s' = Ok (4, bytes "ello") s2.
Proof.
  destruct rw_demo_fields as (Es & El & Ei & _).
  destruct (@writei_readi 5%nat memide memide_laws no_dev 0 fs_cpu 0 fs_proc 0 demo_inode (fun k => nth (Z.to_nat k) (bytes "hello") 0) 0 5 [] rw_demo)
    as (x' & bl' & s' & H1 & _ & _ & _ & _ & _ & Hr & H2 & _).
  - exact rw_demo_txn.
  - exact rw_demo_map.
  - rewrite Es. split; [reflexivity|discriminate].
  - rewrite rw_demo_used by lia. reflexivity.
  - exact rw_demo_free.
  - rewrite El. reflexivity.
  - exact rw_demo_inv.
  - rewrite Ei. reflexivity.
  - split; discriminate.
  - discriminate.
  - discriminate.
  - assert (E5 : i_size x' = 5) by (rewrite (rp_inode _ _ _ _ _ _ _ _ Hr); reflexivity). rewrite E5 in H2.
    destruct (H2 1 100) as (s2 & H3 & _); [split; discriminate|discriminate|reflexivity|].
    exists s', s2. split; [exact H1|]. rewrite H3. reflexivity.
Defined.
