(* ===== verification/Fileio.v ===== *)
(** * Reading and writing open files (file.c over fs.c, log.c and bio.c)

    [filewrite] cuts a write into transactions that fit the log.  Between two of them
    nothing of the file system is in memory only; this is the state [idle].  One turn of
    the loop goes from an idle state to an idle state, so the whole system call does, and
    what it wrote is then on the disk and is what [fileread] returns. *)

From stdpp Require Import gmap.
From S2P Require Import Prelude Outcome Kernel Spinlock Proc Sleeplock Bio Log Txn Edit Inode Alloc Icache Fs File Content ReadWrite.
Local Open Scope Z_scope.

(** ** States with the same contents of the file system *)

Record same_fs (s s' : kstate) : Prop := {
  sf_sb : k_sb s' = k_sb s;
  sf_area : same_area (k_log s) (k_log s');
  sf_size : d_size (k_disk s') = d_size (k_disk s);
  sf_view b : ~ in_area (k_log s) b -> view s' b = view s b }.

#[global] Instance same_fs_preorder : PreOrder same_fs.
Proof.
  split; [by intros s|]. intros s1 s2 s3 [A1 [A2 A2'] A3 A4] [B1 [B2 B2'] B3 B4]. split; [congruence|split; congruence|congruence|].
  intros b Hb. rewrite B4; [by apply A4|]. by rewrite (in_area_same (k_log s1)).
Qed.

Section Same.
Context (s s' : kstate) (HS : same_fs s s') (Hm : map_ok [] s).

Lemma same_used b : 0 <= b < sb_size (k_sb s) -> used s' b = used s b.
Proof using HS Hm. intros Hb. unfold used. rewrite (sf_sb _ _ HS), (sf_view _ _ HS); [done|]. by apply (mo_map _ _ Hm). Qed.

Lemma same_map : map_ok [] s'.
Proof using HS Hm.
  pose proof same_used as Hu. destruct Hm as [M1 M2 M3 M4]. destruct HS as [E Ea Es Ev]. split; rewrite ?E, ?Es; try done.
  - intros b Hb. destruct (M3 b Hb) as (G1 & G2 & G3 & G4). rewrite (in_area_same (k_log s)), Ev by done. split_and!; [lia|lia|done|done|by intros i ?%not_elem_of_nil].
  - intros b Hb Hf. rewrite Hu in Hf by done. destruct (M4 b Hb Hf) as (G1 & G2 & G3). rewrite (in_area_same (k_log s)) by done. split_and!; try done. by intros i ?%not_elem_of_nil.
Qed.

Lemma same_owned b : owned b s -> owned b s' /\ view s' b = view s b.
Proof using HS Hm.
  intros [(H1 & H2 & H3 & H4) Hu Hl]. pose proof (sf_view _ _ HS b H2) as Ev. split; [|done]. split; [|by rewrite same_used|by rewrite Ev].
  unfold data_block. rewrite (sf_sb _ _ HS), (in_area_same (k_log s)) by apply HS. split_and!; [lia|lia|done|by intros i ?%not_elem_of_nil|done].
Qed.

Lemma same_free m : free_blocks m s -> free_blocks m s'.
Proof using HS Hm.
  intros (F & Hn & HF). exists F. split; [done|]. intros b Hb. destruct (HF b Hb) as [H1 H2]. rewrite (sf_sb _ _ HS). by rewrite same_used.
Qed.

Lemma same_baddr x bn : file_ok x s -> baddr x s' bn = baddr x s bn.
Proof using HS Hm. intros Hf. apply baddr_same. intros Hi. by apply same_owned, Hf. Qed.

Lemma same_file_inv x : file_inv x s -> file_inv x s'.
Proof using HS Hm.
  intros [F1 F2 F3 F4 F5 F6 F7 F8]. destruct (file_ok_keep x s s' F1 same_owned) as (G1 & Gb & _).
  assert (E : iblock x s' = iblock x s) by (unfold iblock; by rewrite (sf_sb _ _ HS)).
  split; rewrite ?E; try done.
  - intros bn Hbn Hlt. rewrite Gb. by apply F4.
  - by apply same_owned.
  - intros [H|(bn & Hbn & H)]; apply F7; [by left|right]. exists bn. by rewrite <- Gb.
  - by rewrite (proj2 (same_owned _ F6)).
Qed.

Lemma same_fbyte x k : file_inv x s -> 0 <= k < i_size x -> fbyte x s' k = fbyte x s k.
Proof using HS Hm.
  intros Hx Hk. destruct (file_ok_keep x s s' (fi_file _ _ Hx) same_owned) as (_ & _ & G). pose proof (fi_size _ _ Hx).
  apply G; [lia|]. apply (fi_full _ _ Hx); fs_sizes; Z.div_mod_to_equations; lia.
Qed.
End Same.

Section Fileio.
Context {fl : Fuel} {dsk : Disk} {laws : DiskLaws dsk} {dsw : Devsw}.
Context {ci : nat} {c : cpu} {p : nat} {pr : proc}.
Local Abbreviation pending := (pending (ci := ci) (c := c) (p := p) (pr := pr)).
Local Abbreviation intxn := (intxn (ci := ci) (c := c) (p := p) (pr := pr)).

(** ** Steps outside the cache *)

(** The cache, the disk and the log are as before; locks of inodes, open files and
    sleeping processes may have changed. *)
Record aside (s s' : kstate) : Prop := {
  as_hw : k_hw s' = k_hw s;
  as_procs : woken (k_procs s) (k_procs s');
  as_bufs : k_bufs s' = k_bufs s;
  as_disk : k_disk s' = k_disk s;
  as_sb : k_sb s' = k_sb s;
  as_log : k_log s' = k_log s;
  as_locks i : k_slocks s' !! SLBuf i = k_slocks s !! SLBuf i }.

Lemma aside_view s s' b : aside s s' -> view s' b = view s b.
Proof using Type. intros [H1 H2 H3 H4 H5 H6 H7]. unfold view, slot. by rewrite H3, H4. Qed.

Lemma aside_same s s' : aside s s' -> same_fs s s'.
Proof using Type. intros H. pose proof (aside_view s s') as Hv. destruct H as [H1 H2 H3 H4 H5 H6 H7]. split; rewrite ?H4, ?H6; try done. intros b _. by apply Hv. Qed.

Lemma aside_pending bl s s' : aside s s' -> pending bl s -> pending bl s'.
Proof using Type.
  intros Ha Hp. pose proof Ha as [H1 H2 H3 H4 H5 H6 H7]. apply (pending_change bl bl s); try done; rewrite ?H6; try done; [|apply Hp|].
  - destruct (pd_quiet _ _ Hp) as [Hk [l [B1 B2 B3 B4 B5 B6 B7 B8]]]. split; [by apply (kmode_frame ci c p pr s)|]. exists l.
    split; rewrite ?H3, ?H4; try done.
    + intros i y Hi Hy Hn. destruct (B6 i y Hi Hy Hn) as [G1 G2]. split; [done|]. unfold sl_free. by rewrite H7.
    + intros i Hi. by apply not_elem_of_nil in Hi.
  - intros b. rewrite <- (pd_dirty _ _ Hp). unfold is_dirty, slot. by rewrite H3.
Qed.

Lemma aside_ilock ip l s : aside s (s <| k_slocks ::= <[SLInode ip := l]> |>).
Proof using Type. split; try done. intros i. rsimpl. by rewrite lookup_insert_ne. Qed.

Lemma aside_iunlock ip s : aside s (unlocked_inode ip s).
Proof using Type. split; try done; [apply woken_wakeup|]. intros i. unfold unlocked_inode. rsimpl. by rewrite lookup_insert_ne. Qed.

Lemma aside_files g s : aside s (s <| k_files ::= g |>).
Proof using Type. by split. Qed.

(** ** The end of the only operation *)

Lemma end_op_commits bl s :
  pending bl s -> l_committing (k_log s) = 0 -> l_outstanding (k_log s) = 1 ->
  exists s', end_op s = Ok tt s' /\ pending [] s' /\ l_committing (k_log s') = 0 /\ l_outstanding (k_log s') = 0 /\ rest s s' /\ same_fs s s'.
Proof using laws.
  intros Hp Hc Ho. pose proof (pd_quiet _ _ Hp) as [Hk _].
  assert (Hp1 : pending bl (in_commit s)) by (eapply (pending_counters bl s _ (k_procs s)); done || apply woken_refl).
  destruct (commit_pending bl (in_commit s) Hp1) as (ws & s1 & H1 & H2 & H3 & Hw & H4 & _ & H6).
  pose proof (end_op_last s s1 Hk Hc Ho H1 (proj1 (pd_quiet _ _ H2))) as He.
  set (s' := s1 <| k_log ::= fun lg => lg <| l_committing := 0 |> |> <| k_procs ::= wake_log |>) in *.
  assert (Hp' : pending [] s') by (eapply (pending_counters [] s1); try done; apply woken_wakeup).
  assert (Hd : forall b, ~ in_area (k_log s) b -> view s' b = view s b).
  { intros b Hb. rewrite (pending_clean Hp') by apply not_elem_of_nil. exact (H6 b Hb). }
  exists s'. split_and!; try done.
  - unfold s'. rsimpl. by rewrite H3.
  - etrans; [exact Hw|]. split_and!; try done. apply woken_wakeup.
  - split; [destruct Hw as (_ & _ & _ & E & _); exact E| | |done].
    + unfold s'. rsimpl. by rewrite H3.
    + unfold s'. rsimpl. by rewrite H4.
Qed.

(** ** Between two operations *)

(** The kernel runs a process and no operation: the cache is clean, the log empty; inode
    [x], read into slot [ip] and not locked, is a file in order, and [m] blocks are free. *)
Record idle (m ip : nat) (x : inode) (s : kstate) : Prop := {
  id_pending : pending [] s;
  id_committing : l_committing (k_log s) = 0;
  id_outstanding : l_outstanding (k_log s) = 0;
  id_size : MAXOPBLOCKS <= l_size (k_log s) <= Z.of_nat NBUF;
  id_map : map_ok [] s;
  id_sb : 0 < sb_size (k_sb s) <= BPB;
  id_zero : used s 0 = true;
  id_free : free_blocks m s;
  id_file : file_inv x s;
  id_inode : k_inodes s !! ip = Some x;
  id_slot : (ip < NINODE)%nat;
  id_valid : i_valid x <> 0;
  id_ref : 1 <= i_ref x;
  id_lock : sl_free (SLInode ip) s }.

(** What was said of the state after the last change holds in a state with the same
    contents. *)
Lemma idle_same m ip x s s' :
  same_fs s s' -> map_ok [] s -> 0 < sb_size (k_sb s) <= BPB -> used s 0 = true -> free_blocks m s -> file_inv x s -> MAXOPBLOCKS <= l_size (k_log s) <= Z.of_nat NBUF ->
  pending [] s' -> l_committing (k_log s') = 0 -> l_outstanding (k_log s') = 0 -> k_inodes s' !! ip = Some x -> (ip < NINODE)%nat ->
  i_valid x <> 0 -> 1 <= i_ref x -> sl_free (SLInode ip) s' -> idle m ip x s'.
Proof using Type.
  intros HS Hm Hsb Hz Hfree Hf Hsz. intros. pose proof (sf_area _ _ HS) as [_ E]. split; rewrite ?(sf_sb _ _ HS), ?E; try done.
  - by apply (same_map s).
  - rewrite (same_used s) by (done || lia). done.
  - by apply (same_free s).
  - by apply (same_file_inv s).
Qed.

Definition advanced (r : Z) (f : file) : file := f <| f_off := f_off f + r |>.

(** [begin_op] and [ilock]. *)
Lemma enter m ip x s :
  idle m ip x s -> exists s1 s2, begin_op s = Ok tt s1 /\ ilock (Some ip) s1 = Ok tt s2 /\ same_fs s s2 /\ intxn [] [] s2 /\
    k_files s1 = k_files s /\ k_files s2 = k_files s /\ k_inodes s2 = k_inodes s /\ sl_held (SLInode ip) (p_pid pr) s2 /\
    l_committing (k_log s2) = 0 /\ l_outstanding (k_log s2) = 1 /\ forall b, view s2 b = view s b.
Proof using laws.
  intros [I1 I2 I3 I4 I5 I6 I7 I8 I9 I10 I11 I12 I13 I14]. pose proof (pd_quiet _ _ I1) as [Hk _]. pose proof (tx_n _ _ _ (pd_txn _ _ I1)) as En.
  set (s1 := s <| k_log ::= fun lg => lg <| l_outstanding ::= fun k => k + 1 |> |>).
  assert (H1 : begin_op s = Ok tt s1).
  { apply (begin_op_enters s Hk); [|lia|rewrite En; done]. unfold out_of_room. rewrite I2, I3, En. done. }
  assert (Hp1 : pending [] s1) by (eapply (pending_counters [] s _ (k_procs s)); done || apply woken_refl).
  pose proof (pd_quiet _ _ Hp1) as [Hk1 _]. pose proof (ilock_valid ip x s1 Hk1 I11 I10 I13 I12 I14) as H2. set (s2 := s1 <| k_slocks ::= _ |>) in H2.
  pose proof (aside_ilock ip (mkSleeplock 1 (p_pid pr)) s1) as Ha. fold s2 in Ha.
  assert (Ho : l_outstanding (k_log s2) = 1) by (change (l_outstanding (k_log s) + 1 = 1); lia).
  exists s1, s2. split_and!; try done.
  - apply intxn_pending. split_and!; [by apply (aside_pending _ s1)|lia|]. change (l_size (k_log s2)) with (l_size (k_log s)). lia.
  - exists (mkSleeplock 1 (p_pid pr)). unfold s2. rsimpl. by rewrite lookup_insert_eq.
Qed.

(** ** Writing *)

(** [n] bytes have been written through file [f], which was [fx], to inode [x]. *)
Record stored (m ip : nat) (x x' : inode) (f : nat) (fx : file) (src : Z -> Z) (n : Z) (s s' : kstate) : Prop := {
  st_idle : idle m ip x' s';
  st_files : k_files s' = <[f := advanced n fx]> (k_files s);
  st_inode : x' = x <| i_addrs := i_addrs x' |> <| i_size := Z.max (i_size x) (f_off fx + n) |>;
  st_bytes k : 0 <= k < i_size x' -> fbyte x' s' k = if decide (f_off fx <= k < f_off fx + n) then src (k - f_off fx) else fbyte x s k }.

Definition advance (n : Z) (f : nat) : kstate -> kstate := fun s => s <| k_files ::= alter (fun x => x <| f_off ::= fun o => u32 (o + n) |>) f |>.

(** One turn of the loop of [filewrite]. *)
Lemma turn m ip x f fx src n s :
  idle (5 + m) ip x s -> k_files s !! f = Some fx -> 0 <= f_off fx <= i_size x -> 0 < n <= max_write -> f_off fx + n <= MAXFILE * BSIZE ->
  exists x' s1 s2 s3 s5 s', begin_op s = Ok tt s1 /\ ilock (Some ip) s1 = Ok tt s2 /\ writei ip src (f_off fx) n s2 = Ok n s3 /\
    iunlock (Some ip) (advance n f s3) = Ok tt s5 /\ end_op s5 = Ok tt s' /\
    k_files s1 = k_files s /\ k_files s2 = k_files s /\ k_files s3 = k_files s /\ stored m ip x x' f fx src n s s'.
Proof using laws.
  intros HI Hfx Hoff Hn Hmax. pose proof HI as [I1 I2 I3 I4 I5 I6 I7 I8 I9 I10 I11 I12 I13 I14].
  destruct (enter (5 + m) ip x s HI) as (s1 & s2 & H1 & H2 & S2 & Hi2 & F1 & F2 & E2 & L2 & C2 & O2 & V2).
  assert (Hnb : (nblocks (f_off fx) n <= 4)%nat) by (apply nblocks_chunk; lia).
  pose proof (sf_sb _ _ S2) as Esb. pose proof (sf_area _ _ S2) as [_ Esz].
  destruct (writei_txn_free ci c p pr ip x src (f_off fx) n m [] s2) as (x' & bl & s3 & H3 & Hi3 & Hm3 & _ & Hrep & Hfree3 & Hz3); try (done || lia).
  { by apply (same_map s). } { by rewrite Esb. } { rewrite (same_used s) by (done || lia). done. }
  { apply (same_free s); [done|done|]. by eapply free_blocks_le; [|exact I8]; lia. } { rewrite Esz. change MAXOPBLOCKS with 10 in I4. simpl length. lia. }
  { by apply (same_file_inv s). } { by rewrite E2. }
  pose proof (rp_frame _ _ _ _ _ _ _ _ Hrep) as Hfr. pose proof (frame_inodes_inv _ _ _ Hfr) as Ei3. pose proof (rp_inode _ _ _ _ _ _ _ _ Hrep) as Ex.
  destruct Hfr as (_ & _ & (_ & Hl3 & [O3 C3]) & [_ Esz3] & Hs3).
  assert (F3 : k_files s3 = k_files s) by (rewrite Hs3; exact F2). assert (Esb3 : k_sb s3 = k_sb s) by (rewrite Hs3; exact Esb).
  assert (Hx3 : k_inodes s3 !! ip = Some x') by (rewrite Ei3; apply list_lookup_insert_eq; eapply lookup_lt_Some; by rewrite E2).
  apply intxn_pending in Hi3 as (Hp3 & _ & _).
  pose proof (aside_files (alter (fun x => x <| f_off ::= fun o => u32 (o + n) |>) f) s3) as A4. fold (advance n f s3) in A4. set (s4 := advance n f s3) in *.
  pose proof (aside_pending bl s3 s4 A4 Hp3) as Hp4. pose proof (pd_quiet _ _ Hp4) as [Hk4 _].
  assert (L4 : sl_held (SLInode ip) (p_pid pr) s4) by (destruct L2 as (l & Hl & G); exists l; split; [|done]; exact (eq_trans (Hl3 ip) Hl)).
  assert (Hr : 1 <= i_ref x') by (rewrite Ex; exact I13).
  pose proof (iunlock_held ip x' s4 Hk4 I11 Hx3 Hr L4) as H5. set (s5 := unlocked_inode ip s4) in H5. pose proof (aside_iunlock ip s4) as A5. fold s5 in A5.
  destruct (end_op_commits bl s5) as (s' & H6 & Hp' & C' & O' & (_ & F' & E' & _ & L') & S'); [by apply (aside_pending bl s4)|exact (eq_trans C3 C2)|exact (eq_trans O3 O2)|].
  assert (S35 : same_fs s3 s') by (etrans; [exact (aside_same _ _ A4)|]; etrans; [exact (aside_same _ _ A5)|exact S']).
  exists x', s1, s2, s3, s5, s'. split_and!; try done. split.
  - apply (idle_same m ip x' s3); try done.
    + by rewrite Esb3. + apply Hrep. + change (l_size (k_log s3) = l_size (k_log s2)) in Esz3. rewrite Esz3, Esz. done.
    + rewrite E'. exact Hx3. + by rewrite Ex.
    + unfold sl_free. rewrite (L' ip). unfold s5, unlocked_inode. rsimpl. by rewrite lookup_insert_eq.
  - rewrite F'. change (k_files s5) with (alter (fun x => x <| f_off ::= fun o => u32 (o + n) |>) f (k_files s3)). rewrite F3, (alter_file _ f fx) by done.
    f_equal. unfold advanced. destruct fx. unfold set. simpl in *. f_equal. apply u32_id. fs_sizes. lia.
  - exact Ex.
  - intros k Hk. rewrite (same_fbyte s3 s' S35 Hm3) by (done || apply Hrep). rewrite (rp_bytes _ _ _ _ _ _ _ _ Hrep) by done. case_decide; [done|].
    apply (same_fbyte s s2 S2 I5 x k I9). assert (E : i_size x' = Z.max (i_size x) (f_off fx + n)) by (by rewrite Ex). lia.
Qed.

(** The number of pieces in which [n] bytes are written. *)
Definition pieces (n : Z) : nat := Z.to_nat ((n + max_write - 1) / max_write).

Lemma pieces_turn n : 0 < n -> pieces n = S (pieces (n - Z.min n max_write)).
Proof using Type. unfold pieces. change max_write with 1536. intros Hn. Z.div_mod_to_equations. lia. Qed.

Lemma stored_refl m ip x f fx src s : idle m ip x s -> k_files s !! f = Some fx -> 0 <= f_off fx <= i_size x -> stored m ip x x f fx src 0 s s.
Proof using Type.
  intros HI Hf Ho. split; [done| | |].
  - rewrite list_insert_id; [done|]. rewrite Hf. f_equal. unfold advanced. destruct fx. unfold set. simpl. f_equal. lia.
  - destruct x. unfold set. simpl in *. f_equal. lia.
  - intros k Hk. by rewrite decide_False by lia.
Qed.

Lemma stored_trans m m' ip x x1 x2 f fx src n n' s s1 s2 :
  stored m ip x x1 f fx src n s s1 -> stored m' ip x1 x2 f (advanced n fx) (fun k => src (n + k)) n' s1 s2 ->
  0 <= n -> 0 <= n' -> 0 <= f_off fx <= i_size x -> stored m' ip x x2 f fx src (n + n') s s2.
Proof using Type.
  intros [A1 A2 A3 A4] [B1 B2 B3 B4] Hn Hn' Ho. change (f_off (advanced n fx)) with (f_off fx + n) in *.
  assert (E1 : i_size x1 = Z.max (i_size x) (f_off fx + n)) by (by rewrite A3). assert (E2 : i_size x2 = Z.max (i_size x1) (f_off fx + n + n')) by (by rewrite B3).
  split; [done| | |].
  - rewrite B2, A2, list_insert_insert_eq. f_equal. unfold advanced, set. simpl. f_equal. lia.
  - rewrite B3, A3. unfold set. simpl. f_equal. lia.
  - intros k Hk. rewrite B4 by done. destruct (decide (f_off fx + n <= k < f_off fx + n + n')).
    + rewrite decide_True by lia. f_equal. lia.
    + rewrite A4 by lia. repeat case_decide; try done; lia.
Qed.

Lemma filewrite_loop_ok k : forall m ip x f fx addr i n s,
  idle (5 * pieces (n - i) + m) ip x s -> k_files s !! f = Some fx -> f_ip fx = Some ip -> 0 <= f_off fx <= i_size x -> 0 <= i <= n ->
  f_off fx + (n - i) <= MAXFILE * BSIZE -> (Z.to_nat (n - i) <= k)%nat ->
  exists x' s', filewrite_loop k f addr i n s = Ok n s' /\ stored m ip x x' f fx (fun j => addr (i + j)) (n - i) s s'.
Proof using laws.
  induction k as [|k IH]; intros m ip x f fx addr i n s HI Hf Hip Ho Hin Hmax Hk; cbn [filewrite_loop].
  { assert (i = n) as -> by lia. rewrite (proj2 (Z.leb_le n n)) by lia. exists x, s. split; [done|]. rewrite Z.sub_diag in *. by apply stored_refl. }
  destruct (Z.leb_spec n i) as [Hz|Hlt].
  { assert (i = n) as -> by lia. exists x, s. split; [done|]. rewrite Z.sub_diag in *. by apply stored_refl. }
  rewrite pieces_turn in HI by lia. set (r := Z.min (n - i) max_write) in *. assert (Hr : 0 < r <= max_write /\ r <= n - i) by (unfold r; change max_write with 1536; lia).
  destruct (turn (5 * pieces (n - i - r) + m) ip x f fx (fun j => addr (i + j)) r s) as (x1 & s1 & s2 & s3 & s5 & s6 & H1 & H2 & H3 & H5 & H6 & F1 & F2 & F3 & St); try (done || lia).
  { by replace (5 + (5 * pieces (n - i - r) + m))%nat with (5 * S (pieces (n - i - r)) + m)%nat by lia. }
  cbv zeta. mstep with (H1). unfold file_get at 1. mstep by (mstep; rewrite F1, Hf; reflexivity). rewrite Hip. mstep with (H2). cbn [deref]. mstep.
  unfold file_get at 1. mstep by (mstep; rewrite F2, Hf; reflexivity). mstep with (H3). rewrite (proj2 (Z.ltb_lt 0 r)) by lia. cbn [when].
  unfold file_upd at 1. mstep. rewrite Hip. mstep with (H5). mstep with (H6). rewrite (proj2 (Z.ltb_ge r 0)), Z.eqb_refl by lia. cbn [negb].
  pose proof (st_files _ _ _ _ _ _ _ _ _ _ St) as Ef. assert (Ex : i_size x1 = Z.max (i_size x) (f_off fx + r)) by (by rewrite (st_inode _ _ _ _ _ _ _ _ _ _ St)).
  destruct (IH m ip x1 f (advanced r fx) addr (i + r) n s6) as (x2 & s7 & H7 & St7); try (done || lia).
  { replace (n - (i + r)) with (n - i - r) by lia. apply St. } { rewrite Ef. apply list_lookup_insert_eq. by eapply lookup_lt_Some. }
  { change (f_off (advanced r fx)) with (f_off fx + r). lia. } { change (f_off (advanced r fx)) with (f_off fx + r). lia. }
  exists x2, s7. split; [done|]. replace (n - i) with (r + (n - (i + r))) by lia. apply (stored_trans _ m ip x x1 x2 f fx _ r _ s s6 s7 St); try lia.
  destruct St7 as [B1 B2 B3 B4]. split; try done. intros j Hj. rewrite B4 by done. case_decide; [|done]. f_equal. lia.
Qed.

(** ** Reading *)

Lemma calm_pending bl s s' : pending bl s -> reading (ci := ci) (c := c) (p := p) (pr := pr) bl s' -> calm s s' -> pending bl s'.
Proof using Type.
  intros Hp [Hk Hc _ _] [S F D]. pose proof (bio_frame_log _ _ F) as El. apply (pending_change bl bl s); try done; rewrite ?El; try done.
  - apply (fs_frame_disk _ _ (si_frame _ _ S)).
  - apply Hp.
  - intros b. rewrite D. apply Hp.
Qed.

Lemma fileread_ok m ip x g gx n s :
  idle m ip x s -> k_files s !! g = Some gx -> f_ip gx = Some ip -> f_type gx = FD_INODE -> f_readable gx <> 0 ->
  0 <= f_off gx <= i_size x -> 0 <= n < 2147483648 ->
  let r := Z.min n (i_size x - f_off gx) in
  exists s', fileread g n s = Ok (r, slice x s (f_off gx) (f_off gx + r)) s' /\ idle m ip x s' /\ same_fs s s' /\ k_files s' = <[g := advanced r gx]> (k_files s).
Proof using laws.
  intros HI Hg Hip Hty Hrd Ho Hn r. pose proof HI as [I1 I2 I3 I4 I5 I6 I7 I8 I9 I10 I11 I12 I13 I14]. pose proof (pd_quiet _ _ I1) as [Hk _].
  pose proof (fi_size _ _ I9) as Hsz. pose proof (ilock_valid ip x s Hk I11 I10 I13 I12 I14) as H1. pose proof (aside_ilock ip (mkSleeplock 1 (p_pid pr)) s) as A1.
  set (s1 := s <| k_slocks ::= _ |>) in *. pose proof (aside_pending [] s s1 A1 I1) as Hp1. pose proof (aside_same _ _ A1) as S1.
  assert (Hrg : reading (ci := ci) (c := c) (p := p) (pr := pr) [] s1).
  { destruct (pd_quiet _ _ Hp1) as [Hk1 Hc1]. split; try done; [intros b; apply Hp1|simpl; unfold NBUF; lia]. }
  destruct (readi_ok [] ip x (f_off gx) n s1 Hrg (same_map s s1 S1 I5) (same_file_inv s s1 S1 I5 x I9) I10 Ho) as (s2 & H2 & Hrg2 & C2); [lia|fs_sizes; lia|].
  pose proof (calm_pending [] s1 s2 Hp1 Hrg2 C2) as Hp2. pose proof C2 as [Si2 F2 _]. pose proof (bio_rest _ _ F2) as (_ & E2 & E2' & _ & L2). fold r in H2.
  replace (Z.min (f_off gx + n) (i_size x)) with (f_off gx + r) in H2 by (unfold r; lia).
  set (s3 := if 0 <? r then advance r g s2 else s2). assert (A3 : aside s2 s3) by (unfold s3; destruct (0 <? r); [apply aside_files|by split]).
  assert (Hf3 : k_files s3 = <[g := advanced r gx]> (k_files s)).
  { change (k_files s) with (k_files s1). rewrite <- E2. unfold s3. destruct (Z.ltb_spec 0 r) as [Hr|Hr].
    - unfold advance. rsimpl. rewrite (alter_file _ g gx) by (rewrite E2; exact Hg). f_equal. unfold advanced, set. simpl. f_equal. apply u32_id. fs_sizes. unfold r. lia.
    - assert (r = 0) as -> by (unfold r in *; lia). rewrite list_insert_id; [done|]. rewrite E2. change (k_files s1) with (k_files s). rewrite Hg. f_equal. unfold advanced. destruct gx. unfold set. simpl. f_equal. lia. }
  pose proof (aside_pending [] s2 s3 A3 Hp2) as Hp3. pose proof (pd_quiet _ _ Hp3) as [Hk3 _].
  assert (Hs3 : k_slocks s3 = k_slocks s2 /\ k_inodes s3 = k_inodes s2 /\ k_log s3 = k_log s2) by (unfold s3; by destruct (0 <? r)). destruct Hs3 as (G1 & G2 & G3).
  assert (Hh : sl_held (SLInode ip) (p_pid pr) s3).
  { exists (mkSleeplock 1 (p_pid pr)). rewrite G1, (L2 ip). unfold s1. rsimpl. by rewrite lookup_insert_eq. }
  assert (Hx3 : k_inodes s3 !! ip = Some x) by (rewrite G2, E2'; exact I10).
  pose proof (iunlock_held ip x s3 Hk3 I11 Hx3 I13 Hh) as H4. set (s4 := unlocked_inode ip s3) in *. pose proof (aside_iunlock ip s3) as A4. fold s4 in A4.
  assert (S12 : same_fs s1 s2).
  { destruct (si_frame _ _ Si2) as (_ & _ & (Hd & _) & Ha & _). split; [by apply fs_frame_sb, Si2|done|by rewrite Hd|]. intros b _. apply Si2. }
  assert (S4 : same_fs s s4) by (etrans; [exact S1|]; etrans; [exact S12|]; etrans; [exact (aside_same _ _ A3)|exact (aside_same _ _ A4)]).
  assert (El : k_log s4 = k_log s) by (change (k_log s4) with (k_log s3); rewrite G3, (bio_frame_log _ _ F2); done).
  exists s4. split_and!; [| |done|exact Hf3].
  - unfold fileread, file_get at 1. mstep by (mstep; rewrite Hg; reflexivity). rewrite (proj2 (Z.eqb_neq _ _)), Hty, Hip by done. mstep with (H1).
    unfold file_get at 1. mstep by (mstep; change (k_files s1) with (k_files s); rewrite Hg; reflexivity). rewrite Hip. cbn [deref]. mstep. rewrite u32_id by lia. mstep with (H2). cbv beta iota.
    assert (Hw : when (0 <? r) (file_upd g (fun x => x <| f_off ::= fun o => u32 (o + r) |>)) s2 = Ok tt s3) by (unfold s3; by destruct (0 <? r)).
    mstep with (Hw). mstep with (H4). done.
  - apply (idle_same m ip x s); try done; rewrite ?El; try done; [by apply (aside_pending [] s3)|]. unfold sl_free, s4, unlocked_inode. rsimpl. by rewrite lookup_insert_eq.
Qed.
End Fileio.

(** ** Property *)

(** C2. Writing and reading an open file.  From a state in which no operation runs, on a
    file with room to grow, [filewrite] of any number of bytes returns that number, in
    whatever number of transactions it takes: none of them overflows the log, the kernel
    is then again in a state in which no operation runs, the offset has advanced, the size
    of the file reaches to the end of the write, and all of the file system is on the
    disk.  Whatever [fileread] is then asked for through any open file on the inode, it
    returns the new bytes in the range of the write and the old ones outside it, as far as
    the file goes. *)
Theorem filewrite_fileread {fl : Fuel} {dsk : Disk} {laws : DiskLaws dsk} {dsw : Devsw} ci c p pr m ip x f fx addr n s :
  idle (ci := ci) (c := c) (p := p) (pr := pr) (5 * pieces n + m) ip x s ->
  k_files s !! f = Some fx -> f_type fx = FD_INODE -> f_writable fx <> 0 -> f_ip fx = Some ip -> 0 <= f_off fx <= i_size x ->
  0 <= n -> f_off fx + n <= MAXFILE * BSIZE ->
  exists x' s', filewrite f addr n s = Ok n s' /\
    idle (ci := ci) (c := c) (p := p) (pr := pr) m ip x' s' /\
    k_files s' = <[f := advanced n fx]> (k_files s) /\ i_size x' = Z.max (i_size x) (f_off fx + n) /\
    (forall b, view s' b = d_read (k_disk s') b) /\
    forall g gx n2, k_files s' !! g = Some gx -> f_ip gx = Some ip -> f_type gx = FD_INODE -> f_readable gx <> 0 ->
      0 <= f_off gx <= i_size x' -> 0 <= n2 < 2147483648 ->
      let r := Z.min n2 (i_size x' - f_off gx) in
      exists s2, fileread g n2 s' =
        Ok (r, map (fun k => if decide (f_off fx <= k < f_off fx + n) then addr (k - f_off fx) else fbyte x s k)
                   (zrange (f_off gx) (f_off gx + r))) s2 /\
        idle (ci := ci) (c := c) (p := p) (pr := pr) m ip x' s2 /\ k_files s2 = <[g := advanced r gx]> (k_files s').
Proof.
  intros HI Hf Hty Hw Hip Ho Hn Hmax.
  destruct (filewrite_loop_ok (ci := ci) (c := c) (p := p) (pr := pr) (Z.to_nat n) m ip x f fx addr 0 n s) as (x' & s' & H1 & St); rewrite ?Z.sub_0_r; try (done || lia).
  rewrite Z.sub_0_r in St. destruct St as [B1 B2 B3 B4]. exists x', s'. split_and!; try done.
  - unfold filewrite, file_get at 1. mstep by (mstep; rewrite Hf; reflexivity). rewrite (proj2 (Z.eqb_neq _ _)), Hty by done. mstep with (H1). by rewrite Z.eqb_refl.
  - by rewrite B3.
  - intros b. apply (pending_clean (id_pending _ _ _ _ B1)), not_elem_of_nil.
  - intros g gx n2 Hg Hgi Hgt Hgr Hgo Hn2 r. destruct (fileread_ok m ip x' g gx n2 s' B1 Hg Hgi Hgt Hgr Hgo Hn2) as (s2 & H2 & HI2 & _ & Hf2).
    exists s2. split_and!; [|done|done]. rewrite H2. do 2 f_equal. unfold slice. apply map_ext_in. intros k Hk%list_elem_of_In%elem_of_zrange.
    fold r in Hk. apply B4. unfold r in Hk. lia.
Qed.

(** ** A file of nine bytes *)

(** A process has the empty file of [rw_demo] open for writing and, separately, for
    reading; no operation runs. *)
Definition demo_files : list file := [mkFile FD_INODE 1 0 1 0 (Some 0%nat) 0; mkFile FD_INODE 1 1 0 0 (Some 0%nat) 0].
Definition at_rest (l : list file) (s : kstate) : kstate := s <| k_log ::= fun lg => lg <| l_outstanding := 0 |> |> <| k_files := l |>.

Lemma at_rest_idle {ci c p pr} l m ip x s :
  intxn (ci := ci) (c := c) (p := p) (pr := pr) [] [] s -> l_committing (k_log s) = 0 -> MAXOPBLOCKS <= l_size (k_log s) -> map_ok [] s ->
  0 < sb_size (k_sb s) <= BPB -> used s 0 = true -> free_blocks m s -> file_inv x s -> k_inodes s !! ip = Some x -> (ip < NINODE)%nat ->
  i_valid x <> 0 -> 1 <= i_ref x -> sl_free (SLInode ip) s -> idle (ci := ci) (c := c) (p := p) (pr := pr) m ip x (at_rest l s).
Proof.
  intros Hi Hc Hsz Hm Hsb Hz Hfree Hf Hx Hip Hv Hr Hl. pose proof (it_size _ _ _ Hi). apply intxn_pending in Hi as (Hp & _ & _).
  assert (HS : same_fs s (at_rest l s)) by (split; done). apply (idle_same m ip x s); try done.
  apply (aside_pending [] (s <| k_log ::= fun lg => lg <| l_outstanding := 0 |> |>)); [exact (aside_files (fun _ => l) _)|].
  eapply (pending_counters [] s _ (k_procs s)); done || apply woken_refl.
Qed.

Lemma demo_idle : idle (ci := 0%nat) (c := fs_cpu) (p := 0%nat) (pr := fs_proc) 5 0 demo_inode (at_rest demo_files rw_demo).
Proof.
  destruct rw_demo_fields as (Es & El & Ei & _). apply at_rest_idle.
  - exact rw_demo_txn.
  - rewrite El. reflexivity.
  - rewrite El. discriminate.
  - exact rw_demo_map.
  - rewrite Es. split; [reflexivity|discriminate].
  - rewrite rw_demo_used by lia. reflexivity.
  - exists (list_to_set (zrange 60 65)). split; [vm_compute; lia|]. intros b Hb. apply elem_of_list_to_set, elem_of_zrange in Hb. rewrite Es. cbn [sb_size demo_sb].
    split; [lia|]. rewrite rw_demo_used by lia. assert (Hc : b = 60 \/ b = 61 \/ b = 62 \/ b = 63 \/ b = 64) by lia. destruct Hc as [-> |[-> |[-> |[-> | ->]]]]; vm_compute; reflexivity.
  - exact rw_demo_inv.
  - rewrite Ei. reflexivity.
  - unfold NINODE. lia.
  - discriminate.
  - discriminate.
  - vm_compute. reflexivity.
Qed.

Lemma filewrite_fileread_witness :
  exists s' s2, @filewrite 5%nat memide no_dev 0 (fun k => nth (Z.to_nat k) (bytes "nine byte") 0) 9 (at_rest demo_files rw_demo) = Ok 9 s' /\
    @fileread 5%nat memide no_dev 1 4 s' = Ok (4, bytes "nine") s2.
Proof.
  destruct (@filewrite_fileread 5%nat memide memide_laws no_dev 0 fs_cpu 0 fs_proc 0 0 demo_inode 0 (mkFile FD_INODE 1 0 1 0 (Some 0%nat) 0) (fun k => nth (Z.to_nat k) (bytes "nine byte") 0) 9
    (at_rest demo_files rw_demo)) as (x' & s' & H1 & _ & Hf & Hsz & _ & Hr); [exact demo_idle|reflexivity|reflexivity|discriminate|reflexivity|split; discriminate|discriminate|discriminate|].
  change (i_size x' = 9) in Hsz. destruct (Hr 1%nat (mkFile FD_INODE 1 1 0 0 (Some 0%nat) 0) 4) as (s2 & H2 & _); [by rewrite Hf|done|done|done|rewrite Hsz; split; discriminate|split; [discriminate|reflexivity]|].
  exists s', s2. split; [exact H1|]. rewrite H2, Hsz. reflexivity.
Defined.
