(* ===== verification/Dir.v ===== *)
(** * Directories (fs.c: dirlookup, dirlink)

    A directory is a file of entries of 16 bytes.  [dirlookup] returns the first entry
    with the name; [dirlink] writes a new entry into the first free place, after which
    that name is found and every other lookup is as before. *)

From stdpp Require Import gmap fin_sets.
From S2P Require Import Prelude Outcome Kernel Spinlock Kalloc Proc Cprintf Sleeplock Bio Log Txn Edit Inode Alloc Icache Fs File Content ReadWrite.
Local Open Scope Z_scope.

(** ** Entries *)

Lemma find_ext {A} (f g : A -> bool) l : (forall a, a ∈ l -> f a = g a) -> List.find f l = List.find g l.
Proof.
  induction l as [|a l IH]; intros H; [done|]. cbn [List.find]. rewrite (H a) by set_solver. destruct (g a); [done|]. apply IH. set_solver.
Qed.

Definition entry (x : inode) (s : kstate) (j : Z) : list Z := slice x s (16 * j) (16 * j + 16).
Definition nentries (x : inode) : Z := i_size x / 16.
Definition matches (name de : list Z) : bool := negb (de_inum de =? 0) && (namecmp name (de_name de) =? 0).

(** The first entry with the name, and the first free place. *)
Definition find_entry (name : list Z) (x : inode) (s : kstate) : option Z :=
  List.find (fun j => matches name (entry x s j)) (zrange 0 (nentries x)).
Definition free_entry (x : inode) (s : kstate) : Z :=
  default (nentries x) (List.find (fun j => de_inum (entry x s j) =? 0) (zrange 0 (nentries x))).

(** A directory: whole entries, no more than fit. *)
Record dir_inv (x : inode) (s : kstate) : Prop := {
  di_file : file_inv x s;
  di_type : i_type x = T_DIR;
  di_whole : i_size x mod 16 = 0 }.

Section Lookup.
Context {fl : Fuel} {dsk : Disk} {laws : DiskLaws dsk} {dsw : Devsw}.
Context {ci : nat} {c : cpu} {p : nat} {pr : proc}.
Local Abbreviation reading := (reading (ci := ci) (c := c) (p := p) (pr := pr)).

Lemma silent_file_inv x s s' : silent s s' -> file_inv x s -> file_inv x s'.
Proof.
  intros S [F1 F2 F3 F4 F5 F6 F7 F8]. destruct (silent_file x s s' S F1) as [G1 Gb].
  assert (E : iblock x s' = iblock x s) by (unfold iblock; by rewrite (fs_frame_sb _ _ (si_frame _ _ S))).
  split; rewrite ?E; try done.
  - intros bn Hbn Hlt. rewrite Gb. by apply F4.
  - by apply (si_owned _ _ S).
  - intros [H|(bn & Hbn & H)]; apply F7; [by left|right]. exists bn. by rewrite <- Gb.
  - by rewrite (si_view _ _ S).
Qed.

Lemma read_entry bl dp x j s :
  reading bl s -> map_ok [] s -> dir_inv x s -> k_inodes s !! dp = Some x -> 0 <= j < nentries x ->
  exists s', readi dp (16 * j) sizeof_dirent s = Ok (sizeof_dirent, entry x s j) s' /\ reading bl s' /\ calm s s'.
Proof.
  intros Hr Hm [Hf Ht Hw] Hx Hj. pose proof (fi_size _ _ Hf). unfold nentries in *. fs_sizes. unfold sizeof_dirent.
  destruct (readi_ok bl dp x (16 * j) 16 s Hr Hm Hf Hx) as (s' & -> & Hr' & Hq); [Z.div_mod_to_equations; lia..|].
  exists s'. split_and!; [|done|done]. unfold entry. rewrite !Z.min_l by (Z.div_mod_to_equations; lia). done.
Qed.

Lemma calm_dir bl dp x s s' :
  reading bl s' -> calm s s' -> map_ok [] s -> dir_inv x s -> k_inodes s !! dp = Some x ->
  map_ok [] s' /\ dir_inv x s' /\ k_inodes s' !! dp = Some x /\ forall j, entry x s' j = entry x s j.
Proof.
  intros Hr [S F D] Hm [Hf Ht Hw] Hx. split_and!; [by apply (silent_map_ok s)|split; [by apply (silent_file_inv x s)|done|done]|by rewrite (silent_inodes _ _ S)|].
  intros j. apply silent_slice; [done|apply Hf].
Qed.

Lemma dirlookup_loop_ok k bl dp x name j s :
  reading bl s -> map_ok [] s -> dir_inv x s -> k_inodes s !! dp = Some x -> 0 <= j <= nentries x -> (Z.to_nat (nentries x - j) < k)%nat ->
  exists s', reading bl s' /\ calm s s' /\
    dirlookup_loop k dp name (16 * j) s =
    match List.find (fun j => matches name (entry x s j)) (zrange j (nentries x)) with
    | Some i => bind (iget (i_dev x) (de_inum (entry x s i))) (fun ip => ret (Some (ip, 16 * i))) s'
    | None => Ok None s'
    end.
Proof.
  revert j s. induction k as [|k IH]; intros j s Hr Hm Hd Hx Hj Hk; [lia|]. pose proof (di_file _ _ Hd) as Hf. pose proof (fi_size _ _ Hf) as Hsz.
  pose proof (di_whole _ _ Hd) as Hw. cbn [dirlookup_loop]. mstep by (by apply inode_get_ok). unfold nentries in *. fs_sizes.
  destruct (Z.leb_spec (i_size x) (16 * j)) as [Hend|Hin].
  - rewrite zrange_nil by (Z.div_mod_to_equations; lia). exists s. split_and!; [done|apply calm_refl|done].
  - assert (Hj' : 0 <= j < i_size x / 16) by (Z.div_mod_to_equations; lia).
    destruct (read_entry bl dp x j s Hr Hm Hd Hx Hj') as (s1 & E1 & Hr1 & Q1). mstep with (E1). cbn [negb Z.eqb sizeof_dirent Pos.eqb].
    destruct (calm_dir bl dp x s s1 Hr1 Q1 Hm Hd Hx) as (Hm1 & Hd1 & Hx1 & He1).
    rewrite zrange_cons by lia. cbn [List.find]. change (negb (de_inum (entry x s j) =? 0) && (namecmp name (de_name (entry x s j)) =? 0)) with (matches name (entry x s j)).
    destruct (matches name (entry x s j)).
    + mstep by (by apply inode_get_ok). by exists s1.
    + rewrite u32_id by (unfold sizeof_dirent; lia). replace (16 * j + sizeof_dirent) with (16 * (j + 1)) by (unfold sizeof_dirent; lia).
      destruct (IH (j + 1) s1) as (s2 & Hr2 & Q2 & ->); try (done || lia).
      exists s2. split_and!; [done|by eapply calm_trans|]. rewrite (find_ext _ (fun j => matches name (entry x s j))) by (intros; by rewrite He1).
      destruct (List.find _ _); [|done]. by rewrite He1.
Qed.

Lemma dirlookup_ok bl dp x name s :
  reading bl s -> map_ok [] s -> dir_inv x s -> k_inodes s !! dp = Some x ->
  exists s', reading bl s' /\ calm s s' /\
    dirlookup dp name s =
    match find_entry name x s with
    | Some j => bind (iget (i_dev x) (de_inum (entry x s j))) (fun ip => ret (Some (ip, 16 * j))) s'
    | None => Ok None s'
    end.
Proof.
  intros Hr Hm Hd Hx. unfold dirlookup. mstep by (by apply inode_get_ok). rewrite (di_type _ _ Hd). cbn [negb Z.eqb T_DIR Pos.eqb].
  pose proof (fi_size _ _ (di_file _ _ Hd)). apply (dirlookup_loop_ok _ bl dp x name 0 s Hr Hm Hd Hx); unfold nentries, sizeof_dirent; [split; [lia|apply Z.div_pos; lia]|].
  rewrite Z.sub_0_r. lia.
Qed.

Lemma dirlink_loop_ok k bl dp x j s :
  reading bl s -> map_ok [] s -> dir_inv x s -> k_inodes s !! dp = Some x -> 0 <= j <= nentries x -> (Z.to_nat (nentries x - j) < k)%nat ->
  exists s', reading bl s' /\ calm s s' /\
    dirlink_loop k dp (16 * j) s =
    Ok (16 * default (nentries x) (List.find (fun j => de_inum (entry x s j) =? 0) (zrange j (nentries x)))) s'.
Proof.
  revert j s. induction k as [|k IH]; intros j s Hr Hm Hd Hx Hj Hk; [lia|]. pose proof (di_file _ _ Hd) as Hf. pose proof (fi_size _ _ Hf) as Hsz.
  pose proof (di_whole _ _ Hd) as Hw. cbn [dirlink_loop]. mstep by (by apply inode_get_ok). unfold nentries in *. fs_sizes.
  destruct (Z.leb_spec (i_size x) (16 * j)) as [Hend|Hin].
  - rewrite zrange_nil by (Z.div_mod_to_equations; lia). exists s. split_and!; [done|apply calm_refl|]. unfold ret. cbn. f_equal. Z.div_mod_to_equations. lia.
  - assert (Hj' : 0 <= j < i_size x / 16) by (Z.div_mod_to_equations; lia).
    destruct (read_entry bl dp x j s Hr Hm Hd Hx Hj') as (s1 & E1 & Hr1 & Q1). mstep with (E1). cbn [negb Z.eqb sizeof_dirent Pos.eqb].
    destruct (calm_dir bl dp x s s1 Hr1 Q1 Hm Hd Hx) as (Hm1 & Hd1 & Hx1 & He1).
    rewrite zrange_cons by lia. cbn [List.find]. destruct (de_inum (entry x s j) =? 0); [by exists s1|].
    change (16 * j + sizeof_dirent) with (16 * j + 16). replace (16 * j + 16) with (16 * (j + 1)) by lia.
    destruct (IH (j + 1) s1) as (s2 & Hr2 & Q2 & ->); try (done || lia).
    exists s2. split_and!; [done|by eapply calm_trans|]. by rewrite (find_ext _ (fun j => de_inum (entry x s j) =? 0)) by (intros; by rewrite He1).
Qed.
End Lookup.

(** ** Names *)

Lemma strncmp_refl n s : strncmp n s s = 0.
Proof. revert s. induction n as [|n IH]; intros s; [done|]. cbn [strncmp]. rewrite Z.eqb_refl. cbn [negb]. rewrite orb_false_r, Z.sub_diag. by destruct (_ =? 0). Qed.

Lemma strncmp_pad n m r s t : (n <= m)%nat -> (n <= r)%nat -> strncmp n s (take m (cstr t ++ replicate r 0)) = strncmp n s t.
Proof.
  revert m r s t. induction n as [|n IH]; intros m r s t Hm Hr; [done|]. destruct m as [|m]; [lia|]. destruct r as [|r]; [lia|]. cbn [strncmp].
  destruct t as [|b t]; [|cbn [cstr]; destruct (Z.eqb_spec b 0) as [->|Hb]].
  - cbn. destruct (Z.eqb_spec (hd 0 s) 0); done.
  - cbn. destruct (Z.eqb_spec (hd 0 s) 0); done.
  - cbn [app take hd tl]. rewrite (IH m (S r)) by lia. done.
Qed.

Lemma strncmp_strncpy n s t : strncmp n s (strncpy n t) = strncmp n s t.
Proof. by apply strncmp_pad. Qed.

Lemma made_inum inum name : 0 <= inum < 65536 -> de_inum (make_dirent inum name) = inum.
Proof. intros Hi. unfold make_dirent, de_inum. cbn [nth]. unfold u8. Z.div_mod_to_equations. lia. Qed.

Lemma matches_made name inum name' : 0 < inum < 65536 -> matches name' (make_dirent inum name) = (namecmp name' name =? 0).
Proof.
  intros Hi. unfold matches. rewrite made_inum by lia. change (de_name (make_dirent inum name)) with (strncpy DIRSIZ name).
  unfold namecmp. by rewrite strncmp_strncpy, (proj2 (Z.eqb_neq _ _)) by lia.
Qed.

Lemma length_strncpy n s : length (strncpy n s) = n.
Proof. unfold strncpy. rewrite length_take, length_app, length_replicate. lia. Qed.

Lemma length_dirent n name : length (make_dirent n name) = 16%nat.
Proof. unfold make_dirent. simpl. by rewrite length_strncpy. Qed.

(** ** Adding an entry *)

Lemma find_zrange (f : Z -> bool) a b j :
  List.find f (zrange a b) = Some j <-> a <= j < b /\ f j = true /\ forall i, a <= i < j -> f i = false.
Proof.
  split.
  - intros H. remember (Z.to_nat (b - a)) as n eqn:En. revert a H En. induction n as [|n IH]; intros a H En; [rewrite zrange_nil in H by lia; done|].
    rewrite zrange_cons in H by lia. cbn [List.find] in H. destruct (f a) eqn:Ea.
    + injection H as <-. split_and!; [lia|lia|done|]. intros i Hi. lia.
    + destruct (IH (a + 1) H) as (H1 & H2 & H3); [lia|]. split_and!; [lia|lia|done|]. intros i Hi. destruct (decide (i = a)) as [->|]; [done|]. apply H3. lia.
  - intros (Hj & Hf & Hb). remember (Z.to_nat (j - a)) as n eqn:En. revert a Hj Hb En. induction n as [|n IH]; intros a Hj Hb En.
    + assert (j = a) as -> by lia. rewrite zrange_cons by lia. cbn. by rewrite Hf.
    + rewrite zrange_cons by lia. cbn [List.find]. rewrite Hb by lia. apply IH; [lia| |lia]. intros i Hi. apply Hb. lia.
Qed.

Lemma find_zrange_none (f : Z -> bool) a b : List.find f (zrange a b) = None <-> forall i, a <= i < b -> f i = false.
Proof.
  split.
  - intros H i Hi. apply (List.find_none _ _ H). by apply list_elem_of_In, elem_of_zrange.
  - intros H. destruct (List.find f (zrange a b)) eqn:E; [|done]. apply find_zrange in E as (E1 & E2 & _). by rewrite H in E2.
Qed.

(** The directory with a new entry in place [j0], which was free or the end. *)
Record entered (x x' : inode) (j0 : Z) (de : list Z) (s s' : kstate) : Prop := {
  en_range : 0 <= j0 <= nentries x;
  en_free : j0 < nentries x -> de_inum (entry x s j0) = 0;
  en_size : nentries x' = Z.max (nentries x) (j0 + 1);
  en_new : entry x' s' j0 = de;
  en_old : forall j, 0 <= j < nentries x -> j <> j0 -> entry x' s' j = entry x s j }.

Lemma find_new x x' j0 name inum s s' :
  entered x x' j0 (make_dirent inum name) s s' -> 0 < inum < 65536 -> find_entry name x s = None -> find_entry name x' s' = Some j0.
Proof.
  intros [E1 E2 E3 E4 E5] Hi Hn. unfold find_entry in *. rewrite find_zrange. rewrite find_zrange_none in Hn. split_and!; [lia|lia| |].
  - rewrite E4, matches_made by done. unfold namecmp. by rewrite strncmp_refl.
  - intros i Hir. rewrite E5 by lia. apply Hn. lia.
Qed.

Lemma find_old x x' j0 name name' inum s s' :
  entered x x' j0 (make_dirent inum name) s s' -> 0 < inum < 65536 -> namecmp name' name <> 0 -> find_entry name' x' s' = find_entry name' x s.
Proof.
  intros [E1 E2 E3 E4 E5] Hi Hn. assert (Hj0 : matches name' (entry x' s' j0) = false) by (rewrite E4, matches_made by done; by apply Z.eqb_neq).
  assert (Hf : j0 < nentries x -> matches name' (entry x s j0) = false) by (intros H; unfold matches; by rewrite E2).
  assert (Hsame : forall j, 0 <= j < nentries x -> matches name' (entry x' s' j) = matches name' (entry x s j)).
  { intros j Hj. destruct (decide (j = j0)) as [->|Hne]; [by rewrite Hf, Hj0 by lia|by rewrite E5]. }
  unfold find_entry. rewrite E3. destruct (List.find (fun j => matches name' (entry x s j)) _) as [j|] eqn:E.
  - apply find_zrange in E as (Hj & Hm & Hb). apply find_zrange. split_and!; [lia|lia|by rewrite Hsame|]. intros i Hir. rewrite Hsame by lia. by apply Hb.
  - rewrite find_zrange_none in E. apply find_zrange_none. intros i Hir. destruct (decide (i = j0)) as [->|Hne]; [done|]. rewrite Hsame by lia. apply E. lia.
Qed.

Lemma replaced_entered dp x x' j0 de s s' :
  dir_inv x s -> length de = 16%nat -> 0 <= j0 <= nentries x -> (j0 < nentries x -> de_inum (entry x s j0) = 0) ->
  replaced dp x x' (fun k => nth (Z.to_nat k) de 0) (16 * j0) 16 s s' -> entered x x' j0 de s s' /\ dir_inv x' s'.
Proof.
  intros [Hf Ht Hw] Hde Hj Hfree [R1 R2 R3 R4 R5 R6]. unfold nentries in *. pose proof (fi_size _ _ Hf) as Hsz.
  assert (Es : i_size x' = Z.max (i_size x) (16 * j0 + 16)) by (by rewrite R2).
  assert (Hent : forall j, 0 <= j < i_size x' / 16 -> entry x' s' j = if decide (j = j0) then de else entry x s j).
  { intros j Hjr. case_decide as Hc; [subst|]; unfold entry, slice.
    - apply list_eq. intros k. rewrite list_lookup_fmap. destruct (decide (k < 16)%nat) as [Hk|Hk].
      + rewrite lookup_zrange by lia. cbn [fmap option_fmap option_map]. rewrite R4, decide_True by (Z.div_mod_to_equations; lia).
        destruct (lookup_lt_is_Some_2 de k) as [v Hv]; [lia|]. rewrite Hv. f_equal. apply nth_lookup_Some. rewrite <- Hv. f_equal. lia.
      + rewrite !lookup_ge_None_2; [done|lia|rewrite length_zrange; lia].
    - apply map_ext_in. intros k Hk%list_elem_of_In%elem_of_zrange. rewrite R4 by (Z.div_mod_to_equations; lia). rewrite decide_False by lia. done. }
  assert (Hn : i_size x' / 16 = Z.max (i_size x / 16) (j0 + 1)) by (rewrite Es; Z.div_mod_to_equations; lia).
  split; split; unfold nentries; try done.
  - rewrite Hent, decide_True by lia. done.
  - intros j Hjr Hne. rewrite Hent, decide_False by lia. done.
  - by rewrite R2.
  - rewrite Es. Z.div_mod_to_equations. lia.
Qed.

Lemma silent_free n s s' : silent s s' -> free_blocks n s -> free_blocks n s'.
Proof.
  intros S (F & H1 & H2). exists F. split; [done|]. intros b Hb. destruct (H2 b Hb) as [G1 G2]. rewrite (fs_frame_sb _ _ (si_frame _ _ S)).
  split; [done|]. by rewrite (si_used _ _ S).
Qed.

Lemma silent_apart x y s s' : silent s s' -> file_ok x s -> file_ok y s -> apart x y s -> apart x y s'.
Proof.
  intros S Hx Hy Hap. destruct (silent_file x s s' S Hx) as [_ Bx]. destruct (silent_file y s s' S Hy) as [_ By].
  assert (Hof : forall z b, (forall bn, baddr z s' bn = baddr z s bn) -> of_file z s' b <-> of_file z s b).
  { intros z b Hb. unfold of_file. by setoid_rewrite Hb. }
  intros b Hb Hin. unfold iblock. rewrite (fs_frame_sb _ _ (si_frame _ _ S)), Hof by done. rewrite Hof in Hin by done. by apply Hap.
Qed.

Lemma nblocks_entry j : 0 <= j -> nblocks (16 * j) 16 = 1%nat.
Proof. intros Hj. unfold nblocks. fs_sizes. change (16 <=? 0) with false. cbv iota. Z.div_mod_to_equations. lia. Qed.

Lemma free_entry_ok x s : 0 <= nentries x -> 0 <= free_entry x s <= nentries x /\ (free_entry x s < nentries x -> de_inum (entry x s (free_entry x s)) = 0).
Proof.
  intros Hn. unfold free_entry. destruct (List.find _ _) as [j|] eqn:E; cbn; [|lia]. apply find_zrange in E as (H1 & H2 & _). split; [lia|]. intros _. by apply Z.eqb_eq.
Qed.

Section Link.
Context {fl : Fuel} {dsk : Disk} {laws : DiskLaws dsk} {dsw : Devsw}.
Context {ci : nat} {c : cpu} {p : nat} {pr : proc}.
Local Abbreviation intxn := (intxn (ci := ci) (c := c) (p := p) (pr := pr)).

Lemma dirlink_ok dp x name inum bl s :
  intxn [] bl s -> map_ok [] s -> 0 < sb_size (k_sb s) <= BPB -> used s 0 = true -> free_blocks 2 s -> Z.of_nat (length bl) + 6 < l_size (k_log s) ->
  dir_inv x s -> k_inodes s !! dp = Some x -> i_size x + 16 <= MAXFILE * BSIZE -> find_entry name x s = None ->
  exists x' bl' s1 s', dirlink dp name inum s = Ok 0 s' /\ intxn [] bl' s' /\ map_ok [] s' /\ (length bl' <= length bl + 4)%nat /\
    calm s s1 /\ replaced dp x x' (fun k => nth (Z.to_nat k) (make_dirent inum name) 0) (16 * free_entry x s) 16 s1 s'.
Proof.
  intros Hi Hm Hsb Hz Hfree Hroom Hd Hx Hmax Hnone. pose proof (fi_size _ _ (di_file _ _ Hd)) as Hsz.
  assert (Hn0 : 0 <= nentries x) by (unfold nentries; apply Z.div_pos; lia). destruct (free_entry_ok x s Hn0) as [Hfr _].
  destruct (dirlookup_ok bl dp x name s (intxn_reading bl s Hi) Hm Hd Hx) as (s1 & Hr1 & C1 & E1). rewrite Hnone in E1.
  destruct (calm_dir bl dp x s s1 Hr1 C1 Hm Hd Hx) as (Hm1 & Hd1 & Hx1 & He1).
  unfold dirlink. mstep with (E1). mstep by (by apply inode_get_ok).
  destruct (dirlink_loop_ok (S (Z.to_nat (i_size x / sizeof_dirent))) bl dp x 0 s1 Hr1 Hm1 Hd1 Hx1) as (s2 & Hr2 & C2 & E2);
    [lia|unfold nentries, sizeof_dirent; rewrite Z.sub_0_r; lia|].
  rewrite (find_ext _ (fun j => de_inum (entry x s j) =? 0)) in E2 by (intros; by rewrite He1). fold (free_entry x s) in E2.
  change (16 * 0) with 0 in E2. mstep with (E2). destruct (calm_dir bl dp x s1 s2 Hr2 C2 Hm1 Hd1 Hx1) as (Hm2 & Hd2 & Hx2 & He2).
  pose proof (calm_trans _ _ _ C1 C2) as C12. pose proof (ca_silent _ _ C12) as S12. pose proof (fs_frame_sb _ _ (si_frame _ _ S12)) as Esb.
  destruct (writei_txn ci c p pr dp x (fun k => nth (Z.to_nat k) (make_dirent inum name) 0) (16 * free_entry x s) 16 bl s2)
    as (x' & bl' & s3 & E3 & Hi3 & Hm3 & Hgr & Hrep).
  { exact (intxn_calm bl s s2 Hi Hr2 C12). } { done. } { by rewrite Esb. } { rewrite (si_used _ _ S12) by lia. done. }
  { rewrite nblocks_entry by lia. by apply (silent_free 2 s). }
  { rewrite nblocks_entry, (bio_frame_log _ _ (ca_frame _ _ C12)) by lia. lia. }
  { apply Hd2. } { done. } { unfold nentries in Hfr. Z.div_mod_to_equations. lia. } { lia. } { unfold nentries in Hfr. Z.div_mod_to_equations. lia. }
  unfold sizeof_dirent in *. mstep with (E3). change (negb (16 =? 16)) with false. cbv iota. rewrite nblocks_entry in Hgr by lia.
  exists x', bl', s2, s3. split_and!; try done. lia.
Qed.
End Link.

(** ** Properties *)

(** C14. Looking a name up.  On a directory, [dirlookup] reads entries only until the
    first one in use with that name, in the sense of [namecmp]: then it returns the byte
    offset of the entry and a new reference to the inode that the entry names, unless
    the cache of inodes is full of others, when it panics.  If there is no such entry it
    returns the null pointer.  Nothing on the disk and no block in the cache changes. *)
Theorem dirlookup_finds_first {fl : Fuel} {dsk : Disk} {laws : DiskLaws dsk} {dsw : Devsw} ci c p pr bl dp x name A s :
  reading (ci := ci) (c := c) (p := p) (pr := pr) bl s -> map_ok [] s -> dir_inv x s -> k_inodes s !! dp = Some x ->
  table_ok A (k_inodes s) -> Z.of_nat (length A) < 2147483647 ->
  match find_entry name x s with
  | None => exists s', dirlookup dp name s = Ok None s' /\ calm s s'
  | Some j =>
    let inum := de_inum (entry x s j) in
    (exists ip l s', dirlookup dp name s = Ok (Some (ip, 16 * j)) (with_inodes l s') /\ calm s s' /\ table_ok ((ip, (i_dev x, inum)) :: A) l) \/
    (dirlookup dp name s = Panic "iget: no inodes" /\ forall k y, k_inodes s !! k = Some y -> 0 < i_ref y /\ ident y <> (i_dev x, inum))
  end.
Proof.
  intros Hr Hm Hd Hx Ht HA. destruct (dirlookup_ok bl dp x name s Hr Hm Hd Hx) as (s' & Hr' & C & ->).
  destruct (find_entry name x s) as [j|]; [|by exists s']. pose proof (silent_inodes _ _ (ca_silent _ _ C)) as Ei.
  destruct (iget_cases (i_dev x) (de_inum (entry x s j)) A s' (rg_kmode _ _ Hr')) as [(ip & l & E & Hl & _)|[E Hfull]]; [by rewrite Ei|done| |].
  - left. exists ip, l, s'. rewrite (bind_ok _ _ _ _ _ E). done.
  - right. rewrite Ei in Hfull. split; [|done]. unfold bind. by rewrite E.
Qed.

(** C15. Adding a name.  In a transaction, [dirlink] of a name that the directory does not
    have returns 0 and leaves a directory in which that name is found, with the given
    inode number, while every other name is found where it was, with the entry it had.
    The entry goes to the first free place, the directory grows by at most one entry,
    every other file keeps its bytes, nothing has been written to the disk, and the
    transaction has at most four more blocks. *)
Theorem dirlink_adds_name {fl : Fuel} {dsk : Disk} {laws : DiskLaws dsk} {dsw : Devsw} ci c p pr dp x name inum bl s :
  intxn (ci := ci) (c := c) (p := p) (pr := pr) [] bl s -> map_ok [] s -> 0 < sb_size (k_sb s) <= BPB -> used s 0 = true ->
  free_blocks 2 s -> Z.of_nat (length bl) + 6 < l_size (k_log s) ->
  dir_inv x s -> k_inodes s !! dp = Some x -> i_size x + 16 <= MAXFILE * BSIZE -> 0 < inum < 65536 -> find_entry name x s = None ->
  exists x' bl' s', dirlink dp name inum s = Ok 0 s' /\ k_inodes s' !! dp = Some x' /\ dir_inv x' s' /\
    intxn (ci := ci) (c := c) (p := p) (pr := pr) [] bl' s' /\ map_ok [] s' /\ k_disk s' = k_disk s /\ (length bl' <= length bl + 4)%nat /\
    nentries x' = Z.max (nentries x) (free_entry x s + 1) /\
    find_entry name x' s' = Some (free_entry x s) /\ de_inum (entry x' s' (free_entry x s)) = inum /\
    (forall name', namecmp name' name <> 0 ->
       find_entry name' x' s' = find_entry name' x s /\ forall j, find_entry name' x s = Some j -> entry x' s' j = entry x s j) /\
    (forall y k, file_inv y s -> apart x y s -> 0 <= k < i_size y -> fbyte y s' k = fbyte y s k).
Proof.
  intros Hi Hm Hsb Hz Hfree Hroom Hd Hx Hmax Hinum Hnone. pose proof (fi_size _ _ (di_file _ _ Hd)) as Hsz.
  destruct (free_entry_ok x s) as [Hfr Hfz]; [unfold nentries; apply Z.div_pos; lia|].
  destruct (dirlink_ok dp x name inum bl s Hi Hm Hsb Hz Hfree Hroom Hd Hx Hmax Hnone) as (x' & bl' & s1 & s' & E & Hi' & Hm' & Hl & C & Hrep).
  pose proof (ca_silent _ _ C) as S. assert (He : forall j, entry x s1 j = entry x s j) by (intros j; apply silent_slice; [done|apply Hd]).
  assert (Hd1 : dir_inv x s1) by (destruct Hd; split; [by apply (silent_file_inv x s)|done|done]).
  destruct (replaced_entered dp x x' (free_entry x s) (make_dirent inum name) s1 s') as [[R1 R2 R3 R4 R5] Hd']; try done;
    [apply length_dirent|intros H; rewrite He; by apply Hfz|].
  assert (Hent : entered x x' (free_entry x s) (make_dirent inum name) s s') by (split; try done; intros j Hj Hne; by rewrite R5, He).
  pose proof (rp_frame _ _ _ _ _ _ _ _ Hrep) as Hf. pose proof (silent_inodes _ _ S) as Ei.
  exists x', bl', s'. split_and!; try done.
  - rewrite (frame_inodes_inv _ _ _ Hf), Ei. apply list_lookup_insert_eq. by eapply lookup_lt_Some.
  - etrans; [apply (fs_frame_disk _ _ Hf)|]. apply (fs_frame_disk _ _ (si_frame _ _ S)).
  - by apply (find_new x x' _ name inum s s').
  - rewrite R4. apply made_inum. lia.
  - intros name' Hne. split; [by apply (find_old x x' (free_entry x s) name name' inum s s')|]. intros j Hj. apply find_zrange in Hj as (Hj & Hmt & _).
    rewrite R5, He; [done|done|]. intros ->. unfold matches in Hmt. rewrite Hfz in Hmt by lia. done.
  - intros y k Hy Hap Hk. rewrite (other_file dp x x' _ _ _ y s1 s' k Hrep); [|by apply (silent_file_inv y s)| |done].
    + unfold fbyte. destruct (silent_file y s s1 S (fi_file _ _ Hy)) as [_ Hb]. by rewrite Hb, (si_view _ _ S).
    + by apply (silent_apart x y s); [|apply Hd|apply Hy|].
Qed.
