(* ===== verification/Resize.v ===== *)
(** * Changing the size of a file (fs.c: changesize)

    The new call of this system: a file is cut or extended to a size.  The loop clears
    the bytes between the old and the new size, which is a write of zeroes. *)

From stdpp Require Import gmap fin_sets.
From S2P Require Import Prelude Outcome Kernel Spinlock Kalloc Proc Cprintf Sleeplock Bio Log Txn Edit Inode Alloc Icache Fs File Content ReadWrite.
Local Open Scope Z_scope.

Lemma zero_bytes_put off n l : zero_bytes off n l = put_bytes off (replicate n 0) l.
Proof. unfold zero_bytes, put_bytes. by rewrite length_replicate. Qed.

Lemma data_upd_ext b f g s : (forall l, f l = g l) -> data_upd b f s = data_upd b g s.
Proof.
  intros H. unfold data_upd, buf_upd, modify.
  assert (E : alter (fun x => x <| b_data ::= f |>) b (k_bufs s) = alter (fun x => x <| b_data ::= g |>) b (k_bufs s)).
  { apply list_alter_ext; [|done]. intros x _. destruct x. unfold set. cbn. by rewrite H. }
  f_equal. unfold set at 1 3. by rewrite E.
Qed.

Section Resize.
Context {fl : Fuel} {dsk : Disk} {laws : DiskLaws dsk} {dsw : Devsw}.
Context {ci : nat} {c : cpu} {p : nat} {pr : proc}.
Local Abbreviation env := (env (ci := ci) (c := c) (p := p) (pr := pr)).
Local Abbreviation intxn := (intxn (ci := ci) (c := c) (p := p) (pr := pr)).

Lemma zeroes_written a m : map (fun _ : Z => 0) (zrange a (a + m)) = replicate (Z.to_nat m) 0.
Proof.
  assert (H : forall l : list Z, map (fun _ : Z => 0) l = replicate (length l) 0) by (induction l; simpl; congruence).
  rewrite H, length_zrange. do 2 f_equal. lia.
Qed.

(** Clearing is writing zeroes. *)
Lemma changesize_loop_write k ip tot off left s v s' :
  writei_loop k ip (fun _ => 0) tot off (tot + left) s = Ok v s' -> changesize_loop k ip off left s = Ok tt s'.
Proof.
  revert tot off left s. induction k as [|k IH]; intros tot off left s; cbn [writei_loop changesize_loop]; replace (tot + left <=? tot) with (left <=? 0) by lia;
    (destruct (left <=? 0); [intros [= <- <-]; done|]); [done|].
  intros (x & s1 & H1 & H)%bind_inv. rewrite (bind_ok _ _ _ _ _ H1). apply bind_inv in H as (addr & s2 & H2 & H). rewrite (bind_ok _ _ _ _ _ H2).
  apply bind_inv in H as (bp & s3 & H3 & H). rewrite (bind_ok _ _ _ _ _ H3). cbv zeta in *. replace (tot + left - tot) with left in H by lia.
  set (m := Z.min left (BSIZE - off mod BSIZE)) in *. apply bind_inv in H as (u & s4 & H4 & H). rewrite zeroes_written in H4.
  rewrite (data_upd_ext _ _ (zero_bytes (Z.to_nat (off mod BSIZE)) (Z.to_nat m))) in H4 by (intros l; symmetry; apply zero_bytes_put).
  rewrite (bind_ok _ _ _ _ _ H4). apply bind_inv in H as (u5 & s5 & H5 & H). rewrite (bind_ok _ _ _ _ _ H5). apply bind_inv in H as (u6 & s6 & H6 & H).
  rewrite (bind_ok _ _ _ _ _ H6). apply (IH (tot + m)). by replace (tot + m + (left - m)) with (tot + left) by lia.
Qed.

(** The effect of the call on the files. *)
Record resized (ip : nat) (x x' : inode) (size : Z) (s s' : kstate) : Prop := {
  rz_frame : fs_frame (with_inodes (<[ip := x']> (k_inodes s)) s) s';
  rz_inode : x' = x <| i_addrs := i_addrs x' |> <| i_size := size |>;
  rz_inv : file_inv x' s';
  rz_bytes : forall k, 0 <= k < size -> fbyte x' s' k = if decide (k < i_size x) then fbyte x s k else 0;
  rz_others : forall b, owned b s -> owned b s' /\ (~ of_file x s b -> b <> iblock x s -> view s' b = view s b);
  rz_dinodes : forall inum y, dinode_off inum <> dinode_off (i_inum x) ->
    get_dinode (view s' (iblock x s)) (dinode_off inum) y = get_dinode (view s (iblock x s)) (dinode_off inum) y }.

(** From the loop to the end. *)
Lemma resized_after ip x x1 size off len s s1 s2 :
  file_inv x s -> off = Z.min size (i_size x) -> off + len = Z.max size (i_size x) -> 0 <= size <= MAXFILE * BSIZE -> sb_size (k_sb s) < 4294967296 ->
  written ip x x1 (fun _ => 0) off (off + len) s s1 ->
  let x' := x1 <| i_size := size |> in
  fs_frame (with_inodes (<[ip := x']> (k_inodes s)) s1) s2 ->
  (forall b, view s2 b = if decide (b = iblock x s) then put_dinode (dinode_off (i_inum x')) x' (view s1 b) else view s1 b) ->
  (forall b, owned b s1 -> owned b s2) -> resized ip x x' size s s2.
Proof.
  intros Hi Hoff Hlen Hsize Hsb Hw x' Hfr Hv Ho. destruct (written_apart _ _ _ _ _ _ _ _ Hi Hw) as (Hnot & Hib1 & Hvib). pose proof (fi_size _ _ Hi) as Hsz.
  destruct (Hw) as [W1 W2 W3 W4 W5 W6 _ _ _ _ W11].
  assert (Hfull : forall k, 0 <= k < i_size x -> baddr x s (k / BSIZE) <> 0) by (intros k Hk; apply (fi_full _ _ Hi); fs_sizes; Z.div_mod_to_equations; lia).
  assert (Hlook : forall k, 0 <= k < size -> baddr x1 s1 (k / BSIZE) <> 0).
  { intros k Hk. apply W4; [fs_sizes; Z.div_mod_to_equations; lia|]. destruct (decide (k < i_size x)); [left; apply Hfull; lia|right; blocks]. }
  pose proof (fs_frame_sb _ _ W1) as Es. change (k_sb (with_inodes _ s)) with (k_sb s) in Es.
  pose proof (fs_frame_sb _ _ Hfr) as Es2. change (k_sb (with_inodes _ s1)) with (k_sb s1) in Es2.
  assert (Einum : i_inum x' = i_inum x) by (unfold x'; rewrite W2; done).
  assert (Eib : iblock x' s2 = iblock x s) by (unfold iblock; by rewrite Es2, Es, Einum). set (ib := iblock x s) in *.
  destruct (file_ok_but x1 ib s1 s2 W3 Hnot) as (Hf2 & Hb2 & Hk2); [intros b' Hne; by rewrite Hv, decide_False|done|].
  assert (Hdin : fits x').
  { destruct (fi_fits _ _ Hi). unfold x'. rewrite W2. split; rsimpl; try done; [fs_sizes; lia| |apply W3].
    apply (file_addrs x1 s1 W3). rewrite Es. destruct (fi_iblock _ _ Hi) as [(G & _) _ _]. lia. }
  split.
  - eapply frame_trans; [exact W1|exact Hfr].
  - unfold x'. rewrite W2. rsimpl. by destruct x.
  - split; rewrite ?Eib; try done.
    + by apply file_ok_size.
    + unfold x'. rewrite W2. apply Hi.
    + intros bn Hbn Hlt. unfold x' in Hlt. rsimpl in Hlt. change (baddr x' s2 bn) with (baddr x1 s2 bn). rewrite Hb2.
      replace bn with (bn * BSIZE / BSIZE) by (by rewrite Z.div_mul). apply Hlook. fs_sizes. lia.
    + apply Ho, Hib1.
    + intros [E|(bn & Hbn & E)]; apply Hnot; [by left|right]. exists bn. split; [done|].
      change (baddr x' s2 bn) with (baddr x1 s2 bn) in E. by rewrite Hb2 in E.
    + rewrite Hv, decide_True by done. apply dinode_roundtrip; [done|]. rewrite (ow_len _ _ Hib1). apply dinode_fits.
  - intros k Hk. change (fbyte x' s2 k) with (fbyte x1 s2 k). rewrite Hk2; [|fs_sizes; lia|by apply Hlook].
    case_decide; [apply W6; [fs_sizes; lia|lia|apply Hfull; lia]|apply W5; lia].
  - intros b Hb. destruct (W11 b Hb) as [G1 G2]. split; [by apply Ho|]. intros Hn Hne. rewrite Hv, decide_False by done.
    apply G2; [intros E; apply Hn; by left|intros bn Hbn E; apply Hn; right; by exists bn].
  - intros inum y Hne. fold ib. rewrite Hv, decide_True, Einum, Hvib by done. rewrite put_dinode_other; [done|apply Hdin|]. by apply dinode_apart.
Qed.

Lemma changesize_env A k ip x size bl s :
  let off := Z.min size (i_size x) in let len := Z.max size (i_size x) - off in
  env A (nblocks off len + k + pot A x) (nblocks off len + 0 + pot A x) [] bl s -> file_inv x s -> i_type x = T_FILE -> k_inodes s !! ip = Some x ->
  iblock x s ∈ A -> 0 <= size <= MAXFILE * BSIZE ->
  exists x' A' bl' s', changesize ip size s = Ok size s' /\ env A' k 0 [] bl' s' /\ resized ip x x' size s s'.
Proof.
  intros off len He Hi Ht Hx HA Hsize. pose proof (lookup_lt_Some _ _ _ Hx) as Hip. pose proof (fi_file _ _ Hi) as Hf. pose proof (fi_size _ _ Hi) as Hsz.
  unfold changesize. mstep by (by apply inode_get_ok). rewrite Ht. cbn [negb Z.eqb T_FILE Pos.eqb].
  assert (En : (if i_size x <? size then u32 (size - i_size x) else u32 (i_size x - size)) = len).
  { unfold len, off. destruct (Z.ltb_spec (i_size x) size); rewrite u32_id by (fs_sizes; lia); lia. }
  assert (Eo : (if i_size x <? size then i_size x else size) = off) by (unfold off; destruct (Z.ltb_spec (i_size x) size); lia). rewrite En, Eo.
  destruct (writei_loop_ok (Z.to_nat len) A k 0 ip x (fun _ => 0) 0 off len bl s He Hf Hx) as (x1 & A1 & bl1 & s1 & H1 & HA1 & He1 & Hw); try (unfold len, off in *; fs_sizes; lia).
  apply changesize_loop_write in H1. mstep with (H1). pose proof (frame_inodes_inv _ _ _ (wt_frame _ _ _ _ _ _ _ _ Hw)) as El.
  assert (Hx1 : k_inodes s1 !! ip = Some x1) by (rewrite El; by apply list_lookup_insert_eq). apply (env_le _ _ k _ 0) in He1; [|lia..].
  set (x' := x1 <| i_size := size |>). set (s2 := with_inodes (<[ip := x']> (k_inodes s1)) s1).
  assert (Hu : inode_upd ip (fun x => x <| i_size := size |>) s1 = Ok tt s2) by (rewrite (inode_upd_ok ip x1) by done; done). mstep with (Hu).
  pose proof (env_inodes _ _ _ _ _ (<[ip := x']> (k_inodes s1)) _ He1) as He2. fold s2 in He2. destruct (written_apart _ _ _ _ _ _ _ _ Hi Hw) as (_ & Hib & _).
  pose proof (fs_frame_sb _ _ (wt_frame _ _ _ _ _ _ _ _ Hw)) as Es. change (k_sb (with_inodes _ s)) with (k_sb s) in Es.
  assert (Eib : iblock x' s2 = iblock x s).
  { unfold iblock. change (k_sb s2) with (k_sb s1). rewrite Es. unfold x'. by rewrite (wt_x _ _ _ _ _ _ _ _ Hw). }
  destruct (iupdate_env A1 k 0 ip x' bl1 s2 He2) as (bl2 & s3 & H3 & He3 & Hf3 & Hv3 & Ho3 & _).
  { unfold s2, with_inodes. rsimpl. apply list_lookup_insert_eq. by eapply lookup_lt_Some. }
  { unfold x'. rewrite (wt_x _ _ _ _ _ _ _ _ Hw). apply Hf. } { rewrite Eib. by apply owned_inodes. } { rewrite Eib. set_solver. }
  rewrite Eib in Hv3. mstep with (H3). rewrite i32_id by (fs_sizes; lia). exists x', A1, bl2, s3. split_and!; [done|done|].
  unfold s2 in Hf3. rewrite El, list_insert_insert_eq in Hf3. apply (resized_after ip x x1 size off len s s1 s3); try done.
  - unfold len. lia.
  - destruct (mo_size _ _ (ev_map _ _ _ _ _ _ He)), (mo_start _ _ (ev_map _ _ _ _ _ _ He)). lia.
  - intros b Hb. by apply Ho3, owned_inodes.
Qed.
End Resize.

(** ** Property *)

