(* ===== verification/Mkfs.v ===== *)
(** * Building a file system image (mkfs.c)

    The host program that writes the disk the kernel boots from.  The image file is a
    sequence of sectors; the files it copies arrive from the host in the pieces that
    [read] returns.  A failed assertion and a failed system call end the program, as
    [Panic].  The host is a little-endian machine, like the target. *)

From stdpp Require Import gmap.
From S2P Require Import Prelude Outcome Kernel Spinlock Kalloc Proc Cprintf Sleeplock Bio Log Txn Edit Inode Alloc Icache Fs File Content ReadWrite Dir.
Local Open Scope Z_scope.

(** ** mkfs.c *)

Definition NINODES : Z := 200.
Definition nbitmap : Z := FSSIZE / (BSIZE * 8) + 1.
Definition ninodeblocks : Z := NINODES / IPB + 1.
Definition nlog : Z := Z.of_nat LOGSIZE.
Definition nmeta : Z := 2 + nlog + ninodeblocks + nbitmap.
Definition ndata : Z := FSSIZE - nmeta.

(** [a[0] = x; a[1] = x >> 8; ...]: the integer whose bytes in memory these are. *)
Definition xshort (x : Z) : Z := u8 x + 256 * u8 (Z.shiftr x 8).
Definition xint (x : Z) : Z := u8 x + 256 * u8 (Z.shiftr x 8) + 65536 * u8 (Z.shiftr x 16) + 16777216 * u8 (Z.shiftr x 24).

Definition mkfs_sb : superblock :=
  mkSuperblock (xint FSSIZE) (xint ndata) (xint NINODES) (xint nlog) (xint 2) (xint (2 + nlog)) (xint (2 + nlog + ninodeblocks)).
Definition sb_bytes (sb : superblock) (buf : list Z) : list Z :=
  put_words 0 [sb_size sb; sb_nblocks sb; sb_ninodes sb; sb_nlog sb; sb_logstart sb; sb_inodestart sb; sb_bmapstart sb] buf.

Definition zeroes : list Z := replicate (Z.to_nat BSIZE) 0.

(** The image file, of [mk_sectors] sectors, and the next free inode and block. *)
Record mkst : Type := mkMkst { mk_img : Z -> list Z; mk_sectors : Z; mk_freeinode : Z; mk_freeblock : Z }.
#[export] Instance eta_mkst : Settable mkst :=
  fun r => mkMkst (mk_img r) (mk_sectors r) (mk_freeinode r) (mk_freeblock r).

Definition wsect (sec : Z) (buf : list Z) : M mkst unit :=
  modify (fun m => m <| mk_img ::= fun f b => if b =? sec then buf else f b |> <| mk_sectors ::= Z.max (sec + 1) |>).

(** Reading beyond the end of the image returns no bytes. *)
Definition rsect (sec : Z) : M mkst (list Z) :=
  m ← gets id;
  if sec <? mk_sectors m then ret (mk_img m sec) else panic "read".

(** A [struct dinode]: an inode without the fields it has only in memory. *)
Definition no_inode : inode := mkInode 0 0 0 0 0 0 0 0 0 (replicate 13 0).

Definition winode (inum : Z) (ip : inode) : M mkst unit :=
  let bn := IBLOCK inum mkfs_sb in
  buf ← rsect bn;
  wsect bn (put_dinode (dinode_off inum) ip buf).

Definition rinode (inum : Z) : M mkst inode :=
  buf ← rsect (IBLOCK inum mkfs_sb);
  ret (get_dinode buf (dinode_off inum) no_inode).

Definition mk_ialloc (type : Z) : M mkst Z :=
  inum ← gets mk_freeinode;
  modify (fun m => m <| mk_freeinode ::= fun n => u32 (n + 1) |>);;
  winode inum (no_inode <| i_type := xshort type |> <| i_nlink := xshort 1 |> <| i_size := xint 0 |>);;
  ret inum.

Definition mark (buf : list Z) (i : Z) : list Z := alter (fun v => Z.lor v (Z.shiftl 1 (i mod 8))) (Z.to_nat (i / 8)) buf.
Definition mk_balloc (used : Z) : M mkst unit :=
  if BSIZE * 8 <=? used then panic "used < BSIZE*8" else
  wsect (sb_bmapstart mkfs_sb) (fold_left mark (zrange 0 used) zeroes).

(** [freeblock++] *)
Definition next_block : M mkst Z :=
  b ← gets mk_freeblock;
  modify (fun m => m <| mk_freeblock ::= fun b => u32 (b + 1) |>);;
  ret b.

(** The block for the bytes at [fbn * BSIZE], and the inode with it. *)
Definition iappend_block (din : inode) (fbn : Z) : M mkst (inode * Z) :=
  if fbn <? NDIRECT then
    a ← deref (i_addrs din !! Z.to_nat fbn);
    if xint a =? 0 then
      b ← next_block;
      ret (set_addr fbn (xint b) din, xint (xint b))
    else ret (din, xint a)
  else
    a ← deref (i_addrs din !! Z.to_nat NDIRECT);
    din ← (if xint a =? 0 then b ← next_block; ret (set_addr NDIRECT (xint b) din) else ret din);
    let a := xint (ind din) in
    indirect ← rsect a;
    let e := get32 indirect (Z.to_nat (4 * (fbn - NDIRECT))) in
    if e =? 0 then
      b ← next_block;
      wsect a (put32 (Z.to_nat (4 * (fbn - NDIRECT))) (xint b) indirect);;
      ret (din, xint (xint b))
    else ret (din, xint e).

(** Each turn takes at least one byte of [p]. *)
Fixpoint iappend_loop (k : nat) (din : inode) (off : Z) (p : list Z) : M mkst (inode * Z) :=
  match p, k with
  | [], _ => ret (din, off)
  | _, O => spin
  | _, S k =>
    let fbn := off / BSIZE in
    if MAXFILE <=? fbn then panic "fbn < MAXFILE" else
    ' (din, x) ← iappend_block din fbn;
    let n1 := Z.min (Z.of_nat (length p)) ((fbn + 1) * BSIZE - off) in
    buf ← rsect x;
    wsect x (put_bytes (Z.to_nat (off - fbn * BSIZE)) (take (Z.to_nat n1) p) buf);;
    iappend_loop k din (u32 (off + n1)) (drop (Z.to_nat n1) p)
  end.

Definition iappend (inum : Z) (p : list Z) : M mkst unit :=
  din ← rinode inum;
  ' (din, off) ← iappend_loop (length p) din (xint (i_size din)) p;
  winode inum (din <| i_size := xint off |>).

(** An argument: the name, and the pieces in which the file arrives, unless it cannot be
    opened. *)
Definition argument : Type := list Z * option (list (list Z)).

(** A leading underscore is left out. *)
Definition mkfs_name (name : list Z) : list Z := match name with 95 :: name => name | _ => name end.

Definition mkfs_file (rootino : Z) (arg : argument) : M mkst unit :=
  let (name, file) := arg in
  if existsb (fun c => c =? 47) (cstr name) then panic "index(argv[i], '/') == 0" else
  match file with
  | None => panic "open"
  | Some chunks =>
    let name := mkfs_name name in
    inum ← mk_ialloc T_FILE;
    iappend rootino (make_dirent (xshort inum) name);;
    foreach chunks (fun buf => iappend inum buf)
  end.

Definition mkfs_main (files : list argument) : M mkst unit :=
  modify (fun m => m <| mk_freeblock := nmeta |>);;
  foreach (zrange 0 FSSIZE) (fun i => wsect i zeroes);;
  wsect 1 (sb_bytes mkfs_sb zeroes);;
  rootino ← mk_ialloc T_DIR;
  if negb (rootino =? ROOTINO) then panic "rootino == ROOTINO" else
  iappend rootino (make_dirent (xshort rootino) (bytes "."));;
  iappend rootino (make_dirent (xshort rootino) (bytes ".."));;
  foreach files (mkfs_file rootino);;
  din ← rinode rootino;
  let off := xint (i_size din) in
  let off := u32 ((off / BSIZE + 1) * BSIZE) in
  winode rootino (din <| i_size := xint off |>);;
  fb ← gets mk_freeblock;
  mk_balloc (i32 fb).

(** The program starts with an empty image. *)
Definition mkfs_start : mkst := mkMkst (fun _ => []) 0 1 0.

(** ** Files in an image *)

Lemma xint_id x : 0 <= x < 4294967296 -> xint x = x.
Proof. intros Hx. unfold xint, u8. rewrite !Z.shiftr_div_pow2 by lia. change (2 ^ 8) with 256. change (2 ^ 16) with 65536. change (2 ^ 24) with 16777216. Z.div_mod_to_equations. lia. Qed.

Lemma xshort_id x : 0 <= x < 65536 -> xshort x = x.
Proof. intros Hx. unfold xshort, u8. rewrite Z.shiftr_div_pow2 by lia. change (2 ^ 8) with 256. Z.div_mod_to_equations. lia. Qed.

(** What [baddr] and [fbyte] are on the sectors of an image. *)
Definition vaddr (v : Z -> list Z) (x : inode) (bn : Z) : Z :=
  if bn <? NDIRECT then nth (Z.to_nat bn) (i_addrs x) 0
  else if ind x =? 0 then 0 else get32 (v (ind x)) (Z.to_nat (4 * (bn - NDIRECT))).
Definition vbyte (v : Z -> list Z) (x : inode) (k : Z) : Z := nth (Z.to_nat (k mod BSIZE)) (v (vaddr v x (k / BSIZE))) 0.

(** The block pointers of a file: those of its blocks and, last, the indirect one. *)
Definition vslot (v : Z -> list Z) (x : inode) (k : Z) : Z := if k =? MAXFILE then ind x else vaddr v x k.

Record vslots (v : Z -> list Z) (x : inode) (fb : Z) : Prop := {
  vs_len : length (i_addrs x) = 13%nat;
  vs_range : forall k, 0 <= k <= MAXFILE -> vslot v x k <> 0 -> nmeta <= vslot v x k < fb;
  vs_inj : forall k k', 0 <= k <= MAXFILE -> 0 <= k' <= MAXFILE -> vslot v x k = vslot v x k' -> vslot v x k <> 0 -> k = k' }.

(** The next block goes into slot [k0]. *)
Lemma vslots_set v x fb v' x' k0 :
  vslots v x fb -> nmeta <= fb -> length (i_addrs x') = 13%nat -> vslot v' x' k0 = fb ->
  (forall k, 0 <= k <= MAXFILE -> k <> k0 -> vslot v' x' k = vslot v x k) -> vslots v' x' (fb + 1).
Proof.
  intros [V1 V2 V3] Hfb Hl Hk0 Ho. split; [done| |].
  - intros k Hk Hne. destruct (decide (k = k0)) as [->|]; [lia|]. rewrite Ho in * by done. specialize (V2 k Hk Hne). lia.
  - intros k k' Hk Hk' E Hne. destruct (decide (k = k0)) as [->|N], (decide (k' = k0)) as [->|N']; [done| | |].
    + rewrite Hk0 in *. rewrite (Ho k') in E by done. pose proof (V2 k' Hk'). lia.
    + rewrite Hk0 in *. rewrite (Ho k) in * by done. pose proof (V2 k Hk Hne). lia.
    + rewrite !Ho in * by done. by apply V3.
Qed.

Lemma nmeta_pos : nmeta = 59.
Proof. reflexivity. Qed.

Ltac mk_sizes := fs_sizes; change NDIRECT with 12 in *; change FSSIZE with 1000 in *; rewrite ?nmeta_pos in *.

(** The three places a block can go. *)
Lemma slot_direct v x bn fb :
  length (i_addrs x) = 13%nat -> 0 <= bn < NDIRECT ->
  vslot v (set_addr bn fb x) bn = fb /\ ind (set_addr bn fb x) = ind x /\
  forall k, 0 <= k <= MAXFILE -> k <> bn -> vslot v (set_addr bn fb x) k = vslot v x k.
Proof.
  intros Hl Hbn. assert (Hi : ind (set_addr bn fb x) = ind x).
  { unfold ind, set_addr. rsimpl. rewrite nth_set, decide_False; mk_sizes; [done|lia|lia]. }
  split_and!; [|done|].
  - unfold vslot, vaddr. rewrite (proj2 (Z.eqb_neq _ _)) by (mk_sizes; lia). rewrite (proj2 (Z.ltb_lt _ _)) by lia.
    unfold set_addr. rsimpl. rewrite nth_set, decide_True; [done|done|mk_sizes; lia].
  - intros k Hk Hne. unfold vslot, vaddr. rewrite Hi. destruct (k =? MAXFILE); [done|]. destruct (k <? NDIRECT); [|done].
    unfold set_addr. rsimpl. rewrite nth_set, decide_False; [done|lia|mk_sizes; lia].
Qed.

Lemma slot_indirect v x fb :
  length (i_addrs x) = 13%nat -> ind x = 0 -> v fb = zeroes ->
  ind (set_addr NDIRECT fb x) = fb /\ vslot v (set_addr NDIRECT fb x) MAXFILE = fb /\
  forall k, 0 <= k <= MAXFILE -> k <> MAXFILE -> vslot v (set_addr NDIRECT fb x) k = vslot v x k.
Proof.
  intros Hl Hi Hz. assert (Ei : ind (set_addr NDIRECT fb x) = fb).
  { unfold ind, set_addr. rsimpl. rewrite nth_set, decide_True; mk_sizes; [done|done|lia]. }
  split_and!; [done|unfold vslot; by rewrite Z.eqb_refl|].
  intros k Hk Hne. unfold vslot, vaddr. rewrite Ei, Hi, (proj2 (Z.eqb_neq k _)) by done. change (0 =? 0) with true. cbn iota.
  destruct (Z.ltb_spec k NDIRECT).
  - unfold set_addr. rsimpl. rewrite nth_set, decide_False; [done|mk_sizes; lia|mk_sizes; lia].
  - destruct (fb =? 0); [done|]. rewrite Hz. apply get32_zeroes.
Qed.

Lemma slot_entry v v' x bn fb :
  vslots v x fb -> NDIRECT <= bn < MAXFILE -> ind x <> 0 -> length (v (ind x)) = 512%nat -> 0 <= fb < 4294967296 ->
  v' (ind x) = put32 (Z.to_nat (4 * (bn - NDIRECT))) fb (v (ind x)) ->
  vslot v' x bn = fb /\ forall k, 0 <= k <= MAXFILE -> k <> bn -> vslot v' x k = vslot v x k.
Proof.
  intros Hv Hbn Hi Hl Hfb E. mk_sizes. split.
  - unfold vslot, vaddr. mk_sizes. rewrite (proj2 (Z.eqb_neq _ _)), (proj2 (Z.ltb_ge _ _)), (proj2 (Z.eqb_neq (ind x) _)) by lia.
    rewrite E, get32_put32 by (rewrite Hl; lia). apply u32_id. lia.
  - intros k Hk Hne. unfold vslot, vaddr. mk_sizes. destruct (Z.eqb_spec k 140); [done|]. destruct (Z.ltb_spec k 12); [done|].
    destruct (ind x =? 0); [done|]. rewrite E, get32_put32_ne; [done|lia].
Qed.

(** ** The state of the program *)

Lemma nth_zeroes k : nth k zeroes 0 = 0.
Proof. unfold zeroes. generalize (Z.to_nat BSIZE). intros n. revert k. induction n as [|n IH]; intros [|k]; try done. apply IH. Qed.

(** All sectors have been written, and those from the next free block on are blank. *)
Record mk_ok (m : mkst) : Prop := {
  mk_full : mk_sectors m = FSSIZE;
  mk_lens : forall b, 0 <= b < FSSIZE -> length (mk_img m b) = 512%nat;
  mk_blank : forall b, mk_freeblock m <= b < FSSIZE -> mk_img m b = zeroes;
  mk_range : nmeta <= mk_freeblock m <= FSSIZE }.

Lemma rsect_ok b m : mk_ok m -> b < FSSIZE -> rsect b m = Ok (mk_img m b) m.
Proof. intros Hm Hb. unfold rsect. mstep. unfold id. rewrite (mk_full _ Hm), (proj2 (Z.ltb_lt _ _)) by done. done. Qed.

Definition with_sector (b : Z) (buf : list Z) (m : mkst) : mkst := m <| mk_img ::= fun f b' => if b' =? b then buf else f b' |>.

Lemma wsect_ok b buf m : mk_ok m -> b < FSSIZE -> wsect b buf m = Ok tt (with_sector b buf m).
Proof.
  intros Hm Hb. unfold wsect, modify, with_sector. f_equal. destruct m. unfold set. simpl. pose proof (mk_full _ Hm) as E. simpl in E. subst.
  f_equal. lia.
Qed.

Lemma with_sector_img b buf m b' : mk_img (with_sector b buf m) b' = if b' =? b then buf else mk_img m b'.
Proof. done. Qed.

Lemma mk_ok_write b buf m : mk_ok m -> b < mk_freeblock m -> length buf = 512%nat -> mk_ok (with_sector b buf m).
Proof.
  intros [M1 M2 M3 M4] Hb Hl. split; try done.
  - intros b' Hb'. rewrite with_sector_img. destruct (b' =? b); [done|by apply M2].
  - intros b' Hb'. rewrite with_sector_img. rewrite (proj2 (Z.eqb_neq _ _)); [by apply M3|]. change (mk_freeblock (with_sector b buf m)) with (mk_freeblock m) in Hb'. lia.
Qed.

Definition taking (m : mkst) : mkst := m <| mk_freeblock := mk_freeblock m + 1 |>.

Lemma next_block_ok m : mk_ok m -> mk_freeblock m < FSSIZE -> next_block m = Ok (mk_freeblock m) (taking m) /\ mk_ok (taking m).
Proof.
  intros [M1 M2 M3 M4] Hb. split.
  - unfold next_block. mstep. mstep. unfold ret. do 2 f_equal. unfold taking, set. simpl. f_equal. apply u32_id. mk_sizes. lia.
  - split; try done; unfold taking; rsimpl; [|mk_sizes; lia]. intros b Hr. apply M3. lia.
Qed.

(** The block for the next byte of a file is at [a]. *)
Record placed (x x' : inode) (fbn a new : Z) (m m' : mkst) : Prop := {
  pl_ok : mk_ok m';
  pl_inode : x' = x <| i_addrs := i_addrs x' |>;
  pl_count : mk_freeblock m' = mk_freeblock m + new;
  pl_next : mk_freeinode m' = mk_freeinode m;
  pl_slots : vslots (mk_img m') x' (mk_freeblock m');
  pl_addr : vaddr (mk_img m') x' fbn = a;
  pl_pos : a <> 0;
  pl_old : vaddr (mk_img m) x fbn <> 0 -> a = vaddr (mk_img m) x fbn;
  pl_new : vaddr (mk_img m) x fbn = 0 -> mk_freeblock m <= a;
  pl_others : forall k, 0 <= k < MAXFILE -> k <> fbn -> vaddr (mk_img m') x' k = vaddr (mk_img m) x k;
  pl_ind : fbn < NDIRECT \/ ind x' <> 0;
  pl_ind_new : ind x' = ind x \/ mk_freeblock m <= ind x';
  pl_ind_same : fbn < NDIRECT \/ ind x <> 0 -> ind x' = ind x;
  pl_same : forall b, b < mk_freeblock m -> b <> ind x -> mk_img m' b = mk_img m b;
  pl_rest : forall b, mk_freeblock m' <= b -> mk_img m' b = mk_img m b;
  pl_blank : vaddr (mk_img m) x fbn = 0 -> mk_img m' a = zeroes }.

(** How many blocks it takes. *)
Definition need1 (v : Z -> list Z) (x : inode) (fbn : Z) : Z :=
  (if vaddr v x fbn =? 0 then 1 else 0) + (if (NDIRECT <=? fbn) && (ind x =? 0) then 1 else 0).

Lemma vaddr_slot v x k : k < MAXFILE -> vslot v x k = vaddr v x k.
Proof. intros Hk. unfold vslot. by rewrite (proj2 (Z.eqb_neq _ _)) by lia. Qed.

Lemma slot_word v x fb k : vslots v x fb -> fb <= FSSIZE -> 0 <= k <= MAXFILE -> 0 <= vslot v x k < FSSIZE.
Proof. intros Hv Hfb Hk. destruct (decide (vslot v x k = 0)) as [->|Hne]; [mk_sizes; lia|]. pose proof (vs_range _ _ _ Hv k Hk Hne). mk_sizes. lia. Qed.

Lemma addr_slot v x fb i :
  vslots v x fb -> 0 <= i <= NDIRECT -> i_addrs x !! Z.to_nat i = Some (vslot v x (if i =? NDIRECT then MAXFILE else i)).
Proof.
  intros Hv Hi. destruct (lookup_lt_is_Some_2 (i_addrs x) (Z.to_nat i)) as [a Ha]; [rewrite (vs_len _ _ _ Hv); mk_sizes; lia|].
  rewrite Ha. f_equal. symmetry. unfold vslot, vaddr. destruct (Z.eqb_spec i NDIRECT) as [->|Hne].
  - change (MAXFILE =? MAXFILE) with true. cbn iota. by apply nth_lookup_Some.
  - rewrite (proj2 (Z.eqb_neq _ _)), (proj2 (Z.ltb_lt _ _)) by (mk_sizes; lia). by apply nth_lookup_Some.
Qed.

Lemma place_direct x fbn m :
  mk_ok m -> vslots (mk_img m) x (mk_freeblock m) -> 0 <= fbn < NDIRECT ->
  mk_freeblock m + need1 (mk_img m) x fbn <= FSSIZE ->
  exists x' a m', iappend_block x fbn m = Ok (x', a) m' /\ placed x x' fbn a (need1 (mk_img m) x fbn) m m'.
Proof.
  intros Hm Hv Hbn Hneed. unfold iappend_block. rewrite (proj2 (Z.ltb_lt _ _)) by lia.
  rewrite (addr_slot _ _ _ _ Hv) by lia. rewrite (proj2 (Z.eqb_neq fbn NDIRECT)) by lia. cbn [deref]. mstep.
  pose proof (mk_range _ Hm) as Hr. pose proof (slot_word _ _ _ fbn Hv ltac:(lia) ltac:(mk_sizes; lia)) as Hw.
  rewrite xint_id by (mk_sizes; lia). unfold need1 in *. rewrite vaddr_slot in * by (mk_sizes; lia).
  assert (Hnd : (NDIRECT <=? fbn) && (ind x =? 0) = false) by (rewrite (proj2 (Z.leb_gt _ _)) by lia; done). rewrite Hnd in *.
  destruct (Z.eqb_spec (vaddr (mk_img m) x fbn) 0) as [E0|Hne].
  - destruct (next_block_ok m Hm) as [H1 Hm1]; [lia|]. mstep with (H1). rewrite !xint_id by (rewrite ?xint_id; mk_sizes; lia).
    destruct (slot_direct (mk_img m) x fbn (mk_freeblock m) (vs_len _ _ _ Hv) Hbn) as (G1 & G2 & G3).
    exists (set_addr fbn (mk_freeblock m) x), (mk_freeblock m), (taking m). split; [done|].
    split; try done; unfold taking; rsimpl; try (mk_sizes; lia).
    + apply (vslots_set (mk_img m) x _ _ _ fbn); try done; [lia|]. unfold set_addr. rsimpl. rewrite length_insert. apply Hv.
    + rewrite <- vaddr_slot by (mk_sizes; lia). done.
    + intros k Hk Hne. rewrite <- !vaddr_slot by lia. apply G3; [lia|done].
    + intros _. apply (mk_blank _ Hm). mk_sizes. lia.
  - exists x, (vaddr (mk_img m) x fbn), m. split; [done|]. split; try done; try lia.
    + by destruct x.
Qed.

(** The indirect block first. *)
Lemma place_indirect x m :
  mk_ok m -> vslots (mk_img m) x (mk_freeblock m) -> mk_freeblock m + (if ind x =? 0 then 1 else 0) <= FSSIZE ->
  exists x' m', (if ind x =? 0 then b ← next_block; ret (set_addr NDIRECT (xint b) x) else ret x) m = Ok x' m' /\
    mk_ok m' /\ x' = x <| i_addrs := i_addrs x' |> /\ mk_freeblock m' = mk_freeblock m + (if ind x =? 0 then 1 else 0) /\
    mk_freeinode m' = mk_freeinode m /\ mk_img m' = mk_img m /\ vslots (mk_img m) x' (mk_freeblock m') /\ ind x' <> 0 /\ (ind x <> 0 -> x' = x) /\
    (ind x = 0 -> ind x' = mk_freeblock m) /\
    forall k, 0 <= k < MAXFILE -> vaddr (mk_img m) x' k = vaddr (mk_img m) x k.
Proof.
  intros Hm Hv Hneed. pose proof (mk_range _ Hm) as Hr. destruct (Z.eqb_spec (ind x) 0) as [E0|Hne].
  - destruct (next_block_ok m Hm) as [H1 Hm1]; [lia|]. mstep with (H1). rewrite xint_id by (mk_sizes; lia).
    destruct (slot_indirect (mk_img m) x (mk_freeblock m) (vs_len _ _ _ Hv) E0) as (G1 & G2 & G3); [apply (mk_blank _ Hm); lia|].
    exists (set_addr NDIRECT (mk_freeblock m) x), (taking m). split_and!; try done.
    + apply (vslots_set (mk_img m) x _ _ _ MAXFILE); try done; [lia|]. unfold set_addr. rsimpl. rewrite length_insert. apply Hv.
    + rewrite G1. mk_sizes. lia.
    + intros k Hk. rewrite <- !vaddr_slot by lia. apply G3; [lia|]. mk_sizes. lia.
  - exists x, m. rewrite Z.add_0_r. split_and!; try done. by destruct x.
Qed.

Lemma place_entry x fbn m :
  mk_ok m -> vslots (mk_img m) x (mk_freeblock m) -> NDIRECT <= fbn < MAXFILE -> ind x <> 0 ->
  mk_freeblock m + need1 (mk_img m) x fbn <= FSSIZE ->
  exists a m', (let a := xint (ind x) in
    indirect ← rsect a;
    let e := get32 indirect (Z.to_nat (4 * (fbn - NDIRECT))) in
    if e =? 0 then
      b ← next_block;
      wsect a (put32 (Z.to_nat (4 * (fbn - NDIRECT))) (xint b) indirect);;
      ret (x, xint (xint b))
    else ret (x, xint e)) m = Ok (x, a) m' /\ placed x x fbn a (need1 (mk_img m) x fbn) m m'.
Proof.
  intros Hm Hv Hbn Hi Hneed. pose proof (mk_range _ Hm) as Hr. cbv zeta.
  assert (Hir : nmeta <= ind x < mk_freeblock m) by (apply (vs_range _ _ _ Hv MAXFILE); [mk_sizes; lia|exact Hi]).
  rewrite xint_id by (mk_sizes; lia). rewrite (bind_ok _ _ _ _ _ (rsect_ok (ind x) m Hm ltac:(mk_sizes; lia))). cbv zeta.
  assert (Ea : get32 (mk_img m (ind x)) (Z.to_nat (4 * (fbn - NDIRECT))) = vaddr (mk_img m) x fbn).
  { unfold vaddr. rewrite (proj2 (Z.ltb_ge _ _)), (proj2 (Z.eqb_neq _ _)) by (done || lia). done. }
  rewrite Ea. pose proof (slot_word _ _ _ fbn Hv ltac:(lia) ltac:(mk_sizes; lia)) as Hw. rewrite vaddr_slot in Hw by lia.
  unfold need1 in *. rewrite (proj2 (Z.eqb_neq (ind x) 0)), andb_false_r, Z.add_0_r in * by done.
  destruct (Z.eqb_spec (vaddr (mk_img m) x fbn) 0) as [E0|Hne].
  - destruct (next_block_ok m Hm) as [H1 Hm1]; [lia|]. mstep with (H1). rewrite !xint_id by (rewrite ?xint_id; mk_sizes; lia).
    pose proof (mk_lens _ Hm (ind x) ltac:(mk_sizes; lia)) as Hl.
    set (buf := put32 _ _ _). pose proof (wsect_ok (ind x) buf (taking m) Hm1 ltac:(mk_sizes; lia)) as H2. mstep with (H2).
    set (m2 := with_sector (ind x) buf (taking m)) in *.
    assert (Ei : forall b, mk_img m2 b = if b =? ind x then buf else mk_img m b) by done.
    destruct (slot_entry (mk_img m) (mk_img m2) x fbn (mk_freeblock m) Hv Hbn Hi Hl ltac:(mk_sizes; lia)) as [G1 G2]; [by rewrite Ei, Z.eqb_refl|].
    assert (Hm2 : mk_ok m2).
    { apply mk_ok_write; [done|unfold taking; rsimpl; lia|]. unfold buf. by rewrite length_put32. }
    exists (mk_freeblock m), m2. split; [done|]. split; try done; change (mk_freeblock m2) with (mk_freeblock m + 1); try (mk_sizes; lia).
    + by destruct x.
    + apply (vslots_set (mk_img m) x _ _ _ fbn); try done; [lia|apply Hv].
    + by rewrite <- vaddr_slot by lia.
    + intros k Hk Hne. rewrite <- !vaddr_slot by lia. apply G2; [lia|done].
    + intros b Hb Hne. by rewrite Ei, (proj2 (Z.eqb_neq _ _)).
    + intros b Hb. rewrite Ei, (proj2 (Z.eqb_neq _ _)); [done|lia].
    + intros _. rewrite Ei, (proj2 (Z.eqb_neq _ _)) by lia. apply (mk_blank _ Hm). mk_sizes. lia.
  - rewrite xint_id by (mk_sizes; lia). exists (vaddr (mk_img m) x fbn), m. split; [done|]. rewrite ?Z.add_0_r. split; try done; try lia.
    + by destruct x.
Qed.

Lemma place_ok x fbn m :
  mk_ok m -> vslots (mk_img m) x (mk_freeblock m) -> 0 <= fbn < MAXFILE ->
  mk_freeblock m + need1 (mk_img m) x fbn <= FSSIZE ->
  exists x' a m', iappend_block x fbn m = Ok (x', a) m' /\ placed x x' fbn a (need1 (mk_img m) x fbn) m m'.
Proof.
  intros Hm Hv Hbn Hneed. destruct (decide (fbn < NDIRECT)) as [Hd|Hd]; [apply place_direct; try done; lia|].
  unfold iappend_block. rewrite (proj2 (Z.ltb_ge _ _)) by lia. rewrite (addr_slot _ _ _ _ Hv) by (mk_sizes; lia). rewrite Z.eqb_refl. cbn [deref]. mstep.
  change (vslot (mk_img m) x MAXFILE) with (ind x). pose proof (mk_range _ Hm) as Hr.
  pose proof (slot_word _ _ _ MAXFILE Hv ltac:(lia) ltac:(mk_sizes; lia)) as Hiw. change (vslot (mk_img m) x MAXFILE) with (ind x) in Hiw.
  rewrite xint_id by (mk_sizes; lia).
  assert (Hn : need1 (mk_img m) x fbn = (if vaddr (mk_img m) x fbn =? 0 then 1 else 0) + (if ind x =? 0 then 1 else 0)).
  { unfold need1. rewrite (proj2 (Z.leb_le _ _)) by lia. done. }
  assert (0 <= if vaddr (mk_img m) x fbn =? 0 then 1 else 0) by (destruct (_ =? _); lia).
  destruct (place_indirect x m Hm Hv) as (x1 & m1 & H1 & Hm1 & Hx1 & Hc1 & Hn1 & Hi1 & Hv1 & Hne1 & Hold & Hnew & Ha1); [lia|]. mstep with (H1).
  assert (Hnn : need1 (mk_img m1) x1 fbn = if vaddr (mk_img m) x fbn =? 0 then 1 else 0).
  { unfold need1. rewrite Hi1, Ha1, (proj2 (Z.eqb_neq (ind x1) 0)), andb_false_r, Z.add_0_r by done. done. }
  destruct (place_entry x1 fbn m1) as (a & m2 & H2 & [P1 P2 P3 P4 P5 P6 P7 P7' Pn P8 P9 Pi P10 P11 P12 P13]); try (done || lia); [by rewrite Hi1|].
  exists x1, a, m2. split; [exact H2|]. rewrite Hi1 in *. rewrite Ha1 in P7', Pn, P13 by done. split; try done; try lia.
  - intros E0. specialize (Pn E0). destruct (ind x =? 0); lia.
  - intros k Hk Hne. rewrite P8, Ha1; done.
  - destruct (decide (ind x = 0)) as [E|E]; [right; rewrite (Hnew E); lia|left; by rewrite (Hold E)].
  - intros [?|Hne]; [lia|]. by rewrite (Hold Hne).
  - intros b Hb Hne. apply P11; [destruct (ind x =? 0); lia|]. destruct (decide (ind x = 0)) as [E|E]; [rewrite (Hnew E); lia|by rewrite (Hold E)].
Qed.

(** ** Appending *)

(** The file [x] has the contents [c], and its last block ends with zeroes. *)
Record vfile (v : Z -> list Z) (x : inode) (c : list Z) (fb : Z) : Prop := {
  vf_slots : vslots v x fb;
  vf_blocks : forall bn, 0 <= bn < MAXFILE -> vaddr v x bn <> 0 <-> bn * BSIZE < Z.of_nat (length c);
  vf_ind : ind x <> 0 <-> NDIRECT * BSIZE < Z.of_nat (length c);
  vf_max : Z.of_nat (length c) <= MAXFILE * BSIZE;
  vf_bytes : forall k, 0 <= k -> k / BSIZE * BSIZE < Z.of_nat (length c) -> vbyte v x k = nth (Z.to_nat k) c 0 }.

(** The blocks that a file of [n] bytes takes. *)
Definition fblocks (n : Z) : Z := (n + 511) / 512 + (if 6144 <? n then 1 else 0).

Lemma need_blocks v x c fb d :
  vfile v x c fb -> 0 < d -> Z.of_nat (length c) mod BSIZE + d <= BSIZE -> Z.of_nat (length c) / BSIZE < MAXFILE ->
  need1 v x (Z.of_nat (length c) / BSIZE) = fblocks (Z.of_nat (length c) + d) - fblocks (Z.of_nat (length c)).
Proof.
  intros Hf Hd Hfit Hmax. set (n := Z.of_nat (length c)) in *. pose proof (vf_blocks _ _ _ _ Hf (n / BSIZE)) as Hb. pose proof (vf_ind _ _ _ _ Hf) as Hi.
  fold n in Hb, Hi. unfold need1, fblocks. mk_sizes. assert (0 <= n) by (unfold n; lia).
  destruct (Z.eqb_spec (vaddr v x (n / 512)) 0), (Z.leb_spec 12 (n / 512)), (Z.eqb_spec (ind x) 0), (Z.ltb_spec 6144 (n + d)), (Z.ltb_spec 6144 n);
    cbn [andb]; Z.div_mod_to_equations; lia.
Qed.

(** Outside the file [x] nothing below [fb] has changed. *)
Definition kept (x : inode) (fb : Z) (v v' : Z -> list Z) : Prop :=
  forall b, b < fb -> (forall k, 0 <= k <= MAXFILE -> vslot v x k <> b) -> v' b = v b.

(** A pointer of the file is as before or to a new block. *)
Definition grown (x : inode) (fb : Z) (v : Z -> list Z) (x' : inode) (v' : Z -> list Z) : Prop :=
  forall k, 0 <= k <= MAXFILE -> vslot v' x' k = vslot v x k \/ fb <= vslot v' x' k.

Lemma vslots_ext v v' x fb : (forall k, 0 <= k <= MAXFILE -> vslot v' x k = vslot v x k) -> vslots v x fb -> vslots v' x fb.
Proof.
  intros E [V1 V2 V3]. split; [done| |].
  - intros k Hk. rewrite E by done. by apply V2.
  - intros k k' Hk Hk'. rewrite !E by done. by apply V3.
Qed.

Lemma block_before k n d : n mod 512 + d <= 512 -> k / 512 * 512 < n + d -> k / 512 <> n / 512 -> k < n /\ k / 512 * 512 < n.
Proof. intros. Z.div_mod_to_equations. lia. Qed.

Section Put.
Context (x x' : inode) (c d : list Z) (a new : Z) (m m1 : mkst).
Let n := Z.of_nat (length c).
Let fbn := n / BSIZE.
Context (Hf : vfile (mk_img m) x c (mk_freeblock m)) (Hm : mk_ok m) (Hd : (0 < length d)%nat)
  (Hfit : n mod BSIZE + Z.of_nat (length d) <= BSIZE) (Hmax : fbn < MAXFILE) (Hp : placed x x' fbn a new m m1).
Let m2 := with_sector a (put_bytes (Z.to_nat (n mod BSIZE)) d (mk_img m1 a)) m1.

Local Lemma put_range : 0 <= n /\ 0 <= fbn < 140 /\ 59 <= a < mk_freeblock m1 /\ mk_freeblock m1 <= 1000 /\ 0 <= n mod 512 < 512 /\ length (mk_img m1 a) = 512%nat.
Proof using Hf Hm Hd Hfit Hmax Hp.
  assert (Hn : 0 <= n) by (unfold n; lia). assert (Hb : 0 <= fbn < 140) by (unfold fbn in *; mk_sizes; Z.div_mod_to_equations; lia).
  destruct Hp as [P1 P2 P3 P4 P5 P6 P7 P7' Pn P8 P9 Pi P10 P11 P12 P13]. pose proof (mk_range _ P1) as Hr1. mk_sizes.
  assert (Har : nmeta <= a < mk_freeblock m1).
  { rewrite <- P6, <- vaddr_slot by (mk_sizes; lia). apply (vs_range _ _ _ P5); [mk_sizes; lia|]. rewrite vaddr_slot, P6 by (mk_sizes; lia). done. }
  mk_sizes. split_and!; try lia; [apply Z.mod_pos_bound; lia..|]. apply (mk_lens _ P1). mk_sizes. lia.
Qed.

Local Lemma put_img b : mk_img m2 b = if b =? a then put_bytes (Z.to_nat (n mod BSIZE)) d (mk_img m1 a) else mk_img m1 b.
Proof. done. Qed.

Local Lemma put_vaddr k : vaddr (mk_img m2) x' k = vaddr (mk_img m1) x' k.
Proof using Hf Hm Hd Hfit Hmax Hp.
  destruct put_range as (_ & Hb & Ha & _ & _ & _). destruct Hp as [P1 P2 P3 P4 P5 P6 P7 P7' Pn P8 P9 Pi P10 P11 P12 P13].
  unfold vaddr. rewrite put_img, (proj2 (Z.eqb_neq (ind x') a)); [done|]. intros E. assert (140 = fbn); [|lia].
  apply (vs_inj _ _ _ P5); [mk_sizes; lia|mk_sizes; lia| |].
  - rewrite (vaddr_slot _ _ fbn), P6 by (mk_sizes; lia). exact E.
  - change (vslot (mk_img m1) x' 140) with (ind x'). congruence.
Qed.

(** The blocks before the one that was written. *)
Local Lemma put_old k : 0 <= k < 140 -> k <> fbn -> vaddr (mk_img m) x k <> 0 -> mk_img m2 (vaddr (mk_img m) x k) = mk_img m (vaddr (mk_img m) x k).
Proof using Hf Hm Hd Hfit Hmax Hp.
  intros Hk Hne H0. destruct put_range as (_ & Hb & Ha & _ & _ & _). destruct Hp as [P1 P2 P3 P4 P5 P6 P7 P7' Pn P8 P9 Pi P10 P11 P12 P13].
  rewrite put_img, (proj2 (Z.eqb_neq _ _)).
  - apply P11; [rewrite <- vaddr_slot by (mk_sizes; lia); apply Hf; [mk_sizes; lia|rewrite vaddr_slot by (mk_sizes; lia); done]|].
    intros E. assert (k = 140); [|lia]. apply (vs_inj _ _ _ (vf_slots _ _ _ _ Hf)); [mk_sizes; lia|mk_sizes; lia| |]; rewrite (vaddr_slot _ _ k) by (mk_sizes; lia); done.
  - rewrite <- P6, <- (P8 k) by (mk_sizes; lia). intros E. apply Hne. rewrite <- !vaddr_slot in E by (mk_sizes; lia).
    apply (vs_inj _ _ _ P5) in E; [done|mk_sizes; lia|mk_sizes; lia|]. rewrite vaddr_slot, P8 by (mk_sizes; lia). done.
Qed.

(** The block that was written, before. *)
Local Lemma put_before k : 0 <= k -> k / 512 = n / 512 -> k < n \/ n + Z.of_nat (length d) <= k -> nth (Z.to_nat (k mod 512)) (mk_img m1 a) 0 = nth (Z.to_nat k) (c ++ d) 0.
Proof using Hf Hm Hd Hfit Hmax Hp.
  intros Hk E Hout. destruct put_range as (Hn & Hb & Ha & _ & Hmod & Hl).
  destruct Hp as [P1 P2 P3 P4 P5 P6 P7 P7' Pn P8 P9 Pi P10 P11 P12 P13]. unfold fbn in *. mk_sizes.
  assert (Eo : nth (Z.to_nat k) (c ++ d) 0 = nth (Z.to_nat k) c 0).
  { destruct Hout as [Hlt|Hge]; [apply app_nth1; unfold n in *; lia|]. rewrite !nth_overflow; [done|unfold n in *; lia|rewrite length_app; unfold n in *; lia]. }
  rewrite Eo. destruct (decide (vaddr (mk_img m) x (n / 512) = 0)) as [E0|Hne].
  - rewrite (P13 E0), nth_zeroes. symmetry. apply nth_overflow. assert (Hz : ~ n / 512 * 512 < n); [|unfold n in *; Z.div_mod_to_equations; lia].
    intros Hlt. by apply (vf_blocks _ _ _ _ Hf (n / 512)) in Hlt; [|mk_sizes; lia].
  - assert (Hlt : n / 512 * 512 < n) by (apply (vf_blocks _ _ _ _ Hf (n / 512)) in Hne; [done|mk_sizes; lia]).
    rewrite <- (vf_bytes _ _ _ _ Hf) by (fold n; mk_sizes; lia || (rewrite E; exact Hlt)). unfold vbyte. mk_sizes. rewrite E, (P7' Hne), P11; [done| |].
    + rewrite <- vaddr_slot by (mk_sizes; lia). apply Hf; [mk_sizes; lia|rewrite vaddr_slot by (mk_sizes; lia); done].
    + intros E'. assert (n / 512 = 140); [|lia]. apply (vs_inj _ _ _ (vf_slots _ _ _ _ Hf)); [mk_sizes; lia|mk_sizes; lia| |]; rewrite (vaddr_slot _ _ (n / 512)) by (mk_sizes; lia); done.
Qed.

Local Lemma put_bytes_ok k : 0 <= k -> k / BSIZE * BSIZE < n + Z.of_nat (length d) -> vbyte (mk_img m2) x' k = nth (Z.to_nat k) (c ++ d) 0.
Proof using Hf Hm Hd Hfit Hmax Hp.
  intros Hk Hkb. destruct put_range as (Hn & Hb & Ha & _ & Hmod & Hl). pose proof (put_old (k / 512)) as Hold. pose proof (put_before k Hk) as Hbef.
  destruct Hp as [P1 P2 P3 P4 P5 P6 P7 P7' Pn P8 P9 Pi P10 P11 P12 P13]. unfold vbyte. rewrite put_vaddr. unfold fbn in *. mk_sizes.
  destruct (decide (k / 512 = n / 512)) as [E|E].
  - rewrite E, P6, put_img, Z.eqb_refl, nth_put_bytes by (mk_sizes; rewrite Hl; lia). mk_sizes. specialize (Hbef E).
    assert (Ek : k mod 512 - n mod 512 = k - n) by (Z.div_mod_to_equations; lia). pose proof (Z.mod_pos_bound k 512 ltac:(lia)).
    case_decide as Hc; [|apply Hbef; lia]. rewrite app_nth2 by (unfold n in *; lia). f_equal. unfold n in *. lia.
  - destruct (block_before k n _ Hfit Hkb E) as [Hlt Hkn].
    rewrite app_nth1 by (unfold n in *; lia). rewrite <- (vf_bytes _ _ _ _ Hf) by (fold n; mk_sizes; lia).
    assert (Hne : vaddr (mk_img m) x (k / 512) <> 0) by (apply Hf; fold n; mk_sizes; Z.div_mod_to_equations; lia).
    rewrite P8 by (mk_sizes; Z.div_mod_to_equations; lia). unfold vbyte. mk_sizes. rewrite Hold by (done || Z.div_mod_to_equations; lia). done.
Qed.

Lemma vfile_put :
  vfile (mk_img m2) x' (c ++ d) (mk_freeblock m2) /\ mk_ok m2 /\ kept x (mk_freeblock m) (mk_img m) (mk_img m2) /\
  grown x (mk_freeblock m) (mk_img m) x' (mk_img m2) /\ forall b, mk_freeblock m2 <= b -> mk_img m2 b = mk_img m b.
Proof using Hf Hm Hd Hfit Hmax Hp.
  destruct put_range as (Hn & Hb & Ha & Hr1 & Hmod & Hl). pose proof put_vaddr as Ev. pose proof put_bytes_ok as Hbytes.
  destruct Hp as [P1 P2 P3 P4 P5 P6 P7 P7' Pn P8 P9 Pi P10 P11 P12 P13].
  split_and!.
  - assert (Hs : vslots (mk_img m2) x' (mk_freeblock m2)).
    { apply (vslots_ext (mk_img m1)); [|exact P5]. intros k Hk. unfold vslot. destruct (k =? MAXFILE); [done|]. apply Ev. }
    split; [done| | | |]; rewrite ?length_app, ?Nat2Z.inj_add; fold n.
    + intros bn Hbn. rewrite Ev. destruct (decide (bn = fbn)) as [->|Hne].
      * rewrite P6. unfold fbn. mk_sizes. split; [|done]. intros _. Z.div_mod_to_equations. lia.
      * rewrite P8, (vf_blocks _ _ _ _ Hf) by done. fold n. unfold fbn in *. mk_sizes. Z.div_mod_to_equations. lia.
    + pose proof (vf_ind _ _ _ _ Hf) as Hi. fold n in Hi. unfold fbn in *. mk_sizes. destruct (decide (n / 512 < 12)) as [Hlt|Hge].
      * rewrite P10 by (by left). rewrite Hi. Z.div_mod_to_equations. lia.
      * destruct P9 as [?|P9]; [lia|]. split; [|done]. intros _. Z.div_mod_to_equations. lia.
    + unfold fbn in *. mk_sizes. Z.div_mod_to_equations. lia.
    + exact Hbytes.
  - apply mk_ok_write; [done|lia|]. rewrite length_put_bytes; [done|]. mk_sizes. rewrite Hl. lia.
  - intros b Hbb Hk. rewrite put_img, (proj2 (Z.eqb_neq _ _)).
    + apply P11; [done|]. intros E. by apply (Hk MAXFILE); [mk_sizes; lia|].
    + intros ->. destruct (decide (vaddr (mk_img m) x fbn = 0)) as [E0|Hne]; [specialize (Pn E0); lia|].
      apply (Hk fbn); [mk_sizes; lia|]. rewrite vaddr_slot by (mk_sizes; lia). symmetry. by apply P7'.
  - intros k Hk. unfold vslot. destruct (Z.eqb_spec k MAXFILE); [exact Pi|]. rewrite Ev. destruct (decide (k = fbn)) as [->|Hne].
    + rewrite P6. destruct (decide (vaddr (mk_img m) x fbn = 0)) as [E0|Hne]; [right; by apply Pn|left; by apply P7'].
    + left. apply P8; [lia|done].
  - intros b Hbb. change (mk_freeblock m2) with (mk_freeblock m1) in Hbb. rewrite put_img, (proj2 (Z.eqb_neq _ _)) by lia. by apply P12.
Qed.
End Put.

Lemma grown_trans x fb v x1 fb1 v1 x2 v2 : fb <= fb1 -> grown x fb v x1 v1 -> grown x1 fb1 v1 x2 v2 -> grown x fb v x2 v2.
Proof. intros Hle H1 H2 k Hk. destruct (H2 k Hk) as [->|?]; [by apply H1|right; lia]. Qed.

Lemma kept_trans x fb v x1 fb1 v1 v2 : fb <= fb1 -> grown x fb v x1 v1 -> kept x fb v v1 -> kept x1 fb1 v1 v2 -> kept x fb v v2.
Proof.
  intros Hle Hg K1 K2 b Hb Hn. rewrite K2; [by apply K1|lia|]. intros k Hk E. destruct (Hg k Hk) as [E'|?]; [|lia]. apply (Hn k Hk). congruence.
Qed.

Lemma fblocks_mono a b : 0 <= a <= b -> fblocks a <= fblocks b.
Proof. intros H. unfold fblocks. destruct (Z.ltb_spec 6144 a), (Z.ltb_spec 6144 b); Z.div_mod_to_equations; lia. Qed.

(** What appending does. *)
Record appended (x x' : inode) (c p : list Z) (m m' : mkst) : Prop := {
  ap_ok : mk_ok m';
  ap_inode : x' = x <| i_addrs := i_addrs x' |>;
  ap_file : vfile (mk_img m') x' (c ++ p) (mk_freeblock m');
  ap_count : mk_freeblock m' = mk_freeblock m + fblocks (Z.of_nat (length (c ++ p))) - fblocks (Z.of_nat (length c));
  ap_next : mk_freeinode m' = mk_freeinode m;
  ap_kept : kept x (mk_freeblock m) (mk_img m) (mk_img m');
  ap_grown : grown x (mk_freeblock m) (mk_img m) x' (mk_img m') }.

Lemma appended_nil x c m : mk_ok m -> vfile (mk_img m) x c (mk_freeblock m) -> appended x x c [] m m.
Proof. intros Hm Hf. split; rewrite ?app_nil_r; try done; [by destruct x|lia|intros k Hk; by left]. Qed.

Lemma appended_trans x x1 x2 c p q m m1 m2 : appended x x1 c p m m1 -> appended x1 x2 (c ++ p) q m1 m2 -> appended x x2 c (p ++ q) m m2.
Proof.
  intros [A1 A2 A3 A4 A5 A6 A7] [B1 B2 B3 B4 B5 B6 B7]. rewrite <- app_assoc in *.
  assert (Hle : mk_freeblock m <= mk_freeblock m1).
  { rewrite A4. pose proof (fblocks_mono (Z.of_nat (length c)) (Z.of_nat (length (c ++ p)))). rewrite length_app in *. lia. }
  split; try done; [rewrite B2, A2; by destruct x|lia|congruence|by eapply kept_trans|by eapply grown_trans].
Qed.

Lemma iappend_loop_ok k x c p m :
  mk_ok m -> vfile (mk_img m) x c (mk_freeblock m) -> Z.of_nat (length (c ++ p)) <= MAXFILE * BSIZE -> (length p <= k)%nat ->
  mk_freeblock m + fblocks (Z.of_nat (length (c ++ p))) - fblocks (Z.of_nat (length c)) <= FSSIZE ->
  exists x' m', iappend_loop k x (Z.of_nat (length c)) p m = Ok (x', Z.of_nat (length (c ++ p))) m' /\ appended x x' c p m m'.
Proof.
  revert x c p m. induction k as [|k IH]; intros x c p m Hm Hf Hmax Hk Hneed.
  { destruct p; [|simpl in Hk; lia]. rewrite app_nil_r in *. exists x, m. split; [done|by apply appended_nil]. }
  destruct p as [|p0 p']; [rewrite app_nil_r in *; exists x, m; split; [done|by apply appended_nil]|]. set (p := p0 :: p') in *.
  assert (Hp : (0 < length p)%nat) by (unfold p; simpl; lia). cbn [iappend_loop]. unfold p at 1. cbn iota. fold p.
  rewrite length_app, Nat2Z.inj_add in *. set (n := Z.of_nat (length c)) in *. assert (Hn : 0 <= n) by (unfold n; lia).
  rewrite (proj2 (Z.leb_gt _ _)) by (mk_sizes; Z.div_mod_to_equations; lia).
  set (n1 := Z.min (Z.of_nat (length p)) ((n / BSIZE + 1) * BSIZE - n)). set (d := take (Z.to_nat n1) p).
  assert (Hn1 : 0 < n1 /\ n mod BSIZE + n1 <= BSIZE /\ n1 <= Z.of_nat (length p)) by (unfold n1; mk_sizes; Z.div_mod_to_equations; lia).
  assert (Hd : Z.of_nat (length d) = n1) by (unfold d; rewrite length_take; lia).
  assert (Hfit : n / BSIZE < MAXFILE) by (mk_sizes; Z.div_mod_to_equations; lia).
  pose proof (need_blocks _ _ _ _ n1 Hf ltac:(lia) ltac:(fold n; lia) Hfit) as Hnd. fold n in Hnd.
  pose proof (fblocks_mono (n + n1) (n + Z.of_nat (length p)) ltac:(lia)).
  destruct (place_ok x (n / BSIZE) m Hm (vf_slots _ _ _ _ Hf)) as (x1 & a & m1 & H1 & Hpl); [split; [mk_sizes; Z.div_mod_to_equations; lia|done]|lia|].
  mstep with (H1). cbv zeta. fold n1 d.
  destruct (put_range x x1 c d a _ m m1 Hf Hm ltac:(lia) ltac:(fold n; lia) Hfit Hpl) as (_ & _ & Ha & Hr1 & _ & _).
  pose proof (pl_ok _ _ _ _ _ _ _ Hpl) as Hm1. rewrite (bind_ok _ _ _ _ _ (rsect_ok a m1 Hm1 ltac:(mk_sizes; lia))).
  rewrite (bind_ok _ _ _ _ _ (wsect_ok a _ m1 Hm1 ltac:(mk_sizes; lia))). replace (n - n / BSIZE * BSIZE) with (n mod BSIZE) by (mk_sizes; Z.div_mod_to_equations; lia).
  destruct (vfile_put x x1 c d a _ m m1 Hf Hm ltac:(lia) ltac:(fold n; lia) Hfit Hpl) as (Hf2 & Hm2 & Hk2 & Hg2 & _).
  fold n in Hf2, Hm2, Hk2, Hg2. set (m2 := with_sector _ _ _) in *.
  assert (Hap : appended x x1 c d m m2).
  { split; try done; [apply Hpl| |apply Hpl]. change (mk_freeblock m2) with (mk_freeblock m1). rewrite (pl_count _ _ _ _ _ _ _ Hpl), Hnd, length_app, Nat2Z.inj_add, Hd. fold n. lia. }
  assert (Epd : d ++ drop (Z.to_nat n1) p = p) by apply take_drop.
  assert (Eoff : u32 (n + n1) = Z.of_nat (length (c ++ d))) by (rewrite length_app, Nat2Z.inj_add, Hd; fold n; apply u32_id; mk_sizes; lia).
  rewrite Eoff. destruct (IH x1 (c ++ d) (drop (Z.to_nat n1) p) m2) as (x' & m' & H3 & Hap3); try done.
  - rewrite <- app_assoc, Epd, length_app, Nat2Z.inj_add. done.
  - rewrite length_drop. lia.
  - rewrite <- app_assoc, Epd, (ap_count _ _ _ _ _ _ Hap), !length_app, !Nat2Z.inj_add, Hd. fold n. lia.
  - exists x', m'. rewrite H3, <- app_assoc, Epd, length_app, Nat2Z.inj_add. split; [done|]. rewrite <- Epd. by eapply appended_trans.
Qed.

(** ** The files of an image *)

Definition dinode (v : Z -> list Z) (inum : Z) : inode := get_dinode (v (IBLOCK inum mkfs_sb)) (dinode_off inum) no_inode.

Definition total (files : list (Z * list Z)) : Z := fold_right (fun f n => fblocks (Z.of_nat (length f.2)) + n) 0 files.

(** File [i] has the inode number [i + 1]; it has a type and contents. *)
Record image (files : list (Z * list Z)) (m : mkst) : Prop := {
  im_ok : mk_ok m;
  im_next : mk_freeinode m = 1 + Z.of_nat (length files);
  im_few : Z.of_nat (length files) < NINODES;
  im_count : mk_freeblock m = nmeta + total files;
  im_file : forall i t c, files !! i = Some (t, c) -> let x := dinode (mk_img m) (Z.of_nat i + 1) in
    vfile (mk_img m) x c (mk_freeblock m) /\ i_size x = Z.of_nat (length c) /\ i_type x = t /\ 0 <= t < 32768 /\
    i_nlink x = 1 /\ i_major x = 0 /\ i_minor x = 0;
  im_apart : forall i j k k', (i < length files)%nat -> (j < length files)%nat -> i <> j -> 0 <= k <= MAXFILE -> 0 <= k' <= MAXFILE ->
    vslot (mk_img m) (dinode (mk_img m) (Z.of_nat i + 1)) k <> 0 ->
    vslot (mk_img m) (dinode (mk_img m) (Z.of_nat i + 1)) k <> vslot (mk_img m) (dinode (mk_img m) (Z.of_nat j + 1)) k';
  im_sb : mk_img m 1 = sb_bytes mkfs_sb zeroes;
  im_log : forall b, 2 <= b < 32 -> mk_img m b = zeroes }.

Lemma iblock_range n : 0 <= n < 208 -> IBLOCK n mkfs_sb = 32 + n / 8 /\ 32 <= IBLOCK n mkfs_sb < 58.
Proof.
  intros Hn. assert (E : IBLOCK n mkfs_sb = 32 + n / 8).
  { unfold IBLOCK. change (sb_inodestart mkfs_sb) with 32. change IPB with 8. rewrite u32_id by (Z.div_mod_to_equations; lia). lia. }
  rewrite E. Z.div_mod_to_equations. lia.
Qed.

(** Other files, when only some blocks change. *)
Lemma vfile_keep v v' x c fb fb' :
  vfile v x c fb -> fb <= fb' -> (forall k, 0 <= k <= MAXFILE -> vslot v x k <> 0 -> v' (vslot v x k) = v (vslot v x k)) ->
  vfile v' x c fb' /\ forall k, 0 <= k <= MAXFILE -> vslot v' x k = vslot v x k.
Proof.
  intros [[V1 V2 V3] Hb Hi Hm Hby] Hle Hk.
  assert (Ea : forall k, vaddr v' x k = vaddr v x k).
  { intros k. unfold vaddr. destruct (k <? NDIRECT); [done|]. destruct (Z.eqb_spec (ind x) 0) as [|Hne]; [done|].
    specialize (Hk MAXFILE). change (vslot v x MAXFILE) with (ind x) in Hk. rewrite Hk; [done|mk_sizes; lia|done]. }
  assert (Es : forall k, 0 <= k <= MAXFILE -> vslot v' x k = vslot v x k) by (intros k _; unfold vslot; destruct (k =? MAXFILE); [done|apply Ea]).
  split; [|done]. split; [split; [done| |]| |done|done|].
  - intros k Hr. rewrite Es by done. intros Hne. specialize (V2 k Hr Hne). lia.
  - intros k k' Hr Hr'. rewrite !Es by done. by apply V3.
  - intros bn Hbn. rewrite Ea. by apply Hb.
  - intros k Hr Hr'. rewrite <- Hby by done. unfold vbyte. rewrite Ea. pose proof (Hb (k / BSIZE)) as Hbk. mk_sizes.
    specialize (Hk (k / 512)). rewrite !vaddr_slot in Hk by (mk_sizes; Z.div_mod_to_equations; lia).
    rewrite Hk; [done|Z.div_mod_to_equations; lia|]. apply Hbk; Z.div_mod_to_equations; lia.
Qed.

Lemma get_dinode_base l off x y :
  i_dev x = i_dev y -> i_inum x = i_inum y -> i_ref x = i_ref y -> i_valid x = i_valid y -> get_dinode l off x = get_dinode l off y.
Proof. destruct x, y. simpl. by intros -> -> -> ->. Qed.

Lemma dinode_base v i : let x := dinode v i in i_dev x = 0 /\ i_inum x = 0 /\ i_ref x = 0 /\ i_valid x = 0.
Proof. done. Qed.

Lemma dinode_off_ne i j : 0 <= i < 208 -> 0 <= j < 208 -> i <> j -> IBLOCK i mkfs_sb = IBLOCK j mkfs_sb -> dinode_off i <> dinode_off j.
Proof.
  intros Hi Hj Hne. rewrite (proj1 (iblock_range i Hi)), (proj1 (iblock_range j Hj)). unfold dinode_off, sizeof_dinode. change IPB with 8.
  intros E. assert (i mod 8 <> j mod 8) by (Z.div_mod_to_equations; lia). pose proof (Z.mod_pos_bound i 8). pose proof (Z.mod_pos_bound j 8). lia.
Qed.

(** Writing an inode: it is read back, and the others stay. *)
Lemma winode_ok inum x m :
  mk_ok m -> 0 <= inum < 208 -> fits x -> i_dev x = 0 -> i_inum x = 0 -> i_ref x = 0 -> i_valid x = 0 ->
  exists m', winode inum x m = Ok tt m' /\ mk_ok m' /\ mk_freeblock m' = mk_freeblock m /\ mk_freeinode m' = mk_freeinode m /\
    (forall b, b < 32 \/ 58 <= b -> mk_img m' b = mk_img m b) /\ dinode (mk_img m') inum = x /\
    forall j, 0 <= j < 208 -> j <> inum -> dinode (mk_img m') j = dinode (mk_img m) j.
Proof.
  intros Hm Hi Hx H1 H2 H3 H4. destruct (iblock_range inum Hi) as [_ Hib]. pose proof (mk_range _ Hm) as Hr. mk_sizes.
  assert (Hlt : IBLOCK inum mkfs_sb < FSSIZE) by (mk_sizes; lia).
  unfold winode. rewrite (bind_ok _ _ _ _ _ (rsect_ok _ m Hm Hlt)), (wsect_ok _ _ _ Hm Hlt). clear Hlt.
  set (ib := IBLOCK inum mkfs_sb) in *. set (buf := put_dinode _ _ _). pose proof (mk_lens _ Hm ib ltac:(mk_sizes; lia)) as Hl.
  assert (Hlb : length buf = 512%nat) by (unfold buf; by rewrite length_put_dinode).
  exists (with_sector ib buf m). split_and!; try done.
  - apply mk_ok_write; [done|lia|done].
  - intros b Hb. rewrite with_sector_img, (proj2 (Z.eqb_neq _ _)); [done|lia].
  - unfold dinode. rewrite with_sector_img. fold ib. rewrite Z.eqb_refl. rewrite (get_dinode_base _ _ no_inode x) by (symmetry; done). apply dinode_roundtrip; [done|].
    rewrite Hl. apply dinode_fits.
  - intros j Hj Hne. unfold dinode. rewrite with_sector_img. destruct (Z.eqb_spec (IBLOCK j mkfs_sb) ib) as [E|E]; [|done]. rewrite E.
    apply put_dinode_other; [apply Hx|]. apply dinode_apart. by apply dinode_off_ne.
Qed.

Lemma image_length files m : image files m -> Z.of_nat (length files) + 1 < 208.
Proof. intros Hi. pose proof (im_few _ _ Hi). unfold NINODES in *. lia. Qed.

Lemma rinode_ok inum m : mk_ok m -> 0 <= inum < 208 -> rinode inum m = Ok (dinode (mk_img m) inum) m.
Proof.
  intros Hm Hi. destruct (iblock_range inum Hi) as [_ Hib]. unfold rinode.
  rewrite (bind_ok _ _ _ _ _ (rsect_ok (IBLOCK inum mkfs_sb) m Hm ltac:(mk_sizes; lia))). done.
Qed.

Lemma file_len files m i t c : image files m -> files !! i = Some (t, c) -> 0 <= Z.of_nat (length c) <= 71680.
Proof. intros Hi Hf. destruct (im_file _ _ Hi i t c Hf) as [Hv _]. pose proof (vf_max _ _ _ _ Hv). mk_sizes. lia. Qed.

Lemma total_cons f fs : total (f :: fs) = fblocks (Z.of_nat (length f.2)) + total fs.
Proof. done. Qed.

Lemma total_insert files i t c c' :
  files !! i = Some (t, c) -> total (<[i := (t, c')]> files) = total files - fblocks (Z.of_nat (length c)) + fblocks (Z.of_nat (length c')).
Proof.
  revert i. induction files as [|f fs IH]; intros [|i] Hi; simpl in Hi; try done.
  - injection Hi as ->. cbn [insert list_insert]. rewrite !total_cons. simpl. lia.
  - change (<[S i := (t, c')]> (f :: fs)) with (f :: <[i := (t, c')]> fs). rewrite !total_cons, (IH i Hi). lia.
Qed.

Lemma total_app a b : total (a ++ b) = total a + total b.
Proof. induction a as [|f fs IH]; [done|]. cbn [app]. rewrite !total_cons, IH. lia. Qed.

(** The pointers are to blocks of the data area. *)
Lemma meta_slot v x c fb b k : vfile v x c fb -> 0 < b < nmeta -> 0 <= k <= MAXFILE -> vslot v x k <> b.
Proof. intros Hv Hb Hk E. pose proof (vs_range _ _ _ (vf_slots _ _ _ _ Hv) k Hk). lia. Qed.

(** One file changes: its pointers are as before or to new blocks, and nothing else does. *)
Lemma image_update files i t c c' m m' :
  image files m -> files !! i = Some (t, c) -> mk_ok m' -> mk_freeinode m' = mk_freeinode m ->
  mk_freeblock m' = mk_freeblock m + fblocks (Z.of_nat (length c')) - fblocks (Z.of_nat (length c)) -> mk_freeblock m <= mk_freeblock m' ->
  let x := dinode (mk_img m) (Z.of_nat i + 1) in let x' := dinode (mk_img m') (Z.of_nat i + 1) in
  vfile (mk_img m') x' c' (mk_freeblock m') -> i_size x' = Z.of_nat (length c') ->
  i_type x' = i_type x /\ i_nlink x' = i_nlink x /\ i_major x' = i_major x /\ i_minor x' = i_minor x ->
  (forall j, 0 <= j < 208 -> j <> Z.of_nat i + 1 -> dinode (mk_img m') j = dinode (mk_img m) j) ->
  (forall b, b < 32 \/ 58 <= b < mk_freeblock m -> (forall k, 0 <= k <= MAXFILE -> vslot (mk_img m) x k <> b) -> mk_img m' b = mk_img m b) ->
  grown x (mk_freeblock m) (mk_img m) x' (mk_img m') ->
  image (<[i := (t, c')]> files) m'.
Proof.
  intros Hi Hf Hm' Hn Hc Hle x x' Hv Hs (T1 & T2 & T3 & T4) Hd Hk Hg. pose proof (im_file _ _ Hi i t c Hf) as (Hvi & _ & U1 & U2 & U3 & U4 & U5).
  pose proof (image_length _ _ Hi) as Hl. pose proof (lookup_lt_Some _ _ _ Hf) as Hil. fold x in Hvi, U1, U3, U4, U5.
  assert (Hj : forall j t' c', files !! j = Some (t', c') -> j <> i -> let y := dinode (mk_img m) (Z.of_nat j + 1) in
    dinode (mk_img m') (Z.of_nat j + 1) = y /\ vfile (mk_img m') y c' (mk_freeblock m') /\
    forall k, 0 <= k <= MAXFILE -> vslot (mk_img m') y k = vslot (mk_img m) y k).
  { intros j t' cj Hj Hne y. pose proof (im_file _ _ Hi j t' cj Hj) as (Hvj & _). fold y in Hvj. pose proof (lookup_lt_Some _ _ _ Hj).
    split; [apply Hd; lia|]. apply (vfile_keep (mk_img m) _ _ _ (mk_freeblock m)); try done. intros k Hkr Hnz.
    pose proof (vs_range _ _ _ (vf_slots _ _ _ _ Hvj) k Hkr Hnz) as Hr. apply Hk; [mk_sizes; lia|]. intros k' Hk'.
    intros E. by apply (im_apart _ _ Hi j i k k'). }
  assert (Hsl : forall j k, (j < length files)%nat -> j <> i -> 0 <= k <= MAXFILE ->
    let y := dinode (mk_img m) (Z.of_nat j + 1) in dinode (mk_img m') (Z.of_nat j + 1) = y /\ vslot (mk_img m') y k = vslot (mk_img m) y k /\
    (vslot (mk_img m) y k <> 0 -> vslot (mk_img m) y k < mk_freeblock m)).
  { intros j k Hjl Hne Hkr y. destruct (lookup_lt_is_Some_2 files j Hjl) as [[t' cj] Ej]. destruct (Hj j t' cj Ej Hne) as (E1 & _ & E2).
    split_and!; [done|by apply E2|]. intros Hnz. apply (vs_range _ _ _ (vf_slots _ _ _ _ (proj1 (im_file _ _ Hi j t' cj Ej)))); done. }
  split; try done.
  - rewrite Hn, length_insert. apply Hi.
  - rewrite length_insert. apply Hi.
  - rewrite Hc, (total_insert _ _ _ _ _ Hf), (im_count _ _ Hi). lia.
  - intros j tj cj. destruct (decide (j = i)) as [->|Hne].
    + rewrite list_lookup_insert_eq by done. intros [= <- <-]. fold x'. split_and!; try done; try lia; congruence.
    + rewrite list_lookup_insert_ne by done. intros Ej. destruct (Hj j tj cj Ej Hne) as (E1 & E2 & _). cbv zeta. rewrite E1.
      split; [done|]. apply (im_file _ _ Hi j tj cj Ej).
  - intros j j' k k'. rewrite length_insert. intros Hjl Hjl' Hne Hkr Hkr'.
    pose proof (mk_range _ (im_ok _ _ Hi)) as Hr0.
    destruct (decide (j = i)) as [->|N].
    + destruct (Hsl j' k' Hjl' (not_eq_sym Hne) Hkr') as (E1 & E2 & E3). rewrite E1, E2. fold x'. intros Hnz.
      destruct (Hg k Hkr) as [E|Hge]; [|mk_sizes; lia]. rewrite E in *. by apply (im_apart _ _ Hi i j' k k').
    + destruct (Hsl j k Hjl N Hkr) as (E1 & E2 & E3). rewrite E1, E2. intros Hnz. specialize (E3 Hnz). destruct (decide (j' = i)) as [->|N'].
      * fold x'. destruct (Hg k' Hkr') as [E|Hge]; [|lia]. rewrite E. by apply (im_apart _ _ Hi j i k k').
      * destruct (Hsl j' k' Hjl' N' Hkr') as (E1' & E2' & _). rewrite E1', E2'. by apply (im_apart _ _ Hi j j' k k').
  - rewrite <- (im_sb _ _ Hi). apply Hk; [lia|]. intros k. apply meta_slot with c (mk_freeblock m); [done|mk_sizes; lia].
  - intros b Hb. rewrite <- (im_log _ _ Hi b Hb). apply Hk; [lia|]. intros k. apply meta_slot with c (mk_freeblock m); [done|mk_sizes; lia].
Qed.

(** The pointers do not depend on the size. *)
Lemma vfile_size v x c fb n : vfile v x c fb -> vfile v (x <| i_size := n |>) c fb.
Proof. by intros [[V1 V2 V3] Hb Hi Hm Hby]. Qed.

Lemma addrs_fit v x c fb : vfile v x c fb -> fb <= FSSIZE -> Forall (fun a => 0 <= a < 4294967296) (i_addrs x).
Proof.
  intros Hv Hfb. apply Forall_lookup_2. intros i a Ha. pose proof (vf_slots _ _ _ _ Hv) as Hs. pose proof (lookup_lt_Some _ _ _ Ha) as Hl. rewrite (vs_len _ _ _ Hs) in Hl.
  pose proof (addr_slot v x fb (Z.of_nat i) Hs ltac:(mk_sizes; lia)) as E. rewrite Nat2Z.id, Ha in E. injection E as ->.
  pose proof (slot_word v x fb (if Z.of_nat i =? NDIRECT then MAXFILE else Z.of_nat i) Hs Hfb) as Hw. mk_sizes. destruct (Z.of_nat i =? 12); lia.
Qed.

Lemma fits_file v x c fb :
  vfile v x c fb -> fb <= FSSIZE -> 0 <= i_size x < 4294967296 -> 0 <= i_type x < 32768 -> i_nlink x = 1 -> i_major x = 0 -> i_minor x = 0 -> fits x.
Proof.
  intros Hv Hfb Hs Ht Hn Hma Hmi. pose proof (vs_len _ _ _ (vf_slots _ _ _ _ Hv)). pose proof (addrs_fit _ _ _ _ Hv Hfb).
  split; unfold short; (done || lia).
Qed.

(** Appending to a file of the image. *)
Lemma iappend_ok files i t c p m :
  image files m -> files !! i = Some (t, c) -> Z.of_nat (length (c ++ p)) <= MAXFILE * BSIZE ->
  nmeta + total (<[i := (t, c ++ p)]> files) <= FSSIZE ->
  exists m', iappend (Z.of_nat i + 1) p m = Ok tt m' /\ image (<[i := (t, c ++ p)]> files) m'.
Proof.
  intros Hi Hf Hmax Hroom. pose proof (image_length _ _ Hi) as Hl. pose proof (lookup_lt_Some _ _ _ Hf) as Hil.
  pose proof (im_file _ _ Hi i t c Hf) as (Hv & Hs & Ht & Ht0 & Hn & Hma & Hmi). pose proof (file_len _ _ _ _ _ Hi Hf) as Hc.
  set (x := dinode (mk_img m) (Z.of_nat i + 1)) in *. pose proof (im_ok _ _ Hi) as Hm.
  unfold iappend. rewrite (bind_ok _ _ _ _ _ (rinode_ok (Z.of_nat i + 1) m Hm ltac:(lia))). fold x. rewrite Hs, xint_id by lia.
  destruct (iappend_loop_ok (length p) x c p m Hm Hv Hmax (Nat.le_refl _)) as (x' & m1 & E & [A1 A2 A3 A4 A5 A6 A7]).
  { rewrite (im_count _ _ Hi). rewrite (total_insert _ _ _ _ _ Hf) in Hroom. lia. }
  rewrite (bind_ok _ _ _ _ _ E). assert (Hc' : 0 <= Z.of_nat (length (c ++ p)) <= 71680) by (mk_sizes; lia). rewrite xint_id by lia.
  assert (Hx' : i_type x' = i_type x /\ i_nlink x' = i_nlink x /\ i_major x' = i_major x /\ i_minor x' = i_minor x) by (rewrite A2; done).
  set (x2 := x' <| i_size := _ |>).
  destruct (winode_ok (Z.of_nat i + 1) x2 m1) as (m2 & -> & W1 & W2 & W3 & W4 & W5 & W6); try done; try lia.
  { apply (fits_file (mk_img m1) x2 (c ++ p) (mk_freeblock m1)); [by apply vfile_size|apply A1|change (i_size x2) with (Z.of_nat (length (c ++ p)))|..];
      change (i_type x2) with (i_type x'); change (i_major x2) with (i_major x'); change (i_minor x2) with (i_minor x'); change (i_nlink x2) with (i_nlink x'); lia. }
  1-4: unfold x2; rewrite A2; done.
  exists m2. split; [done|]. pose proof (mk_range _ A1) as Hr1. pose proof (mk_range _ Hm) as Hr.
  assert (Hib : forall j, 0 <= j < 208 -> mk_img m1 (IBLOCK j mkfs_sb) = mk_img m (IBLOCK j mkfs_sb)).
  { intros j Hj. destruct (iblock_range j Hj) as [_ Hb]. apply A6; [mk_sizes; lia|]. intros k. apply meta_slot with c (mk_freeblock m); [done|mk_sizes; lia]. }
  destruct (vfile_keep (mk_img m1) (mk_img m2) x2 (c ++ p) (mk_freeblock m1) (mk_freeblock m2)) as [F1 F2]; [by apply vfile_size|lia| |].
  { intros k Hk Hnz. apply W4. change (vslot (mk_img m1) x2 k) with (vslot (mk_img m1) x' k) in *.
    pose proof (vs_range _ _ _ (vf_slots _ _ _ _ A3) k Hk Hnz). mk_sizes. lia. }
  apply (image_update files i t c (c ++ p) m m2); try done; try congruence.
  all: fold x; rewrite ?W5; try done.
  - rewrite W2, A4, length_app. pose proof (fblocks_mono (Z.of_nat (length c)) (Z.of_nat (length c + length p)) ltac:(lia)). lia.
  - intros j Hj Hne. rewrite W6 by done. unfold dinode. by rewrite Hib.
  - intros b Hb Hk. rewrite W4 by lia. apply A6; [mk_sizes; lia|done].
  - intros k Hk. rewrite F2 by done. exact (A7 k Hk).
Qed.

Lemma blank_slot v x k : i_addrs x = replicate 13 0 -> vslot v x k = 0.
Proof.
  intros E. unfold vslot, vaddr, ind. rewrite E. change (nth (Z.to_nat NDIRECT) (replicate 13 0) 0) with 0.
  destruct (k =? MAXFILE); [done|]. destruct (k <? NDIRECT); [|done]. generalize (Z.to_nat k), 13%nat. intros i n. revert i. induction n; intros [|i]; simpl; done || apply IHn.
Qed.

Lemma vfile_blank v x fb : i_addrs x = replicate 13 0 -> vfile v x [] fb.
Proof.
  intros E. pose proof (fun k => blank_slot v x k E) as Hs. split; [split; [by rewrite E| |]| | | |].
  - intros k Hk. by rewrite Hs.
  - intros k k' Hk Hk' _. by rewrite Hs.
  - intros bn Hbn. rewrite <- vaddr_slot, Hs by lia. mk_sizes. simpl. lia.
  - change (ind x) with (vslot v x MAXFILE). rewrite Hs. mk_sizes. simpl. lia.
  - mk_sizes. simpl. lia.
  - intros k Hk. mk_sizes. simpl. intros Hlt. Z.div_mod_to_equations. lia.
Qed.

(** A new file, with no contents. *)
Lemma mk_ialloc_ok files t m :
  image files m -> Z.of_nat (length files) + 1 < NINODES -> 0 <= t < 32768 ->
  exists m', mk_ialloc t m = Ok (Z.of_nat (length files) + 1) m' /\ image (files ++ [(t, [])]) m'.
Proof.
  intros Hi Hfew Ht. pose proof (im_ok _ _ Hi) as Hm. unfold NINODES in Hfew. set (n := Z.of_nat (length files) + 1).
  unfold mk_ialloc. mstep. rewrite (im_next _ _ Hi). replace (1 + Z.of_nat (length files)) with n by lia. mstep.
  rewrite (xshort_id t), (xshort_id 1), (xint_id 0) by lia. set (x := no_inode <| i_type := t |> <| i_nlink := 1 |> <| i_size := 0 |>).
  set (m0 := m <| mk_freeinode ::= fun n => u32 (n + 1) |>).
  assert (Hm0 : mk_ok m0) by (destruct Hm; by split). assert (Hn0 : mk_freeinode m0 = n + 1).
  { change (mk_freeinode m0) with (u32 (mk_freeinode m + 1)). rewrite (im_next _ _ Hi), u32_id; lia. }
  destruct (winode_ok n x m0) as (m1 & E & W1 & W2 & W3 & W4 & W5 & W6); try done; try lia.
  { split; unfold short, x; rsimpl; try done; try (cbn; lia). by apply Forall_replicate. }
  rewrite (bind_ok _ _ _ _ _ E). exists m1. split; [done|]. change (mk_freeblock m0) with (mk_freeblock m) in W2. change (mk_img m0) with (mk_img m) in *.
  pose proof (mk_range _ Hm) as Hr.
  assert (Hj : forall j t' c', files !! j = Some (t', c') -> let y := dinode (mk_img m) (Z.of_nat j + 1) in
    dinode (mk_img m1) (Z.of_nat j + 1) = y /\ vfile (mk_img m1) y c' (mk_freeblock m1) /\
    forall k, 0 <= k <= MAXFILE -> vslot (mk_img m1) y k = vslot (mk_img m) y k).
  { intros j t' c' Hj y. pose proof (im_file _ _ Hi j t' c' Hj) as (Hvj & _). fold y in Hvj. pose proof (lookup_lt_Some _ _ _ Hj).
    split; [apply W6; lia|]. apply (vfile_keep (mk_img m) _ _ _ (mk_freeblock m)); [done|lia|]. intros k Hk Hnz.
    pose proof (vs_range _ _ _ (vf_slots _ _ _ _ Hvj) k Hk Hnz). apply W4. mk_sizes. lia. }
  assert (Hx : forall k, 0 <= k <= MAXFILE -> vslot (mk_img m1) x k = 0) by (intros k _; by apply blank_slot).
  split; try done.
  - rewrite W3, Hn0, length_app. simpl. lia.
  - rewrite length_app. unfold NINODES. simpl. lia.
  - rewrite W2, (im_count _ _ Hi), total_app. change (total [(t, [])]) with 0. lia.
  - intros j tj cj. destruct (decide (j < length files)%nat) as [Hl|Hl].
    + rewrite lookup_app_l by done. intros Ej. destruct (Hj j tj cj Ej) as (E1 & E2 & _). cbv zeta. rewrite E1. split; [done|]. apply (im_file _ _ Hi j tj cj Ej).
    + rewrite lookup_app_r by lia. intros Ej. assert (j = length files) as -> by (pose proof (lookup_lt_Some _ _ _ Ej) as H; simpl in H; lia).
      rewrite Nat.sub_diag in Ej. injection Ej as <- <-. cbv zeta. change (Z.of_nat (length files) + 1) with n. rewrite W5. split; [|done].
      by apply vfile_blank.
  - intros j j' k k' Hl Hl' Hne Hk Hk'. rewrite length_app in Hl, Hl'. simpl in Hl, Hl'.
    assert (Hcase : forall j k, (j < length files + 1)%nat -> 0 <= k <= MAXFILE ->
      (j < length files)%nat /\ vslot (mk_img m1) (dinode (mk_img m1) (Z.of_nat j + 1)) k = vslot (mk_img m) (dinode (mk_img m) (Z.of_nat j + 1)) k \/
      vslot (mk_img m1) (dinode (mk_img m1) (Z.of_nat j + 1)) k = 0).
    { clear - Hj W5 Hx. intros j k Hl Hk. destruct (decide (j < length files)%nat) as [H|H].
      - left. split; [done|]. destruct (lookup_lt_is_Some_2 files j H) as [[t' c'] Ej]. destruct (Hj j t' c' Ej) as (E1 & _ & E2). rewrite E1. by apply E2.
      - right. assert (j = length files) as -> by lia. fold n. rewrite W5. by apply Hx. }
    destruct (Hcase j k ltac:(lia) Hk) as [[H1 ->]| ->]; [|done]. destruct (Hcase j' k' ltac:(lia) Hk') as [[H2 ->]| ->]; [|done].
    by apply (im_apart _ _ Hi).
  - rewrite W4 by lia. apply Hi.
  - intros b Hb. rewrite W4 by lia. exact (im_log _ _ Hi b Hb).
Qed.

(** ** The whole image *)

Definition accepted (a : argument) : bool :=
  negb (existsb (fun c => c =? 47) (cstr a.1)) && match a.2 with Some _ => true | None => false end.
Definition contents (a : argument) : list Z := concat (default [] a.2).
Definition copies (args : list argument) : list (Z * list Z) := map (fun a => (T_FILE, contents a)) args.

(** The entries of the root directory, from inode number [n] on. *)
Fixpoint entries (n : Z) (args : list argument) : list Z :=
  match args with
  | [] => []
  | a :: args => make_dirent n (mkfs_name a.1) ++ entries (n + 1) args
  end.
Definition root_entries (args : list argument) : list Z := make_dirent 1 (bytes ".") ++ make_dirent 1 (bytes "..") ++ entries 2 args.

Lemma length_entries n args : length (entries n args) = (16 * length args)%nat.
Proof. revert n. induction args as [|a args IH]; intros n; [done|]. cbn [entries length]. rewrite length_app, length_dirent, IH. lia. Qed.

Lemma total_grow files i t c c' :
  files !! i = Some (t, c) -> (length c <= length c')%nat -> total files <= total (<[i := (t, c')]> files).
Proof.
  intros Hf Hl. rewrite (total_insert _ _ _ _ c' Hf). pose proof (fblocks_mono (Z.of_nat (length c)) (Z.of_nat (length c'))). lia.
Qed.

Lemma fblocks_pos n : 0 <= fblocks (Z.of_nat n).
Proof. apply (fblocks_mono 0). lia. Qed.

Lemma total_pos files : 0 <= total files.
Proof. induction files as [|f fs IH]; [done|]. rewrite total_cons. pose proof (fblocks_pos (length f.2)). lia. Qed.

(** Copying a file piece by piece. *)
Lemma mk_copy_ok chunks files i t c m :
  image files m -> files !! i = Some (t, c) -> Z.of_nat (length (c ++ concat chunks)) <= MAXFILE * BSIZE ->
  nmeta + total (<[i := (t, c ++ concat chunks)]> files) <= FSSIZE ->
  exists m', foreach chunks (fun buf => iappend (Z.of_nat i + 1) buf) m = Ok tt m' /\ image (<[i := (t, c ++ concat chunks)]> files) m'.
Proof.
  revert files c m. induction chunks as [|ch chunks IH]; intros files c m Hi Hf Hmax Hroom; cbn [concat] in *.
  - exists m. rewrite app_nil_r, list_insert_id by done. done.
  - rewrite app_assoc in *. pose proof (lookup_lt_Some _ _ _ Hf) as Hl.
    assert (Hf' : <[i := (t, c ++ ch)]> files !! i = Some (t, c ++ ch)) by (by apply list_lookup_insert_eq).
    rewrite <- (list_insert_insert_eq files i (t, (c ++ ch) ++ concat chunks) (t, c ++ ch)) in *.
    pose proof (total_grow _ _ _ _ ((c ++ ch) ++ concat chunks) Hf' ltac:(rewrite !length_app; lia)) as Hg.
    destruct (iappend_ok files i t c ch m Hi Hf) as (m1 & E1 & H1); [rewrite !length_app in *; lia|lia|].
    cbn [foreach]. rewrite (bind_ok _ _ _ _ _ E1). by apply IH.
Qed.

(** One argument: a new inode, an entry in the root directory, and the copy. *)
Lemma mkfs_file_ok a d fs m :
  image ((T_DIR, d) :: fs) m -> accepted a = true -> Z.of_nat (length fs) + 2 < NINODES ->
  Z.of_nat (length d) + 16 <= MAXFILE * BSIZE -> Z.of_nat (length (contents a)) <= MAXFILE * BSIZE ->
  let d' := d ++ make_dirent (Z.of_nat (length fs) + 2) (mkfs_name a.1) in
  nmeta + total ((T_DIR, d') :: fs ++ [(T_FILE, contents a)]) <= FSSIZE ->
  exists m', mkfs_file ROOTINO a m = Ok tt m' /\ image ((T_DIR, d') :: fs ++ [(T_FILE, contents a)]) m'.
Proof.
  intros Hi Ha Hfew Hd Hmax d' Hroom. destruct a as [name [chunks|]]; [|by unfold accepted in Ha; rewrite andb_false_r in Ha].
  unfold contents in *. cbn [fst snd default id from_option] in *. unfold accepted in Ha. cbn in Ha. rewrite andb_true_r, negb_true_iff in Ha.
  unfold mkfs_file. rewrite Ha. cbv zeta. pose proof (image_length _ _ Hi) as Hl. cbn [length] in Hl.
  destruct (mk_ialloc_ok _ T_FILE m Hi) as (m1 & E1 & H1); [cbn [length]; lia|done|]. rewrite (bind_ok _ _ _ _ _ E1). cbn [length] in *.
  replace (Z.of_nat (S (length fs)) + 1) with (Z.of_nat (length fs) + 2) by lia. unfold NINODES in Hfew. rewrite xshort_id by lia.
  rewrite total_cons, total_app in Hroom. change (total [(T_FILE, concat chunks)]) with (fblocks (Z.of_nat (length (concat chunks))) + 0) in Hroom.
  cbn [snd] in Hroom. assert (0 <= fblocks (Z.of_nat (length (concat chunks)))) by apply fblocks_pos.
  destruct (iappend_ok (((T_DIR, d) :: fs) ++ [(T_FILE, [])]) 0 T_DIR d (make_dirent (Z.of_nat (length fs) + 2) (mkfs_name name)) m1 H1 eq_refl) as (m2 & E2 & H2).
  { rewrite length_app, length_dirent. lia. }
  { cbn [insert list_insert app]. rewrite total_cons, total_app. change (total [(T_FILE, [])]) with 0. cbn [snd]. fold d'. lia. }
  change (Z.of_nat 0 + 1) with ROOTINO in E2. rewrite (bind_ok _ _ _ _ _ E2). cbn [insert list_insert app] in H2. fold d' in H2.
  replace (Z.of_nat (length fs) + 2) with (Z.of_nat (S (length fs)) + 1) by lia.
  assert (Hlk : ((T_DIR, d') :: fs ++ [(T_FILE, [])]) !! S (length fs) = Some (T_FILE, [])) by (change ((fs ++ [(T_FILE, [])]) !! length fs = Some (T_FILE, [] : list Z)); by rewrite lookup_app_r, Nat.sub_diag by lia).
  assert (Hin : forall c, <[S (length fs) := (T_FILE, c)]> ((T_DIR, d') :: fs ++ [(T_FILE, [])]) = (T_DIR, d') :: fs ++ [(T_FILE, c)]).
  { intros c. change (<[S (length fs) := (T_FILE, c)]> ((T_DIR, d') :: fs ++ [(T_FILE, [])])) with ((T_DIR, d') :: <[length fs := (T_FILE, c)]> (fs ++ [(T_FILE, [])])).
    by rewrite insert_app_r_alt, Nat.sub_diag by lia. }
  destruct (mk_copy_ok chunks _ _ _ _ m2 H2 Hlk) as (m3 & E3 & H3); [done| |].
  - cbn [app]. rewrite Hin, total_cons, total_app. cbn [snd]. change (total [(T_FILE, concat chunks)]) with (fblocks (Z.of_nat (length (concat chunks))) + 0). lia.
  - exists m3. split; [exact E3|]. cbn [app] in H3. by rewrite Hin in H3.
Qed.

Lemma mkfs_files_ok args d fs m :
  image ((T_DIR, d) :: fs) m -> forallb accepted args = true -> Z.of_nat (length fs + length args) + 1 < NINODES ->
  Z.of_nat (length d + 16 * length args) <= MAXFILE * BSIZE -> (forall a, a ∈ args -> Z.of_nat (length (contents a)) <= MAXFILE * BSIZE) ->
  let all := (T_DIR, d ++ entries (Z.of_nat (length fs) + 2) args) :: fs ++ copies args in
  nmeta + total all <= FSSIZE -> exists m', foreach args (mkfs_file ROOTINO) m = Ok tt m' /\ image all m'.
Proof.
  revert d fs m. induction args as [|a args IH]; intros d fs m Hi Hacc Hfew Hd Hmax all Hroom.
  - exists m. split; [done|]. unfold all. cbn. by rewrite !app_nil_r.
  - cbn in Hacc. apply andb_true_iff in Hacc as [Ha Hacc]. cbn [length] in *.
    assert (Hall : all = (T_DIR, (d ++ make_dirent (Z.of_nat (length fs) + 2) (mkfs_name a.1)) ++
      entries (Z.of_nat (length (fs ++ [(T_FILE, contents a)])) + 2) args) :: (fs ++ [(T_FILE, contents a)]) ++ copies args).
    { unfold all. cbn [entries]. rewrite length_app, <- !app_assoc. cbn [length app copies map]. do 5 f_equal. lia. }
    set (d' := d ++ _) in Hall. set (fs' := fs ++ _) in Hall. rewrite Hall in *.
    destruct (mkfs_file_ok a d fs m Hi Ha) as (m1 & E1 & H1); [lia|lia|apply Hmax; set_solver| |].
    + fold d' fs'. clear all Hall. rewrite !total_cons, total_app in *. cbn [snd] in *.
      assert (0 <= total (copies args)) by apply total_pos. rewrite length_app in Hroom.
      pose proof (fblocks_mono (Z.of_nat (length d')) (Z.of_nat (length d' + length (entries (Z.of_nat (length fs') + 2) args))) ltac:(lia)). lia.
    + cbn [foreach]. rewrite (bind_ok _ _ _ _ _ E1). apply IH; try done.
      * unfold fs'. rewrite length_app. cbn [length]. lia.
      * unfold d'. rewrite length_app, length_dirent. lia.
      * intros b Hb. apply Hmax. set_solver.
Qed.

(** The bitmap: the blocks below the next free one. *)
Lemma marks l buf b :
  Forall (fun i => 0 <= i < 4096) l -> 0 <= b -> length buf = 512%nat ->
  length (fold_left mark l buf) = 512%nat /\ bit_set (fold_left mark l buf) b = bit_set buf b || existsb (fun i => b =? i) l.
Proof.
  intros Hl Hb. revert buf. induction Hl as [|i l Hi Hl IH]; intros buf Hlen; [by rewrite orb_false_r|].
  cbn [fold_left existsb]. destruct (IH (mark buf i)) as [E1 E2]; [unfold mark; by rewrite length_alter|]. split; [done|].
  rewrite E2. change (mark buf i) with (alter (fun v => Z.lor v (bit_mask i)) (Z.to_nat (i / 8)) buf). rewrite bit_set_lor by (Z.div_mod_to_equations; lia).
  destruct (Z.eqb_spec b i); [rewrite decide_True by done; by rewrite orb_true_r|by rewrite decide_False].
Qed.

Lemma bit_set_zeroes b : bit_set zeroes b = false.
Proof.
  rewrite bit_set_testbit. replace (nth _ zeroes 0) with 0; [apply Z.bits_0|]. rewrite nth_lookup. unfold zeroes.
  destruct (_ !! _) as [v|] eqn:E; [|done]. by apply lookup_replicate in E as [-> _].
Qed.

Lemma bitmap_bits n b : 0 <= n <= 4096 -> 0 <= b -> bit_set (fold_left mark (zrange 0 n) zeroes) b = (b <? n).
Proof.
  intros Hn Hb. destruct (marks (zrange 0 n) zeroes b) as [_ ->]; [apply Forall_forall; intros i Hi; apply elem_of_zrange in Hi; lia|done|done|].
  rewrite bit_set_zeroes. cbn [orb]. apply eq_true_iff_eq. rewrite existsb_exists, Z.ltb_lt. split.
  - intros (i & Hi & E). apply list_elem_of_In, elem_of_zrange in Hi. lia.
  - intros H. exists b. rewrite Z.eqb_refl. split; [|done]. apply list_elem_of_In, elem_of_zrange. lia.
Qed.

(** What the finished image holds. *)
Record mkfs_image (args : list argument) (m : mkst) : Prop := {
  mi_sectors : mk_sectors m = FSSIZE;
  mi_lens : forall b, 0 <= b < FSSIZE -> length (mk_img m b) = 512%nat;
  mi_used : mk_freeblock m = nmeta + total ((T_DIR, root_entries args) :: copies args);
  mi_sb : decode_sb (mk_img m 1) = mkfs_sb;
  mi_log : forall b, sb_logstart mkfs_sb <= b < sb_logstart mkfs_sb + sb_nlog mkfs_sb -> mk_img m b = zeroes;
  mi_bitmap : forall b, 0 <= b < FSSIZE -> bit_set (mk_img m (sb_bmapstart mkfs_sb)) b = (b <? mk_freeblock m);
  mi_root : let x := dinode (mk_img m) ROOTINO in
    vfile (mk_img m) x (root_entries args) (mk_freeblock m) /\ i_type x = T_DIR /\ i_nlink x = 1 /\ fits x /\
    i_size x = (Z.of_nat (length (root_entries args)) / BSIZE + 1) * BSIZE;
  mi_files : forall i a, args !! i = Some a -> let x := dinode (mk_img m) (Z.of_nat i + 2) in
    vfile (mk_img m) x (contents a) (mk_freeblock m) /\ i_type x = T_FILE /\ i_nlink x = 1 /\ fits x /\
    i_size x = Z.of_nat (length (contents a)) }.

Lemma mk_fill_ok l m :
  exists m', foreach l (fun i => wsect i zeroes) m = Ok tt m' /\
    (forall b, b ∈ l \/ mk_img m b = zeroes -> mk_img m' b = zeroes) /\
    (forall n, (forall i, i ∈ l -> i + 1 <= n) -> mk_sectors m <= n -> mk_sectors m' <= n) /\
    (forall i, i ∈ l -> i + 1 <= mk_sectors m') /\ mk_sectors m <= mk_sectors m' /\
    mk_freeinode m' = mk_freeinode m /\ mk_freeblock m' = mk_freeblock m.
Proof.
  revert m. induction l as [|j l IH]; intros m.
  - exists m. split_and!; try done; intros; set_solver.
  - set (m1 := m <| mk_img ::= fun f b => if b =? j then zeroes else f b |> <| mk_sectors ::= Z.max (j + 1) |>).
    destruct (IH m1) as (m' & E & H1 & H2 & H3 & H4 & H5 & H6).
    assert (Es : mk_sectors m1 = Z.max (j + 1) (mk_sectors m)) by done.
    assert (Eb : forall b, mk_img m1 b = if b =? j then zeroes else mk_img m b) by done.
    exists m'. split_and!; [exact E| | | | |done|done].
    + intros b Hb. apply H1. rewrite Eb. destruct (Z.eqb_spec b j); [by right|]. set_solver.
    + intros n Hn Hs. apply H2; [intros i Hi; apply Hn; set_solver|]. specialize (Hn j ltac:(set_solver)). lia.
    + intros i Hi. apply elem_of_cons in Hi as [->|Hi]; [lia|by apply H3].
    + lia.
Qed.

(** An image without files. *)
Lemma image_start : exists m m',
  foreach (zrange 0 FSSIZE) (fun i => wsect i zeroes) (mkfs_start <| mk_freeblock := nmeta |>) = Ok tt m /\
  wsect 1 (sb_bytes mkfs_sb zeroes) m = Ok tt m' /\ image [] m'.
Proof.
  set (m0 := mkfs_start <| mk_freeblock := nmeta |>). destruct (mk_fill_ok (zrange 0 FSSIZE) m0) as (m1 & E & H1 & H2 & H3 & H4 & H5 & H6).
  assert (Hs : mk_sectors m1 = FSSIZE).
  { specialize (H2 FSSIZE ltac:(intros i Hi; apply elem_of_zrange in Hi; lia) ltac:(done)). specialize (H3 (FSSIZE - 1) ltac:(by apply elem_of_zrange)). lia. }
  assert (Hz : forall b, 0 <= b < FSSIZE -> mk_img m1 b = zeroes) by (intros b Hb; apply H1; left; by apply elem_of_zrange).
  assert (Hm1 : mk_ok m1).
  { split; [done| | |rewrite H6; done]; intros b Hb; rewrite Hz; try done. rewrite H6 in Hb. change (mk_freeblock m0) with nmeta in Hb. mk_sizes. lia. }
  exists m1, (with_sector 1 (sb_bytes mkfs_sb zeroes) m1). split; [done|]. rewrite (wsect_ok _ _ _ Hm1) by done. split; [done|].
  split; try done.
  - apply mk_ok_write; [done|rewrite H6; done|reflexivity].
  - intros i j k k' Hi. simpl in Hi. lia.
  - intros b Hb. rewrite with_sector_img, (proj2 (Z.eqb_neq _ _)) by lia. apply Hz. mk_sizes. lia.
Qed.

(** What the program asks of its arguments. *)
Record mkfs_fits (args : list argument) : Prop := {
  mf_accepted : forallb accepted args = true;
  mf_few : Z.of_nat (length args) + 1 < NINODES;
  mf_size : forall a, a ∈ args -> Z.of_nat (length (contents a)) <= MAXFILE * BSIZE;
  mf_room : nmeta + total ((T_DIR, root_entries args) :: copies args) <= FSSIZE }.

Lemma iappend_root d fs p m :
  image ((T_DIR, d) :: fs) m -> Z.of_nat (length (d ++ p)) <= MAXFILE * BSIZE -> nmeta + total ((T_DIR, d ++ p) :: fs) <= FSSIZE ->
  exists m', iappend ROOTINO p m = Ok tt m' /\ image ((T_DIR, d ++ p) :: fs) m'.
Proof. intros Hi Hl Hr. exact (iappend_ok _ 0 T_DIR d p m Hi eq_refl Hl Hr). Qed.

Lemma mkfs_populates args m0 : image [] m0 -> mkfs_fits args -> exists m1 m2 m3 m4,
  mk_ialloc T_DIR m0 = Ok ROOTINO m1 /\ iappend ROOTINO (make_dirent (xshort ROOTINO) (bytes ".")) m1 = Ok tt m2 /\
  iappend ROOTINO (make_dirent (xshort ROOTINO) (bytes "..")) m2 = Ok tt m3 /\ foreach args (mkfs_file ROOTINO) m3 = Ok tt m4 /\
  image ((T_DIR, root_entries args) :: copies args) m4.
Proof.
  intros H0 [Ha Hn Hs Hr]. change (xshort ROOTINO) with 1. pose proof (total_pos (copies args)) as Hcp. rewrite total_cons in Hr. cbn [snd] in Hr.
  assert (Hl : Z.of_nat (length (root_entries args)) <= 3200).
  { unfold root_entries. rewrite !length_app, !length_dirent, length_entries. unfold NINODES in Hn. lia. }
  assert (Hf : forall d, (length d <= length (root_entries args))%nat -> nmeta + total [(T_DIR, d)] <= FSSIZE).
  { intros d Hd. rewrite total_cons. change (total []) with 0. cbn [snd]. pose proof (fblocks_mono (Z.of_nat (length d)) (Z.of_nat (length (root_entries args)))). lia. }
  destruct (mk_ialloc_ok [] T_DIR m0 H0) as (m1 & E1 & H1); [done..|].
  destruct (iappend_root [] [] (make_dirent 1 (bytes ".")) m1 H1) as (m2 & E2 & H2); [done|by apply Hf; simpl; lia|].
  destruct (iappend_root _ [] (make_dirent 1 (bytes "..")) m2 H2) as (m3 & E3 & H3); [done|by apply Hf; simpl; lia|].
  destruct (mkfs_files_ok args _ [] m3 H3) as (m4 & E4 & H4); try done.
  { rewrite length_app, !length_dirent. unfold NINODES in Hn. mk_sizes. simpl. lia. }
  exists m1, m2, m3, m4. done.
Qed.

(** The size of the root directory is rounded up and the bitmap written. *)
Definition rounded (n : Z) : Z := (n / BSIZE + 1) * BSIZE.

Lemma mkfs_finished args m m1 :
  image ((T_DIR, root_entries args) :: copies args) m -> mk_ok m1 -> mk_freeblock m1 = mk_freeblock m ->
  (forall b, b < 32 \/ 58 <= b -> mk_img m1 b = mk_img m b) ->
  let x := (dinode (mk_img m) ROOTINO) <| i_size := rounded (Z.of_nat (length (root_entries args))) |> in
  fits x -> dinode (mk_img m1) ROOTINO = x ->
  (forall j, 0 <= j < 208 -> j <> ROOTINO -> dinode (mk_img m1) j = dinode (mk_img m) j) ->
  mkfs_image args (with_sector 58 (fold_left mark (zrange 0 (mk_freeblock m1)) zeroes) m1).
Proof.
  intros Hi Hm1 Hfb Hb x Hx Hr Hd. pose proof (mk_range _ Hm1) as Hrg. mk_sizes. set (bm := fold_left _ _ _). set (m2 := with_sector 58 bm m1).
  assert (Hbm : length bm = 512%nat) by (apply (marks _ zeroes 0); [apply Forall_forall; intros i Hir; apply elem_of_zrange in Hir; lia|done|done]).
  assert (Him : forall b, mk_img m2 b = if b =? 58 then bm else mk_img m1 b) by done.
  assert (Hdi : forall j, 0 <= j < 208 -> dinode (mk_img m2) j = dinode (mk_img m1) j).
  { intros j Hj. destruct (iblock_range j Hj) as [_ Hib]. unfold dinode. rewrite Him, (proj2 (Z.eqb_neq _ _)) by lia. done. }
  assert (Hvf : forall y c, vfile (mk_img m) y c (mk_freeblock m) -> vfile (mk_img m2) y c (mk_freeblock m2)).
  { intros y c Hy. apply (vfile_keep (mk_img m) _ _ _ (mk_freeblock m)); [done|by change (mk_freeblock m2) with (mk_freeblock m1); rewrite Hfb|].
    intros k Hk Hnz. pose proof (vs_range _ _ _ (vf_slots _ _ _ _ Hy) k Hk Hnz). mk_sizes. rewrite Him, (proj2 (Z.eqb_neq _ _)) by lia. apply Hb. lia. }
  split.
  - apply Hm1.
  - intros b Hbr. rewrite Him. destruct (b =? 58); [done|]. by apply Hm1.
  - change (mk_freeblock m2) with (mk_freeblock m1). rewrite Hfb. apply Hi.
  - rewrite Him. change (1 =? 58) with false. rewrite Hb, (im_sb _ _ Hi) by lia. vm_compute. reflexivity.
  - change (sb_logstart mkfs_sb) with 2. change (sb_nlog mkfs_sb) with 30. intros b Hbr. rewrite Him, (proj2 (Z.eqb_neq _ _)), Hb by lia. exact (im_log _ _ Hi b Hbr).
  - intros b Hbr. change (sb_bmapstart mkfs_sb) with 58. rewrite Him. cbn [Z.eqb Pos.eqb]. apply (bitmap_bits (mk_freeblock m1)); lia.
  - cbv zeta. rewrite Hdi, Hr by done. destruct (im_file _ _ Hi 0 _ _ eq_refl) as (Hv & _ & Ht & _ & Hnl & _). split_and!; try done. apply Hvf. by apply vfile_size.
  - intros i a Ha. assert (Hlk : ((T_DIR, root_entries args) :: copies args) !! S i = Some (T_FILE, contents a)) by (change (copies args !! i = Some (T_FILE, contents a)); unfold copies; by rewrite list_lookup_fmap, Ha).
    pose proof (image_length _ _ Hi) as Hl. pose proof (lookup_lt_Some _ _ _ Hlk) as Hli. pose proof (file_len _ _ _ _ _ Hi Hlk).
    destruct (im_file _ _ Hi (S i) _ _ Hlk) as (Hv & Hs & Ht & Ht' & Hnl & Hma & Hmi). replace (Z.of_nat (S i) + 1) with (Z.of_nat i + 2) in * by lia.
    cbv zeta. rewrite Hdi, Hd by (unfold ROOTINO; lia). split_and!; try done; [by apply Hvf|].
    apply (fits_file _ _ _ _ Hv); try done; [rewrite <- Hfb; apply Hm1|lia|by rewrite Ht].
Qed.

Lemma mkfs_main_ok args : mkfs_fits args -> exists m, mkfs_main args mkfs_start = Ok tt m /\ mkfs_image args m.
Proof.
  intros Hfit. destruct image_start as (m & m0 & E & E0 & H0). destruct (mkfs_populates args m0 H0 Hfit) as (m1 & m2 & m3 & m4 & E1 & E2 & E3 & E4 & H4).
  unfold mkfs_main. mstep. mstep with (E). mstep with (E0). mstep with (E1). change (negb (ROOTINO =? ROOTINO)) with false. cbv iota.
  mstep with (E2). mstep with (E3). mstep with (E4). pose proof (im_ok _ _ H4) as Hm4. mstep by (by apply rinode_ok).
  destruct (im_file _ _ H4 0 _ _ eq_refl) as (Hv & Hs & Ht & _ & Hnl & Hmaj & Hmin). change (Z.of_nat 0 + 1) with ROOTINO in *.
  pose proof (file_len _ _ _ _ _ H4 (eq_refl : _ !! 0%nat = Some _)) as Hl.
  rewrite Hs, (xint_id (Z.of_nat _)) by lia. set (n := Z.of_nat (length (root_entries args))) in *.
  assert (Hrd : 0 <= rounded n < 4294967296) by (unfold rounded; mk_sizes; Z.div_mod_to_equations; lia).
  change ((n / BSIZE + 1) * BSIZE) with (rounded n). rewrite (u32_id (rounded n)), xint_id by done. set (x2 := _ <| i_size := rounded n |>).
  assert (Hx2 : fits x2).
  { apply (fits_file (mk_img m4) x2 (root_entries args) (mk_freeblock m4)); try done; [by apply vfile_size|apply Hm4|].
    change (i_type x2) with (i_type (dinode (mk_img m4) ROOTINO)). by rewrite Ht. }
  destruct (winode_ok ROOTINO x2 m4) as (m5 & E5 & W1 & W2 & W3 & W4 & W5 & W6); try done.
  mstep with (E5). mstep. pose proof (mk_range _ W1) as Hr. mk_sizes. rewrite i32_id by lia. unfold mk_balloc. mk_sizes.
  rewrite (proj2 (Z.leb_gt _ _)) by lia. rewrite (wsect_ok _ _ _ W1) by done. eexists. split; [done|]. by apply (mkfs_finished args m4 m5).
Qed.
