(* ===== verification/Image.v ===== *)
(** * The kernel on a new image (mkfs.c, fs.c)

    What mkfs wrote is what the kernel finds: the files by name in the root directory and
    their bytes through [readi]. *)

From stdpp Require Import gmap.
From S2P Require Import Prelude Outcome Kernel Spinlock Kalloc Proc Cprintf Sleeplock Bio Log Txn Edit Inode Alloc Icache Fs File Content ReadWrite Dir Resize Mkfs.
Local Open Scope Z_scope.

(** The pointers are all that matters. *)
Lemma vfile_same v x y c fb : i_addrs x = i_addrs y -> vfile v y c fb -> vfile v x c fb.
Proof. destruct x, y. simpl. intros ->. by intros [[V1 V2 V3] Hb Hi Hm Hby]. Qed.

(** ** The kernel on the image *)

Record on_image (m : mkst) (s : kstate) : Prop := {
  oi_sb : k_sb s = mkfs_sb;
  oi_size : d_size (k_disk s) = FSSIZE;
  oi_log : l_start (k_log s) = sb_logstart mkfs_sb /\ l_size (k_log s) = sb_nlog mkfs_sb;
  oi_view : forall b, 0 <= b < FSSIZE -> view s b = mk_img m b }.

(** Inode [inum] in the cache, as [ilock] leaves it. *)
Record cached (inum : Z) (x : inode) (s : kstate) : Prop := {
  cd_dev : i_dev x = 1;
  cd_inum : i_inum x = inum;
  cd_disk : get_dinode (view s (iblock x s)) (dinode_off (i_inum x)) x = x }.

Section OnImage.
Context (args : list argument) (m : mkst) (s : kstate) (Hfit : mkfs_fits args) (Hm : mkfs_image args m) (Ho : on_image m s).

Local Lemma free_range : 59 <= mk_freeblock m <= 1000.
Proof using Hfit Hm Ho. pose proof (mf_room _ Hfit) as H. rewrite (mi_used _ _ Hm). pose proof (total_pos ((T_DIR, root_entries args) :: copies args)). mk_sizes. lia. Qed.

Local Lemma bitmap_block b : 0 <= b < 1000 -> BBLOCK b (k_sb s) = 58.
Proof using Hfit Hm Ho. intros Hb. rewrite (oi_sb _ _ Ho). unfold BBLOCK, BPB. mk_sizes. rewrite Z.div_small by lia. reflexivity. Qed.

Local Lemma image_used b : 0 <= b < 1000 -> used s b = (b <? mk_freeblock m).
Proof using Hfit Hm Ho.
  intros Hb. unfold used. rewrite bitmap_block by done. rewrite (oi_view _ _ Ho) by done. rewrite Z.mod_small by (unfold BPB; mk_sizes; lia).
  apply (mi_bitmap _ _ Hm). mk_sizes. lia.
Qed.

Local Lemma not_held b : unheld [] b s.
Proof using Hfit Hm Ho. by intros i ?%not_elem_of_nil. Qed.

Local Lemma image_data b : 32 <= b < 1000 -> b <> 58 -> data_block [] b s.
Proof using Hfit Hm Ho.
  intros Hb Hne. unfold data_block. rewrite (oi_sb _ _ Ho). change (sb_size mkfs_sb) with 1000. split_and!; [lia|lia| |apply not_held|].
  - unfold in_area. destruct (oi_log _ _ Ho) as [-> ->]. change (sb_logstart mkfs_sb) with 2. change (sb_nlog mkfs_sb) with 30. lia.
  - intros b' Hb'. rewrite <- (oi_sb _ _ Ho), bitmap_block by done. done.
Qed.

Lemma image_owned b : 32 <= b < mk_freeblock m -> b <> 58 -> owned b s.
Proof using Hfit Hm Ho.
  intros Hb Hne. pose proof free_range. split; [apply image_data; lia|rewrite image_used by lia; lia|].
  rewrite (oi_view _ _ Ho) by (mk_sizes; lia). apply (mi_lens _ _ Hm). mk_sizes. lia.
Qed.

Lemma image_map : map_ok [] s.
Proof using Hfit Hm Ho.
  pose proof free_range. split; rewrite ?(oi_sb _ _ Ho), ?(oi_size _ _ Ho); change (sb_size mkfs_sb) with 1000; change (sb_bmapstart mkfs_sb) with 58; mk_sizes; try lia.
  - intros b Hb. rewrite <- (oi_sb _ _ Ho), bitmap_block by done. split_and!; [lia|lia| | |apply not_held].
    + unfold in_area. destruct (oi_log _ _ Ho) as [-> ->]. change (sb_logstart mkfs_sb) with 2. change (sb_nlog mkfs_sb) with 30. lia.
    + rewrite (oi_view _ _ Ho) by done. by apply (mi_lens _ _ Hm).
  - intros b Hb. rewrite image_used by done. intros Hu%Z.ltb_ge. destruct (image_data b) as (_ & H1 & H2 & H3); [lia|lia|].
    rewrite (oi_sb _ _ Ho) in H3. done.
Qed.

(** A file of the image, once its inode is in the cache. *)
Lemma image_file inum x cont :
  0 <= inum < 208 -> cached inum x s -> i_size (dinode (mk_img m) inum) <= 71680 ->
  vfile (mk_img m) (dinode (mk_img m) inum) cont (mk_freeblock m) -> fits (dinode (mk_img m) inum) -> i_type (dinode (mk_img m) inum) <> T_DEV ->
  (forall bn, 0 <= bn -> bn * BSIZE < i_size (dinode (mk_img m) inum) -> bn * BSIZE < Z.of_nat (length cont)) ->
  file_inv x s /\ i_size x = i_size (dinode (mk_img m) inum) /\ i_type x = i_type (dinode (mk_img m) inum) /\
  forall k, 0 <= k -> k / BSIZE * BSIZE < Z.of_nat (length cont) -> fbyte x s k = nth (Z.to_nat k) cont 0.
Proof using Hfit Hm Ho.
  intros Hi [Hdev Hin Hdk] Hs Hv Hft Hty Hsz. pose proof free_range as Hfr. destruct (iblock_range inum Hi) as [_ Hib].
  assert (Eib : iblock x s = IBLOCK inum mkfs_sb) by (unfold iblock; by rewrite (oi_sb _ _ Ho), Hin).
  assert (Ev : view s (iblock x s) = mk_img m (IBLOCK inum mkfs_sb)) by (rewrite Eib; apply (oi_view _ _ Ho); mk_sizes; lia).
  rewrite Ev, Hin in Hdk. set (y := dinode (mk_img m) inum) in *.
  assert (Hfd : i_type x = i_type y /\ i_major x = i_major y /\ i_minor x = i_minor y /\ i_nlink x = i_nlink y /\ i_size x = i_size y /\ i_addrs x = i_addrs y).
  { rewrite <- Hdk. done. }
  destruct Hfd as (E1 & E2 & E3 & E4 & E5 & E6). pose proof (vfile_same _ x y _ _ E6 Hv) as Hvx.
  assert (Hslot : forall k, 0 <= k <= MAXFILE -> vslot (mk_img m) x k <> 0 -> 59 <= vslot (mk_img m) x k < mk_freeblock m).
  { intros k Hk Hnz. pose proof (vs_range _ _ _ (vf_slots _ _ _ _ Hvx) k Hk Hnz). mk_sizes. lia. }
  destruct (vfile_keep (mk_img m) (view s) x cont (mk_freeblock m) (mk_freeblock m)) as [[[V1 V2 V3] Vb Vi Vm Vby] Hsl]; [done|lia| |].
  { intros k Hk Hnz. apply (oi_view _ _ Ho). specialize (Hslot k Hk Hnz). mk_sizes. lia. }
  change (vaddr (view s)) with (fun x bn => baddr x s bn) in Vb. cbv beta in Vb.
  assert (Hb : forall bn, 0 <= bn < MAXFILE -> vslot (view s) x bn = baddr x s bn) by (intros bn Hbn; apply vaddr_slot; lia).
  assert (Hown : forall k, 0 <= k <= MAXFILE -> vslot (view s) x k <> 0 -> owned (vslot (view s) x k) s /\ 59 <= vslot (view s) x k).
  { intros k Hk. rewrite Hsl by done. intros Hnz. specialize (Hslot k Hk Hnz). split; [apply image_owned; lia|lia]. }
  change (ind x) with (vslot (view s) x MAXFILE) in Vi.
  split_and!; [split|done|done|exact Vby]; rewrite ?Eib.
  - split; try done.
    + intros bn Hbn. rewrite <- Hb by done. intros Hnz. apply Hown; [lia|done].
    + change (ind x) with (vslot (view s) x MAXFILE). intros Hnz. apply Hown; [mk_sizes; lia|done].
    + intros bn bn' Hbn Hbn'. rewrite <- !Hb by done. intros E Hnz. apply V3; try done; lia.
    + intros bn Hbn. rewrite <- Hb by done. change (ind x) with (vslot (view s) x MAXFILE). intros Hnz E. apply V3 in E; [lia|lia|mk_sizes; lia|done].
  - by rewrite E1.
  - rewrite E5. destruct Hft. mk_sizes. lia.
  - rewrite E5. intros bn H1 H2. apply Vb; [mk_sizes; lia|]. by apply Hsz.
  - destruct Hft. split; congruence || by rewrite ?E1, ?E2, ?E3, ?E4, ?E5, ?E6.
  - apply image_owned; lia.
  - intros [E|(bn & Hbn & E)].
    + change (ind x) with (vslot (view s) x MAXFILE) in E. destruct (Hown MAXFILE); [mk_sizes; lia|lia|lia].
    + rewrite <- Hb in E by done. destruct (Hown bn); [lia|lia|lia].
  - by rewrite <- Eib, Ev, Hin.
Qed.
End OnImage.

(** ** Contents and entries *)

Lemma slice_contents x s cont a b :
  (forall k, 0 <= k -> k / BSIZE * BSIZE < Z.of_nat (length cont) -> fbyte x s k = nth (Z.to_nat k) cont 0) -> 0 <= a -> b <= Z.of_nat (length cont) ->
  slice x s a b = take (Z.to_nat (b - a)) (drop (Z.to_nat a) cont).
Proof.
  intros Hk Ha Hb. apply list_eq. intros i. unfold slice. rewrite list_lookup_fmap. destruct (decide (i < Z.to_nat (b - a))%nat) as [Hi|Hi].
  - rewrite lookup_zrange, lookup_take_lt, lookup_drop by lia. cbn [fmap option_fmap option_map]. rewrite Hk by (mk_sizes; Z.div_mod_to_equations; lia).
    destruct (lookup_lt_is_Some_2 cont (Z.to_nat a + i)) as [v Hv]; [lia|]. rewrite Hv. f_equal. apply nth_lookup_Some. rewrite <- Hv. f_equal. lia.
  - rewrite lookup_take_ge by lia. rewrite lookup_ge_None_2; [done|]. rewrite length_zrange. lia.
Qed.

Lemma entries_nth n args k a : args !! k = Some a -> take 16 (drop (16 * k) (entries n args)) = make_dirent (n + Z.of_nat k) (mkfs_name a.1).
Proof.
  revert n k. induction args as [|a0 args IH]; intros n [|k] Hk; try done; cbn [entries].
  - injection Hk as ->. rewrite Z.add_0_r. change (drop (16 * 0) ?l) with l. rewrite take_app_length'; [done|]. symmetry. apply length_dirent.
  - rewrite drop_app_ge by (rewrite length_dirent; lia). rewrite length_dirent. replace (16 * S k - 16)%nat with (16 * k)%nat by lia.
    rewrite IH by done. f_equal. lia.
Qed.

(** The entries of the root directory, with the two that the program writes first. *)
Definition root_entry (args : list argument) (j : Z) : option (list Z) :=
  if j <? 2 then Some (make_dirent 1 (if j =? 0 then bytes "." else bytes ".."))
  else (fun a => make_dirent j (mkfs_name a.1)) <$> args !! Z.to_nat (j - 2).

Lemma root_entries_nth args j de :
  0 <= j -> root_entry args j = Some de -> take 16 (drop (Z.to_nat (16 * j)) (root_entries args)) = de /\ 16 * j + 16 <= Z.of_nat (length (root_entries args)).
Proof.
  intros Hj. unfold root_entry, root_entries. rewrite !length_app, !length_dirent, length_entries. destruct (Z.ltb_spec j 2) as [H|H].
  - intros [= <-]. assert (Hc : j = 0 \/ j = 1) by lia. split; [|lia]. destruct Hc as [-> | ->]; done.
  - destruct (args !! Z.to_nat (j - 2)) as [a|] eqn:E; [|done]. cbn [fmap option_fmap option_map]. intros [= <-]. assert (Hl : (Z.to_nat (j - 2) < length args)%nat) by (by eapply lookup_lt_Some). split; [|lia].
    rewrite drop_app_ge, length_dirent by (rewrite length_dirent; lia). rewrite drop_app_ge, length_dirent by (rewrite length_dirent; lia).
    replace (Z.to_nat (16 * j) - 16 - 16)%nat with (16 * Z.to_nat (j - 2))%nat by lia.
    rewrite (entries_nth 2 args _ a E). f_equal. lia.
Qed.

(** The root directory as a directory of the kernel, unless its entries fill its blocks. *)
Lemma image_root args m s x :
  mkfs_fits args -> mkfs_image args m -> on_image m s -> cached ROOTINO x s -> Z.of_nat (length (root_entries args)) mod BSIZE <> 0 ->
  dir_inv x s /\ Z.of_nat (length (root_entries args)) <= i_size x /\ (forall j de, 0 <= j -> root_entry args j = Some de -> entry x s j = de) /\
  forall j, 0 <= j < nentries x -> root_entry args j = None -> de_inum (entry x s j) = 0.
Proof.
  intros Hfit Hm Ho Hc Hmod. destruct (mi_root _ _ Hm) as (Hv & Ht & Hn & Hft & Hs). pose proof (mf_few _ Hfit) as Hfew.
  set (n := Z.of_nat (length (root_entries args))) in *. assert (Hl : n <= 3200).
  { unfold n, root_entries. rewrite !length_app, !length_dirent, length_entries. unfold NINODES in Hfew. lia. }
  destruct (image_file args m s Hfit Hm Ho ROOTINO x (root_entries args)) as (Hf & Es & Et & Hb); try done.
  { rewrite Hs. mk_sizes. Z.div_mod_to_equations. lia. } { by rewrite Ht. }
  { intros bn Hbn. fold n. rewrite Hs. mk_sizes. Z.div_mod_to_equations. lia. }
  split_and!; [split; [done|congruence|]|..].
  - rewrite Es, Hs. mk_sizes. Z.div_mod_to_equations. lia.
  - rewrite Es, Hs. mk_sizes. Z.div_mod_to_equations. lia.
  - intros j de Hj Hde. destruct (root_entries_nth args j de Hj Hde) as [<- Hlen]. unfold entry. rewrite (slice_contents x s (root_entries args)) by (done || lia).
    do 2 f_equal. lia.
  - intros j Hj Hno. assert (Hge : n <= 16 * j).
    { unfold root_entry in Hno. destruct (Z.ltb_spec j 2); [done|]. apply fmap_None, lookup_ge_None in Hno. unfold n, root_entries. rewrite !length_app, !length_dirent, length_entries. unfold argument in *. lia. }
    assert (Hz : forall k, 16 * j <= k < 16 * j + 2 -> fbyte x s k = 0).
    { intros k Hk. unfold nentries in Hj. rewrite Hb; [apply nth_overflow; unfold n in *; lia|lia|]. fold n. rewrite Es, Hs in Hj. mk_sizes. Z.div_mod_to_equations. lia. }
    unfold entry, slice. rewrite !zrange_cons by lia. unfold de_inum. cbn [map nth]. rewrite !Hz by lia. done.
Qed.

Lemma root_entry_arg args i a : args !! i = Some a -> root_entry args (Z.of_nat i + 2) = Some (make_dirent (Z.of_nat i + 2) (mkfs_name a.1)).
Proof. intros Ha. unfold root_entry. rewrite (proj2 (Z.ltb_ge _ _)) by lia. replace (Z.to_nat (Z.of_nat i + 2 - 2)) with i by lia. by rewrite Ha. Qed.

Lemma root_find args x s i a name :
  args !! i = Some a -> Z.of_nat (length args) + 1 < 200 -> Z.of_nat (length (root_entries args)) <= i_size x ->
  (forall j de, 0 <= j -> root_entry args j = Some de -> entry x s j = de) -> namecmp name (mkfs_name a.1) = 0 ->
  (forall j b, (j < i)%nat -> args !! j = Some b -> namecmp name (mkfs_name b.1) <> 0) ->
  namecmp name (bytes ".") <> 0 -> namecmp name (bytes "..") <> 0 -> find_entry name x s = Some (Z.of_nat i + 2).
Proof.
  intros Ha Hfew Hsz Hent Hnm Hfirst Hd1 Hd2. assert (Hl : (i < length args)%nat) by (by eapply lookup_lt_Some). unfold find_entry. apply find_zrange.
  destruct (root_entries_nth args (Z.of_nat i + 2) _ ltac:(lia) (root_entry_arg args i a Ha)) as [_ Hin]. unfold nentries. split_and!; [lia|Z.div_mod_to_equations; lia| |].
  - rewrite (Hent (Z.of_nat i + 2) _ ltac:(lia) (root_entry_arg args i a Ha)), matches_made by lia. by apply Z.eqb_eq.
  - intros j Hj. destruct (decide (j < 2)) as [Hj2|Hj2].
    + rewrite (Hent j (make_dirent 1 (if j =? 0 then bytes "." else bytes ".."))) by (try lia; unfold root_entry; by rewrite (proj2 (Z.ltb_lt _ _)) by lia).
      rewrite matches_made by lia. apply Z.eqb_neq. by destruct (j =? 0).
    + destruct (lookup_lt_is_Some_2 args (Z.to_nat (j - 2))) as [b Hb]; [lia|]. pose proof (root_entry_arg _ _ _ Hb) as Hr.
      replace (Z.of_nat (Z.to_nat (j - 2)) + 2) with j in Hr by lia. rewrite (Hent j _ ltac:(lia) Hr), matches_made by lia. apply Z.eqb_neq.
      apply (Hfirst (Z.to_nat (j - 2)) b); [lia|done].
Qed.

(** Reading a file of the image. *)
Lemma image_readi args m s {fl : Fuel} {dsk : Disk} {laws : DiskLaws dsk} {dsw : Devsw} {ci c p pr} :
  mkfs_fits args -> mkfs_image args m -> on_image m s -> forall bl i a ip x off n,
  reading (ci := ci) (c := c) (p := p) (pr := pr) bl s -> args !! i = Some a -> k_inodes s !! ip = Some x -> cached (Z.of_nat i + 2) x s ->
  let len := Z.of_nat (length (contents a)) in 0 <= off <= len -> 0 <= n -> off + n < 4294967296 ->
  exists s', readi ip off n s = Ok (Z.min n (len - off), take (Z.to_nat n) (drop (Z.to_nat off) (contents a))) s' /\
    reading (ci := ci) (c := c) (p := p) (pr := pr) bl s' /\ calm s s'.
Proof.
  intros Hfit Hm Ho bl i a ip x off n Hr Ha Hx Hc len Hoff Hn Hbig. pose proof (mf_few _ Hfit) as Hfew. unfold NINODES in Hfew.
  destruct (mi_files _ _ Hm i a Ha) as (Hv & Ht & Hnl & Hft & Hs).
  assert (Hl : (i < length args)%nat) by (by eapply lookup_lt_Some). pose proof (mf_size _ Hfit a ltac:(by eapply list_elem_of_lookup_2)) as Hsz. fold len in Hs, Hsz. mk_sizes.
  destruct (image_file args m s Hfit Hm Ho (Z.of_nat i + 2) x (contents a)) as (Hf & Es & Et & Hb);
    [lia|exact Hc|rewrite Hs; exact Hsz|exact Hv|exact Hft|rewrite Ht; discriminate|intros bn _; rewrite Hs; auto|].
  rewrite Hs in Es. destruct (readi_ok bl ip x off n s Hr (image_map args m s Hfit Hm Ho) Hf Hx) as (s' & -> & Hr' & C); [lia..|].
  exists s'. split; [|done]. rewrite Es, (slice_contents x s (contents a) _ _ Hb) by lia. do 2 f_equal.
  replace (Z.to_nat (Z.min (off + n) len - off)) with (Nat.min (Z.to_nat n) (length (drop (Z.to_nat off) (contents a)))) by (rewrite length_drop; unfold len in *; lia).
  destruct (Nat.min_spec (Z.to_nat n) (length (drop (Z.to_nat off) (contents a)))) as [[_ ->]|[Hge ->]]; [done|]. by rewrite !take_ge by lia.
Qed.

(** ** Properties *)

(** C6. What mkfs writes the kernel reads.  Given files that it can open, with names
    without a slash, at most 140 blocks each and room for them on the disk, mkfs
    succeeds.  Its image has the superblock that the kernel reads, an empty log and a
    bitmap that marks exactly the blocks in use.  On a kernel that runs on this image,
    the file of argument [i] has the inode number [i + 2], and [readi] returns its
    bytes.  In the root directory (when its entries do not end at the end of a block)
    [dirlookup] finds the name, without its leading underscore, of the first argument
    that has it, unless it is the name of the directory itself or its parent. *)
Theorem mkfs_readable args :
  mkfs_fits args -> exists m, mkfs_main args mkfs_start = Ok tt m /\
    mk_sectors m = FSSIZE /\ decode_sb (mk_img m 1) = mkfs_sb /\ head_n (mk_img m (sb_logstart mkfs_sb)) = 0 /\
    forall (fl : Fuel) (dsk : Disk) (laws : DiskLaws dsk) (dsw : Devsw) ci c p pr bl s,
    reading (ci := ci) (c := c) (p := p) (pr := pr) bl s -> on_image m s ->
    (forall b, 0 <= b < FSSIZE -> used s b = (b <? nmeta + total ((T_DIR, root_entries args) :: copies args))) /\
    (forall i a ip x off n, args !! i = Some a -> k_inodes s !! ip = Some x -> cached (Z.of_nat i + 2) x s ->
       let len := Z.of_nat (length (contents a)) in 0 <= off <= len -> 0 <= n -> off + n < 4294967296 ->
       exists s', readi ip off n s = Ok (Z.min n (len - off), take (Z.to_nat n) (drop (Z.to_nat off) (contents a))) s' /\ calm s s') /\
    (forall i a dp x name, args !! i = Some a -> k_inodes s !! dp = Some x -> cached ROOTINO x s ->
       Z.of_nat (length (root_entries args)) mod BSIZE <> 0 -> namecmp name (mkfs_name a.1) = 0 ->
       (forall j b, (j < i)%nat -> args !! j = Some b -> namecmp name (mkfs_name b.1) <> 0) ->
       namecmp name (bytes ".") <> 0 -> namecmp name (bytes "..") <> 0 ->
       exists s', calm s s' /\ dirlookup dp name s = bind (iget 1 (Z.of_nat i + 2)) (fun ip => ret (Some (ip, 16 * (Z.of_nat i + 2)))) s').
Proof.
  intros Hfit. destruct (mkfs_main_ok args Hfit) as (m & E & Hm). exists m. pose proof (mf_few _ Hfit) as Hfew. unfold NINODES in Hfew.
  split; [exact E|]. split; [exact (mi_sectors _ _ Hm)|]. split; [exact (mi_sb _ _ Hm)|].
  assert (Elog : mk_img m (sb_logstart mkfs_sb) = zeroes) by (apply (mi_log _ _ Hm); split; [apply Z.le_refl|reflexivity]).
  split; [rewrite Elog; reflexivity|]. intros fl dsk laws dsw ci c p pr bl s Hr Ho. split_and!.
  - intros b Hb. rewrite (image_used args m s Hfit Hm Ho) by done. by rewrite (mi_used _ _ Hm).
  - intros i a ip x off n Ha Hx Hc len Hoff Hn Hbig. destruct (image_readi args m s Hfit Hm Ho bl i a ip x off n Hr Ha Hx Hc Hoff Hn Hbig) as (s' & E1 & _ & C). exists s'. split; [exact E1|exact C].
  - intros i a dp x name Ha Hx Hc Hmod Hnm Hfirst Hd1 Hd2. destruct (image_root args m s x Hfit Hm Ho Hc Hmod) as (Hd & Hsz & Hent & _).
    destruct (dirlookup_ok bl dp x name s Hr (image_map args m s Hfit Hm Ho) Hd Hx) as (s' & _ & C & ->). exists s'. split; [done|].
    rewrite (root_find args x s i a name Ha Hfew Hsz Hent Hnm Hfirst Hd1 Hd2), (cd_dev _ _ _ Hc).
    assert (Hl : (i < length args)%nat) by (by eapply lookup_lt_Some).
    rewrite (Hent (Z.of_nat i + 2) _ ltac:(lia) (root_entry_arg args i a Ha)), made_inum by lia. reflexivity.
Qed.

(** When the entries of the root directory end at the end of a block, the size that mkfs
    gives the directory covers one block more than the directory has. *)
Theorem mkfs_root_too_large args :
  mkfs_fits args -> let n := Z.of_nat (length (root_entries args)) in n mod BSIZE = 0 ->
  exists m, mkfs_main args mkfs_start = Ok tt m /\
    let x := dinode (mk_img m) ROOTINO in i_size x = n + BSIZE /\ n / BSIZE * BSIZE < i_size x /\ vaddr (mk_img m) x (n / BSIZE) = 0.
Proof.
  intros Hfit n Hmod. destruct (mkfs_main_ok args Hfit) as (m & E & Hm). exists m. split; [exact E|]. destruct (mi_root _ _ Hm) as (Hv & _ & _ & _ & Hs).
  fold n in Hs. cbv zeta. rewrite Hs. pose proof (mf_few _ Hfit) as Hfew. assert (Hl : 0 <= n <= 3200).
  { unfold n, root_entries. rewrite !length_app, !length_dirent, length_entries. unfold NINODES in Hfew. lia. }
  pose proof (vf_blocks _ _ _ _ Hv (n / BSIZE)) as Hb. fold n in Hb. mk_sizes. split; [Z.div_mod_to_equations; lia|]. split; [Z.div_mod_to_equations; lia|].
  destruct (Z.eq_dec (vaddr (mk_img m) (dinode (mk_img m) ROOTINO) (n / 512)) 0) as [H|H]; [exact H|]. apply Hb in H; Z.div_mod_to_equations; lia.
Qed.

Lemma mkfs_root_too_large_witness :
  exists m, mkfs_main (replicate 30 (bytes "f", Some [])) mkfs_start = Ok tt m /\ i_size (dinode (mk_img m) ROOTINO) = 1024 /\
    vaddr (mk_img m) (dinode (mk_img m) ROOTINO) 1 = 0.
Proof.
  destruct (mkfs_root_too_large (replicate 30 (bytes "f", Some []))) as (m & E & H1 & _ & H2).
  - split; [reflexivity|reflexivity| |discriminate]. intros a Ha. apply list_elem_of_lookup in Ha as [k Hk]. apply lookup_replicate in Hk as [-> _]. discriminate.
  - reflexivity.
  - exists m. split; [exact E|]. split; [exact H1|exact H2].
Defined.

(** ** A small image *)

Definition boot_disk (m : mkst) : disk := mkDisk FSSIZE (mk_img m) [].
Definition boot (m : mkst) (l : list inode) : kstate := with_inodes l ((cache_demo (boot_disk m) log_demo) <| k_sb := mkfs_sb |>).

Lemma with_fields l sb t : let s := with_inodes l (t <| k_sb := sb |>) in
  k_sb s = sb /\ k_inodes s = l /\ k_log s = k_log t /\ k_disk s = k_disk t.
Proof. done. Qed.

Lemma boot_fields m l : k_sb (boot m l) = mkfs_sb /\ k_inodes (boot m l) = l /\ k_log (boot m l) = log_demo /\ k_disk (boot m l) = boot_disk m.
Proof.
  destruct (cache_demo_ok (boot_disk m) log_demo) as (_ & _ & _ & Ed & El). unfold boot.
  destruct (with_fields l mkfs_sb (cache_demo (boot_disk m) log_demo)) as (E1 & E2 & E3 & E4).
  rewrite E1, E2, E3, E4, Ed, El. split; [reflexivity|]. split; [reflexivity|]. split; reflexivity.
Qed.

Lemma boot_view m l b : view (boot m l) b = mk_img m b.
Proof.
  destruct (cache_demo_ok (boot_disk m) log_demo) as (_ & _ & Hs & Ed & _). unfold boot. rewrite view_inodes.
  destruct (sb_fields (cache_demo (boot_disk m) log_demo) mkfs_sb) as (_ & _ & ->). unfold view. rewrite Hs, Ed. reflexivity.
Qed.

Lemma boot_image m l : on_image m (boot m l).
Proof. destruct (boot_fields m l) as (E1 & _ & E3 & E4). split; rewrite ?E1, ?E3, ?E4; [reflexivity|reflexivity|split; reflexivity|]. intros b _. apply boot_view. Qed.

Lemma boot_txn args m l : mkfs_image args m -> intxn (ci := 0%nat) (c := fs_cpu) (p := 0%nat) (pr := fs_proc) [] [] (boot m l).
Proof.
  intros Hm. apply intxn_inodes, intxn_sb. set (d := boot_disk m). destruct (demo_quiet d log_demo) as [Hq Hc].
  destruct (cache_demo_ok d log_demo) as (_ & _ & _ & Ed & El).
  assert (El2 : d_read d 2 = zeroes) by (exact (mi_log _ _ Hm 2 ltac:(split; [apply Z.le_refl|reflexivity]))).
  assert (Hz : head_n (d_read d 2) = 0) by (rewrite El2; reflexivity).
  assert (Hp : pending (ci := 0%nat) (c := fs_cpu) (p := 0%nat) (pr := fs_proc) [] (cache_demo d log_demo)).
  { apply pending_nil; rewrite ?Ed, ?El; [exact Hq|exact Hc| | |exact Hz|reflexivity].
    - split_and!; [reflexivity|reflexivity|discriminate|reflexivity|discriminate|discriminate].
    - split; [change (l_start log_demo) with 2; rewrite El2; reflexivity|]. change (l_start log_demo) with 2. rewrite Hz. split; [lia|].
      assert (Eb : disk_blocks 2 d = []) by (unfold disk_blocks, head_blocks; by rewrite Hz).
      rewrite Eb. split; [reflexivity|apply Nat.ltb_lt; reflexivity|apply NoDup_nil_2|].
      intros b Hb. destruct (not_elem_of_nil b Hb). }
  apply intxn_pending. rewrite El. split; [exact Hp|split; discriminate].
Qed.

Lemma with_locks l sb r t : sl_free r t -> sl_free r (with_inodes l (t <| k_sb := sb |>)).
Proof. done. Qed.

Lemma boot_free m l r : sl_free r (boot m l).
Proof. apply with_locks, cache_demo_free. Qed.
#[global] Opaque boot.

Definition demo_args : list argument := [(bytes "_cat", Some [bytes "hello "; bytes "world"])].

Lemma demo_fits : mkfs_fits demo_args.
Proof.
  split; [reflexivity|reflexivity| |discriminate]. intros a Ha. assert (a = (bytes "_cat", Some [bytes "hello "; bytes "world"])) as -> by set_solver. discriminate.
Qed.

Definition demo_file (m : mkst) (inum : Z) : inode := get_dinode (mk_img m (IBLOCK inum mkfs_sb)) (dinode_off inum) (mkInode 1 inum 1 1 0 0 0 0 0 []).

Lemma demo_cached m inum l : cached inum (demo_file m inum) (boot m l).
Proof.
  split; [reflexivity|reflexivity|]. rewrite boot_view. unfold iblock. destruct (boot_fields m l) as (-> & _). reflexivity.
Qed.

Lemma mkfs_readable_witness :
  exists m s', mkfs_main demo_args mkfs_start = Ok tt m /\ @readi 5%nat memide no_dev 0 6 5 (boot m [demo_file m 2]) = Ok (5, bytes "world") s'.
Proof.
  destruct (mkfs_readable demo_args demo_fits) as (m & E & _ & _ & _ & H).
  destruct (mkfs_main_ok demo_args demo_fits) as (m' & E' & Hm). assert (m' = m) as -> by congruence.
  destruct (H 5%nat memide memide_laws no_dev 0%nat fs_cpu 0%nat fs_proc [] (boot m [demo_file m 2])) as (_ & Hread & _).
  - apply intxn_reading, (boot_txn demo_args m _ Hm).
  - apply boot_image.
  - destruct (Hread 0%nat (bytes "_cat", Some [bytes "hello "; bytes "world"]) 0%nat (demo_file m 2) 6 5) as (s' & Hr & _).
    + reflexivity.
    + destruct (boot_fields m [demo_file m 2]) as (_ & -> & _). reflexivity.
    + apply demo_cached.
    + split; discriminate.
    + discriminate.
    + reflexivity.
    + exists m, s'. split; [exact E|exact Hr].
Defined.

(** The root directory of the small image. *)
Definition demo_root : list Z :=
  make_dirent 1 (bytes ".") ++ make_dirent 1 (bytes "..") ++ make_dirent 2 (bytes "cat") ++ replicate 464 0.

Lemma demo_computed :
  match mkfs_main demo_args mkfs_start with
  | Ok _ m => mk_img m 59 = demo_root /\ i_size (demo_file m 1) = 512 /\ nth 0 (i_addrs (demo_file m 1)) 0 = 59 /\ mk_freeblock m = 61
  | _ => False
  end.
Proof. vm_compute. split_and!; reflexivity. Qed.

Definition demo_table (m : mkst) : list inode := demo_file m 1 :: replicate 49 (mkInode 0 0 0 0 0 0 0 0 0 []).

Lemma demo_table_ok m : table_ok [(0%nat, (1, 1))] (demo_table m).
Proof.
  split; [reflexivity| | |].
  - intros [|k] x Hx; [injection Hx as <-; reflexivity|]. change (replicate 49 (mkInode 0 0 0 0 0 0 0 0 0 []) !! k = Some x) in Hx.
    apply lookup_replicate in Hx as [-> _]. reflexivity.
  - intros [|j] [|k] x y Hx Hy Rx Ry _; [done| | |].
    + change (replicate 49 (mkInode 0 0 0 0 0 0 0 0 0 []) !! k = Some y) in Hy. apply lookup_replicate in Hy as [-> _]. discriminate Ry.
    + change (replicate 49 (mkInode 0 0 0 0 0 0 0 0 0 []) !! j = Some x) in Hx. apply lookup_replicate in Hx as [-> _]. discriminate Rx.
    + change (replicate 49 (mkInode 0 0 0 0 0 0 0 0 0 []) !! j = Some x) in Hx. apply lookup_replicate in Hx as [-> _]. discriminate Rx.
  - intros k id Hin. assert (k = 0%nat /\ id = (1, 1)) as [-> ->] by (clear - Hin; set_solver). by exists (demo_file m 1).
Qed.

Lemma demo_dir m : mkfs_main demo_args mkfs_start = Ok tt m ->
  let s := boot m (demo_table m) in let x := demo_file m 1 in
  intxn (ci := 0%nat) (c := fs_cpu) (p := 0%nat) (pr := fs_proc) [] [] s /\ map_ok [] s /\ dir_inv x s /\ k_inodes s !! 0%nat = Some x /\
  used s 0 = true /\ free_blocks 2 s /\ i_size x = 512 /\ forall j, 0 <= j < 32 -> entry x s j = take 16 (drop (Z.to_nat (16 * j)) demo_root).
Proof.
  intros E s x. destruct (mkfs_main_ok demo_args demo_fits) as (m' & E' & Hm). assert (m' = m) as -> by congruence.
  pose proof demo_computed as Hc. rewrite E in Hc. destruct Hc as (Hb & Hsz & Ha & Hfb). fold x in Hsz, Ha. pose proof demo_fits as Hfit.
  pose proof (boot_image m (demo_table m)) as Ho. fold s in Ho.
  destruct (image_root demo_args m s x Hfit Hm Ho (demo_cached m 1 _)) as (Hd & _ & _ & _); [discriminate|].
  pose proof (image_used demo_args m s Hfit Hm Ho) as Hu. rewrite Hfb in Hu. destruct (boot_fields m (demo_table m)) as (E1 & E2 & _ & _). fold s in E1, E2.
  split_and!.
  - apply (boot_txn demo_args m _ Hm).
  - apply (image_map demo_args m s Hfit Hm Ho).
  - exact Hd.
  - rewrite E2. reflexivity.
  - rewrite Hu by lia. reflexivity.
  - exists ({[70]} ∪ {[71]} : gset Z). split; [by vm_compute|]. intros b Hbr. assert (Hcs : b = 70 \/ b = 71) by (clear - Hbr; set_solver). rewrite E1, Hu by lia.
    change (sb_size mkfs_sb) with 1000. split; [lia|apply Z.ltb_ge; lia].
  - exact Hsz.
  - intros j Hj. assert (Eb : baddr x s 0 = 59) by exact Ha. pose proof (block_slice x s (16 * j) 16 (fi_file _ _ (di_file _ _ Hd))) as Hs.
    mk_sizes. rewrite (Z.div_small (16 * j) 512), (Z.mod_small (16 * j) 512), Eb in Hs by lia. unfold entry. rewrite <- Hs by lia. unfold s.
    rewrite boot_view, Hb. reflexivity.
Qed.

Lemma dirlookup_finds_first_witness :
  exists m ip s', mkfs_main demo_args mkfs_start = Ok tt m /\ @dirlookup 5%nat memide no_dev 0 (bytes "cat") (boot m (demo_table m)) = Ok (Some (ip, 32)) s'.
Proof.
  destruct (mkfs_main_ok demo_args demo_fits) as (m & E & _). destruct (demo_dir m E) as (Hi & Hm & Hd & Hx & _ & _ & Hsz & He).
  set (s := boot m (demo_table m)) in *. assert (Et : k_inodes s = demo_table m) by apply boot_fields.
  assert (Hf : find_entry (bytes "cat") (demo_file m 1) s = Some 2).
  { unfold find_entry, nentries. rewrite Hsz. rewrite (find_ext _ (fun j => matches (bytes "cat") (take 16 (drop (Z.to_nat (16 * j)) demo_root)))); [reflexivity|].
    intros j Hj%elem_of_zrange. rewrite He; [reflexivity|exact Hj]. }
  pose proof (@dirlookup_finds_first 5%nat memide memide_laws no_dev 0 fs_cpu 0 fs_proc [] 0 (demo_file m 1) (bytes "cat") [(0%nat, (1, 1))] s
    (intxn_reading [] s Hi) Hm Hd Hx) as H.
  rewrite Et, Hf in H. destruct H as [(ip & l & s' & H1 & _)|[_ Hfull]]; [apply demo_table_ok|reflexivity| |].
  - exists m, ip, (with_inodes l s'). split; [exact E|exact H1].
  - destruct (Hfull 1%nat _ eq_refl) as [Hr _]. discriminate Hr.
Defined.

Lemma dirlink_adds_name_witness :
  exists m s', mkfs_main demo_args mkfs_start = Ok tt m /\ @dirlink 5%nat memide no_dev 0 (bytes "dog") 3 (boot m (demo_table m)) = Ok 0 s'.
Proof.
  destruct (mkfs_main_ok demo_args demo_fits) as (m & E & _). destruct (demo_dir m E) as (Hi & Hm & Hd & Hx & Hz & Hfree & Hsz & He).
  set (s := boot m (demo_table m)) in *. destruct (boot_fields m (demo_table m)) as (Es & Et & El & _). fold s in Es, Et, El.
  destruct (@dirlink_adds_name 5%nat memide memide_laws no_dev 0 fs_cpu 0 fs_proc 0 (demo_file m 1) (bytes "dog") 3 [] s Hi Hm) as (x' & bl' & s' & H & _).
  - rewrite Es. split; [reflexivity|discriminate].
  - exact Hz.
  - exact Hfree.
  - rewrite El. reflexivity.
  - exact Hd.
  - exact Hx.
  - rewrite Hsz. discriminate.
  - split; reflexivity.
  - unfold find_entry, nentries. rewrite Hsz. rewrite (find_ext _ (fun j => matches (bytes "dog") (take 16 (drop (Z.to_nat (16 * j)) demo_root)))); [reflexivity|].
    intros j Hj%elem_of_zrange. rewrite He; [reflexivity|exact Hj].
  - exists m, s'. split; [exact E|exact H].
Defined.

