(* ===== verification/Namei.v ===== *)
(** * Path resolution (fs.c: namex, namei, nameiparent)

    The tree of directories as a function of the blocks of the disk, and the walk of
    [namex] through it: from element to element with one inode locked at a time, inodes
    read into the cache when they are not there, and references counted. *)

From stdpp Require Import gmap.
From S2P Require Import Prelude Outcome Kernel Spinlock Proc Sleeplock Bio Log Txn Edit Inode Alloc Icache Fs Path File Content ReadWrite Fileio Dir Mkfs Image.
Local Open Scope Z_scope.

(** ** The tree on the disk *)

(** Inode [inum] as it is on the disk. *)
Definition dnode (s : kstate) (inum : Z) : inode :=
  get_dinode (view s (IBLOCK inum (k_sb s))) (dinode_off inum) (mkInode 1 inum 0 0 0 0 0 0 0 []).

Definition is_dir (s : kstate) (inum : Z) : bool := i_type (dnode s inum) =? T_DIR.

(** The inode that a name stands for in directory [inum]. *)
Definition lookup_name (s : kstate) (inum : Z) (name : list Z) : option Z :=
  if is_dir s inum then
    (fun j => de_inum (entry (dnode s inum) s j)) <$> find_entry name (dnode s inum) s
  else None.

(** The inode that a list of path elements leads to; names end after [DIRSIZ] characters. *)
Fixpoint resolve (s : kstate) (inum : Z) (es : list (list Z)) : option Z :=
  match es with
  | [] => Some inum
  | e :: es => match lookup_name s inum (take DIRSIZ e) with
               | Some i => resolve s i es
               | None => None
               end
  end.

(** The directory that has the last element. *)
Definition resolve_parent (s : kstate) (inum : Z) (es : list (list Z)) : option Z :=
  match es with
  | [] => None
  | _ => match resolve s inum (removelast es) with
         | Some i => if is_dir s i then Some i else None
         | None => None
         end
  end.

Definition target (parent : bool) (s : kstate) (inum : Z) (es : list (list Z)) : option Z :=
  if parent then resolve_parent s inum es else resolve s inum es.

Lemma target_step parent s inum e es :
  is_dir s inum = true -> (parent && bool_decide (es = [])) = false ->
  target parent s inum (e :: es) =
  match lookup_name s inum (take DIRSIZ e) with Some i => target parent s i es | None => None end.
Proof.
  intros Hd Hp. destruct parent; cbn [target]; [|done]. destruct es as [|e' es]; [done|]. cbn [resolve_parent].
  change (removelast (e :: e' :: es)) with (e :: removelast (e' :: es)). cbn [resolve].
  by destruct (lookup_name s inum (take DIRSIZ e)).
Qed.

Lemma target_file parent s inum e es : is_dir s inum = false -> target parent s inum (e :: es) = None.
Proof.
  intros Hd. assert (Hl : forall n, lookup_name s inum n = None) by (intros n; unfold lookup_name; by rewrite Hd).
  destruct parent; cbn [target resolve]; [|by rewrite Hl]. destruct es as [|e' es]; cbn [resolve_parent].
  - cbn. by rewrite Hd.
  - change (removelast (e :: e' :: es)) with (e :: removelast (e' :: es)). cbn [resolve]. by rewrite Hl.
Qed.

(** Names are compared up to their end. *)
Lemma strncmp_cstr n a t : strncmp n (cstr a) t = strncmp n a t.
Proof.
  revert a t. induction n as [|n IH]; intros a t; [done|]. cbn [strncmp]. destruct a as [|b a]; [done|]. cbn [cstr].
  destruct (Z.eqb_spec b 0) as [->|Hb]; [done|]. cbn [hd tl]. by rewrite IH.
Qed.

Lemma find_entry_name e name x s : 0 ∉ e -> find_entry (name_of e name) x s = find_entry (take DIRSIZ e) x s.
Proof.
  intros He. unfold find_entry. apply find_ext. intros j _. unfold matches, namecmp. f_equal.
  rewrite <- (strncmp_cstr _ (name_of e name)), name_of_string, <- (strncmp_cstr _ (take DIRSIZ e)) by done.
  rewrite cstr_id; [by rewrite <- strncmp_cstr, cstr_id by (intros Hin; by apply He, (subseteq_take DIRSIZ))|].
  intros Hin. by apply He, (subseteq_take DIRSIZ).
Qed.

(** ** An inode of the cache and its copy on the disk *)

Definition agrees (x : inode) (s : kstate) : Prop :=
  get_dinode (view s (iblock x s)) (dinode_off (i_inum x)) x = x.

Lemma agrees_fields x inum s :
  agrees x s -> i_inum x = inum -> let y := dnode s inum in
  i_type x = i_type y /\ i_major x = i_major y /\ i_minor x = i_minor y /\ i_nlink x = i_nlink y /\ i_size x = i_size y /\ i_addrs x = i_addrs y.
Proof.
  intros Ha <-. unfold agrees, iblock in Ha. unfold dnode. cbv zeta. destruct x. simpl in Ha |- *.
  injection Ha. intros. by split_and!.
Qed.

Lemma get_dinode_idem v o x : get_dinode v o (get_dinode v o x) = get_dinode v o x.
Proof. done. Qed.

Lemma agrees_ref x r s : agrees x s -> agrees (x <| i_ref := r |>) s.
Proof. unfold agrees. intros H. exact (f_equal (fun y => y <| i_ref := r |>) H). Qed.

Lemma find_entry_alike name x y s : i_size x = i_size y -> i_addrs x = i_addrs y -> find_entry name x s = find_entry name y s.
Proof. destruct x, y. cbn. by intros -> ->. Qed.

Lemma entry_alike x y s j : i_addrs x = i_addrs y -> entry x s j = entry y s j.
Proof. destruct x, y. cbn. by intros ->. Qed.

Lemma dir_inv_agrees x inum s : agrees x s -> i_dev x = 1 -> i_inum x = inum -> dir_inv (dnode s inum) s -> dir_inv x s.
Proof.
  intros Ha Hd Hi HD. destruct (agrees_fields x inum s Ha Hi) as (E1 & E2 & E3 & E4 & E5 & E6).
  destruct HD as [[[A1 A2 A3 A4 A5 A6] F2 F3 F4 [T1 T2 T3 T4 T5 T6 T7] F6 F7 F8] Ht Hw].
  set (y := dnode s inum) in *. assert (Ey : iblock x s = iblock y s) by (unfold iblock, y; by rewrite Hi).
  assert (Eb : forall bn, baddr x s bn = baddr y s bn) by (intros bn; unfold baddr, ind; by rewrite E6).
  assert (En : ind x = ind y) by (unfold ind; by rewrite E6).
  split; [split|congruence|congruence]; rewrite ?Ey; try congruence.
  - split; try congruence; try setoid_rewrite Eb; rewrite ?En; done.
  - intros bn. rewrite E5, Eb. apply F4.
  - split; congruence || by rewrite ?E1, ?E2, ?E3, ?E4, ?E5, ?E6.
  - unfold of_file. setoid_rewrite Eb. by rewrite En.
Qed.

(** ** Steps that leave the tree alone *)

(** The blocks, the disk, the log and the open files are as before. *)
Record still (s s' : kstate) : Prop := {
  sl_sb : k_sb s' = k_sb s;
  sl_disk : k_disk s' = k_disk s;
  sl_log : k_log s' = k_log s;
  sl_files : k_files s' = k_files s;
  sl_view b : view s' b = view s b;
  sl_procs : woken (k_procs s) (k_procs s') }.

#[global] Instance still_preorder : PreOrder still.
Proof.
  split; [by intros s; split; try apply woken_refl|]. intros s1 s2 s3 [A1 A2 A3 A4 A5 A6] [B1 B2 B3 B4 B5 B6].
  split; try congruence. by etrans.
Qed.

Lemma calm_still s s' : calm s s' -> still s s'.
Proof.
  intros [S F D]. pose proof (bio_rest _ _ F) as (R1 & R2 & R3 & R4 & R5).
  split; [done|by apply fs_frame_disk, S|by apply bio_frame_log|done|apply S|done].
Qed.

Lemma aside_still s s' : aside s s' -> k_files s' = k_files s -> still s s'.
Proof. intros H Hf. pose proof (fun b => aside_view s s' b H) as Hv. destruct H. by split. Qed.

Section Still.
Context (s s' : kstate) (HS : still s s').

Lemma still_same : same_fs s s'.
Proof using HS. destruct HS as [A1 A2 A3 A4 A5 A6]. split; [done|by rewrite A3|by rewrite A2|]. intros b _. apply A5. Qed.

Lemma still_dnode inum : dnode s' inum = dnode s inum.
Proof using HS. unfold dnode. by rewrite (sl_sb _ _ HS), (sl_view _ _ HS). Qed.

Lemma still_is_dir inum : is_dir s' inum = is_dir s inum.
Proof using HS. unfold is_dir. by rewrite still_dnode. Qed.

Lemma still_entry x j : entry x s' j = entry x s j.
Proof using HS.
  unfold entry, slice. apply map_ext. intros k. unfold fbyte. rewrite (baddr_same x s s'); [|intros _]; by rewrite (sl_view _ _ HS).
Qed.

Lemma still_lookup inum name : lookup_name s' inum name = lookup_name s inum name.
Proof using HS.
  unfold lookup_name. rewrite still_is_dir, still_dnode. destruct (is_dir s inum); [|done].
  unfold find_entry. rewrite (find_ext _ (fun j => matches name (entry (dnode s inum) s j))) by (intros; by rewrite still_entry).
  destruct (List.find _ _); [|done]. cbn. by rewrite still_entry.
Qed.

Lemma still_resolve inum es : resolve s' inum es = resolve s inum es.
Proof using HS. revert inum. induction es as [|e es IH]; intros inum; [done|]. cbn [resolve]. rewrite still_lookup. by destruct (lookup_name _ _ _). Qed.

Lemma still_target parent inum es : target parent s' inum es = target parent s inum es.
Proof using HS.
  unfold target, resolve_parent. rewrite !still_resolve. destruct parent, es; try done. destruct (resolve _ _ _); [|done]. by rewrite still_is_dir.
Qed.

Lemma still_agrees x : agrees x s' <-> agrees x s.
Proof using HS. unfold agrees, iblock. by rewrite (sl_sb _ _ HS), (sl_view _ _ HS). Qed.
End Still.

(** ** A tree *)

(** The inodes [T] are a tree, or a forest: each is on the disk with a type and a link,
    each directory is in order, and its names lead to inodes of [T]. *)
Record tree (T : Z -> Prop) (s : kstate) : Prop := {
  tr_block i : T i -> 0 <= IBLOCK i (k_sb s) < d_size (k_disk s);
  tr_type i : T i -> i_type (dnode s i) <> 0;
  tr_link i : T i -> i_nlink (dnode s i) <> 0;
  tr_dir i : T i -> is_dir s i = true -> dir_inv (dnode s i) s;
  tr_closed i name j : T i -> lookup_name s i name = Some j -> T j }.

Lemma still_tree T s s' : still s s' -> map_ok [] s -> tree T s -> tree T s'.
Proof.
  intros HS Hm [A1 A2 A3 A4 A5]. split; intros i; rewrite ?(sl_sb _ _ HS), ?(sl_disk _ _ HS), ?(still_dnode s s' HS), ?(still_is_dir s s' HS); auto.
  - intros HT Hd. destruct (A4 i HT Hd) as [D1 D2 D3]. split; [|done|done]. by apply (same_file_inv s s' (still_same s s' HS) Hm).
  - intros name j HT. rewrite (still_lookup s s' HS). by apply A5.
Qed.

(** The entries of the ledger cannot fill the cache when they are too few. *)
Lemma table_room A l : table_ok A l -> (length A < NINODE)%nat -> ~ (forall k x, l !! k = Some x -> 0 < i_ref x).
Proof.
  intros Ht Hlen Hall. assert (Hsub : seq 0 NINODE ⊆+ map fst A).
  { apply NoDup_submseteq; [apply NoDup_seq|]. intros k Hk%elem_of_seq.
    destruct (lookup_lt_is_Some_2 l k) as [x Hx]; [rewrite (tb_len _ _ Ht); lia|].
    pose proof (Hall k x Hx) as Hr. rewrite (tb_refs _ _ Ht k x Hx) in Hr. unfold holders in Hr.
    destruct (filter (fun r : nat * (Z * Z) => r.1 = k) A) as [|[k' id] f] eqn:E; [simpl in Hr; lia|].
    assert (Hin : (k', id) ∈ filter (fun r : nat * (Z * Z) => r.1 = k) A) by (rewrite E; by left).
    apply list_elem_of_filter in Hin as [Ek Hin]. cbn in Ek. subst k'. apply list_elem_of_fmap. by exists (k, id). }
  apply submseteq_length in Hsub. rewrite length_seq, length_map in Hsub. lia.
Qed.

(** ** The walk *)

Section Walk.
Context {fl : Fuel} {dsk : Disk} {laws : DiskLaws dsk} {dsw : Devsw}.
Context {ci : nat} {c : cpu} {p : nat} {pr : proc}.
Context (bl : list Z) (T : Z -> Prop).
Local Abbreviation reading := (reading (ci := ci) (c := c) (p := p) (pr := pr)).

(** The references [A] are out, and the process has locked at most the inode [held];
    the inodes of the cache that have been read are as on the disk. *)
Record walking (held : option nat) (A : list (nat * (Z * Z))) (s : kstate) : Prop := {
  wk_reading : reading bl s;
  wk_map : map_ok [] s;
  wk_tree : tree T s;
  wk_table : table_ok A (k_inodes s);
  wk_agrees k x : k_inodes s !! k = Some x -> 0 < i_ref x -> i_valid x <> 0 -> i_dev x = 1 -> agrees x s;
  wk_free k : (k < NINODE)%nat -> held <> Some k -> sl_free (SLInode k) s;
  wk_held k : held = Some k -> sl_held (SLInode k) (p_pid pr) s }.

Lemma aside_reading s s' : aside s s' -> reading bl s -> reading bl s'.
Proof using Type.
  intros [H1 H2 H3 H4 H5 H6 H7] [Hk [l [B1 B2 B3 B4 B5 B6 B7 B8]] Hd Hr]. split; [by apply (kmode_frame ci c p pr s)| | |done].
  - exists l. split; rewrite ?H3, ?H4; try done.
    + intros i y Hi Hy Hn. destruct (B6 i y Hi Hy Hn) as [G1 G2]. split; [done|]. unfold sl_free. by rewrite H7.
    + intros i Hi. by apply not_elem_of_nil in Hi.
  - intros b Hb. apply Hd. rewrite <- Hb. unfold is_dirty, slot. by rewrite H3.
Qed.

Lemma recounted_agrees l s : recounted (k_inodes s) l ->
  (forall k x, k_inodes s !! k = Some x -> 0 < i_ref x -> i_valid x <> 0 -> i_dev x = 1 -> agrees x s) ->
  forall k x, l !! k = Some x -> 0 < i_ref x -> i_valid x <> 0 -> i_dev x = 1 -> agrees x s.
Proof using Type.
  intros Hre H k x' Hx' Hr Hv Hd. destruct (Hre k x' Hx' Hr Hv) as (x & Hx & Hrx & E).
  assert (Ev : i_valid x' = i_valid x) by (by rewrite E). assert (Ed : i_dev x' = i_dev x) by (by rewrite E).
  rewrite E. apply agrees_ref, (H k x Hx Hrx); congruence.
Qed.

(** One record for all the steps of the walk: the contents stay, the rest is given. *)
Lemma walking_step held held' A A' s s' :
  walking held A s -> still s s' -> reading bl s' -> table_ok A' (k_inodes s') ->
  (forall k x, k_inodes s' !! k = Some x -> 0 < i_ref x -> i_valid x <> 0 -> i_dev x = 1 -> agrees x s) ->
  (forall k, (k < NINODE)%nat -> held' <> Some k -> sl_free (SLInode k) s') ->
  (forall k, held' = Some k -> sl_held (SLInode k) (p_pid pr) s') -> walking held' A' s'.
Proof using Type.
  intros [W1 W2 W3 W4 W5 W6 W7] HS Hr Ht Ha Hf Hh. split; [exact Hr| | |exact Ht| |exact Hf|exact Hh].
  - by apply (same_map s s' (still_same s s' HS)).
  - by apply (still_tree T s).
  - intros k x Hx Hp Hv Hd. apply (still_agrees s s' HS). by apply (Ha k).
Qed.

Lemma walking_calm held A s s' : walking held A s -> reading bl s' -> calm s s' -> walking held A s'.
Proof using Type.
  intros W Hr C. pose proof (bio_rest _ _ (ca_frame _ _ C)) as (_ & _ & Ei & _ & El). eapply (walking_step held held A A s); try done.
  - by apply calm_still. - rewrite Ei. apply W. - rewrite Ei. apply W.
  - intros k Hk Hne. unfold sl_free. rewrite (El k). by apply (wk_free _ _ _ W). - intros k Hk. unfold sl_held. rewrite (El k). by apply (wk_held _ _ _ W).
Qed.

(** A reference of the ledger. *)
Lemma walking_ref held A s ip inum :
  walking held A s -> (ip, (1, inum)) ∈ A -> exists x, k_inodes s !! ip = Some x /\ i_dev x = 1 /\ i_inum x = inum /\
    i_ref x = Z.of_nat (holders ip A) /\ 1 <= i_ref x /\ (ip < NINODE)%nat /\ (i_valid x <> 0 -> agrees x s).
Proof using Type.
  intros W Hin. destruct (tb_ident _ _ (wk_table _ _ _ W) ip _ Hin) as (x & Hx & [= Ed Ei]).
  pose proof (tb_refs _ _ (wk_table _ _ _ W) ip x Hx) as Hr. pose proof (holders_pos ip _ A Hin).
  assert (Hip : (ip < NINODE)%nat) by (rewrite <- (tb_len _ _ (wk_table _ _ _ W)); by eapply lookup_lt_Some).
  exists x. split_and!; try (done || lia). intros Hv. apply (wk_agrees _ _ _ W ip); done || lia.
Qed.

(** Inode [x] as it is read from the disk. *)
Definition filled (x : inode) (s : kstate) : inode :=
  get_dinode (view s (iblock x s)) (dinode_off (i_inum x)) x <| i_valid := 1 |>.

Lemma filled_agrees x s : agrees (filled x s) s.
Proof using Type.
  unfold agrees, filled, iblock. simpl. generalize (view s (IBLOCK (i_inum x) (k_sb s))). intros v. unfold get_dinode. reflexivity.
Qed.

Lemma aside_inodes l s : aside s (with_inodes l s).
Proof using Type. split; try done; apply woken_refl. Qed.

Definition locked_inode (ip : nat) (s : kstate) : kstate := s <| k_slocks ::= <[SLInode ip := mkSleeplock 1 (p_pid pr)]> |>.

Lemma ilock_reads ip x s :
  reading bl s -> (ip < NINODE)%nat -> k_inodes s !! ip = Some x -> 1 <= i_ref x -> i_valid x = 0 -> i_dev x = 1 ->
  sl_free (SLInode ip) s -> 0 <= iblock x s < d_size (k_disk s) -> i_type (filled x s) <> 0 ->
  exists s', ilock (Some ip) s = Ok tt s' /\ reading bl s' /\ still s s' /\ inode_locks (locked_inode ip s) s' /\
    k_inodes s' = <[ip := filled x s]> (k_inodes s).
Proof using laws.
  intros Hr Hip Hx Hr1 Hv Hd Hf Hb Hty. pose proof (rg_kmode _ _ Hr) as Hk.
  unfold ilock. mstep by (by apply inode_get_ok). rewrite (proj2 (Z.ltb_ge _ _)) by done.
  mstep by (by apply (acquiresleep_free (SLInode ip) (fs_lock_inode ip Hip) s Hk)). fold (locked_inode ip s). set (s1 := locked_inode ip s).
  pose proof (aside_ilock ip (mkSleeplock 1 (p_pid pr)) s) as A1. fold (locked_inode ip s) in A1. fold s1 in A1.
  mstep by (by apply inode_get_ok). rewrite Hv, Hd. cbn [Z.eqb when]. mstep.
  set (x1 := get_dinode (view s (iblock x s)) (dinode_off (i_inum x)) x).
  destruct (read_block_with (<[ip := x1]>) bl (iblock x s) s1 (aside_reading s s1 A1 Hr) Hb) as (i & d & s2 & s3 & H2 & Hbd & Hdat & E2 & H3 & Hr3 & C3).
  change (IBLOCK (i_inum x) (k_sb s1)) with (iblock x s). mstep with (H2). mstep by (by apply buf_get_ok).
  mstep by (apply (inode_upd_ok ip x); rewrite E2; exact Hx).
  assert (E3 : s2 <| k_inodes ::= <[ip := get_dinode (b_data d) (dinode_off (i_inum x)) x]> |> = with_inodes (<[ip := x1]> (k_inodes s1)) s2).
  { unfold with_inodes, set. rewrite Hdat, <- E2. reflexivity. }
  rewrite E3. mstep with (H3). pose proof (bio_rest _ _ (ca_frame _ _ C3)) as (_ & _ & Ei & _ & El). change (k_inodes s3 = <[ip := x1]> (k_inodes s)) in Ei.
  assert (Hlt : (ip < length (k_inodes s))%nat) by (by eapply lookup_lt_Some).
  assert (Hx3 : k_inodes s3 !! ip = Some x1) by (rewrite Ei; by apply list_lookup_insert_eq).
  mstep by (by apply (inode_upd_ok ip x1)). set (s4 := s3 <| k_inodes ::= <[ip := x1 <| i_valid := 1 |>]> |>).
  assert (E4 : k_inodes s4 = <[ip := filled x s]> (k_inodes s)).
  { change (<[ip := filled x s]> (k_inodes s3) = <[ip := filled x s]> (k_inodes s)). by rewrite Ei, list_insert_insert_eq. }
  mstep by (apply (inode_get_ok ip (filled x s)); rewrite E4; by apply list_lookup_insert_eq). rewrite (proj2 (Z.eqb_neq _ _) Hty). cbn [when].
  pose proof (aside_inodes (<[ip := filled x s]> (k_inodes s3)) s3) as A4.
  exists s4. split; [reflexivity|]. split; [by apply (aside_reading s3)|]. split; [|split; [exact El|exact E4]].
  etrans; [by apply aside_still|]. etrans; [apply (aside_still s1 (with_inodes (<[ip := x1]> (k_inodes s)) s1)); [apply aside_inodes|reflexivity]|].
  etrans; [exact (calm_still _ _ C3)|]. by apply aside_still.
Qed.

Lemma locked_frame ip s s' : (forall k, (k < NINODE)%nat -> sl_free (SLInode k) s) -> inode_locks (locked_inode ip s) s' ->
  (forall k, (k < NINODE)%nat -> Some ip <> Some k -> sl_free (SLInode k) s') /\ (forall k, Some ip = Some k -> sl_held (SLInode k) (p_pid pr) s').
Proof using Type.
  intros Hf Hs'. split.
  - intros k Hk Hne. unfold sl_free. rewrite (Hs' k). unfold locked_inode. rsimpl. rewrite lookup_insert_ne by congruence. by apply Hf.
  - intros k [= <-]. exists (mkSleeplock 1 (p_pid pr)). rewrite (Hs' ip). unfold locked_inode. rsimpl. by rewrite lookup_insert_eq.
Qed.

Lemma ilock_walk A ip inum s :
  walking None A s -> (ip, (1, inum)) ∈ A -> T inum ->
  exists x s', ilock (Some ip) s = Ok tt s' /\ walking (Some ip) A s' /\ still s s' /\
    k_inodes s' !! ip = Some x /\ i_dev x = 1 /\ i_inum x = inum /\ agrees x s.
Proof using laws.
  intros W Hin HT. destruct (walking_ref None A s ip inum W Hin) as (x & Hx & Hd & Hi & Hr & Hr1 & Hip & Hag).
  pose proof (wk_reading _ _ _ W) as Hrd. pose proof (rg_kmode _ _ Hrd) as Hk. pose proof (fun k H => wk_free _ _ _ W k H ltac:(done)) as Hfree.
  destruct (decide (i_valid x = 0)) as [Hv|Hv].
  - destruct (ilock_reads ip x s Hrd Hip Hx Hr1 Hv Hd (Hfree ip Hip)) as (s' & H1 & Hr' & St & Hl & E).
    { unfold iblock. rewrite Hi. exact (tr_block _ _ (wk_tree _ _ _ W) inum HT). }
    { pose proof (tr_type _ _ (wk_tree _ _ _ W) inum HT) as Hty. rewrite <- Hi in Hty. exact Hty. }
    destruct (locked_frame ip s s' Hfree Hl) as [L1 L2]. assert (Hlt : (ip < length (k_inodes s))%nat) by (by eapply lookup_lt_Some).
    exists (filled x s), s'. split; [exact H1|]. split; [|split; [exact St|split; [rewrite E; by apply list_lookup_insert_eq|]]].
    2: { split; [exact Hd|split; [exact Hi|apply filled_agrees]]. }
    apply (walking_step None (Some ip) A A s s' W St Hr'); [| |exact L1|exact L2]; rewrite E.
    + set (v := view s (iblock x s)). set (o := dinode_off (i_inum x)).
      pose proof (alter_inode (k_inodes s) ip x (fun y => get_dinode v o y <| i_valid := 1 |>) Hx) as Ea.
      change (filled x s) with (get_dinode v o x <| i_valid := 1 |>). rewrite <- Ea. apply table_data; [done|apply W].
    + intros k y Hy Hp Hvy Hdy. destruct (decide (k = ip)) as [->|Hne].
      * rewrite list_lookup_insert_eq in Hy by done. injection Hy as <-. apply filled_agrees.
      * rewrite list_lookup_insert_ne in Hy by done. by apply (wk_agrees _ _ _ W k).
  - exists x, (locked_inode ip s). pose proof (aside_ilock ip (mkSleeplock 1 (p_pid pr)) s) as A1. fold (locked_inode ip s) in A1.
    destruct (locked_frame ip s (locked_inode ip s) Hfree) as [L1 L2]; [by intros k|].
    assert (St1 : still s (locked_inode ip s)) by (by apply aside_still).
    split; [exact (ilock_valid ip x s Hk Hip Hx Hr1 Hv (Hfree ip Hip))|].
    split; [|split; [exact St1|split; [exact Hx|split; [exact Hd|split; [exact Hi|exact (Hag Hv)]]]]].
    apply (walking_step None (Some ip) A A s _ W St1 (aside_reading _ _ A1 Hrd)); [apply W|apply W|exact L1|exact L2].
Qed.
Lemma walking_table held A A' l s :
  walking held A s -> table_ok A' l -> recounted (k_inodes s) l -> walking held A' (with_inodes l s) /\ still s (with_inodes l s).
Proof using Type.
  intros W Ht Hre. pose proof (aside_inodes l s) as Ha. assert (St : still s (with_inodes l s)) by (by apply aside_still). split; [|exact St].
  apply (walking_step held held A A' s _ W St (aside_reading _ _ Ha (wk_reading _ _ _ W)) Ht); [|apply W|apply W].
  apply (recounted_agrees l s Hre), W.
Qed.

Lemma iget_walk held A inum s :
  walking held A s -> (length A < NINODE)%nat ->
  exists ip s', iget 1 inum s = Ok ip s' /\ walking held ((ip, (1, inum)) :: A) s' /\ still s s'.
Proof using Type.
  intros W HA. pose proof (wk_table _ _ _ W) as Ht.
  destruct (iget_cases 1 inum A s (rg_kmode _ _ (wk_reading _ _ _ W)) Ht) as [(ip & l & E & Hl & Hre)|[_ Hfull]]; [unfold NINODE in HA; lia| |].
  - exists ip, (with_inodes l s). destruct (walking_table held A _ l s W Hl Hre) as [W' St]. by split_and!.
  - destruct (table_room A _ Ht HA). intros k x Hx. by destruct (Hfull k x Hx).
Qed.

Lemma dirlookup_walk dp A inum x e name s :
  walking (Some dp) A s -> (length A < NINODE)%nat -> T inum -> is_dir s inum = true -> 0 ∉ e ->
  k_inodes s !! dp = Some x -> i_dev x = 1 -> i_inum x = inum -> agrees x s ->
  match lookup_name s inum (take DIRSIZ e) with
  | None => exists s', dirlookup dp (name_of e name) s = Ok None s' /\ walking (Some dp) A s' /\ still s s'
  | Some i => exists ip off s', dirlookup dp (name_of e name) s = Ok (Some (ip, off)) s' /\
                walking (Some dp) ((ip, (1, i)) :: A) s' /\ still s s'
  end.
Proof using laws.
  intros W HA HT Hdir He Hx Hd Hi Ha. destruct (agrees_fields x inum s Ha Hi) as (_ & _ & _ & _ & E5 & E6).
  pose proof (dir_inv_agrees x inum s Ha Hd Hi (tr_dir _ _ (wk_tree _ _ _ W) inum HT Hdir)) as HD.
  destruct (dirlookup_ok bl dp x (name_of e name) s (wk_reading _ _ _ W) (wk_map _ _ _ W) HD Hx) as (s' & Hr' & C & E).
  pose proof (walking_calm _ _ _ _ W Hr' C) as W'. pose proof (calm_still _ _ C) as St.
  unfold lookup_name. rewrite Hdir, <- (find_entry_alike (take DIRSIZ e) x (dnode s inum) s E5 E6). rewrite find_entry_name in E by done.
  destruct (find_entry (take DIRSIZ e) x s) as [j|]; cbn [fmap option_fmap option_map]; [|by exists s'].
  rewrite <- (entry_alike x (dnode s inum) s j E6). rewrite Hd in E.
  destruct (iget_walk (Some dp) A (de_inum (entry x s j)) s' W' HA) as (ip & s2 & E2 & W2 & St2).
  exists ip, (16 * j), s2. rewrite E. mstep with (E2). split; [reflexivity|]. split; [exact W2|]. by etrans.
Qed.

Lemma iunlock_walk A ip inum s :
  walking (Some ip) A s -> (ip, (1, inum)) ∈ A ->
  exists s', iunlock (Some ip) s = Ok tt s' /\ walking None A s' /\ still s s'.
Proof using Type.
  intros W Hin. destruct (walking_ref _ A s ip inum W Hin) as (x & Hx & _ & _ & _ & Hr & Hip & _).
  pose proof (aside_iunlock ip s) as Ha. assert (St : still s (unlocked_inode ip s)) by (by apply aside_still).
  exists (unlocked_inode ip s). split_and!; [|apply (walking_step (Some ip) None A A s _ W St (aside_reading _ _ Ha (wk_reading _ _ _ W)))|exact St].
  - by apply (iunlock_held ip x s (rg_kmode _ _ (wk_reading _ _ _ W)) Hip Hx Hr), (wk_held _ _ _ W).
  - apply W. - apply W.
  - intros k Hk _. unfold sl_free, unlocked_inode. rsimpl. destruct (decide (k = ip)) as [->|Hne]; [by rewrite lookup_insert_eq|].
    rewrite lookup_insert_ne by congruence. apply (wk_free _ _ _ W); congruence.
  - done.
Qed.

Lemma iput_walk A B ip inum s :
  walking None (B ++ (ip, (1, inum)) :: A) s -> T inum -> Z.of_nat (length (B ++ (ip, (1, inum)) :: A)) < 2147483648 ->
  exists s', iput ip s = Ok tt s' /\ walking None (B ++ A) s' /\ still s s'.
Proof using Type.
  intros W HT Hlen. set (L := B ++ (ip, (1, inum)) :: A) in *.
  destruct (walking_ref _ L s ip inum W) as (x & Hx & _ & Hi & Hr & Hr1 & Hip & Hag); [apply elem_of_app; right; by left|].
  pose proof (holders_le ip L) as Hle. pose proof (wk_free _ _ _ W ip Hip ltac:(done)) as Hf.
  assert (Hst : stays x).
  { destruct (decide (i_valid x = 0)) as [Hv|Hv]; [by left|right; left]. destruct (agrees_fields x inum s (Hag Hv) Hi) as (_ & _ & _ & -> & _).
    by apply (tr_link _ _ (wk_tree _ _ _ W)). }
  pose proof (iput_ok ip x s (rg_kmode _ _ (wk_reading _ _ _ W)) Hip Hf Hx Hst ltac:(lia)) as E. eexists. split; [exact E|].
  set (l := <[ip := x <| i_ref ::= fun r => r - 1 |>]> (k_inodes s)).
  destruct (walking_table None L (B ++ A) l s W) as [W1 St1]; [by apply (table_less B A _ _ _ (1, inum)); [apply W|]|apply recounted_count; [done|lia]|].
  pose proof (aside_iunlock ip (with_inodes l s)) as Ha. assert (St : still (with_inodes l s) (unlocked_inode ip (with_inodes l s))) by (by apply aside_still).
  change (with_inodes l s <| k_slocks ::= _ |> <| k_procs ::= _ |>) with (unlocked_inode ip (with_inodes l s)).
  split; [|by etrans]. apply (walking_step None None (B ++ A) (B ++ A) (with_inodes l s) _ W1 St (aside_reading _ _ Ha (wk_reading _ _ _ W1))); [apply W1|apply W1| |done].
  intros k Hk _. unfold sl_free, unlocked_inode. rsimpl. destruct (decide (k = ip)) as [->|Hne]; [by rewrite lookup_insert_eq|].
  rewrite lookup_insert_ne by congruence. by apply (wk_free _ _ _ W1).
Qed.

Lemma iunlockput_walk A B ip inum s :
  walking (Some ip) (B ++ (ip, (1, inum)) :: A) s -> T inum -> Z.of_nat (length (B ++ (ip, (1, inum)) :: A)) < 2147483648 ->
  exists s', iunlockput ip s = Ok tt s' /\ walking None (B ++ A) s' /\ still s s'.
Proof using Type.
  intros W HT Hlen. destruct (iunlock_walk _ ip inum s W) as (s1 & E1 & W1 & S1); [apply elem_of_app; right; by left|].
  destruct (iput_walk A B ip inum s1 W1 HT Hlen) as (s2 & E2 & W2 & S2). exists s2. unfold iunlockput. mstep with (E1).
  split; [exact E2|]. split; [exact W2|]. by etrans.
Qed.

(** What [namex] returns: a new reference to the inode that the path leads to, and no
    other reference; for a parent also the last element. *)
Definition arrives (parent : bool) (inum : Z) (es : list (list Z)) (A : list (nat * (Z * Z))) (r : option nat) (name : list Z) (s s' : kstate) : Prop :=
  still s s' /\
  match target parent s inum es with
  | None => r = None /\ walking None A s'
  | Some i => T i /\ exists ip, r = Some ip /\ walking None ((ip, (1, i)) :: A) s' /\ (parent = true -> cstr name = take DIRSIZ (List.last es []))
  end.

Lemma small_table (A : list (nat * (Z * Z))) n : (length A <= n + NINODE)%nat -> (n <= 10)%nat -> Z.of_nat (length A) < 2147483648.
Proof using Type. unfold NINODE. lia. Qed.

Lemma namex_end k parent ip inum path name A s :
  walking None ((ip, (1, inum)) :: A) s -> T inum -> (length A + 2 <= NINODE)%nat -> elements path = [] ->
  exists r name' s', namex_loop k ip path parent name s = Ok (r, name') s' /\ arrives parent inum [] A r name' s s'.
Proof using Type.
  intros W HT HA He. pose proof (skipelem_ok path name) as Hs. rewrite He in Hs.
  assert (E : namex_loop k ip path parent name s = (if parent then iput ip;; ret (None, name) else ret (Some ip, name)) s) by (destruct k; cbn [namex_loop]; by rewrite Hs).
  rewrite E. destruct parent.
  - destruct (iput_walk A [] ip inum s W HT) as (s' & E' & W' & St); [apply (small_table _ 0); simpl; lia|]. exists None, name, s'. mstep with (E'). by split_and!.
  - exists (Some ip), name, s. split; [done|]. split; [reflexivity|]. split; [exact HT|]. exists ip. by split_and!.
Qed.

Lemma namex_loop_ok k : forall parent ip inum path name A s,
  walking None ((ip, (1, inum)) :: A) s -> T inum -> (length A + 2 <= NINODE)%nat -> (length path <= k)%nat ->
  exists r name' s', namex_loop k ip path parent name s = Ok (r, name') s' /\ arrives parent inum (elements path) A r name' s s'.
Proof using laws.
  induction k as [|k IH]; intros parent ip inum path name A s W HT HA Hk; [by destruct path; [apply namex_end|simpl in Hk; lia]|].
  pose proof (skipelem_ok path name) as Hs. destruct (elements path) as [|e es] eqn:Ee; [by apply namex_end|].
  destruct Hs as (rest & Hs & H0 & Hes & Hlen & _ & Hend). cbn [namex_loop]. rewrite Hs.
  destruct (ilock_walk _ ip inum s W) as (x & s1 & E1 & W1 & S1 & Hx & Hd & Hi & Ha); [by left|done|]. mstep with (E1). mstep by (by apply inode_get_ok).
  destruct (agrees_fields x inum s Ha Hi) as (Et & _). rewrite Et. fold (is_dir s inum). destruct (is_dir s inum) eqn:Edir; cbn [negb].
  2: { destruct (iunlockput_walk A [] ip inum s1 W1 HT) as (s2 & E2 & W2 & S2); [apply (small_table _ 0); simpl; lia|].
       exists None, (name_of e name), s2. mstep with (E2). split; [done|]. split; [by etrans|]. by rewrite target_file. }
  assert (Ehd : (hd 0 rest =? 0) = bool_decide (es = [])) by (destruct (Z.eqb_spec (hd 0 rest) 0); case_bool_decide; tauto).
  rewrite Ehd. destruct (parent && bool_decide (es = [])) eqn:Ep.
  { apply andb_prop in Ep as [-> ->%bool_decide_eq_true]. destruct (iunlock_walk _ ip inum s1 W1) as (s2 & E2 & W2 & S2); [by left|].
    exists (Some ip), (name_of e name), s2. mstep with (E2). split; [done|]. split; [by etrans|]. cbn [target resolve_parent removelast resolve]. rewrite Edir.
    split; [done|]. exists ip. split_and!; [done|done|]. intros _. by apply name_of_string. }
  pose proof (dirlookup_walk ip _ inum x e name s1 W1 ltac:(simpl; lia) HT) as Hl. rewrite (still_is_dir s s1 S1), (still_lookup s s1 S1), (still_agrees s s1 S1) in Hl.
  specialize (Hl Edir H0 Hx Hd Hi Ha). unfold arrives. rewrite (target_step parent s inum e es Edir Ep). destruct (lookup_name s inum (take DIRSIZ e)) as [i|] eqn:El.
  - destruct Hl as (next & off & s2 & E2 & W2 & S2). mstep with (E2).
    destruct (iunlockput_walk A [(next, (1, i))] ip inum s2 W2 HT) as (s3 & E3 & W3 & S3); [apply (small_table _ 0); simpl; lia|]. mstep with (E3).
    destruct (IH parent next i rest (name_of e name) A s3 W3) as (r & name' & s4 & E4 & S4 & H4); [by apply (tr_closed _ _ (wk_tree _ _ _ W) inum (take DIRSIZ e))|done|lia|].
    assert (S13 : still s s3) by (etrans; [exact S1|]; by etrans). exists r, name', s4. split; [exact E4|]. split; [by etrans|].
    rewrite (still_target s s3 S13), Hes in H4. destruct (target parent s i es); [|done]. destruct H4 as (HT' & ip' & Er & W4 & Hn). split; [done|]. exists ip'.
    split_and!; [done|done|]. intros ->. rewrite (Hn eq_refl). by destruct es.
  - destruct Hl as (s2 & E2 & W2 & S2). mstep with (E2). destruct (iunlockput_walk A [] ip inum s2 W2 HT) as (s3 & E3 & W3 & S3); [apply (small_table _ 0); simpl; lia|].
    mstep with (E3). exists None, (name_of e name), s3. split; [done|]. split; [|done]. etrans; [exact S1|]. by etrans.
Qed.
End Walk.

Section Namex.
Context {fl : Fuel} {dsk : Disk} {laws : DiskLaws dsk} {dsw : Devsw}.
Context {ci : nat} {c : cpu} {p : nat} {pr : proc}.
Context (bl : list Z) (T : Z -> Prop).
Local Abbreviation walking := (walking (ci := ci) (c := c) (p := p) (pr := pr) bl T).

(** Where a path starts: at the root, or in the current directory of the process, to
    which it holds a reference. *)
Definition starts_at (path : list Z) (A : list (nat * (Z * Z))) (inum : Z) : Prop :=
  if hd 0 path =? slash then inum = ROOTINO else exists cwd, p_cwd pr = Some cwd /\ (cwd, (1, inum)) ∈ A.

Lemma idup_walk held A ip inum s :
  walking held A s -> (length A < NINODE)%nat -> (ip, (1, inum)) ∈ A ->
  exists s', idup ip s = Ok ip s' /\ walking held ((ip, (1, inum)) :: A) s' /\ still s s'.
Proof using Type.
  intros W HA Hin. destruct (idup_ok ip (1, inum) A s (rg_kmode _ _ (wk_reading _ _ _ _ _ W)) (wk_table _ _ _ _ _ W)) as (l & E & Ht & Hre); [unfold NINODE in HA; lia|done|].
  exists (with_inodes l s). destruct (walking_table bl T held A _ l s W Ht Hre) as [W' St]. by split_and!.
Qed.

Lemma namex_ok parent path name A inum s :
  walking None A s -> starts_at path A inum -> T inum -> (length A + 2 <= NINODE)%nat ->
  exists r name' s', namex path parent name s = Ok (r, name') s' /\ arrives (ci := ci) (c := c) (p := p) (pr := pr) bl T parent inum (elements path) A r name' s s'.
Proof using laws.
  intros W Hst HT HA. unfold namex, starts_at in *.
  assert (Hip : exists ip s1, (if hd 0 path =? slash then iget ROOTDEV ROOTINO
        else mp ← myproc; mp ← deref mp; pr ← proc_get mp; cwd ← deref (p_cwd pr); idup cwd) s = Ok ip s1 /\
      walking None ((ip, (1, inum)) :: A) s1 /\ still s s1).
  { destruct (hd 0 path =? slash); [subst inum; apply iget_walk; [done|lia]|]. destruct Hst as (cwd & Hcwd & Hin).
    destruct (idup_walk None A cwd inum s W ltac:(lia) Hin) as (s1 & E1 & W1 & S1). exists cwd, s1. split; [|done].
    pose proof (rg_kmode _ _ (wk_reading _ _ _ _ _ W)) as Hk. pose proof Hk as [K1 K2 K3 K4 K5 K6 K7]. pose proof (kmode_touched (i := ci) (c := c) (p := p) (pr := pr) s Hk) as Ht.
    mstep by (rewrite (kmyproc_ok ci c) by done; by rewrite touch_id, K4). cbn [deref]. mstep.
    unfold proc_get at 1. mstep by (mstep; rewrite K5; reflexivity). rewrite Hcwd. cbn [deref]. mstep. exact E1. }
  destruct Hip as (ip & s1 & E1 & W1 & S1). destruct (namex_loop_ok bl T (length path) parent ip inum path name A s1 W1 HT HA ltac:(lia)) as (r & name' & s2 & E2 & S2 & H2).
  exists r, name', s2. mstep with (E1). split; [exact E2|]. split; [by etrans|]. by rewrite (still_target s s1 S1) in H2.
Qed.
End Namex.

(** ** The tree of a new image *)

Section NewImage.
Context (args : list argument) (m : mkst) (s : kstate) (Hfit : mkfs_fits args) (Hm : mkfs_image args m) (Ho : on_image m s).
Context (Hmod : Z.of_nat (length (root_entries args)) mod BSIZE <> 0).

(** The root directory, and a file for each argument. *)
Definition image_inodes (i : Z) : Prop := 1 <= i <= Z.of_nat (length args) + 1.

Local Lemma image_range i : image_inodes i -> 0 <= i < 208 /\ 32 <= IBLOCK i (k_sb s) < 58.
Proof using Hfit Hm Ho.
  unfold image_inodes. pose proof (mf_few _ Hfit) as Hfew. unfold NINODES in Hfew. intros Hi. assert (Hr : 0 <= i < 208) by lia.
  split; [done|]. rewrite (oi_sb _ _ Ho). by apply iblock_range.
Qed.

Local Lemma image_cached i : cached i (dnode s i) s.
Proof using Type.
  assert (Ei : i_inum (dnode s i) = i) by reflexivity. split; [reflexivity|exact Ei|]. unfold iblock. rewrite Ei. unfold dnode. apply get_dinode_idem.
Qed.

Local Lemma image_dnode i : image_inodes i ->
  i_type (dnode s i) = i_type (dinode (mk_img m) i) /\ i_nlink (dnode s i) = i_nlink (dinode (mk_img m) i).
Proof using Hfit Hm Ho.
  intros Hi. destruct (image_range i Hi) as [_ Hb]. unfold dnode, dinode. rewrite (oi_view _ _ Ho) by (mk_sizes; lia). by rewrite (oi_sb _ _ Ho).
Qed.

Local Lemma image_node i : image_inodes i ->
  i_nlink (dnode s i) = 1 /\ i_type (dnode s i) = (if i =? 1 then T_DIR else T_FILE).
Proof using Hfit Hm Ho.
  intros Hi. destruct (image_dnode i Hi) as [-> ->]. destruct (Z.eqb_spec i 1) as [->|Hne].
  - by destruct (mi_root _ _ Hm) as (_ & Ht & Hn & _).
  - destruct (lookup_lt_is_Some_2 args (Z.to_nat (i - 2))) as [a Ha]; [unfold image_inodes in Hi; lia|].
    destruct (mi_files _ _ Hm _ a Ha) as (_ & Ht & Hn & _). replace (Z.of_nat (Z.to_nat (i - 2)) + 2) with i in * by (unfold image_inodes in Hi; lia). done.
Qed.

Local Lemma image_is_dir i : image_inodes i -> is_dir s i = (i =? 1).
Proof using Hfit Hm Ho. intros Hi. unfold is_dir. rewrite (proj2 (image_node i Hi)). by destruct (i =? 1). Qed.

Lemma image_tree : tree image_inodes s.
Proof using Hfit Hm Ho Hmod.
  destruct (image_root args m s (dnode s 1) Hfit Hm Ho (image_cached 1) Hmod) as (Hd & _ & Hent & Hnone). split.
  - intros i Hi. destruct (image_range i Hi). rewrite (oi_size _ _ Ho). mk_sizes. lia.
  - intros i Hi. rewrite (proj2 (image_node i Hi)). by destruct (i =? 1).
  - intros i Hi. by rewrite (proj1 (image_node i Hi)).
  - intros i Hi. rewrite image_is_dir by done. by intros ->%Z.eqb_eq.
  - intros i name j Hi. unfold lookup_name. rewrite image_is_dir by done. destruct (Z.eqb_spec i 1) as [->|]; [|done].
    destruct (find_entry name (dnode s 1) s) as [k|] eqn:Ef; [|done]. intros [= <-]. apply find_zrange in Ef as (Hk & Hmt & _).
    apply andb_prop in Hmt as [Hnz%negb_true_iff%Z.eqb_neq _]. destruct (root_entry args k) as [de|] eqn:Er; [|by rewrite Hnone in Hnz].
    rewrite (Hent k de ltac:(lia) Er) in *. unfold root_entry, image_inodes in *. pose proof (mf_few _ Hfit) as Hfew. unfold NINODES in Hfew.
    destruct (Z.ltb_spec k 2); [injection Er as <-; rewrite made_inum by lia; lia|]. destruct (args !! Z.to_nat (k - 2)) as [a|] eqn:Ea; [|done].
    injection Er as <-. assert (Hlt : (Z.to_nat (k - 2) < length args)%nat) by (by eapply lookup_lt_Some). unfold argument in *. rewrite made_inum by lia. lia.
Qed.

(** The name of a file in the root directory. *)
Lemma image_lookup i a name :
  args !! i = Some a -> namecmp name (mkfs_name a.1) = 0 ->
  (forall j b, (j < i)%nat -> args !! j = Some b -> namecmp name (mkfs_name b.1) <> 0) ->
  namecmp name (bytes ".") <> 0 -> namecmp name (bytes "..") <> 0 -> lookup_name s 1 name = Some (Z.of_nat i + 2).
Proof using Hfit Hm Ho Hmod.
  intros Ha Hn Hfirst H1 H2. pose proof (mf_few _ Hfit) as Hfew. unfold NINODES in Hfew.
  destruct (image_root args m s (dnode s 1) Hfit Hm Ho (image_cached 1) Hmod) as (Hd & Hsz & Hent & _).
  unfold lookup_name. rewrite image_is_dir by (unfold image_inodes; lia). cbn [Z.eqb Pos.eqb].
  rewrite (root_find args (dnode s 1) s i a name Ha Hfew Hsz Hent Hn Hfirst H1 H2). cbn [fmap option_fmap option_map].
  assert (Hl : (i < length args)%nat) by (by eapply lookup_lt_Some). unfold argument in *.
  rewrite (Hent (Z.of_nat i + 2) _ ltac:(lia) (root_entry_arg args i a Ha)), made_inum by lia. done.
Qed.
End NewImage.

(** ** Properties *)

(** C13. Path resolution.  On a tree of directories, with two entries of the inode cache to
    spare, [namei] walks the elements of the path, from the root or from the current
    directory of the process: it returns a new reference to the inode that they lead to,
    or the null pointer when a name is missing or a file is in the way.  [nameiparent]
    returns the directory that is to hold the last element, and that element, cut to
    [DIRSIZ] characters.  In every case no other reference is left behind, no inode is
    left locked, and no block, inode of the disk or open file has changed. *)
Theorem namei_resolves {fl : Fuel} {dsk : Disk} {laws : DiskLaws dsk} {dsw : Devsw} ci c p pr bl T path A inum s :
  walking (ci := ci) (c := c) (p := p) (pr := pr) bl T None A s -> starts_at (pr := pr) path A inum -> T inum -> (length A + 2 <= NINODE)%nat ->
  (exists r s', namei path s = Ok r s' /\ still s s' /\
     match resolve s inum (elements path) with
     | Some i => exists ip, r = Some ip /\ walking (ci := ci) (c := c) (p := p) (pr := pr) bl T None ((ip, (1, i)) :: A) s'
     | None => r = None /\ walking (ci := ci) (c := c) (p := p) (pr := pr) bl T None A s'
     end) /\
  (forall name, exists r name' s', nameiparent path name s = Ok (r, name') s' /\ still s s' /\
     match resolve_parent s inum (elements path) with
     | Some i => exists ip, r = Some ip /\ walking (ci := ci) (c := c) (p := p) (pr := pr) bl T None ((ip, (1, i)) :: A) s' /\
                   cstr name' = take DIRSIZ (List.last (elements path) [])
     | None => r = None /\ walking (ci := ci) (c := c) (p := p) (pr := pr) bl T None A s'
     end).
Proof.
  intros W Hst HT HA. split.
  - destruct (namex_ok bl T false path (replicate DIRSIZ 0) A inum s W Hst HT HA) as (r & name' & s' & E & S & H). exists r, s'.
    unfold namei. mstep with (E). split; [done|]. split; [done|]. cbn [target] in H. destruct (resolve s inum (elements path)); [|done].
    destruct H as (_ & ip & Er & W' & _). by exists ip.
  - intros name. destruct (namex_ok bl T true path name A inum s W Hst HT HA) as (r & name' & s' & E & S & H). exists r, name', s'.
    split; [exact E|]. split; [done|]. cbn [target] in H. destruct (resolve_parent s inum (elements path)); [|done].
    destruct H as (_ & ip & Er & W' & Hn). exists ip. split_and!; auto.
Qed.

(** C16. From the image to the bytes of a file.  On a kernel that runs on an image that mkfs has
    built, [namei] of the name of a file in the root directory, then [ilock] and [readi],
    return the bytes of the file that mkfs was given, wherever its inode is in the cache
    and whether it has to be read from the disk. *)
Theorem image_opens_by_path args :
  mkfs_fits args -> Z.of_nat (length (root_entries args)) mod BSIZE <> 0 -> exists m, mkfs_main args mkfs_start = Ok tt m /\
  forall (fl : Fuel) (dsk : Disk) (laws : DiskLaws dsk) (dsw : Devsw) ci c p pr bl A s i a name,
    reading (ci := ci) (c := c) (p := p) (pr := pr) bl s -> on_image m s -> table_ok A (k_inodes s) -> (length A + 2 <= NINODE)%nat ->
    (forall k x, k_inodes s !! k = Some x -> 0 < i_ref x -> i_valid x <> 0 -> i_dev x = 1 -> agrees x s) ->
    (forall k, (k < NINODE)%nat -> sl_free (SLInode k) s) ->
    args !! i = Some a -> name <> [] -> slash ∉ name -> 0 ∉ name -> (length name <= DIRSIZ)%nat -> namecmp name (mkfs_name a.1) = 0 ->
    (forall j b, (j < i)%nat -> args !! j = Some b -> namecmp name (mkfs_name b.1) <> 0) ->
    namecmp name (bytes ".") <> 0 -> namecmp name (bytes "..") <> 0 ->
    exists ip s1 s2, namei (slash :: name) s = Ok (Some ip) s1 /\ ilock (Some ip) s1 = Ok tt s2 /\
      let len := Z.of_nat (length (contents a)) in
      forall off n, 0 <= off <= len -> 0 <= n -> off + n < 4294967296 ->
        exists s3, readi ip off n s2 = Ok (Z.min n (len - off), take (Z.to_nat n) (drop (Z.to_nat off) (contents a))) s3.
Proof.
  intros Hfit Hmod. destruct (mkfs_main_ok args Hfit) as (m & E & Hm). exists m. split; [exact E|].
  intros fl dsk laws dsw ci c p pr bl A s i a name Hr Ho Ht HA Hag Hfree Ha Hne Hsl H0 Hlen Hn Hfirst Hd1 Hd2.
  assert (W : walking (ci := ci) (c := c) (p := p) (pr := pr) bl (image_inodes args) None A s).
  { split; try assumption; [exact (image_map args m s Hfit Hm Ho)|exact (image_tree args m s Hfit Hm Ho Hmod)|by intros k Hk _; apply Hfree|done]. }
  assert (HT : image_inodes args 1) by (unfold image_inodes; lia).
  assert (Ep : elements (slash :: name) = [name]).
  { rewrite elements_slash. pose proof (elements_word name [] Hne Hsl H0 (or_introl eq_refl)) as Hw. rewrite app_nil_r in Hw. exact Hw. }
  destruct (namex_ok bl _ false (slash :: name) (replicate DIRSIZ 0) A 1 s W eq_refl HT HA) as (r & name' & s1 & E1 & S1 & H1).
  rewrite Ep in H1. cbn [target resolve] in H1. rewrite (take_ge name DIRSIZ) in H1 by lia.
  rewrite (image_lookup args m s Hfit Hm Ho Hmod i a name Ha Hn Hfirst Hd1 Hd2) in H1. destruct H1 as (HTi & ip & -> & W1 & _).
  destruct (ilock_walk bl _ _ ip (Z.of_nat i + 2) s1 W1) as (x & s2 & E2 & W2 & S2 & Hx & Hd & Hi & Hax); [by left|done|].
  assert (S12 : still s s2) by (by etrans). exists ip, s1, s2. split; [unfold namei; mstep with (E1); done|]. split; [exact E2|]. intros len off n Hoff Hnn Hbig.
  assert (Ho2 : on_image m s2).
  { destruct Ho as [O1 O2 O3 O4]. destruct S12 as [G1 G2 G3 G4 G5 G6]. split; rewrite ?G1, ?G2, ?G3; try assumption. intros b Hb. rewrite G5. by apply O4. }
  destruct (image_readi args m s2 Hfit Hm Ho2 bl i a ip x off n (wk_reading _ _ _ _ _ W2) Ha Hx) as (s3 & E3 & _); [|exact Hoff|exact Hnn|exact Hbig|exists s3; exact E3].
  split; [exact Hd|exact Hi|]. by apply (still_agrees s1 s2 S2).
Qed.

(** ** The small image *)

Lemma demo_agrees m k x :
  k_inodes (boot m (demo_table m)) !! k = Some x -> 0 < i_ref x -> i_valid x <> 0 -> i_dev x = 1 -> agrees x (boot m (demo_table m)).
Proof.
  destruct (boot_fields m (demo_table m)) as (_ & -> & _). destruct k as [|k].
  - intros Hx _ _ _. assert (x = demo_file m 1) as -> by (by injection Hx). apply (cd_disk _ _ _ (demo_cached m 1 (demo_table m))).
  - intros Hx Hr. change (replicate 49 (mkInode 0 0 0 0 0 0 0 0 0 []) !! k = Some x) in Hx. apply lookup_replicate in Hx as [-> _]. discriminate Hr.
Qed.

Lemma demo_walking m :
  mkfs_main demo_args mkfs_start = Ok tt m ->
  walking (ci := 0%nat) (c := fs_cpu) (p := 0%nat) (pr := fs_proc) [] (image_inodes demo_args) None [(0%nat, (1, 1))] (boot m (demo_table m)).
Proof.
  intros E. destruct (mkfs_main_ok demo_args demo_fits) as (m' & E' & Hm). assert (m' = m) as -> by congruence.
  pose proof (boot_image m (demo_table m)) as Ho. destruct (boot_fields m (demo_table m)) as (_ & Et & _). split.
  - apply intxn_reading, (boot_txn demo_args m _ Hm).
  - exact (image_map demo_args m _ demo_fits Hm Ho).
  - apply (image_tree demo_args m _ demo_fits Hm Ho). discriminate.
  - rewrite Et. apply demo_table_ok.
  - apply demo_agrees.
  - intros k _ _. apply boot_free.
  - discriminate.
Qed.

Lemma demo_lookup m : mkfs_main demo_args mkfs_start = Ok tt m -> lookup_name (boot m (demo_table m)) 1 (bytes "cat") = Some 2.
Proof.
  intros E. destruct (mkfs_main_ok demo_args demo_fits) as (m' & E' & Hm). assert (m' = m) as -> by congruence.
  apply (image_lookup demo_args m _ demo_fits Hm (boot_image m _) ltac:(discriminate) 0 (bytes "_cat", Some [bytes "hello "; bytes "world"])).
  - reflexivity.
  - reflexivity.
  - intros j b Hj. lia.
  - discriminate.
  - discriminate.
Qed.

Lemma namei_resolves_witness :
  exists m ip s', mkfs_main demo_args mkfs_start = Ok tt m /\ resolve (boot m (demo_table m)) 1 (elements (bytes "/cat")) = Some 2 /\
    @namei 5%nat memide no_dev (bytes "/cat") (boot m (demo_table m)) = Ok (Some ip) s'.
Proof.
  destruct (mkfs_main_ok demo_args demo_fits) as (m & E & _). pose proof (demo_lookup m E) as Hl. pose proof (demo_walking m E) as W.
  exists m. revert Hl W. generalize (boot m (demo_table m)). intros s Hl W. assert (Hr : resolve s 1 (elements (bytes "/cat")) = Some 2).
  { change (elements (bytes "/cat")) with [bytes "cat"]. cbn [resolve]. change (take DIRSIZ (bytes "cat")) with (bytes "cat"). rewrite Hl. reflexivity. }
  destruct (@namei_resolves 5%nat memide memide_laws no_dev 0 fs_cpu 0 fs_proc [] (image_inodes demo_args) (bytes "/cat") [(0%nat, (1, 1))] 1 s W) as [H _].
  - reflexivity.
  - split; discriminate.
  - apply Nat.leb_le. reflexivity.
  - rewrite Hr in H. destruct H as (r & s' & H1 & _ & ip & Er & _). subst r. exists ip, s'. split; [exact E|]. split; [exact Hr|exact H1].
Defined.

Lemma image_opens_by_path_witness :
  exists m ip s1 s2 s3, mkfs_main demo_args mkfs_start = Ok tt m /\ @namei 5%nat memide no_dev (bytes "/cat") (boot m (demo_table m)) = Ok (Some ip) s1 /\
    @ilock 5%nat memide (Some ip) s1 = Ok tt s2 /\ @readi 5%nat memide no_dev ip 6 5 s2 = Ok (5, bytes "world") s3.
Proof.
  destruct (image_opens_by_path demo_args demo_fits) as (m & E & H); [discriminate|].
  pose proof (demo_walking m E) as W. set (s := boot m (demo_table m)) in *.
  destruct (H 5%nat memide memide_laws no_dev 0%nat fs_cpu 0%nat fs_proc [] [(0%nat, (1, 1))] s 0%nat (bytes "_cat", Some [bytes "hello "; bytes "world"]) (bytes "cat"))
    as (ip & s1 & s2 & H1 & H2 & H3).
  - apply W.
  - apply boot_image.
  - apply W.
  - apply Nat.leb_le. reflexivity.
  - apply W.
  - intros k Hk. apply boot_free.
  - reflexivity.
  - discriminate.
  - apply (bool_decide_unpack _). vm_compute. exact I.
  - apply (bool_decide_unpack _). vm_compute. exact I.
  - apply Nat.leb_le. reflexivity.
  - reflexivity.
  - intros j b Hj. lia.
  - discriminate.
  - discriminate.
  - destruct (H3 6 5) as (s3 & H4); [split; discriminate|discriminate|reflexivity|]. exists m, ip, s1, s2, s3. split_and!; [exact E|exact H1|exact H2|exact H4].
Defined.
