(* ===== verification/Printf.v ===== *)
(** * The formatted output of user programs (printf.c)

    [putc], [printint] and [printf].  The system call [write] is not among the sources:
    the result is the list of the bytes that are written to [fd] one by one.  Variadic
    arguments are those of the kernel's [cprintf]; a missing argument, or one of the
    wrong kind, gives [None]. *)

From stdpp Require Import gmap.
From S2P Require Import Prelude Cprintf.
Local Open Scope Z_scope.
Local Open Scope list_scope.

(** "0123456789ABCDEF" *)
Definition Digit (d : Z) : Z := if d <? 10 then 48 + d else 55 + d.

(** The digits of [x], the least significant first. *)
Fixpoint digits_loop (fuel : nat) (base x : Z) : list Z :=
  match fuel with
  | O => []
  | S fuel => Digit (x mod base) ::
      (let x := x / base in if x =? 0 then [] else digits_loop fuel base x)
  end.

(** What [printint] writes: the buffer from its end to its beginning. *)
Definition uprintint (xx base : Z) (sgn : bool) : list Z :=
  let neg := sgn && (xx <? 0) in
  let x := if neg then u32 (- xx) else u32 xx in
  rev (digits_loop 32 base x ++ (if neg then [45] else [])).

(** The loop over the format; [state] is ['%'] after a percent sign. *)
Fixpoint printf_loop (state : bool) (fmt : list Z) (ap : list arg) : option (list Z) :=
  match fmt with
  | [] => Some []
  | c :: fmt =>
    if negb state then
      if c =? 37 then printf_loop true fmt ap
      else app [c] <$> printf_loop false fmt ap
    else if c =? 100 then
      match ap with
      | AInt z :: ap => app (uprintint (i32 z) 10 true) <$> printf_loop false fmt ap
      | _ => None
      end
    else if (c =? 120) || (c =? 112) then
      match ap with
      | AInt z :: ap => app (uprintint (i32 z) 16 false) <$> printf_loop false fmt ap
      | _ => None
      end
    else if c =? 115 then
      match ap with
      | AStr s :: ap => app (default null_string s) <$> printf_loop false fmt ap
      | _ => None
      end
    else if c =? 99 then
      match ap with
      | AInt z :: ap => app [u8 z] <$> printf_loop false fmt ap
      | _ => None
      end
    else if c =? 37 then app [c] <$> printf_loop false fmt ap
    else app [37; c] <$> printf_loop false fmt ap
  end.

Definition printf (fmt : list Z) (ap : list arg) : option (list Z) := printf_loop false fmt ap.

(** ** Formats as items *)

Inductive item : Type :=
| Lit (c : Z)               (* a character that is not a percent sign *)
| Dec (z : Z) | Hex (letter z : Z) | Str (s : option (list Z)) | Chr (z : Z)
| Percent
| Unknown (c : Z).          (* a percent sign and a character without meaning *)

Definition item_ok (it : item) : Prop :=
  match it with
  | Lit c => c <> 37
  | Dec z => - 2147483648 <= z < 2147483648
  | Hex letter z => letter = 120 \/ letter = 112
  | Unknown c => c ∉ [100; 120; 112; 115; 99; 37]
  | _ => True
  end.
(** How an item is written in the format, and the arguments that go with it. *)
Definition spell (it : item) : list Z :=
  match it with
  | Lit c => [c]
  | Dec _ => [37; 100]
  | Hex letter _ => [37; letter]
  | Str _ => [37; 115]
  | Chr _ => [37; 99]
  | Percent => [37; 37]
  | Unknown c => [37; c]
  end.
Definition passed (it : item) : list arg :=
  match it with Dec z | Hex _ z | Chr z => [AInt z] | Str s => [AStr s] | _ => [] end.

Definition upper (c : Z) : Z := if (97 <=? c) && (c <=? 122) then c - 32 else c.

(** What an item stands for; numbers as the kernel prints them, in upper case. *)
Definition shown (it : item) : list Z :=
  match it with
  | Lit c => [c]
  | Dec z => printint_chars z 10 true
  | Hex _ z => map upper (printint_chars (i32 z) 16 false)
  | Str s => default null_string s
  | Chr z => [u8 z]
  | Percent => [37]
  | Unknown c => [37; c]
  end.

Lemma Digit_upper d : 0 <= d < 16 -> Digit d = upper (digit d).
Proof. intros Hd. unfold Digit, upper, digit. destruct (Z.ltb_spec d 10), (Z.leb_spec 97 (48 + d)), (Z.leb_spec 97 (87 + d)), (Z.leb_spec (87 + d) 122), (Z.leb_spec (48 + d) 122); simpl; lia. Qed.

Lemma digits_upper fuel base x : 2 <= base <= 16 -> 0 <= x -> digits_loop fuel base x = map upper (printint_loop fuel base x).
Proof.
  intros Hb. revert x. induction fuel as [|fuel IH]; intros x Hx; [done|]. cbn [digits_loop printint_loop map].
  pose proof (Z.mod_pos_bound x base ltac:(lia)). rewrite Digit_upper by lia. f_equal. cbv zeta.
  destruct (x / base =? 0); [done|]. apply IH, Z.div_pos; lia.
Qed.

Lemma uprintint_upper xx base sgn : 2 <= base <= 16 -> uprintint xx base sgn = map upper (printint_chars xx base sgn).
Proof.
  intros Hb. unfold uprintint, printint_chars. rewrite digits_upper; [|done|].
  - rewrite map_rev, map_app. by destruct (sgn && (xx <? 0)).
  - destruct (sgn && (xx <? 0)); apply u32_range.
Qed.

(** A decimal numeral has no letters. *)
Lemma decimal_upper xx : map upper (printint_chars xx 10 true) = printint_chars xx 10 true.
Proof.
  assert (Hd : forall fuel x, 0 <= x -> map upper (printint_loop fuel 10 x) = printint_loop fuel 10 x).
  { intros fuel. induction fuel as [|fuel IH]; intros x Hx; [done|]. cbn [printint_loop map].
    pose proof (Z.mod_pos_bound x 10 ltac:(lia)). f_equal.
    - unfold upper, digit. destruct (Z.ltb_spec (x mod 10) 10); [|lia]. destruct (Z.leb_spec 97 (48 + x mod 10)); [lia|done].
    - cbv zeta. destruct (x / 10 =? 0); [done|]. apply IH, Z.div_pos; lia. }
  unfold printint_chars. rewrite map_rev, map_app, Hd; [by destruct (true && (xx <? 0))|].
  destruct (true && (xx <? 0)); apply u32_range.
Qed.

Lemma printf_item it fmt ap out :
  item_ok it -> printf_loop false fmt ap = Some out ->
  printf_loop false (spell it ++ fmt) (passed it ++ ap) = Some (shown it ++ out).
Proof.
  intros Hok Hf. destruct it as [c|z|letter z|s|z| |c]; cbn [spell passed shown app printf_loop negb]; simpl Z.eqb; cbn iota.
  - simpl in Hok. by rewrite (proj2 (Z.eqb_neq _ _) Hok), Hf.
  - rewrite Hf, uprintint_upper, decimal_upper, i32_id by (done || lia). done.
  - destruct Hok as [->| ->]; simpl; by rewrite Hf, uprintint_upper by lia.
  - by rewrite Hf.
  - by rewrite Hf.
  - by rewrite Hf.
  - simpl in Hok. rewrite !not_elem_of_cons in Hok. destruct Hok as (H1 & H2 & H3 & H4 & H5 & H6 & _).
    rewrite !(proj2 (Z.eqb_neq c _)) by done. by rewrite Hf.
Qed.


