(* ===== verification/Runcmd.v ===== *)
(** * Running commands (sh.c: runcmd, getcmd, main)

    The shell as a tree of system calls: a process makes a call and goes on with its
    result, [fork] goes on twice, with 0 in the child.  The system calls themselves are
    not part of these sources: a class states what they do to the descriptors of a
    process.  Processes run in any interleaving. *)

From stdpp Require Import gmap sorting.
From Stdlib Require Import String.
From S2P Require Import Prelude Sh.
Local Open Scope Z_scope.
Local Open Scope list_scope.

(** ** Programs *)

Inductive prog : Type :=
| Exit
| Spin
| Exec (argv : list (list Z)) (failed : prog)
| Printf (fd : Z) (msg : list Z) (k : prog)
| Close (fd : Z) (k : prog)
| Open (name : list Z) (mode : Z) (k : Z -> prog)
| Dup (fd : Z) (k : prog)
| Pipe (k : option (Z * Z) -> prog)
| Fork (k : Z -> prog)
| Wait (k : prog)
| Gets (max : Z) (k : list Z -> prog)
| Chdir (name : list Z) (k : Z -> prog).

Definition O_RDWR : Z := 2.

(** ** sh.c *)

Definition panic (s : string) : prog := Printf 2 (bytes s ++ [10]) Exit.

Definition fork1 (k : Z -> prog) : prog := Fork (fun pid => if pid =? -1 then panic "fork" else k pid).

(** A [char *] of a command, in the memory [mem]. *)
Definition str (mem : list Z) (q : nat) : list Z := cstr (drop q mem).

Fixpoint runcmd (mem : list Z) (c : cmd) : prog :=
  match c with
  | EXEC argv =>
    match argv with
    | [] => Exit
    | (a, _) :: _ =>
      Exec (map (fun q => str mem q.1) argv) (Printf 2 (bytes "exec " ++ str mem a ++ bytes " failed" ++ [10]) Exit)
    end
  | REDIR c file _ mode fd =>
    Close fd (Open (str mem file) mode (fun r =>
      if r <? 0 then Printf 2 (bytes "open " ++ str mem file ++ bytes " failed" ++ [10]) Exit
      else runcmd mem c))
  | LIST l r =>
    fork1 (fun pid => if pid =? 0 then runcmd mem l else Wait (runcmd mem r))
  | PIPE l r =>
    Pipe (fun p =>
      match p with
      | None => panic "pipe"
      | Some (p0, p1) =>
        fork1 (fun pid =>
          if pid =? 0 then Close 1 (Dup p1 (Close p0 (Close p1 (runcmd mem l))))
          else fork1 (fun pid =>
            if pid =? 0 then Close 0 (Dup p0 (Close p0 (Close p1 (runcmd mem r))))
            else Close p0 (Close p1 (Wait (Wait Exit)))))
      end)
  | BACK c => fork1 (fun pid => if pid =? 0 then runcmd mem c else Exit)
  end.

(** [runcmd(parsecmd(buf))] *)
Definition run_line (n : nat) (buf : list Z) : prog :=
  match parsecmd n buf with
  | Val (c, mem) => runcmd mem c
  | Stop msg => panic msg
  | Loop => Spin
  end.

(** The buffer after [memset] and [gets], and 0, or -1 at the end of the input. *)
Definition getcmd (nbuf : Z) (k : Z -> list Z -> prog) : prog :=
  Printf 2 (bytes "$ ") (Gets nbuf (fun line =>
    let buf := take (Z.to_nat nbuf) (line ++ replicate (Z.to_nat nbuf) 0) in
    k (if hd 0 buf =? 0 then -1 else 0) buf)).

(** [n] bounds the number of commands read. *)
Fixpoint sh_loop (n : nat) : prog :=
  match n with
  | O => Spin
  | S n =>
    getcmd 100 (fun r buf =>
      if r <? 0 then Exit else
      if (nth 0 buf 0 =? 99) && (nth 1 buf 0 =? 100) && (nth 2 buf 0 =? 32) then
        let buf := <[(List.length (cstr buf) - 1)%nat := 0]> buf in
        Chdir (str buf 3) (fun r =>
          if r <? 0 then Printf 2 (bytes "cannot cd " ++ str buf 3 ++ [10]) (sh_loop n) else sh_loop n)
      else fork1 (fun pid => if pid =? 0 then run_line 101 buf else Wait (sh_loop n)))
  end.

(** [while((fd = open("console", O_RDWR)) >= 0) if(fd >= 3){ close(fd); break; }] *)
Fixpoint open_console (n : nat) (k : prog) : prog :=
  match n with
  | O => Spin
  | S n => Open (bytes "console") O_RDWR (fun fd =>
      if fd <? 0 then k else if 3 <=? fd then Close fd k else open_console n k)
  end.

Definition sh_main (n : nat) : prog := open_console 4 (sh_loop n).

(** ** System calls *)

(** What a descriptor is open on: what the process started with, a file by name and
    mode, or an end of a pipe. *)
Inductive obj : Type :=
| Inherited (n : nat)
| File (name : list Z) (mode : Z)
| PipeRead (n : nat)
| PipeWrite (n : nat).
Abbreviation table := (list (option obj)).

(** The lowest descriptor that is not in use. *)
Definition lowest (f : table) : option nat := scan (fun o => match o with None => true | Some _ => false end) f.

Class Sys : Type := {
  sys_open : list Z -> Z -> table -> Z -> table -> Prop;
  sys_close : Z -> table -> table -> Prop;
  sys_dup : Z -> table -> table -> Prop;
  sys_pipe : nat -> table -> option (Z * Z) -> table -> Prop;
  may_fail : Prop }.

(** Descriptors are allocated lowest first; [open], [pipe] and [fork] return -1 and change
    nothing when they fail, as [pipe] also does without two free descriptors. *)
Class SysLaws (sys : Sys) : Prop := {
  open_law : forall name mode f r f', sys_open name mode f r f' ->
    (may_fail /\ r = -1 /\ f' = f) \/
    match lowest f with
    | Some d => r = Z.of_nat d /\ f' = <[d := Some (File name mode)]> f
    | None => r = -1 /\ f' = f
    end;
  open_total : forall name mode f, exists r f', sys_open name mode f r f';
  close_law : forall fd f f', 0 <= fd -> sys_close fd f f' -> f' = <[Z.to_nat fd := None]> f;
  close_total : forall fd f, exists f', sys_close fd f f';
  dup_law : forall fd f f' o d, 0 <= fd -> f !! Z.to_nat fd = Some (Some o) -> lowest f = Some d -> sys_dup fd f f' -> f' = <[d := Some o]> f;
  dup_total : forall fd f, exists f', sys_dup fd f f';
  pipe_law : forall n f r f', sys_pipe n f r f' ->
    (may_fail /\ r = None /\ f' = f) \/
    match lowest f with
    | Some a =>
      let f1 := <[a := Some (PipeRead n)]> f in
      match lowest f1 with
      | Some b => r = Some (Z.of_nat a, Z.of_nat b) /\ f' = <[b := Some (PipeWrite n)]> f1
      | None => r = None /\ f' = f
      end
    | None => r = None /\ f' = f
    end;
  pipe_total : forall n f, exists r f', sys_pipe n f r f' }.

(** ** Processes *)

(** A program that was started: its arguments and its descriptors. *)
Definition event : Type := list (list Z) * table.

Inductive pstate : Type :=
| Live (p : prog) (f : table)
| Ran
| Zombie.
Record process : Type := mkProcess { pr_pid : nat; pr_parent : nat; pr_state : pstate }.

(** The processes, each before its children, the pipes made and the programs started. *)
Record config : Type := mkConfig { procs : list process; pipes : list nat; started : list event }.

Section Steps.
Context {sys : Sys}.

(** What one process does on its own. *)
Inductive call : prog -> table -> prog -> table -> Prop :=
| c_printf fd msg k f : call (Printf fd msg k) f k f
| c_close fd k f f' : sys_close fd f f' -> call (Close fd k) f k f'
| c_open name mode k f r f' : sys_open name mode f r f' -> call (Open name mode k) f (k r) f'
| c_dup fd k f f' : sys_dup fd f f' -> call (Dup fd k) f k f'
| c_fork k f : may_fail -> call (Fork k) f (k (-1)) f
| c_exec argv k f : may_fail -> call (Exec argv k) f k f.

(** The pipe that [pipe] made. *)
Definition made (r : option (Z * Z)) (n : nat) : list nat := match r with Some _ => [n] | None => [] end.

Inductive step : config -> config -> Prop :=
| s_call a b pid par p f p' f' pi ev :
    call p f p' f' ->
    step (mkConfig (a ++ mkProcess pid par (Live p f) :: b) pi ev) (mkConfig (a ++ mkProcess pid par (Live p' f') :: b) pi ev)
| s_pipe a b pid par k f n r f' pi ev :
    n ∉ pi -> sys_pipe n f r f' ->
    step (mkConfig (a ++ mkProcess pid par (Live (Pipe k) f) :: b) pi ev) (mkConfig (a ++ mkProcess pid par (Live (k r) f') :: b) (pi ++ made r n) ev)
| s_fork a b pid par k f c pi ev :
    (0 < c)%nat -> (forall q, q ∈ a ++ mkProcess pid par (Live (Fork k) f) :: b -> pr_pid q <> c /\ pr_parent q <> c) ->
    step (mkConfig (a ++ mkProcess pid par (Live (Fork k) f) :: b) pi ev)
         (mkConfig (a ++ mkProcess pid par (Live (k (Z.of_nat c)) f) :: mkProcess c pid (Live (k 0) f) :: b) pi ev)
| s_exec a b pid par argv k f pi ev :
    step (mkConfig (a ++ mkProcess pid par (Live (Exec argv k) f) :: b) pi ev) (mkConfig (a ++ mkProcess pid par Ran :: b) pi (ev ++ [(argv, f)]))
| s_exit a b pid par f pi ev :
    step (mkConfig (a ++ mkProcess pid par (Live Exit f) :: b) pi ev) (mkConfig (a ++ mkProcess pid par Zombie :: b) pi ev)
| s_done a b pid par pi ev :
    step (mkConfig (a ++ mkProcess pid par Ran :: b) pi ev) (mkConfig (a ++ mkProcess pid par Zombie :: b) pi ev)
| s_wait a b c pid par q k f pi ev :
    step (mkConfig (a ++ mkProcess pid par (Live (Wait k) f) :: b ++ mkProcess q pid Zombie :: c) pi ev)
         (mkConfig (a ++ mkProcess pid par (Live k f) :: b ++ c) pi ev)
| s_wait_none a b pid par k f pi ev :
    (forall q, q ∈ a ++ b -> pr_parent q <> pid) ->
    step (mkConfig (a ++ mkProcess pid par (Live (Wait k) f) :: b) pi ev) (mkConfig (a ++ mkProcess pid par (Live k f) :: b) pi ev).
End Steps.

(** ** What a command line does *)

(** The programs a command starts, with their descriptors, and the pipes between them:
    a pipeline connects the output of its left side to the input of its right side, and
    nothing else of it stays open. *)
Section Wiring.
Context {sys : Sys}.

Inductive wired : tree -> table -> list event -> list nat -> Prop :=
| w_none t f pi : may_fail -> wired t f [] pi
| w_empty f : wired (TExec []) f [] []
| w_exec argv f : argv <> [] -> wired (TExec argv) f [(argv, f)] []
| w_redir t file mode fd f ev pi :
    wired t (<[Z.to_nat fd := Some (File file mode)]> f) ev pi -> wired (TRedir t file mode fd) f ev pi
| w_pipe a b f n eva pia evb pib :
    wired a (<[1%nat := Some (PipeWrite n)]> f) eva pia -> wired b (<[0%nat := Some (PipeRead n)]> f) evb pib ->
    wired (TPipe a b) f (eva ++ evb) (n :: pia ++ pib)
| w_list a b f eva pia evb pib : wired a f eva pia -> wired b f evb pib -> wired (TList a b) f (eva ++ evb) (pia ++ pib)
| w_back t f ev pi : wired t f ev pi -> wired (TBack t) f ev pi.

(** Up to the order, in which the processes happened to run. *)
Definition does (t : tree) (f : table) (ev : list event) (pi : list nat) : Prop :=
  exists ev' pi', ev ≡ₚ ev' /\ pi ≡ₚ pi' /\ wired t f ev' pi'.

(** What a process and its descendants still start. *)
Inductive will : prog -> table -> list event -> list nat -> Prop :=
| wl_exit f : will Exit f [] []
| wl_exec argv k f : will (Exec argv k) f [(argv, f)] []
| wl_call p f p' f' ev pi : call p f p' f' -> will p' f' ev pi -> will p f ev pi
| wl_pipe k n f r f' ev pi : sys_pipe n f r f' -> will (k r) f' ev pi -> will (Pipe k) f ev (made r n ++ pi)
| wl_fork k c f ev1 pi1 ev2 pi2 : (0 < c)%nat ->
    will (k (Z.of_nat c)) f ev1 pi1 -> will (k 0) f ev2 pi2 -> will (Fork k) f (ev1 ++ ev2) (pi1 ++ pi2)
| wl_wait k f ev pi : will k f ev pi -> will (Wait k) f ev pi.

Definition pwill (q : process) (w : list event * list nat) : Prop :=
  match pr_state q with
  | Live p f => will p f w.1 w.2
  | _ => w = ([], [])
  end.

(** Whatever the processes start from here, the whole is what the command does. *)
Definition promise (t : tree) (f : table) (c : config) : Prop :=
  forall ws, Forall2 pwill (procs c) ws -> does t f (started c ++ concat (map fst ws)) (pipes c ++ concat (map snd ws)).

Lemma does_perm t f ev ev' pi pi' : ev ≡ₚ ev' -> pi ≡ₚ pi' -> does t f ev pi -> does t f ev' pi'.
Proof. intros H1 H2 (e & p & H3 & H4 & H5). exists e, p. split_and!; [by rewrite <- H1|by rewrite <- H2|done]. Qed.

Lemma Forall2_mid {A B} (R : A -> B -> Prop) a x b ws :
  Forall2 R (a ++ x :: b) ws <-> exists wa w wb, ws = wa ++ w :: wb /\ Forall2 R a wa /\ R x w /\ Forall2 R b wb.
Proof.
  split.
  - intros (wa & wb & H1 & H2 & ->)%Forall2_app_inv_l. inversion H2; subst. eexists _, _, _. done.
  - intros (wa & w & wb & -> & H1 & H2 & H3). apply Forall2_app; [done|]. by constructor.
Qed.

(** Both lists of a process in the middle. *)
Lemma promise_mid t f a x b pi ev :
  promise t f (mkConfig (a ++ x :: b) pi ev) <->
  forall wa w wb, Forall2 pwill a wa -> pwill x w -> Forall2 pwill b wb ->
    does t f (ev ++ w.1 ++ concat (map fst wa) ++ concat (map fst wb)) (pi ++ w.2 ++ concat (map snd wa) ++ concat (map snd wb)).
Proof.
  split.
  - intros H wa w wb H1 H2 H3. specialize (H (wa ++ w :: wb)). cbn in H. eapply does_perm; [| |apply H, Forall2_mid; by eexists _, _, _];
      apply Permutation_app_head; rewrite map_app, concat_app; cbn; solve_Permutation.
  - intros H ws (wa & w & wb & -> & H1 & H2 & H3)%Forall2_mid. cbn. eapply does_perm; [| |by apply (H wa w wb)];
      apply Permutation_app_head; rewrite map_app, concat_app; cbn; solve_Permutation.
Qed.

Lemma promise_step t f c c' : step c c' -> promise t f c -> promise t f c'.
Proof.
  intros Hs. destruct Hs as [a b pid par p g p' g' pi ev Hc|a b pid par k g n r g' pi ev Hn Hp|a b pid par k g q pi ev Hq Hfresh|a b pid par argv k g pi ev
    |a b pid par g pi ev|a b pid par pi ev|a b c pid par q k g pi ev|a b pid par k g pi ev Hnone]; rewrite !promise_mid; intros H wa w wb H1 H2 H3.
  - apply H; [done| |done]. by eapply wl_call.
  - specialize (H wa (w.1, made r n ++ w.2) wb H1). eapply does_perm; [done| |apply H]; [|by eapply wl_pipe|done]. cbn. solve_Permutation.
  - inversion H3 as [|x w' l wb' Hx Hl]; subst. specialize (H wa (w.1 ++ w'.1, w.2 ++ w'.2) wb' H1). eapply does_perm; [| |apply H]; [..|by eapply wl_fork|done].
    + cbn. solve_Permutation.
    + cbn. solve_Permutation.
  - cbn in H2. rewrite H2. specialize (H wa ([(argv, g)], []) wb H1). cbn in H |- *. eapply does_perm; [| |apply H]; [..|by constructor|done]; solve_Permutation.
  - cbn in H2. rewrite H2. apply (H wa ([], []) wb H1); [by constructor|done].
  - cbn in H2. rewrite H2. by apply (H wa ([], []) wb).
  - apply Forall2_app_inv_l in H3 as (wb1 & wb2 & H3 & H4 & ->). specialize (H wa w (wb1 ++ ([], []) :: wb2) H1).
    rewrite !map_app, !concat_app in *. cbn in H. apply H; [by constructor|]. apply Forall2_mid. by exists wb1, ([], []), wb2.
  - apply H; [done| |done]. by constructor.
Qed.
End Wiring.

(** ** Descriptors *)

Definition std (f : table) : Prop := forall i, (i < 3)%nat -> exists o, f !! i = Some (Some o).
Definition roomy (f : table) : Prop := exists a b, a <> b /\ f !! a = Some None /\ f !! b = Some None.

Lemma lowest_Some f d : lowest f = Some d <-> f !! d = Some None /\ forall i, (i < d)%nat -> exists o, f !! i = Some (Some o).
Proof.
  unfold lowest. rewrite scan_Some. split.
  - intros [(o & H1 & H2) H3]. destruct o; [done|]. split; [done|]. intros i Hi. destruct (lookup_lt_is_Some_2 f i) as [o Ho].
    { apply lookup_lt_Some in H1. lia. } specialize (H3 i o Hi Ho). destruct o as [o|]; [by exists o|done].
  - intros [H1 H2]. split; [by exists None|]. intros i o Hi Ho. destruct (H2 i Hi) as [o' Ho']. by simplify_eq.
Qed.

Lemma lowest_std f d : std f -> lowest f = Some d -> (3 <= d)%nat.
Proof. intros Hs [H _]%lowest_Some. destruct (decide (d < 3)%nat) as [Hd|]; [|lia]. destruct (Hs d Hd) as [o Ho]. by simplify_eq. Qed.

Lemma lowest_closed f i : std f -> (i < 3)%nat -> lowest (<[i := None]> f) = Some i.
Proof.
  intros Hs Hi. apply lowest_Some. destruct (Hs i Hi) as [o Ho]. split; [apply list_lookup_insert_eq; by eapply lookup_lt_Some|].
  intros j Hj. rewrite list_lookup_insert_ne by lia. apply Hs. lia.
Qed.

Lemma lowest_exists f a : f !! a = Some None -> exists d, lowest f = Some d /\ (d <= a)%nat.
Proof.
  revert a. induction f as [|o f IH]; intros [|a] Ha; try done; [injection Ha as ->; by exists 0%nat|].
  destruct o as [o|]; [|exists 0%nat; split; [done|lia]]. destruct (IH a Ha) as (d & Hd & Hle). exists (S d). split; [|lia].
  apply lowest_Some. apply lowest_Some in Hd as [H1 H2]. split; [done|]. intros [|i] Hi; [by exists o|]. apply H2. lia.
Qed.

Lemma std_insert f i o : std f -> std (<[i := Some o]> f).
Proof.
  intros Hs j Hj. destruct (decide (i = j)) as [->|Hne]; [|rewrite list_lookup_insert_ne by done; by apply Hs].
  exists o. apply list_lookup_insert_eq. destruct (Hs j Hj) as [o' H']. by eapply lookup_lt_Some.
Qed.

Lemma roomy_insert f i o : std f -> (i < 3)%nat -> roomy f -> roomy (<[i := Some o]> f).
Proof.
  intros Hs Hi (a & b & Hne & Ha & Hb). destruct (Hs i Hi) as [o' Ho']. exists a, b.
  split; [done|]. split; rewrite list_lookup_insert_ne; try done; intros ->; simplify_eq.
Qed.

(** The two descriptors of a new pipe. *)
Lemma pipe_places f : std f -> roomy f -> exists a b,
  (forall n, lowest f = Some a /\ lowest (<[a := Some (PipeRead n)]> f) = Some b) /\ (3 <= a)%nat /\ (3 <= b)%nat /\ a <> b /\ f !! a = Some None /\ f !! b = Some None.
Proof.
  intros Hs (i & j & Hne & Hi & Hj). destruct (lowest_exists f i Hi) as (a & Ha & _). pose proof (lowest_std f a Hs Ha) as Ha3.
  pose proof (proj1 (lowest_Some f a) Ha) as [Ha0 _]. pose proof (lookup_lt_Some _ _ _ Ha0) as Hal. set (f1 := fun n => <[a := Some (PipeRead n)]> f).
  assert (Hex : exists k, f1 0%nat !! k = Some None).
  { unfold f1. destruct (decide (i = a)) as [->|]; [exists j|exists i]; by rewrite list_lookup_insert_ne. }
  destruct Hex as [k Hk]. destruct (lowest_exists _ k Hk) as (b & Hb & _). pose proof (lowest_std _ b (std_insert _ _ _ Hs) Hb) as Hb3.
  pose proof (proj1 (lowest_Some _ b) Hb) as [Hb0 Hb1]. assert (Hab : a <> b).
  { intros <-. unfold f1 in Hb0. by rewrite list_lookup_insert_eq in Hb0. }
  unfold f1 in Hb0, Hb1. rewrite list_lookup_insert_ne in Hb0 by done. exists a, b. split_and!; try done. intros n. split; [done|]. apply lowest_Some.
  rewrite list_lookup_insert_ne by done. split; [done|]. intros x Hx. destruct (decide (a = x)) as [<-|Hax].
  - rewrite list_lookup_insert_eq by done. by eexists.
  - rewrite list_lookup_insert_ne by done. destruct (Hb1 x Hx) as [o Ho]. rewrite list_lookup_insert_ne in Ho by done. by exists o.
Qed.

(** [close(i); dup(p); close(a); close(b)] puts one end of the pipe in place of [i]. *)
Lemma end_in_place (f : table) i a b (x y o : option obj) :
  (i < 3)%nat -> (3 <= a)%nat -> (3 <= b)%nat -> a <> b -> f !! a = Some None -> f !! b = Some None ->
  <[b := None]> (<[a := None]> (<[i := o]> (<[i := None]> (<[b := y]> (<[a := x]> f))))) = <[i := o]> f.
Proof.
  intros Hi Ha Hb Hab Hfa Hfb. apply list_eq. intros j.
  pose proof (lookup_lt_Some _ _ _ Hfa). pose proof (lookup_lt_Some _ _ _ Hfb).
  rewrite !list_lookup_insert, !length_insert. repeat case_decide; destruct_and?; subst; try lia; try done; exfalso; tauto.
Qed.

(** ** The commands of the shell *)

Section Runs.
Context {sys : Sys} {laws : SysLaws sys}.

Lemma will_exit f ev pi : will Exit f ev pi -> ev = [] /\ pi = [].
Proof. inversion 1 as [| |? ? ? ? ? ? Hc| | |]; [done|inversion Hc]. Qed.

Lemma will_printf fd msg k f ev pi : will (Printf fd msg k) f ev pi -> will k f ev pi.
Proof. inversion 1 as [| |? ? ? ? ? ? Hc| | |]; subst; by inversion Hc; subst. Qed.

Lemma will_wait k f ev pi : will (Wait k) f ev pi -> will k f ev pi.
Proof. inversion 1 as [| |? ? ? ? ? ? Hc| | |]; subst; [by inversion Hc|done]. Qed.

Lemma will_close fd k f ev pi : 0 <= fd -> will (Close fd k) f ev pi -> will k (<[Z.to_nat fd := None]> f) ev pi.
Proof. intros Hfd. inversion 1 as [| |? ? ? ? ? ? Hc| | |]; subst. inversion Hc; subst. by rewrite <- (close_law fd f f'). Qed.

Lemma will_dup fd k f o d ev pi :
  0 <= fd -> f !! Z.to_nat fd = Some (Some o) -> lowest f = Some d -> will (Dup fd k) f ev pi -> will k (<[d := Some o]> f) ev pi.
Proof. intros Hfd Ho Hd. inversion 1 as [| |? ? ? ? ? ? Hc| | |]; subst. inversion Hc; subst. by rewrite <- (dup_law fd f f' o d). Qed.

Lemma will_open name mode k f d ev pi : lowest f = Some d -> will (Open name mode k) f ev pi ->
  (may_fail /\ will (k (-1)) f ev pi) \/ will (k (Z.of_nat d)) (<[d := Some (File name mode)]> f) ev pi.
Proof.
  intros Hd. inversion 1 as [| |? ? ? ? ? ? Hc| | |]; subst. inversion Hc; subst.
  destruct (open_law name mode f r f') as [(? & -> & ->)|Hl]; [done|by left|]. rewrite Hd in Hl. destruct Hl as [-> ->]. by right.
Qed.

Lemma will_pipe k f a b ev pi :
  (forall n, lowest f = Some a /\ lowest (<[a := Some (PipeRead n)]> f) = Some b) -> will (Pipe k) f ev pi ->
  (may_fail /\ will (k None) f ev pi) \/
  exists n pi', pi = n :: pi' /\ will (k (Some (Z.of_nat a, Z.of_nat b))) (<[b := Some (PipeWrite n)]> (<[a := Some (PipeRead n)]> f)) ev pi'.
Proof.
  intros Hab. inversion 1 as [| |? ? ? ? ? ? Hc|? n ? r f' ? pi' Hp Hw| |]; subst; [inversion Hc|]. destruct (Hab n) as [Ha Hb].
  destruct (pipe_law n f r f' Hp) as [(? & -> & ->)|Hl]; [by left|]. rewrite Ha in Hl. cbv zeta in Hl. rewrite Hb in Hl. destruct Hl as [-> ->].
  right. by exists n, pi'.
Qed.

Lemma will_panic s f ev pi : will (panic s) f ev pi -> ev = [] /\ pi = [].
Proof. intros H%will_printf. by apply will_exit in H. Qed.

Lemma will_fork1 k f ev pi : will (fork1 k) f ev pi ->
  (may_fail /\ ev = [] /\ pi = []) \/
  exists c ev1 pi1 ev2 pi2, (0 < c)%nat /\ ev = ev1 ++ ev2 /\ pi = pi1 ++ pi2 /\ will (k (Z.of_nat c)) f ev1 pi1 /\ will (k 0) f ev2 pi2.
Proof.
  unfold fork1. inversion 1 as [| |? ? ? ? ? ? Hc Hw| |? c ? ev1 pi1 ev2 pi2 Hc H1 H2|]; subst.
  - inversion Hc; subst. left. split; [done|]. exact (will_panic "fork" _ _ _ Hw).
  - right. rewrite (proj2 (Z.eqb_neq _ _)) in H1 by lia. by exists c, ev1, pi1, ev2, pi2.
Qed.

Fixpoint fds_ok (t : tree) : Prop :=
  match t with
  | TExec _ => True
  | TRedir t _ _ fd => 0 <= fd < 3 /\ fds_ok t
  | TPipe a b => fds_ok a /\ fds_ok b
  | TList a b => fds_ok a /\ fds_ok b
  | TBack t => fds_ok t
  end.

Lemma does_none t f pi : may_fail -> does t f [] pi.
Proof. intros H. exists [], pi. split_and!; [done|done|by apply w_none]. Qed.

(** One side of a pipeline, from the [fork] to its command. *)
Lemma will_side f i e p0 p1 a b n k ev pi :
  std f -> (i < 3)%nat -> (3 <= a)%nat -> (3 <= b)%nat -> a <> b -> f !! a = Some None -> f !! b = Some None -> p0 = Z.of_nat a -> p1 = Z.of_nat b ->
  let f0 := <[b := Some (PipeWrite n)]> (<[a := Some (PipeRead n)]> f) in
  e = (if (i =? 0)%nat then p0 else p1) ->
  will (Close (Z.of_nat i) (Dup e (Close p0 (Close p1 k)))) f0 ev pi ->
  will k (<[i := Some (if (i =? 0)%nat then PipeRead n else PipeWrite n)]> f) ev pi.
Proof.
  intros Hs Hi Ha Hb Hab Hfa Hfb -> -> f0 -> Hw. apply will_close in Hw; [|lia]. rewrite Nat2Z.id in Hw.
  assert (Hs0 : std f0) by (unfold f0; by do 2 apply std_insert). pose proof (lookup_lt_Some _ _ _ Hfa). pose proof (lookup_lt_Some _ _ _ Hfb).
  eapply (will_dup _ _ _ (if (i =? 0)%nat then PipeRead n else PipeWrite n) i) in Hw; [|by destruct (i =? 0)%nat; lia| |by apply lowest_closed].
  - apply will_close in Hw; [|lia]. apply will_close in Hw; [|lia]. rewrite !Nat2Z.id in Hw. unfold f0 in Hw. by rewrite end_in_place in Hw.
  - unfold f0. destruct (Nat.eqb_spec i 0) as [->|Hne]; rewrite Nat2Z.id, list_lookup_insert_ne by lia.
    + rewrite list_lookup_insert_ne, list_lookup_insert_eq by (done || lia). done.
    + rewrite list_lookup_insert_eq by (rewrite length_insert; lia). done.
Qed.

Lemma runcmd_will mem c f ev pi :
  std f -> roomy f -> fds_ok (cview mem c) -> will (runcmd mem c) f ev pi -> does (cview mem c) f ev pi.
Proof.
  revert f ev pi. induction c as [argv|c IH file efile mode fd|l IHl r IHr|l IHl r IHr|c IH]; intros f ev pi Hs Hr Hok Hw; cbn [runcmd cview] in *.
  - destruct argv as [|[a a'] argv].
    + apply will_exit in Hw as [-> ->]. exists [], []. split_and!; [done|done|apply w_empty].
    + inversion Hw as [|? ? ? |? ? ? ? ? ? Hc Hw'| | |]; subst.
      * eexists _, _. split_and!; [reflexivity|reflexivity|by apply w_exec].
      * inversion Hc; subst. apply will_printf, will_exit in Hw' as [-> ->]. by apply does_none.
  - destruct Hok as [Hfd Hok]. apply will_close in Hw; [|lia].
    destruct (will_open _ _ _ _ (Z.to_nat fd) _ _ (lowest_closed f (Z.to_nat fd) Hs ltac:(lia)) Hw) as [[Hm Hw']|Hw']; clear Hw; rename Hw' into Hw.
    + apply will_printf, will_exit in Hw as [-> ->]. by apply does_none.
    + rewrite (proj2 (Z.ltb_ge _ _)), list_insert_insert_eq in Hw by lia.
      apply IH in Hw as (ev' & pi' & H1 & H2 & H3); [|by apply std_insert|apply roomy_insert; (done || lia)|done].
      exists ev', pi'. split_and!; [done|done|by apply w_redir].
  - destruct Hok as [Hl Hrr]. destruct (pipe_places f Hs Hr) as (a & b & Hplaces & Ha3 & Hb3 & Hab & Hfa & Hfb).
    destruct (will_pipe _ _ a b _ _ Hplaces Hw) as [[Hm Hw']|(n & pi' & -> & Hw')]; clear Hw; [apply will_panic in Hw' as [-> ->]; by apply does_none|].
    apply will_fork1 in Hw' as [(Hm & -> & ->)|(c & ev1 & pi1 & ev2 & pi2 & Hc & -> & -> & H1 & H2)]; [by apply does_none|].
    rewrite (proj2 (Z.eqb_neq _ _)) in H1 by lia. change (0 =? 0) with true in H2. cbv iota in H2.
    apply (will_side f 1 _ _ _ a b n) in H2; try done; [|lia].
    apply IHl in H2 as (e2 & p2 & P2 & Q2 & W2); [|by apply std_insert|apply roomy_insert; (done || lia)|done].
    assert (Hpar : exists e1 p1, ev1 ≡ₚ e1 /\ pi1 ≡ₚ p1 /\ wired (cview mem r) (<[0%nat := Some (PipeRead n)]> f) e1 p1).
    { apply will_fork1 in H1 as [(Hm & -> & ->)|(c' & ev3 & pi3 & ev4 & pi4 & Hc' & -> & -> & H3 & H4)]; [exists [], []; split_and!; [done|done|by apply w_none]|].
      rewrite (proj2 (Z.eqb_neq _ _)) in H3 by lia. change (0 =? 0) with true in H4. cbv iota in H4.
      apply will_close in H3; [|lia]. apply will_close in H3; [|lia]. apply will_wait, will_wait, will_exit in H3 as [-> ->].
      apply (will_side f 0 _ _ _ a b n) in H4; try done; [|lia]. by apply IHr in H4; [|by apply std_insert|apply roomy_insert; (done || lia)|done]. }
    destruct Hpar as (e1 & p1 & P1 & Q1 & W1). exists (e2 ++ e1), (n :: p2 ++ p1). split_and!; [| |by apply w_pipe].
    + rewrite P1, P2. apply Permutation_app_comm.
    + rewrite Q1, Q2. constructor. apply Permutation_app_comm.
  - destruct Hok as [Hl Hrr]. apply will_fork1 in Hw as [(Hm & -> & ->)|(c & ev1 & pi1 & ev2 & pi2 & Hc & -> & -> & H1 & H2)]; [by apply does_none|].
    rewrite (proj2 (Z.eqb_neq _ _)) in H1 by lia. apply will_wait, IHr in H1 as (e1 & p1 & P1 & Q1 & W1); [|done..].
    apply IHl in H2 as (e2 & p2 & P2 & Q2 & W2); [|done..]. exists (e2 ++ e1), (p2 ++ p1). split_and!; [|..|by apply w_list].
    + rewrite P1, P2. apply Permutation_app_comm.
    + rewrite Q1, Q2. apply Permutation_app_comm.
  - apply will_fork1 in Hw as [(Hm & -> & ->)|(pid & ev1 & pi1 & ev2 & pi2 & Hc & -> & -> & H1 & H2)]; [by apply does_none|].
    rewrite (proj2 (Z.eqb_neq _ _)) in H1 by lia. apply will_exit in H1 as [-> ->]. apply IH in H2 as (e2 & p2 & P2 & Q2 & W2); [|done..].
    exists e2, p2. split_and!; [by rewrite P2|by rewrite Q2|by apply w_back].
Qed.
End Runs.

(** ** Every run ends *)

(** A bound on the calls of a process and its descendants. *)
Inductive bounded : nat -> prog -> Prop :=
| b_exit m : (2 <= m)%nat -> bounded m Exit
| b_exec n m argv k : bounded n k -> (n < m)%nat -> bounded m (Exec argv k)
| b_printf n m fd msg k : bounded n k -> (n < m)%nat -> bounded m (Printf fd msg k)
| b_close n m fd k : bounded n k -> (n < m)%nat -> bounded m (Close fd k)
| b_open n m name mode k : (forall r, bounded n (k r)) -> (n < m)%nat -> bounded m (Open name mode k)
| b_dup n m fd k : bounded n k -> (n < m)%nat -> bounded m (Dup fd k)
| b_pipe n m k : (forall r, bounded n (k r)) -> (n < m)%nat -> bounded m (Pipe k)
| b_fork n m k : (forall r, bounded n (k r)) -> (n + n < m)%nat -> bounded m (Fork k)
| b_wait n m k : bounded n k -> (n < m)%nat -> bounded m (Wait k).

Lemma bounded_two n p : bounded n p -> (2 <= n)%nat.
Proof. induction 1; try specialize (H0 0); try specialize (H0 None); try lia. Qed.

Lemma bounded_mono n m p : bounded n p -> (n <= m)%nat -> bounded m p.
Proof. intros H Hle. inversion H; subst; econstructor; try done; lia. Qed.

Lemma panic_bounded n s : (3 <= n)%nat -> bounded n (panic s).
Proof. intros Hn. apply (b_printf 2); [by constructor|lia]. Qed.

Lemma fork1_bounded n m k : (forall r, bounded n (k r)) -> (3 <= n)%nat -> (n + n < m)%nat -> bounded m (fork1 k).
Proof. intros H Hn Hm. apply (b_fork n); [|done]. intros r. destruct (r =? -1); [by apply panic_bounded|apply H]. Qed.

Lemma side_bounded n m a b c d k : bounded n k -> (n + 4 <= m)%nat -> bounded m (Close a (Dup b (Close c (Close d k)))).
Proof.
  intros H Hm. apply (b_close (n + 3)); [|lia]. apply (b_dup (n + 2)); [|lia]. apply (b_close (n + 1)); [|lia]. apply (b_close n); [done|lia].
Qed.

Lemma runcmd_bounded mem c : exists n, (3 <= n)%nat /\ bounded n (runcmd mem c).
Proof.
  induction c as [argv|c (n & Hn & IH) file efile mode fd|l (n & Hn & IHl) r (m & Hm & IHr)|l (n & Hn & IHl) r (m & Hm & IHr)|c (n & Hn & IH)]; cbn [runcmd].
  - exists 4%nat. split; [lia|]. destruct argv as [|[a a'] argv]; [constructor; lia|]. apply (b_exec 3); [|lia]. apply (b_printf 2); [by constructor|lia].
  - exists (n + 2)%nat. split; [lia|]. apply (b_close (n + 1)); [|lia]. apply (b_open n); [|lia]. intros r.
    destruct (r <? 0); [|done]. apply (b_printf 2); [by constructor|lia].
  - set (k := (n + m + 6)%nat). exists (4 * k + 4)%nat. split; [unfold k; lia|]. apply (b_pipe (4 * k + 3)); [|lia]. intros [[p0 p1]|]; [|apply panic_bounded; lia].
    apply (fork1_bounded (2 * k + 1)); [|unfold k; lia|lia]. intros pid. destruct (pid =? 0).
    + apply (side_bounded n); [done|unfold k; lia].
    + apply (fork1_bounded k); [|unfold k; lia|lia]. intros pid'. destruct (pid' =? 0).
      * apply (side_bounded m); [done|unfold k; lia].
      * apply (b_close 5); [|unfold k; lia]. apply (b_close 4); [|lia]. apply (b_wait 3); [|lia]. apply (b_wait 2); [by constructor|lia].
  - set (k := (n + m + 1)%nat). exists (2 * k + 1)%nat. split; [unfold k; lia|]. apply (fork1_bounded k); [|unfold k; lia|lia]. intros pid.
    destruct (pid =? 0); [eapply bounded_mono; [done|unfold k; lia]|]. apply (b_wait m); [done|unfold k; lia].
  - exists (2 * n + 1)%nat. split; [lia|]. apply (fork1_bounded n); [|lia|lia]. intros pid. destruct (pid =? 0); [done|]. constructor. lia.
Qed.

Definition pbound (q : process) (n : nat) : Prop :=
  match pr_state q with Live p _ => bounded n p | Ran => (2 <= n)%nat | Zombie => (1 <= n)%nat end.

Lemma sum_list_app a b : sum_list (a ++ b) = (sum_list a + sum_list b)%nat.
Proof. induction a as [|x a IH]; simpl; lia. Qed.

Section Ends.
Context {sys : Sys} {laws : SysLaws sys}.

Lemma call_bounded n p f p' f' : call p f p' f' -> bounded n p -> exists m, (m < n)%nat /\ bounded m p'.
Proof. intros Hc Hb. destruct Hc; inversion Hb; subst; eexists; (split; [|done || by apply H4 || eauto]); try lia. Qed.

Lemma bound_mid a x b wa w w' wb :
  Forall2 pbound a wa -> Forall2 pbound b wb -> pbound x w' -> (w' < w)%nat ->
  exists ns, Forall2 pbound (a ++ x :: b) ns /\ (sum_list ns < sum_list (wa ++ w :: wb))%nat.
Proof.
  intros H1 H2 H3 H4. exists (wa ++ w' :: wb). split; [apply Forall2_mid; by exists wa, w', wb|]. rewrite !sum_list_app. simpl. lia.
Qed.

Lemma step_bounded c c' ns :
  step c c' -> Forall2 pbound (procs c) ns -> exists ns', Forall2 pbound (procs c') ns' /\ (sum_list ns' < sum_list ns)%nat.
Proof.
  intros Hs. destruct Hs as [a b pid par p g p' g' pi ev Hc|a b pid par k g n r g' pi ev Hn Hp|a b pid par k g q pi ev Hq Hfresh|a b pid par argv k g pi ev
    |a b pid par g pi ev|a b pid par pi ev|a b c pid par q k g pi ev|a b pid par k g pi ev Hnone]; cbn [procs];
    intros (wa & w & wb & -> & H1 & H2 & H3)%Forall2_mid; unfold pbound in H2; cbn in H2.
  - destruct (call_bounded _ _ _ _ _ Hc H2) as (m & Hm & Hb). by apply (bound_mid _ _ _ _ _ m).
  - inversion H2; subst. by eapply (bound_mid _ _ _ _ _ n0); [| |cbn; done|].
  - inversion H2; subst. exists (wa ++ n :: n :: wb). rewrite !sum_list_app. simpl. split; [|lia].
    apply Forall2_mid. exists wa, n, (n :: wb). split_and!; [done|done|cbn; done|]. constructor; [cbn; done|done].
  - inversion H2 as [|n m ? ? Hk Hlt| | | | | | |]; subst. pose proof (bounded_two _ _ Hk). by apply (bound_mid _ _ _ _ _ 2); [| |cbn; lia|lia].
  - pose proof (bounded_two _ _ H2). by apply (bound_mid _ _ _ _ _ 1); [| |cbn; lia|lia].
  - by apply (bound_mid _ _ _ _ _ 1); [| |cbn; lia|lia].
  - apply Forall2_mid in H3 as (wb1 & z & wb2 & -> & H3 & Hz & H4). inversion H2; subst. exists (wa ++ n :: wb1 ++ wb2). split.
    + apply Forall2_mid. exists wa, n, (wb1 ++ wb2). split_and!; [done|done|cbn; done|by apply Forall2_app].
    + rewrite !sum_list_app. simpl. rewrite !sum_list_app. simpl. lia.
  - inversion H2; subst. by apply (bound_mid _ _ _ _ _ n).
Qed.

(** No process comes after its child. *)
Fixpoint ordered (l : list process) : Prop :=
  match l with
  | [] => True
  | x :: l => (forall y, y ∈ l -> pr_parent x <> pr_pid y) /\ ordered l
  end.

Lemma ordered_app a b : ordered (a ++ b) <-> ordered a /\ ordered b /\ forall x y, x ∈ a -> y ∈ b -> pr_parent x <> pr_pid y.
Proof.
  induction a as [|x a IH]; simpl; [set_solver|]. rewrite IH. setoid_rewrite elem_of_app. setoid_rewrite elem_of_cons. naive_solver.
Qed.

Definition tidy (l : list process) : Prop := ordered l /\ NoDup (map pr_pid l).

(** Only the identifiers matter. *)
Lemma tidy_same l l' : map (fun x => (pr_pid x, pr_parent x)) l = map (fun x => (pr_pid x, pr_parent x)) l' -> tidy l -> tidy l'.
Proof.
  intros E [Ho Hn]. assert (Ep : map pr_pid l = map pr_pid l').
  { pose proof (f_equal (map fst) E) as Ef. rewrite !map_map in Ef. exact Ef. }
  split; [|by rewrite <- Ep]. clear Hn Ep. revert l' E. induction l as [|x l IH]; intros [|x' l'] E; try done. injection E as E1 E2 E3.
  destruct Ho as [Hx Ho]. split; [|by apply IH]. intros y Hy. rewrite <- E2. apply list_elem_of_lookup in Hy as [i Hi].
  pose proof (f_equal (fun l => l !! i) E3) as Ei. rewrite !list_lookup_fmap, Hi in Ei. destruct (l !! i) as [z|] eqn:Ez; [|done].
  injection Ei as Ei _. rewrite <- Ei. apply Hx. by eapply list_elem_of_lookup_2.
Qed.

Lemma step_tidy c c' : step c c' -> tidy (procs c) -> tidy (procs c').
Proof.
  intros Hs. destruct Hs as [a b pid par p g p' g' pi ev Hc|a b pid par k g n r g' pi ev Hn Hp|a b pid par k g q pi ev Hq Hfresh|a b pid par argv k g pi ev
    |a b pid par g pi ev|a b pid par pi ev|a b c pid par q k g pi ev|a b pid par k g pi ev Hnone]; cbn [procs];
    try (apply tidy_same; rewrite !map_app; reflexivity).
  - intros [Ho Hd]. apply ordered_app in Ho as (Ha & [Hx Hb] & Hab). rewrite map_app in Hd. cbn in Hd.
    assert (Hpid : forall y, y ∈ b -> pid <> pr_pid y).
    { intros y Hy ->. apply NoDup_app in Hd as (_ & _ & Hd). apply NoDup_cons in Hd as [Hd _]. apply Hd. by apply list_elem_of_fmap_2. }
    assert (Hq' : forall y, y ∈ a ++ b -> pr_pid y <> q /\ pr_parent y <> q) by (intros y Hy; apply Hfresh; set_solver).
    destruct (Hfresh (mkProcess pid par (Live (Fork k) g))) as [Hq1 Hq2]; [set_solver|]. cbn in Hq1, Hq2. split.
    + apply ordered_app. split_and!; [done| |].
      * split; [intros y [->|Hy]%elem_of_cons; [exact Hq2|by apply (Hx y)]|]. split; [exact Hpid|done].
      * intros x y Hxa Hy. apply elem_of_cons in Hy as [->|[->|Hy]%elem_of_cons]; cbn.
        -- apply (Hab x (mkProcess pid par (Live (Fork k) g)) Hxa). by left.
        -- apply Hq'. set_solver.
        -- apply (Hab x y Hxa). by right.
    + rewrite map_app. cbn.
      replace (map pr_pid a ++ pid :: q :: map pr_pid b) with ((map pr_pid a ++ [pid]) ++ q :: map pr_pid b) by (by rewrite <- app_assoc).
      rewrite <- Permutation_middle, <- app_assoc. cbn [app]. apply NoDup_cons. split; [|done]. rewrite elem_of_app, elem_of_cons, !list_elem_of_fmap.
      intros [(y & E & Hy)|[E|(y & E & Hy)]]; [|done|]; apply (Hq' y); set_solver.
  - intros [Ho Hd]. apply ordered_app in Ho as (Ha & [Hx Hb] & Hab). apply ordered_app in Hb as (Hb & [_ Hc] & Hbc). split.
    + apply ordered_app. split_and!; [done| |].
      * split; [intros y Hy; apply Hx; set_solver|]. apply ordered_app. split_and!; [done|done|]. intros x y Hxb Hy. apply Hbc; [done|by right].
      * intros x y Hxa Hy. apply elem_of_cons in Hy as [->|Hy]; [apply (Hab x (mkProcess pid par (Live (Wait k) g)) Hxa); by left|]. apply (Hab x y Hxa). set_solver.
    + eapply sublist_NoDup; [exact Hd|]. rewrite !map_app. cbn. rewrite !map_app. cbn. apply sublist_app; [done|]. apply sublist_skip, sublist_app; [done|]. by apply sublist_cons.
Qed.

Lemma fresh_nat (l : list nat) : exists n, (n ∉ l) /\ (0 < n)%nat.
Proof.
  exists (S (sum_list l)). split; [|lia]. assert (H : forall n, n ∈ l -> (n <= sum_list l)%nat).
  { induction l as [|x l IH]; intros n; [set_solver|]. intros [->|Hn]%elem_of_cons; simpl; [lia|]. specialize (IH n Hn). lia. }
  intros Hin%H. lia.
Qed.

Definition live (q : process) : Prop := exists p f, pr_state q = Live p f.
#[global] Instance live_dec q : Decision (live q).
Proof. destruct (pr_state q) as [p f| |] eqn:E; [left; by exists p, f|right; intros (p & f & ?); congruence..]. Defined.

Lemma last_live l : (exists q, q ∈ l /\ live q) -> exists a x b, l = a ++ x :: b /\ live x /\ forall q, q ∈ b -> ~ live q.
Proof.
  induction l as [|x l IH]; intros (q & Hq & Hl); [set_solver|]. destruct (decide (Exists live l)) as [Hex|Hno].
  - apply Exists_exists in Hex as (q' & Hq' & Hl'). destruct IH as (a & y & b & -> & Hy & Hb); [by exists q'|]. by exists (x :: a), y, b.
  - assert (q = x) as -> by (apply elem_of_cons in Hq as [|Hq]; [done|]; destruct Hno; apply Exists_exists; by exists q).
    exists [], x, l. split_and!; [done|done|]. intros q Hq' Hl'. apply Hno, Exists_exists. by exists q.
Qed.

Lemma progress c ns : tidy (procs c) -> Forall2 pbound (procs c) ns -> (exists q, q ∈ procs c /\ live q) -> exists c', step c c'.
Proof.
  destruct c as [ps pi ev]. cbn. intros [Ho _] Hb Hl. destruct (last_live ps Hl) as (a & [pid par st] & b & -> & (p & f & Hst) & Hdead). cbn in Hst. subst st.
  apply Forall2_mid in Hb as (wa & w & wb & -> & _ & Hp & _). cbn in Hp. apply ordered_app in Ho as (_ & _ & Hab).
  destruct p as [| |argv k|fd msg k|fd k|name mode k|fd k|k|k|k|max k|name k]; try (by inversion Hp).
  - eexists. apply s_exit.
  - eexists. apply s_exec.
  - eexists. apply s_call, c_printf.
  - destruct (close_total fd f) as [f' H]. eexists. by apply s_call, (c_close _ _ _ f').
  - destruct (open_total name mode f) as (r & f' & H). eexists. by apply s_call, (c_open _ _ _ _ r f').
  - destruct (dup_total fd f) as [f' H]. eexists. by apply s_call, (c_dup _ _ _ f').
  - destruct (fresh_nat pi) as (n & Hn & _). destruct (pipe_total n f) as (r & f' & H). eexists. by apply (s_pipe _ _ _ _ _ _ n r f').
  - destruct (fresh_nat (map pr_pid (a ++ mkProcess pid par (Live (Fork k) f) :: b) ++ map pr_parent (a ++ mkProcess pid par (Live (Fork k) f) :: b))) as (c & Hc & Hpos).
    eexists. apply (s_fork _ _ _ _ _ _ c); [done|]. intros q Hq. rewrite elem_of_app, !list_elem_of_fmap in Hc. split; intros E; apply Hc; [left|right]; by exists q.
  - destruct (decide (Exists (fun q => pr_parent q = pid) b)) as [Hex|Hno].
    + apply Exists_exists in Hex as ([qp qpar st] & Hq & Hpar). cbn in Hpar. subst qpar. pose proof (Hdead _ Hq) as Hnl. apply list_elem_of_split in Hq as (b1 & b2 & ->).
      destruct st as [p' f'| |]; [destruct Hnl; by exists p', f'| |].
      * eexists. replace (a ++ mkProcess pid par (Live (Wait k) f) :: b1 ++ mkProcess qp pid Ran :: b2) with
          ((a ++ mkProcess pid par (Live (Wait k) f) :: b1) ++ mkProcess qp pid Ran :: b2) by (by rewrite <- app_assoc). apply s_done.
      * eexists. apply s_wait.
    + eexists. apply s_wait_none. intros q [Hq|Hq]%elem_of_app E.
      * apply (Hab q (mkProcess pid par (Live (Wait k) f)) Hq); [by left|exact E].
      * apply Hno, Exists_exists. by exists q.
Qed.

Lemma run_bounded n c c' ns : nsteps step n c c' -> Forall2 pbound (procs c) ns -> exists ns', Forall2 pbound (procs c') ns' /\ (sum_list ns' + n <= sum_list ns)%nat.
Proof.
  intros H. revert ns. induction H as [c|n c c1 c' Hs _ IH]; intros ns Hb; [exists ns; split; [done|lia]|].
  destruct (step_bounded _ _ _ Hs Hb) as (ns1 & Hb1 & Hlt). destruct (IH ns1 Hb1) as (ns' & Hb' & Hle). exists ns'. split; [done|lia].
Qed.

Lemma runs_end c ns : tidy (procs c) -> Forall2 pbound (procs c) ns -> exists c', rtc step c c' /\ forall q, q ∈ procs c' -> ~ live q.
Proof.
  remember (sum_list ns) as k eqn:Ek. revert c ns Ek. induction (lt_wf k) as [k _ IH]. intros c ns Ek Ht Hb.
  destruct (decide (Exists live (procs c))) as [Hex|Hno].
  - destruct (progress c ns Ht Hb (proj1 (Exists_exists _ _) Hex)) as [c1 Hs]. destruct (step_bounded _ _ _ Hs Hb) as (ns1 & Hb1 & Hlt).
    destruct (IH (sum_list ns1) ltac:(lia) c1 ns1 eq_refl (step_tidy _ _ Hs Ht) Hb1) as (c' & Hr & Hd). exists c'. split; [by eapply rtc_l|done].
  - exists c. split; [done|]. intros q Hq Hl. apply Hno, Exists_exists. by exists q.
Qed.

Lemma step_pipes c c' : step c c' -> NoDup (pipes c) -> NoDup (pipes c').
Proof.
  intros Hs. destruct Hs as [|a b pid par k g n r g' pi ev Hn Hp| | | | | |]; cbn [pipes]; try done. intros Hd. apply NoDup_app. split_and!; [done| |].
  - intros x Hx. destruct r; cbn; set_solver.
  - destruct r; cbn; [apply NoDup_singleton|constructor].
Qed.
End Ends.

(** What the programs of a command leave alone. *)
Lemma wired_others {sys : Sys} t f ev pi argv g i : wired t f ev pi -> fds_ok t -> (argv, g) ∈ ev -> (3 <= i)%nat -> g !! i = f !! i.
Proof.
  induction 1 as [| |argv' f Hne|t file mode fd f ev pi H IH|a b f n eva pia evb pib Ha IHa Hb IHb|a b f eva pia evb pib Ha IHa Hb IHb|t f ev pi H IH];
    cbn [fds_ok]; intros Hok Hin Hi; rewrite ?elem_of_app in Hin; try (by set_solver).
  - destruct Hok as [Hfd Hok]. rewrite (IH Hok Hin Hi). rewrite list_lookup_insert_ne by lia. done.
  - destruct Hok as [H1 H2]. destruct Hin as [Hin|Hin]; [rewrite (IHa H1 Hin Hi)|rewrite (IHb H2 Hin Hi)]; rewrite list_lookup_insert_ne by lia; done.
Qed.

Lemma tredirs_fds rs t : fds_ok t -> fds_ok (tredirs rs t).
Proof. revert t. induction rs as [|[[] w] rs IH]; intros t Ht; [done|..]; apply IH; cbn; (split; [lia|done]). Qed.

Lemma tpush_fds w t : fds_ok t -> fds_ok (tpush w t).
Proof. induction t; cbn; naive_solver. Qed.

Lemma tree_fds : (forall e, fds_ok (exec_tree e)) /\ (forall p, fds_ok (pipe_tree p)) /\ (forall l, fds_ok (line_tree l)).
Proof.
  assert (Hit : forall k t, fds_ok t -> fds_ok (Nat.iter k TBack t)) by (induction k; cbn; auto).
  apply shell_ind; cbn; intros; auto.
  - assert (H : fds_ok (tredirs rs (TExec []))) by (by apply tredirs_fds). revert H. generalize (tredirs rs (TExec [])).
    induction args as [|a args IH]; intros t Ht; [done|]. cbn. apply IH. apply tredirs_fds. by apply tpush_fds.
  - by apply tredirs_fds.
Qed.

(** ** Properties *)

(** A process about to run a command line. *)
Definition about_to_run (pid par n : nat) (buf : list Z) (f : table) : config := mkConfig [mkProcess pid par (Live (run_line n buf) f)] [] [].

Lemma run_line_tree T pad l n : 0 ∉ T -> laid T (line_toks l) -> line_ok l -> (length T < n)%nat ->
  exists c mem, run_line n (T ++ 0 :: pad) = runcmd mem c /\ cview mem c = line_tree l.
Proof.
  intros H0 Hl Hok Hn. destruct (parsecmd_tree T pad l n H0 Hl Hok Hn) as (c & mem & Hp & Hv). exists c, mem. unfold run_line. by rewrite Hp.
Qed.

(** C4. The shell runs what the line says.  When a process with its three standard
    descriptors open runs a line of the grammar, then in every interleaving of the
    processes it creates, once none of them is a shell any more, the programs started
    are exactly those of the line, each with its arguments and with the descriptors that
    its redirections and pipes give it: both ends of every pipe of the line are where
    they belong and nowhere else, every pipe is a new one, and the descriptors above the
    standard ones are those the shell had.  (If opening a file, creating a pipe or a
    process or starting a program can fail, the programs of the parts concerned are
    missing.) *)
Theorem shell_runs_line {sys : Sys} {laws : SysLaws sys} (T pad : list Z) (l : sline) (n pid par : nat) (f : table) c :
  0 ∉ T -> laid T (line_toks l) -> line_ok l -> (length T < n)%nat -> std f -> roomy f ->
  rtc step (about_to_run pid par n (T ++ 0 :: pad) f) c -> (forall q, q ∈ procs c -> ~ live q) ->
  does (line_tree l) f (started c) (pipes c) /\ NoDup (pipes c) /\
  forall argv g i, (argv, g) ∈ started c -> (3 <= i)%nat -> g !! i = f !! i.
Proof.
  intros H0 Hl Hok Hn Hs Hr Hrun Hend. destruct (run_line_tree T pad l n H0 Hl Hok Hn) as (cm & mem & Hp & Hv).
  pose proof (proj2 (proj2 tree_fds) l) as Hfd. set (c0 := about_to_run _ _ _ _ _) in Hrun.
  assert (Hinv : promise (line_tree l) f c /\ NoDup (pipes c)).
  { clear Hend. assert (H : promise (line_tree l) f c0 /\ NoDup (pipes c0)).
    - split; [|constructor]. intros ws Hws. inversion Hws as [|? w ? ? Hw Hnil]; subst. inversion Hnil; subst. cbn. rewrite !app_nil_r.
      unfold pwill in Hw. cbn in Hw. rewrite Hp in Hw. rewrite <- Hv. apply runcmd_will; try done. by rewrite Hv.
    - clearbody c0. induction Hrun as [|c1 c2 c3 Hs1 _ IH]; [done|]. apply IH. destruct H. split; [by eapply promise_step|by eapply step_pipes]. }
  destruct Hinv as [Hpr Hnd]. assert (Hd : does (line_tree l) f (started c) (pipes c)).
  { specialize (Hpr (replicate (length (procs c)) ([], []))). assert (E : forall k, concat (map fst (replicate k (([], []) : list event * list nat))) = [] /\ concat (map snd (replicate k (([], []) : list event * list nat))) = []) by (induction k; done).
    destruct (E (length (procs c))) as [E1 E2]. rewrite E1, E2, !app_nil_r in Hpr. apply Hpr. clear - Hend. induction (procs c) as [|q l IH]; [constructor|]. cbn.
    constructor; [|apply IH; set_solver]. specialize (Hend q ltac:(set_solver)). unfold pwill. destruct (pr_state q) as [p f| |] eqn:Eq; [destruct Hend; by exists p, f|done|done]. }
  split_and!; [done|done|]. intros argv g i Hin Hi. destruct Hd as (ev & pi & He & _ & Hw). rewrite He in Hin. by eapply wired_others.
Qed.


(** The descriptors below 3 that are free. *)
Definition holes (f : table) : nat := length (filter (fun o => o = None) (take 3 f)).

Lemma holes_fill f d o : f !! d = Some None -> (d < 3)%nat -> holes f = S (holes (<[d := Some o]> f)).
Proof.
  intros Hd H3. unfold holes. destruct f as [|a [|b [|c f]]]; destruct d as [|[|[|d]]]; try done; try lia; cbn in Hd; injection Hd as ->; cbn;
    repeat case_decide; try done.
Qed.

Lemma open_console_std {sys : Sys} {laws : SysLaws sys} n k f ev pi :
  ~ may_fail -> (3 <= length f)%nat -> (holes f < n)%nat -> will (open_console n k) f ev pi ->
  exists f', will k f' ev pi /\ std f' /\ forall i, (3 <= i)%nat -> f' !! i = f !! i.
Proof.
  intros Hnf. revert f ev pi. induction n as [|n IH]; intros f ev pi Hlen Hh Hw; [lia|]. cbn [open_console] in Hw. destruct (lowest f) as [d|] eqn:Hd.
  - destruct (will_open _ _ _ _ d _ _ Hd Hw) as [[Hm _]|Hw']; [done|]. clear Hw. apply lowest_Some in Hd as [Hd0 Hdl]. rewrite (proj2 (Z.ltb_ge _ _)) in Hw' by lia.
    destruct (Z.leb_spec 3 (Z.of_nat d)) as [H3|H3].
    + apply will_close in Hw'; [|lia]. rewrite Nat2Z.id, list_insert_insert_eq, list_insert_id in Hw' by done. exists f. split_and!; [done| |done].
      intros i Hi. apply Hdl. lia.
    + assert (Hf : holes f = S (holes (<[d := Some (File (bytes "console") O_RDWR)]> f))) by (apply holes_fill; [done|lia]).
      destruct (IH (<[d := Some (File (bytes "console") O_RDWR)]> f) ev pi) as (f' & H1 & H2 & H4); [by rewrite length_insert|lia|exact Hw'|].
      exists f'. split_and!; [done|done|]. intros i Hi. rewrite H4, list_lookup_insert_ne by lia. done.
  - inversion Hw as [| |? ? ? ? ? ? Hc Hw'| | |]; subst. inversion Hc; subst. destruct (open_law _ _ _ _ _ H5) as [[Hm _]|Hl]; [done|]. rewrite Hd in Hl.
    destruct Hl as [-> ->]. exists f. split_and!; [exact Hw'| |done]. intros i Hi. destruct (lookup_lt_is_Some_2 f i) as [[o|] Ho]; [lia|by exists o|].
    destruct (lowest_exists f i Ho) as (d & Hd' & _). congruence.
Qed.

(** A system in which nothing fails. *)
#[export] Instance plain_sys : Sys := {
  sys_open name mode f r f' :=
    match lowest f with Some d => r = Z.of_nat d /\ f' = <[d := Some (File name mode)]> f | None => r = -1 /\ f' = f end;
  sys_close fd f f' := f' = <[Z.to_nat fd := None]> f;
  sys_dup fd f f' :=
    match f !! Z.to_nat fd, lowest f with Some (Some o), Some d => f' = <[d := Some o]> f | _, _ => f' = f end;
  sys_pipe n f r f' :=
    match lowest f with
    | Some a =>
      let f1 := <[a := Some (PipeRead n)]> f in
      match lowest f1 with
      | Some b => r = Some (Z.of_nat a, Z.of_nat b) /\ f' = <[b := Some (PipeWrite n)]> f1
      | None => r = None /\ f' = f
      end
    | None => r = None /\ f' = f
    end;
  may_fail := False }.

#[export] Instance plain_laws : SysLaws plain_sys.
Proof.
  split; unfold sys_open, sys_close, sys_dup, sys_pipe, plain_sys.
  - intros name mode f r f' H. by right.
  - intros name mode f. destruct (lowest f); eauto.
  - done.
  - eauto.
  - intros fd f f' o d _ Ho Hd H. by rewrite Ho, Hd in H.
  - intros fd f. destruct (f !! Z.to_nat fd) as [[o|]|], (lowest f); eauto.
  - intros n f r f' H. by right.
  - intros n f. destruct (lowest f) as [a|]; [|eauto]. cbv zeta. destruct (lowest _); eauto.
Qed.

Definition demo_table : table := [Some (Inherited 0); Some (Inherited 1); Some (Inherited 2)] ++ replicate 13 None.

Lemma demo_std : std demo_table /\ roomy demo_table.
Proof.
  split; [|by exists 3%nat, 4%nat]. intros i Hi. destruct i as [|[|[|i]]]; [by eexists|by eexists|by eexists|lia].
Qed.

Lemma demo_line : (0 ∉ text_demo) /\ line_ok line_demo /\ (length text_demo < 10)%nat.
Proof. unfold text_demo, MAXARGS. split; [set_solver|]. split; [|simpl; lia]. simpl. unfold MAXARGS. lia. Qed.

Lemma shell_runs_line_witness :
  exists c, rtc step (about_to_run 2 1 10 (text_demo ++ 0 :: [7]) demo_table) c /\
    does (line_tree line_demo) demo_table (started c) (pipes c).
Proof.
  destruct demo_line as (H1 & H2 & H3). destruct demo_std as [H4 H5].
  destruct (run_line_tree text_demo [7] line_demo 10 H1 laid_demo H2 H3) as (cm & mem & Hp & _). destruct (runcmd_bounded mem cm) as (b & _ & Hb).
  destruct (runs_end (about_to_run 2 1 10 (text_demo ++ 0 :: [7]) demo_table) [b]) as (c & Hr & He).
  - split; [split; [intros y Hy; destruct (not_elem_of_nil y Hy)|exact I]|apply NoDup_singleton].
  - constructor; [unfold pbound; cbn [about_to_run procs pr_state]; rewrite Hp; exact Hb|constructor].
  - exists c. split; [exact Hr|].
    apply (shell_runs_line text_demo [7] line_demo 10 2 1 demo_table c H1 laid_demo H2 H3 H4 H5 Hr He).
Defined.

