(* ===== verification/Primes.v ===== *)
(** * The prime number table (prime_numbers.c)

    What the program writes to its file, as bytes.  [int]s are 32 bits wide.  [atoi] is a
    library function that is not part of these sources. *)

From stdpp Require Import gmap.
From Stdlib Require Import Znumtheory.
From S2P Require Import Prelude Cprintf Printf.
Local Open Scope Z_scope.

(** ** prime_numbers.c *)

Section Program.
Variable atoi : list Z -> Z.

Definition atoi_neg (str : list Z) : Z :=
  match str with
  | 45 :: str => i32 (-1 * atoi str)
  | 43 :: str => i32 (1 * atoi str)
  | _ => i32 (1 * atoi str)
  end.

(** [for(j = 2; j*j <= i; ++j) if(i % j == 0) ...]: whether [isPrime] stays 1. *)
Fixpoint prime_test (k : nat) (i j : Z) : option bool :=
  match k with
  | O => None
  | S k => if i32 (j * j) <=? i then if Z.rem i j =? 0 then Some false else prime_test k i (i32 (j + 1)) else Some true
  end.

Fixpoint primes_loop (k : nat) (i last : Z) : option (list Z) :=
  if i <=? last then
    match k with
    | O => None
    | S k =>
      isPrime ← prime_test (Z.to_nat i) i 2;
      out ← (if (isPrime : bool) then printf (bytes "%d ") [AInt i] else Some []);
      rest ← primes_loop k (i32 (i + 2)) last;
      Some (out ++ rest)
    end
  else Some [].

Definition writePrimes (first last : Z) : option (list Z) :=
  let '(first, out) := if first <=? 2 then (3, if 2 <=? last then bytes "2 " else []) else (first, []) in
  let first := if Z.land first 1 =? 0 then i32 (first + 1) else first in
  rest ← primes_loop (Z.to_nat (last - first + 1)) first last;
  Some (out ++ rest).

(** The contents of prime_numbers.txt, unless the arguments are missing or the file
    cannot be created. *)
Definition prime_numbers (argv : list (list Z)) (created : bool) : option (list Z) :=
  match argv with
  | _ :: a :: b :: _ =>
    let first := atoi_neg a in
    let last := atoi_neg b in
    let '(first, last) := if last <? first then (last, first) else (first, last) in
    if created then out ← writePrimes first last; Some (out ++ [10]) else None
  | _ => None
  end.
End Program.

(** ** Primes *)

#[global] Instance prime_decision p : Decision (prime p) := prime_dec p.

Lemma prime_small i : 1 < i -> (forall j, 2 <= j -> j * j <= i -> ~ (j | i)) -> prime i.
Proof.
  intros Hi H. apply prime_alt. split; [done|]. intros n Hn Hd. pose proof Hd as [m Hm].
  destruct (Z.le_gt_cases n m) as [Hle|Hgt].
  - apply (H n); [lia|nia|done].
  - apply (H m); [nia|nia|]. exists n. lia.
Qed.

Lemma prime_test_ok k i j : 2 < i < 2147395600 -> 2 <= j -> (j - 1) * (j - 1) <= i -> (Z.to_nat (i - j) < k)%nat ->
  (forall n, 2 <= n < j -> ~ (n | i)) -> prime_test k i j = Some (bool_decide (prime i)).
Proof.
  revert j. induction k as [|k IH]; intros j Hi Hj Hjj Hk Hno; [lia|]. cbn [prime_test]. assert (Hb : j <= 46340) by nia.
  rewrite i32_id by nia. destruct (Z.leb_spec (j * j) i) as [Hle|Hgt].
  - rewrite Z.rem_mod_nonneg by lia. destruct (Z.eqb_spec (i mod j) 0) as [E|E].
    + rewrite bool_decide_eq_false_2; [done|]. intros Hp. apply prime_alt in Hp as [_ Hp]. apply (Hp j); [nia|]. by apply Z.mod_divide; [lia|].
    + rewrite i32_id by lia. apply IH; try lia; try nia. intros n Hn. destruct (decide (n = j)) as [->|]; [|apply Hno; lia].
      intros Hd. apply E, Z.mod_divide; [lia|done].
  - rewrite bool_decide_eq_true_2; [done|]. apply prime_small; [lia|]. intros n Hn Hnn. apply Hno. nia.
Qed.

(** What the program writes for a prime. *)
Definition entry (p : Z) : list Z := printint_chars p 10 true ++ [32].
Definition primes_from (a b : Z) : list Z := filter prime (zrange a b).

Lemma printf_entry i : 0 <= i < 2147483648 -> printf (bytes "%d ") [AInt i] = Some (entry i).
Proof. intros Hi. apply (printf_item (Dec i) [32] [] [32]); [simpl; lia|reflexivity]. Qed.

Lemma odd_bit i : Z.land i 1 = i mod 2.
Proof. exact (Z.land_ones i 1 ltac:(lia)). Qed.

Lemma not_prime_even i : 2 < i -> i mod 2 = 0 -> ~ prime i.
Proof. intros Hi H Hp. apply prime_alt in Hp as [_ Hp]. apply (Hp 2); [lia|]. by apply Z.mod_divide. Qed.

Lemma primes_nil a b : b <= a -> primes_from a b = [].
Proof. intros H. unfold primes_from. by rewrite zrange_nil. Qed.

Lemma primes_cons a b : a < b -> primes_from a b = (if bool_decide (prime a) then [a] else []) ++ primes_from (a + 1) b.
Proof.
  intros H. unfold primes_from. rewrite zrange_cons by done. destruct (bool_decide_reflect (prime a)) as [Hp|Hp]; [by rewrite filter_cons_True|by rewrite filter_cons_False].
Qed.

(** An even number can be left out. *)
Lemma primes_skip a b : 2 < a -> a mod 2 = 0 -> primes_from a b = primes_from (a + 1) b.
Proof.
  intros Ha He. destruct (Z.lt_ge_cases a b) as [Hlt|Hge]; [|by rewrite !primes_nil by lia].
  rewrite primes_cons, bool_decide_eq_false_2; [done|by apply not_prime_even|done].
Qed.

Lemma primes_loop_ok k i last : 2 < i -> i mod 2 = 1 -> last < 2147395600 -> (Z.to_nat (last - i + 1) <= k)%nat ->
  primes_loop k i last = Some (concat (map entry (primes_from i (last + 1)))).
Proof.
  revert i. induction k as [|k IH]; intros i Hi Hodd Hlast Hk; cbn [primes_loop]; destruct (Z.leb_spec i last) as [Hle|Hgt]; try lia;
    try (by rewrite primes_nil by lia).
  rewrite (prime_test_ok _ i 2) by (lia || intros; lia). cbn [mbind option_bind]. rewrite (primes_cons i) by lia.
  rewrite (primes_skip (i + 1)) by (Z.div_mod_to_equations; lia). rewrite i32_id by lia. replace (i + 1 + 1) with (i + 2) by lia.
  destruct (bool_decide (prime i)); [rewrite printf_entry by lia|]; cbn [mbind option_bind]; (rewrite IH by (Z.div_mod_to_equations; lia)); cbn [mbind option_bind app map concat]; done.
Qed.

Lemma primes_low lo hi : lo <= 2 -> primes_from (Z.max lo 0) (hi + 1) = (if 2 <=? hi then [2] else []) ++ primes_from 3 (hi + 1).
Proof.
  intros Hlo. assert (H2 : primes_from 2 (hi + 1) = (if 2 <=? hi then [2] else []) ++ primes_from 3 (hi + 1)).
  { destruct (Z.leb_spec 2 hi); [|by rewrite !primes_nil by lia]. rewrite primes_cons, bool_decide_eq_true_2; [done|apply prime_small; [lia|intros; nia]|lia]. }
  assert (Hskip : forall a, a < 2 -> primes_from a (hi + 1) = primes_from (a + 1) (hi + 1)).
  { intros a Ha. destruct (Z.lt_ge_cases a (hi + 1)); [|by rewrite !primes_nil by lia]. rewrite primes_cons, bool_decide_eq_false_2; [done| |done].
    intros [Hp _]. lia. }
  assert (Hc : Z.max lo 0 = 0 \/ Z.max lo 0 = 1 \/ Z.max lo 0 = 2) by lia.
  destruct Hc as [->|[->| ->]]; [by rewrite !Hskip by lia|by rewrite Hskip by lia|done].
Qed.

Lemma writePrimes_ok lo hi : hi < 2147395600 -> lo <= hi -> writePrimes lo hi = Some (concat (map entry (primes_from (Z.max lo 0) (hi + 1)))).
Proof.
  intros Hhi Hle. unfold writePrimes. destruct (Z.leb_spec lo 2) as [H2|H2].
  - cbv beta iota zeta. change (Z.land 3 1 =? 0) with false. cbv iota. rewrite primes_loop_ok by (done || lia). cbn [mbind option_bind].
    rewrite primes_low, map_app, concat_app by done. by destruct (2 <=? hi).
  - cbv beta iota zeta. rewrite odd_bit, Z.max_l by lia. destruct (Z.eqb_spec (lo mod 2) 0) as [E|E].
    + rewrite i32_id by lia. rewrite (primes_skip lo) by done. rewrite primes_loop_ok; [done|lia|Z.div_mod_to_equations; lia|lia|lia].
    + rewrite primes_loop_ok; [done|lia|Z.div_mod_to_equations; lia|lia|lia].
Qed.

(** ** Property *)

(** The prime numbers program writes the prime numbers.  For numbers up to
    [2147395600] (beyond which the square of the trial divisor leaves the range of [int]),
    in either order, the file receives exactly the prime numbers between them, in
    increasing order, each followed by a space, and then a newline. *)
Theorem prime_numbers_exact (atoi : list Z -> Z) (name a b : list Z) (rest : list (list Z)) :
  let lo := Z.min (atoi_neg atoi a) (atoi_neg atoi b) in
  let hi := Z.max (atoi_neg atoi a) (atoi_neg atoi b) in
  hi < 2147395600 ->
  prime_numbers atoi (name :: a :: b :: rest) true = Some (concat (map entry (primes_from (Z.max lo 0) (hi + 1))) ++ [10]).
Proof.
  intros lo hi Hhi. unfold prime_numbers. set (x := atoi_neg atoi a) in *. set (y := atoi_neg atoi b) in *.
  replace (if y <? x then (y, x) else (x, y)) with (lo, hi) by (unfold lo, hi; destruct (Z.ltb_spec y x); f_equal; lia).
  rewrite writePrimes_ok by (unfold lo, hi in *; lia). done.
Qed.

(** 10 and 3, as a decimal [atoi] reads them *)
Definition demo_atoi (s : list Z) : Z := fold_left (fun n c => 10 * n + (c - 48)) s 0.

Lemma prime_numbers_exact_witness :
  Some (concat (map entry (primes_from 0 11)) ++ [10]) = Some (bytes "2 3 5 7 " ++ [10]).
Proof.
  etransitivity; [symmetry; exact (prime_numbers_exact demo_atoi (bytes "prime_numbers") (bytes "10") (bytes "-3") [] eq_refl)|].
  vm_compute. reflexivity.
Defined.
