(* ===== verification/Mmu.v ===== *)
(** * Addresses, page tables and descriptors (mmu.h, memlayout.h, main.c: entrypgdir)

    The macros of mmu.h on 32-bit words, next to what the processor makes of them: the
    translation of an address through a page directory of large pages, and the reading
    of segment and gate descriptors from their 64 bits. *)

From stdpp Require Import gmap.
From S2P Require Import Prelude Spinlock Kalloc.
Local Open Scope Z_scope.

(** ** mmu.h *)

Definition PTXSHIFT : Z := 12.
Definition PDXSHIFT : Z := 22.
Definition NPDENTRIES : nat := 1024.

Definition PDX (va : Z) : Z := Z.land (Z.shiftr (u32 va) PDXSHIFT) 1023.
Definition PTX (va : Z) : Z := Z.land (Z.shiftr (u32 va) PTXSHIFT) 1023.
Definition PGADDR (d t o : Z) : Z := u32 (Z.lor (Z.lor (Z.shiftl d PDXSHIFT) (Z.shiftl t PTXSHIFT)) o).
Definition PGROUNDDOWN (a : Z) : Z := Z.land a (Z.lnot (PGSIZE - 1)).

Definition PTE_P : Z := 1.
Definition PTE_W : Z := 2.
Definition PTE_U : Z := 4.
Definition PTE_PS : Z := 128.
Definition PTE_ADDR (pte : Z) : Z := Z.land (u32 pte) (Z.lnot 4095).
Definition PTE_FLAGS (pte : Z) : Z := Z.land (u32 pte) 4095.

Definition STS_IG32 : Z := 14.
Definition STS_TG32 : Z := 15.

(** A bit field of width [w] keeps the low [w] bits of what is stored. *)
Definition field (w x : Z) : Z := x mod 2 ^ w.

Record segdesc : Type := mkSegdesc {
  lim_15_0 : Z; base_15_0 : Z; base_23_16 : Z; sd_type : Z; sd_s : Z; sd_dpl : Z; sd_p : Z;
  lim_19_16 : Z; sd_avl : Z; sd_rsv1 : Z; sd_db : Z; sd_g : Z; base_31_24 : Z }.

Definition SEG (type base lim dpl : Z) : segdesc :=
  mkSegdesc (field 16 (Z.land (Z.shiftr lim 12) 65535)) (field 16 (Z.land (u32 base) 65535))
    (field 8 (Z.land (Z.shiftr (u32 base) 16) 255)) (field 4 type) 1 (field 2 dpl) 1
    (field 4 (Z.shiftr (u32 lim) 28)) 0 0 1 1 (field 8 (Z.shiftr (u32 base) 24)).

Definition SEG16 (type base lim dpl : Z) : segdesc :=
  mkSegdesc (field 16 (Z.land lim 65535)) (field 16 (Z.land (u32 base) 65535))
    (field 8 (Z.land (Z.shiftr (u32 base) 16) 255)) (field 4 type) 1 (field 2 dpl) 1
    (field 4 (Z.shiftr (u32 lim) 16)) 0 0 1 0 (field 8 (Z.shiftr (u32 base) 24)).

Record gatedesc : Type := mkGatedesc {
  off_15_0 : Z; gd_cs : Z; gd_args : Z; gd_rsv1 : Z; gd_type : Z; gd_s : Z; gd_dpl : Z; gd_p : Z; off_31_16 : Z }.

Definition SETGATE (istrap : bool) (sel off d : Z) : gatedesc :=
  mkGatedesc (field 16 (Z.land (u32 off) 65535)) (field 16 sel) 0 0 (field 4 (if istrap then STS_TG32 else STS_IG32)) 0
    (field 2 d) 1 (field 16 (Z.shiftr (u32 off) 16)).

(** ** main.c: the page directory of entry.S *)

Definition entrypgdir : list Z :=
  <[Z.to_nat (Z.shiftr KERNBASE PDXSHIFT) := Z.lor (Z.lor (Z.lor 0 PTE_P) PTE_W) PTE_PS]>
    (<[0%nat := Z.lor (Z.lor (Z.lor 0 PTE_P) PTE_W) PTE_PS]> (replicate NPDENTRIES 0)).

(** ** The processor *)

(** Fields of the given widths, the first in the low bits. *)
Fixpoint pack (l : list (Z * Z)) : Z :=
  match l with
  | [] => 0
  | (w, x) :: l => x + 2 ^ w * pack l
  end.
Definition bits (v lo w : Z) : Z := (v / 2 ^ lo) mod 2 ^ w.

(** The fields of the descriptors, with their widths. *)
Definition seg_fields (d : segdesc) : list (Z * Z) :=
  [(16, lim_15_0 d); (16, base_15_0 d); (8, base_23_16 d); (4, sd_type d); (1, sd_s d); (2, sd_dpl d); (1, sd_p d);
   (4, lim_19_16 d); (1, sd_avl d); (1, sd_rsv1 d); (1, sd_db d); (1, sd_g d); (8, base_31_24 d)].
Definition gate_fields (g : gatedesc) : list (Z * Z) :=
  [(16, off_15_0 g); (16, gd_cs g); (5, gd_args g); (3, gd_rsv1 g); (4, gd_type g); (1, gd_s g); (2, gd_dpl g); (1, gd_p g); (16, off_31_16 g)].
Definition seg_word (d : segdesc) : Z := pack (seg_fields d).
Definition gate_word (g : gatedesc) : Z := pack (gate_fields g).

(** How the processor reads a segment descriptor: the base, the last valid offset, and
    type, privilege and presence. *)
Definition seg_base (v : Z) : Z := bits v 16 16 + 65536 * bits v 32 8 + 16777216 * bits v 56 8.
Definition seg_limit (v : Z) : Z :=
  let lim := bits v 0 16 + 65536 * bits v 48 4 in
  if bits v 55 1 =? 1 then lim * 4096 + 4095 else lim.
Definition seg_access (v : Z) : Z * Z * Z * Z := (bits v 40 4, bits v 44 1, bits v 45 2, bits v 47 1).
Definition gate_offset (v : Z) : Z := bits v 0 16 + 65536 * bits v 48 16.
Definition gate_access (v : Z) : Z * Z * Z * Z * Z := (bits v 16 16, bits v 40 4, bits v 44 1, bits v 45 2, bits v 47 1).

(** The translation of an address where the directory entry maps a page of 4 megabytes:
    the physical address, whether it can be written, whether user code can use it. *)
Definition translate4M (pgdir : list Z) (va : Z) : option (Z * bool * bool) :=
  let pde := nth (Z.to_nat (PDX va)) pgdir 0 in
  if negb (Z.testbit pde 0) then None
  else if negb (Z.testbit pde 7) then None
  else Some (bits pde 22 10 * 4194304 + u32 va mod 4194304, Z.testbit pde 1, Z.testbit pde 2).

(** ** Properties *)

Lemma land_ones' x n : 0 <= n -> Z.land x (2 ^ n - 1) = x mod 2 ^ n.
Proof. intros Hn. rewrite <- Z.land_ones, Z.ones_equiv by done. done. Qed.

Lemma PDX_eq va : PDX va = u32 va / 4194304.
Proof.
  unfold PDX, PDXSHIFT. rewrite Z.shiftr_div_pow2 by lia. rewrite (land_ones' _ 10) by lia. change (2 ^ 22) with 4194304. change (2 ^ 10) with 1024.
  unfold u32. Z.div_mod_to_equations. lia.
Qed.

Lemma PTX_eq va : PTX va = u32 va / 4096 mod 1024.
Proof. unfold PTX, PTXSHIFT. rewrite Z.shiftr_div_pow2 by lia. by rewrite (land_ones' _ 10) by lia. Qed.

Lemma lor_shift a b n : 0 <= n -> 0 <= b < 2 ^ n -> Z.lor (Z.shiftl a n) b = a * 2 ^ n + b.
Proof.
  intros Hn Hb. pose proof (Z.add_lor_land (Z.shiftl a n) b) as E. rewrite Z.shiftl_mul_pow2 in * by done.
  enough (H0 : Z.land (a * 2 ^ n) b = 0) by lia. rewrite <- Z.shiftl_mul_pow2 by done. apply Z.bits_inj'. intros i Hi. rewrite Z.land_spec, Z.bits_0. destruct (Z.lt_ge_cases i n) as [H|H].
  - by rewrite Z.shiftl_spec_low.
  - replace (Z.testbit b i) with false; [by rewrite andb_false_r|]. symmetry. destruct (decide (b = 0)) as [->|]; [apply Z.bits_0|].
    apply Z.bits_above_log2; [lia|]. apply Z.log2_lt_pow2; [lia|]. apply (Z.lt_le_trans _ (2 ^ n)); [lia|]. by apply Z.pow_le_mono_r.
Qed.

Lemma PGADDR_eq d t o : 0 <= d < 1024 -> 0 <= t < 1024 -> 0 <= o < 4096 -> PGADDR d t o = d * 4194304 + t * 4096 + o.
Proof.
  intros Hd Ht Ho. unfold PGADDR, PDXSHIFT, PTXSHIFT. rewrite <- Z.lor_assoc, (lor_shift t o 12), lor_shift by (change (2 ^ 12) with 4096; change (2 ^ 22) with 4194304; lia).
  change (2 ^ 12) with 4096. change (2 ^ 22) with 4194304. rewrite u32_id; lia.
Qed.

Lemma land_low x : Z.land x (Z.lnot 4095) = x - x mod 4096.
Proof.
  change 4095 with (Z.ones 12). rewrite <- Z.ldiff_land, Z.ldiff_ones_r, Z.shiftl_mul_pow2, Z.shiftr_div_pow2 by lia.
  change (2 ^ 12) with 4096. Z.div_mod_to_equations. lia.
Qed.

Lemma PTE_ADDR_eq pte : PTE_ADDR pte = u32 pte - u32 pte mod 4096.
Proof. apply land_low. Qed.

Lemma PTE_FLAGS_eq pte : PTE_FLAGS pte = u32 pte mod 4096.
Proof. unfold PTE_FLAGS. by rewrite (land_ones' _ 12) by lia. Qed.

Lemma PGROUNDDOWN_eq a : PGROUNDDOWN a = a - a mod 4096.
Proof. apply land_low. Qed.

(** The parts of an address.  An address is put together again from its directory
    index, its table index and its offset, which are in range, and from parts in range
    [PGADDR] makes the address that has them; a page table entry is the sum of its
    address and its flags; and rounding gives the page boundaries around an address. *)
Theorem address_parts va d t o :
  (0 <= PDX va < 1024 /\ 0 <= PTX va < 1024 /\ PGADDR (PDX va) (PTX va) (PTE_FLAGS va) = u32 va) /\
  (0 <= d < 1024 -> 0 <= t < 1024 -> 0 <= o < 4096 ->
   PDX (PGADDR d t o) = d /\ PTX (PGADDR d t o) = t /\ PTE_FLAGS (PGADDR d t o) = o /\ PTE_ADDR (PGADDR d t o) = PGADDR d t 0) /\
  PTE_ADDR va + PTE_FLAGS va = u32 va /\
  (0 <= va < 4294963200 ->
   PGROUNDDOWN va mod 4096 = 0 /\ PGROUNDUP va mod 4096 = 0 /\
   PGROUNDDOWN va <= va < PGROUNDDOWN va + 4096 /\ va <= PGROUNDUP va < va + 4096).
Proof.
  pose proof (u32_range va) as Hu. split_and!; rewrite ?PDX_eq, ?PTX_eq, ?PTE_FLAGS_eq, ?PTE_ADDR_eq; try (Z.div_mod_to_equations; lia).
  - rewrite PGADDR_eq by (Z.div_mod_to_equations; lia). Z.div_mod_to_equations. lia.
  - intros Hd Ht Ho. rewrite !PGADDR_eq by lia. rewrite u32_id by lia. split_and!; Z.div_mod_to_equations; lia.
  - intros Hva. destruct (PGROUNDUP_spec va) as [H1 H2]; [unfold PGSIZE; lia..|]. rewrite PGROUNDDOWN_eq. unfold PGSIZE in *. split_and!; Z.div_mod_to_equations; lia.
Qed.

Lemma address_parts_witness :
  PDX (PGADDR 512 3 7) = 512 /\ PTX (PGADDR 512 3 7) = 3 /\ PTE_FLAGS (PGADDR 512 3 7) = 7 /\ PTE_ADDR (PGADDR 512 3 7) = PGADDR 512 3 0.
Proof. apply (address_parts 0 512 3 7); split; (discriminate || reflexivity). Defined.

(** ** Bit fields *)

Definition width (l : list (Z * Z)) : Z := fold_right (fun f n => f.1 + n) 0 l.
Definition fits_fields (l : list (Z * Z)) : Prop := Forall (fun f => 0 <= f.1 /\ 0 <= f.2 < 2 ^ f.1) l.

Lemma pack_bits l1 w x l2 : fits_fields (l1 ++ (w, x) :: l2) -> bits (pack (l1 ++ (w, x) :: l2)) (width l1) w = x.
Proof.
  unfold bits. induction l1 as [|[w' x'] l1 IH]; intros H.
  - apply Forall_cons in H as [[Hw Hx] _]. cbn in *. rewrite Z.div_1_r, Z.mul_comm, Z.mod_add by lia. by apply Z.mod_small.
  - apply Forall_cons in H as [[Hw Hx] H]. cbn [fst snd] in *. cbn [app pack width fold_right fst]. fold (width l1).
    assert (Hwl : 0 <= width l1).
    { apply Forall_app in H as [H _]. clear - H. induction H as [|[w x] l [H1 _] H IH]; [done|]. cbn in *. fold (width l). lia. }
    rewrite Z.pow_add_r, <- Z.div_div, Z.mul_comm, Z.div_add by lia. rewrite (Z.div_small x') by done. by apply IH.
Qed.

Lemma field_range w x : 0 <= w -> 0 <= field w x < 2 ^ w.
Proof. intros Hw. apply Z.mod_pos_bound. by apply Z.pow_pos_nonneg. Qed.

Lemma SEG_fits type base lim dpl : fits_fields (seg_fields (SEG type base lim dpl)) /\ fits_fields (seg_fields (SEG16 type base lim dpl)).
Proof. split; repeat (apply Forall_cons; split; [cbn [fst snd]; split; [lia|]; first [by apply field_range|done]|]); apply Forall_nil_2. Qed.

Lemma SETGATE_fits istrap sel off d : fits_fields (gate_fields (SETGATE istrap sel off d)).
Proof. repeat (apply Forall_cons; split; [cbn [fst snd]; split; [lia|]; first [by apply field_range|done]|]); apply Forall_nil_2. Qed.

Lemma seg_bits d : fits_fields (seg_fields d) -> let v := seg_word d in
  bits v 0 16 = lim_15_0 d /\ bits v 16 16 = base_15_0 d /\ bits v 32 8 = base_23_16 d /\ bits v 40 4 = sd_type d /\ bits v 44 1 = sd_s d /\
  bits v 45 2 = sd_dpl d /\ bits v 47 1 = sd_p d /\ bits v 48 4 = lim_19_16 d /\ bits v 55 1 = sd_g d /\ bits v 56 8 = base_31_24 d.
Proof.
  intros H v. assert (Hk : forall k w x, seg_fields d !! k = Some (w, x) -> bits v (width (take k (seg_fields d))) w = x).
  { intros k w x Hk. unfold v, seg_word. rewrite <- (take_drop_middle _ _ _ Hk) in H |- *. rewrite (take_drop_middle _ _ _ Hk) at 2. by apply pack_bits. }
  split_and!; [apply (Hk 0%nat)|apply (Hk 1%nat)|apply (Hk 2%nat)|apply (Hk 3%nat)|apply (Hk 4%nat)|apply (Hk 5%nat)|apply (Hk 6%nat)|apply (Hk 7%nat)|apply (Hk 11%nat)|apply (Hk 12%nat)]; reflexivity.
Qed.

Lemma gate_bits g : fits_fields (gate_fields g) -> let v := gate_word g in
  bits v 0 16 = off_15_0 g /\ bits v 16 16 = gd_cs g /\ bits v 40 4 = gd_type g /\ bits v 44 1 = gd_s g /\ bits v 45 2 = gd_dpl g /\
  bits v 47 1 = gd_p g /\ bits v 48 16 = off_31_16 g.
Proof.
  intros H v. assert (Hk : forall k w x, gate_fields g !! k = Some (w, x) -> bits v (width (take k (gate_fields g))) w = x).
  { intros k w x Hk. unfold v, gate_word. rewrite <- (take_drop_middle _ _ _ Hk) in H |- *. rewrite (take_drop_middle _ _ _ Hk) at 2. by apply pack_bits. }
  split_and!; [apply (Hk 0%nat)|apply (Hk 1%nat)|apply (Hk 4%nat)|apply (Hk 5%nat)|apply (Hk 6%nat)|apply (Hk 7%nat)|apply (Hk 8%nat)]; reflexivity.
Qed.

(** Descriptors are well formed.  Every field that [SEG], [SEG16] and [SETGATE] store
    fits its bit field, and the processor reads back from the 64 bits what was asked
    for: the base, the limit (to the end of its page of 4 kilobytes for [SEG]), the
    offset of the handler, the selector, the type and the privilege level. *)
Theorem descriptors_read_back type base lim dpl istrap sel off d :
  0 <= type < 16 -> 0 <= dpl < 4 -> 0 <= lim < 4294967296 -> 0 <= sel < 65536 -> 0 <= d < 4 ->
  let sg := SEG type base lim dpl in let s16 := SEG16 type base lim dpl in let g := SETGATE istrap sel off d in
  fits_fields (seg_fields sg) /\ fits_fields (seg_fields s16) /\ fits_fields (gate_fields g) /\
  seg_base (seg_word sg) = u32 base /\ seg_limit (seg_word sg) = lim - lim mod 4096 + 4095 /\ seg_access (seg_word sg) = (type, 1, dpl, 1) /\
  seg_base (seg_word s16) = u32 base /\ (lim < 1048576 -> seg_limit (seg_word s16) = lim) /\ seg_access (seg_word s16) = (type, 1, dpl, 1) /\
  gate_offset (gate_word g) = u32 off /\ gate_access (gate_word g) = (sel, if istrap then STS_TG32 else STS_IG32, 0, d, 1).
Proof.
  intros Ht Hd Hl Hs Hd' sg s16 g. destruct (SEG_fits type base lim dpl) as [F1 F2]. pose proof (SETGATE_fits istrap sel off d) as F3.
  pose proof (u32_range base) as Hb. pose proof (u32_range off) as Ho.
  destruct (seg_bits sg F1) as (A1 & A2 & A3 & A4 & A5 & A6 & A7 & A8 & A9 & A10). destruct (seg_bits s16 F2) as (B1 & B2 & B3 & B4 & B5 & B6 & B7 & B8 & B9 & B10).
  destruct (gate_bits g F3) as (G1 & G2 & G3 & G4 & G5 & G6 & G7).
  split; [exact F1|]. split; [exact F2|]. split; [exact F3|].
  unfold seg_base, seg_limit, seg_access, gate_offset, gate_access. rewrite A1, A2, A3, A4, A5, A6, A7, A8, A9, A10, B1, B2, B3, B4, B5, B6, B7, B8, B9, B10, G1, G2, G3, G4, G5, G6, G7.
  clear - Ht Hd Hl Hs Hd' Hb Ho. unfold sg, s16, g, SEG, SEG16, SETGATE, field.
  cbn [lim_15_0 base_15_0 base_23_16 sd_type sd_s sd_dpl sd_p lim_19_16 sd_g base_31_24 off_15_0 gd_cs gd_type gd_s gd_dpl gd_p off_31_16].
  rewrite !Z.shiftr_div_pow2, !(land_ones' _ 16), !(land_ones' _ 8), (u32_id lim) by lia. cbn [Z.eqb Pos.eqb].
  change (2 ^ 16) with 65536. change (2 ^ 8) with 256. change (2 ^ 24) with 16777216. change (2 ^ 28) with 268435456. change (2 ^ 12) with 4096. change (2 ^ 4) with 16. change (2 ^ 2) with 4.
  rewrite (Z.mod_small type 16), (Z.mod_small dpl 4), (Z.mod_small sel), (Z.mod_small d) by lia.
  split_and!; try (Z.div_mod_to_equations; lia); try done. by destruct istrap.
Qed.

(** The user code segment and the gate for system calls. *)
Lemma descriptors_read_back_witness :
  let sg := SEG 10 0 4294967295 3 in seg_base (seg_word sg) = 0 /\ seg_limit (seg_word sg) = 4294967295.
Proof.
  destruct (descriptors_read_back 10 0 4294967295 3 true 8 1048576 3) as (_ & _ & _ & H1 & H2 & _); [lia..|]. split; [exact H1|exact H2].
Defined.

Lemma entrypgdir_at i : (i < 1024)%nat -> nth i entrypgdir 0 = if decide (i = 0 \/ i = 512)%nat then 131 else 0.
Proof.
  intros Hi. rewrite nth_lookup. unfold entrypgdir. change (Z.to_nat (Z.shiftr KERNBASE PDXSHIFT)) with 512%nat.
  change (Z.lor (Z.lor (Z.lor 0 PTE_P) PTE_W) PTE_PS) with 131. destruct (decide (i = 512%nat)) as [->|H1].
  - rewrite list_lookup_insert_eq by (rewrite length_insert, length_replicate; unfold NPDENTRIES; lia). by rewrite decide_True by auto.
  - rewrite list_lookup_insert_ne by done. destruct (decide (i = 0%nat)) as [->|H2].
    + rewrite list_lookup_insert_eq by (rewrite length_replicate; unfold NPDENTRIES; lia). by rewrite decide_True by auto.
    + rewrite list_lookup_insert_ne by done. rewrite lookup_replicate_2 by (unfold NPDENTRIES; lia). by rewrite decide_False by tauto.
Qed.

(** The page directory of the boot code maps the first 4 megabytes of physical memory
    twice, at address 0 and at [KERNBASE], where it agrees with [V2P]; both mappings can
    be written by the kernel and not used by user code, and nothing else is mapped. *)
Theorem entrypgdir_maps va :
  0 <= va < 4294967296 ->
  translate4M entrypgdir va =
  if va <? 4194304 then Some (va, true, false)
  else if (KERNBASE <=? va) && (va <? KERNBASE + 4194304) then Some (V2P va, true, false)
  else None.
Proof.
  intros Hva. unfold translate4M. rewrite PDX_eq, u32_id, entrypgdir_at by (done || Z.div_mod_to_equations; lia).
  unfold KERNBASE, V2P. destruct (Z.ltb_spec va 4194304) as [H1|H1]; [|destruct (Z.leb_spec 2147483648 va) as [H2|H2], (Z.ltb_spec va (2147483648 + 4194304)) as [H3|H3]; cbn [andb]].
  - rewrite Z.div_small, Z.mod_small by lia. reflexivity.
  - rewrite decide_True by (right; Z.div_mod_to_equations; lia). cbn [negb Z.testbit Pos.testbit]. do 3 f_equal. unfold KERNBASE. rewrite u32_id by lia.
    change (bits 131 22 10) with 0. Z.div_mod_to_equations. lia.
  - rewrite decide_False by (Z.div_mod_to_equations; lia). reflexivity.
  - rewrite decide_False by (Z.div_mod_to_equations; lia). reflexivity.
  - rewrite decide_False by (Z.div_mod_to_equations; lia). reflexivity.
Qed.

Lemma entrypgdir_maps_witness : translate4M entrypgdir 2148532224 = Some (1048576, true, false).
Proof. apply (entrypgdir_maps 2148532224). split; [discriminate|reflexivity]. Defined.
