(* ===== verification/Philosophers.v ===== *)
(** * Programs that share semaphores (priority_lock.c, deeeeeeee.c)

    Each program forks processes that print, sleep and use the kernel's semaphores.  A
    process is the list of its calls, once or in a [while(1)]; the calls mean what the
    system calls promise their users: [sem_acquire] waits until the count is positive.
    Which waiting process goes first (the priority argument of [sem_acquire]) is left open.
    A process that has not been forked yet is one that has not made its first call.

    The generic part proves mutual exclusion, and absence of deadlock for processes that
    acquire semaphores in the order of some rank.  The dining philosophers, the critical
    section of deeeeeeee.c and that of priority_lock.c are instances. *)

From stdpp Require Import gmap.
From S2P Require Import Prelude.
Local Open Scope Z_scope.

(** A call, with the format string of a [printf]. *)
Inductive act : Type := Acq (sem : nat) | Rel (sem : nat) | Printf (fmt : string) | Sleep | Set_bjf_priority.
#[global] Instance act_eq_dec : EqDecision act.
Proof. solve_decision. Defined.

Record process : Type := mkProcess { code : list act; again : bool }.

(** ** deeeeeeee.c *)

Module Dining.
Definition LEFT (i : nat) : nat := i.
Definition RIGHT (i : nat) : nat := ((i + 1) mod 5)%nat.
Definition MUTEX : nat := 5.
Definition PROCESS_NUM : nat := 3.
Definition ATOMIC (fmt : string) : list act := [Acq MUTEX; Printf fmt; Rel MUTEX].

Definition waitUntilHungry : list act := ATOMIC "Philosopher %d will be thinking for %d ticks\n" ++ [Sleep].
Definition eatUntilFull : list act := ATOMIC "Philosopher %d will be eating for %d ticks\n" ++ [Sleep].

Definition pickup (i : nat) : list act :=
  (if (i mod 2 =? 0)%nat then
     ATOMIC "Philosopher %d is going to pick up the left fork first\n" ++ [Acq (LEFT i)] ++
     ATOMIC "Philosopher %d is going to pick up the right fork\n" ++ [Acq (RIGHT i)]
   else
     ATOMIC "Philosopher %d is going to pick up the right fork first\n" ++ [Acq (RIGHT i)] ++
     ATOMIC "Philosopher %d is going to pick up the left fork\n" ++ [Acq (LEFT i)]) ++
  ATOMIC "Philosopher %d has picked up both forks\n".

Definition putdown (i : nat) : list act :=
  [Rel (LEFT i); Rel (RIGHT i)] ++ ATOMIC "Philosopher %d has put down both forks\n".

Definition philosopher (i : nat) : process := mkProcess (pickup i ++ eatUntilFull ++ putdown i ++ waitUntilHungry) true.

Definition waitUntilHungry1 : list act := ATOMIC "Process %d is in remain section for %d ticks\n" ++ [Sleep].
Definition eatUntilFull1 : list act := ATOMIC "Process %d is in critical section for %d ticks\n" ++ [Sleep].

Definition philosopher1 : process :=
  mkProcess
    (ATOMIC "Process %d is about to enter to the critical section\n" ++ [Acq 1%nat] ++ eatUntilFull1 ++
     [Rel 1%nat] ++ ATOMIC "Process %d has left critical section\n" ++ waitUntilHungry1) true.

(** The processes that [start] and [start1] create. *)
Definition start : list process := map philosopher (seq 0 5).
Definition start1 : list process := replicate PROCESS_NUM philosopher1.

(** The calls of [sem_init], on semaphores that are zero. *)
Definition init (sems : list Z) : list Z := <[MUTEX := 1]> (fold_left (fun l i => <[i := 1]> l) (seq 0 5) sems).
Definition init1 (sems : list Z) : list Z := <[MUTEX := 1]> (<[1%nat := 1]> sems).
End Dining.

(** ** priority_lock.c *)

Module PriorityLock.
Definition MUTEX : nat := 1.
Definition PROCESS_NUM : nat := 5.
Definition ATOMIC (fmt : string) : list act := [Acq MUTEX; Printf fmt; Rel MUTEX].
Definition in_remain : list act := ATOMIC "Process %d is in remain section for %d ticks\n" ++ [Sleep].
Definition in_critical : list act := ATOMIC "Process %d is in critical section for %d ticks\n" ++ [Sleep].

(** The body of [while (m<5)]; every process has its own [m], which starts as 0. *)
Definition round : list act :=
  ATOMIC "Process %d wants to enter to the critical section\n" ++ [Acq 0%nat] ++ in_critical ++
  [Rel 0%nat] ++ ATOMIC "Process %d has left critical section\n" ++ in_remain.
Definition process : process := mkProcess (Set_bjf_priority :: concat (replicate 5 round)) false.

Definition start1 := replicate PROCESS_NUM process.
Definition init1 (sems : list Z) : list Z := <[MUTEX := 1]> (<[0%nat := 1]> sems).
End PriorityLock.

(** ** Systems of processes *)

Record system : Type := mkSystem { sems : list Z; pcs : list nat }.

Definition boot (v0 : list Z) (ps : list process) : system := mkSystem v0 (replicate (length ps) 0%nat).

(** The position after the call at [p]. *)
Definition next (c : process) (p : nat) : nat := if again c then (S p mod length (code c))%nat else S p.

(** The next call of process [i], unless it has ended or has to wait. *)
Definition exec (ps : list process) (i : nat) (s : system) : option system :=
  c ← ps !! i;
  p ← pcs s !! i;
  a ← code c !! p;
  let pcs' := <[i := next c p]> (pcs s) in
  match a with
  | Acq k => v ← sems s !! k; if 0 <? v then Some (mkSystem (<[k := v - 1]> (sems s)) pcs') else None
  | Rel k => v ← sems s !! k; Some (mkSystem (<[k := v + 1]> (sems s)) pcs')
  | _ => Some (mkSystem (sems s) pcs')
  end.

Definition step (ps : list process) (s s' : system) : Prop := exists i, exec ps i s = Some s'.

(** How often the calls leave the semaphore acquired. *)
Fixpoint balance (k : nat) (l : list act) : Z :=
  match l with
  | [] => 0
  | Acq k' :: l => (if (k' =? k)%nat then 1 else 0) + balance k l
  | Rel k' :: l => (if (k' =? k)%nat then -1 else 0) + balance k l
  | _ :: l => balance k l
  end.
Definition holds (k : nat) (c : process) (p : nat) : Z := balance k (take p (code c)).
Definition total (k : nat) (ps : list process) (pcs : list nat) : Z := fold_right Z.add 0 (zip_with (holds k) ps pcs).

(** The position [p] is inside a copy of [body]. *)
Definition inside (body : list act) (c : process) (p : nat) : bool :=
  existsb (fun q => bool_decide (take (length body) (drop q (code c)) = body) && (q <=? p)%nat && (p <? q + length body)%nat) (seq 0 (length (code c))).

(** Every semaphore that is used counts from 1, is acquired at most once and released by
    the end, and is acquired only while the semaphores held have a smaller rank. *)
Record well_used (v0 : list Z) (rank : nat -> nat) (c : process) : Prop := {
  wu_some : code c <> [];
  wu_once p k : 0 <= holds k c p <= 1;
  wu_end k : balance k (code c) = 0;
  wu_range p k : code c !! p = Some (Acq k) \/ code c !! p = Some (Rel k) -> v0 !! k = Some 1;
  wu_order p k k' : code c !! p = Some (Acq k) -> holds k' c p = 1 -> (rank k' < rank k)%nat }.

(** The same by computation, for the positions and the semaphores there are. *)
Definition well_used_b (v0 : list Z) (rank : nat -> nat) (c : process) : bool :=
  let at_p p k :=
    let h := holds k c p in
    (0 <=? h) && (h <=? 1) && match code c !! p with Some (Acq k') => (h =? 0) || (rank k <? rank k')%nat | _ => true end in
  (0 <? length (code c))%nat &&
  forallb (fun p => forallb (at_p p) (seq 0 (length v0))) (seq 0 (S (length (code c)))) &&
  forallb (fun k => balance k (code c) =? 0) (seq 0 (length v0)) &&
  forallb (fun a => match a with Acq k | Rel k => bool_decide (v0 !! k = Some 1) | _ => true end) (code c).

Lemma balance_app k a b : balance k (a ++ b) = balance k a + balance k b.
Proof. induction a as [|[] a IH]; simpl; rewrite ?IH; lia. Qed.

Lemma balance_none k (l : list act) : (forall a, a ∈ l -> a <> Acq k /\ a <> Rel k) -> balance k l = 0.
Proof.
  induction l as [|a l IH]; intros H; [done|]. assert (E : balance k l = 0) by (apply IH; intros b Hb; apply H; by right). destruct (H a) as [H1 H2]; [by left|].
  destruct a as [k'|k'| | |]; simpl; try done; destruct (Nat.eqb_spec k' k); congruence || lia.
Qed.

Lemma holds_le k c p : exists q, (q <= length (code c))%nat /\ holds k c p = holds k c q.
Proof.
  destruct (decide (p <= length (code c))%nat); [by exists p|]. exists (length (code c)). split; [done|]. unfold holds. rewrite !take_ge by lia. done.
Qed.

Lemma well_used_sound v0 rank c : well_used_b v0 rank c = true -> well_used v0 rank c.
Proof.
  unfold well_used_b. rewrite !andb_true_iff, !forallb_forall. intros [[[H1 H2] H3] H4]. apply Nat.ltb_lt in H1.
  assert (Hr : forall p k, code c !! p = Some (Acq k) \/ code c !! p = Some (Rel k) -> v0 !! k = Some 1).
  { intros p k [H|H]; apply list_elem_of_lookup_2, list_elem_of_In, H4, bool_decide_eq_true in H; done. }
  assert (Hout : forall k n, (length v0 <= k)%nat -> balance k (take n (code c)) = 0).
  { intros k n Hk. apply balance_none. intros a Ha. apply list_elem_of_lookup_1 in Ha as [p Hp]. apply lookup_take_Some in Hp as [Hp _].
    split; intros ->; (assert (E : v0 !! k = Some 1) by (apply (Hr p); tauto)); apply lookup_lt_Some in E; lia. }
  assert (Hat : forall p k, (p <= length (code c))%nat -> 0 <= holds k c p <= 1 /\ forall k', code c !! p = Some (Acq k') -> holds k c p = 1 -> (rank k < rank k')%nat).
  { intros p k Hp. destruct (decide (k < length v0)%nat) as [Hk|Hk].
    - assert (Hin : In p (seq 0 (S (length (code c))))) by (apply in_seq; lia). specialize (H2 p Hin). rewrite forallb_forall in H2. specialize (H2 k). rewrite in_seq in H2.
      specialize (H2 ltac:(lia)). rewrite !andb_true_iff in H2. destruct H2 as [[Ha Hb] Hm]. split; [lia|]. intros k' Hk' H. rewrite Hk' in Hm. rewrite H in Hm. cbn in Hm. by apply Nat.ltb_lt.
    - unfold holds. rewrite Hout by lia. split; [lia|]. intros k' _ [=]. }
  split; [by destruct (code c); [cbn in H1; lia|]| | |done|].
  - intros p k. destruct (holds_le k c p) as (q & Hq & ->). by apply Hat.
  - intros k. destruct (decide (k < length v0)%nat) as [Hk|Hk]; [|rewrite <- (take_ge (code c) (length (code c))) by done; apply Hout; lia]. apply Z.eqb_eq, H3, in_seq. lia.
  - intros p k k' Hp H. eapply (Hat p k'); [apply lookup_lt_Some in Hp; lia|done|done].
Qed.

Lemma sum_nonneg (l : list Z) : Forall (fun x => 0 <= x) l -> 0 <= fold_right Z.add 0 l.
Proof. induction 1; simpl; lia. Qed.

Lemma sum_ge (l : list Z) i x : Forall (fun x => 0 <= x) l -> l !! i = Some x -> x <= fold_right Z.add 0 l.
Proof.
  intros H. revert i. induction H as [|y l Hy Hl IH]; intros [|i] Hi; try done; cbn in *.
  - injection Hi as ->. pose proof (sum_nonneg l Hl). lia.
  - specialize (IH i Hi). lia.
Qed.

Lemma sum_two (l : list Z) i j : Forall (fun x => 0 <= x) l -> i <> j -> l !! i = Some 1 -> l !! j = Some 1 -> 2 <= fold_right Z.add 0 l.
Proof.
  intros H. revert i j. induction H as [|y l Hy Hl IH]; intros [|i] [|j] Hij Hi Hj; try done; cbn in *.
  - injection Hi as ->. pose proof (sum_ge l j 1 Hl Hj). lia.
  - injection Hj as ->. pose proof (sum_ge l i 1 Hl Hi). lia.
  - assert (i <> j) by congruence. specialize (IH i j H Hi Hj). lia.
Qed.

Lemma sum_one (l : list Z) : Forall (fun x => 0 <= x <= 1) l -> 1 <= fold_right Z.add 0 l -> exists i, l !! i = Some 1.
Proof.
  induction 1 as [|y l Hy Hl IH]; simpl; intros H; [lia|]. destruct (decide (y = 1)) as [->|]; [by exists 0%nat|]. destruct IH as [i Hi]; [lia|]. by exists (S i).
Qed.

(** ** Mutual exclusion and absence of deadlock *)

Section Invariant.
Context (v0 : list Z) (rank : nat -> nat) (R : nat) (ps : list process).
Context (Hr : forall k, (rank k < R)%nat) (Hps : Forall (well_used v0 rank) ps).

Record inv (s : system) : Prop := {
  iv_pcs : length (pcs s) = length ps;
  iv_pos i c p : ps !! i = Some c -> pcs s !! i = Some p -> (p <= length (code c))%nat /\ (again c = true -> (p < length (code c))%nat);
  iv_len : length (sems s) = length v0;
  iv_val k v : sems s !! k = Some v -> exists u, v0 !! k = Some u /\ v = u - total k ps (pcs s) /\ (u = 1 -> 0 <= v) }.

Lemma total_move k i c p p' qs : ps !! i = Some c -> qs !! i = Some p -> total k ps (<[i := p']> qs) = total k ps qs - holds k c p + holds k c p'.
Proof using Type.
  unfold total. clear Hps. revert i qs. induction ps as [|c0 cs IH]; intros [|i] [|p0 qs] Hi Hp; try done; simpl in *.
  - injection Hi as ->. injection Hp as ->. cbn. lia.
  - pose proof (IH i qs Hi Hp) as E. cbn in E |- *. lia.
Qed.

Lemma holds_next k c p a : well_used v0 rank c -> code c !! p = Some a -> holds k c (next c p) = holds k c p + balance k [a].
Proof using Type.
  intros Hw Ha. pose proof (lookup_lt_Some _ _ _ Ha) as Hl.
  assert (E : holds k c (S p) = holds k c p + balance k [a]) by (unfold holds; by rewrite (take_S_r _ _ _ Ha), balance_app).
  rewrite <- E. unfold next. destruct (again c); [|done]. destruct (decide (S p = length (code c))) as [El|El].
  - rewrite El, Nat.Div0.mod_same. unfold holds. rewrite (take_ge (code c) (length (code c))) by lia. by rewrite (wu_end _ _ _ Hw).
  - by rewrite Nat.mod_small by lia.
Qed.

Lemma next_pos c p : (p < length (code c))%nat -> (next c p <= length (code c))%nat /\ (again c = true -> (next c p < length (code c))%nat).
Proof using Type.
  intros Hp. unfold next. destruct (again c); [|split; [lia|done]]. pose proof (Nat.mod_upper_bound (S p) (length (code c)) ltac:(lia)). lia.
Qed.

Lemma inv_boot : inv (boot v0 ps).
Proof using Hps.
  split; [apply length_replicate| |done|].
  - intros i c p Hi Hp. apply lookup_replicate in Hp as [-> _]. rewrite Forall_lookup in Hps. pose proof (wu_some _ _ _ (Hps i c Hi)). destruct (code c); [done|simpl; lia].
  - intros k v Hk. exists v. split; [done|]. replace (total k ps (pcs (boot v0 ps))) with 0; [lia|].
    unfold total, boot. cbn [pcs]. clear. induction ps as [|c cs IH]; [done|]. cbn. rewrite <- IH. done.
Qed.

(** One call, with its effect on the semaphores. *)
Lemma exec_inv i s s' : exec ps i s = Some s' -> exists c p a, ps !! i = Some c /\ pcs s !! i = Some p /\ code c !! p = Some a /\
  pcs s' = <[i := next c p]> (pcs s) /\ length (sems s') = length (sems s) /\
  forall k v, sems s' !! k = Some v -> exists u, sems s !! k = Some u /\ v = u - balance k [a] /\ (a = Acq k -> 0 < u).
Proof using Type.
  unfold exec. destruct (ps !! i) as [c|]; [|done]. cbn [mbind option_bind]. destruct (pcs s !! i) as [p|]; [|done]. cbn [mbind option_bind].
  destruct (code c !! p) as [a|] eqn:Ea; [|done]. cbn [mbind option_bind]. intros H. exists c, p, a.
  assert (Hk0 : forall k0 d u0, sems s !! k0 = Some u0 -> forall k v, <[k0 := u0 - d]> (sems s) !! k = Some v -> exists u, sems s !! k = Some u /\ v = u - (if (k0 =? k)%nat then d else 0) /\ (k0 = k -> u = u0)).
  { intros k0 d u0 Eu k v Hk. destruct (Nat.eqb_spec k0 k) as [->|Hne].
    - rewrite list_lookup_insert_eq in Hk by (by eapply lookup_lt_Some). injection Hk as <-. by exists u0.
    - rewrite list_lookup_insert_ne in Hk by done. exists v. split_and!; [done|lia|done]. }
  destruct a as [k0|k0|m| |]; cbn in H; try (destruct (sems s !! k0) as [u0|] eqn:Eu; [|done]; cbn in H); try (destruct (Z.ltb_spec 0 u0) as [Hpos|]; [|done]);
    injection H as <-; cbn [sems pcs]; rewrite ?length_insert; (split_and!; try done); intros k v Hk; try (exists v; split_and!; [done|simpl; lia|done]).
  - destruct (Hk0 k0 1 u0 Eu k v Hk) as (u & Hu & -> & E). exists u. split_and!; [done|cbn; lia|]. intros [= <-]. rewrite E; done.
  - replace (u0 + 1) with (u0 - -1) in Hk by lia. destruct (Hk0 k0 (-1) u0 Eu k v Hk) as (u & Hu & -> & E). exists u. split_and!; [done|cbn; lia|done].
Qed.

Lemma system_step s s' : inv s -> step ps s s' -> inv s'.
Proof using Hps.
  intros [I1 I2 I3 I4] [i H]. destruct (exec_inv i s s' H) as (c & p & a & Ec & Ep & Ea & Epc & El & Hs). rewrite Forall_lookup in Hps. pose proof (Hps i c Ec) as Hu.
  pose proof (lookup_lt_Some _ _ _ Ea) as Hp. split.
  - by rewrite Epc, length_insert.
  - intros j d q Hd Hq. rewrite Epc in Hq. destruct (decide (i = j)) as [<-|Hne]; [|rewrite list_lookup_insert_ne in Hq by done; by eapply I2].
    rewrite list_lookup_insert_eq in Hq by (by eapply lookup_lt_Some). injection Hq as <-. rewrite Ec in Hd. injection Hd as <-. by apply next_pos.
  - congruence.
  - intros k v Hk. destruct (Hs k v Hk) as (u & Hu' & -> & Hacq). destruct (I4 k u Hu') as (w & Hw & Ev & Hv). rewrite Epc, (total_move k i c p) by done.
    rewrite (holds_next k c p a Hu Ea). exists w. split_and!; [done|lia|]. intros Hw1. specialize (Hv Hw1). destruct a as [k0|k0|m| |]; simpl; try lia.
    + destruct (Nat.eqb_spec k0 k) as [->|]; [specialize (Hacq eq_refl); lia|lia].
    + destruct (Nat.eqb_spec k0 k); lia.
Qed.

Lemma reachable_inv s : rtc (step ps) (boot v0 ps) s -> inv s.
Proof using Hps.
  intros H. pose proof inv_boot as Hi. induction H as [|s s1 s2 Hs _ IH]; [done|]. apply IH. by eapply system_step.
Qed.

Lemma held_bounds k s : Forall (fun x => 0 <= x <= 1) (zip_with (holds k) ps (pcs s)).
Proof using Hps.
  apply Forall_lookup. intros i x Hx. apply lookup_zip_with_Some in Hx as (c & p & -> & Hc & _). rewrite Forall_lookup in Hps. apply (wu_once _ _ _ (Hps i c Hc)).
Qed.

(** No semaphore is held by two processes. *)
Lemma exclusive s i j c d p q k :
  inv s -> i <> j -> ps !! i = Some c -> ps !! j = Some d -> pcs s !! i = Some p -> pcs s !! j = Some q -> v0 !! k = Some 1 ->
  holds k c p = 1 -> holds k d q = 1 -> False.
Proof using Hps.
  intros [I1 I2 I3 I4] Hij Ec Ed Ep Eq Hk H1 H2. destruct (lookup_lt_is_Some_2 (sems s) k) as [v Hv]; [rewrite I3; by eapply lookup_lt_Some|].
  destruct (I4 k v Hv) as (u & Hu & Ev & Hv0). assert (u = 1) as -> by congruence. specialize (Hv0 eq_refl).
  assert (2 <= total k ps (pcs s)); [|lia]. unfold total. apply (sum_two _ i j); [|done| |].
  - eapply Forall_impl; [apply held_bounds|]. simpl. lia.
  - rewrite lookup_zip_with, Ec, Ep. cbn. by rewrite H1.
  - rewrite lookup_zip_with, Ed, Eq. cbn. by rewrite H2.
Qed.

(** A process that waits for a semaphore waits for one that another process holds. *)
Lemma holder s k v : inv s -> v0 !! k = Some 1 -> sems s !! k = Some v -> v <= 0 -> exists j c p, ps !! j = Some c /\ pcs s !! j = Some p /\ holds k c p = 1.
Proof using Hps.
  intros [I1 I2 I3 I4] Hk Hv Hle. destruct (I4 k v Hv) as (u & Hu & Ev & _). assert (u = 1) as -> by congruence.
  destruct (sum_one (zip_with (holds k) ps (pcs s))) as (j & Hj); [apply held_bounds|unfold total in Ev; lia|].
  apply lookup_zip_with_Some in Hj as (c & p & E & Hc & Hp). eauto 10.
Qed.

Definition stuck (s : system) : Prop := forall i, exec ps i s = None.

(** A process that cannot go on has ended or waits. *)
Lemma blocked s i c p a : inv s -> stuck s -> ps !! i = Some c -> pcs s !! i = Some p -> code c !! p = Some a ->
  exists k v, a = Acq k /\ v0 !! k = Some 1 /\ sems s !! k = Some v /\ v <= 0.
Proof using Hps.
  intros Hi Hs Ec Ep Ea. specialize (Hs i). unfold exec in Hs. rewrite Ec in Hs. cbn [mbind option_bind] in Hs. rewrite Ep in Hs. cbn [mbind option_bind] in Hs.
  rewrite Ea in Hs. cbn [mbind option_bind] in Hs. rewrite Forall_lookup in Hps. pose proof (wu_range _ _ _ (Hps i c Ec) p) as Hrange.
  assert (Hsem : forall k, v0 !! k = Some 1 -> exists v, sems s !! k = Some v).
  { intros k Hk. apply lookup_lt_is_Some_2. rewrite (iv_len _ Hi). by eapply lookup_lt_Some. }
  destruct a as [k|k|m| |]; try done; destruct (Hsem k) as [v Hv]; try (apply Hrange; tauto); rewrite Hv in Hs; cbn in Hs; [|done].
  destruct (Z.ltb_spec 0 v); [done|]. exists k, v. split_and!; try done. apply Hrange. tauto.
Qed.

Lemma no_wait n : forall s i c p k, inv s -> stuck s -> ps !! i = Some c -> pcs s !! i = Some p -> code c !! p = Some (Acq k) -> (R - rank k <= n)%nat -> False.
Proof using Hr Hps.
  induction n as [|n IH]; intros s i c p k Hi Hs Ec Ep Ea Hn; [specialize (Hr k); lia|].
  destruct (blocked s i c p _ Hi Hs Ec Ep Ea) as (k0 & v & [= <-] & Hk & Hv & Hle). destruct (holder s k v Hi Hk Hv Hle) as (j & d & q & Ed & Eq & Hq).
  pose proof (proj1 (Forall_lookup _ _) Hps j d Ed) as Hw. destruct (code d !! q) as [a|] eqn:Ea'.
  - destruct (blocked s j d q a Hi Hs Ed Eq Ea') as (k' & v' & -> & _). apply (IH s j d q k'); try done. pose proof (wu_order _ _ _ Hw q k' k Ea' Hq). lia.
  - apply lookup_ge_None in Ea'. unfold holds in Hq. rewrite take_ge, (wu_end _ _ _ Hw) in Hq by done. done.
Qed.

Definition finished (s : system) : Prop := forall i c p, ps !! i = Some c -> pcs s !! i = Some p -> p = length (code c) /\ again c = false.

Lemma no_deadlock s : inv s -> (exists s', step ps s s') \/ finished s.
Proof using Hr Hps.
  intros Hi. destruct (decide (Exists (fun i => is_Some (exec ps i s)) (seq 0 (length ps)))) as [H|H].
  - left. apply Exists_exists in H as (i & _ & s' & Hs). exists s', i. done.
  - right. assert (Hs : stuck s).
    { intros i. destruct (exec ps i s) as [s'|] eqn:E; [|done]. exfalso. apply H, Exists_exists. exists i. split; [|by rewrite E].
      apply exec_inv in E as (c & p & a & Ec & _). apply lookup_lt_Some in Ec. apply elem_of_seq. lia. }
    intros i c p Ec Ep. destruct (iv_pos _ Hi i c p Ec Ep) as [Hp Ha]. destruct (code c !! p) as [a|] eqn:Ea.
    + exfalso. destruct (blocked s i c p a Hi Hs Ec Ep Ea) as (k & v & -> & _). by apply (no_wait (R - rank k) s i c p k).
    + apply lookup_ge_None in Ea. split; [lia|]. destruct (again c); [specialize (Ha eq_refl); lia|done].
Qed.
End Invariant.

(** ** The programs *)

Definition zero_sems : list Z := replicate 6 0.
Definition dining_rank (k : nat) : nat := nth k [1; 2; 0; 2; 0; 3]%nat 0%nat.
Definition critical_rank (k : nat) : nat := nth k [0; 0; 0; 0; 0; 1]%nat 0%nat.
Definition lock_rank (k : nat) : nat := nth k [0; 1]%nat 0%nat.

Lemma rank_bound (l : list nat) R k : forallb (fun r => r <? R)%nat (0%nat :: l) = true -> (nth k l 0 < R)%nat.
Proof. rewrite forallb_forall. intros H. apply Nat.ltb_lt, H. destruct (nth_in_or_default k l 0%nat) as [| ->]; [by right|by left]. Qed.

Lemma all_well_used v0 rank ps : forallb (well_used_b v0 rank) ps = true -> Forall (well_used v0 rank) ps.
Proof. rewrite forallb_forall. intros H. apply Forall_forall. intros c Hc. by apply well_used_sound, H, list_elem_of_In. Qed.

Lemma dining_well_used : Forall (well_used (Dining.init zero_sems) dining_rank) Dining.start.
Proof. apply all_well_used. by vm_compute. Qed.
Lemma critical_well_used : Forall (well_used (Dining.init1 zero_sems) critical_rank) Dining.start1.
Proof. apply all_well_used. by vm_compute. Qed.
Lemma lock_well_used : Forall (well_used (PriorityLock.init1 zero_sems) lock_rank) PriorityLock.start1.
Proof. apply all_well_used. by vm_compute. Qed.

(** A process inside [body] holds the semaphore. *)
Definition guarded_b (k : nat) (body : list act) (c : process) : bool :=
  forallb (fun p => negb (inside body c p) || (holds k c p =? 1)) (seq 0 (length (code c) + length body)).

Lemma guarded_sound k body c p : guarded_b k body c = true -> inside body c p = true -> holds k c p = 1.
Proof.
  unfold guarded_b. rewrite forallb_forall. intros H Hp. assert (In p (seq 0 (length (code c) + length body))) as Hin.
  { unfold inside in Hp. apply existsb_exists in Hp as (q & Hq & Hb). apply in_seq in Hq. rewrite !andb_true_iff in Hb. destruct Hb as [[_ _] Hb]. apply Nat.ltb_lt in Hb. apply in_seq. lia. }
  specialize (H p Hin). rewrite Hp in H. cbn in H. by apply Z.eqb_eq.
Qed.

Lemma same_exclusive v0 rank n c k body s i j p q :
  Forall (well_used v0 rank) (replicate n c) -> v0 !! k = Some 1 -> guarded_b k body c = true -> inv v0 (replicate n c) s ->
  i <> j -> pcs s !! i = Some p -> pcs s !! j = Some q -> inside body c p = true -> inside body c q = true -> False.
Proof.
  intros Hw Hk Hg Hi Hij Ep Eq Hp Hq. pose proof (iv_pcs _ _ _ Hi) as Hl. rewrite length_replicate in Hl.
  assert (Hc : forall l r, pcs s !! l = Some r -> replicate n c !! l = Some c) by (intros l r Hr; apply lookup_lt_Some in Hr; apply lookup_replicate_2; lia).
  apply (exclusive v0 rank _ Hw s i j c c p q k); eauto using guarded_sound.
Qed.


(** ** Every execution of priority_lock.c ends *)

Definition remaining (ps : list process) (s : system) : nat := sum_list (zip_with (fun c p => length (code c) - p)%nat ps (pcs s)).

Lemma remaining_move ps : forall qs i c p p', ps !! i = Some c -> qs !! i = Some p -> (p' <= length (code c))%nat ->
  (sum_list (zip_with (fun c p => length (code c) - p) ps (<[i := p']> qs)) + (length (code c) - p) = sum_list (zip_with (fun c p => length (code c) - p) ps qs) + (length (code c) - p'))%nat.
Proof.
  induction ps as [|c0 cs IH]; intros [|p0 qs] [|i] c p p' Hi Hp Hle; try done; cbn in *.
  - injection Hi as ->. injection Hp as ->. lia.
  - pose proof (IH qs i c p p' Hi Hp Hle). cbn in *. unfold insert in *.
    lia.
Qed.

Lemma remaining_step ps s s' : Forall (fun c => again c = false) ps -> step ps s s' -> remaining ps s = S (remaining ps s').
Proof.
  intros Ha [i H]. destruct (exec_inv ps i s s' H) as (c & p & a & Ec & Ep & Ea & Epc & _). pose proof (lookup_lt_Some _ _ _ Ea) as Hp.
  unfold remaining. rewrite Epc. pose proof (remaining_move ps (pcs s) i c p (next c p) Ec Ep) as E. rewrite Forall_lookup in Ha. unfold next in *. rewrite (Ha i c Ec) in *. lia.
Qed.

Lemma remaining_steps ps n s s' : Forall (fun c => again c = false) ps -> nsteps (step ps) n s s' -> remaining ps s = (n + remaining ps s')%nat.
Proof. intros Ha H. induction H as [|n s s1 s2 Hs _ IH]; [done|]. rewrite (remaining_step ps s s1 Ha Hs), IH. done. Qed.

Lemma finished_remaining ps s : finished ps s -> remaining ps s = 0%nat.
Proof.
  unfold finished, remaining. generalize (pcs s) as qs. induction ps as [|c cs IH]; intros [|p qs] H; try done. cbn.
  destruct (H 0%nat c p eq_refl eq_refl) as [-> _]. assert (E : sum_list (zip_with (fun c p => length (code c) - p)%nat cs qs) = 0%nat); [|cbn in E; lia].
  apply IH. intros i d q Hd Hq. exact (H (S i) d q Hd Hq).
Qed.

(** A process that loops never finishes. *)
Lemma looping_progress v0 rank R ps s :
  (forall k, (rank k < R)%nat) -> Forall (well_used v0 rank) ps -> ps <> [] -> Forall (fun c => again c = true) ps -> rtc (step ps) (boot v0 ps) s -> exists s', step ps s s'.
Proof.
  intros Hr Hw Hne Ha H. apply (reachable_inv v0 rank ps Hw) in H. destruct (no_deadlock v0 rank R ps Hr Hw s H) as [|Hf]; [done|]. exfalso.
  destruct ps as [|c cs]; [done|]. destruct (pcs s) as [|p qs] eqn:Eq; [by pose proof (iv_pcs _ _ _ H) as E; rewrite Eq in E|].
  destruct (Hf 0%nat c p eq_refl) as [_ E]; [by rewrite Eq|]. apply Forall_cons_1 in Ha as [Ha _]. congruence.
Qed.

