(* ===== verification/Tools.v ===== *)
(** * The small user programs

    cat.c, echo.c, ls.c, ln.c, mkdir.c, rm.c, kill.c, pid.c, schedule.c, init.c,
    forktest.c, foo.c, mor.c, change_file_size.c, find_largest_prime_factor.c,
    get_callers_test.c, get_parent_pid_test.c and the main function of grep.c.

    A program is an interaction tree over the system calls: it makes a call, goes on with
    the answer, and loops without a bound.  The calls themselves, and [atoi], [stat] and
    the numbers of the calls, are not part of these sources.  An operating system [Os]
    answers the calls; [OsLaws] states what the programs rely on, in terms of what a
    process can see: its open files and what they hold, what it has written, and its
    children.

    A string is the list of its characters; [argv] has the name of the program first.  A
    call of [printf] with arguments that do not fit its format would be undefined: there
    the tree does not end. *)

From stdpp Require Import gmap.
From ITree Require Import ITree ITreeFacts Events.State Events.StateFacts Events.Exception.
From Paco Require Import paco.
From S2P Require Import Prelude Cprintf Printf Inode Fs Path Grep.
Local Open Scope Z_scope.
Local Open Scope list_scope.

(** ** System calls *)

Variant sysE : Type -> Type :=
| Read (fd n : Z) : sysE (Z * list Z)
| Write (fd : Z) (bs : list Z) : sysE Z
| Open (path : list Z) (mode : Z) : sysE Z
| Close (fd : Z) : sysE Z
| Dup (fd : Z) : sysE Z
| Fstat (fd : Z) : sysE (Z * stat)
| Stat (path : list Z) : sysE (Z * stat)
| Link (old new : list Z) : sysE Z
| Unlink (path : list Z) : sysE Z
| Mkdir (path : list Z) : sysE Z
| Mknod (path : list Z) (major minor : Z) : sysE Z
| Change_file_size (path : list Z) (size : Z) : sysE Z
| Fork : sysE Z
| Wait : sysE Z
| Exec (path : list Z) (argv : list (list Z)) : sysE Z
| Kill (pid : Z) : sysE Z
| Sleep (n : Z) : sysE Z
| Getpid : sysE Z
| Get_parent_pid : sysE Z
| Get_callers (n : Z) : sysE Z
| Find_largest_prime_factor (ebx : Z) : sysE Z
| Print_process_info : sysE Z
| Change_scheduling_queue (pid queue : Z) : sysE Z
| Set_bjf_params_process (pid priority arrival cycles : Z) : sysE Z
| Set_bjf_params_system (priority arrival cycles : Z) : sysE Z
| Set_bjf_priority (pid priority : Z) : sysE Z.

Variant exitE : Type -> Type := Exit : exitE void.

Abbreviation program := (itree (sum1 sysE exitE)).
Notation "'let*' x := m 'in' k" := (ITree.bind m (fun x => k))
  (at level 10, x pattern, m at level 100, k at level 200).

Definition sys {A} (e : sysE A) : program A := ITree.trigger (inl1 e).
Definition exit {A} : program A := let* v := ITree.trigger (inr1 Exit) in match v : void with end.

(** The characters of a [printf], written one by one. *)
Fixpoint putcs (fd : Z) (bs : list Z) : program unit :=
  match bs with
  | [] => Ret tt
  | b :: bs => let* _ := sys (Write fd [b]) in putcs fd bs
  end.
Definition uprintf (fd : Z) (fmt : list Z) (ap : list arg) : program unit :=
  match printf fmt ap with
  | Some bs => putcs fd bs
  | None => ITree.spin
  end.

Definition nl : list Z := [10].
Definition S_ (a : list Z) : arg := AStr (Some a).

(** [for(i = 1; i < argc; i++)] *)
Fixpoint each {A} (l : list A) (f : A -> program unit) : program unit :=
  match l with
  | [] => Ret tt
  | a :: l => let* _ := f a in each l f
  end.
(** The same with a [break] where the body returns false. *)
Fixpoint each_until {A} (l : list A) (f : A -> program bool) : program unit :=
  match l with
  | [] => Ret tt
  | a :: l => let* b := f a in if b : bool then each_until l f else Ret tt
  end.

(** ** cat.c *)

Definition cat_turn (fd : Z) (_ : unit) : program (unit + Z) :=
  let* r := sys (Read fd 512) in
  let n := r.1 in
  if 0 <? n then
    let* w := sys (Write 1 (take (Z.to_nat n) r.2)) in
    if negb (w =? n) then let* _ := uprintf 1 (bytes "cat: write error" ++ nl) [] in exit
    else Ret (inl tt)
  else Ret (inr n).
Definition cat (fd : Z) : program unit :=
  let* n := ITree.iter (cat_turn fd) tt in
  if n <? 0 then let* _ := uprintf 1 (bytes "cat: read error" ++ nl) [] in exit else Ret tt.

Definition cat_file (name : list Z) : program unit :=
  let* fd := sys (Open name 0) in
  if fd <? 0 then let* _ := uprintf 1 (bytes "cat: cannot open %s" ++ nl) [S_ name] in exit
  else let* _ := cat fd in let* _ := sys (Close fd) in Ret tt.
Definition cat_main (argv : list (list Z)) : program unit :=
  match argv with
  | [] | [_] => let* _ := cat 0 in exit
  | _ :: files => let* _ := each files cat_file in exit
  end.

(** ** echo.c *)

Fixpoint echo_loop (args : list (list Z)) : program unit :=
  match args with
  | [] => Ret tt
  | a :: args =>
    let* _ := uprintf 1 (bytes "%s%s") [S_ a; S_ (match args with [] => nl | _ => [32] end)] in
    echo_loop args
  end.
Definition echo_main (argv : list (list Z)) : program unit := let* _ := echo_loop (tail argv) in exit.

(** ** ls.c *)

(** [for(p=path+strlen(path); p >= path && *p != '/'; p--) ; p++;] *)
Fixpoint after_slash (path : list Z) : list Z :=
  match path with
  | [] => []
  | c :: rest => if existsb (Z.eqb slash) rest then after_slash rest else if c =? slash then rest else path
  end.

(** [buf] is static and its last byte stays 0. *)
Definition fmtname (path : list Z) : list Z :=
  let p := after_slash path in
  if (DIRSIZ <=? length p)%nat then p else p ++ replicate (DIRSIZ - length p) 32.

Definition ls_line (path : list Z) (st : stat) : program unit :=
  uprintf 1 (bytes "%s %d %d %d" ++ nl) [S_ (fmtname path); AInt (st_type st); AInt (st_ino st); AInt (st_size st)].

Definition ls_turn (fd : Z) (path : list Z) (_ : unit) : program (unit + unit) :=
  let* r := sys (Read fd sizeof_dirent) in
  if negb (r.1 =? sizeof_dirent) then Ret (inr tt)
  else if de_inum r.2 =? 0 then Ret (inl tt)
  else
    let buf := path ++ [slash] ++ cstr (take DIRSIZ (de_name r.2)) in
    let* r := sys (Stat buf) in
    if r.1 <? 0 then let* _ := uprintf 1 (bytes "ls: cannot stat %s" ++ nl) [S_ buf] in Ret (inl tt)
    else let* _ := ls_line buf r.2 in Ret (inl tt).

Definition ls (path : list Z) : program unit :=
  let* fd := sys (Open path 0) in
  if fd <? 0 then uprintf 2 (bytes "ls: cannot open %s" ++ nl) [S_ path] else
  let* r := sys (Fstat fd) in
  if r.1 <? 0 then
    let* _ := uprintf 2 (bytes "ls: cannot stat %s" ++ nl) [S_ path] in
    let* _ := sys (Close fd) in Ret tt
  else
    let* _ :=
      (if st_type r.2 =? T_FILE then ls_line path r.2
       else if st_type r.2 =? T_DIR then
         if (512 <? length path + 1 + DIRSIZ + 1)%nat then uprintf 1 (bytes "ls: path too long" ++ nl) []
         else ITree.iter (ls_turn fd path) tt
       else Ret tt) in
    let* _ := sys (Close fd) in Ret tt.

Definition ls_main (argv : list (list Z)) : program unit :=
  match argv with
  | [] | [_] => let* _ := ls (bytes ".") in exit
  | _ :: paths => let* _ := each paths ls in exit
  end.

(** ** ln.c, mkdir.c, rm.c *)

Definition ln_main (argv : list (list Z)) : program unit :=
  match argv with
  | [_; old; new] =>
    let* r := sys (Link old new) in
    let* _ := (if r <? 0 then uprintf 2 (bytes "link %s %s: failed" ++ nl) [S_ old; S_ new] else Ret tt) in
    exit
  | _ => let* _ := uprintf 2 (bytes "Usage: ln old new" ++ nl) [] in exit
  end.

Definition mkdir_one (name : list Z) : program bool :=
  let* r := sys (Mkdir name) in
  if r <? 0 then let* _ := uprintf 2 (bytes "mkdir: %s failed to create" ++ nl) [S_ name] in Ret false else Ret true.
Definition mkdir_main (argv : list (list Z)) : program unit :=
  match argv with
  | [] | [_] => let* _ := uprintf 2 (bytes "Usage: mkdir files..." ++ nl) [] in exit
  | _ :: names => let* _ := each_until names mkdir_one in exit
  end.

Definition rm_one (name : list Z) : program bool :=
  let* r := sys (Unlink name) in
  if r <? 0 then let* _ := uprintf 2 (bytes "rm: %s failed to delete" ++ nl) [S_ name] in Ret false else Ret true.
Definition rm_main (argv : list (list Z)) : program unit :=
  match argv with
  | [] | [_] => let* _ := uprintf 2 (bytes "Usage: rm files..." ++ nl) [] in exit
  | _ :: names => let* _ := each_until names rm_one in exit
  end.

(** ** grep.c: main *)

(** One turn of the loop of [grep] on a descriptor, with [held] at the front of the
    buffer. *)
Definition grep_turn (fd : Z) (pattern held : list Z) : program (list Z + unit) :=
  let* r := sys (Read fd (Z.of_nat (sizeof_buf - length held - 1))) in
  if 0 <? r.1 then
    let p := held ++ take (Z.to_nat r.1) r.2 in
    let '(out, rest) := grep_scan (length p) pattern p in
    let* _ := each out (fun line => let* _ := sys (Write 1 line) in Ret tt) in
    Ret (inl (if (length rest =? length p)%nat then [] else rest))
  else Ret (inr tt).
Definition grep_fd (pattern : list Z) (fd : Z) : program unit := ITree.iter (grep_turn fd pattern) [].

Definition grep_file (pattern name : list Z) : program unit :=
  let* fd := sys (Open name 0) in
  if fd <? 0 then let* _ := uprintf 1 (bytes "grep: cannot open %s" ++ nl) [S_ name] in exit
  else let* _ := grep_fd pattern fd in let* _ := sys (Close fd) in Ret tt.
Definition grep_main (argv : list (list Z)) : program unit :=
  match argv with
  | [] | [_] => let* _ := uprintf 2 (bytes "usage: grep pattern [file ...]" ++ nl) [] in exit
  | [_; pattern] => let* _ := grep_fd pattern 0 in exit
  | _ :: pattern :: files => let* _ := each files (grep_file pattern) in exit
  end.

(** ** kill.c, pid.c, change_file_size.c, find_largest_prime_factor.c, schedule.c *)

Section Atoi.
Context (atoi : list Z -> Z).

Definition kill_main (argv : list (list Z)) : program unit :=
  match argv with
  | [] | [_] => let* _ := uprintf 2 (bytes "usage: kill pid..." ++ nl) [] in exit
  | _ :: pids => let* _ := each pids (fun a => let* _ := sys (Kill (atoi a)) in Ret tt) in exit
  end.

Definition pid_main : program unit :=
  let* pid := sys Getpid in
  let* _ := uprintf 1 (bytes "Process ID: %d" ++ nl) [AInt pid] in exit.

(** [O_RDWR | O_CREATE] *)
Definition fileSize (path : list Z) : program Z :=
  let* fd := sys (Open path (Z.lor 2 512)) in
  if fd <? 0 then let* _ := uprintf 1 (bytes "change_file_size: cannot open file %s" ++ nl) [S_ path] in exit else
  let* r := sys (Fstat fd) in
  if r.1 <? 0 then let* _ := uprintf 1 (bytes "change_file_size: cannot stat file %s" ++ nl) [S_ path] in exit else
  if negb (st_type r.2 =? T_FILE) then let* _ := uprintf 1 (bytes "change_file_size: %s is not a file" ++ nl) [S_ path] in exit else
  let* _ := sys (Close fd) in Ret (i32 (st_size r.2)).

Definition change_file_size_main (argv : list (list Z)) : program unit :=
  match argv with
  | _ :: path :: n :: _ =>
    let size := atoi n in
    if size <? 0 then let* _ := uprintf 1 (bytes "change_file_size: invalid size %d" ++ nl) [AInt size] in exit else
    let* prevSize := fileSize path in
    let* r := sys (Change_file_size path size) in
    if r <? 0 then let* _ := uprintf 1 (bytes "change_file_size: cannot change file size" ++ nl) [] in exit else
    let* newSize := fileSize path in
    let* _ := uprintf 1 (bytes "File size changed from %d to %d" ++ nl) [AInt prevSize; AInt newSize] in exit
  | _ => let* _ := uprintf 1 (bytes "change_file_size: 2 args required" ++ nl) [] in exit
  end.

(** The call has its argument in the register [ebx], which is restored afterwards. *)
Definition flpf_syscall (num : Z) : program Z := sys (Find_largest_prime_factor num).

Definition find_largest_prime_factor_main (argv : list (list Z)) : program unit :=
  match argv with
  | [_; a] =>
    let* result := flpf_syscall (atoi a) in
    let* _ := (if result =? -1 then uprintf 2 (bytes "Number should be greater than 1." ++ nl) []
               else uprintf 1 (bytes "%d" ++ nl) [AInt result]) in
    exit
  | _ => let* _ := uprintf 2 (bytes "usage: find_largest_prime_factor <number>" ++ nl) [] in exit
  end.

Definition help : program unit :=
  let* _ := uprintf 1 (bytes "Commands and Arguments:" ++ nl) [] in
  let* _ := uprintf 1 (bytes "  1 : print" ++ nl) [] in
  let* _ := uprintf 1 (bytes "  2 <pid> <new_queue> : set_queue " ++ nl) [] in
  let* _ := uprintf 1 (bytes "  3 <pid> <priority_ratio> <arrival_time_ratio> <executed_cycle_ratio> : set_process_bjf " ++ nl) [] in
  let* _ := uprintf 1 (bytes "  4 <priority_ratio> <arrival_time_ratio> <executed_cycle_ratio> : set_system_bjf " ++ nl) [] in
  uprintf 1 (bytes "  5  <pid> <priority> : set_priority_bjf" ++ nl) [].

Definition schedule_main (argv : list (list Z)) : program unit :=
  match argv with
  | [] | [_] => let* _ := help in exit
  | _ :: cmd :: args =>
    let* _ :=
      (if bool_decide (cmd = bytes "1") then let* _ := sys Print_process_info in Ret tt
       else if bool_decide (cmd = bytes "2") then
         match args with
         | pid :: newQ :: _ =>
           if (atoi newQ <? 1) || (3 <? atoi newQ) then let* _ := uprintf 1 (bytes "Invalid queue" ++ nl) [] in exit
           else let* _ := sys (Change_scheduling_queue (atoi pid) (atoi newQ)) in Ret tt
         | _ => let* _ := help in exit
         end
       else if bool_decide (cmd = bytes "3") then
         match args with
         | pid :: a :: b :: c :: _ => let* _ := sys (Set_bjf_params_process (atoi pid) (atoi a) (atoi b) (atoi c)) in Ret tt
         | _ => let* _ := help in exit
         end
       else if bool_decide (cmd = bytes "4") then
         match args with
         | a :: b :: c :: _ => let* _ := sys (Set_bjf_params_system (atoi a) (atoi b) (atoi c)) in Ret tt
         | _ => let* _ := help in exit
         end
       else if bool_decide (cmd = bytes "5") then
         match args with
         | pid :: priority :: _ => let* _ := sys (Set_bjf_priority (atoi pid) (atoi priority)) in Ret tt
         | _ => let* _ := help in exit
         end
       else help) in
    exit
  end.
End Atoi.

(** ** init.c *)

(** [while((wpid=wait()) >= 0 && wpid != pid) printf(1, ...);] *)
Definition reap_turn (pid : Z) (_ : unit) : program (unit + unit) :=
  let* wpid := sys Wait in
  if (0 <=? wpid) && negb (wpid =? pid) then let* _ := uprintf 1 (bytes "zombie!" ++ nl) [] in Ret (inl tt)
  else Ret (inr tt).

Definition init_round (_ : unit) : program (unit + void) :=
  let* _ := uprintf 1 (bytes "init: starting sh" ++ nl) [] in
  let* _ := uprintf 1 (bytes "Group 6:" ++ nl ++ bytes "- Marzieh Hariri" ++ nl ++ bytes "-FatemeZahra Broumandnia" ++ nl) [] in
  let* pid := sys Fork in
  if pid <? 0 then let* _ := uprintf 1 (bytes "init: fork failed" ++ nl) [] in exit
  else if pid =? 0 then
    let* me := sys Getpid in
    let* _ := sys (Change_scheduling_queue me 1) in
    let* _ := sys (Exec (bytes "sh") [bytes "sh"]) in
    let* _ := uprintf 1 (bytes "init: exec sh failed" ++ nl) [] in exit
  else
    let* _ := ITree.iter (reap_turn pid) tt in Ret (inl tt).

Definition init_main : program void :=
  let* fd := sys (Open (bytes "console") 2) in
  let* _ :=
    (if fd <? 0 then
       let* _ := sys (Mknod (bytes "console") 1 1) in
       let* _ := sys (Open (bytes "console") 2) in Ret tt
     else Ret tt) in
  let* _ := sys (Dup 0) in
  let* _ := sys (Dup 0) in
  ITree.iter init_round tt.

(** ** forktest.c *)

(** Its own [printf] writes the format as it is. *)
Definition put (fd : Z) (s : list Z) : program unit := let* _ := sys (Write fd s) in Ret tt.

(** [for(n=0; n<N; n++)], with [k] turns left: the value of [n] after the loop. *)
Fixpoint fork_loop (k : nat) (n : Z) : program Z :=
  match k with
  | O => Ret n
  | S k =>
    let* pid := sys Fork in
    if pid <? 0 then Ret n else if pid =? 0 then exit else fork_loop k (n + 1)
  end.
(** [for(; n > 0; n--)] *)
Fixpoint wait_children (n : nat) : program unit :=
  match n with
  | O => Ret tt
  | S n =>
    let* r := sys Wait in
    if r <? 0 then let* _ := put 1 (bytes "wait stopped early" ++ nl) in exit else wait_children n
  end.

Definition forktest : program unit :=
  let* _ := put 1 (bytes "fork test" ++ nl) in
  let* n := fork_loop 1000 0 in
  if n =? 1000 then let* _ := put 1 (bytes "fork claimed to work N times!" ++ nl) in exit else
  let* _ := wait_children (Z.to_nat n) in
  let* r := sys Wait in
  if negb (r =? -1) then let* _ := put 1 (bytes "wait got too many" ++ nl) in exit else
  put 1 (bytes "fork test OK" ++ nl).
Definition forktest_main : program unit := let* _ := forktest in exit.

(** ** foo.c, mor.c *)

(** [long x = 0; while (x != 1000000000000) x++;]  A [long] has 32 bits. *)
Definition count : program unit :=
  ITree.iter (fun x => if negb (x =? 1000000000000) then Ret (inl (i32 (x + 1))) else Ret (inr tt)) 0.

(** [while (wait() != -1) ;] *)
Definition wait_all : program unit :=
  ITree.iter (fun _ : unit => let* r := sys Wait in if negb (r =? -1) then Ret (inl tt) else Ret (inr tt)) tt.

Definition foo_child : program unit :=
  let* _ := sys (Sleep 5000) in
  let* _ := ITree.iter (fun y => if negb (y =? 1000000) then let* _ := count in Ret (inl (i32 (y + 1))) else Ret (inr tt)) 0 in
  exit.
Definition foo_main : program unit :=
  let* _ := each (seq 0 5) (fun _ =>
    let* pid := sys Fork in
    if 0 <? pid then Ret tt else if pid =? 0 then foo_child else Ret tt) in
  let* _ := wait_all in exit.

Definition mor_child : program unit :=
  let* _ := sys (Sleep 3000) in
  let* _ := count in exit.
Definition mor_main : program unit :=
  let* _ := each (seq 0 5) (fun _ =>
    let* a := sys Fork in
    if a <? 0 then wait_all else if a =? 0 then mor_child else Ret tt) in
  exit.

(** ** get_parent_pid_test.c, get_callers_test.c *)

(** C leaves the order of the two calls in the arguments open. *)
Definition third : program unit :=
  let* me := sys Getpid in
  let* parent := sys Get_parent_pid in
  let* _ := uprintf 1 (bytes "3rd Process:" ++ nl ++ bytes "  PID: %d" ++ nl ++ bytes "  Parent: %d" ++ nl) [AInt me; AInt parent] in exit.
Definition second : program unit :=
  let* me := sys Getpid in
  let* parent := sys Get_parent_pid in
  let* _ := uprintf 1 (bytes "2nd Process:" ++ nl ++ bytes "  PID: %d" ++ nl ++ bytes "  Parent: %d" ++ nl) [AInt me; AInt parent] in
  let* forkpid := sys Fork in
  let* _ := (if 0 <? forkpid then let* _ := sys Wait in Ret tt
             else if forkpid =? 0 then third
             else uprintf 2 (bytes "Failed to create 3rd process." ++ nl) []) in
  exit.
Definition get_parent_pid_test_main : program unit :=
  let* forkpid := sys Fork in
  let* _ := (if 0 <? forkpid then let* _ := sys Wait in Ret tt
             else if forkpid =? 0 then second
             else uprintf 2 (bytes "Failed to create 2nd process." ++ nl) []) in
  exit.

Definition get_callers_test_main (SYS_write SYS_fork SYS_wait : Z) : program unit :=
  let* _ := uprintf 1 (bytes "Testing SYS_write:" ++ nl) [] in
  let* _ := sys (Get_callers SYS_write) in
  let* _ := uprintf 1 (bytes "Testing SYS_fork:" ++ nl) [] in
  let* _ := sys (Get_callers SYS_fork) in
  let* _ := uprintf 1 (bytes "Testing SYS_wait:" ++ nl) [] in
  let* _ := sys (Get_callers SYS_wait) in
  exit.

(** ** Running a program *)

(** The answers of the system to a process in state [os].  A successful [exec] starts
    another program. *)
Class Os : Type := {
  os : Type;
  call : forall A, sysE A -> os -> os * A;
  execs : list Z -> list (list Z) -> os -> option os }.

Section Run.
Context {O : Os}.

Definition answer {A} (e : sysE A) : os -> itree (exceptE os) (os * A) :=
  match e in sysE A return os -> itree (exceptE os) (os * A) with
  | Exec path argv => fun s =>
    match execs path argv s with Some s' => throw s' | None => Ret (call _ (Exec path argv) s) end
  | e => fun s => Ret (call _ e s)
  end.

Definition handle (A : Type) (e : sum1 sysE exitE A) : Monads.stateT os (itree (exceptE os)) A :=
  match e with
  | inl1 e => answer e
  | inr1 e => fun s => throw s
  end.

(** A program returns, or ends: by [exit] or by becoming another program. *)
Inductive result (A : Type) : Type := Back (s : os) (a : A) | Gone (s : os).
Arguments Back {A} s a.
Arguments Gone {A} s.

Definition finish {A} (r : result A) : itree (exceptE os) (os * A) :=
  match r with Back s a => Ret (s, a) | Gone s => throw s end.

Definition does {A} (s : os) (t : program A) (r : result A) : Prop := eutt eq (interp_state handle t s) (finish r).

Lemma does_ret {A} s (a : A) : does s (Ret a) (Back s a).
Proof using Type. unfold does. rewrite interp_state_ret. reflexivity. Qed.

Lemma does_then {A B} s (t : program A) (k : A -> program B) s1 a r :
  does s t (Back s1 a) -> does s1 (k a) r -> does s (ITree.bind t k) r.
Proof using Type. unfold does. intros H1 H2. rewrite interp_state_bind, H1. cbn. rewrite bind_ret_l. exact H2. Qed.

Lemma throw_bind {A B} (s : os) (k : A -> itree (exceptE os) B) : eutt eq (ITree.bind (throw s) k) (throw s).
Proof using Type. unfold throw. rewrite bind_vis. apply eqit_Vis. intros []. Qed.

Lemma does_gone {A B} s (t : program A) (k : A -> program B) s1 :
  does s t (Gone s1) -> does s (ITree.bind t k) (Gone s1).
Proof using Type. unfold does. intros H1. rewrite interp_state_bind, H1. cbn. apply throw_bind. Qed.

Lemma does_exit {A} s : does s (exit : program A) (Gone s).
Proof using Type. unfold does, exit. rewrite interp_state_bind, interp_state_trigger. cbn. apply throw_bind. Qed.

Lemma does_sys {A} s (e : sysE A) s1 a : answer e s = Ret (s1, a) -> does s (sys e) (Back s1 a).
Proof using Type. intros E. unfold does, sys. rewrite interp_state_trigger. cbn. rewrite E. reflexivity. Qed.

(** One turn of a loop. *)
Lemma does_again {A B} s (f : A -> program (A + B)) x s1 y r :
  does s (f x) (Back s1 (inl y)) -> does s1 (ITree.iter f y) r -> does s (ITree.iter f x) r.
Proof using Type.
  unfold does. intros H1 H2. rewrite unfold_iter, interp_state_bind, H1. cbn. rewrite bind_ret_l. cbn. rewrite interp_state_tau, tau_eutt. exact H2.
Qed.

Lemma does_last {A B} s (f : A -> program (A + B)) x s1 b :
  does s (f x) (Back s1 (inr b)) -> does s (ITree.iter f x) (Back s1 b).
Proof using Type.
  unfold does. intros H1. rewrite unfold_iter, interp_state_bind, H1. cbn. rewrite bind_ret_l. cbn. rewrite interp_state_ret. reflexivity.
Qed.
End Run.
Arguments Back {O A} s a.
Arguments Gone {O A} s.

(** ** What the programs rely on *)

(** An open descriptor: a file by its name, or a pipe or a device, and what can still be
    read from it. *)
Record input : Type := mkInput { in_name : option (list Z); in_rest : list Z }.

(** What a process sees. *)
Record sight : Type := mkSight {
  v_files : list Z -> option (list Z);     (* the contents of files by name *)
  v_stats : list Z -> option stat;         (* what stat says of a name *)
  v_open : gmap Z input;                   (* descriptors to read from *)
  v_written : gmap Z (list Z);             (* descriptors to write to, and what was written *)
  v_spare : nat;                           (* descriptors that are left *)
  v_children : list Z;
  v_slots : nat }.                         (* processes that are left *)
#[export] Instance eta_sight : Settable sight :=
  fun v => mkSight (v_files v) (v_stats v) (v_open v) (v_written v) (v_spare v) (v_children v) (v_slots v).

(** A read delivers something unless nothing is left, and from a file all that is asked
    for; it is the parent of a [fork] that is described. *)
Class OsLaws (O : Os) : Type := {
  look : os -> sight;
  read_law s fd n i : v_open (look s) !! fd = Some i -> 0 <= n ->
    exists k : nat, Z.of_nat k <= n /\ (k = 0%nat -> n = 0 \/ in_rest i = []) /\ (in_name i <> None -> Z.of_nat k = n) /\
      let bs := take k (in_rest i) in let (s', r) := call _ (Read fd n) s in
      r = (Z.of_nat (length bs), bs) /\ look s' = (look s) <| v_open ::= <[fd := mkInput (in_name i) (drop k (in_rest i))]> |>;
  write_law s fd bs w : v_written (look s) !! fd = Some w ->
    let (s', r) := call _ (Write fd bs) s in r = Z.of_nat (length bs) /\ look s' = (look s) <| v_written ::= <[fd := w ++ bs]> |>;
  open_law s name :
    let (s', r) := call _ (Open name 0) s in
    match v_files (look s) name, v_spare (look s) with
    | Some c, S k => 0 <= r /\ v_open (look s) !! r = None /\
        look s' = (look s) <| v_open ::= <[r := mkInput (Some name) c]> |> <| v_spare := k |>
    | _, _ => r = -1 /\ look s' = look s
    end;
  close_law s fd i : v_open (look s) !! fd = Some i ->
    let (s', r) := call _ (Close fd) s in look s' = (look s) <| v_open ::= delete fd |> <| v_spare ::= S |>;
  fstat_law s fd name rest st : v_open (look s) !! fd = Some (mkInput (Some name) rest) -> v_stats (look s) name = Some st ->
    let (s', r) := call _ (Fstat fd) s in r = (0, st) /\ look s' = look s;
  stat_law s name :
    let (s', r) := call _ (Stat name) s in look s' = look s /\
    match v_stats (look s) name with Some st => r = (0, st) | None => r.1 = -1 end;
  unlink_law s name :
    let (s', r) := call _ (Unlink name) s in
    match v_files (look s) name with
    | Some _ => r = 0 /\ look s' = (look s) <| v_files ::= fun f n => if decide (n = name) then None else f n |>
    | None => r = -1 /\ look s' = look s
    end;
  fork_law s :
    let (s', r) := call _ Fork s in
    match v_slots (look s) with
    | S k => 0 < r /\ (r ∉ v_children (look s)) /\ look s' = (look s) <| v_children ::= cons r |> <| v_slots := k |>
    | 0%nat => r = -1 /\ look s' = look s
    end;
  wait_law s :
    let (s', r) := call _ Wait s in
    match v_children (look s) with
    | [] => r = -1 /\ look s' = look s
    | _ => exists l l', v_children (look s) = l ++ r :: l' /\ look s' = (look s) <| v_children := l ++ l' |> <| v_slots ::= S |>
    end }.

Section Laws.
Context {O : Os} {L : OsLaws O}.

(** The calls as steps of what is seen. *)
Lemma read_does s fd n i :
  v_open (look s) !! fd = Some i -> 0 <= n ->
  exists (k : nat) s', let bs := take k (in_rest i) in
    does s (sys (Read fd n)) (Back s' (Z.of_nat (length bs), bs)) /\ Z.of_nat k <= n /\ (k = 0%nat -> n = 0 \/ in_rest i = []) /\
    (in_name i <> None -> Z.of_nat k = n) /\ look s' = (look s) <| v_open ::= <[fd := mkInput (in_name i) (drop k (in_rest i))]> |>.
Proof using Type.
  intros Hi Hn. destruct (read_law s fd n i Hi Hn) as (k & H1 & H2 & H3 & H4). cbv zeta in H4.
  destruct (call _ (Read fd n) s) as [s' r] eqn:E. destruct H4 as [-> H5]. exists k, s'. split_and!; try done.
  apply does_sys. cbn. by rewrite E.
Qed.

Lemma write_does s fd bs w :
  v_written (look s) !! fd = Some w ->
  exists s', does s (sys (Write fd bs)) (Back s' (Z.of_nat (length bs))) /\ look s' = (look s) <| v_written ::= <[fd := w ++ bs]> |>.
Proof using Type.
  intros Hw. pose proof (write_law s fd bs w Hw) as H. destruct (call _ (Write fd bs) s) as [s' r] eqn:E. destruct H as [-> H]. exists s'.
  split; [|done]. apply does_sys. cbn. by rewrite E.
Qed.

(** Bytes have been written to a descriptor, and nothing else is seen. *)
Definition wrote (fd : Z) (bs : list Z) (s s' : os) : Prop :=
  exists w, v_written (look s) !! fd = Some w /\ look s' = (look s) <| v_written ::= <[fd := w ++ bs]> |>.

Lemma wrote_trans fd a b s s1 s2 : wrote fd a s s1 -> wrote fd b s1 s2 -> wrote fd (a ++ b) s s2.
Proof using Type.
  intros (w & Hw & E1) (w1 & Hw1 & E2). exists w. split; [done|]. rewrite E1 in Hw1, E2. simpl in Hw1. rewrite lookup_insert_eq in Hw1. injection Hw1 as <-.
  rewrite E2. destruct (look s). unfold set. cbn. f_equal. by rewrite insert_insert_eq, app_assoc.
Qed.

Lemma wrote_none fd s w : v_written (look s) !! fd = Some w -> wrote fd [] s s.
Proof using Type. intros Hw. exists w. split; [done|]. destruct (look s). unfold set. cbn in *. f_equal. by rewrite app_nil_r, insert_id. Qed.

Lemma wrote_next fd bs s s' : wrote fd bs s s' -> exists w, v_written (look s') !! fd = Some w.
Proof using Type. intros (w & _ & ->). exists (w ++ bs). cbn. apply lookup_insert_eq. Qed.

Lemma putcs_does fd bs s w : v_written (look s) !! fd = Some w -> exists s', does s (putcs fd bs) (Back s' tt) /\ wrote fd bs s s'.
Proof using Type.
  revert s w. induction bs as [|b bs IH]; intros s w Hw; cbn [putcs].
  - exists s. split; [apply does_ret|by eapply wrote_none].
  - destruct (write_does s fd [b] w Hw) as (s1 & H1 & E1). assert (W1 : wrote fd [b] s s1) by (by exists w).
    destruct (wrote_next _ _ _ _ W1) as (w1 & Hw1). destruct (IH s1 w1 Hw1) as (s2 & H2 & W2). exists s2.
    split; [by eapply does_then|]. apply (wrote_trans fd [b] bs s s1 s2 W1 W2).
Qed.

Lemma uprintf_does fd fmt ap bs s w :
  printf fmt ap = Some bs -> v_written (look s) !! fd = Some w -> exists s', does s (uprintf fd fmt ap) (Back s' tt) /\ wrote fd bs s s'.
Proof using Type. intros E. unfold uprintf. rewrite E. apply putcs_does. Qed.

(** ** cat *)

(** [bs] has been written to the output, and [rest] is left to be read from [fd]. *)
Definition moved (fd : Z) (bs rest : list Z) (s s' : os) : Prop :=
  exists i w, v_open (look s) !! fd = Some i /\ v_written (look s) !! 1 = Some w /\
    look s' = (look s) <| v_open ::= <[fd := mkInput (in_name i) rest]> |> <| v_written ::= <[1 := w ++ bs]> |>.

Lemma moved_trans fd a b rest rest' s s1 s2 : moved fd a rest' s s1 -> moved fd b rest s1 s2 -> moved fd (a ++ b) rest s s2.
Proof using Type.
  intros (i & w & Hi & Hw & E1) (i1 & w1 & Hi1 & Hw1 & E2). rewrite E1 in Hi1, Hw1, E2. rsimpl in Hi1. rsimpl in Hw1.
  rewrite lookup_insert_eq in Hi1. rewrite lookup_insert_eq in Hw1. injection Hi1 as <-. injection Hw1 as <-. exists i, w. split_and!; [done|done|].
  rewrite E2. destruct (look s). unfold set. cbn. f_equal; rewrite insert_insert_eq; [done|by rewrite app_assoc].
Qed.

Lemma moved_next fd bs rest s s' : moved fd bs rest s s' -> exists i w,
  v_open (look s) !! fd = Some i /\ v_open (look s') !! fd = Some (mkInput (in_name i) rest) /\ v_written (look s') !! 1 = Some w.
Proof using Type.
  intros (i & w & Hi & Hw & ->). exists i, (w ++ bs). rsimpl. split_and!; [done|apply lookup_insert_eq|apply lookup_insert_eq].
Qed.

Lemma moved_still fd i w s : v_open (look s) !! fd = Some i -> v_written (look s) !! 1 = Some w -> moved fd [] (in_rest i) s s.
Proof using Type.
  intros Hi Hw. exists i, w. split_and!; [done|done|]. destruct (look s). unfold set. cbn in *. f_equal; [|by rewrite app_nil_r, insert_id].
  rewrite insert_id; [done|]. rewrite Hi. by destruct i.
Qed.

(** A read, and what is written of it. *)
Lemma read_moved fd n i s w :
  v_open (look s) !! fd = Some i -> v_written (look s) !! 1 = Some w -> 0 <= n ->
  exists (k : nat) s', let bs := take k (in_rest i) in
    does s (sys (Read fd n)) (Back s' (Z.of_nat (length bs), bs)) /\ Z.of_nat k <= n /\ (k = 0%nat -> n = 0 \/ in_rest i = []) /\
    (in_name i <> None -> Z.of_nat k = n) /\ moved fd [] (drop k (in_rest i)) s s'.
Proof using Type.
  intros Hi Hw Hn. destruct (read_does s fd n i Hi Hn) as (k & s' & H1 & H2 & H3 & H4 & E). exists k, s'. split_and!; try done. exists i, w. split_and!; [done|done|].
  rewrite E. destruct (look s). unfold set. cbn in *. f_equal. by rewrite app_nil_r, insert_id.
Qed.

Lemma moved_wrote fd a b rest s s1 s2 : moved fd a rest s s1 -> wrote 1 b s1 s2 -> moved fd (a ++ b) rest s s2.
Proof using Type.
  intros M (w1 & Hw1 & E2). destruct (moved_next _ _ _ _ _ M) as (i & _ & _ & Hi & _). eapply moved_trans; [exact M|].
  exists (mkInput (in_name i) rest), w1. split_and!; [done|done|]. rewrite E2. destruct (look s1). unfold set. cbn in *. f_equal. by rewrite insert_id.
Qed.

Lemma write_wrote bs s w : v_written (look s) !! 1 = Some w -> exists s', does s (sys (Write 1 bs)) (Back s' (Z.of_nat (length bs))) /\ wrote 1 bs s s'.
Proof using Type. intros Hw. destruct (write_does s 1 bs w Hw) as (s' & H & E). exists s'. split; [done|]. by exists w. Qed.

Lemma cat_turn_does fd i s w :
  v_open (look s) !! fd = Some i -> v_written (look s) !! 1 = Some w ->
  exists (k : nat) s', moved fd (take k (in_rest i)) (drop k (in_rest i)) s s' /\ (k = 0%nat -> in_rest i = []) /\
    does s (cat_turn fd tt) (Back s' (if decide (in_rest i = []) then inr 0 else inl tt)).
Proof using Type.
  intros Hi Hw. destruct (read_moved fd 512 i s w Hi Hw) as (k & s1 & H1 & Hk & Hk0 & _ & M1); [lia|]. cbv zeta in H1. set (bs := take k (in_rest i)) in *.
  assert (Hk1 : k = 0%nat -> in_rest i = []) by (intros E; by destruct (Hk0 E)). exists k. destruct (decide (in_rest i = [])) as [Ez|Hne].
  - assert (Eb : bs = []) by (unfold bs; by rewrite Ez, take_nil). rewrite Eb in H1. exists s1. split_and!; [fold bs; rewrite Eb; exact M1|done|].
    unfold cat_turn. eapply does_then; [exact H1|]. cbn. apply does_ret.
  - assert (Hb : (0 < length bs)%nat) by (unfold bs; destruct (in_rest i), k; try done; [by specialize (Hk1 eq_refl)|simpl; lia]).
    destruct (moved_next _ _ _ _ _ M1) as (_ & w1 & _ & _ & Hw1). destruct (write_wrote bs s1 w1 Hw1) as (s2 & H2 & W2). exists s2. split_and!; [exact (moved_wrote fd [] bs _ s s1 s2 M1 W2)|done|].
    unfold cat_turn. eapply does_then; [exact H1|]. cbn [fst snd]. rewrite (proj2 (Z.ltb_lt _ _)) by lia. rewrite Nat2Z.id, take_ge by lia.
    eapply does_then; [exact H2|]. rewrite Z.eqb_refl. cbn. apply does_ret.
Qed.

Lemma cat_loop_does fd n : forall i s w,
  v_open (look s) !! fd = Some i -> v_written (look s) !! 1 = Some w -> (length (in_rest i) < n)%nat ->
  exists s', does s (ITree.iter (cat_turn fd) tt) (Back s' 0) /\ moved fd (in_rest i) [] s s'.
Proof using Type.
  induction n as [|n IH]; intros i s w Hi Hw Hn; [lia|]. destruct (cat_turn_does fd i s w Hi Hw) as (k & s1 & M1 & Hk & H1). case_decide as Hd.
  - exists s1. split; [by apply does_last|]. by rewrite Hd, take_nil, drop_nil in *.
  - destruct (moved_next _ _ _ _ _ M1) as (i' & w1 & Hi' & Hi1 & Hw1). destruct (IH _ s1 w1 Hi1 Hw1) as (s2 & H2 & M2).
    + cbn. rewrite length_drop. destruct (in_rest i), k; try done; [by specialize (Hk eq_refl)|simpl in *; lia].
    + exists s2. split; [by eapply does_again|]. rewrite <- (take_drop k (in_rest i)) at 1. by eapply moved_trans.
Qed.

Lemma cat_does fd i s w :
  v_open (look s) !! fd = Some i -> v_written (look s) !! 1 = Some w -> exists s', does s (cat fd) (Back s' tt) /\ moved fd (in_rest i) [] s s'.
Proof using Type.
  intros Hi Hw. destruct (cat_loop_does fd (S (length (in_rest i))) i s w Hi Hw ltac:(lia)) as (s' & H & M). exists s'. split; [|done].
  unfold cat. eapply does_then; [exact H|]. cbn. apply does_ret.
Qed.

(** ** Programs that take files in turn *)

(** What is printed for the files named: [out] of the contents of each, up to the first
    that is missing, for which it is [err]. *)
Fixpoint for_files (files : list Z -> option (list Z)) (out err : list Z -> list Z) (names : list (list Z)) : list Z :=
  match names with
  | [] => []
  | n :: names => match files n with Some c => out c ++ for_files files out err names | None => err n end
  end.

Lemma wrote_files fd bs s s' : wrote fd bs s s' -> v_files (look s') = v_files (look s) /\ v_spare (look s') = v_spare (look s).
Proof using Type. by intros (w & _ & ->). Qed.

(** A file opened, used and closed. *)
Lemma opened_file (use : Z -> program unit) out err name s w :
  v_spare (look s) <> 0%nat -> v_written (look s) !! 1 = Some w -> printf (err ++ bytes " cannot open %s" ++ nl) [S_ name] = Some (err ++ bytes " cannot open " ++ name ++ nl) ->
  (forall fd i s w, v_open (look s) !! fd = Some i -> in_name i <> None -> v_written (look s) !! 1 = Some w ->
     exists rest s', does s (use fd) (Back s' tt) /\ moved fd (out (in_rest i)) rest s s') ->
  let t := (let* fd := sys (Open name 0) in
            if fd <? 0 then let* _ := uprintf 1 (err ++ bytes " cannot open %s" ++ nl) [S_ name] in exit
            else let* _ := use fd in let* _ := sys (Close fd) in Ret tt) in
  match v_files (look s) name with
  | Some c => exists s', does s t (Back s' tt) /\ wrote 1 (out c) s s'
  | None => exists s', does s t (Gone s') /\ wrote 1 (err ++ bytes " cannot open " ++ name ++ nl) s s'
  end.
Proof using Type.
  intros Hs Hw Hp Huse t. pose proof (open_law s name) as HO. destruct (call _ (Open name 0) s) as [s1 fd] eqn:EO.
  assert (H1 : does s (sys (Open name 0)) (Back s1 fd)) by (apply does_sys; cbn; by rewrite EO).
  destruct (v_files (look s) name) as [c|]; [destruct (v_spare (look s)) as [|k] eqn:Ek; [done|]|].
  - destruct HO as (Hfd & Hnew & E1). destruct (Huse fd (mkInput (Some name) c) s1 w) as (rest & s2 & H2 & (i & w2 & Hi & Hw2 & E2));
      [rewrite E1; apply lookup_insert_eq|done|by rewrite E1|].
    assert (Hi2 : v_open (look s2) !! fd = Some (mkInput (in_name i) rest)) by (rewrite E2; apply lookup_insert_eq).
    pose proof (close_law s2 fd _ Hi2) as HC. destruct (call _ (Close fd) s2) as [s3 r] eqn:EC.
    assert (H3 : does s2 (sys (Close fd)) (Back s3 r)) by (apply does_sys; cbn; by rewrite EC).
    exists s3. split.
    + unfold t. eapply does_then; [exact H1|]. rewrite (proj2 (Z.ltb_ge _ _)) by done. eapply does_then; [exact H2|]. eapply does_then; [exact H3|]. apply does_ret.
    + exists w. split; [done|]. assert (w2 = w) as -> by (rewrite E1 in Hw2; change (v_written (look s) !! 1 = Some w2) in Hw2; congruence).
      rewrite HC, E2, E1. destruct (look s). unfold set. cbn in *. rewrite insert_insert_eq, delete_insert_id by done. by rewrite Ek.
  - destruct HO as [-> E1]. destruct (uprintf_does 1 _ _ _ s1 w Hp) as (s2 & H2 & W2); [by rewrite E1|]. exists s2. split.
    + unfold t. eapply does_then; [exact H1|]. cbn. eapply does_then; [exact H2|]. apply does_exit.
    + destruct W2 as (w2 & Hw2 & E2). exists w2. by rewrite <- E1.
Qed.

Lemma each_file (f : list Z -> program unit) out err :
  (forall name s w, v_spare (look s) <> 0%nat -> v_written (look s) !! 1 = Some w ->
     match v_files (look s) name with
     | Some c => exists s', does s (f name) (Back s' tt) /\ wrote 1 (out c) s s'
     | None => exists s', does s (f name) (Gone s') /\ wrote 1 (err name) s s'
     end) ->
  forall names s w, v_spare (look s) <> 0%nat -> v_written (look s) !! 1 = Some w ->
  exists s', does s (let* _ := each names f in (exit : program unit)) (Gone s') /\ wrote 1 (for_files (v_files (look s)) out err names) s s'.
Proof using Type.
  intros Hf names. induction names as [|n names IH]; intros s w Hs Hw; cbn [each for_files].
  - exists s. split; [eapply does_then; [apply does_ret|apply does_exit]|by eapply wrote_none].
  - pose proof (Hf n s w Hs Hw) as H. destruct (v_files (look s) n) as [c|].
    + destruct H as (s1 & H1 & W1). destruct (wrote_files _ _ _ _ W1) as [Ef Es]. destruct (wrote_next _ _ _ _ W1) as (w1 & Hw1).
      destruct (IH s1 w1) as (s2 & H2 & W2); [by rewrite Es|done|]. exists s2. split; [|rewrite Ef in W2; by eapply wrote_trans].
      unfold does in *. rewrite bind_bind. fold (does s (ITree.bind (f n) (fun _ => let* _ := each names f in (exit : program unit))) (Gone s2)).
      by eapply does_then.
    + destruct H as (s1 & H1 & W1). exists s1. split; [|done]. by apply does_gone, does_gone.
Qed.
(** ** grep *)

Lemma write_lines out : forall s w, v_written (look s) !! 1 = Some w ->
  exists s', does s (each out (fun line => let* _ := sys (Write 1 line) in Ret tt)) (Back s' tt) /\ wrote 1 (concat out) s s'.
Proof using Type.
  induction out as [|l out IH]; intros s w Hw; cbn [each concat].
  - exists s. split; [apply does_ret|by eapply wrote_none].
  - destruct (write_wrote l s w Hw) as (s1 & H1 & W1). destruct (wrote_next _ _ _ _ W1) as (w1 & Hw1). destruct (IH s1 w1 Hw1) as (s2 & H2 & W2).
    exists s2. split; [|by eapply wrote_trans]. eapply does_then; [|exact H2]. eapply does_then; [exact H1|]. apply does_ret.
Qed.

(** What [grep] does on a file is what the function of Grep.v says for reads that deliver
    all they are asked for. *)
Lemma grep_loop_does fd pattern n : forall held i s w,
  v_open (look s) !! fd = Some i -> in_name i <> None -> v_written (look s) !! 1 = Some w -> (length (in_rest i) <= n)%nat ->
  exists rest s', does s (ITree.iter (grep_turn fd pattern) held) (Back s' tt) /\
    moved fd (concat (grep_loop n sizeof_buf pattern held (in_rest i))) rest s s'.
Proof using Type.
  induction n as [|n IH]; intros held i s w Hi Hnm Hw Hn;
    destruct (read_moved fd (Z.of_nat (sizeof_buf - length held - 1)) i s w Hi Hw) as (k & s1 & H1 & _ & _ & Hk & M1); try lia; cbv zeta in H1;
    specialize (Hk Hnm); apply Nat2Z.inj in Hk.
  { exists (drop k (in_rest i)), s1. destruct (in_rest i) as [|b l] eqn:Er; [|simpl in Hn; lia]. rewrite take_nil in H1. split; [|by rewrite drop_nil in *].
    apply does_last. unfold grep_turn. eapply does_then; [exact H1|]. cbn. apply does_ret. }
  cbn [grep_loop]. rewrite Nat.min_l by (unfold sizeof_buf; lia). rewrite <- Hk. set (bs := take k (in_rest i)) in *. destruct bs as [|b bs'] eqn:Eb.
  - exists (drop k (in_rest i)), s1. split; [|done]. apply does_last. unfold grep_turn. eapply does_then; [exact H1|]. cbn. apply does_ret.
  - rewrite <- Eb in *. assert (Hb : (0 < length bs)%nat) by (rewrite Eb; simpl; lia). clear Eb b bs'.
    destruct (grep_scan (length (held ++ bs)) pattern (held ++ bs)) as [out rest] eqn:Eg. set (held' := if (length rest =? _)%nat then [] else rest).
    destruct (moved_next _ _ _ _ _ M1) as (i' & w1 & Hi' & Hi1 & Hw1). rewrite Hi in Hi'. injection Hi' as <-.
    destruct (write_lines out s1 w1 Hw1) as (s2 & H2 & W2). pose proof (moved_wrote _ _ _ _ _ _ _ M1 W2) as M2.
    destruct (moved_next _ _ _ _ _ M2) as (i' & w2 & Hi' & Hi2 & Hw2). rewrite Hi in Hi'. injection Hi' as <-.
    destruct (IH held' _ s2 w2 Hi2 Hnm Hw2) as (rest' & s3 & H3 & M3).
    { cbn. rewrite length_drop. assert (length bs <= k)%nat by (unfold bs; apply firstn_le_length). lia. }
    exists rest', s3. split; [|rewrite concat_app; exact (moved_trans _ _ _ _ _ _ _ _ M2 M3)]. eapply does_again; [|exact H3].
    unfold grep_turn. eapply does_then; [exact H1|]. cbn [fst snd]. rewrite (proj2 (Z.ltb_lt _ _)) by lia. rewrite Nat2Z.id, (take_ge bs) by lia.
    rewrite Eg. eapply does_then; [exact H2|]. apply does_ret.
Qed.
(** ** echo *)

Fixpoint spaced (args : list (list Z)) : list Z :=
  match args with
  | [] => []
  | [a] => a ++ nl
  | a :: args => a ++ [32] ++ spaced args
  end.

Lemma echo_loop_does args : forall s w, v_written (look s) !! 1 = Some w -> exists s', does s (echo_loop args) (Back s' tt) /\ wrote 1 (spaced args) s s'.
Proof using Type.
  induction args as [|a args IH]; intros s w Hw; cbn [echo_loop].
  - exists s. split; [apply does_ret|by eapply wrote_none].
  - set (sep := match args with [] => nl | _ => [32] end).
    destruct (uprintf_does 1 (bytes "%s%s") [S_ a; S_ sep] (a ++ sep ++ []) s w eq_refl Hw) as (s1 & H1 & W1). rewrite app_nil_r in W1.
    destruct (wrote_next _ _ _ _ W1) as (w1 & Hw1). destruct (IH s1 w1 Hw1) as (s2 & H2 & W2). exists s2. split; [by eapply does_then|].
    replace (spaced (a :: args)) with ((a ++ sep) ++ spaced args); [by eapply wrote_trans|]. unfold sep. destruct args; cbn [spaced]; [by rewrite app_nil_r|by rewrite <- app_assoc].
Qed.

(** ** ls *)

Definition dec (z : Z) : list Z := uprintint (i32 z) 10 true.

Definition ls_text (path : list Z) (st : stat) : list Z :=
  fmtname path ++ [32] ++ dec (st_type st) ++ [32] ++ dec (st_ino st) ++ [32] ++ dec (st_size st) ++ nl.

(** What is printed for an entry of directory [path]. *)
Definition ls_entry (stats : list Z -> option stat) (path de : list Z) : list Z :=
  if de_inum de =? 0 then []
  else let name := path ++ [slash] ++ cstr (take DIRSIZ (de_name de)) in
       match stats name with
       | Some st => ls_text name st
       | None => bytes "ls: cannot stat " ++ name ++ nl
       end.

Lemma ls_line_does path st s w : v_written (look s) !! 1 = Some w -> exists s', does s (ls_line path st) (Back s' tt) /\ wrote 1 (ls_text path st) s s'.
Proof using Type. intros Hw. unfold ls_line. eapply uprintf_does; [reflexivity|exact Hw]. Qed.

Lemma stat_does s name : exists s' r, does s (sys (Stat name)) (Back s' r) /\ look s' = look s /\
  match v_stats (look s) name with Some st => r = (0, st) | None => r.1 = -1 end.
Proof using Type.
  pose proof (stat_law s name) as H. destruct (call _ (Stat name) s) as [s' r] eqn:E. exists s', r. split; [|done]. apply does_sys. cbn. by rewrite E.
Qed.

Lemma wrote_same fd bs s s1 s2 : look s1 = look s -> wrote fd bs s1 s2 -> wrote fd bs s s2.
Proof using Type. intros E (w & Hw & E2). exists w. by rewrite <- E. Qed.

(** An entry that has been read. *)
Lemma ls_print fd path de s w :
  v_written (look s) !! 1 = Some w -> length de = 16%nat ->
  exists s', wrote 1 (ls_entry (v_stats (look s)) path de) s s' /\
    forall s0, does s0 (sys (Read fd sizeof_dirent)) (Back s (16, de)) -> does s0 (ls_turn fd path tt) (Back s' (inl tt)).
Proof using Type.
  intros Hw Hl. unfold ls_entry, ls_turn. destruct (de_inum de =? 0) eqn:Ez.
  { exists s. split; [by eapply wrote_none|]. intros s0 H0. eapply does_then; [exact H0|]. cbn [fst snd]. rewrite Ez. apply does_ret. }
  set (name := path ++ [slash] ++ _). destruct (stat_does s name) as (s1 & r & H1 & E1 & Hr). assert (Hw1 : v_written (look s1) !! 1 = Some w) by (by rewrite E1).
  assert (Hrest : exists s', wrote 1 (match v_stats (look s) name with Some st => ls_text name st | None => bytes "ls: cannot stat " ++ name ++ nl end) s1 s' /\
    does s1 (if r.1 <? 0 then let* _ := uprintf 1 (bytes "ls: cannot stat %s" ++ nl) [S_ name] in Ret (inl tt)
             else let* _ := ls_line name r.2 in Ret (inl tt)) (Back s' (inl tt : unit + unit))).
  { destruct (v_stats (look s) name) as [st|].
    - rewrite Hr. destruct (ls_line_does name st s1 w Hw1) as (s2 & H2 & W2). exists s2. split; [done|]. cbn. eapply does_then; [exact H2|]. apply does_ret.
    - rewrite Hr. destruct (uprintf_does 1 (bytes "ls: cannot stat %s" ++ nl) [S_ name] (bytes "ls: cannot stat " ++ name ++ nl) s1 w eq_refl Hw1) as (s2 & H2 & W2). exists s2. split; [done|].
      cbn. eapply does_then; [exact H2|]. apply does_ret. }
  destruct Hrest as (s2 & W2 & H2). exists s2. split; [by eapply wrote_same|]. intros s0 H0. eapply does_then; [exact H0|]. cbn [fst snd].
  rewrite Ez. eapply does_then; [exact H1|]. exact H2.
Qed.

Lemma moved_stats fd bs rest s s' : moved fd bs rest s s' -> v_stats (look s') = v_stats (look s).
Proof using Type. by intros (i & w & _ & _ & ->). Qed.

Lemma ls_loop_does fd path des : forall i s w,
  v_open (look s) !! fd = Some i -> in_name i <> None -> v_written (look s) !! 1 = Some w ->
  in_rest i = concat des -> Forall (fun de => length de = 16%nat) des ->
  exists s', does s (ITree.iter (ls_turn fd path) tt) (Back s' tt) /\ moved fd (concat (map (ls_entry (v_stats (look s)) path) des)) [] s s'.
Proof using Type.
  induction des as [|de des IH]; intros i s w Hi Hnm Hw Er Hd;
    destruct (read_moved fd sizeof_dirent i s w Hi Hw ltac:(done)) as (k & s1 & H1 & _ & _ & Hk & M1); cbv zeta in H1; specialize (Hk Hnm);
    assert (k = 16%nat) as -> by (unfold sizeof_dirent in Hk; lia); rewrite Er in H1, M1; cbn [concat map] in *.
  - exists s1. rewrite take_nil in H1. split; [|done]. apply does_last. unfold ls_turn. eapply does_then; [exact H1|]. cbn. apply does_ret.
  - apply Forall_cons in Hd as [Hde Hd]. rewrite take_app_length', Hde in H1 by done. rewrite drop_app_length' in M1 by done.
    destruct (moved_next _ _ _ _ _ M1) as (i' & w1 & Hi' & Hi1 & Hw1). rewrite Hi in Hi'. injection Hi' as <-.
    destruct (ls_print fd path de s1 w1 Hw1 Hde) as (s2 & W2 & H2). rewrite (moved_stats _ _ _ _ _ M1) in W2.
    pose proof (moved_wrote _ _ _ _ _ _ _ M1 W2) as M2. destruct (moved_next _ _ _ _ _ M2) as (i' & w2 & Hi' & Hi2 & Hw2). rewrite Hi in Hi'. injection Hi' as <-.
    destruct (IH _ s2 w2 Hi2 Hnm Hw2 eq_refl Hd) as (s3 & H3 & M3). rewrite (moved_stats _ _ _ _ _ M2) in M3.
    exists s3. split; [|exact (moved_trans _ _ _ _ _ _ _ _ M2 M3)]. eapply does_again; [by apply H2|exact H3].
Qed.
(** ** Children *)

Definition family (children : list Z) (slots : nat) (v : sight) : sight := v <| v_children := children |> <| v_slots := slots |>.

Lemma fork_does s : exists s' r, does s (sys Fork) (Back s' r) /\
  match v_slots (look s) with
  | S k => 0 < r /\ (r ∉ v_children (look s)) /\ look s' = family (r :: v_children (look s)) k (look s)
  | 0%nat => r = -1 /\ look s' = look s
  end.
Proof using Type.
  pose proof (fork_law s) as H. destruct (call _ Fork s) as [s' r] eqn:E. exists s', r. split; [apply does_sys; cbn; by rewrite E|].
  destruct (v_slots (look s)); [done|]. destruct H as (H1 & H2 & ->). by destruct (look s).
Qed.

Lemma wait_does s : exists s' r, does s (sys Wait) (Back s' r) /\
  match v_children (look s) with
  | [] => r = -1 /\ look s' = look s
  | _ => exists l l', v_children (look s) = l ++ r :: l' /\ look s' = family (l ++ l') (S (v_slots (look s))) (look s)
  end.
Proof using Type.
  pose proof (wait_law s) as H. destruct (call _ Wait s) as [s' r] eqn:E. exists s', r. split; [apply does_sys; cbn; by rewrite E|].
  destruct (v_children (look s)) as [|c cs] eqn:Ec; [done|]. destruct H as (l & l' & E1 & ->). exists l, l'. split; [done|]. by destruct (look s).
Qed.

(** *** forktest *)

Lemma put_does bs s w : v_written (look s) !! 1 = Some w -> exists s', does s (put 1 bs) (Back s' tt) /\ wrote 1 bs s s'.
Proof using Type. intros Hw. destruct (write_wrote bs s w Hw) as (s' & H & W). exists s'. split; [|done]. unfold put. eapply does_then; [exact H|]. apply does_ret. Qed.

Lemma fork_loop_does k : forall n s,
  Forall (fun c => 0 < c) (v_children (look s)) ->
  exists cs s', does s (fork_loop k n) (Back s' (n + Z.of_nat (length cs))) /\ length cs = Nat.min k (v_slots (look s)) /\
    Forall (fun c => 0 < c) (cs ++ v_children (look s)) /\ look s' = family (cs ++ v_children (look s)) (v_slots (look s) - length cs) (look s).
Proof using Type.
  induction k as [|k IH]; intros n s Hpos; cbn [fork_loop].
  - exists [], s. cbn [length app]. rewrite Z.add_0_r, Nat.sub_0_r. split_and!; [apply does_ret|done|done|by destruct (look s)].
  - destruct (fork_does s) as (s1 & r & H1 & E1). destruct (v_slots (look s)) as [|m] eqn:Em.
    + destruct E1 as [-> E1]. exists [], s1. cbn [length app]. rewrite Z.add_0_r. split_and!; [|done|done|rewrite E1; destruct (look s); cbn in *; by rewrite Em].
      eapply does_then; [exact H1|]. cbn. apply does_ret.
    + destruct E1 as (Hr & _ & E1). destruct (IH (n + 1) s1) as (cs & s2 & H2 & Hl & Hp & E2); [rewrite E1; by apply Forall_cons|].
      rewrite E1 in Hl, Hp, E2. change (v_slots (family _ m _)) with m in *. change (v_children (family ?l m _)) with l in *.
      exists (cs ++ [r]), s2. rewrite length_app, <- app_assoc. cbn [length app]. split_and!; [|lia|done|].
      * eapply does_then; [exact H1|]. rewrite (proj2 (Z.ltb_ge _ _)), (proj2 (Z.eqb_neq _ _)) by lia. by replace (n + Z.of_nat (length cs + 1)) with (n + 1 + Z.of_nat (length cs)) by lia.
      * rewrite E2. replace (S m - (length cs + 1))%nat with (m - length cs)%nat by lia. by destruct (look s).
Qed.

Lemma wait_children_does n : forall s,
  Forall (fun c => 0 < c) (v_children (look s)) -> length (v_children (look s)) = n ->
  exists s', does s (wait_children n) (Back s' tt) /\ look s' = family [] (v_slots (look s) + n) (look s).
Proof using Type.
  induction n as [|n IH]; intros s Hpos Hl; cbn [wait_children].
  - exists s. split; [apply does_ret|]. apply nil_length_inv in Hl. rewrite Nat.add_0_r. destruct (look s). cbn in *. by subst.
  - destruct (wait_does s) as (s1 & r & H1 & E1). destruct (v_children (look s)) as [|c cs] eqn:Ec; [done|]. destruct E1 as (l & l' & El & E1).
    rewrite El in Hpos, Hl. rewrite length_app in Hl. cbn [length] in Hl. apply Forall_app in Hpos as [Hp1 [Hr Hp2]%Forall_cons].
    destruct (IH s1) as (s2 & H2 & E2); [rewrite E1; by apply Forall_app|rewrite E1; change (length (l ++ l') = n); rewrite length_app; lia|].
    exists s2. split; [|rewrite E2, E1; change (v_slots (family _ ?k _)) with k; rewrite Nat.add_succ_comm; by destruct (look s)].
    eapply does_then; [exact H1|]. rewrite (proj2 (Z.ltb_ge _ _)) by lia. exact H2.
Qed.
(** *** init *)

Definition zombies (n : nat) : list Z := concat (replicate n (bytes "zombie!" ++ nl)).

(** What [init] has waited for is what it had, without the children that are left. *)
Lemma reap_does pid n : forall s w,
  Forall (fun c => 0 < c) (v_children (look s)) -> length (v_children (look s)) = n -> pid ∈ v_children (look s) -> NoDup (v_children (look s)) ->
  v_written (look s) !! 1 = Some w ->
  exists reaped left s', does s (ITree.iter (reap_turn pid) tt) (Back s' tt) /\
    v_children (look s) ≡ₚ pid :: reaped ++ left /\
    look s' = family left (v_slots (look s) + S (length reaped)) (look s) <| v_written ::= <[1 := w ++ zombies (length reaped)]> |>.
Proof using Type.
  induction n as [|n IH]; intros s w Hpos Hl Hin Hnd Hw; [apply nil_length_inv in Hl; rewrite Hl in Hin; by apply not_elem_of_nil in Hin|].
  destruct (wait_does s) as (s1 & r & H1 & E1). destruct (v_children (look s)) as [|c cs] eqn:Ec; [by apply not_elem_of_nil in Hin|].
  destruct E1 as (l & l' & El & E1). rewrite El in *. assert (Hr : 0 < r) by (apply Forall_app in Hpos as [_ [? _]%Forall_cons]; done).
  destruct (decide (r = pid)) as [->|Hne].
  - exists [], (l ++ l'), s1. cbn [length app]. split_and!; [|by rewrite Permutation_middle|].
    + apply does_last. unfold reap_turn. eapply does_then; [exact H1|]. rewrite Z.eqb_refl, andb_false_r. apply does_ret.
    + rewrite E1, Nat.add_1_r. destruct (look s). unfold set, family. cbn in *. f_equal. by rewrite app_nil_r, insert_id.
  - destruct (uprintf_does 1 (bytes "zombie!" ++ nl) [] (bytes "zombie!" ++ nl) s1 w eq_refl) as (s2 & H2 & (w2 & Hw2 & E2)); [rewrite E1; by destruct (look s)|].
    assert (w2 = w) as -> by (rewrite E1 in Hw2; change (v_written (look s) !! 1 = Some w2) in Hw2; congruence).
    assert (Hc2 : v_children (look s2) = l ++ l') by (rewrite E2, E1; by destruct (look s)).
    assert (Hp : l ++ r :: l' ≡ₚ r :: (l ++ l')) by (by rewrite Permutation_middle).
    destruct (IH s2 (w ++ bytes "zombie!" ++ nl)) as (reaped & left & s3 & H3 & P3 & E3); rewrite ?Hc2.
    + rewrite Hp in Hpos. by apply Forall_cons in Hpos as [_ ?]. + apply Permutation_length in Hp. cbn in Hp. lia.
    + rewrite Hp in Hin. apply elem_of_cons in Hin as [->|?]; done. + rewrite Hp in Hnd. by apply NoDup_cons in Hnd as [_ ?]. + rewrite E2. apply lookup_insert_eq.
    + exists (r :: reaped), left, s3. split_and!.
      * eapply does_again; [|exact H3]. unfold reap_turn. eapply does_then; [exact H1|]. rewrite (proj2 (Z.leb_le _ _)), (proj2 (Z.eqb_neq r pid)) by (done || lia). cbn [andb negb].
        eapply does_then; [exact H2|]. apply does_ret.
      * rewrite Hc2 in P3. rewrite Hp, P3. cbn [app]. apply Permutation_swap.
      * assert (Es : v_slots (look s2) = S (v_slots (look s))) by (rewrite E2, E1; by destruct (look s)).
        replace (v_slots (look s) + S (length (r :: reaped)))%nat with (v_slots (look s2) + S (length reaped))%nat by (rewrite Es; cbn; lia).
        rewrite E3. generalize (v_slots (look s2) + S (length reaped))%nat. intros k. rewrite E2, E1. unfold family, set. cbn [v_files v_stats v_open v_written v_spare v_children v_slots].
        f_equal. rewrite insert_insert_eq. f_equal. change (zombies (length (r :: reaped))) with ((bytes "zombie!" ++ nl) ++ zombies (length reaped)). by rewrite <- app_assoc.
Qed.
End Laws.

(** ** A system that keeps the laws *)

(** Descriptors and process numbers are the least that are not in use; pipes and devices
    deliver three bytes at a time. *)
Definition unused (l : list Z) : Z := Z.of_N (fresh (list_to_set (map Z.to_N l) : gset N)).

Lemma unused_new l : 0 <= unused l /\ (unused l ∉ l).
Proof.
  split; [unfold unused; lia|]. intros Hin. apply (is_fresh (list_to_set (map Z.to_N l) : gset N)), elem_of_list_to_set, list_elem_of_fmap.
  exists (unused l). split; [|done]. unfold unused. by rewrite N2Z.id.
Qed.

Definition demo_call (A : Type) (e : sysE A) (v : sight) : sight * A :=
  match e in sysE A return sight * A with
  | Read fd n =>
    match v_open v !! fd with
    | Some i =>
      let k := match in_name i with Some _ => Z.to_nat n | None => Nat.min (Z.to_nat n) 3 end in
      let bs := take k (in_rest i) in
      (v <| v_open ::= <[fd := mkInput (in_name i) (drop k (in_rest i))]> |>, (Z.of_nat (length bs), bs))
    | None => (v, (-1, []))
    end
  | Write fd bs =>
    match v_written v !! fd with
    | Some w => (v <| v_written ::= <[fd := w ++ bs]> |>, Z.of_nat (length bs))
    | None => (v, -1)
    end
  | Open name _ =>
    match v_files v name, v_spare v with
    | Some c, S k =>
      let fd := unused (map fst (map_to_list (v_open v))) in
      (v <| v_open ::= <[fd := mkInput (Some name) c]> |> <| v_spare := k |>, fd)
    | _, _ => (v, -1)
    end
  | Close fd => (v <| v_open ::= delete fd |> <| v_spare ::= S |>, 0)
  | Fstat fd =>
    match v_open v !! fd with
    | Some (mkInput (Some name) _) => match v_stats v name with Some st => (v, (0, st)) | None => (v, (-1, mkStat 0 0 0 0 0)) end
    | _ => (v, (-1, mkStat 0 0 0 0 0))
    end
  | Stat name => match v_stats v name with Some st => (v, (0, st)) | None => (v, (-1, mkStat 0 0 0 0 0)) end
  | Unlink name =>
    match v_files v name with
    | Some _ => (v <| v_files ::= fun f n => if decide (n = name) then None else f n |>, 0)
    | None => (v, -1)
    end
  | Fork =>
    match v_slots v with
    | S k => let r := unused (0 :: v_children v) in (v <| v_children ::= cons r |> <| v_slots := k |>, r)
    | O => (v, -1)
    end
  | Wait =>
    match v_children v with
    | [] => (v, -1)
    | r :: l => (v <| v_children := l |> <| v_slots ::= S |>, r)
    end
  | _ => (v, -1)
  end.

#[export] Instance demo_os : Os := {| os := sight; call := demo_call; execs := fun _ _ _ => None |}.

#[export] Instance demo_laws : OsLaws demo_os.
Proof.
  apply (Build_OsLaws demo_os id); cbn [call demo_os demo_call id]; unfold demo_call.
  - intros s fd n i Hi Hn. exists (match in_name i with Some _ => Z.to_nat n | None => Nat.min (Z.to_nat n) 3 end).
    unfold id in *. rewrite Hi. split_and!; [destruct (in_name i); lia|destruct (in_name i); intros; left; lia|destruct (in_name i); [lia|done]|done|done].
  - intros s fd bs w Hw. unfold id in *. by rewrite Hw.
  - intros s name. unfold id. destruct (v_files s name); [|done]. destruct (v_spare s) as [|k]; [done|].
    destruct (unused_new (map fst (map_to_list (v_open s)))) as [H1 H2]. split_and!; [done| |done].
    destruct (v_open s !! unused _) as [i|] eqn:E; [|done]. destruct H2. apply list_elem_of_fmap. eexists (_, i). split; [done|]. by apply elem_of_map_to_list.
  - done.
  - intros s fd name rest st H1 H2. unfold id in *. by rewrite H1, H2.
  - intros s name. unfold id. by destruct (v_stats s name).
  - intros s name. unfold id. by destruct (v_files s name).
  - intros s. unfold id. destruct (v_slots s); [done|]. destruct (unused_new (0 :: v_children s)) as [H1 [H2 H3]%not_elem_of_cons]. split_and!; [lia|done|done].
  - intros s. unfold id. destruct (v_children s) as [|r l] eqn:E; [done|]. exists [], l. done.
Defined.

(** ** Properties *)

(** C32. [cat] copies.  Without arguments it copies its input to its output, in whatever pieces
    the input arrives.  With arguments it writes the contents of the files named, one
    after the other, up to the first that cannot be opened, which it reports; every
    file has been closed again.  In both cases it ends. *)
Theorem cat_copies {O : Os} {L : OsLaws O} prog s w :
  v_written (look s) !! 1 = Some w ->
  (forall i, v_open (look s) !! 0 = Some i -> exists s', does s (cat_main [prog]) (Gone s') /\ moved 0 (in_rest i) [] s s') /\
  (forall names, names <> [] -> v_spare (look s) <> 0%nat -> exists s', does s (cat_main (prog :: names)) (Gone s') /\
     wrote 1 (for_files (v_files (look s)) id (fun n => bytes "cat: cannot open " ++ n ++ nl) names) s s').
Proof.
  intros Hw. split.
  - intros i Hi. destruct (cat_does 0 i s w Hi Hw) as (s' & H & M). exists s'. split; [|done]. cbn [cat_main]. eapply does_then; [exact H|]. apply does_exit.
  - intros names Hne Hs. destruct names as [|n names]; [done|]. cbn [cat_main]. apply (each_file cat_file id (fun n => bytes "cat: cannot open " ++ n ++ nl)) with (w := w); [|done|done].
    clear. intros name s w Hs Hw. apply (opened_file cat id (bytes "cat:") name s w Hs Hw); [reflexivity|].
    clear. intros fd i s w Hi _ Hw. destruct (cat_does fd i s w Hi Hw) as (s' & H). by exists [], s'.
Qed.

(** [grep] with files prints, for each of them in turn, what the function [grep] of Grep.v
    prints for its contents, up to the first that cannot be opened, and ends. *)
Theorem grep_main_prints {O : Os} {L : OsLaws O} prog pattern names s w :
  v_written (look s) !! 1 = Some w -> names <> [] -> v_spare (look s) <> 0%nat ->
  exists s', does s (grep_main (prog :: pattern :: names)) (Gone s') /\
    wrote 1 (for_files (v_files (look s)) (fun c => concat (grep sizeof_buf pattern c)) (fun n => bytes "grep: cannot open " ++ n ++ nl) names) s s'.
Proof.
  intros Hw Hne Hs. destruct names as [|n names]; [done|]. cbn [grep_main].
  apply (each_file (grep_file pattern) (fun c => concat (grep sizeof_buf pattern c)) (fun n => bytes "grep: cannot open " ++ n ++ nl)) with (w := w); [|done|done].
  clear. intros name s w Hs Hw. apply (opened_file (grep_fd pattern) (fun c => concat (grep sizeof_buf pattern c)) (bytes "grep:") name s w Hs Hw); [reflexivity|].
  clear. intros fd i s w Hi Hn Hw. destruct (grep_loop_does fd pattern (length (in_rest i)) [] i s w Hi Hn Hw) as (rest & s' & H & M); [done|]. by exists rest, s'.
Qed.

(** [echo] prints its arguments, separated by spaces and ended by a newline. *)
Theorem echo_prints {O : Os} {L : OsLaws O} prog args s w :
  v_written (look s) !! 1 = Some w -> exists s', does s (echo_main (prog :: args)) (Gone s') /\ wrote 1 (spaced args) s s'.
Proof.
  intros Hw. destruct (echo_loop_does args s w Hw) as (s' & H & W). exists s'. split; [|done]. unfold echo_main. cbn [tail]. eapply does_then; [exact H|]. apply does_exit.
Qed.

(** C33. [ls] of a directory prints a line for every entry in use, in the order of the
    directory: the name, cut or padded to the width of names, and what [stat] says of the
    path made of the directory and the name, or a complaint.  It closes the directory. *)
Theorem ls_lists {O : Os} {L : OsLaws O} path st des k s w :
  v_written (look s) !! 1 = Some w -> v_spare (look s) = S k -> v_files (look s) path = Some (concat des) -> v_stats (look s) path = Some st ->
  st_type st = T_DIR -> (length path + 16 <= 512)%nat -> Forall (fun de => length de = 16%nat) des ->
  exists s', does s (ls path) (Back s' tt) /\ wrote 1 (concat (map (ls_entry (v_stats (look s)) path) des)) s s'.
Proof.
  intros Hw Hs Hf Hst Ht Hlen Hd. pose proof (open_law s path) as HO. rewrite Hf, Hs in HO. destruct (call _ (Open path 0) s) as [s1 fd] eqn:EO. destruct HO as (Hfd & Hnew & E1).
  assert (H1 : does s (sys (Open path 0)) (Back s1 fd)) by (apply does_sys; cbn; by rewrite EO).
  assert (Hi1 : v_open (look s1) !! fd = Some (mkInput (Some path) (concat des))) by (rewrite E1; apply lookup_insert_eq).
  pose proof (fstat_law s1 fd path _ st Hi1 ltac:(by rewrite E1)) as HF. destruct (call _ (Fstat fd) s1) as [s2 r] eqn:EF. destruct HF as [-> E2].
  assert (H2 : does s1 (sys (Fstat fd)) (Back s2 (0, st))) by (apply does_sys; cbn; by rewrite EF).
  assert (Hi2 : v_open (look s2) !! fd = Some (mkInput (Some path) (concat des))) by (by rewrite E2).
  assert (Hw2 : v_written (look s2) !! 1 = Some w) by (by rewrite E2, E1).
  destruct (ls_loop_does fd path des _ s2 w Hi2 ltac:(done) Hw2 eq_refl Hd) as (s3 & H3 & (i & w3 & Hi & Hw3 & E3)).
  rewrite Hi2 in Hi. injection Hi as <-. rewrite Hw2 in Hw3. injection Hw3 as <-.
  assert (Hi3 : v_open (look s3) !! fd = Some (mkInput (Some path) [])) by (rewrite E3; apply lookup_insert_eq).
  pose proof (close_law s3 fd _ Hi3) as HC. destruct (call _ (Close fd) s3) as [s4 r] eqn:EC.
  assert (H4 : does s3 (sys (Close fd)) (Back s4 r)) by (apply does_sys; cbn; by rewrite EC).
  exists s4. split.
  - unfold ls. eapply does_then; [exact H1|]. rewrite (proj2 (Z.ltb_ge _ _)) by done. eapply does_then; [exact H2|]. cbn [fst snd]. change (0 <? 0) with false. cbv iota. rewrite Ht.
    change (T_DIR =? T_FILE) with false. rewrite Z.eqb_refl. cbv iota. rewrite (proj2 (Nat.ltb_ge _ _)) by (unfold DIRSIZ; lia). eapply does_then; [exact H3|].
    eapply does_then; [exact H4|]. apply does_ret.
  - exists w. split; [done|]. rewrite HC, E3. assert (Es : v_stats (look s2) = v_stats (look s)) by (by rewrite E2, E1). rewrite Es, E2, E1. destruct (look s). unfold set. cbn in *.
    rewrite insert_insert_eq, delete_insert_id by done. by rewrite Hs.
Qed.

Definition init_banner : list Z :=
  bytes "init: starting sh" ++ nl ++ bytes "Group 6:" ++ nl ++ bytes "- Marzieh Hariri" ++ nl ++ bytes "-FatemeZahra Broumandnia" ++ nl.

(** A round of [init].  When a process can be made, it prints its lines, starts one child
    and waits until that child has ended, with a line for every other child that ends
    meanwhile; the children it has then are those it had and has not waited for, and it
    goes round again.  When no process can be made it says so and ends. *)
Theorem init_restarts_shell {O : Os} {L : OsLaws O} s w :
  v_written (look s) !! 1 = Some w -> Forall (fun c => 0 < c) (v_children (look s)) -> NoDup (v_children (look s)) ->
  match v_slots (look s) with
  | S k => exists reaped left s', does s (init_round tt) (Back s' (inl tt)) /\ v_children (look s) ≡ₚ reaped ++ left /\
      v_children (look s') = left /\ v_slots (look s') = (S k + length reaped)%nat /\
      v_written (look s') !! 1 = Some (w ++ init_banner ++ zombies (length reaped))
  | 0%nat => exists s', does s (init_round tt) (Gone s') /\ wrote 1 (init_banner ++ bytes "init: fork failed" ++ nl) s s'
  end.
Proof.
  intros Hw Hpos Hnd. destruct (uprintf_does 1 (bytes "init: starting sh" ++ nl) [] (bytes "init: starting sh" ++ nl) s w eq_refl Hw) as (s1 & H1 & W1).
  destruct (wrote_next _ _ _ _ W1) as (w1 & Hw1). set (lines := bytes "Group 6:" ++ nl ++ bytes "- Marzieh Hariri" ++ nl ++ bytes "-FatemeZahra Broumandnia" ++ nl).
  destruct (uprintf_does 1 lines [] lines s1 w1 eq_refl Hw1) as (s2 & H2 & W2). pose proof (wrote_trans _ _ _ _ _ _ W1 W2) as W12.
  change ((bytes "init: starting sh" ++ nl) ++ lines) with init_banner in W12. destruct (fork_does s2) as (s3 & r & H3 & E3).
  destruct W12 as (w0 & Hw0 & E2). rewrite Hw in Hw0. injection Hw0 as <-.
  assert (Ev : v_slots (look s2) = v_slots (look s) /\ v_children (look s2) = v_children (look s)) by (by rewrite E2). destruct Ev as [Es Ec]. rewrite Es, Ec in E3.
  assert (Hstart : forall res, does s3 (if r <? 0 then let* _ := uprintf 1 (bytes "init: fork failed" ++ nl) [] in exit
     else if r =? 0 then let* me := sys Getpid in let* _ := sys (Change_scheduling_queue me 1) in let* _ := sys (Exec (bytes "sh") [bytes "sh"]) in
       let* _ := uprintf 1 (bytes "init: exec sh failed" ++ nl) [] in exit
     else let* _ := ITree.iter (reap_turn r) tt in Ret (inl tt)) res -> does s (init_round tt) res).
  { intros res H. unfold init_round. eapply does_then; [exact H1|]. eapply does_then; [exact H2|]. eapply does_then; [exact H3|exact H]. }
  destruct (v_slots (look s)) as [|k].
  - destruct E3 as [-> E3]. assert (Hw3 : v_written (look s3) !! 1 = Some (w ++ init_banner)) by (rewrite E3, E2; apply lookup_insert_eq).
    destruct (uprintf_does 1 (bytes "init: fork failed" ++ nl) [] (bytes "init: fork failed" ++ nl) s3 _ eq_refl Hw3) as (s4 & H4 & W4). exists s4. split.
    + apply Hstart. cbn. eapply does_then; [exact H4|]. apply does_exit.
    + apply (wrote_trans _ _ _ s s3 s4); [|exact W4]. exists w. split; [exact Hw|]. by rewrite E3.
  - destruct E3 as (Hr & Hnew & E3). assert (Hw3 : v_written (look s3) !! 1 = Some (w ++ init_banner)) by (rewrite E3, E2; apply lookup_insert_eq).
    assert (Hc3 : v_children (look s3) = r :: v_children (look s) /\ v_slots (look s3) = k) by (by rewrite E3). destruct Hc3 as [Hc3 Hs3].
    destruct (reap_does r (S (length (v_children (look s)))) s3 (w ++ init_banner)) as (reaped & left & s4 & H4 & P4 & E4); rewrite ?Hc3; try done.
    + by apply Forall_cons. + by left. + by apply NoDup_cons.
    + exists reaped, left, s4. rewrite Hc3 in P4. split_and!.
      * apply Hstart. rewrite (proj2 (Z.ltb_ge _ _)), (proj2 (Z.eqb_neq _ _)) by lia. eapply does_then; [exact H4|]. apply does_ret.
      * by apply Permutation_cons_inv in P4.
      * by rewrite E4.
      * rewrite E4. change (v_slots (look s3) + S (length reaped) = S k + length reaped)%nat. rewrite Hs3. clear. lia.
      * rewrite E4. rewrite app_assoc. apply lookup_insert_eq.
Qed.

(** [forktest] on a system without children and with room for fewer than 1000 processes
    makes them all, waits for them all and reports success, with the table of processes
    as it was. *)
Theorem forktest_passes {O : Os} {L : OsLaws O} s w :
  v_written (look s) !! 1 = Some w -> v_children (look s) = [] -> (v_slots (look s) < 1000)%nat ->
  exists s', does s forktest_main (Gone s') /\ wrote 1 (bytes "fork test" ++ nl ++ bytes "fork test OK" ++ nl) s s'.
Proof.
  intros Hw Hc Hs. destruct (put_does (bytes "fork test" ++ nl) s w Hw) as (s1 & H1 & W1). destruct W1 as (w0 & Hw0 & E1). rewrite Hw in Hw0. injection Hw0 as <-.
  assert (Ev : v_slots (look s1) = v_slots (look s) /\ v_children (look s1) = []) by (by rewrite E1). destruct Ev as [Es1 Ec1].
  destruct (fork_loop_does 1000 0 s1) as (cs & s2 & H2 & Hl & Hp & E2); [by rewrite Ec1|]. rewrite Es1 in Hl. rewrite Nat.min_r in Hl by lia. rewrite Ec1, Es1, app_nil_r in *.
  assert (Ev2 : v_children (look s2) = cs /\ v_slots (look s2) = 0%nat) by (rewrite E2; split; [done|change (v_slots (look s) - length cs = 0)%nat; lia]). destruct Ev2 as [Ec2 Es2].
  destruct (wait_children_does (length cs) s2) as (s3 & H3 & E3); [by rewrite Ec2|by rewrite Ec2|]. rewrite Es2 in E3.
  destruct (wait_does s3) as (s4 & r & H4 & E4). assert (Ec3 : v_children (look s3) = []) by (by rewrite E3). rewrite Ec3 in E4. destruct E4 as [-> E4].
  assert (E14 : look s4 = look s1).
  { rewrite E4, E3, E2. unfold family. destruct (look s1). unfold set. cbn in *. f_equal; [done|lia]. }
  destruct (put_does (bytes "fork test OK" ++ nl) s4 (w ++ bytes "fork test" ++ nl)) as (s5 & H5 & W5); [rewrite E14, E1; apply lookup_insert_eq|].
  exists s5. split.
  - unfold forktest_main. eapply does_then; [|apply does_exit]. unfold forktest. eapply does_then; [exact H1|]. eapply does_then; [exact H2|].
    rewrite (proj2 (Z.eqb_neq _ _)) by lia. eapply does_then; [rewrite Z.add_0_l, Nat2Z.id; exact H3|]. eapply does_then; [exact H4|]. exact H5.
  - apply (wrote_trans 1 (bytes "fork test" ++ nl) (bytes "fork test OK" ++ nl) s s4 s5); [|exact W5]. exists w. split; [exact Hw|]. by rewrite E14.
Qed.

(** The loop of foo.c and mor.c never ends: a [long] of 32 bits does not reach the bound. *)
Theorem count_spins : eutt eq count ITree.spin.
Proof.
  unfold count. assert (H : -2147483648 <= 0 < 2147483648) by lia. revert H. generalize 0. ginit. gcofix CIH. intros x Hx.
  rewrite unfold_iter, (proj2 (Z.eqb_neq _ _)) by lia. cbn [negb]. rewrite bind_ret_l.
  rewrite (itree_eta_ ITree.spin). cbn. gstep. constructor. gbase. apply CIH, i32_range.
Qed.

Lemma after_slash_last path : after_slash path = List.last (pieces path) [].
Proof.
  induction path as [|c path IH]; [done|]. cbn [after_slash pieces]. destruct (existsb (Z.eqb slash) path) eqn:Ex.
  - rewrite IH. assert (Hp : exists a b l, pieces path = a :: b :: l).
    { clear IH. induction path as [|d path IH]; [done|]. cbn [pieces existsb] in *. rewrite Z.eqb_sym in Ex. destruct (d =? slash).
      - destruct (pieces path) as [|b l] eqn:E; [|by exists [], b, l]. destruct path as [|e path]; cbn in E; [done|]. destruct (e =? slash); [done|]. by destruct (pieces path).
      - destruct (IH Ex) as (a & b & l & ->). by eexists _, _, _. }
    destruct Hp as (a & b & l & ->). by destruct (c =? slash).
  - assert (Hw : pieces path = [path]).
    { apply pieces_word. intros Hin. apply not_true_iff_false in Ex. apply Ex, existsb_exists. exists slash. by rewrite Z.eqb_refl, <- list_elem_of_In. }
    rewrite Hw. by destruct (Z.eqb_spec c slash).
Qed.

(** The name that [ls] prints is the last element of the path, padded with blanks. *)
Theorem fmtname_pads path :
  let name := List.last (pieces path) [] in fmtname path = name ++ replicate (DIRSIZ - length name) 32.
Proof.
  cbv zeta. rewrite <- after_slash_last. unfold fmtname. destruct (Nat.leb_spec DIRSIZ (length (after_slash path))) as [H|H]; [|done].
  replace (DIRSIZ - length (after_slash path))%nat with 0%nat by lia. by rewrite app_nil_r.
Qed.

(** What is left of the files when [rm] has taken those named, up to the first that is not
    there, and that one. *)
Fixpoint rm_files (files : list Z -> option (list Z)) (names : list (list Z)) : (list Z -> option (list Z)) * option (list Z) :=
  match names with
  | [] => (files, None)
  | n :: names =>
    match files n with
    | Some _ => rm_files (fun m => if decide (m = n) then None else files m) names
    | None => (files, Some n)
    end
  end.

(** [rm] removes the files named, in order; it stops at the first name that is not there,
    and reports it. *)
Theorem rm_removes {O : Os} {L : OsLaws O} prog names s w :
  v_written (look s) !! 2 = Some w -> names <> [] ->
  exists s', does s (rm_main (prog :: names)) (Gone s') /\
    let (files, missing) := rm_files (v_files (look s)) names in
    look s' = (look s) <| v_files := files |>
      <| v_written ::= <[2 := w ++ match missing with Some n => bytes "rm: " ++ n ++ bytes " failed to delete" ++ nl | None => [] end]> |>.
Proof.
  intros Hw Hne. assert (Hloop : exists s', does s (each_until names rm_one) (Back s' tt) /\
    let (files, missing) := rm_files (v_files (look s)) names in
    look s' = (look s) <| v_files := files |>
      <| v_written ::= <[2 := w ++ match missing with Some n => bytes "rm: " ++ n ++ bytes " failed to delete" ++ nl | None => [] end]> |>).
  { clear Hne. revert s Hw. induction names as [|n names IH]; intros s Hw; cbn [each_until rm_files].
    { exists s. split; [apply does_ret|]. rewrite app_nil_r. destruct (look s). unfold set. cbn in *. by rewrite insert_id. }
    pose proof (unlink_law s n) as HU. destruct (call _ (Unlink n) s) as [s1 r] eqn:EU.
    assert (H1 : does s (sys (Unlink n)) (Back s1 r)) by (apply does_sys; cbn; by rewrite EU). destruct (v_files (look s) n).
    - destruct HU as [-> E1]. destruct (IH s1) as (s2 & H2 & E2); [by rewrite E1|]. exists s2. split.
      + eapply does_then; [unfold rm_one; eapply does_then; [exact H1|cbn; apply does_ret]|exact H2].
      + rewrite E1 in E2. change (v_files (_ <| v_files ::= ?f |>)) with (f (v_files (look s))) in E2. cbv beta in E2. by destruct (rm_files _ names).
    - destruct HU as [-> E1]. destruct (uprintf_does 2 (bytes "rm: %s failed to delete" ++ nl) [S_ n] (bytes "rm: " ++ n ++ bytes " failed to delete" ++ nl) s1 w eq_refl) as (s2 & H2 & (w2 & Hw2 & E2));
        [by rewrite E1|]. exists s2. split.
      + eapply does_then; [unfold rm_one; eapply does_then; [exact H1|]; cbn; eapply does_then; [exact H2|apply does_ret]|apply does_ret].
      + rewrite E1 in E2, Hw2. rewrite Hw in Hw2. injection Hw2 as <-. rewrite E2. by destruct (look s). }
  destruct Hloop as (s' & H & E). exists s'. split; [|exact E]. destruct names as [|n names]; [done|]. cbn [rm_main]. eapply does_then; [exact H|]. apply does_exit.
Qed.

(** ** A small system *)

Definition demo_entries : list (list Z) := [make_dirent 1 (bytes "."); make_dirent 0 (bytes "old"); make_dirent 2 (bytes "cat")].

Definition demo_sight : sight :=
  mkSight (fun n => if decide (n = bytes "a") then Some (bytes "hello ") else if decide (n = bytes "b") then Some (bytes "world")
                    else if decide (n = bytes "d") then Some (concat demo_entries) else None)
    (fun n => if decide (n = bytes "d") then Some (mkStat 1 1 1 1 48) else if decide (n = bytes "d/cat") then Some (mkStat 2 1 2 1 99) else None)
    {[0 := mkInput None (bytes "typed text")]} {[1 := []]} 3 [7] 2.

Lemma cat_copies_witness :
  exists s1 s2, does (O := demo_os) demo_sight (cat_main [bytes "cat"]) (Gone s1) /\ v_written s1 !! 1 = Some (bytes "typed text") /\
    does (O := demo_os) demo_sight (cat_main [bytes "cat"; bytes "a"; bytes "b"; bytes "c"; bytes "a"]) (Gone s2) /\
    v_written s2 !! 1 = Some (bytes "hello worldcat: cannot open c" ++ nl).
Proof.
  destruct (@cat_copies demo_os demo_laws (bytes "cat") demo_sight [] eq_refl) as [Hin Hfiles].
  destruct (Hin (mkInput None (bytes "typed text")) eq_refl) as (s1 & H1 & (i & w & Hi & Hw & E1)).
  destruct (Hfiles [bytes "a"; bytes "b"; bytes "c"; bytes "a"]) as (s2 & H2 & (w2 & Hw2 & E2)); [discriminate|discriminate|].
  exists s1, s2. injection Hw as <-. injection Hw2 as <-. split; [exact H1|]. split.
  - change (v_written (look (OsLaws := demo_laws) s1) !! 1 = Some (bytes "typed text")). rewrite E1. reflexivity.
  - split; [exact H2|]. change (v_written (look (OsLaws := demo_laws) s2) !! 1 = Some (bytes "hello worldcat: cannot open c" ++ nl)). rewrite E2. reflexivity.
Defined.

Lemma ls_lists_witness :
  exists s', does (O := demo_os) demo_sight (ls (bytes "d")) (Back s' tt) /\
    v_written s' !! 1 = Some (bytes "ls: cannot stat d/." ++ nl ++ bytes "cat            2 2 99" ++ nl).
Proof.
  destruct (@ls_lists demo_os demo_laws (bytes "d") (mkStat 1 1 1 1 48) demo_entries 2 demo_sight []) as (s' & H & (w & Hw & E)).
  - reflexivity.
  - reflexivity.
  - reflexivity.
  - reflexivity.
  - reflexivity.
  - apply Nat.leb_le. reflexivity.
  - repeat constructor.
  - exists s'. split; [exact H|]. injection Hw as <-.
    change (v_written (look (OsLaws := demo_laws) s') !! 1 = Some (bytes "ls: cannot stat d/." ++ nl ++ bytes "cat            2 2 99" ++ nl)). rewrite E. vm_compute. reflexivity.
Defined.

Lemma init_restarts_shell_witness :
  exists reaped left s', does (O := demo_os) demo_sight (init_round tt) (Back s' (inl tt)) /\ [7] ≡ₚ reaped ++ left /\ v_children s' = left.
Proof.
  destruct (@init_restarts_shell demo_os demo_laws demo_sight []) as (reaped & left & s' & H1 & H2 & H3 & _).
  - reflexivity.
  - repeat constructor.
  - apply NoDup_singleton.
  - exists reaped, left, s'. split; [exact H1|]. split; [exact H2|exact H3].
Defined.
