(* ===== verification/Start.v ===== *)
(** * Starting the machine (main.c, consoleinit and panic of console.c)

    The boot processor runs [main]; [startothers] starts the other processors one after
    the other and waits for each to come up.  A processor that is started runs
    entryother.S, of which the three loads are modelled that take the page directory, the
    stack and the entry point from the words below the code, and then [mpenter].

    The waiting loop is a [Switch] at every look: other processors run in between.  vm.c,
    trap.c and uart.c are not among the sources: their functions are parameters, and so
    are the addresses that the linker chooses and the bytes of entryother. *)

From stdpp Require Import gmap.
From S2P Require Import Prelude Outcome Kernel Spinlock Kalloc Proc Sched Cprintf Sleeplock Bio Inode Fs File Life Machine Apic Ide Mp.
Local Open Scope Z_scope.
Local Open Scope list_scope.

(** The machine, and the [started] fields of [cpus]. *)
Record smp {A : Ata} : Type := mkSmp { sm_m : mach; sm_started : list Z }.
#[export] Instance eta_smp {A : Ata} : Settable smp := fun r => mkSmp A (sm_m r) (sm_started r).

Fixpoint slift {A : Ata} {B} (o : outcome mach B) (s : smp) : outcome smp B :=
  match o with
  | Ok b m => Ok b (s <| sm_m := m |>)
  | Panic msg => Panic msg
  | Fault => Fault
  | Spin => Spin
  | Switch m k => Switch (s <| sm_m := m |>) (fun s' => slift (k (sm_m s')) s')
  end.
Definition mop {A : Ata} {B} (f : M mach B) : M smp B := fun s => slift (f (sm_m s)) s.

Lemma mop_ok {A : Ata} {B} (f : M mach B) s b m : f (sm_m s) = Ok b m -> mop f s = Ok b (s <| sm_m := m |>).
Proof. intros H. unfold mop. by rewrite H. Qed.

Lemma mop_mycpu {A : Ata} i c (s : smp) : CpuOk i c (k_hw (m_k (sm_m s))) -> hw_if (k_hw (m_k (sm_m s))) = false -> mop (kop mycpu) s = Ok i s.
Proof. intros HC Hi. erewrite mop_ok; [|apply kop_ok, hwop_ok, (mycpu_ok i c); done]. by destruct s as [[[[]]]]. Qed.

(** Code that returns and leaves the kernel's state alone. *)
Definition quiet {A : Ata} (f : M mach unit) : Prop := forall m, exists m', f m = Ok tt m' /\ m_k m' = m_k m.

Lemma quiet_bind {A : Ata} (f g : M mach unit) : quiet f -> quiet g -> quiet (f;; g).
Proof. intros Hf Hg m. destruct (Hf m) as (m1 & E1 & K1), (Hg m1) as (m2 & E2 & K2). exists m2. mstep. split; [done|congruence]. Qed.

Lemma quiet_mop {A : Ata} (f : M mach unit) (s : smp) :
  quiet f -> exists s', mop f s = Ok tt s' /\ m_k (sm_m s') = m_k (sm_m s) /\ sm_started s' = sm_started s.
Proof. intros Hf. destruct (Hf (sm_m s)) as (m' & E & K). exists (s <| sm_m := m' |>). split; [by apply mop_ok|done]. Qed.

Lemma lapicinit_quiet {A : Ata} {tr : Traps} icr : Exists (fun v => Z.land v DELIVS = 0) icr -> quiet (lapicinit icr).
Proof.
  intros H. assert (W : forall i v, quiet (lapicw i v)) by (intros i v m; by eexists).
  assert (D : quiet (delivered icr)).
  { intros m. exists m. split; [|done]. induction H as [v icr H|v icr H IH]; cbn [delivered]; [by rewrite H|]. by destruct (_ =? 0). }
  intros m. unfold lapicinit. rewrite bind_gets. destruct (m_lapic m); [|by exists m]. cbn [negb]. revert m.
  repeat (apply quiet_bind; [apply W|]). intros m. rewrite bind_gets. generalize (4 <=? Z.land (Z.shiftr (m_la m VER) 16) 255). intros b. revert m.
  apply quiet_bind; [destruct b; cbn [when]; [apply W|intros m; by exists m]|]. repeat (apply quiet_bind; [apply W || apply D|]). apply W.
Qed.

(** ** console.c *)

Section Console.
Context {A : Ata} {tr : Traps}.

(** The two stores into [devsw] are the instance [console_devsw]. *)
Definition consoleinit : M mach unit :=
  kop (initlock LCons);;
  kop (con_upd (fun cn => cn <| cn_locking := true |>));;
  ioapicenable IRQ_KBD 0.

(** [panic] up to its endless loop; [v] is the address of its argument on the stack. *)
Definition panic_report (msg : list Z) (v : Z) : M mach unit :=
  kop (hwop HW.cli);;
  kop (con_upd (fun cn => cn <| cn_locking := false |>));;
  id ← lapicid;
  kop (cprintf (bytes "lapicid %d: panic: ") [AInt id]);;
  kop (cprintf msg []);;
  kop (cprintf [10] []);;
  pcs ← gets (fun m => getcallerpcs (load32 (k_mem (m_k m))) v);
  foreach pcs (fun pc => kop (cprintf (bytes " %p") [AInt pc]));;
  kop (con_upd (fun cn => cn <| cn_panicked := true |>)).
Definition panic_loop (msg : list Z) (v : Z) : M mach unit := panic_report msg v;; spin.
End Console.

(** ** main.c *)

(** kvmalloc and seginit of vm.c, tvinit and idtinit of trap.c, uartinit of uart.c. *)
Class Setup {A : Ata} : Type := {
  kvmalloc : M mach unit;
  seginit : M mach unit;
  tvinit : M mach unit;
  idtinit : M mach unit;
  uartinit : M mach unit }.

(** [entryother] are the bytes of the image, [mpenter_addr] and [entrypgdir_addr] the
    addresses of the function and of the page directory, [icr] the values that are read
    while an interrupt is delivered. *)
Section Main.
Context {A : Ata} {tr : Traps} {vm : VM} {su : Setup} {fl : Fuel}.
Context (entryother : list Z) (mpenter_addr entrypgdir_addr : Z) (icr : list Z).

Definition code : Z := P2V 28672.

Definition mem_upd (f : (Z -> Z) -> Z -> Z) : M smp unit := modify (fun s => s <| sm_m ::= set m_k (set k_mem f) |>).

(** [memmove(a, bs, length of bs)] *)
Definition memmove (a : Z) (bs : list Z) (mem : Z -> Z) : Z -> Z :=
  fun x => if (a <=? x) && (x <? a + Z.of_nat (length bs)) then nth (Z.to_nat (x - a)) bs 0 else mem x.

(** [while(c->started == 0);], at most [n] more looks. *)
Fixpoint wait_started (n : nat) (c : nat) : M smp unit :=
  st ← gets (fun s => sm_started s !! c);
  st ← deref st;
  if st =? 0 then
    match n with
    | O => spin
    | S n => swtch;; wait_started n c
    end
  else ret tt.

(** Tell entryother.S what stack to use, where to enter, and what page directory to use,
    and start it. *)
Definition start_cpu (c : nat) : M smp unit :=
  stack ← mop (kop kalloc);
  mem_upd (store32 (code - 4) (u32 (stack + KSTACKSIZE)));;
  mem_upd (store32 (code - 8) mpenter_addr);;
  mem_upd (store32 (code - 12) (V2P entrypgdir_addr));;
  x ← gets (fun s => hw_cpus (k_hw (m_k (sm_m s))) !! c);
  x ← deref x;
  mop (lapicstartap (c_apicid x) (V2P code)).

Definition startothers_one (c : nat) : M smp unit :=
  me ← mop (kop mycpu);
  if (c =? me)%nat then ret tt else
  start_cpu c;;
  wait_started fuel c.

Definition startothers : M smp unit :=
  mem_upd (memmove code entryother);;
  ncpu ← gets (fun s => hw_ncpu (k_hw (m_k (sm_m s))));
  foreach (seq 0 ncpu) startothers_one.

(** [mpmain] up to the call of the scheduler. *)
Definition mpmain_up : M smp unit :=
  id ← mop (kop mycpu);
  id' ← mop (kop mycpu);
  mop (kop (cprintf (bytes "cpu%d: starting %d" ++ [10]) [AInt (Z.of_nat id); AInt (Z.of_nat id')]));;
  mop idtinit;;
  me ← mop (kop mycpu);
  modify (fun s => s <| sm_started ::= <[me := 1]> |>).

(** [mpenter] up to the call of the scheduler. *)
Definition mpenter_up : M smp unit :=
  mop (kop switchkvm);;
  mop seginit;;
  mop (lapicinit icr);;
  mpmain_up.

Section Whole.
Context (kernel_end : Z) {st : Startup} {dsk : Disk} {dsw : Devsw} (prec emax : Z) (srand : Z -> K unit) (in23 : Z).

Definition mpmain : M smp unit := mpmain_up;; mop (kop (scheduler prec emax srand fuel)).

Definition mpenter : M smp unit :=
  mop (kop switchkvm);;
  mop seginit;;
  mop (lapicinit icr);;
  mpmain.

Definition main : M smp unit :=
  mop (kop (kinit1 kernel_end kernel_end (P2V (4 * 1024 * 1024))));;
  mop kvmalloc;;
  mop (mpinit fuel in23);;
  mop (lapicinit icr);;
  mop seginit;;
  mop picinit;;
  mop ioapicinit;;
  mop consoleinit;;
  mop uartinit;;
  mop (kop pinit);;
  mop tvinit;;
  mop (kop binit);;
  mop (kop fileinit);;
  mop ideinit;;
  startothers;;
  mop (kop (kinit2 kernel_end (P2V (4 * 1024 * 1024)) (P2V PHYSTOP)));;
  mop (kop userinit);;
  mpmain.
End Whole.
End Main.

(** ** The other processors *)

(** What entryother.S loads from the words below [start]. *)
Record regs : Type := mkRegs { r_cr3 : Z; r_esp : Z; r_eip : Z }.
Definition entryother_regs (mem : Z -> Z) (start : Z) : regs :=
  mkRegs (load32 mem (start - 12)) (load32 mem (start - 4)) (load32 mem (start - 8)).

(** A processor that waits to be started, one that was sent the address of its first
    instruction, one that has left entryother.S, one that is up. *)
Inductive ap : Type := Halted | Reset (vec : Z) | Entered (r : regs) | Up (r : regs).

Definition loaded (aps : list ap) (i : nat) (r : regs) : Prop := aps !! i = Some (Entered r) \/ aps !! i = Some (Up r).

(** The processor and the address of a start-up interrupt that the local APIC has sent. *)
Definition startup_ipi {A : Ata} (m : mach) : option (Z * Z) :=
  if Z.land (m_la m ICRLO) 1792 =? STARTUP
  then Some (Z.shiftr (m_la m ICRHI) 24, Z.shiftl (Z.land (m_la m ICRLO) 255) 12) else None.

Abbreviation hw_of s := (k_hw (m_k (sm_m s))).
Abbreviation mem_of s := (k_mem (m_k (sm_m s))).

(** The state as the processor [id] with the local APIC [la] sees it, and back. *)
Definition as_cpu {A : Ata} (id : Z) (la : Z -> Z) (s : smp) : smp :=
  s <| sm_m ::= fun m => m <| m_la := la |> <| m_k ::= set k_hw (fun h => h <| hw_lapicid := id |> <| hw_if := false |>) |> |>.
Definition back {A : Ata} (s s' : smp) : smp :=
  s' <| sm_m ::= fun m => m <| m_la := m_la (sm_m s) |>
          <| m_k ::= set k_hw (fun h => h <| hw_lapicid := hw_lapicid (hw_of s) |> <| hw_if := hw_if (hw_of s) |>) |> |>.

(** The image is in memory at [start]. *)
Definition image_at (bs : list Z) (start : Z) (mem : Z -> Z) : Prop :=
  forall k b, bs !! k = Some b -> mem (start + Z.of_nat k) = b.

Section System.
Context {A : Ata} {tr : Traps} {vm : VM} {su : Setup} {fl : Fuel}.
Context (entryother : list Z) (mpenter_addr entrypgdir_addr : Z) (icr : list Z).

(** While the boot processor waits, the others move: one that is sent a start-up
    interrupt leaves its halt, runs the code at the address, if it is there, and enters
    [mpenter].  At any moment the boot processor may look again. *)
Inductive step : outcome smp unit * list ap -> outcome smp unit * list ap -> Prop :=
| s_look s k aps : step (Switch s k, aps) (k s, aps)
| s_reset s k aps i c vec :
    (i < hw_ncpu (hw_of s))%nat -> hw_cpus (hw_of s) !! i = Some c -> startup_ipi (sm_m s) = Some (c_apicid c, vec) -> aps !! i = Some Halted ->
    step (Switch s k, aps) (Switch s k, <[i := Reset vec]> aps)
| s_enter s k aps i vec :
    aps !! i = Some (Reset vec) -> image_at entryother (P2V vec) (mem_of s) ->
    step (Switch s k, aps) (Switch s k, <[i := Entered (entryother_regs (mem_of s) (P2V vec))]> aps)
| s_up s k aps i c r la s' :
    aps !! i = Some (Entered r) -> r_eip r = mpenter_addr -> hw_cpus (hw_of s) !! i = Some c ->
    mpenter_up icr (as_cpu (c_apicid c) la s) = Ok tt s' ->
    step (Switch s k, aps) (Switch (back s s') k, <[i := Up r]> aps).

(** The registers of a processor with the stack page [p]. *)
Definition regs_of (p : Z) : regs := mkRegs (V2P entrypgdir_addr) (u32 (p + KSTACKSIZE)) mpenter_addr.
End System.

(** switchkvm, seginit and idtinit load registers of the processor that are not part of
    the state; the delivery of an interrupt takes a while. *)
Class SetupLaws {A : Ata} (vm : VM) (su : Setup) (icr : list Z) : Prop := {
  switchkvm_law s : switchkvm s = Ok tt s;
  seginit_law m : exists m', seginit m = Ok tt m' /\ m_k m' = m_k m;
  idtinit_law m : exists m', idtinit m = Ok tt m' /\ m_k m' = m_k m;
  icr_law : Exists (fun v => Z.land v DELIVS = 0) icr }.

Section Proofs.
Context {A : Ata} {tr : Traps} {vm : VM} {su : Setup} {fl : Fuel}.
Context (entryother : list Z) (mpenter_addr entrypgdir_addr : Z) (icr : list Z) {laws : SetupLaws vm su icr}.
Context (kernel_end : Z) (n me : nat) (ids l : list Z).

(** The machine while [st] are the processors that have been given a stack, with it. *)
Record base (st : list (nat * Z)) (s : smp) : Prop := {
  b_ncpu : hw_ncpu (hw_of s) = n;
  b_ids : map c_apicid (hw_cpus (hw_of s)) = ids;
  b_ncli : Forall (fun c => 0 <= c_ncli c) (hw_cpus (hw_of s));
  b_if : hw_if (hw_of s) = false;
  b_me : ids !! me = Some (hw_lapicid (hw_of s));
  b_free : free LCons (hw_of s);
  b_cons : con_ok (k_cons (m_k (sm_m s)));
  b_lock : km_use_lock (k_kmem (m_k (sm_m s))) = false;
  b_mem : exists fr, KmemInv kernel_end (m_k (sm_m s)) fr /\ map snd st ++ fr ≡ₚ l;
  b_image : image_at entryother code (mem_of s) }.

(** What the linker and the table of processors give; there is a page for every processor,
    and the waiting loop looks more than once. *)
Record fits : Prop := {
  f_n : (me < n)%nat /\ (n <= length ids)%nat;
  f_nodup : NoDup (take n ids);
  f_ids : Forall (fun id => 0 <= id < 256) ids;
  f_end : code + Z.of_nat (length entryother) <= kernel_end;
  f_enter : 0 <= mpenter_addr < 4294967296;
  f_pages : NoDup l /\ (n <= length l)%nat;
  f_fuel : fuel <> 0%nat }.
Context (F : fits).

Lemma base_cpu st s i :
  base st s -> (i < n)%nat -> exists c, hw_cpus (hw_of s) !! i = Some c /\ ids !! i = Some (c_apicid c) /\
    CpuOk i c ((hw_of s) <| hw_lapicid := c_apicid c |> <| hw_if := false |>).
Proof.
  intros B Hi. destruct (f_n F) as [_ Hn]. rewrite <- (b_ids _ _ B) in Hn. rewrite length_map in Hn.
  destruct (lookup_lt_is_Some_2 (hw_cpus (hw_of s)) i) as [c Hc]; [lia|].
  assert (Hid : ids !! i = Some (c_apicid c)) by (rewrite <- (b_ids _ _ B), list_lookup_fmap, Hc; done).
  exists c. split; [done|]. split; [done|]. split_and!; rsimpl; [|done| |done].
  - rewrite (b_ncpu _ _ B). rewrite (cpu_index_nth 0 _ i (c_apicid c)); [done| |].
    + rewrite <- firstn_map, (b_ids _ _ B). apply (f_nodup F).
    + rewrite <- firstn_map, (b_ids _ _ B). by rewrite lookup_take_lt.
  - eapply (Forall_lookup_1 _ _ _ _ (b_ncli _ _ B)), Hc.
Qed.

Lemma base_me st s : base st s -> mop (kop mycpu) s = Ok me s.
Proof.
  intros B. destruct (base_cpu st s me B) as (c & Hc & Hid & HC); [apply (f_n F)|].
  rewrite (b_me _ _ B) in Hid. injection Hid as Hid.
  assert (E : (hw_of s) <| hw_lapicid := c_apicid c |> <| hw_if := false |> = hw_of s).
  { rewrite <- Hid, <- (b_if _ _ B). by destruct s as [[[[]]]]. }
  rewrite E in HC. apply (mop_mycpu me c); [done|apply B].
Qed.

Lemma KmemInv_low s s' fr :
  (forall a, kernel_end <= a -> k_mem s' a = k_mem s a) -> k_kmem s' = k_kmem s -> KmemInv kernel_end s fr -> KmemInv kernel_end s' fr.
Proof.
  intros Hm Hk [H1 H2 H3]. split; [|done|done]. rewrite Hk. apply (chain_frame (k_mem s)); [|done].
  intros v k Hv Hk4. apply Hm. rewrite Forall_forall in H3. apply H3, page_ok_spec in Hv. lia.
Qed.

Lemma lapicstartap_ok id m :
  0 <= id < 256 -> exists m', lapicstartap id (V2P code) m = Ok tt m' /\ m_k m' = (m_k m) <| k_mem := k_mem (m_k m') |> /\
    (forall a, ~ (KERNBASE + 1127 <= a < KERNBASE + 1131) -> k_mem (m_k m') a = k_mem (m_k m) a) /\ startup_ipi m' = Some (id, 28672).
Proof.
  intros Hid. eexists. split; [unfold lapicstartap; cbn [foreach]; reflexivity|]. split; [by destruct m as [[]]|]. split.
  - intros a Ha. set (w := KERNBASE + 1127).
    transitivity (if a =? w + 2 then u8 (Z.shiftr (V2P code) 4) else if a =? w + 2 + 1 then u8 (Z.shiftr (V2P code) 4 / 256) else
                  if a =? w then u8 0 else if a =? w + 1 then u8 (0 / 256) else k_mem (m_k m) a); [reflexivity|].
    rewrite !(proj2 (Z.eqb_neq _ _)) by lia. done.
  - unfold startup_ipi. match goal with |- context [m_la ?m' ICRLO] => set (m2 := m') end.
    assert (E1 : m_la m2 ICRHI = u32 (Z.shiftl id 24)) by reflexivity. assert (E2 : m_la m2 ICRLO = 1543) by reflexivity. rewrite E1, E2.
    rewrite u32_id by (rewrite Z.shiftl_mul_pow2 by lia; lia).
    rewrite Z.shiftr_shiftl_l by lia. change (24 - 24) with 0. rewrite Z.shiftl_0_r. reflexivity.
Qed.

(** The words below the code, for the stack page [p]. *)
Definition words (p : Z) (mem : Z -> Z) : Prop := entryother_regs mem code = regs_of mpenter_addr entrypgdir_addr p.

Lemma words_frame p mem mem' : (forall a, code - 12 <= a < code -> mem' a = mem a) -> words p mem -> words p mem'.
Proof.
  intros H. unfold words, entryother_regs. intros <-. f_equal; apply load32_frame; intros k Hk; apply H; lia.
Qed.

Lemma words_stored p mem :
  words p (store32 (code - 12) (V2P entrypgdir_addr) (store32 (code - 8) mpenter_addr (store32 (code - 4) (u32 (p + KSTACKSIZE)) mem))).
Proof.
  unfold words, entryother_regs, regs_of. f_equal.
  - apply load32_store32, u32_range.
  - rewrite (load32_frame (store32 (code - 4) (u32 (p + KSTACKSIZE)) mem)).
    + apply load32_store32, u32_range.
    + intros k Hk. by rewrite !store32_other by lia.
  - rewrite (load32_frame (store32 (code - 8) mpenter_addr (store32 (code - 4) (u32 (p + KSTACKSIZE)) mem))).
    + apply load32_store32, (f_enter F).
    + intros k Hk. by rewrite store32_other by lia.
Qed.

Lemma base_upd st st' fr s s' :
  base st s -> m_k (sm_m s') = (m_k (sm_m s)) <| k_kmem := k_kmem (m_k (sm_m s')) |> <| k_mem := mem_of s' |> ->
  km_use_lock (k_kmem (m_k (sm_m s'))) = false -> KmemInv kernel_end (m_k (sm_m s')) fr -> map snd st' ++ fr ≡ₚ l ->
  image_at entryother code (mem_of s') -> base st' s'.
Proof.
  intros B E Hu HI Hp Him. assert (Eh : hw_of s' = hw_of s) by (by rewrite E). assert (Ec : k_cons (m_k (sm_m s')) = k_cons (m_k (sm_m s))) by (by rewrite E).
  split; rewrite ?Eh, ?Ec; try apply B; [done|by exists fr|done].
Qed.

Lemma start_cpu_ok st s c :
  base st s -> (c < n)%nat -> (length st < length l)%nat ->
  exists p s', start_cpu mpenter_addr entrypgdir_addr c s = Ok tt s' /\ base ((c, p) :: st) s' /\ words p (mem_of s') /\
    (exists id, ids !! c = Some id /\ startup_ipi (sm_m s') = Some (id, 28672)) /\ sm_started s' = sm_started s.
Proof.
  intros B Hc Hl. destruct (b_mem _ _ B) as (fr & HI & Hp). pose proof (b_lock _ _ B) as Hu.
  pose proof (kalloc_pops kernel_end 0 (mkCpu 0 0 false None) (m_k (sm_m s)) fr) as HK. destruct fr as [|p fr].
  { apply Permutation_length in Hp. rewrite app_nil_r, length_map in Hp. lia. }
  destruct HK as (k1 & EK & HI1 & _ & E1 & Hu1); [intros H; congruence|done|]. unfold kmem_section in E1. rewrite Hu in E1.
  destruct (base_cpu st s c B Hc) as (x & Hx & Hid & _).
  set (mem1 := store32 (code - 12) (V2P entrypgdir_addr) (store32 (code - 8) mpenter_addr (store32 (code - 4) (u32 (p + KSTACKSIZE)) (k_mem k1)))).
  set (m1 := (sm_m s) <| m_k := k1 <| k_mem := mem1 |> |>).
  destruct (lapicstartap_ok (c_apicid x) m1) as (m' & EL & Em & Hmem & Hipi).
  { eapply (Forall_lookup_1 _ _ _ _ (f_ids F)), Hid. }
  exists p, (s <| sm_m := m' |>). split.
  { unfold start_cpu, mem_upd. mstep by (apply mop_ok, kop_ok; exact EK). msteps. rsimpl.
    assert (Hx1 : hw_cpus (k_hw k1) !! c = Some x) by (rewrite E1; exact Hx). rewrite Hx1. cbn [deref]. mstep.
    rewrite (mop_ok _ _ tt m'); [done|]. exact EL. }
  assert (Em1 : k_mem k1 = mem_of s) by (rewrite E1; done).
  assert (Hout : forall a, code <= a -> k_mem (m_k m') a = mem_of s a).
  { intros a Ha. change code with (KERNBASE + 28672) in *. rewrite Hmem by lia. unfold m1; rsimpl. unfold mem1. rewrite !store32_other by (change code with (KERNBASE + 28672); lia). by rewrite Em1. }
  pose proof (f_end F) as He. split; [|split; [|split; [|done]]].
  - apply (base_upd st _ fr s); [done| | | | |].
    + rsimpl. rewrite Em. unfold m1; rsimpl. rewrite E1. by destruct (m_k (sm_m s)).
    + rsimpl. rewrite Em. unfold m1; rsimpl. by rewrite Hu1.
    + rsimpl. apply (KmemInv_low k1); [|by rewrite Em|done]. intros a Ha. rewrite Hout by lia. by rewrite Em1.
    + rewrite <- Hp. cbn [map snd app]. apply Permutation_middle.
    + intros k b Hb. rsimpl. rewrite Hout by lia. by apply (b_image _ _ B).
  - rsimpl. apply (words_frame p mem1); [|apply words_stored]. intros a Ha. change code with (KERNBASE + 28672) in Ha. rewrite Hmem by lia. done.
  - by exists (c_apicid x).
Qed.

(** A lock section leaves its mark in the entry of the processor only. *)
Lemma marked_cpus i c h : hw_cpus h !! i = Some c -> Forall (fun c => 0 <= c_ncli c) (hw_cpus h) ->
  map c_apicid (hw_cpus (touched i c h)) = map c_apicid (hw_cpus h) /\ Forall (fun c => 0 <= c_ncli c) (hw_cpus (touched i c h)).
Proof.
  intros Hc Hn. unfold touched; rsimpl. split.
  - rewrite (list_fmap_insert c_apicid). apply list_insert_id. rewrite list_lookup_fmap, Hc. unfold touched_cpu. by destruct (_ =? 0).
  - apply Forall_insert; [done|]. apply (Forall_lookup_1 _ _ _ _ Hn) in Hc. unfold touched_cpu. by destruct (_ =? 0).
Qed.

Lemma mpmain_up_ok c x (s : smp) :
  CpuOk c x (hw_of s) -> hw_if (hw_of s) = false -> free LCons (hw_of s) -> con_ok (k_cons (m_k (sm_m s))) ->
  exists s' cn, mpmain_up s = Ok tt s' /\ sm_started s' = <[c := 1]> (sm_started s) /\ con_ok cn /\
    m_k (sm_m s') = (cons_section c x (m_k (sm_m s))) <| k_cons := cn |>.
Proof.
  intros HC Hi Hf Hc. unfold mpmain_up. mstep by (by apply (mop_mycpu c x)). mstep by (by apply (mop_mycpu c x)).
  mstep by (apply mop_ok, kop_ok, (cprintf_ok c x); [done..|reflexivity]).
  match goal with |- context [emits ?t] => set (text := t) end.
  set (k1 := (cons_section c x (m_k (sm_m s))) <| k_cons ::= emits text |>). set (s1 := s <| sm_m := _ |>).
  destruct (quiet_mop idtinit s1 idtinit_law) as (s2 & E2 & K2 & T2). mstep with (E2).
  assert (Hk : m_k (sm_m s2) = k1) by (rewrite K2; done).
  assert (HC2 : exists x', CpuOk c x' (hw_of s2) /\ hw_if (hw_of s2) = false).
  { rewrite Hk. unfold k1, cons_section. destruct (cn_locking _); rsimpl; [|by exists x]. eexists. split; [by apply CpuOk_touched|done]. }
  destruct HC2 as (x' & HC2 & Hi2). mstep by (by apply (mop_mycpu c x')).
  eexists _, (emits text (k_cons (m_k (sm_m s)))). split; [reflexivity|]. rsimpl. rewrite T2. split_and!; [done|by apply con_ok_emits|].
  rewrite Hk. unfold k1, cons_section. destruct (cn_locking _); by destruct (m_k (sm_m s)).
Qed.

Lemma mpenter_up_ok st s c x la :
  base st s -> (c < n)%nat -> hw_cpus (hw_of s) !! c = Some x ->
  exists s', mpenter_up icr (as_cpu (c_apicid x) la s) = Ok tt s' /\ base st (back s s') /\
    sm_started s' = <[c := 1]> (sm_started s) /\ mem_of s' = mem_of s.
Proof.
  intros B Hc Hx. destruct (base_cpu st s c B Hc) as (x' & Hx' & _ & HC). rewrite Hx in Hx'. injection Hx' as <-.
  set (s0 := as_cpu (c_apicid x) la s). unfold mpenter_up.
  destruct (quiet_mop (kop switchkvm) s0) as (s1 & E1 & K1 & T1).
  { intros m. exists m. split; [|done]. erewrite kop_ok; [|apply switchkvm_law]. by destruct m. }
  mstep with (E1). destruct (quiet_mop seginit s1 seginit_law) as (s2 & E2 & K2 & T2). mstep with (E2).
  destruct (quiet_mop (lapicinit icr) s2 (lapicinit_quiet icr icr_law)) as (s3 & E3 & K3 & T3). mstep with (E3).
  rewrite K2, K1 in K3. rewrite T2, T1 in T3.
  destruct (mpmain_up_ok c x s3) as (s4 & cn & E4 & T4 & Hcn & K4).
  { rewrite K3. exact HC. }
  { by rewrite K3. }
  { rewrite K3. apply B. }
  { rewrite K3. apply B. }
  rewrite K3 in K4. rewrite T3 in T4. exists s4. split; [done|].
  destruct (marked_cpus c x (hw_of s0) Hx (b_ncli _ _ B)) as [M1 M2].
  assert (Hh : exists cs, m_k (sm_m (back s s4)) = (m_k (sm_m s)) <| k_hw ::= set hw_cpus (fun _ => cs) |> <| k_cons := cn |> /\
     map c_apicid cs = ids /\ Forall (fun c => 0 <= c_ncli c) cs).
  { unfold cons_section in K4. destruct (cn_locking _).
    - exists (hw_cpus (touched c x (hw_of s0))). split; [|split; [rewrite M1; apply B|done]].
      unfold back; rsimpl. rewrite K4. unfold s0, as_cpu; rsimpl. by destruct (m_k (sm_m s)) as [[]].
    - exists (hw_cpus (hw_of s0)). split; [|split; [apply B|apply B]].
      unfold back; rsimpl. rewrite K4. unfold s0, as_cpu; rsimpl. by destruct (m_k (sm_m s)) as [[]]. }
  destruct Hh as (cs & Eb & I1 & I2). split; [|split; [done|]].
  - split; rewrite Eb; rsimpl; [apply B|done|done|apply B..|done|apply B| |apply B].
    destruct (b_mem _ _ B) as (fr & HI & Hp). exists fr. split; [|done]. by apply (KmemInv_same kernel_end (m_k (sm_m s))).
  - rewrite K4. unfold cons_section. by destruct (cn_locking _).
Qed.

(** Every processor but the boot processor and [but] waits for its turn in [rest], or is
    up on its own stack. *)
Definition crowd (but : option nat) (st : list (nat * Z)) (rest : list nat) (s : smp) (aps : list ap) : Prop :=
  (forall i, (i < n)%nat -> i <> me -> but <> Some i ->
     (i ∈ rest /\ aps !! i = Some Halted /\ sm_started s !! i = Some 0) \/
     ((i ∉ rest) /\ sm_started s !! i = Some 1 /\ exists p, (i, p) ∈ st /\ aps !! i = Some (Up (regs_of mpenter_addr entrypgdir_addr p)))) /\
  (forall i a, aps !! i = Some a -> (n <= i)%nat \/ i = me -> a = Halted) /\
  NoDup rest /\ Forall (fun i => i < n)%nat rest /\ (length st + length rest <= length l)%nat.

Definition settled (st : list (nat * Z)) (rest : list nat) (s : smp) (aps : list ap) : Prop := base st s /\ crowd None st rest s aps.

(** The boot processor has started [c] on the page [p] and waits for it. *)
Record waiting (st : list (nat * Z)) (c : nat) (p : Z) (rest : list nat) (s : smp) (aps : list ap) : Prop := {
  w_base : base ((c, p) :: st) s;
  w_crowd : crowd (Some c) ((c, p) :: st) rest s aps;
  w_c : (c < n)%nat /\ c <> me /\ (c ∉ rest);
  w_words : words p (mem_of s);
  w_ipi : exists id, ids !! c = Some id /\ startup_ipi (sm_m s) = Some (id, 28672);
  w_ap : sm_started s !! c = Some 0 /\
           (aps !! c = Some Halted \/ aps !! c = Some (Reset 28672) \/ aps !! c = Some (Entered (regs_of mpenter_addr entrypgdir_addr p))) \/
         sm_started s !! c = Some 1 /\ aps !! c = Some (Up (regs_of mpenter_addr entrypgdir_addr p)) }.

Abbreviation one := (startothers_one mpenter_addr entrypgdir_addr).

Inductive cfg : outcome smp unit -> list ap -> Prop :=
| c_wait st c p rest s k m aps :
    (forall s', k s' = obind (wait_started m c s') (fun _ => foreach rest one)) -> waiting st c p rest s aps -> cfg (Switch s k) aps
| c_done st s aps : settled st [] s aps -> cfg (Ok tt s) aps
| c_spin st c p rest s aps : waiting st c p rest s aps -> cfg Spin aps.

Lemma settled_cons c rest st s aps :
  settled st (c :: rest) s aps ->
  (foreach (c :: rest) one s = foreach rest one s /\ settled st rest s aps) \/
  (exists p s1 k m, foreach (c :: rest) one s = Switch s1 k /\
     (forall s', k s' = obind (wait_started m c s') (fun _ => foreach rest one)) /\ waiting st c p rest s1 aps).
Proof.
  intros [B (Hcr & Hout & Hnd & Hlt & Hlen)]. apply NoDup_cons in Hnd as [Hc Hnd]. apply Forall_cons in Hlt as [Hcn Hlt]. cbn [length] in Hlen.
  cbn [foreach]. destruct (decide (c = me)) as [->|Hne].
  - left. split.
    + mstep by (unfold startothers_one; mstep with (base_me _ _ B); rewrite Nat.eqb_refl; reflexivity). done.
    + split; [done|]. split_and!; [|done..|lia]. intros i Hi Him Hb. destruct (Hcr i Hi Him Hb) as [(H1 & H2)|(H1 & H2)].
      * left. split; [|done]. by apply elem_of_cons in H1 as [?|?].
      * right. split; [|done]. by apply not_elem_of_cons in H1 as [_ ?].
  - right. destruct (start_cpu_ok st s c B Hcn ltac:(lia)) as (p & s1 & E1 & B1 & W1 & I1 & T1).
    destruct (Hcr c Hcn Hne ltac:(done)) as [(_ & Ha & Hs)|(H1 & _)]; [|by destruct H1; left].
    destruct (proj1 (Nat.neq_0_r _) (f_fuel F)) as [m Ef].
    exists p, s1, (fun s' => obind (wait_started m c s') (fun _ => foreach rest one)), m. split; [|split; [done|]].
    + unfold bind at 1. unfold startothers_one at 1. mstep with (base_me _ _ B). rewrite (proj2 (Nat.eqb_neq _ _) Hne). mstep with (E1).
      rewrite Ef. cbn [wait_started]. rewrite bind_gets, T1, Hs. reflexivity.
    + split; [done| |done|done|done|left; rewrite T1; auto]. split_and!; [|done..|cbn [length]; lia].
      intros i Hi Him Hb. rewrite T1. destruct (Hcr i Hi Him ltac:(done)) as [(H1 & H2)|(H1 & H2 & q & H3 & H4)].
      * left. split; [|done]. apply elem_of_cons in H1 as [->|?]; done.
      * right. split; [by apply not_elem_of_cons in H1 as [_ ?]|]. split; [done|]. exists q. split; [by right|done].
Qed.

Lemma waiting_settled st c p rest s aps : waiting st c p rest s aps -> sm_started s !! c <> Some 0 -> settled ((c, p) :: st) rest s aps.
Proof.
  intros [B (Hcr & Hrest) (Hc & Hm & Hn) _ _ [[Hs _]|[Hs Ha]]] Hs0; [done|]. split; [done|]. split; [|done].
  intros i Hi Him _. destruct (decide (i = c)) as [->|Hne]; [|apply Hcr; congruence].
  right. split_and!; [done|done|]. exists p. split; [by left|done].
Qed.

Lemma settled_cfg rest : forall st s aps, settled st rest s aps -> cfg (foreach rest one s) aps.
Proof.
  induction rest as [|c rest IH]; intros st s aps H; [by eapply c_done|].
  destruct (settled_cons c rest st s aps H) as [[E H']|(p & s1 & k & m & E & Hk & W)]; rewrite E; [by eapply IH|by eapply c_wait].
Qed.

Lemma look_cfg st c p rest m s aps : waiting st c p rest s aps -> cfg (obind (wait_started m c s) (fun _ => foreach rest one)) aps.
Proof.
  intros W. assert (Hs : exists v, sm_started s !! c = Some v) by (destruct (w_ap _ _ _ _ _ _ W) as [[? _]|[? _]]; eauto). destruct Hs as [v Hs].
  destruct (decide (v = 0)) as [->|Hv].
  - destruct m as [|m]; cbn [wait_started]; rewrite bind_gets, Hs; cbn; [by eapply c_spin|]. by eapply (c_wait _ _ _ _ _ _ m).
  - destruct m as [|m]; cbn [wait_started]; rewrite bind_gets, Hs; cbn [deref]; rewrite bind_ret, (proj2 (Z.eqb_neq _ _) Hv); cbn [ret obind];
      apply (settled_cfg _ ((c, p) :: st)), waiting_settled; congruence || done.
Qed.

Lemma waiting_only st c p rest s aps i a : waiting st c p rest s aps -> aps !! i = Some a -> i = c \/ a = Halted \/ exists r, a = Up r.
Proof.
  intros [_ (Hcr & Hout & _) _ _ _ _] Hi. destruct (decide (i = c)) as [->|Hne]; [by left|]. right.
  destruct (decide (i < n)%nat) as [Hn|Hn]; [|left; apply (Hout i); [done|left; lia]].
  destruct (decide (i = me)) as [->|Hm]; [left; apply (Hout me); [done|by right]|].
  destruct (Hcr i Hn Hm ltac:(congruence)) as [(_ & H & _)|(_ & _ & q & _ & H)]; rewrite Hi in H; injection H as ->; eauto.
Qed.

Lemma crowd_upd c st rest s s' aps a :
  (c < n)%nat -> c <> me -> (forall i, i <> c -> sm_started s' !! i = sm_started s !! i) -> crowd (Some c) st rest s aps -> crowd (Some c) st rest s' (<[c := a]> aps).
Proof.
  intros Hc Hm Hs (Hcr & Hout & Hrest). split; [|split; [|done]].
  - intros i Hi Him Hb. assert (Hne : i <> c) by congruence. rewrite Hs, list_lookup_insert_ne by done. by apply Hcr.
  - intros i b Hb Ho. destruct (decide (i = c)) as [->|Hne]; [lia|]. rewrite list_lookup_insert_ne in Hb by done. by apply (Hout i).
Qed.

Lemma waiting_moves st c p rest s aps a :
  waiting st c p rest s aps -> sm_started s !! c = Some 0 -> a = Reset 28672 \/ a = Entered (regs_of mpenter_addr entrypgdir_addr p) ->
  waiting st c p rest s (<[c := a]> aps).
Proof.
  intros [B Hcr Hc W I Ha] Hs Hor. assert (Hlen : (c < length aps)%nat) by (destruct Ha as [[_ [H|[H|H]]]|[_ H]]; by eapply lookup_lt_Some).
  split; [done|destruct Hc as (? & ? & _); by apply (crowd_upd c _ _ s)|done|done|done|]. left. split; [done|]. right.
  rewrite list_lookup_insert_eq by done. by destruct Hor as [->| ->]; auto.
Qed.

Lemma waiting_up st c p rest s aps x la :
  waiting st c p rest s aps -> sm_started s !! c = Some 0 -> hw_cpus (hw_of s) !! c = Some x ->
  exists s', mpenter_up icr (as_cpu (c_apicid x) la s) = Ok tt s' /\
    waiting st c p rest (back s s') (<[c := Up (regs_of mpenter_addr entrypgdir_addr p)]> aps) /\ sm_started (back s s') !! c = Some 1.
Proof.
  intros [B Hcr Hc W I Ha] Hs Hx. assert (Hlen : (c < length aps)%nat) by (destruct Ha as [[_ [H|[H|H]]]|[_ H]]; by eapply lookup_lt_Some).
  destruct (mpenter_up_ok _ s c x la B (proj1 Hc) Hx) as (s' & E & B' & T & Em). exists s'. split; [done|].
  assert (T' : sm_started (back s s') !! c = Some 1).
  { change (sm_started s' !! c = Some 1). rewrite T. apply list_lookup_insert_eq. by eapply lookup_lt_Some. }
  split; [|done]. split; [done| |done| | |right; split; [done|by apply list_lookup_insert_eq]].
  - destruct Hc as (Hc & Hm & _). apply (crowd_upd c _ _ s); [done|done| |done]. intros i Hi. change (sm_started s' !! i = sm_started s !! i). rewrite T. by rewrite list_lookup_insert_ne.
  - change (words p (mem_of s')). by rewrite Em.
  - exact I.
Qed.

(** Only the processor that was started can answer the interrupt. *)
Lemma waiting_target st c p rest s aps i x vec :
  waiting st c p rest s aps -> (i < hw_ncpu (hw_of s))%nat -> hw_cpus (hw_of s) !! i = Some x -> startup_ipi (sm_m s) = Some (c_apicid x, vec) ->
  i = c /\ vec = 28672.
Proof.
  intros [B _ (Hc & _) _ (id & Hid & I) _] Hi Hx E. rewrite I in E. injection E as Ex <-. split; [|done]. rewrite (b_ncpu _ _ B) in Hi.
  apply (NoDup_lookup (take n ids) i c id); [apply (f_nodup F)| |]; rewrite lookup_take_lt by done; [|done].
  rewrite <- (b_ids _ _ B), list_lookup_fmap, Hx. cbn. congruence.
Qed.

Abbreviation move := (step entryother mpenter_addr icr).

Lemma step_cfg o aps o' aps' : cfg o aps -> move (o, aps) (o', aps') -> cfg o' aps'.
Proof.
  intros C Hst. inversion Hst as [s k aps0|s k aps0 i x vec Hi Hx Hipi Ha|s k aps0 i vec Ha Him|s k aps0 i x r la s' Ha Hr Hx Hup]; subst;
    inversion C as [st c p rest s0 k0 m aps0' Hk W| |]; subst.
  - rewrite Hk. by eapply look_cfg.
  - destruct (waiting_target _ _ _ _ _ _ _ _ _ W Hi Hx Hipi) as [-> ->]. eapply c_wait; [exact Hk|]. apply waiting_moves; [exact W| |by left].
    destruct (w_ap _ _ _ _ _ _ W) as [[? _]|[_ H]]; congruence.
  - destruct (waiting_only _ _ _ _ _ _ _ _ W Ha) as [->|[?|[??]]]; [|done..]. eapply c_wait; [exact Hk|].
    destruct (w_ap _ _ _ _ _ _ W) as [[? [H|[H|H]]]|[_ H]]; [congruence| |congruence..].
    rewrite Ha in H. injection H as ->. apply waiting_moves; [exact W|done|]. right. f_equal. exact (w_words _ _ _ _ _ _ W).
  - destruct (waiting_only _ _ _ _ _ _ _ _ W Ha) as [->|[?|[??]]]; [|done..]. eapply c_wait; [exact Hk|].
    destruct (w_ap _ _ _ _ _ _ W) as [[? [H|[H|H]]]|[_ H]]; [congruence..| |congruence].
    rewrite Ha in H. injection H as ->. destruct (waiting_up _ _ _ _ _ _ x la W ltac:(done) Hx) as (s2 & E2 & W2 & _). rewrite Hup in E2. injection E2 as <-. exact W2.
Qed.

(** The processor that is waited for can come up. *)
Lemma waiting_comes_up st c p rest s k aps :
  waiting st c p rest s aps -> exists s' aps', rtc move (Switch s k, aps) (Switch s' k, aps') /\ waiting st c p rest s' aps' /\ sm_started s' !! c = Some 1.
Proof.
  intros W. destruct (base_cpu _ s c (w_base _ _ _ _ _ _ W)) as (x & Hx & Hid & _); [apply W|].
  assert (Hup : forall aps, waiting st c p rest s aps -> sm_started s !! c = Some 0 -> aps !! c = Some (Entered (regs_of mpenter_addr entrypgdir_addr p)) ->
    exists s' aps', rtc move (Switch s k, aps) (Switch s' k, aps') /\ waiting st c p rest s' aps' /\ sm_started s' !! c = Some 1).
  { intros aps1 W1 Hs1 Ha1. destruct (waiting_up _ _ _ _ _ _ x (fun _ => 0) W1 Hs1 Hx) as (s' & E & W' & T).
    eexists _, _. split; [|split; [exact W'|exact T]]. apply rtc_once. by eapply s_up. }
  assert (Hen : forall aps, waiting st c p rest s aps -> sm_started s !! c = Some 0 -> aps !! c = Some (Reset 28672) ->
    exists s' aps', rtc move (Switch s k, aps) (Switch s' k, aps') /\ waiting st c p rest s' aps' /\ sm_started s' !! c = Some 1).
  { intros aps1 W1 Hs1 Ha1. pose proof (waiting_moves _ _ _ _ _ _ _ W1 Hs1 (or_intror eq_refl)) as W2.
    destruct (Hup _ W2 Hs1) as (s' & aps' & R & H); [apply list_lookup_insert_eq; by eapply lookup_lt_Some|]. exists s', aps'. split; [|done].
    pose proof (s_enter entryother mpenter_addr icr s k aps1 c 28672 Ha1 (b_image _ _ (w_base _ _ _ _ _ _ W1))) as Hst.
    pose proof (w_words _ _ _ _ _ _ W1) as Ew. unfold words, code in Ew. rewrite Ew in Hst. by eapply rtc_l. }
  destruct (w_ap _ _ _ _ _ _ W) as [[Hs [Ha|[Ha|Ha]]]|[Hs Ha]]; [|by apply Hen|by apply Hup|by exists s, aps].
  pose proof (waiting_moves _ _ _ _ _ _ _ W Hs (or_introl eq_refl)) as W2.
  destruct (Hen _ W2 Hs) as (s' & aps' & R & H); [apply list_lookup_insert_eq; by eapply lookup_lt_Some|]. exists s', aps'. split; [|done].
  eapply rtc_l; [|exact R]. destruct (w_ipi _ _ _ _ _ _ W) as (id & Hid' & I). rewrite Hid in Hid'. injection Hid' as <-.
  eapply s_reset; [rewrite (b_ncpu _ _ (w_base _ _ _ _ _ _ W)); apply W|exact Hx|exact I|exact Ha].
Qed.

Lemma waiting_goes_on st c p rest m s k aps :
  waiting st c p rest s aps -> (forall s', k s' = obind (wait_started m c s') (fun _ => foreach rest one)) ->
  exists s' aps', rtc move (Switch s k, aps) (foreach rest one s', aps') /\ settled ((c, p) :: st) rest s' aps'.
Proof.
  intros W Hk. destruct (waiting_comes_up _ _ _ _ _ k _ W) as (s2 & aps2 & R2 & W2 & T2). exists s2, aps2.
  split; [|apply waiting_settled; [done|congruence]]. etrans; [exact R2|]. apply rtc_once.
  assert (E : k s2 = foreach rest one s2) by (rewrite Hk; destruct m; cbn [wait_started]; rewrite bind_gets, T2; reflexivity).
  rewrite <- E. apply s_look.
Qed.

Lemma settled_finishes rest : forall st s aps, settled st rest s aps -> exists s' aps', rtc move (foreach rest one s, aps) (Ok tt s', aps').
Proof.
  induction rest as [|c rest IH]; intros st s aps H; [by exists s, aps|].
  destruct (settled_cons c rest st s aps H) as [[E H']|(p & s1 & k & m & E & Hk & W)]; rewrite E; [by eapply IH|].
  destruct (waiting_goes_on _ _ _ _ _ _ _ _ W Hk) as (s2 & aps2 & R2 & S2). destruct (IH _ _ _ S2) as (s3 & aps3 & R3).
  exists s3, aps3. by etrans.
Qed.

Lemma cfg_finishes o aps : cfg o aps -> o <> Spin -> exists s' aps', rtc move (o, aps) (Ok tt s', aps').
Proof.
  intros [st c p rest s k m aps1 Hk W|st s aps1 _|] Ho; [|by exists s, aps1|done].
  destruct (waiting_goes_on _ _ _ _ _ _ _ _ W Hk) as (s2 & aps2 & R2 & S2). destruct (settled_finishes _ _ _ _ S2) as (s3 & aps3 & R3).
  exists s3, aps3. by etrans.
Qed.

(** Every processor that runs has its own page. *)
Lemma cfg_stacks o aps : cfg o aps -> exists st fr, map snd st ++ fr ≡ₚ l /\
  forall i r, loaded aps i r -> exists p, (i, p) ∈ st /\ r = regs_of mpenter_addr entrypgdir_addr p.
Proof.
  assert (Hcrowd : forall but st rest s aps i r, crowd but st rest s aps -> but <> Some i -> loaded aps i r -> exists p, (i, p) ∈ st /\ r = regs_of mpenter_addr entrypgdir_addr p).
  { intros but st rest s aps1 i r (Hcr & Hout & _) Hb Hl. assert (Hi : (i < n)%nat /\ i <> me).
    { split; [destruct (decide (i < n)%nat); [done|]|intros ->]; destruct Hl as [Hl|Hl]; apply Hout in Hl; (done || (left; lia) || by right). }
    destruct (Hcr i (proj1 Hi) (proj2 Hi) Hb) as [(_ & H & _)|(_ & _ & p & Hp & H)]; destruct Hl as [Hl|Hl]; rewrite Hl in H; try done.
    injection H as ->. by exists p. }
  assert (Hwait : forall st c p rest s aps, waiting st c p rest s aps -> exists st fr, map snd st ++ fr ≡ₚ l /\
    forall i r, loaded aps i r -> exists p, (i, p) ∈ st /\ r = regs_of mpenter_addr entrypgdir_addr p).
  { intros st c p rest s aps1 W. destruct (b_mem _ _ (w_base _ _ _ _ _ _ W)) as (fr & _ & Hp). exists ((c, p) :: st), fr. split; [done|]. intros i r Hl.
    destruct (decide (i = c)) as [->|Hne]; [|eapply Hcrowd; [exact (w_crowd _ _ _ _ _ _ W)|congruence|done]].
    exists p. split; [by left|]. destruct Hl as [Hl|Hl], (w_ap _ _ _ _ _ _ W) as [[_ [H|[H|H]]]|[_ H]]; congruence. }
  intros [st c p rest s k m aps1 _ W|st s aps1 [B Hcr]|st c p rest s aps1 W]; [by eapply Hwait| |by eapply Hwait].
  destruct (b_mem _ _ B) as (fr & _ & Hp). exists st, fr. split; [done|]. intros i r Hl. by eapply Hcrowd.
Qed.

Lemma memmove_at bs a mem : image_at bs a (memmove a bs mem).
Proof.
  intros k b Hb. pose proof (lookup_lt_Some _ _ _ Hb). unfold memmove.
  rewrite (proj2 (Z.leb_le _ _)), (proj2 (Z.ltb_lt _ _)) by lia. cbn [andb]. replace (Z.to_nat _) with k by lia. by apply nth_lookup_Some.
Qed.

Lemma memmove_other bs a mem x : ~ (a <= x < a + Z.of_nat (length bs)) -> memmove a bs mem x = mem x.
Proof. intros H. unfold memmove. destruct (Z.leb_spec a x), (Z.ltb_spec x (a + Z.of_nat (length bs))); [lia|done..]. Qed.
End Proofs.

(** Before [startothers] the code of entryother is not yet in place. *)
Definition ready {A : Ata} (kernel_end : Z) (n me : nat) (ids l : list Z) (s : smp) : Prop :=
  base [] kernel_end n me ids l [] s /\ forall i, (i < n)%nat -> i <> me -> sm_started s !! i = Some 0.

Lemma ready_settled {A : Ata} {fl : Fuel} entryother mpenter_addr entrypgdir_addr kernel_end n me ids l (s : smp) :
  fits entryother mpenter_addr kernel_end n me ids l -> ready kernel_end n me ids l s ->
  settled entryother mpenter_addr entrypgdir_addr kernel_end n me ids l [] (seq 0 n)
    (s <| sm_m ::= set m_k (set k_mem (memmove code entryother)) |>) (replicate n Halted).
Proof.
  intros F [B Hs]. split.
  - split; rsimpl; try apply B; [|apply memmove_at]. destruct (b_mem _ _ _ _ _ _ _ _ B) as (fr & HI & Hp). exists fr. split; [|done].
    apply KmemInv_low with (s := m_k (sm_m s)); [|done|done]. intros a Ha. rsimpl. apply memmove_other. pose proof (f_end _ _ _ _ _ _ _ F). lia.
  - split_and!.
    + intros i Hi Hm _. left. split_and!; [apply elem_of_seq; lia|by apply lookup_replicate_2|by apply Hs].
    + intros i a Ha _. by apply lookup_replicate in Ha as [-> _].
    + apply NoDup_seq.
    + apply Forall_forall. intros i Hi%elem_of_seq. lia.
    + rewrite length_seq. cbn. apply (f_pages _ _ _ _ _ _ _ F).
Qed.

Lemma regs_of_inj a b p q : 0 <= p < 4294967296 -> 0 <= q < 4294967296 -> regs_of a b p = regs_of a b q -> p = q.
Proof. intros Hp Hq E. injection E as E. unfold u32, KSTACKSIZE in E. Z.div_mod_to_equations. lia. Qed.

Lemma snd_inj (st : list (nat * Z)) p i j : NoDup (map snd st) -> (i, p) ∈ st -> (j, p) ∈ st -> i = j.
Proof.
  intros Hnd [a Ha]%list_elem_of_lookup_1 [b Hb]%list_elem_of_lookup_1.
  assert (a = b) as <-; [|congruence]. apply (NoDup_lookup (map snd st) a b p Hnd); by rewrite list_lookup_fmap, ?Ha, ?Hb.
Qed.

(** What [cprintf] does without the lock. *)
Definition say {A : Ata} (l : list Z) (m : mach) : mach := m <| m_k ::= set k_cons (emits l) |>.
Definition unlocked_console {A : Ata} (m : mach) : Prop := con_ok (k_cons (m_k m)) /\ cn_locking (k_cons (m_k m)) = false.

Lemma say_app {A : Ata} l1 l2 (m : mach) : say l2 (say l1 m) = say (l1 ++ l2) m.
Proof. destruct m as [[]]. unfold say, set; cbn. by rewrite emits_app. Qed.

Lemma say_unlocked {A : Ata} l (m : mach) : unlocked_console m -> unlocked_console (say l m).
Proof.
  intros [H1 H2]. split; [by apply con_ok_emits|]. unfold say; rsimpl. rewrite <- H2. generalize (k_cons (m_k m)).
  induction l as [|c l IH]; intros cn; [done|]. cbn. unfold emits in IH. by rewrite IH, emit_locking.
Qed.

Lemma cprintf_says {A : Ata} fmt args l (m : mach) : unlocked_console m -> render fmt args = Some l -> kop (cprintf fmt args) m = Ok tt (say l m).
Proof.
  intros [H1 H2] Hr. erewrite kop_ok; [reflexivity|]. unfold cprintf. rewrite bind_gets, H2. cbn [when]. rewrite bind_ret.
  mstep by (by apply format_ok). done.
Qed.

Definition pc_text (pc : Z) : list Z := 32 :: printint_chars (i32 pc) 16 false.

Lemma print_pcs {A : Ata} pcs : forall m : mach, unlocked_console m ->
  foreach pcs (fun pc => kop (cprintf (bytes " %p") [AInt pc])) m = Ok tt (say (concat (map pc_text pcs)) m).
Proof.
  induction pcs as [|pc pcs IH]; intros m H; cbn [foreach map concat]; [by destruct m as [[]]|].
  assert (E : render (bytes " %p") [AInt pc] = Some (pc_text pc)).
  { change (Some (32 :: printint_chars (i32 pc) 16 false ++ []) = Some (pc_text pc)).
    by rewrite app_nil_r. }
  mstep by (by apply (cprintf_says _ _ (pc_text pc))). rewrite IH by (by apply say_unlocked). by rewrite say_app.
Qed.

(** ** Properties *)

(** C28. The other processors are started one by one, each on a stack of its own.  Whatever
    the order in which the boot processor looks and the others move, [startothers]
    neither panics nor faults; every processor that has run entryother.S was given the
    boot page directory, the address of [mpenter] and the top of a page from the free
    list, and no two of them the same page; when [startothers] returns all of them are up
    and their pages are no longer free.  As long as it has not given up waiting, all of
    them can still come up. *)
Theorem startothers_starts {A : Ata} {tr : Traps} {vm : VM} {su : Setup} {fl : Fuel} entryother mpenter_addr entrypgdir_addr icr
    {laws : SetupLaws vm su icr} kernel_end n me ids l s o aps :
  fits entryother mpenter_addr kernel_end n me ids l -> ready kernel_end n me ids l s ->
  rtc (step entryother mpenter_addr icr) (startothers entryother mpenter_addr entrypgdir_addr s, replicate n Halted) (o, aps) ->
  (forall i r, loaded aps i r -> exists p, p ∈ l /\ r = regs_of mpenter_addr entrypgdir_addr p) /\
  (forall i j r, loaded aps i r -> loaded aps j r -> i = j) /\
  (o <> Spin -> exists s' aps', rtc (step entryother mpenter_addr icr) (o, aps) (Ok tt s', aps')) /\
  match o with
  | Ok _ s' => exists st fr, KmemInv kernel_end (m_k (sm_m s')) fr /\ map snd st ++ fr ≡ₚ l /\
      forall i, (i < n)%nat -> i <> me -> exists p, (i, p) ∈ st /\ aps !! i = Some (Up (regs_of mpenter_addr entrypgdir_addr p))
  | Switch _ _ | Spin => True
  | Panic _ | Fault => False
  end.
Proof.
  intros F HR Hrun. pose proof (ready_settled _ _ entrypgdir_addr _ _ _ _ _ _ F HR) as H0.
  assert (Hc : forall x y, rtc (step entryother mpenter_addr icr) x y ->
    cfg entryother mpenter_addr entrypgdir_addr kernel_end n me ids l x.1 x.2 -> cfg entryother mpenter_addr entrypgdir_addr kernel_end n me ids l y.1 y.2).
  { intros x y R. induction R as [|x y z Hst _ IH]; [done|]. intros Hx. apply IH. destruct x, y. by eapply step_cfg. }
  apply Hc in Hrun; cbn [fst snd] in Hrun.
  2:{ cbn [fst snd]. unfold startothers, mem_upd. rewrite bind_modify, bind_gets. rsimpl. rewrite (b_ncpu _ _ _ _ _ _ _ _ (proj1 HR)). by eapply settled_cfg. }
  clear Hc. destruct (cfg_stacks _ _ _ _ _ _ _ _ _ _ Hrun) as (st & fr & Hp & Hst). pose proof (proj1 (f_pages _ _ _ _ _ _ _ F)) as Hnd.
  destruct (b_mem _ _ _ _ _ _ _ _ (proj1 HR)) as (fr0 & [_ _ Hok] & Hp0). cbn [map app] in Hp0. rewrite Hp0, Forall_forall in Hok.
  assert (Hin : forall i p, (i, p) ∈ st -> p ∈ l).
  { intros i p Hi. rewrite <- Hp. apply elem_of_app. left. apply list_elem_of_fmap. by exists (i, p). }
  split_and!.
  - intros i r Hl. destruct (Hst i r Hl) as (p & Hi & ->). exists p. split; [by eapply Hin|done].
  - intros i j r Hi Hj. destruct (Hst i r Hi) as (p & Hp1 & ->), (Hst j _ Hj) as (q & Hq1 & E). rewrite <- Hp in Hnd. apply NoDup_app in Hnd as [Hnd _].
    assert (p = q) as <-.
    { apply (regs_of_inj mpenter_addr entrypgdir_addr); [..|done]; [apply Hin, Hok, page_ok_spec in Hp1|apply Hin, Hok, page_ok_spec in Hq1]; lia. }
    by apply (snd_inj st p).
  - intros Ho. by apply (cfg_finishes _ _ _ _ _ _ _ _ _ F _ _ Hrun).
  - destruct Hrun as [|st' s' aps' [B (Hcr & _)]|]; [done| |done]. destruct (b_mem _ _ _ _ _ _ _ _ B) as (fr' & HI & Hp'). exists st', fr'. split_and!; [done|done|].
    intros i Hi Hm. destruct (Hcr i Hi Hm ltac:(done)) as [(H & _)|(_ & _ & H)]; [by apply not_elem_of_nil in H|done].
Qed.

(** Two processors, and two free pages. *)
Definition vm_start : VM := Build_VM (fun _ _ _ => ret 0) (fun _ _ _ => ret 0) (fun _ _ => ret 0) (fun _ => ret tt) (fun _ => ret tt) (ret tt).
Definition setup_start : @Setup no_disk := Build_Setup no_disk (ret tt) (ret tt) (ret tt) (outb 100 1) (ret tt).
Definition entryother_start : list Z := [250; 49; 192].
Definition pages_start : list Z := [page_example; page_example + PGSIZE].
Definition smp_start : @smp no_disk :=
  mkSmp no_disk
    (mkMach no_disk
      (bss <| k_hw := mkHw false 5 2 (mkCpu 5 0 false None :: mkCpu 3 0 false None :: replicate 6 (mkCpu 0 0 false None)) (<[LCons := unlocked]> ∅) |>
           <| k_kmem := mkKmem false page_example |>
           <| k_mem := store32 page_example (page_example + PGSIZE) (fun _ => 0) |>
           <| k_cons ::= set cn_locking (fun _ => true) |>)
      0 (fun _ => 0) 0 true (fun _ => 0) [] tt None (fun _ => None) 0)
    (replicate 8 0).

Lemma laws_start : SetupLaws vm_start setup_start [4096; 0].
Proof. split; [done|intros m; by eexists|intros m; by eexists|]. apply Exists_cons_tl, Exists_cons_hd. reflexivity. Qed.

Lemma ready_start : ready kernel_end_example 2 0 [5; 3; 0; 0; 0; 0; 0; 0] pages_start smp_start.
Proof.
  split.
  - split; [reflexivity|reflexivity|apply (bool_decide_unpack _); vm_compute; exact I|reflexivity|reflexivity|reflexivity|split; [reflexivity|split; vm_compute; congruence]|reflexivity| |intros k b H; by rewrite lookup_nil in H].
    exists pages_start. split; [|done]. split.
    + vm_compute. auto.
    + apply (bool_decide_unpack _). vm_compute. exact I.
    + repeat constructor.
  - intros i Hi _. apply lookup_replicate_2. lia.
Qed.

Lemma startothers_starts_witness :
  exists s' aps' p, rtc (step (tr := traps_demo) (vm := vm_start) (su := setup_start) entryother_start 2148600000 [4096; 0])
      (startothers (fl := (1%nat : Fuel)) entryother_start 2148600000 2148663296 smp_start, [Halted; Halted]) (Ok tt s', aps') /\
    aps' !! 1%nat = Some (Up (regs_of 2148600000 2148663296 p)).
Proof.
  assert (F : @fits (1%nat : Fuel) entryother_start 2148600000 kernel_end_example 2 0 [5; 3; 0; 0; 0; 0; 0; 0] pages_start).
  { split; [cbn; lia|apply (bool_decide_unpack _); vm_compute; exact I|apply (bool_decide_unpack _); vm_compute; exact I|vm_compute; discriminate|lia| |discriminate].
    split; [apply (bool_decide_unpack _); vm_compute; exact I|cbn; lia]. }
  destruct (startothers_starts (tr := traps_demo) entryother_start 2148600000 2148663296 [4096; 0] (laws := laws_start)
    kernel_end_example 2 0 _ pages_start smp_start _ _ F ready_start (rtc_refl _ _)) as (_ & _ & H & _).
  destruct H as (s' & aps' & R).
  { assert (E : match startothers (fl := (1%nat : Fuel)) (A := no_disk) entryother_start 2148600000 2148663296 smp_start with Spin => false | _ => true end = true)
      by (vm_compute; reflexivity).
    intros H. rewrite H in E. discriminate E. }
  destruct (startothers_starts (tr := traps_demo) entryother_start 2148600000 2148663296 [4096; 0] (laws := laws_start)
    kernel_end_example 2 0 _ pages_start smp_start _ _ F ready_start R) as (_ & _ & _ & st & fr & _ & _ & H).
  destruct (H 1%nat) as (p & _ & Hp); [lia|discriminate|]. exists s', aps', p. split; [exact R|exact Hp].
Defined.

(** [panic] always gets its message out, also when the console lock is held: it prints the
    processor, the message and the ten callers, leaves the locks as they are, and loops
    for ever with interrupts off; and from then on every processor that writes to the
    console stops. *)
Theorem panic_freezes {A : Ata} msg text v (m : mach) :
  con_ok (k_cons (m_k m)) -> render msg [] = Some text ->
  let id := if m_lapic m then Z.shiftr (m_la m ID) 24 else 0 in
  let shown := bytes "lapicid " ++ printint_chars (i32 id) 10 true ++ bytes ": panic: " ++ text ++ [10] ++
               concat (map pc_text (getcallerpcs (load32 (k_mem (m_k m))) v)) in
  exists m', panic_report msg v m = Ok tt m' /\ panic_loop msg v m = Spin /\
    cn_uart (k_cons (m_k m')) = cn_uart (k_cons (m_k m)) ++ concat (map (fun c => if c =? BACKSPACE then [8; 32; 8] else [c]) shown) /\
    hw_if (k_hw (m_k m')) = false /\ hw_locks (k_hw (m_k m')) = hw_locks (k_hw (m_k m)) /\
    forall s c, k_cons s = k_cons (m_k m') -> consputc c s = Spin.
Proof.
  intros Hc Hr id shown. set (m1 := m <| m_k ::= fun k => k <| k_hw ::= set hw_if (fun _ => false) |> <| k_cons ::= set cn_locking (fun _ => false) |> |>).
  assert (U : unlocked_console m1) by done.
  assert (E : panic_report msg v m = Ok tt ((say shown m1) <| m_k ::= set k_cons (fun cn => cn <| cn_panicked := true |>) |>)).
  { unfold panic_report. mstep by (apply kop_ok; reflexivity). mstep by (apply kop_ok; reflexivity).
    match goal with |- bind lapicid _ ?x = _ => change x with m1 end.
    assert (EI : lapicid m1 = Ok id m1) by (unfold lapicid, id; rewrite bind_gets; change (m_lapic m1) with (m_lapic m); by destruct (m_lapic m)).
    mstep with (EI).
    set (who := bytes "lapicid " ++ printint_chars (i32 id) 10 true ++ bytes ": panic: ").
    mstep by (by apply (cprintf_says _ _ who)). apply (say_unlocked who) in U as U1.
    mstep by (by apply (cprintf_says _ _ text)). apply (say_unlocked text) in U1 as U2.
    mstep by (by apply (cprintf_says _ _ [10])). apply (say_unlocked [10]) in U2 as U3.
    mstep. mstep by (by apply print_pcs). rewrite !say_app. unfold shown, who. by rewrite <- !app_assoc. }
  exists ((say shown m1) <| m_k ::= set k_cons (fun cn => cn <| cn_panicked := true |>) |>). split; [exact E|]. split; [unfold panic_loop; by mstep|].
  split_and!; [|done|done|].
  - exact (emits_uart shown (k_cons (m_k m1))).
  - intros s c Es. unfold consputc. rewrite bind_gets, Es. done.
Qed.
